(* ===== verification/_CoqProject ===== *)
-Q . S2P
Prelude.v
Strtol.v
Gpio.v
Board.v
Dogfeed.v
Schedule.v
Tasks.v
Interleave.v
Feeder.v
Preempt.v
Server.v
Queue.v
Wdog.v
Sleep.v
Heap.v
HeapRep.v
Alloc.v
HeapBytes.v
HeapInit.v
HeapClient.v
HeapOps.v
Realloc.v
Calloc.v
Resize.v
Sched.v
SchedRep.v
SchedSpec.v
Sem.v
Kernel.v
Runs.v
Turns.v
Pids.v
Timeout.v
Inode.v
InodeTree.v
InodeSpec.v
InodeOps.v
KmmHeap.v
Files.v
Dirs.v
FilesSpec.v
FilesOps.v
FilesTree.v
DirsSpec.v
FilesHist.v
Boot.v
Devices.v
FsProps.v
DirsProps.v
