(* ===== verification/Prelude.v ===== *)
(** * The dog feeder of the greenbone board and the kernel services under it

    The repository is the NuttX operating system with one program of its own,
    a dog feeder for the greenbone board (STM32F107).  The development follows
    the configuration [nuttx/config_ethernet_dogfeed]: assertions enabled,
    one memory region, 32-bit pointers, 10 ms timer ticks, no tickless mode.

    ** The parts and how they interact

    The main task ([apps/examples/dogfeed/dogfeed.c]) polls six buttons, edits
    three settings, keeps the time by counting [usleep] calls and switches a
    motor and a valve.  The server task ([apps/examples/dogfeed/server.c])
    decodes three-byte commands from a TCP socket and changes the same
    variables, without a lock, and the main task, which has the higher priority,
    can come in at any point of it.  Both reach the hardware through descriptors
    ([fs/vfs]) that they open on names in the tree of inodes ([fs/inode],
    [fs/driver]); behind the names are the board's character drivers
    ([nuttx/configs/greenbone/src]) on the GPIO driver
    ([arch/arm/src/stm32/stm32_gpio.c]).  [usleep] waits for a watchdog timer
    ([sched/wdog], [sched/signal], [sched/clock]), which lives on the queues of
    [libc/queue]; tasks, buffers and timers come from the heap ([mm/mm_heap]).
    The scheduler ([sched/sched], [arch/arm/src/armv7-m]) keeps the tasks in
    lists on the same queues and gives the processor to the first of the ready
    ones; semaphores ([sched/semaphore]) block and wake tasks through it.

    ** Which file models what

    - [Prelude]: results with undefined behaviour as values ([res], [ub]), the
      state monad [M] with its weakest preconditions [wp], machine integers
      ([u8], [u16], [u32], [i32]), tactics and hints.
    - [Strtol]: [strtol], [strtoul] and [atoi] of [libc/stdlib].
    - [Gpio]: [stm32_gpio.c] over an interface of registers ([Stm32Gpio] with
      its laws [Stm32GpioLaws]; [F1] is a register file that has them).
    - [Board]: the drivers [stm32_led.c], [stm32_button.c], [stm32_display.c],
      [stm32_valve.c], [stm32_motor.c] and their start-up [stm32_nsh.c].
    - [Dogfeed]: the variables of [dogfeed.c] as the record [feeder], one
      definition for each of its functions, and the main loop split at
      [usleep]; [Schedule]: the loop over time; [Tasks]: the server's calls, and
      the keypad; [Interleave]: the server's calls as sequences of single
      accesses to the variables ([steps]), with steps of the main task between
      any two ([tstep]).
    - [Feeder]: [dogfeed_main] as a whole on the registers of the board;
      [Preempt]: both tasks on the registers, the server's drivers pin by pin
      ([fstep]).
    - [Server]: [server.c], with the results of the socket calls as inputs.
    - [Queue]: [libc/queue], modules [Sq] and [Dq].
    - [Wdog]: [sched/wdog]; the functions that watchdogs call are a parameter,
      a list of watchdog operations for each function.
    - [Sleep]: [usleep], [nanosleep], the wait of [sigtimedwait], the tick
      conversions and the timer interrupt, on [Wdog]; what happens to a sleeping
      task is a sequence of ticks, operations of others, signals, and the
      scheduler giving it the processor.
    - [Heap]: all operations of [mm/mm_heap], on a memory of 32-bit words;
      [HeapRep]: the representation, a list of chunks with the free list;
      [Alloc]: [mm_malloc] and [mm_free] on it; [HeapBytes]: [memset] and
      [memcpy]; [HeapInit]: [mm_initialize]; [HeapClient]: a task that uses the
      heap; [HeapOps]: best fit, merging, [mm_mallinfo], [mm_extend];
      [Realloc]: [mm_shrinkchunk], [mm_memalign]; [Calloc]: [mm_zalloc],
      [mm_calloc]; [Resize]: [mm_realloc].
    - [Sched]: the task lists, context switches, preemption lock, priorities and
      time slices; [SchedRep]: the TCBs and links as lists of tasks, and the
      list operations on them; [SchedSpec]: the operations as functions on
      lists, the scheduler's invariant, and that the code implements them.
    - [Sem]: the semaphores, with what they do to the lists of tasks; [Kernel]:
      runs of calls, resumptions and interrupts ([run_events]), what they mean
      ([spec_events]) and which of them stop the system on an assertion
      ([legal_events]); [Runs] and [Turns]: the theorems about all runs.
    - [Pids]: the table of process identifiers ([task_assignpid] of
      [sched/task/task_setup.c], [sched_gettcb], [sched_foreach],
      [sched_releasepid]) on the scheduler's lock; [Timeout]: the end of a timed
      wait, which finds its task there.
    - [Inode]: [fs/inode] and [fs/driver/fs_registerdriver.c], with the
      allocator as the interface [Kmm]; [InodeTree]: trees of names and what the
      links represent; [InodeSpec]: searching, inserting and freeing on them;
      [InodeOps]: removing, references, drivers; [KmmHeap]: the memory manager
      of [Heap] keeps the laws [KmmLaws] of the interface.
    - [Files]: the descriptor table ([fs/inode/fs_files.c]) and [open], [close],
      [read], [write], [lseek], [ioctl], [dup], [dup2] of [fs/vfs], with the
      operations of drivers and sockets as the interfaces [Drivers] and
      [Sockets]; [Dirs]: [mkdir], [rmdir], [unlink], [fcntl], with the interface
      [DirOps]; [FilesSpec], [FilesOps], [FilesTree], [DirsSpec]: the invariant
      [vfs_ok] of descriptors and references, and what every call does on every
      branch; [FilesHist]: sequences of calls.
    - [Boot]: the descriptors a task starts with ([sched/group]): the idle task's
      on [/dev/console], and their duplication for a new task.
    - [Devices]: the drivers of [Board] as an instance of [Drivers], with the
      serial driver of the console as the interface [Console], their
      registration and their opening; [FsProps] and [DirsProps]: the theorems
      about the file system.

    ** What the theorems show

    - The feeder: [undisturbed_board] gives the level of the motor, valve and
      LED pins and the digits shown, from power-up, as a closed formula of the
      number of iterations; [feeding_schedule] does so for the flags and any
      settings; [reachable_wf] and [board_follows_program] are the invariants
      of the variables and of the pins while the main task preempts the server
      at any access; [edit_setting] is what the keypad does;
      [main_start_errors] the error returns.
    - The server: [server_protocol] refines the decoder to a command language,
      [server_robust] holds for arbitrary bytes and socket results, as long as
      [recv] returns no more than it was asked for,
      [set_then_query] is the round trip of a setting.
    - The file system: [search_exact] says that the search agrees with the tree,
      [register_outcome], [register_then_find], [unregister_outcome] and
      [release_outcome] what the tree is after the operations and when memory is
      freed, [descriptors_in_order] is the invariant of references and
      descriptors through any sequence of calls, [open_outcome],
      [close_outcome], [dup_outcome], [dup2_outcome], [mkdir_outcome],
      [rmdir_outcome], [unlink_outcome], [fcntl_outcome] and
      [fcntl_keeps_access] are the calls, errors included, [open_then_close] and
      [mkdir_then_rmdir] round trips.  [devices_connected] ties the file system
      to the feeder: with the console on 0 to 2, the program's descriptors 3 to 7
      lead to the drivers whose writes [Feeder] works with.
    - The drivers: bytes reach pins and glyphs ([display_write_shows],
      [actuator_writes]), pins reach bytes ([button_read_bits]), the levels
      after start-up ([startup_outputs]).
    - Kernel services: the queues refine lists ([sq_refinement],
      [dq_refinement]); the watchdog list with relative delays refines timers
      with absolute ones ([wd_refinement]) and a timer expires on time
      ([wd_on_time]); a sleep lasts an exact number of ticks, unless a signal
      ends it, and then until the scheduler gets to the task
      ([sleep_loop_duration]).  [strtol_signed_numeral] is what text means as a
      number.
    - The heap: [initialize_heap] establishes the representation,
      [client_isolation] is memory safety and freedom from leaks for a client,
      [malloc_best_fit], [free_coalesces], [memalign_aligned], [calloc_zeroed],
      [realloc_resizes], [mallinfo_totals] and [extend_heap] are the contracts
      of the operations.
    - The scheduler and the semaphores: [kernel_refinement] is the refinement of
      the code to lists of tasks, for every run of tasks and interrupts;
      [running_is_highest], [contexts_isolated], [lock_keeps_processor] and
      [kernel_fields_in_range] hold in every run; [semaphore_accounting] is
      the conservation of counts; [round_robin_turn] and [post_wakes_highest]
      say who is next; [mergepending_is_insertion] and
      [waiter_search_terminates] are about the list walks, [sem_error_paths]
      about errors.  [pid_table_refinement] and [foreach_visits_all] are about
      process identifiers, [sem_timeout_cancels] about timed waits.
    - Where the code does not do what it means to, the behaviour is a theorem
      as well: [decrement_wraps] and [torn_leds] (the two tasks without a lock),
      [yield_ignores_lock], [keypad_division_by_zero], [server_set_then_up],
      [separator_shifts_digits], [leds_read_high_bits], [wd_create_exhausted],
      [malloc_wraps], [calloc_wraps], [extend_breaks_mallinfo],
      [memalign_breaks_realloc], [memalign_zero_overwrites],
      [realloc_reads_past_end], [basename_null], [root_registered],
      [closed_descriptor_accepted], [dup2_returns_zero],
      [removed_under_open_file], [unlink_keeps_lock], [fcntl_bad_descriptor],
      [dupfd_negative].

    ** Bounds and fuel

    Loops of the source that are not bounded by an argument take fuel from the
    state: the searches of queues and of the free list, and the walk over the
    heap, have the number of nodes or words that exist, which no list without
    a cycle exceeds; running out is the value [NoFuel], and the theorems show
    that it does not occur.  [mm_size2ndx] halves a 32-bit size at most 32
    times.  The main loop, which never ends, is run for a finite number of
    iterations, arbitrary in the theorems.  The walks over task lists have the
    number of TCBs as fuel; the number of tasks is bounded by
    [CONFIG_MAX_TASKS], so a semaphore's count stays far from its lower limit.
    The searches of the inode tree and the recursive [inode_free] have the
    number of inodes, [inode_reserve] the length of the path.  Paths are shorter
    than 2^30, so the size of an inode is a 32-bit number; references that are
    held outside the descriptor table are at most 32000, so the 16-bit count of
    an inode cannot overflow.

    ** Not modelled

    The socket layer and the network (the server's theorems quantify over
    their results); creation and deletion of tasks except for their identifiers,
    signal delivery other than the end of a sleep or of a semaphore wait,
    message queues, [sem_timedwait] but for the timeout; of the file system [poll], [select],
    [stat], [rename], directory streams, mounting and the file systems that can
    be mounted, block drivers; the locks of the heap, of the inode tree and of
    the descriptor table are modelled as one task sees them; the feeder's main
    task comes in at any point of the server rather than when its [usleep]
    ends, and its own half iterations are single steps, since the calls by which it gives up
    the processor lie outside them; the registration of the console and the
    sockets and streams of a new task; code
    that the configuration leaves out ([mm_sbrk], tickless timers, priority
    inheritance, the other STM32 families); console output; the shell, other
    applications and graphics.

    ** Plan

    What is next if the development is continued: the locks of the heap and of
    the inode tree on the semaphores of [Sem], with several tasks; task creation
    with groups and stacks; signals; directory streams and [rename]. *)

From stdpp Require Export base list list_numbers numbers option gmap sorting.
From Stdlib Require Export ZArith Lia ZifyBool.

#[global] Open Scope Z_scope.

(** ** Undefined behaviour and results

    A C operation either yields a value or leaves the defined part of the
    language; [res] keeps the second case as a value, so that "never
    undefined" is something a theorem can say.  [AssertFail] is a failed
    kernel assertion ([up_assert] stops the system), [Blocked] a call that waits for
    another task.  [NoFuel] marks a loop that did
    not end within the bound its model gives it; the theorems that state a
    result [Ok] also show that this does not happen. *)

Inductive ub : Type :=
| DivByZero
| OutOfBounds
| NullDeref
| SignedOverflow
| AssertFail
| Blocked
| NoFuel.

#[export] Instance ub_eq_dec : EqDecision ub.
Proof. solve_decision. Defined.

Inductive res (A : Type) : Type :=
| Ok (a : A)
| Undef (u : ub).
Arguments Ok {A} a.
Arguments Undef {A} u.

Definition res_bind {A B} (m : res A) (k : A → res B) : res B :=
  match m with
  | Ok a => k a
  | Undef u => Undef u
  end.

Definition is_ok {A} (m : res A) : bool :=
  match m with
  | Ok _ => true
  | Undef _ => false
  end.

(** ** The state monad of the components

    Stateful code is a function from the state to a result that carries the
    new state. *)

Definition M (S A : Type) : Type := S → res (A * S).

Definition ret {S A} (a : A) : M S A := λ s, Ok (a, s).
Definition bind {S A B} (m : M S A) (k : A → M S B) : M S B :=
  λ s, res_bind (m s) (λ '(a, s'), k a s').
Definition gets {S A} (f : S → A) : M S A := λ s, Ok (f s, s).
Definition modify {S} (f : S → S) : M S unit := λ s, Ok (tt, f s).
Definition fail_ub {S A} (u : ub) : M S A := λ _, Undef u.
Definition assert_ {S} (b : bool) : M S unit :=
  if b then ret tt else fail_ub AssertFail.
Definition when {S} (b : bool) (m : M S unit) : M S unit :=
  if b then m else ret tt.

Declare Scope cmd_scope.
Delimit Scope cmd_scope with cmd.
Notation "x <-- c ;; k" := (bind c (λ x, k))
  (at level 100, c at next level, right associativity) : cmd_scope.
Notation "c ;;; k" := (bind c (λ _, k))
  (at level 100, right associativity) : cmd_scope.

(** ** Machine integers *)

Definition wrap (w z : Z) : Z := z mod 2 ^ w.
Definition u8 (z : Z) : Z := wrap 8 z.
Definition u16 (z : Z) : Z := wrap 16 z.
Definition u32 (z : Z) : Z := wrap 32 z.
Definition i32 (z : Z) : Z := (z + 2 ^ 31) mod 2 ^ 32 - 2 ^ 31.
Definition i8 (z : Z) : Z := (z + 2 ^ 7) mod 2 ^ 8 - 2 ^ 7.
Definition i16 (z : Z) : Z := (z + 2 ^ 15) mod 2 ^ 16 - 2 ^ 15.

Lemma wrap_bound w z : 0 ≤ w → 0 ≤ wrap w z < 2 ^ w.
Proof. intros. apply Z.mod_pos_bound, Z.pow_pos_nonneg; lia. Qed.

Lemma wrap_small w z : 0 ≤ z < 2 ^ w → wrap w z = z.
Proof. intros. by apply Z.mod_small. Qed.

Lemma u8_small z : 0 ≤ z < 256 → u8 z = z.
Proof. apply (wrap_small 8). Qed.

Lemma u8_bound z : 0 ≤ u8 z < 256.
Proof. by apply (wrap_bound 8). Qed.

Lemma u32_small z : 0 ≤ z < 2 ^ 32 → u32 z = z.
Proof. apply (wrap_small 32). Qed.

Lemma u32_bound z : 0 ≤ u32 z < 2 ^ 32.
Proof. by apply (wrap_bound 32). Qed.

Lemma i32_small z : - 2 ^ 31 ≤ z < 2 ^ 31 → i32 z = z.
Proof. intros. unfold i32. rewrite Z.mod_small; lia. Qed.

Lemma i16_small z : - 2 ^ 15 ≤ z < 2 ^ 15 → i16 z = z.
Proof. intros. unfold i16. rewrite Z.mod_small; lia. Qed.

(** ** Automation *)

Create HintDb nx.
#[export] Hint Rewrite @length_insert @length_app @length_replicate : nx.
#[export] Hint Resolve u8_bound u32_bound : nx.

(** Split every conditional of the goal on a boolean comparison of integers
    and turn the comparison into the fact it decides. *)
Ltac zify_bools :=
  repeat match goal with
  | H : (_ && _) = true |- _ => apply andb_true_iff in H as [? ?]
  | H : (_ || _) = false |- _ => apply orb_false_iff in H as [? ?]
  | H : (_ =? _) = true |- _ => apply Z.eqb_eq in H
  | H : (_ =? _) = false |- _ => apply Z.eqb_neq in H
  | H : (_ <? _) = true |- _ => apply Z.ltb_lt in H
  | H : (_ <? _) = false |- _ => apply Z.ltb_ge in H
  | H : (_ <=? _) = true |- _ => apply Z.leb_le in H
  | H : (_ <=? _) = false |- _ => apply Z.leb_gt in H
  | H : negb _ = true |- _ => apply negb_true_iff in H
  | H : negb _ = false |- _ => apply negb_false_iff in H
  end.

Ltac split_ifs :=
  repeat match goal with
  | |- context [if ?b then _ else _] =>
      lazymatch b with
      | context [if _ then _ else _] => fail
      | _ => let E := fresh "E" in destruct b eqn:E
      end
  end; zify_bools.

Ltac run_cmd :=
  unfold bind, ret, gets, modify, when, res_bind in *; simpl in *.

(** [x + 1] on an [int]. *)
Definition incr_int {S} (z : Z) : M S Z :=
  if z + 1 <? 2 ^ 31 then ret (z + 1) else fail_ub SignedOverflow.

(** [x % y] on [int]s. *)
Definition rem_int {S} (x y : Z) : M S Z :=
  if y =? 0 then fail_ub DivByZero else ret (Z.rem x y).

(** [x - 1] on an [int]. *)
Definition decr_int {S} (z : Z) : M S Z :=
  if - 2 ^ 31 <=? z - 1 then ret (z - 1) else fail_ub SignedOverflow.

(** [x + y] and [x - y] on [int]s. *)
Definition add_int {S} (x y : Z) : M S Z :=
  if (- 2 ^ 31 <=? x + y) && (x + y <? 2 ^ 31) then ret (x + y) else fail_ub SignedOverflow.

Definition sub_int {S} (x y : Z) : M S Z := add_int x (- y).

(** ** Weakest preconditions

    [wp m Q s]: run from [s], [m] is defined and ends in a state and a value
    that satisfy [Q].  The rules follow the structure of a command. *)

Definition wp {S A} (m : M S A) (Q : A → S → Prop) (s : S) : Prop :=
  match m s with
  | Ok (a, s') => Q a s'
  | Undef _ => False
  end.

Section Wp.
Context {S A B : Type}.
Implicit Types (Q : A → S → Prop) (s : S).

Lemma wp_ret Q a s : wp (ret a) Q s = Q a s.
Proof. done. Qed.

Lemma wp_gets Q (f : S → A) s : wp (gets f) Q s = Q (f s) s.
Proof. done. Qed.

Lemma wp_modify (R : unit → S → Prop) (f : S → S) s : wp (modify f) R s = R tt (f s).
Proof. done. Qed.

Lemma wp_bind (m : M S B) (k : B → M S A) Q s :
  wp (bind m k) Q s = wp m (λ b s', wp (k b) Q s') s.
Proof. unfold wp, bind. by destruct (m s) as [[b s']|]. Qed.

Lemma wp_when (b : bool) (m : M S unit) (R : unit → S → Prop) s :
  wp (when b m) R s ↔ (if b then wp m R s else R tt s).
Proof. by destruct b. Qed.

Lemma wp_mono (m : M S A) Q Q' s :
  wp m Q s → (∀ a s', Q a s' → Q' a s') → wp m Q' s.
Proof. unfold wp. destruct (m s) as [[a s']|]; naive_solver. Qed.

Lemma wp_run (m : M S A) Q s : wp m Q s → ∃ a s', m s = Ok (a, s') ∧ Q a s'.
Proof. unfold wp. destruct (m s) as [[a s']|]; [eauto|done]. Qed.

Lemma wp_run_iff (m : M S A) Q s : wp m Q s ↔ ∃ a s', m s = Ok (a, s') ∧ Q a s'.
Proof.
  split; [apply wp_run|]. intros (a & s' & E & HQ). unfold wp. by rewrite E.
Qed.

Lemma wp_ok (m : M S A) Q s a s' : m s = Ok (a, s') → Q a s' → wp m Q s.
Proof. unfold wp. by intros ->. Qed.

Lemma wp_ok_inv (m : M S A) Q s a s' : wp m Q s → m s = Ok (a, s') → Q a s'.
Proof. unfold wp. intros H E. by rewrite E in H. Qed.

End Wp.

Lemma wp_assert {S} (b : bool) (Q : unit → S → Prop) s :
  b = true → wp (assert_ b) Q s = Q tt s.
Proof. by intros ->. Qed.

Lemma wp_incr {S} z (Q : Z → S → Prop) s :
  z + 1 < 2 ^ 31 → wp (incr_int z) Q s = Q (z + 1) s.
Proof. intros. unfold incr_int. by rewrite (proj2 (Z.ltb_lt _ _)). Qed.

Lemma wp_decr {S} z (Q : Z → S → Prop) s :
  - 2 ^ 31 ≤ z - 1 → wp (decr_int z) Q s = Q (z - 1) s.
Proof. intros. unfold decr_int. by rewrite (proj2 (Z.leb_le _ _)). Qed.

Lemma wp_rem {S} x y (Q : Z → S → Prop) s :
  y ≠ 0 → wp (rem_int x y) Q s = Q (Z.rem x y) s.
Proof. intros. unfold rem_int. by rewrite (proj2 (Z.eqb_neq _ _)). Qed.

Lemma wp_add {S} x y (Q : Z → S → Prop) s :
  - 2 ^ 31 ≤ x + y < 2 ^ 31 → wp (add_int x y) Q s = Q (x + y) s.
Proof. intros [H1 H2]. unfold add_int. by rewrite (proj2 (Z.leb_le _ _)), (proj2 (Z.ltb_lt _ _)). Qed.

Lemma wp_sub {S} x y (Q : Z → S → Prop) s :
  - 2 ^ 31 ≤ x - y < 2 ^ 31 → wp (sub_int x y) Q s = Q (x - y) s.
Proof. intros. unfold sub_int. by rewrite wp_add by lia. Qed.

(** Symbolic execution: apply the rules to the head of a [wp] goal, splitting
    the conditionals. *)
Ltac wp_step :=
  first
    [ rewrite wp_bind | rewrite wp_ret | rewrite wp_gets | rewrite wp_modify
    | rewrite wp_incr by (simpl; lia) | rewrite wp_decr by (simpl; lia)
    | match goal with
      | |- wp (when _ _) _ _ => apply (proj2 (wp_when _ _ _ _))
      | |- if ?b then _ else _ => let E := fresh "E" in destruct b eqn:E; zify_bools
      | |- wp (if ?b then _ else _) _ _ =>
          let E := fresh "E" in destruct b eqn:E; zify_bools
      end ].
Ltac wp_run := repeat (wp_step; cbv beta).

(** Sequencing: a command that keeps [P], then another from [P]. *)
Lemma wp_seq {S A B} (P : S → Prop) (m : M S B) (k : B → M S A) (Q : A → S → Prop) s :
  wp m (λ _, P) s → (∀ b s', P s' → wp (k b) Q s') → wp (bind m k) Q s.
Proof. intros Hm Hk. rewrite wp_bind. eapply wp_mono; [exact Hm|]. naive_solver. Qed.

(** Replace every projection that an equation determines. *)
Ltac rew_eqs :=
  repeat match goal with
  | H : ?f ?x = _ |- context [?f ?x] => is_var x; rewrite H
  end.
