(* ===== verification/Strtol.v ===== *)
(** * String-to-integer conversion of the C library

    Models [nuttx/libc/stdlib/lib_strtol.c], [lib_strtoul.c],
    [lib_checkbase.c] and [nuttx/libc/string/lib_isbasedigit.c],
    [lib_skipspace.c], with the [isspace] macro of [include/ctype.h] and the
    [atoi] macro of [include/stdlib.h].  The server of the dog feeder decodes
    its two-digit operands with [atoi].

    A [char *] is the suffix of the string it points at, terminator included;
    reading an empty suffix is a read past the object, [OutOfBounds].
    [char] is unsigned on ARM: a character is an integer of 0..255.  The
    accumulator is the 32-bit [unsigned long] of the target; the conversion to
    [long] wraps, and to negate the least [long] is [SignedOverflow]. *)

From S2P Require Import Prelude.

Module Strtol.

(** ** Characters *)

Definition isspace (c : Z) : bool :=
  (c =? 32) || (c =? 9) || (c =? 10) || (c =? 13) || (c =? 12) || (c =? 11).

Definition deref (p : list Z) : res Z :=
  match p with
  | [] => Undef OutOfBounds
  | c :: _ => Ok c
  end.

(** [lib_isbasedigit(ch, base, &value)]: the truth value and [*value]. *)
Definition lib_isbasedigit (ch base : Z) : bool * Z :=
  if base <=? 10 then
    if (48 <=? ch) && (ch <=? base + 48 - 1) then (true, ch - 48)
    else (false, 0)
  else if base <=? 36 then
    if (48 <=? ch) && (ch <=? 57) then (true, ch - 48)
    else if (97 <=? ch) && (ch <=? 97 + base - 11) then (true, ch - 97 + 10)
    else if (65 <=? ch) && (ch <=? 65 + base - 11) then (true, ch - 65 + 10)
    else (false, 0)
  else (false, 0).

(** ** The conversion *)

Fixpoint lib_skipspace (ptr : list Z) : res (list Z) :=
  match ptr with
  | [] => Undef OutOfBounds
  | c :: r => if isspace c then lib_skipspace r else Ok ptr
  end.

(** [lib_checkbase(base, &ptr)]: the base to use and the updated pointer. *)
Definition lib_checkbase (base : Z) (ptr : list Z) : res (Z * list Z) :=
  if base =? 0 then
    res_bind (deref ptr) (λ c,
    if c =? 48 then
      let ptr := drop 1 ptr in
      res_bind (deref ptr) (λ c1,
      if (c1 =? 88) || (c1 =? 120) then
        res_bind (deref (drop 1 ptr)) (λ c2,
        if fst (lib_isbasedigit c2 16) then Ok (16, drop 1 ptr)
        else Ok (8, ptr))
      else Ok (8, ptr))
    else Ok (10, ptr))
  else if base =? 16 then
    res_bind (deref ptr) (λ c,
    if c =? 48 then
      res_bind (deref (drop 1 ptr)) (λ c1,
      if (c1 =? 88) || (c1 =? 120) then Ok (base, drop 2 ptr)
      else Ok (base, ptr))
    else Ok (base, ptr))
  else Ok (base, ptr).

(** The [while] [lib_isbasedigit] digits loop. *)
Fixpoint accumulate (base accum : Z) (nptr : list Z) : res (Z * list Z) :=
  match nptr with
  | [] => Undef OutOfBounds
  | c :: r =>
      let '(is_digit, value) := lib_isbasedigit c base in
      if is_digit then accumulate base (u32 (accum * base + value)) r
      else Ok (accum, nptr)
  end.

(** [strtoul(nptr, &endptr, base)]: the value and [*endptr].  The null
    pointer is [None]: the value is then 0 and [*endptr] is not written. *)
Definition strtoul (nptr : option (list Z)) (base : Z) : res (Z * option (list Z)) :=
  match nptr with
  | None => Ok (0, None)
  | Some p =>
      res_bind (lib_skipspace p) (λ p,
      res_bind (lib_checkbase base p) (λ '(base, p),
      res_bind (accumulate base 0 p) (λ '(accum, p),
      Ok (accum, Some p))))
  end.

(** [strtol(nptr, &endptr, base)]. *)
Definition strtol (nptr : option (list Z)) (base : Z) : res (Z * option (list Z)) :=
  match nptr with
  | None => Ok (0, None)
  | Some p =>
      res_bind (lib_skipspace p) (λ p,
      res_bind (deref p) (λ c,
      let '(negate, p) :=
        if c =? 45 then (true, drop 1 p)
        else if c =? 43 then (false, drop 1 p)
        else (false, p) in
      res_bind (strtoul (Some p) base) (λ '(accum, endp),
      if negate then
        if i32 accum =? - 2 ^ 31 then Undef SignedOverflow else Ok (- i32 accum, endp)
      else Ok (i32 accum, endp))))
  end.

Definition atoi (nptr : option (list Z)) : res Z :=
  res_bind (strtol nptr 10) (λ '(v, _), Ok v).

(** ** Specification: numerals and their value *)

(** The value of a character as a digit: decimal, lower or upper case. *)
Definition digit_of (c : Z) : option Z :=
  if (48 <=? c) && (c <=? 57) then Some (c - 48)
  else if (97 <=? c) && (c <=? 122) then Some (c - 97 + 10)
  else if (65 <=? c) && (c <=? 90) then Some (c - 65 + 10)
  else None.

Definition digit_in (base c d : Z) : Prop := digit_of c = Some d ∧ d < base.

Definition digits_value (base : Z) (ds : list Z) : Z :=
  foldl (λ a d, a * base + d) 0 ds.

(** What follows a numeral starts with a character that is no digit. *)
Definition stops (base : Z) (rest : list Z) : Prop :=
  ∃ c r, rest = c :: r ∧ ∀ d, ¬ digit_in base c d.

Definition space (c : Z) : Prop := c = 32 ∨ 9 ≤ c ≤ 13.

Definition sign_chars (sign : option bool) : list Z :=
  match sign with None => [] | Some false => [43] | Some true => [45] end.

Definition hex_prefix (l : list Z) : Prop := ∃ x r, l = 48 :: x :: r ∧ (x = 88 ∨ x = 120).

(** The base of a numeral of the digits [cs], with a prefix, for the argument
    [base] of the call.  A lone zero is not followed by an x where that
    would be a prefix. *)
Inductive radix : Z → list Z → list Z → list Z → Z → Prop :=
| radix_given base cs rest : 2 ≤ base ≤ 36 → (base = 16 → ¬ hex_prefix (cs ++ rest)) → radix base [] cs rest base
| radix_hex base x cs rest : base = 0 ∨ base = 16 → x = 88 ∨ x = 120 → radix base [48; x] cs rest 16
| radix_octal cs rest : ¬ hex_prefix (48 :: cs ++ rest) → radix 0 [] (48 :: cs) rest 8
| radix_decimal c cs rest : c ≠ 48 → radix 0 [] (c :: cs) rest 10.

(** ** Digits *)

Lemma digit_of_bounds c d : digit_of c = Some d → 0 ≤ d < 36 ∧ 48 ≤ c ≤ 122.
Proof. unfold digit_of. split_ifs; intros [= <-]; lia. Qed.

(** [lib_isbasedigit] takes the digits below the base. *)
Lemma isbasedigit_spec base c : 2 ≤ base ≤ 36 →
  lib_isbasedigit c base =
    match digit_of c with Some d => if d <? base then (true, d) else (false, 0) | None => (false, 0) end.
Proof. intros Hb. unfold lib_isbasedigit, digit_of. split_ifs; first [exfalso; lia | f_equal; lia]. Qed.

Lemma isbasedigit_in base c d : 2 ≤ base ≤ 36 → digit_in base c d → lib_isbasedigit c base = (true, d).
Proof. intros Hb [E Hd]. rewrite isbasedigit_spec, E by done. by rewrite (proj2 (Z.ltb_lt _ _)). Qed.

Lemma isbasedigit_stops base c : 2 ≤ base ≤ 36 → (∀ d, ¬ digit_in base c d) → lib_isbasedigit c base = (false, 0).
Proof.
  intros Hb Hc. rewrite isbasedigit_spec by done. destruct (digit_of c) as [d|] eqn:E; [|done].
  destruct (Z.ltb_spec d base); [|done]. by destruct (Hc d).
Qed.

Lemma digit_not_space base c d : digit_in base c d → isspace c = false ∧ c ≠ 45 ∧ c ≠ 43.
Proof.
  intros [E _]. destruct (digit_of_bounds _ _ E) as [_ Hc]. split; [|lia].
  unfold isspace. rewrite !orb_false_iff, !Z.eqb_neq. lia.
Qed.

Lemma space_isspace c : space c → isspace c = true.
Proof. intros Hc. unfold isspace. rewrite !orb_true_iff, !Z.eqb_eq. unfold space in Hc. lia. Qed.

Lemma skipspace_spaces ws p c : Forall space ws → isspace c = false → lib_skipspace (ws ++ c :: p) = Ok (c :: p).
Proof.
  intros Hws Hc. induction Hws as [|w ws Hw _ IH]; simpl; [by rewrite Hc|]. by rewrite space_isspace.
Qed.

(** ** The unsigned value *)

Lemma accumulate_digits base a cs ds rest : 2 ≤ base ≤ 36 → Forall2 (digit_in base) cs ds → stops base rest →
  accumulate base (u32 a) (cs ++ rest) = Ok (u32 (foldl (λ a d, a * base + d) a ds), rest).
Proof.
  intros Hb Hds (c & r & -> & Hc). revert a. induction Hds as [|c' d cs ds Hd _ IH]; intros a; simpl.
  - by rewrite isbasedigit_stops.
  - rewrite (isbasedigit_in _ _ d), <-IH by done. f_equal. unfold u32, wrap. rewrite Zplus_mod, Zmult_mod, Zmod_mod.
    by rewrite <-Zmult_mod, <-Zplus_mod.
Qed.

(** After [lib_checkbase] the digits are read in the base of the numeral; the
    zero in front of an octal numeral is passed. *)
Lemma checkbase_radix base pre cs rest base' ds : radix base pre cs rest base' → cs ≠ [] →
  Forall2 (digit_in base') cs ds → stops base' rest →
  2 ≤ base' ≤ 36 ∧ ∃ cs' ds', lib_checkbase base (pre ++ cs ++ rest) = Ok (base', cs' ++ rest) ∧
    Forall2 (digit_in base') cs' ds' ∧ digits_value base' ds' = digits_value base' ds.
Proof.
  intros HR Hne HD Hs. assert (rest ≠ []) as Hr by (by destruct Hs as (? & ? & -> & _)). clear Hs.
  destruct HR as [base cs rest Hb Hx|base x cs rest Hb Hx|cs rest Hx|c cs rest Hc].
  - split; [done|]. exists cs, ds. split_and!; [|done|done]. unfold lib_checkbase. rewrite (proj2 (Z.eqb_neq base 0)) by lia.
    destruct (Z.eqb_spec base 16) as [->|]; [|done]. specialize (Hx eq_refl). destruct cs as [|c cs]; [done|]. simpl in *.
    destruct (Z.eqb_spec c 48) as [->|]; [|done].
    destruct (cs ++ rest) as [|c1 l] eqn:E; [by apply app_eq_nil in E as [_ ->]|]. cbn.
    destruct (Z.eqb_spec c1 88) as [->|]; [destruct Hx; exists 88, l; auto|].
    destruct (Z.eqb_spec c1 120) as [->|]; [destruct Hx; exists 120, l; auto|]. done.
  - split; [lia|]. exists cs, ds. split_and!; [|done|done]. destruct HD as [|c d cs ds Hd HD]; [done|].
    pose proof (isbasedigit_in 16 c d ltac:(lia) Hd) as Ed. unfold lib_checkbase. cbn [app deref res_bind drop Z.eqb].
    destruct Hb as [->| ->], Hx as [->| ->]; cbn [Z.eqb Pos.eqb orb deref res_bind drop]; rewrite ?drop_0, ?Ed; done.
  - split; [lia|]. inversion_clear HD as [|? d ? ds' Hd HD']. exists cs, ds'.
    assert (d = 0) as -> by (destruct Hd as [Hd _]; by injection Hd).
    split_and!; [|done|done]. unfold lib_checkbase. cbn [app deref res_bind drop Z.eqb Pos.eqb]. rewrite !drop_0.
    destruct (cs ++ rest) as [|c1 l] eqn:E; [by apply app_eq_nil in E as [_ ->]|]. cbn [deref res_bind].
    destruct (Z.eqb_spec c1 88) as [->|]; [destruct Hx; exists 88, l; auto|].
    destruct (Z.eqb_spec c1 120) as [->|]; [destruct Hx; exists 120, l; auto|]. done.
  - split; [lia|]. exists (c :: cs), ds. split_and!; [|done|done]. unfold lib_checkbase. cbn [app deref res_bind Z.eqb].
    by rewrite (proj2 (Z.eqb_neq c 48)).
Qed.

(** The first character is neither white space nor a sign. *)
Lemma radix_head base pre cs rest base' ds : radix base pre cs rest base' → cs ≠ [] → Forall2 (digit_in base') cs ds →
  ∃ c l, pre ++ cs ++ rest = c :: l ∧ isspace c = false ∧ c ≠ 45 ∧ c ≠ 43.
Proof.
  intros HR Hne HD.
  assert (pre = [] ∨ ∃ x, pre = [48; x]) as [->|[x ->]] by (destruct HR; eauto); [|by eexists _, _].
  destruct HD as [|c d cs ds Hd _]; [done|]. eexists c, _. split; [done|]. by eapply digit_not_space.
Qed.

Lemma strtoul_numeral base pre cs ds rest base' : radix base pre cs rest base' → cs ≠ [] →
  Forall2 (digit_in base') cs ds → stops base' rest →
  strtoul (Some (pre ++ cs ++ rest)) base = Ok (u32 (digits_value base' ds), Some rest).
Proof.
  intros HR Hne HD Hs. destruct (radix_head _ _ _ _ _ _ HR Hne HD) as (c & l & E & Hc & _).
  unfold strtoul. rewrite E, <- (app_nil_l (c :: l)), skipspace_spaces by done. cbn [res_bind]. rewrite <- E.
  destruct (checkbase_radix _ _ _ _ _ _ HR Hne HD Hs) as (Hb & cs' & ds' & -> & HD' & Ev). cbn [res_bind].
  pose proof (accumulate_digits base' 0 cs' ds' rest Hb HD' Hs) as Hacc. change (u32 0) with 0 in Hacc.
  rewrite Hacc. cbn [res_bind]. unfold digits_value in *. by rewrite Ev.
Qed.

Lemma digits_value_nonneg base cs ds : 0 ≤ base → Forall2 (digit_in base) cs ds → 0 ≤ digits_value base ds.
Proof.
  intros Hb HD. unfold digits_value. assert (∀ a, 0 ≤ a → 0 ≤ foldl (λ a d, a * base + d) a ds) as H; [|by apply H].
  induction HD as [|c d cs ds [Hd _] _ IH]; intros a Ha; simpl; [done|]. apply IH. apply digit_of_bounds in Hd. nia.
Qed.

(** ** The signed value *)

Lemma i32_u32 v : i32 (u32 v) = i32 v.
Proof. unfold i32, u32, wrap. by rewrite Zplus_mod_idemp_l. Qed.

(** The value whose negation overflows, and the negation of the others. *)
Lemma i32_least v : (i32 (u32 v) = - 2 ^ 31 ↔ v mod 2 ^ 32 = 2 ^ 31) ∧
  (i32 (u32 v) ≠ - 2 ^ 31 → - i32 (u32 v) = i32 (- v)).
Proof. rewrite i32_u32. unfold i32. split; [|intros H]; Z.div_mod_to_equations; lia. Qed.

Definition signed (sign : option bool) (v : Z) : Z := match sign with Some true => - v | _ => v end.

(** C34: [strtol] reads optional white space, an optional sign, an optional
    prefix [0x] where the base is 16 or left open, and digits of either case in
    any base from 2 to 36; it leaves the end pointer at the first
    character that is no digit of the base.  The result is the integer
    represented whenever its magnitude is below 2^31; a larger one wraps
    around, and where the wrapped value is the least [long] the negation
    overflows, for -2^31 as well, which a [long] could hold. *)
Theorem strtol_signed_numeral base ws sign pre cs ds rest base' :
  Forall space ws → radix base pre cs rest base' → cs ≠ [] → Forall2 (digit_in base') cs ds → stops base' rest →
  let v := digits_value base' ds in
  strtol (Some (ws ++ sign_chars sign ++ pre ++ cs ++ rest)) base =
    (if bool_decide (sign = Some true ∧ v mod 2 ^ 32 = 2 ^ 31) then Undef SignedOverflow
     else Ok (i32 (signed sign v), Some rest)) ∧
  (v < 2 ^ 31 →
   strtol (Some (ws ++ sign_chars sign ++ pre ++ cs ++ rest)) base = Ok (signed sign v, Some rest)).
Proof.
  intros Hws HR Hne HD Hs v. pose proof (strtoul_numeral _ _ _ _ _ _ HR Hne HD Hs) as HU. fold v in HU.
  destruct (radix_head _ _ _ _ _ _ HR Hne HD) as (c & l & E & Hc & Hc1 & Hc2).
  destruct (checkbase_radix _ _ _ _ _ _ HR Hne HD Hs) as (Hb & _).
  assert (0 ≤ v) as Hv by (eapply digits_value_nonneg; [|exact HD]; lia). clearbody v. rewrite E in *.
  assert (strtol (Some (ws ++ sign_chars sign ++ c :: l)) base =
    if bool_decide (sign = Some true ∧ v mod 2 ^ 32 = 2 ^ 31) then Undef SignedOverflow
    else Ok (i32 (signed sign v), Some rest)) as ES.
  { unfold strtol. destruct sign as [[]|]; cbn [sign_chars app signed].
    - rewrite skipspace_spaces by done. cbn [res_bind deref Z.eqb Pos.eqb drop]. rewrite ?drop_0, HU. cbn [res_bind].
      destruct (i32_least v) as [HL HN]. case_bool_decide as Hd.
      + by rewrite (proj2 (Z.eqb_eq _ _)) by (apply HL, Hd).
      + rewrite (proj2 (Z.eqb_neq _ _)), HN by (rewrite HL; tauto). done.
    - rewrite skipspace_spaces by done. cbn [res_bind deref Z.eqb Pos.eqb drop]. rewrite ?drop_0, HU. cbn [res_bind].
      rewrite bool_decide_eq_false_2 by (by intros [? _]). by rewrite i32_u32.
    - rewrite skipspace_spaces by done. cbn [res_bind deref]. rewrite !(proj2 (Z.eqb_neq c _)), HU by done. cbn [res_bind].
      rewrite bool_decide_eq_false_2 by (by intros [? _]). by rewrite i32_u32. }
  split; [done|]. intros Hlt. rewrite ES, bool_decide_eq_false_2 by (intros [_ H]; rewrite Z.mod_small in H; lia).
  rewrite i32_small; [done|]. destruct sign as [[]|]; simpl; lia.
Qed.

(** White space, [-0x1Fa], a comma. *)
Lemma strtol_signed_numeral_witness :
  strtol (Some ([32; 9] ++ sign_chars (Some true) ++ [48; 120] ++ [49; 70; 97] ++ [44; 0])) 0 = Ok (- 506, Some [44; 0]).
Proof.
  apply (strtol_signed_numeral 0 [32; 9] (Some true) [48; 120] [49; 70; 97] [1; 15; 10] [44; 0] 16).
  - apply Forall_cons_2; [left; reflexivity|]. apply Forall_cons_2; [right; split; discriminate|]. apply Forall_nil_2.
  - apply radix_hex; [left; reflexivity|right; reflexivity].
  - discriminate.
  - repeat apply Forall2_cons_2; [split; reflexivity..|apply Forall2_nil_2].
  - exists 44, [0]. split; [reflexivity|]. intros d [Hd _]. discriminate Hd.
  - vm_compute. reflexivity.
Defined.

(** The operand of the server's protocol: two characters and the terminator. *)
Lemma atoi_two_digits a b t :
  0 ≤ a < 10 → 0 ≤ b < 10 → atoi (Some (48 + a :: 48 + b :: 0 :: t)) = Ok (10 * a + b).
Proof.
  intros Ha Hb.
  assert (∀ d, 0 ≤ d < 10 → d = 0 ∨ d = 1 ∨ d = 2 ∨ d = 3 ∨ d = 4 ∨ d = 5 ∨ d = 6
    ∨ d = 7 ∨ d = 8 ∨ d = 9) as D by lia.
  apply D in Ha, Hb. destruct_or!; subst; reflexivity.
Qed.

End Strtol.
