(* ===== verification/Gpio.v ===== *)
(** * GPIO pins of the STM32F107

    Models [nuttx/arch/arm/src/stm32/stm32_gpio.c] in the configuration of the
    board ([CONFIG_STM32_STM32F10XX], five ports A-E) with the pin encoding of
    [stm32_gpio.h] and the register offsets of [chip/stm32f10xxx_gpio.h].

    The register file is hardware: [Stm32Gpio] is the interface through which
    the code reaches it ([getreg32] and [putreg32]) and [Stm32GpioLaws] what
    the reference manual promises of the registers used: ODR keeps 16 bits,
    BSRR and BRR set and reset bits of ODR, are write-only and read as zero,
    the configuration registers keep what is written, and distinct registers do
    not interfere.  The module [F1] gives a concrete register file with
    these laws. *)

From S2P Require Import Prelude.

Module Gpio.

(** ** Pin descriptions ([stm32_gpio.h]) *)

Definition GPIO_INPUT : Z := Z.shiftl 1 15.
Definition GPIO_OUTPUT : Z := 0.
Definition GPIO_OUTPUT_SET : Z := Z.shiftl 1 7.
Definition GPIO_CNF_SHIFT : Z := 13.
Definition GPIO_CNF_MASK : Z := Z.shiftl 3 GPIO_CNF_SHIFT.
Definition GPIO_CNF_INFLOAT : Z := Z.shiftl 1 GPIO_CNF_SHIFT.
Definition GPIO_CNF_INPULLUD : Z := Z.shiftl 2 GPIO_CNF_SHIFT.
Definition GPIO_CNF_OUTPP : Z := Z.shiftl 0 GPIO_CNF_SHIFT.
Definition GPIO_CNF_OUTOD : Z := Z.shiftl 1 GPIO_CNF_SHIFT.
Definition GPIO_MODE_SHIFT : Z := 11.
Definition GPIO_MODE_MASK : Z := Z.shiftl 3 GPIO_MODE_SHIFT.
Definition GPIO_MODE_INPUT : Z := Z.shiftl 0 GPIO_MODE_SHIFT.
Definition GPIO_MODE_50MHz : Z := Z.shiftl 3 GPIO_MODE_SHIFT.
Definition GPIO_EXTI : Z := Z.shiftl 1 10.
Definition GPIO_PORT_SHIFT : Z := 4.
Definition GPIO_PORT_MASK : Z := Z.shiftl 7 GPIO_PORT_SHIFT.
Definition GPIO_PORTA : Z := Z.shiftl 0 GPIO_PORT_SHIFT.
Definition GPIO_PORTB : Z := Z.shiftl 1 GPIO_PORT_SHIFT.
Definition GPIO_PORTC : Z := Z.shiftl 2 GPIO_PORT_SHIFT.
Definition GPIO_PORTD : Z := Z.shiftl 3 GPIO_PORT_SHIFT.
Definition GPIO_PORTE : Z := Z.shiftl 4 GPIO_PORT_SHIFT.
Definition GPIO_PIN_SHIFT : Z := 0.
Definition GPIO_PIN_MASK : Z := Z.shiftl 15 GPIO_PIN_SHIFT.
Definition GPIO_PIN (n : Z) : Z := Z.shiftl n GPIO_PIN_SHIFT.

(** ** Register addresses ([chip/stm32f10xxx_gpio.h], [_memorymap.h]) *)

Definition STM32_GPIO_CRL_OFFSET : Z := 0x0.
Definition STM32_GPIO_CRH_OFFSET : Z := 0x4.
Definition STM32_GPIO_IDR_OFFSET : Z := 0x8.
Definition STM32_GPIO_ODR_OFFSET : Z := 0xc.
Definition STM32_GPIO_BSRR_OFFSET : Z := 0x10.
Definition STM32_GPIO_BRR_OFFSET : Z := 0x14.
Definition STM32_AFIO_BASE : Z := 0x40010000.
Definition STM32_AFIO_MAPR : Z := STM32_AFIO_BASE + 4.
Definition STM32_AFIO_EXTICR (p : Z) : Z := STM32_AFIO_BASE + (8 + Z.land p 0xc).
Definition AFIO_EXTICR_PORT_MASK : Z := 0xf.
Definition AFIO_EXTICR_EXTI_SHIFT (g : Z) : Z := Z.shiftl (Z.land g 3) 2.
Definition GPIO_CR_MODECNF_SHIFT (n : Z) : Z := Z.shiftl n 2.
Definition GPIO_CR_MODECNF_MASK (n : Z) : Z := Z.shiftl 0xf (GPIO_CR_MODECNF_SHIFT n).

Definition STM32_NGPIO_PORTS : Z := 5.
Definition g_gpiobase : list Z :=
  [0x40010800; 0x40010c00; 0x40011000; 0x40011400; 0x40011800].

Definition gpiobase (port : Z) : Z := nth (Z.to_nat port) g_gpiobase 0.

(** ** The hardware *)

Class Stm32Gpio (hw : Type) : Type := {
  getreg32 : Z → hw → Z;
  putreg32 : Z → Z → hw → hw
}.

(** The output data register of port [p]. *)
Definition odr {hw} `{Stm32Gpio hw} (p : Z) (h : hw) : Z :=
  getreg32 (gpiobase p + STM32_GPIO_ODR_OFFSET) h.

Definition is_port (p : Z) : Prop := 0 ≤ p < STM32_NGPIO_PORTS.

(** The registers other than IDR, ODR, BSRR and BRR that the code writes:
    configuration, and the alternate-function registers. *)
Definition plain_reg (a : Z) : Prop :=
  (∃ p, is_port p ∧ (a = gpiobase p + STM32_GPIO_CRL_OFFSET ∨
                     a = gpiobase p + STM32_GPIO_CRH_OFFSET)) ∨
  a = STM32_AFIO_MAPR ∨ (∃ p, a = STM32_AFIO_EXTICR p).

Class Stm32GpioLaws (hw : Type) `{Stm32Gpio hw} : Prop := {
  odr_bound p h : is_port p → 0 ≤ odr p h < 2 ^ 16;
  odr_put p v h : is_port p →
    odr p (putreg32 v (gpiobase p + STM32_GPIO_ODR_OFFSET) h) = Z.land v 0xffff;
  odr_bsrr p v h : is_port p → 0 ≤ v < 2 ^ 16 →
    odr p (putreg32 v (gpiobase p + STM32_GPIO_BSRR_OFFSET) h) = Z.lor (odr p h) v;
  odr_brr p v h : is_port p → 0 ≤ v < 2 ^ 16 →
    odr p (putreg32 v (gpiobase p + STM32_GPIO_BRR_OFFSET) h) = Z.ldiff (odr p h) v;
  odr_other p q v o h : is_port p → is_port q → p ≠ q →
    o = STM32_GPIO_ODR_OFFSET ∨ o = STM32_GPIO_BSRR_OFFSET ∨ o = STM32_GPIO_BRR_OFFSET →
    odr q (putreg32 v (gpiobase p + o) h) = odr q h;
  odr_plain p v a h : is_port p → plain_reg a → odr p (putreg32 v a h) = odr p h;
  bsrr_read p h : is_port p → getreg32 (gpiobase p + STM32_GPIO_BSRR_OFFSET) h = 0;
  brr_read p h : is_port p → getreg32 (gpiobase p + STM32_GPIO_BRR_OFFSET) h = 0
}.

(** ** Operations *)

Section Ops.
Context {hw : Type} `{Stm32Gpio hw}.

Definition pin_port (cfgset : Z) : Z :=
  Z.shiftr (Z.land cfgset GPIO_PORT_MASK) GPIO_PORT_SHIFT.
Definition pin_number (cfgset : Z) : Z :=
  Z.shiftr (Z.land cfgset GPIO_PIN_MASK) GPIO_PIN_SHIFT.

Definition EINVAL : Z := 22.
Definition OK : Z := 0.

(** [stm32_configgpio(cfgset)] for the F10xxx family: the return value and the
    registers afterwards. *)
Definition stm32_configgpio (cfgset : Z) (h : hw) : Z * hw :=
  let port := pin_port cfgset in
  if STM32_NGPIO_PORTS <=? port then (- EINVAL, h)
  else
    let base := gpiobase port in
    let pin := pin_number cfgset in
    let '(cr, pos) :=
      if pin <? 8 then (base + STM32_GPIO_CRL_OFFSET, pin)
      else (base + STM32_GPIO_CRH_OFFSET, pin - 8) in
    let input := negb (Z.land cfgset GPIO_INPUT =? 0) in
    let regval := getreg32 cr h in
    let modecnf :=
      if input then 0 else Z.shiftr (Z.land cfgset GPIO_MODE_MASK) GPIO_MODE_SHIFT in
    let modecnf :=
      Z.lor modecnf (Z.shiftl (Z.shiftr (Z.land cfgset GPIO_CNF_MASK) GPIO_CNF_SHIFT) 2) in
    let regval := Z.ldiff regval (GPIO_CR_MODECNF_MASK pos) in
    let regval := Z.lor regval (Z.shiftl modecnf (GPIO_CR_MODECNF_SHIFT pos)) in
    let h := putreg32 regval cr h in
    let cnf := Z.land cfgset GPIO_CNF_MASK in
    let '(early, h) :=
      if negb input then
        (negb (cnf =? GPIO_CNF_OUTPP) && negb (cnf =? GPIO_CNF_OUTOD), h)
      else
        let h :=
          if negb (Z.land cfgset GPIO_EXTI =? 0) then
            let regaddr := STM32_AFIO_EXTICR pin in
            let regval := getreg32 regaddr h in
            let shift := AFIO_EXTICR_EXTI_SHIFT pin in
            let regval := Z.ldiff regval (Z.shiftl AFIO_EXTICR_PORT_MASK shift) in
            let regval := Z.lor regval (Z.shiftl port shift) in
            putreg32 regval regaddr h
          else h in
        (negb (cnf =? GPIO_CNF_INPULLUD), h) in
    if early then (OK, h)
    else
      let regaddr :=
        if negb (Z.land cfgset GPIO_OUTPUT_SET =? 0) then base + STM32_GPIO_BSRR_OFFSET
        else base + STM32_GPIO_BRR_OFFSET in
      let regval := getreg32 regaddr h in
      let regval := Z.lor regval (Z.shiftl 1 pin) in
      (OK, putreg32 regval regaddr h).

Definition stm32_unconfiggpio (cfgset : Z) (h : hw) : Z * hw :=
  let cfgset := Z.land cfgset (Z.lor GPIO_PORT_MASK GPIO_PIN_MASK) in
  let cfgset :=
    Z.lor cfgset (Z.lor (Z.lor GPIO_INPUT GPIO_CNF_INFLOAT) GPIO_MODE_INPUT) in
  stm32_configgpio cfgset h.

Definition stm32_gpiowrite (pinset : Z) (value : bool) (h : hw) : hw :=
  let port := pin_port pinset in
  if port <? STM32_NGPIO_PORTS then
    let base := gpiobase port in
    let pin := pin_number pinset in
    let offset := if value then STM32_GPIO_BSRR_OFFSET else STM32_GPIO_BRR_OFFSET in
    putreg32 (Z.shiftl 1 pin) (base + offset) h
  else h.

Definition stm32_gpioread (pinset : Z) (h : hw) : bool :=
  let port := pin_port pinset in
  if port <? STM32_NGPIO_PORTS then
    let base := gpiobase port in
    let pin := pin_number pinset in
    negb (Z.land (getreg32 (base + STM32_GPIO_IDR_OFFSET) h) (Z.shiftl 1 pin) =? 0)
  else false.

(** The level the code drives on a pin. *)
Definition pin_out (pinset : Z) (h : hw) : bool :=
  Z.testbit (odr (pin_port pinset) h) (pin_number pinset).

(** ** Lemmas *)

Lemma pin_number_bound c : 0 ≤ pin_number c < 16.
Proof.
  unfold pin_number, GPIO_PIN_MASK, GPIO_PIN_SHIFT.
  rewrite Z.shiftl_0_r, Z.shiftr_0_r. change 15 with (Z.ones 4).
  rewrite Z.land_ones by lia. apply Z.mod_pos_bound. lia.
Qed.

Lemma pin_port_bound c : 0 ≤ pin_port c < 8.
Proof.
  unfold pin_port, GPIO_PORT_MASK, GPIO_PORT_SHIFT.
  rewrite Z.shiftr_land. change (Z.shiftr (Z.shiftl 7 4) 4) with (Z.ones 3).
  rewrite Z.land_ones by lia. apply Z.mod_pos_bound. lia.
Qed.

Lemma bit_bound n : 0 ≤ n < 16 → 0 ≤ Z.shiftl 1 n < 2 ^ 16.
Proof.
  intros. rewrite Z.shiftl_1_l. split; [lia|]. apply Z.pow_lt_mono_r; lia.
Qed.

Lemma testbit_bit n i : 0 ≤ n → 0 ≤ i → Z.testbit (Z.shiftl 1 n) i = (n =? i).
Proof. intros. rewrite Z.shiftl_1_l. apply Z.pow2_bits_eqb. lia. Qed.

Context `{!Stm32GpioLaws hw}.

(** [stm32_gpiowrite] drives the named pin to the given level and leaves every
    other pin of every port as it was. *)
Lemma gpiowrite_odr pinset value h p i :
  is_port (pin_port pinset) → is_port p → 0 ≤ i →
  Z.testbit (odr p (stm32_gpiowrite pinset value h)) i =
    if (p =? pin_port pinset) && (i =? pin_number pinset) then value
    else Z.testbit (odr p h) i.
Proof.
  intros Hp Hq Hi. unfold stm32_gpiowrite.
  pose proof (pin_number_bound pinset) as Hn.
  pose proof (bit_bound _ Hn) as Hb.
  rewrite (proj2 (Z.ltb_lt _ _)) by apply Hp.
  destruct (Z.eqb_spec p (pin_port pinset)) as [->|Hne]; simpl.
  - destruct value;
      [rewrite odr_bsrr, Z.lor_spec by done|rewrite odr_brr, Z.ldiff_spec by done];
      rewrite testbit_bit, Z.eqb_sym by lia;
      destruct (Z.eqb_spec i (pin_number pinset)); simpl;
      rewrite ?orb_true_r, ?orb_false_r, ?andb_false_r, ?andb_true_r; done.
  - rewrite odr_other; [done|done|done|congruence|]. destruct value; auto.
Qed.

Lemma gpiowrite_pin pinset value h :
  is_port (pin_port pinset) → pin_out pinset (stm32_gpiowrite pinset value h) = value.
Proof.
  intros. unfold pin_out. pose proof (pin_number_bound pinset).
  rewrite gpiowrite_odr by (done || lia). by rewrite !Z.eqb_refl.
Qed.

Lemma gpiowrite_other pinset pinset' value h :
  is_port (pin_port pinset) → is_port (pin_port pinset') →
  (pin_port pinset', pin_number pinset') ≠ (pin_port pinset, pin_number pinset) →
  pin_out pinset' (stm32_gpiowrite pinset value h) = pin_out pinset' h.
Proof.
  intros ? ? Hne. unfold pin_out. pose proof (pin_number_bound pinset').
  rewrite gpiowrite_odr by (done || lia).
  destruct (Z.eqb_spec (pin_port pinset') (pin_port pinset)),
    (Z.eqb_spec (pin_number pinset') (pin_number pinset)); simpl; congruence.
Qed.

(** Configuring a push-pull output that starts high sets its pin and no other. *)
Lemma configgpio_out_set pinset h p i :
  is_port (pin_port pinset) → is_port p → 0 ≤ i →
  Z.land pinset GPIO_INPUT = 0 → Z.land pinset GPIO_CNF_MASK = GPIO_CNF_OUTPP →
  Z.land pinset GPIO_OUTPUT_SET ≠ 0 →
  fst (stm32_configgpio pinset h) = OK ∧
  Z.testbit (odr p (snd (stm32_configgpio pinset h))) i =
    ((p =? pin_port pinset) && (i =? pin_number pinset)) || Z.testbit (odr p h) i.
Proof.
  intros Hp Hq Hi Hin Hcnf Hset. unfold stm32_configgpio.
  rewrite (proj2 (Z.leb_gt _ _)) by apply Hp.
  rewrite Hin, Hcnf, (proj2 (Z.eqb_neq _ _) Hset), !Z.eqb_refl. cbv beta zeta. cbn [negb andb].
  assert (∀ pin, plain_reg (fst (if pin <? 8
    then (gpiobase (pin_port pinset) + STM32_GPIO_CRL_OFFSET, pin)
    else (gpiobase (pin_port pinset) + STM32_GPIO_CRH_OFFSET, pin - 8)))) as Hplain.
  { intros pin. left. exists (pin_port pinset). destruct (pin <? 8); auto. }
  specialize (Hplain (pin_number pinset)).
  destruct (if pin_number pinset <? 8 then _ else _) as [cr pos]. cbn [fst snd] in *.
  split; [done|]. rewrite bsrr_read by done. rewrite Z.lor_0_l.
  pose proof (pin_number_bound pinset) as Hn.
  destruct (Z.eqb_spec p (pin_port pinset)) as [->|Hne]; simpl.
  - rewrite odr_bsrr, odr_plain, Z.lor_spec, testbit_bit by (done || lia || by apply bit_bound).
    rewrite Z.eqb_sym. apply orb_comm.
  - rewrite odr_other, odr_plain by (done || congruence || auto). done.
Qed.

(** Configuring a floating input leaves every output as it was. *)
Lemma configgpio_in_float pinset h p :
  is_port (pin_port pinset) → is_port p →
  Z.land pinset GPIO_INPUT ≠ 0 → Z.land pinset GPIO_CNF_MASK = GPIO_CNF_INFLOAT →
  fst (stm32_configgpio pinset h) = OK ∧
  odr p (snd (stm32_configgpio pinset h)) = odr p h.
Proof.
  intros Hp Hq Hin Hcnf. unfold stm32_configgpio.
  rewrite (proj2 (Z.leb_gt _ _)) by apply Hp.
  rewrite Hcnf, (proj2 (Z.eqb_neq _ _) Hin).
  change (GPIO_CNF_INFLOAT =? GPIO_CNF_INPULLUD) with false.
  cbv beta zeta. cbn [negb andb].
  split; [by destruct (pin_number pinset <? 8)|].
  assert (∀ a, plain_reg (STM32_AFIO_EXTICR a)) by (right; right; eauto).
  destruct (pin_number pinset <? 8), (Z.land pinset GPIO_EXTI =? 0); simpl;
    rewrite ?odr_plain; try done; left; exists (pin_port pinset); auto.
Qed.

End Ops.

(** ** A register file with these laws *)

Module F1.

(** The registers that keep their value, and the levels applied from outside
    to the pins of each port. *)
Record regs : Type := mkregs { kept : gmap Z Z; ext : gmap Z Z }.

Definition kept_at (a : Z) (h : regs) : Z := default 0 (kept h !! a).

Definition in_block (a : Z) : option (Z * Z) :=
  let p := (a - 0x40010800) / 0x400 in
  if (0x40010800 <=? a) && (p <? STM32_NGPIO_PORTS)
  then Some (p, (a - 0x40010800) mod 0x400) else None.

Definition get (a : Z) (h : regs) : Z :=
  match in_block a with
  | None => kept_at a h
  | Some (p, o) =>
      if (o =? STM32_GPIO_BSRR_OFFSET) || (o =? STM32_GPIO_BRR_OFFSET) then 0
      else if o =? STM32_GPIO_IDR_OFFSET then
        Z.lor (kept_at (gpiobase p + STM32_GPIO_ODR_OFFSET) h) (default 0 (ext h !! p))
      else if o =? STM32_GPIO_ODR_OFFSET then Z.land (kept_at a h) 0xffff
      else kept_at a h
  end.

Definition put (v a : Z) (h : regs) : regs :=
  let set a v := mkregs (<[a := v]> (kept h)) (ext h) in
  match in_block a with
  | None => set a v
  | Some (p, o) =>
      let ra := gpiobase p + STM32_GPIO_ODR_OFFSET in
      if o =? STM32_GPIO_BSRR_OFFSET then
        set ra (Z.lor (Z.ldiff (get ra h) (Z.shiftr v 16)) (Z.land v 0xffff))
      else if o =? STM32_GPIO_BRR_OFFSET then set ra (Z.ldiff (get ra h) (Z.land v 0xffff))
      else set a v
  end.

#[global] Instance gpio : Stm32Gpio regs := {| getreg32 := get; putreg32 := put |}.

Lemma get_odr p h : is_port p →
  odr p h = Z.land (kept_at (gpiobase p + STM32_GPIO_ODR_OFFSET) h) 0xffff.
Proof.
  intros Hp. unfold is_port, STM32_NGPIO_PORTS in Hp.
  assert (p = 0 ∨ p = 1 ∨ p = 2 ∨ p = 3 ∨ p = 4) as D by lia.
  unfold odr. simpl. by destruct_or! D; subst.
Qed.

Lemma kept_put a b v m e :
  kept_at b (mkregs (<[a := v]> m) e) = if decide (a = b) then v else kept_at b (mkregs m e).
Proof. unfold kept_at. simpl. rewrite lookup_insert. by case_decide. Qed.

Lemma gpiobase_eq p : is_port p → gpiobase p = 0x40010800 + 0x400 * p.
Proof.
  intros Hp. unfold is_port, STM32_NGPIO_PORTS in Hp.
  assert (p = 0 ∨ p = 1 ∨ p = 2 ∨ p = 3 ∨ p = 4) as D by lia.
  by destruct_or! D; subst.
Qed.

Lemma in_block_port p o :
  is_port p → 0 ≤ o < 0x400 → in_block (gpiobase p + o) = Some (p, o).
Proof.
  intros Hp Ho. rewrite gpiobase_eq by done. unfold in_block, is_port in *.
  replace (0x40010800 + 0x400 * p + o - 0x40010800) with (o + p * 0x400) by lia.
  rewrite Z.div_add, Z.mod_add, (Z.div_small o), (Z.mod_small o), Z.add_0_l by lia.
  rewrite (proj2 (Z.leb_le _ _)), (proj2 (Z.ltb_lt _ _)) by lia. done.
Qed.

Lemma ldiff_16_small v : 0 ≤ v < 2 ^ 16 → Z.shiftr v 16 = 0 ∧ Z.land v 0xffff = v.
Proof.
  intros. split.
  - rewrite Z.shiftr_div_pow2 by lia. apply Z.div_small. lia.
  - change 0xffff with (Z.ones 16). rewrite Z.land_ones by lia. by apply Z.mod_small.
Qed.

Lemma land_ffff_idem v : Z.land (Z.land v 0xffff) 0xffff = Z.land v 0xffff.
Proof. by rewrite <-Z.land_assoc. Qed.

Lemma land_c_bound b : 0 ≤ Z.land b 0xc ≤ 0xc.
Proof.
  assert (Z.land b 0xc = Z.land (Z.land b (Z.ones 4)) 0xc) as -> by (by rewrite <-Z.land_assoc).
  rewrite Z.land_ones by lia.
  pose proof (Z.mod_pos_bound b (2 ^ 4)) as Hm.
  assert (∀ x, 0 ≤ x < 16 → 0 ≤ Z.land x 12 ≤ 12) as Hx; [|apply Hx; lia].
  intros x Hx. assert (x ∈ seqZ 0 16) as Hin by (apply elem_of_seqZ; lia).
  repeat (apply elem_of_cons in Hin as [->|Hin]; [by vm_compute|]).
  by apply elem_of_nil in Hin.
Qed.

(** Registers outside the ODR of [p] do not change it. *)
Lemma odr_put_ne p v a h :
  is_port p → a ≠ gpiobase p + STM32_GPIO_ODR_OFFSET →
  match in_block a with
  | Some (q, o) => q ≠ p ∨ (o ≠ STM32_GPIO_BSRR_OFFSET ∧ o ≠ STM32_GPIO_BRR_OFFSET)
  | None => True
  end →
  (∀ q o, in_block a = Some (q, o) → is_port q) →
  odr p (put v a h) = odr p h.
Proof.
  intros Hp Ha Hb Hport. rewrite !get_odr by done. unfold put. destruct h as [m e].
  destruct (in_block a) as [[q o]|] eqn:E.
  - specialize (Hport _ _ eq_refl).
    destruct (Z.eqb_spec o STM32_GPIO_BSRR_OFFSET), (Z.eqb_spec o STM32_GPIO_BRR_OFFSET);
      rewrite kept_put, decide_False; try done;
      (intros ?; assert (p = q) by (rewrite !gpiobase_eq in * by done; lia); naive_solver).
  - by rewrite kept_put, decide_False.
Qed.

Lemma in_block_is_port a q o : in_block a = Some (q, o) → is_port q.
Proof.
  unfold in_block. destruct (_ && _) eqn:E; [|done]. intros [= <- <-]. zify_bools.
  split; [apply Z.div_pos; lia|done].
Qed.

Lemma odr_put_plain p v a h : is_port p → plain_reg a → odr p (put v a h) = odr p h.
Proof.
  intros Hp Ha. destruct Ha as [(q & Hq & Ha)|Ha].
  - assert (gpiobase p - gpiobase q = 0x400 * (p - q)) by (rewrite !gpiobase_eq by done; lia).
    unfold STM32_GPIO_CRL_OFFSET, STM32_GPIO_CRH_OFFSET in Ha.
    apply odr_put_ne; [done| | |apply in_block_is_port].
    + unfold STM32_GPIO_ODR_OFFSET. lia.
    + destruct Ha as [-> | ->]; rewrite in_block_port by (done || lia); by right.
  - assert (STM32_AFIO_BASE ≤ a ≤ STM32_AFIO_BASE + 0x20) as Hr.
    { destruct Ha as [-> |[b ->]]; [by vm_compute|]. pose proof (land_c_bound b).
      unfold STM32_AFIO_EXTICR. lia. }
    unfold STM32_AFIO_BASE in Hr.
    assert (in_block a = None) as E.
    { unfold in_block. by rewrite (proj2 (Z.leb_gt _ _)) by lia. }
    apply odr_put_ne; [done| |by rewrite E|apply in_block_is_port].
    rewrite gpiobase_eq by done. unfold is_port, STM32_GPIO_ODR_OFFSET in *. lia.
Qed.

Lemma odr_put_bsrr p v h : is_port p → 0 ≤ v < 2 ^ 16 →
  odr p (put v (gpiobase p + STM32_GPIO_BSRR_OFFSET) h) = Z.lor (odr p h) v.
Proof.
  intros Hp Hv. rewrite get_odr by done. unfold put.
  rewrite in_block_port by (done || unfold STM32_GPIO_BSRR_OFFSET; lia). simpl.
  rewrite kept_put, decide_True by done.
  destruct (ldiff_16_small v Hv) as [-> ->]. rewrite Z.ldiff_0_r, Z.land_lor_distr_l.
  change (get (gpiobase p + STM32_GPIO_ODR_OFFSET) h) with (odr p h).
  rewrite get_odr, land_ffff_idem by done. by rewrite (proj2 (ldiff_16_small v Hv)).
Qed.

Lemma odr_put_brr p v h : is_port p → 0 ≤ v < 2 ^ 16 →
  odr p (put v (gpiobase p + STM32_GPIO_BRR_OFFSET) h) = Z.ldiff (odr p h) v.
Proof.
  intros Hp Hv. rewrite get_odr by done. unfold put.
  rewrite in_block_port by (done || unfold STM32_GPIO_BRR_OFFSET; lia). simpl.
  rewrite kept_put, decide_True by done.
  change (get (gpiobase p + STM32_GPIO_ODR_OFFSET) h) with (odr p h).
  destruct (ldiff_16_small v Hv) as [_ ->]. rewrite get_odr by done.
  apply Z.bits_inj'. intros i Hi. rewrite !Z.land_spec, !Z.ldiff_spec, !Z.land_spec.
  by destruct (Z.testbit _ i), (Z.testbit v i), (Z.testbit 65535 i).
Qed.

#[global] Instance laws : Stm32GpioLaws regs.
Proof.
  split.
  - intros p h Hp. rewrite get_odr by done. change 0xffff with (Z.ones 16).
    rewrite Z.land_ones by lia. apply Z.mod_pos_bound. lia.
  - intros p v h Hp. rewrite get_odr by done. simpl. unfold put.
    rewrite in_block_port by (done || unfold STM32_GPIO_ODR_OFFSET; lia). simpl.
    rewrite kept_put, decide_True by done. done.
  - apply odr_put_bsrr.
  - apply odr_put_brr.
  - intros p q v o h Hp Hq Hne Ho.
    assert (0 ≤ o < 0x400) by (destruct_or! Ho; subst; vm_compute; split; congruence).
    apply odr_put_ne; [done| | |apply in_block_is_port].
    + rewrite !gpiobase_eq by done. unfold STM32_GPIO_ODR_OFFSET. lia.
    + rewrite in_block_port by done. auto.
  - apply odr_put_plain.
  - intros p h Hp. simpl. unfold get.
    by rewrite in_block_port by (done || unfold STM32_GPIO_BSRR_OFFSET; lia).
  - intros p h Hp. simpl. unfold get.
    by rewrite in_block_port by (done || unfold STM32_GPIO_BRR_OFFSET; lia).
Qed.

End F1.
End Gpio.
