(* ===== verification/Board.v ===== *)
(** * Device drivers of the greenbone board

    Models the character drivers of [nuttx/configs/greenbone/src]:
    [stm32_led.c], [stm32_button.c], [stm32_display.c], [stm32_valve.c],
    [stm32_motor.c] and the start-up code [stm32_nsh.c] that creates them.

    A driver operation is a function of the registers (see [Gpio]); the buffer
    is the object [buf] points at ([None] for a null pointer); the result is
    the [ssize_t] the operation returns, with the buffer afterwards where the
    operation writes to it.  [register_driver] calls are recorded as values, in
    order: what they do belongs to the file system. *)

From stdpp Require Import strings.
From S2P Require Import Prelude Gpio.

Module Board.
Import Gpio.

(** ** Pins *)

Definition out_pin (port pin : Z) : Z :=
  Z.lor (Z.lor (Z.lor (Z.lor (Z.lor GPIO_OUTPUT GPIO_CNF_OUTPP) GPIO_MODE_50MHz)
    GPIO_OUTPUT_SET) port) (GPIO_PIN pin).
Definition in_pin (port pin : Z) : Z :=
  Z.lor (Z.lor (Z.lor (Z.lor (Z.lor GPIO_INPUT GPIO_CNF_INFLOAT) GPIO_MODE_INPUT)
    GPIO_EXTI) port) (GPIO_PIN pin).

Definition LED_FOOD : Z := out_pin GPIO_PORTB 15.
Definition LED_WATER : Z := out_pin GPIO_PORTB 1.
Definition LED_PERIOD : Z := out_pin GPIO_PORTA 6.
Definition LED_TIME : Z := out_pin GPIO_PORTA 4.

Definition MOTOR_DIR : Z := out_pin GPIO_PORTE 3.
Definition MOTOR_PWM : Z := out_pin GPIO_PORTE 2.

Definition VALVE_ENTER : Z := out_pin GPIO_PORTE 1.
Definition VALVE_EXIT : Z := out_pin GPIO_PORTE 0.

Definition KEY_FOOD : Z := in_pin GPIO_PORTB 14.
Definition KEY_WATER : Z := in_pin GPIO_PORTB 0.
Definition KEY_PERIOD : Z := in_pin GPIO_PORTA 5.
Definition KEY_TIME : Z := in_pin GPIO_PORTA 3.
Definition KEY_UP : Z := in_pin GPIO_PORTE 4.
Definition KEY_DOWN : Z := in_pin GPIO_PORTE 5.

(** [static const uint16_t g_buttons[NUM_BUTTONS]]. *)
Definition g_buttons : list Z :=
  u16 <$> [KEY_FOOD; KEY_WATER; KEY_PERIOD; KEY_TIME; KEY_UP; KEY_DOWN].

(** The pins [up_display] configures, in its order. *)
Definition display_pins : list Z :=
  [out_pin GPIO_PORTC 11; out_pin GPIO_PORTC 12; out_pin GPIO_PORTC 6;
   out_pin GPIO_PORTC 8; out_pin GPIO_PORTC 9; out_pin GPIO_PORTC 10;
   out_pin GPIO_PORTC 7; out_pin GPIO_PORTC 7;
   out_pin GPIO_PORTD 2; out_pin GPIO_PORTD 1; out_pin GPIO_PORTD 7;
   out_pin GPIO_PORTD 5; out_pin GPIO_PORTD 4; out_pin GPIO_PORTD 3;
   out_pin GPIO_PORTD 6; out_pin GPIO_PORTD 0].

Definition digits1 : list Z :=
  (λ x, Z.shiftl x 6) <$>
    [0x01; 0x3d; 0x12; 0x18; 0x2c; 0x48; 0x40; 0x1d; 0x00; 0x08].
Definition digits2 : list Z :=
  [0x41; 0x7D; 0x89; 0x19; 0x35; 0x13; 0x03; 0x79; 0x01; 0x11].

Definition STM32_GPIOC_ODR : Z := gpiobase 2 + STM32_GPIO_ODR_OFFSET.
Definition STM32_GPIOD_ODR : Z := gpiobase 3 + STM32_GPIO_ODR_OFFSET.

(** ** Driver operations *)

Section Drivers.
Context {hw : Type} `{Stm32Gpio hw}.

(** [buf == NULL || buflen < 1], then the first byte of the buffer. *)
Definition with_byte {A} (buf : option (list Z)) (buflen : Z) (bad : A)
    (k : Z → res A) : res A :=
  match buf with
  | None => Ok bad
  | Some b =>
      if buflen <? 1 then Ok bad
      else match b with [] => Undef OutOfBounds | c :: _ => k c end
  end.

Definition leds_write (buf : option (list Z)) (buflen : Z) (h : hw) : res (Z * hw) :=
  with_byte buf buflen (- EINVAL, h) (λ c,
  let reg := u8 c in
  let h := stm32_gpiowrite LED_FOOD (Z.land reg 0x01 =? 0) h in
  let h := stm32_gpiowrite LED_WATER (Z.land reg 0x02 =? 0) h in
  let h := stm32_gpiowrite LED_PERIOD (Z.land reg 0x04 =? 0) h in
  let h := stm32_gpiowrite LED_TIME (Z.land reg 0x08 =? 0) h in
  Ok (1, h)).

(** [~(stm32_gpioread(..))] is the complement of an [int]. *)
Definition not_level (pin : Z) (h : hw) : Z := Z.lnot (Z.b2z (stm32_gpioread pin h)).

Definition leds_read (buf : option (list Z)) (buflen : Z) (h : hw)
    : res (Z * option (list Z)) :=
  with_byte buf buflen (- EINVAL, buf) (λ _,
  let reg := u8 (not_level LED_TIME h) in
  let reg := u8 (Z.lor (Z.shiftl reg 1) (not_level LED_PERIOD h)) in
  let reg := u8 (Z.lor (Z.shiftl reg 1) (not_level LED_WATER h)) in
  let reg := u8 (Z.lor (Z.shiftl reg 1) (not_level LED_FOOD h)) in
  let reg := Z.land reg 0x0F in
  Ok (1, (λ b, <[0%nat := u8 reg]> b) <$> buf)).

Definition motor_write (buf : option (list Z)) (buflen : Z) (h : hw) : res (Z * hw) :=
  with_byte buf buflen (- EINVAL, h) (λ c,
  let reg := u8 c in
  Ok (1, stm32_gpiowrite MOTOR_PWM (negb (Z.land reg 0x01 =? 0)) h)).

Definition valve_write (buf : option (list Z)) (buflen : Z) (h : hw) : res (Z * hw) :=
  with_byte buf buflen (- EINVAL, h) (λ c,
  let reg := u8 c in
  let h := stm32_gpiowrite VALVE_ENTER (negb (Z.land reg 0x01 =? 0)) h in
  let h := stm32_gpiowrite VALVE_EXIT (negb (Z.land reg 0x02 =? 0)) h in
  Ok (1, h)).

(** [motor_read] and [valve_read] return 1 and write nothing. *)
Definition motor_read (buf : option (list Z)) (buflen : Z) : res (Z * option (list Z)) :=
  match buf with
  | None => Ok (- EINVAL, buf)
  | Some _ => if buflen <? 1 then Ok (- EINVAL, buf) else Ok (1, buf)
  end.
Definition valve_read (buf : option (list Z)) (buflen : Z) : res (Z * option (list Z)) :=
  match buf with
  | None => Ok (- EINVAL, buf)
  | Some _ => if buflen <? 1 then Ok (- EINVAL, buf) else Ok (1, buf)
  end.

(** The [for] loop of [button_read] from button [i] on. *)
Fixpoint scan_buttons (keys : list Z) (i ret : Z) (h : hw) : Z :=
  match keys with
  | [] => ret
  | k :: keys =>
      let released := stm32_gpioread k h in
      scan_buttons keys (i + 1)
        (if negb released then u8 (Z.lor ret (Z.shiftl 1 i)) else ret) h
  end.

Definition button_read (buf : option (list Z)) (buflen : Z) (h : hw)
    : res (Z * option (list Z)) :=
  with_byte buf buflen (- EINVAL, buf) (λ _,
  let ret := scan_buttons g_buttons 0 0 h in
  Ok (1, (λ b, <[0%nat := u8 (Z.land ret 0x3F)]> b) <$> buf)).

Definition button_write (buf : option (list Z)) (buflen : Z) (h : hw) : res (Z * hw) :=
  Ok (- EINVAL, h).

(** [floor] of [stm32_display.c] on an integral argument; the difference with
    the constant 0.9999999999999999 is taken exactly. *)
Definition floor (x : Z) : Z :=
  if 0 <? x then x else Z.quot (x * 10 ^ 16 - 9999999999999999) (10 ^ 16).

(** The two register updates that show a pair of digits. *)
Definition show_digits (d1 d2 : Z) (h : hw) : hw :=
  let val := getreg32 STM32_GPIOC_ODR h in
  let val := Z.land val 0xFFFFE03F in
  let val := Z.lor val d1 in
  let h := putreg32 val STM32_GPIOC_ODR h in
  let val := getreg32 STM32_GPIOD_ODR h in
  let val := Z.land val 0xFFFFFF00 in
  let val := Z.lor val d2 in
  putreg32 val STM32_GPIOD_ODR h.

Definition display_write (buf : option (list Z)) (buflen : Z) (h : hw) : res (Z * hw) :=
  with_byte buf buflen (- EINVAL, h) (λ c,
  let value := u8 c in
  if 100 <=? value then Ok (1, h)
  else
    let dgt1 := u8 (floor (value / 10)) in
    let dgt2 := u8 (value - dgt1 * 10) in
    match digits1 !! Z.to_nat dgt1, digits2 !! Z.to_nat dgt2 with
    | Some d1, Some d2 => Ok (1, show_digits d1 d2 h)
    | _, _ => Undef OutOfBounds
    end).

Definition display_read (buf : option (list Z)) (buflen : Z) : res (Z * option (list Z)) :=
  with_byte buf buflen (- EINVAL, buf) (λ _,
  Ok (1, (λ b, <[0%nat := 65]> b) <$> buf)).

(** ** Start-up *)

(** A [register_driver] call: path and permission bits. *)
Definition registration : Type := string * Z.

Definition config_all (pins : list Z) (h : hw) : hw :=
  foldl (λ h p, snd (stm32_configgpio p h)) h pins.

Definition up_led (h : hw) : hw * registration :=
  (config_all [LED_FOOD; LED_WATER; LED_PERIOD; LED_TIME] h, ("/dev/leds"%string, 0x124)).

Definition up_display (h : hw) : hw * registration :=
  let h := config_all display_pins h in
  (show_digits (nth 0 digits1 0) (nth 0 digits2 0) h, ("/dev/display"%string, 0x1b6)).

Definition up_button (h : hw) : hw * registration :=
  (config_all g_buttons h, ("/dev/buttons"%string, 0x124)).

Definition up_valve (h : hw) : hw * registration :=
  (config_all [VALVE_ENTER; VALVE_EXIT] h, ("/dev/valve"%string, 0x124)).

Definition up_motor (h : hw) : hw * registration :=
  let h := config_all [MOTOR_DIR; MOTOR_PWM] h in
  let h := stm32_gpiowrite MOTOR_PWM false h in
  let h := stm32_gpiowrite MOTOR_DIR true h in
  (h, ("/dev/motor"%string, 0x124)).

Definition nsh_archinitialize (h : hw) : hw * list registration :=
  let '(h, r1) := up_led h in
  let '(h, r2) := up_display h in
  let '(h, r3) := up_button h in
  let '(h, r4) := up_valve h in
  let '(h, r5) := up_motor h in
  (h, [r1; r2; r3; r4; r5]).

(** ** Specification: the seven-segment glyphs

    The segments lit for each decimal digit, in the order A to G, and the pins
    that drive them (a low level lights a segment).  The units digit is wired
    as the [GPIO_DSP2_*] names say; in the tens digit the pins named
    [GPIO_DSP1_C] and [GPIO_DSP1_G] drive segments G and C. *)

Definition glyph (d : Z) : list bool :=
  nth (Z.to_nat d)
    [[true;  true;  true;  true;  true;  true;  false];
     [false; true;  true;  false; false; false; false];
     [true;  true;  false; true;  true;  false; true];
     [true;  true;  true;  true;  false; false; true];
     [false; true;  true;  false; false; true;  true];
     [true;  false; true;  true;  false; true;  true];
     [true;  false; true;  true;  true;  true;  true];
     [true;  true;  true;  false; false; false; false];
     [true;  true;  true;  true;  true;  true;  true];
     [true;  true;  true;  true;  false; true;  true]] [].

Definition tens_bits : list Z := [11; 12; 7; 8; 9; 10; 6].
Definition units_bits : list Z := [2; 1; 7; 5; 4; 3; 6].

(** The segments lit by an output register. *)
Definition lit (bits : list Z) (reg : Z) : list bool :=
  (λ b, negb (Z.testbit reg b)) <$> bits.

(** What the display shows. *)
Definition shows (v : Z) (h : hw) : Prop :=
  lit tens_bits (odr 2 h) = glyph (v / 10) ∧ lit units_bits (odr 3 h) = glyph (v mod 10).


(** ** Lemmas *)

Context `{!Stm32GpioLaws hw}.

Lemma decimal_digits v : 0 ≤ v < 100 →
  u8 (floor (v / 10)) = v / 10 ∧ u8 (v - v / 10 * 10) = v mod 10 ∧
  0 ≤ v / 10 < 10 ∧ 0 ≤ v mod 10 < 10.
Proof.
  intros Hv. pose proof (Z.div_mod v 10). pose proof (Z.mod_pos_bound v 10).
  assert (0 ≤ v / 10 < 10) by lia.
  assert (floor (v / 10) = v / 10) as ->.
  { unfold floor. destruct (Z.ltb_spec 0 (v / 10)); [done|].
    by replace (v / 10) with 0 by lia. }
  rewrite !u8_small by lia. lia.
Qed.

Lemma testbit_masked c m d i :
  0 ≤ i → Z.testbit (Z.land (Z.lor (Z.land c m) d) 0xffff) i =
    ((Z.testbit c i && Z.testbit m i) || Z.testbit d i) && Z.testbit 0xffff i.
Proof. intros. by rewrite Z.land_spec, Z.lor_spec, Z.land_spec. Qed.

(** The bits of both output registers after [show_digits]. *)
Lemma show_digits_odr d1 d2 h :
  odr 2 (show_digits d1 d2 h) = Z.land (Z.lor (Z.land (odr 2 h) 0xFFFFE03F) d1) 0xffff ∧
  odr 3 (show_digits d1 d2 h) = Z.land (Z.lor (Z.land (odr 3 h) 0xFFFFFF00) d2) 0xffff ∧
  ∀ p, is_port p → p ≠ 2 → p ≠ 3 → odr p (show_digits d1 d2 h) = odr p h.
Proof.
  unfold show_digits, STM32_GPIOC_ODR, STM32_GPIOD_ODR.
  assert (is_port 2 ∧ is_port 3) as [? ?] by (unfold is_port, STM32_NGPIO_PORTS; lia).
  split_and!.
  - rewrite odr_other by (done || auto). by rewrite odr_put.
  - rewrite odr_put by done. f_equal. f_equal. f_equal.
    rewrite <-(odr_other 2 3 (Z.lor (Z.land (odr 2 h) 0xFFFFE03F) d1) STM32_GPIO_ODR_OFFSET)
      by (done || auto). done.
  - intros p Hp ??. by rewrite !odr_other by (done || auto).
Qed.

Lemma lit_masked bits c m d :
  Forall (λ b, 0 ≤ b < 16 ∧ Z.testbit m b = false) bits →
  lit bits (Z.land (Z.lor (Z.land c m) d) 0xffff) = lit bits d.
Proof.
  intros Hb. unfold lit. apply list_fmap_ext. intros ? b Hl.
  destruct (Forall_lookup_1 _ _ _ _ Hb Hl) as [Hr Hm]. f_equal.
  rewrite testbit_masked, Hm, andb_false_r by lia. simpl.
  change 65535 with (Z.ones 16). rewrite Z.ones_spec_low by lia. apply andb_true_r.
Qed.

(** The two tables hold the glyphs of the ten digits. *)
Lemma digit_tables d :
  0 ≤ d < 10 →
  (∃ d1, digits1 !! Z.to_nat d = Some d1 ∧ lit tens_bits d1 = glyph d) ∧
  (∃ d2, digits2 !! Z.to_nat d = Some d2 ∧ lit units_bits d2 = glyph d).
Proof.
  intros Hd. assert (d ∈ seqZ 0 10) as Hin by (apply elem_of_seqZ; lia).
  repeat (apply elem_of_cons in Hin as [->|Hin];
    [split; eexists; split; vm_compute; reflexivity|]).
  by apply elem_of_nil in Hin.
Qed.

Lemma show_digits_glyphs d1 d2 h :
  lit tens_bits (odr 2 (show_digits d1 d2 h)) = lit tens_bits d1 ∧
  lit units_bits (odr 3 (show_digits d1 d2 h)) = lit units_bits d2.
Proof.
  destruct (show_digits_odr d1 d2 h) as (-> & -> & _). split; apply lit_masked;
    repeat constructor; lia.
Qed.

(** Digit patterns stay inside the masks, so the other pins keep their level. *)
Definition frame_of (m : Z) (d : Z) : Prop := ∀ i, 0 ≤ i → Z.testbit m i = true → Z.testbit d i = false.

Lemma land_zero_frame m d : Z.land m d = 0 → frame_of m d.
Proof.
  intros E i Hi Hm. apply (f_equal (λ z, Z.testbit z i)) in E.
  rewrite Z.land_spec, Hm, Z.bits_0 in E. done.
Qed.

Lemma digit_tables_frame d :
  (∀ x, digits1 !! d = Some x → frame_of 0xFFFFE03F x) ∧
  (∀ x, digits2 !! d = Some x → frame_of 0xFFFFFF00 x).
Proof.
  split; intros x Hx; apply land_zero_frame;
    do 10 (destruct d as [|d]; [injection Hx as <-; vm_compute; reflexivity|]); done.
Qed.

Lemma testbit_frame c m d i :
  0 ≤ i < 16 → frame_of m d → Z.testbit m i = true →
  Z.testbit (Z.land (Z.lor (Z.land c m) d) 0xffff) i = Z.testbit c i.
Proof.
  intros Hi Hf Hm. rewrite testbit_masked, Hm, (Hf i), orb_false_r, andb_true_r by (done || lia).
  change 65535 with (Z.ones 16). rewrite Z.ones_spec_low by lia. apply andb_true_r.
Qed.

Lemma display_write_spec (c : Z) (r : list Z) (buflen : Z) (h : hw) :
  0 ≤ c < 256 → 1 ≤ buflen →
  ∃ h', display_write (Some (c :: r)) buflen h = Ok (1, h') ∧
    (100 ≤ c → h' = h) ∧
    (c < 100 → shows c h' ∧
      (∀ i, 0 ≤ i < 16 → ¬ 6 ≤ i ≤ 12 → Z.testbit (odr 2 h') i = Z.testbit (odr 2 h) i) ∧
      (∀ i, 8 ≤ i < 16 → Z.testbit (odr 3 h') i = Z.testbit (odr 3 h) i) ∧
      (∀ p, is_port p → p ≠ 2 → p ≠ 3 → odr p h' = odr p h)).
Proof.
  intros Hc Hl. unfold display_write, with_byte.
  rewrite (proj2 (Z.ltb_ge _ _)) by lia. rewrite u8_small by done.
  destruct (Z.leb_spec 100 c); [exists h; split_and!; done || lia|].
  destruct (decimal_digits c) as (E1 & E2 & H1 & H2); [lia|].
  cbv zeta. rewrite E1, E2.
  destruct (digit_tables (c / 10) H1) as [(d1 & L1 & G1) _].
  destruct (digit_tables (c mod 10) H2) as [_ (d2 & L2 & G2)].
  rewrite L1, L2. eexists; split; [done|]. split; [lia|intros _].
  destruct (show_digits_odr d1 d2 h) as (O1 & O2 & O3).
  destruct (show_digits_glyphs d1 d2 h) as [S1 S2].
  split_and!; [split; congruence| | |exact O3].
  - intros i Hi Hn. rewrite O1. apply testbit_frame; [done|by eapply digit_tables_frame|].
    assert (i ∈ seqZ 0 6 ++ seqZ 13 3) as Hin
      by (rewrite elem_of_app, !elem_of_seqZ; lia).
    repeat (apply elem_of_cons in Hin as [->|Hin]; [done|]). by apply elem_of_nil in Hin.
  - intros i Hi. rewrite O2. apply testbit_frame; [lia|by eapply digit_tables_frame|].
    assert (i ∈ seqZ 8 8) as Hin by (rewrite elem_of_seqZ; lia).
    repeat (apply elem_of_cons in Hin as [->|Hin]; [done|]). by apply elem_of_nil in Hin.
Qed.

(** C31: a byte [v] below 100 written to [/dev/display] shows the tens digit of
    [v] on the left and the units digit on the right, both with the standard
    seven-segment glyph, and changes no pin that is not a segment; any other
    byte leaves the registers as they are.  The call never fails. *)
Theorem display_write_shows (c : Z) (r : list Z) (buflen : Z) (h : hw) :
  0 ≤ c < 256 → 1 ≤ buflen →
  ∃ h', display_write (Some (c :: r)) buflen h = Ok (1, h') ∧
    (100 ≤ c → h' = h) ∧
    (c < 100 → shows c h' ∧
      (∀ i, 0 ≤ i < 16 → ¬ 6 ≤ i ≤ 12 → Z.testbit (odr 2 h') i = Z.testbit (odr 2 h) i) ∧
      (∀ i, 8 ≤ i < 16 → Z.testbit (odr 3 h') i = Z.testbit (odr 3 h) i) ∧
      (∀ p, is_port p → p ≠ 2 → p ≠ 3 → odr p h' = odr p h)).
Proof. apply display_write_spec. Qed.

Lemma is_port_pin p : (p <? STM32_NGPIO_PORTS) = true → 0 ≤ p → is_port p.
Proof. intros. zify_bools. by split. Qed.

(** The level a pin shows after a chain of [stm32_gpiowrite] calls. *)
Ltac pin_simpl :=
  repeat first
    [ rewrite gpiowrite_pin by (apply is_port_pin; vm_compute; congruence)
    | rewrite gpiowrite_other by
        first [apply is_port_pin; vm_compute; congruence | vm_compute; congruence] ].

(** The pins of the five devices; [pin_out] of any of them is what the device
    sees. *)
Definition driven_pins : list Z :=
  [LED_FOOD; LED_WATER; LED_PERIOD; LED_TIME; MOTOR_DIR; MOTOR_PWM; VALVE_ENTER; VALVE_EXIT].

Definition bit_set (c i : Z) : bool := Z.testbit c i.

Lemma land_bit c i m : 0 ≤ i → m = 2 ^ i → (Z.land c m =? 0) = negb (Z.testbit c i).
Proof.
  intros Hi ->. assert (Z.land c (2 ^ i) = Z.b2z (Z.testbit c i) * 2 ^ i) as ->.
  { apply Z.bits_inj'. intros j Hj. rewrite Z.land_spec, Z.pow2_bits_eqb by lia.
    destruct (Z.testbit c i) eqn:E; simpl Z.b2z; rewrite ?Z.mul_1_l, ?Z.bits_0.
    - rewrite Z.pow2_bits_eqb by lia. destruct (Z.eqb_spec i j); subst;
        [by rewrite E|apply andb_false_r].
    - destruct (Z.eqb_spec i j); subst; [by rewrite E|apply andb_false_r]. }
  destruct (Z.testbit c i); simpl; [|done]. apply Z.eqb_neq. lia.
Qed.

Lemma device_writes_spec (c : Z) (r : list Z) (buflen : Z) (h : hw) :
  0 ≤ c < 256 → 1 ≤ buflen →
  (∃ h', leds_write (Some (c :: r)) buflen h = Ok (1, h') ∧
    (λ p, pin_out p h') <$> driven_pins =
      [negb (bit_set c 0); negb (bit_set c 1); negb (bit_set c 2); negb (bit_set c 3)] ++
      ((λ p, pin_out p h) <$> drop 4 driven_pins)) ∧
  (∃ h', motor_write (Some (c :: r)) buflen h = Ok (1, h') ∧
    (λ p, pin_out p h') <$> driven_pins =
      <[5%nat := bit_set c 0]> ((λ p, pin_out p h) <$> driven_pins)) ∧
  (∃ h', valve_write (Some (c :: r)) buflen h = Ok (1, h') ∧
    (λ p, pin_out p h') <$> driven_pins =
      <[7%nat := bit_set c 1]> (<[6%nat := bit_set c 0]>
        ((λ p, pin_out p h) <$> driven_pins))).
Proof.
  intros Hc Hl. unfold leds_write, motor_write, valve_write, with_byte.
  rewrite (proj2 (Z.ltb_ge _ _)) by lia. rewrite u8_small by done. cbv zeta.
  rewrite (land_bit c 0 1), (land_bit c 1 2), (land_bit c 2 4), (land_bit c 3 8) by done.
  rewrite !negb_involutive.
  split_and!; eexists; (split; [done|]); unfold driven_pins;
    cbn [fmap list_fmap drop app insert list_insert]; pin_simpl; done.
Qed.

(** a byte written to [/dev/leds], [/dev/motor] or [/dev/valve] reaches the
    pins bit by bit: LED [i] is driven low exactly when bit [i] is set, the
    motor pin follows bit 0, the two valve pins bits 0 and 1; each write leaves
    every pin of the other devices alone. *)
Theorem actuator_writes (c : Z) (r : list Z) (buflen : Z) (h : hw) :
  0 ≤ c < 256 → 1 ≤ buflen →
  (∃ h', leds_write (Some (c :: r)) buflen h = Ok (1, h') ∧
    (λ p, pin_out p h') <$> driven_pins =
      [negb (bit_set c 0); negb (bit_set c 1); negb (bit_set c 2); negb (bit_set c 3)] ++
      ((λ p, pin_out p h) <$> drop 4 driven_pins)) ∧
  (∃ h', motor_write (Some (c :: r)) buflen h = Ok (1, h') ∧
    (λ p, pin_out p h') <$> driven_pins =
      <[5%nat := bit_set c 0]> ((λ p, pin_out p h) <$> driven_pins)) ∧
  (∃ h', valve_write (Some (c :: r)) buflen h = Ok (1, h') ∧
    (λ p, pin_out p h') <$> driven_pins =
      <[7%nat := bit_set c 1]> (<[6%nat := bit_set c 0]>
        ((λ p, pin_out p h) <$> driven_pins))).
Proof. apply device_writes_spec. Qed.

Lemma u8_or_bit r i :
  0 ≤ r < 256 → 0 ≤ i < 8 →
  u8 (Z.lor r (Z.shiftl 1 i)) = Z.lor r (2 ^ i) ∧ 0 ≤ Z.lor r (2 ^ i) < 256.
Proof.
  intros Hr Hi. rewrite Z.shiftl_1_l.
  assert (Z.lor r (2 ^ i) = Z.lor r (2 ^ i) mod 2 ^ 8) as E.
  { apply Z.bits_inj'. intros j Hj. destruct (Z.ltb_spec j 8).
    - by rewrite Z.mod_pow2_bits_low by lia.
    - rewrite Z.mod_pow2_bits_high, Z.lor_spec, Z.pow2_bits_eqb by lia.
      rewrite (proj2 (Z.eqb_neq _ _)) by lia. rewrite orb_false_r.
      destruct (decide (r = 0)) as [->|]; [apply Z.bits_0|].
      apply Z.bits_above_log2; [lia|]. apply Z.log2_lt_pow2; [lia|].
      apply (Z.lt_le_trans _ (2 ^ 8)); [lia|]. apply Z.pow_le_mono_r; lia. }
  split; [unfold u8, wrap; by rewrite <-E|]. rewrite E. apply Z.mod_pos_bound. lia.
Qed.

Lemma scan_buttons_bits (keys : list Z) i ret (h : hw) :
  0 ≤ i → i + Z.of_nat (length keys) ≤ 8 → 0 ≤ ret < 256 →
  0 ≤ scan_buttons keys i ret h < 256 ∧
  ∀ j, 0 ≤ j → Z.testbit (scan_buttons keys i ret h) j =
    Z.testbit ret j ||
    ((i <=? j) && match keys !! Z.to_nat (j - i) with
                  | Some k => negb (stm32_gpioread k h)
                  | None => false
                  end).
Proof.
  revert i ret. induction keys as [|k keys IH]; intros i ret Hi Hl Hr; simpl.
  - split; [done|]. intros j _. by rewrite andb_false_r, orb_false_r.
  - simpl in Hl. destruct (u8_or_bit ret i Hr) as [E Hb]; [lia|].
    assert (0 ≤ (if negb (stm32_gpioread k h) then u8 (Z.lor ret (Z.shiftl 1 i)) else ret) < 256)
      as Hr' by (case_match; [by rewrite E|done]).
    destruct (IH (i + 1) _ ltac:(lia) ltac:(lia) Hr') as [Hbd Hbits].
    split; [done|]. intros j Hj. rewrite Hbits by done.
    assert (Z.testbit (if negb (stm32_gpioread k h) then u8 (Z.lor ret (Z.shiftl 1 i)) else ret) j
      = Z.testbit ret j || ((i =? j) && negb (stm32_gpioread k h))) as ->.
    { destruct (stm32_gpioread k h); simpl; [by rewrite andb_false_r, orb_false_r|].
      by rewrite E, Z.lor_spec, Z.pow2_bits_eqb, andb_true_r by lia. }
    rewrite <-orb_assoc. f_equal. destruct (Z.eqb_spec i j) as [->|Hne].
    + rewrite (proj2 (Z.leb_gt (j + 1) j)), (proj2 (Z.leb_le j j)) by lia.
      replace (Z.to_nat (j - j)) with 0%nat by lia. simpl. by rewrite orb_false_r.
    + simpl. destruct (Z.leb_spec (i + 1) j).
      * rewrite (proj2 (Z.leb_le i j)) by lia.
        by replace (Z.to_nat (j - i)) with (S (Z.to_nat (j - (i + 1)))) by lia.
      * by rewrite (proj2 (Z.leb_gt i j)) by lia.
Qed.

(** the byte read from [/dev/buttons] has bit [i] set exactly when the level
    of button [i] is low (pressed), for the six buttons in the order food,
    water, period, time, up, down, and no other bit. *)
Theorem button_read_bits (b : Z) (r : list Z) (buflen : Z) (h : hw) :
  1 ≤ buflen →
  ∃ v, button_read (Some (b :: r)) buflen h = Ok (1, Some (v :: r)) ∧ 0 ≤ v < 64 ∧
    ∀ i, 0 ≤ i → Z.testbit v i =
      match g_buttons !! Z.to_nat i with
      | Some k => negb (stm32_gpioread k h)
      | None => false
      end.
Proof.
  intros Hl. unfold button_read, with_byte.
  rewrite (proj2 (Z.ltb_ge _ _)) by lia. cbv zeta. eexists; split; [done|].
  destruct (scan_buttons_bits g_buttons 0 0 h) as [Hb Hbits]; [lia|by vm_compute|lia|].
  change 63 with (Z.ones 6). rewrite Z.land_ones by lia.
  pose proof (Z.mod_pos_bound (scan_buttons g_buttons 0 0 h) (2 ^ 6)) as Hm.
  rewrite u8_small by lia. split; [lia|]. intros i Hi.
  assert (Z.of_nat (length g_buttons) = 6) as Hlen by done.
  destruct (Z.ltb_spec i 6).
  - rewrite Z.mod_pow2_bits_low, Hbits, Z.bits_0 by lia.
    rewrite (proj2 (Z.leb_le 0 i)) by lia. by rewrite Z.sub_0_r.
  - rewrite Z.mod_pow2_bits_high by lia. by rewrite lookup_ge_None_2 by lia.
Qed.

(** reading [/dev/leds] reports the food LED only: the complement of the
    32-bit level sets every higher bit, so bits 1 to 3 of the byte are always
    set whatever the other three LEDs show. *)
Theorem leds_read_high_bits (b : Z) (r : list Z) (buflen : Z) (h : hw) :
  1 ≤ buflen →
  leds_read (Some (b :: r)) buflen h =
    Ok (1, Some (14 + Z.b2z (negb (stm32_gpioread LED_FOOD h)) :: r)).
Proof.
  intros Hl. unfold leds_read, with_byte, not_level.
  rewrite (proj2 (Z.ltb_ge _ _)) by lia.
  destruct (stm32_gpioread LED_TIME h), (stm32_gpioread LED_PERIOD h),
    (stm32_gpioread LED_WATER h), (stm32_gpioread LED_FOOD h); reflexivity.
Qed.

(** *** Start-up *)

Definition is_out (c : Z) : bool :=
  (pin_port c <? STM32_NGPIO_PORTS) && (Z.land c GPIO_INPUT =? 0) &&
  (Z.land c GPIO_CNF_MASK =? GPIO_CNF_OUTPP) && negb (Z.land c GPIO_OUTPUT_SET =? 0).

Definition is_in (c : Z) : bool :=
  (pin_port c <? STM32_NGPIO_PORTS) && negb (Z.land c GPIO_INPUT =? 0) &&
  (Z.land c GPIO_CNF_MASK =? GPIO_CNF_INFLOAT).

Definition same_pin (p i c : Z) : bool := (p =? pin_port c) && (i =? pin_number c).

Lemma pin_port_is_port c : (pin_port c <? STM32_NGPIO_PORTS) = true → is_port (pin_port c).
Proof. intros. apply is_port_pin; [done|]. apply pin_port_bound. Qed.

Lemma config_all_out pins (h : hw) p i :
  forallb is_out pins = true → is_port p → 0 ≤ i →
  Z.testbit (odr p (config_all pins h)) i =
    existsb (same_pin p i) pins || Z.testbit (odr p h) i.
Proof.
  revert h. induction pins as [|c pins IH]; intros h Ho Hp Hi; [done|].
  simpl in Ho. apply andb_true_iff in Ho as [Hc Ho].
  unfold is_out in Hc. rewrite !andb_true_iff in Hc. destruct Hc as [[[H1 H2] H3] H4].
  simpl. unfold config_all in *. rewrite IH by done. zify_bools.
  assert (is_port (pin_port c)) by (split; [apply pin_port_bound|done]).
  destruct (configgpio_out_set c h p i) as [_ ->]; try done.
  unfold same_pin. rewrite (orb_assoc (existsb _ _)), (orb_comm (existsb _ _)). done.
Qed.

Lemma config_all_in pins (h : hw) p :
  forallb is_in pins = true → is_port p → odr p (config_all pins h) = odr p h.
Proof.
  revert h. induction pins as [|c pins IH]; intros h Ho Hp; [done|].
  simpl in Ho. apply andb_true_iff in Ho as [Hc Ho].
  unfold is_in in Hc. rewrite !andb_true_iff in Hc. destruct Hc as [[H1 H2] H3].
  simpl. unfold config_all in *. rewrite IH by done. zify_bools.
  assert (is_port (pin_port c)) by (split; [apply pin_port_bound|done]).
  by apply configgpio_in_float.
Qed.

(** The registers after start-up, port by port, in terms of those before. *)
Lemma startup_testbit (h : hw) p i :
  is_port p → 0 ≤ i → p ≠ 2 → p ≠ 3 →
  Z.testbit (odr p (fst (nsh_archinitialize h))) i =
    negb (same_pin p i MOTOR_PWM) &&
    (existsb (same_pin p i) driven_pins || Z.testbit (odr p h) i).
Proof.
  intros Hp Hi H2 H3. unfold nsh_archinitialize, up_led, up_display, up_button, up_valve, up_motor.
  cbn [fst snd].
  rewrite !gpiowrite_odr by (done || by apply pin_port_is_port).
  rewrite !config_all_out, config_all_in by done.
  destruct (show_digits_odr (nth 0 digits1 0) (nth 0 digits2 0)
    (config_all display_pins (config_all [LED_FOOD; LED_WATER; LED_PERIOD; LED_TIME] h)))
    as (_ & _ & Hs).
  rewrite Hs, !config_all_out by done.
  assert (existsb (same_pin p i) display_pins = false) as ->.
  { unfold display_pins, same_pin. cbn [existsb]. rewrite !orb_false_iff.
    split_and!; try done; apply andb_false_iff; left; apply Z.eqb_neq; assumption. }
  unfold driven_pins. cbn [existsb]. fold (same_pin p i MOTOR_DIR) (same_pin p i MOTOR_PWM).
  destruct (same_pin p i MOTOR_DIR) eqn:ED.
  - assert (same_pin p i MOTOR_PWM = false) as ->; [|by rewrite !orb_true_r].
    unfold same_pin in *. zify_bools. subst. done.
  - destruct (same_pin p i MOTOR_PWM); simpl; [done|].
    rewrite !orb_false_r.
    destruct (same_pin p i LED_FOOD), (same_pin p i LED_WATER), (same_pin p i LED_PERIOD),
      (same_pin p i LED_TIME), (same_pin p i VALVE_ENTER), (same_pin p i VALVE_EXIT),
      (Z.testbit (odr p h) i); done.
Qed.

Lemma startup_levels (h : hw) :
  let h' := fst (nsh_archinitialize h) in
  pin_out MOTOR_PWM h' = false ∧ pin_out MOTOR_DIR h' = true ∧
  (λ p, pin_out p h') <$> [LED_FOOD; LED_WATER; LED_PERIOD; LED_TIME] =
    [true; true; true; true] ∧
  pin_out VALVE_ENTER h' = true ∧ pin_out VALVE_EXIT h' = true ∧
  snd (nsh_archinitialize h) =
    [("/dev/leds", 0x124); ("/dev/display", 0x1b6); ("/dev/buttons", 0x124);
     ("/dev/valve", 0x124); ("/dev/motor", 0x124)]%string.
Proof.
  intros h'. subst h'. unfold pin_out. cbn [fmap list_fmap].
  rewrite !startup_testbit by (done || by apply pin_port_is_port).
  split_and!; reflexivity.
Qed.

(** after start-up the motor is stopped, the LEDs are off, and both water
    valves are driven high, whatever the registers held before: [up_valve]
    configures the two outputs with an initial high level and, unlike
    [up_motor], writes no level afterwards. *)
Theorem startup_outputs (h : hw) :
  let h' := fst (nsh_archinitialize h) in
  pin_out MOTOR_PWM h' = false ∧ pin_out MOTOR_DIR h' = true ∧
  (λ p, pin_out p h') <$> [LED_FOOD; LED_WATER; LED_PERIOD; LED_TIME] =
    [true; true; true; true] ∧
  pin_out VALVE_ENTER h' = true ∧ pin_out VALVE_EXIT h' = true ∧
  snd (nsh_archinitialize h) =
    [("/dev/leds", 0x124); ("/dev/display", 0x1b6); ("/dev/buttons", 0x124);
     ("/dev/valve", 0x124); ("/dev/motor", 0x124)]%string.
Proof. apply startup_levels. Qed.

End Drivers.

Lemma display_write_shows_witness :
  ∃ h', display_write (hw := F1.regs) (Some [42]) 1 (F1.mkregs ∅ ∅) = Ok (1, h') ∧
        shows 42 h'.
Proof.
  destruct (display_write_shows (hw := F1.regs) 42 [] 1 (F1.mkregs ∅ ∅))
    as (h' & E & _ & S); [lia|lia|].
  exists h'. split; [exact E|]. apply S. lia.
Defined.

Lemma actuator_writes_witness :
  ∃ h', motor_write (hw := F1.regs) (Some [1]) 1 (F1.mkregs ∅ ∅) = Ok (1, h') ∧
        pin_out MOTOR_PWM h' = true.
Proof.
  destruct (actuator_writes (hw := F1.regs) 1 [] 1 (F1.mkregs ∅ ∅))
    as (_ & (h' & E & P) & _); [lia|lia|].
  exists h'. split; [exact E|]. injection P. intros _ _ Hm. intros. exact Hm.
Defined.

Lemma button_read_bits_witness :
  ∃ v, button_read (hw := F1.regs) (Some [0]) 1
         (F1.mkregs ∅ (<[0 := 0xfff7]> (<[1 := 0xffff]> (<[4 := 0xffff]> ∅)))) =
         Ok (1, Some [v]) ∧ Z.testbit v 3 = true.
Proof.
  destruct (button_read_bits (hw := F1.regs) 0 [] 1
    (F1.mkregs ∅ (<[0 := 0xfff7]> (<[1 := 0xffff]> (<[4 := 0xffff]> ∅)))))
    as (v & E & _ & B); [lia|].
  exists v. split; [exact E|]. rewrite B by lia. vm_compute. reflexivity.
Defined.

Lemma leds_read_high_bits_witness :
  leds_read (hw := F1.regs) (Some [0]) 1 (F1.mkregs ∅ ∅) = Ok (1, Some [15]).
Proof.
  rewrite (leds_read_high_bits (hw := F1.regs) 0 [] 1 (F1.mkregs ∅ ∅)) by lia.
  vm_compute. reflexivity.
Defined.

Lemma startup_outputs_witness :
  pin_out VALVE_ENTER (fst (nsh_archinitialize (F1.mkregs ∅ ∅))) = true.
Proof.
  destruct (startup_outputs (hw := F1.regs) (F1.mkregs ∅ ∅)) as (_ & _ & _ & E & _).
  exact E.
Defined.

End Board.
