(* ===== verification/Dogfeed.v ===== *)
(** * The dog feeder application

    Models [apps/examples/dogfeed/dogfeed.c]: the settings shared with the
    server task, the accessors both tasks call, and the main loop, split at
    its [usleep(1)] into the handling of a button ([handle_key]) and the timing
    that follows ([tick]).  Both tasks run the accessors on the same globals
    without a lock; [step] is the interleaving of the two tasks, in which one
    accessor call of the server, one [handle_key] or one [tick] is a step (the
    main task has the higher priority and gives up the processor in [usleep]).

    A [write] of one byte to a device is an event [(device, byte)], newest
    first; [Feeder] replays the events on the drivers of [Board].  Console
    output and the delay loop have no effect on the state and are left out.
    Integer operations that C leaves undefined (a zero divisor, signed
    overflow) are results of their own. *)

From S2P Require Import Prelude.

Module Dogfeed.

(** ** State *)

Definition PERCENT_FOOD : Z := 1.
Definition PERIOD_FOOD : Z := 2.
Definition PERIOD_WATER : Z := 4.
Definition CONFIRM_MODE : Z := 8.
Definition KEY_UP : Z := 16.
Definition KEY_DOWN : Z := 32.
Definition TRUE : Z := 1.
Definition FALSE : Z := 0.

Inductive dev : Type := Led | Display | Valve | Motor.

#[export] Instance dev_eq_dec : EqDecision dev.
Proof. solve_decision. Defined.

(** The file-scope variables of [dogfeed.c], the three flags of
    [dogfeed_main] that outlive an iteration of its loop, and the bytes
    written to the devices. *)
Record feeder : Type := mk {
  period_food : Z;
  period_water : Z;
  percent_food : Z;
  running : Z;
  mode : Z;
  count : Z;
  miliseconds : Z;
  seconds : Z;
  minutes : Z;
  motor_enabled : Z;
  valve_enter_enabled : Z;
  blink : Z;
  out : list (dev * Z)
}.

Definition upd_period_food (v : Z) (s : feeder) : feeder :=
  mk v (period_water s) (percent_food s) (running s) (mode s) (count s) (miliseconds s)
    (seconds s) (minutes s) (motor_enabled s) (valve_enter_enabled s) (blink s) (out s).
Definition upd_period_water (v : Z) (s : feeder) : feeder :=
  mk (period_food s) v (percent_food s) (running s) (mode s) (count s) (miliseconds s)
    (seconds s) (minutes s) (motor_enabled s) (valve_enter_enabled s) (blink s) (out s).
Definition upd_percent_food (v : Z) (s : feeder) : feeder :=
  mk (period_food s) (period_water s) v (running s) (mode s) (count s) (miliseconds s)
    (seconds s) (minutes s) (motor_enabled s) (valve_enter_enabled s) (blink s) (out s).
Definition upd_running (v : Z) (s : feeder) : feeder :=
  mk (period_food s) (period_water s) (percent_food s) v (mode s) (count s) (miliseconds s)
    (seconds s) (minutes s) (motor_enabled s) (valve_enter_enabled s) (blink s) (out s).
Definition upd_mode (v : Z) (s : feeder) : feeder :=
  mk (period_food s) (period_water s) (percent_food s) (running s) v (count s) (miliseconds s)
    (seconds s) (minutes s) (motor_enabled s) (valve_enter_enabled s) (blink s) (out s).
Definition upd_count (v : Z) (s : feeder) : feeder :=
  mk (period_food s) (period_water s) (percent_food s) (running s) (mode s) v (miliseconds s)
    (seconds s) (minutes s) (motor_enabled s) (valve_enter_enabled s) (blink s) (out s).
Definition upd_miliseconds (v : Z) (s : feeder) : feeder :=
  mk (period_food s) (period_water s) (percent_food s) (running s) (mode s) (count s) v
    (seconds s) (minutes s) (motor_enabled s) (valve_enter_enabled s) (blink s) (out s).
Definition upd_seconds (v : Z) (s : feeder) : feeder :=
  mk (period_food s) (period_water s) (percent_food s) (running s) (mode s) (count s)
    (miliseconds s) v (minutes s) (motor_enabled s) (valve_enter_enabled s) (blink s) (out s).
Definition upd_minutes (v : Z) (s : feeder) : feeder :=
  mk (period_food s) (period_water s) (percent_food s) (running s) (mode s) (count s)
    (miliseconds s) (seconds s) v (motor_enabled s) (valve_enter_enabled s) (blink s) (out s).
Definition upd_motor (v : Z) (s : feeder) : feeder :=
  mk (period_food s) (period_water s) (percent_food s) (running s) (mode s) (count s)
    (miliseconds s) (seconds s) (minutes s) v (valve_enter_enabled s) (blink s) (out s).
Definition upd_valve (v : Z) (s : feeder) : feeder :=
  mk (period_food s) (period_water s) (percent_food s) (running s) (mode s) (count s)
    (miliseconds s) (seconds s) (minutes s) (motor_enabled s) v (blink s) (out s).
Definition upd_blink (v : Z) (s : feeder) : feeder :=
  mk (period_food s) (period_water s) (percent_food s) (running s) (mode s) (count s)
    (miliseconds s) (seconds s) (minutes s) (motor_enabled s) (valve_enter_enabled s) v (out s).
Definition emit (d : dev) (b : Z) (s : feeder) : feeder :=
  mk (period_food s) (period_water s) (percent_food s) (running s) (mode s) (count s)
    (miliseconds s) (seconds s) (minutes s) (motor_enabled s) (valve_enter_enabled s) (blink s)
    ((d, b) :: out s).

(** The initial values of the variables. *)
Definition initial : feeder := mk 10 21 50 TRUE 0 0 0 0 0 FALSE FALSE 0 [].

(** ** Accessors *)

#[local] Open Scope cmd_scope.

Definition write_dev (d : dev) (b : Z) : M feeder unit := modify (emit d (u8 b)).

Definition write_led (mled : Z) : M feeder unit :=
  when ((mled =? 0) || (mled =? PERCENT_FOOD) || (mled =? PERIOD_FOOD) ||
        (mled =? PERIOD_WATER) || (mled =? CONFIRM_MODE))
    (write_dev Led mled).

Definition write_display (mdisp : Z) : M feeder unit := write_dev Display (u8 mdisp).

Definition set_period_food (pfood : Z) : M feeder unit :=
  when (pfood <=? 24)
    (modify (upd_period_food pfood) ;;; v <-- gets period_food ;; write_display v).

Definition get_period_food : M feeder Z := gets period_food.

Definition set_period_water (pwater : Z) : M feeder unit :=
  when (pwater <=? 24)
    (modify (upd_period_water pwater) ;;; v <-- gets period_water ;; write_display v).

Definition get_period_water : M feeder Z := gets period_water.

Definition set_percent_food (pfood : Z) : M feeder unit :=
  when (pfood <? 100)
    (modify (upd_percent_food pfood) ;;; v <-- gets percent_food ;; write_display v).

Definition get_percent_food : M feeder Z := gets percent_food.

Definition set_mode (mod_ : Z) : M feeder unit :=
  when ((mod_ =? PERCENT_FOOD) || (mod_ =? PERIOD_FOOD) || (mod_ =? PERIOD_WATER) ||
        (mod_ =? CONFIRM_MODE))
    (modify (upd_mode mod_)) ;;;
  write_led mod_.

Definition get_mode : M feeder Z := gets mode.

Definition set_running (status : Z) : M feeder unit :=
  when ((status =? TRUE) || (status =? FALSE)) (modify (upd_running status)).

(** [increase_value] and [decrease_value]: 0, or -1 when nothing changed. *)
Definition increase_value : M feeder Z :=
  s <-- gets id ;;
  if negb (running s =? 0) then ret (-1)
  else if (mode s =? PERCENT_FOOD) && (percent_food s <? 99) then
    modify (upd_percent_food (u8 (percent_food s + 1))) ;;;
    v <-- gets percent_food ;; write_display v ;;; ret 0
  else if (mode s =? PERIOD_FOOD) && (period_food s <? 24) then
    modify (upd_period_food (u8 (period_food s + 1))) ;;;
    v <-- gets period_food ;; write_display v ;;; ret 0
  else if (mode s =? PERIOD_WATER) && (period_water s <? 24) then
    modify (upd_period_water (u8 (period_water s + 1))) ;;;
    v <-- gets period_water ;; write_display v ;;; ret 0
  else ret (-1).

Definition decrease_value : M feeder Z :=
  s <-- gets id ;;
  if negb (running s =? 0) then ret (-1)
  else if (mode s =? PERCENT_FOOD) && (0 <? percent_food s) then
    modify (upd_percent_food (u8 (percent_food s - 1))) ;;;
    v <-- gets percent_food ;; write_display v ;;; ret 0
  else if (mode s =? PERIOD_FOOD) && (0 <? period_food s) then
    modify (upd_period_food (u8 (period_food s - 1))) ;;;
    v <-- gets period_food ;; write_display v ;;; ret 0
  else if (mode s =? PERIOD_WATER) && (0 <? period_water s) then
    modify (upd_period_water (u8 (period_water s - 1))) ;;;
    v <-- gets period_water ;; write_display v ;;; ret 0
  else ret (-1).

Definition set_confirm_mode : M feeder unit :=
  r <-- gets running ;;
  if negb (r =? 0) then ret tt
  else
    modify (upd_miliseconds 0) ;;;
    modify (upd_seconds 0) ;;;
    modify (upd_minutes 0) ;;;
    modify (upd_count 0) ;;;
    c <-- gets count ;; write_display c ;;;
    m <-- gets mode ;; write_led m ;;;
    set_running TRUE.

(** ** The main loop *)

(** The [if (btkey)] block: [btkey] is the byte [read_button] returned. *)
Definition select_key (btkey : Z) : M feeder unit :=
  when (btkey =? PERCENT_FOOD)
    (set_mode PERCENT_FOOD ;;; v <-- get_percent_food ;;
     modify (upd_count v) ;;; modify (upd_running FALSE)) ;;;
  when (btkey =? PERIOD_FOOD)
    (set_mode PERIOD_FOOD ;;; v <-- get_period_food ;;
     modify (upd_count v) ;;; modify (upd_running FALSE)) ;;;
  when (btkey =? PERIOD_WATER)
    (set_mode PERIOD_WATER ;;; v <-- get_period_water ;;
     modify (upd_count v) ;;; modify (upd_running FALSE)) ;;;
  when (btkey =? CONFIRM_MODE)
    (set_mode CONFIRM_MODE ;;; modify (upd_running FALSE)) ;;;
  when (btkey =? KEY_UP)
    (r <-- gets running ;; c <-- gets count ;;
     when (r =? 0) (c <-- incr_int c ;; modify (upd_count c))) ;;;
  when (btkey =? KEY_DOWN)
    (r <-- gets running ;; c <-- gets count ;;
     when (r =? 0) (c <-- decr_int c ;; modify (upd_count c))).

Definition apply_count : M feeder unit :=
  r <-- gets running ;;
  when (r =? 0)
    (lmode <-- get_mode ;;
     let max_count := if lmode =? PERCENT_FOOD then 99 else 24 in
     c <-- gets count ;;
     when (c <? 0) (modify (upd_count 0)) ;;;
     c <-- gets count ;;
     when (max_count <? c) (modify (upd_count max_count)) ;;;
     c <-- gets count ;;
     when (lmode =? PERCENT_FOOD) (set_percent_food (u8 c)) ;;;
     when (lmode =? PERIOD_FOOD) (set_period_food (u8 c)) ;;;
     when (lmode =? PERIOD_WATER) (set_period_water (u8 c)) ;;;
     when (lmode =? CONFIRM_MODE) set_confirm_mode).

Definition handle_key (btkey : Z) : M feeder unit :=
  when (negb (btkey =? 0)) (select_key btkey ;;; apply_count).

(** The rest of the iteration, after [usleep(1)]. *)
Definition tick_second : M feeder unit :=
  r <-- gets running ;;
  when (negb (r =? 0))
    (ms <-- gets miliseconds ;; ms <-- incr_int ms ;; modify (upd_miliseconds ms)) ;;;
  ms <-- gets miliseconds ;;
  when (50 <=? ms)
    (sec <-- gets seconds ;; sec <-- incr_int sec ;;
     modify (upd_seconds sec) ;;; modify (upd_miliseconds 0) ;;;
     b <-- gets blink ;; write_led b ;;;
     modify (upd_blink (if b =? 0 then 8 else 0))).

Definition tick_minute : M feeder unit :=
  sec <-- gets seconds ;;
  when (60 <=? sec)
    (min <-- gets minutes ;; min <-- incr_int min ;;
     modify (upd_minutes min) ;;; modify (upd_seconds 0) ;;;
     write_display (u8 min) ;;;
     pw <-- gets period_water ;; rw <-- rem_int min pw ;;
     when (rw =? 0) (modify (upd_valve TRUE)) ;;;
     pf <-- gets period_food ;; rf <-- rem_int min pf ;;
     when (rf =? 0) (modify (upd_motor TRUE))).

Definition tick_actuators : M feeder unit :=
  v <-- gets valve_enter_enabled ;;
  when (negb (v =? 0))
    (p <-- gets percent_food ;; sec <-- gets seconds ;;
     when (p <? sec) (modify (upd_valve FALSE)) ;;;
     v <-- gets valve_enter_enabled ;; write_dev Valve v) ;;;
  m <-- gets motor_enabled ;;
  when (negb (m =? 0))
    (p <-- gets percent_food ;; sec <-- gets seconds ;;
     when (p <? sec * 2) (modify (upd_motor FALSE)) ;;;
     m <-- gets motor_enabled ;; write_dev Motor m).

Definition tick : M feeder unit := tick_second ;;; tick_minute ;;; tick_actuators.

(** One iteration of the loop, and the loop fed with a finite sequence of
    button readings. *)
Definition main_iteration (btkey : Z) : M feeder unit := handle_key btkey ;;; tick.

Fixpoint main_loop (keys : list Z) : M feeder unit :=
  match keys with
  | [] => ret tt
  | k :: keys => main_iteration k ;;; main_loop keys
  end.

(** What [dogfeed_main] writes before the loop. *)
Definition startup : M feeder unit :=
  m <-- gets mode ;; write_led m ;;; c <-- gets count ;; write_display c.

(** ** The invariant *)

(** The settings are within the given limits, everything else is in its range. *)
Definition wf_upto (mf mw mp : Z) (s : feeder) : Prop :=
  0 ≤ period_food s ≤ mf ∧ 0 ≤ period_water s ≤ mw ∧ 0 ≤ percent_food s ≤ mp ∧
  0 ≤ running s ≤ 1 ∧
  (mode s = 0 ∨ mode s = 1 ∨ mode s = 2 ∨ mode s = 4 ∨ mode s = 8) ∧
  0 ≤ count s ≤ 99 ∧ 0 ≤ miliseconds s < 50 ∧ 0 ≤ seconds s < 60 ∧ 0 ≤ minutes s < 2 ^ 31 ∧
  0 ≤ motor_enabled s ≤ 1 ∧ 0 ≤ valve_enter_enabled s ≤ 1 ∧
  (blink s = 0 ∨ blink s = 8).

(** The limits the accessors mean to keep. *)
Definition wf : feeder → Prop := wf_upto 24 24 99.

(** Limits that the accessors keep: at least the intended ones, at most those
    of [uint8_t]. *)
Class Limits (mf mw mp : Z) : Prop :=
  limits : 24 ≤ mf ≤ 255 ∧ 24 ≤ mw ≤ 255 ∧ 99 ≤ mp ≤ 255.

#[export] Instance limits_wf : Limits 24 24 99.
Proof. unfold Limits. lia. Qed.

#[export] Instance limits_uint8 : Limits 255 255 255.
Proof. unfold Limits. lia. Qed.

Ltac unfold_ops :=
  unfold set_period_food, set_period_water, set_percent_food, set_mode, set_running,
    get_period_food, get_period_water, get_percent_food, get_mode, write_display,
    write_led, write_dev in *.

(** [op] is defined on every state within the limits and keeps them. *)
Definition keeps_upto (mf mw mp : Z) {A} (op : M feeder A) : Prop :=
  ∀ s, wf_upto mf mw mp s → wp op (λ _, wf_upto mf mw mp) s.

Definition keeps_wf {A} (op : M feeder A) : Prop := keeps_upto 24 24 99 op.

Ltac fin := split_and?; first [assumption | reflexivity | lia | split_ifs; lia].

Ltac solve_wf :=
  unfold_ops; wp_run; unfold wf, wf_upto in *; simpl in *; destruct_and?;
  repeat match goal with
  | |- context [u8 ?z] => rewrite (u8_small z) by lia
  end;
  unfold PERCENT_FOOD, PERIOD_FOOD, PERIOD_WATER, CONFIRM_MODE, TRUE, FALSE in *;
  fin.

Section Limits.
Context {mf mw mp : Z} `{!Limits mf mw mp}.

#[local] Abbreviation within := (wf_upto mf mw mp).
#[local] Abbreviation keeps := (keeps_upto mf mw mp).

Lemma set_period_food_wf v : 0 ≤ v → keeps (set_period_food v).
Proof. intros ? s Hs. pose proof limits as (? & ? & ?). solve_wf. Qed.

Lemma set_period_water_wf v : 0 ≤ v → keeps (set_period_water v).
Proof. intros ? s Hs. pose proof limits as (? & ? & ?). solve_wf. Qed.

Lemma set_percent_food_wf v : 0 ≤ v → keeps (set_percent_food v).
Proof. intros ? s Hs. pose proof limits as (? & ? & ?). solve_wf. Qed.

Lemma write_led_wf v : keeps (write_led v).
Proof. intros s Hs. pose proof limits as (? & ? & ?). solve_wf. Qed.

Lemma set_mode_wf v : keeps (set_mode v).
Proof. intros s Hs. pose proof limits as (? & ? & ?). solve_wf. Qed.

Lemma set_running_wf v : keeps (set_running v).
Proof. intros s Hs. pose proof limits as (? & ? & ?). solve_wf. Qed.

Lemma increase_value_wf : keeps increase_value.
Proof. intros s Hs. unfold increase_value. pose proof limits as (? & ? & ?). solve_wf. Qed.

Lemma decrease_value_wf : keeps decrease_value.
Proof. intros s Hs. unfold decrease_value. pose proof limits as (? & ? & ?). solve_wf. Qed.

Lemma set_confirm_mode_wf : keeps set_confirm_mode.
Proof. intros s Hs. unfold set_confirm_mode. pose proof limits as (? & ? & ?). solve_wf. Qed.

(** Between the two halves of [handle_key] the counter may be out of range. *)
Definition wf_selected (s : feeder) : Prop :=
  within (upd_count 0 s) ∧ -1 ≤ count s ≤ 255 ∧ (running s ≠ 0 → 0 ≤ count s ≤ 99).

Lemma select_setting_wf m (get : M feeder Z) s :
  (∀ s, within s → ∃ v, get s = Ok (v, s) ∧ 0 ≤ v ≤ 255) → within s →
  wp (set_mode m ;;; v <-- get ;; modify (upd_count v) ;;; modify (upd_running FALSE))
    (λ _, wf_selected) s.
Proof.
  intros Hget Hs. eapply wp_seq; [by apply set_mode_wf|]. intros _ s' Hs'.
  destruct (Hget s' Hs') as (v & Ev & Hv). rewrite wp_bind. eapply wp_ok; [exact Ev|].
  wp_run. unfold wf_selected, wf_upto, FALSE in *. simpl. destruct_and!. fin.
Qed.

(** The keys are different bytes: at most one branch of [select_key] runs. *)
Lemma select_key_cases k :
  k = PERCENT_FOOD ∨ k = PERIOD_FOOD ∨ k = PERIOD_WATER ∨ k = CONFIRM_MODE ∨
  k = KEY_UP ∨ k = KEY_DOWN ∨ select_key k = select_key 0.
Proof.
  unfold select_key.
  repeat match goal with
  | |- context [k =? ?x] => destruct (Z.eqb_spec k x); [tauto|]
  end. by do 6 right.
Qed.

Lemma select_key_wf k s : within s → wp (select_key k) (λ _, wf_selected) s.
Proof.
  intros Hs. assert (wf_selected s) as H0.
  { unfold wf_selected, wf_upto in *. simpl. destruct_and!. fin. }
  pose proof limits as (L1 & L2 & L3). pose proof Hs as Hs'. unfold wf_upto in Hs'. destruct_and! Hs'.
  destruct (select_key_cases k) as [-> | [-> | [-> | [-> | [-> | [-> | ->]]]]]];
    unfold select_key; simpl.
  1-3: repeat rewrite wp_bind, wp_ret; rewrite wp_bind; eapply wp_mono; [apply select_setting_wf; [|exact Hs]|].
  1, 3, 5: (intros s1 G1; eexists; split; [reflexivity|unfold wf_upto in G1; lia]).
  1-3: intros [] s1 G1; wp_run; exact G1.
  all: unfold_ops; wp_run; try done; unfold wf_selected, wf_upto in *; simpl in *;
    unfold CONFIRM_MODE, FALSE in *; destruct_and!; fin.
Qed.

Lemma when_wf (b : bool) (m : M feeder unit) : keeps m → keeps (when b m).
Proof. intros Hm s Hs. apply (proj2 (wp_when _ _ _ _)). destruct b; [by apply Hm|done]. Qed.

Lemma u8_nonneg z : 0 ≤ u8 z.
Proof. apply u8_bound. Qed.

#[local] Hint Resolve set_period_food_wf set_period_water_wf set_percent_food_wf write_led_wf
  set_mode_wf set_running_wf increase_value_wf decrease_value_wf set_confirm_mode_wf when_wf
  u8_nonneg : nx.

Lemma apply_count_wf s : wf_selected s → wp apply_count (λ _, within) s.
Proof.
  intros (Hs & Hc & Hr). pose proof limits as (L1 & L2 & L3). unfold apply_count. rewrite wp_bind, wp_gets. apply (proj2 (wp_when _ _ _ _)).
  destruct (Z.eqb_spec (running s) 0) as [E|E]; [|unfold wf_upto in *; simpl in *; destruct_and!; fin].
  unfold get_mode. rewrite wp_bind, wp_gets. cbv zeta.
  set (mx := if mode s =? PERCENT_FOOD then 99 else 24).
  assert (24 ≤ mx ≤ 99) as Hmx by (subst mx; case_match; lia). clearbody mx.
  rewrite wp_bind, wp_gets. eapply (wp_seq (λ s, within (upd_count 0 s) ∧ 0 ≤ count s ≤ 255)).
  { wp_run; (split; [exact Hs|simpl; lia]). }
  clear Hs Hc Hr E. intros _ s' [Hs Hc]. rewrite wp_bind, wp_gets.
  eapply (wp_seq within).
  { wp_run; unfold wf_upto in *; simpl in *; destruct_and!; fin. }
  clear Hs Hc. intros _ s'' Hs. rewrite wp_bind, wp_gets.
  repeat (eapply (wp_seq within); [apply when_wf; eauto with nx|clear Hs; intros _ ? Hs]).
  apply when_wf; eauto with nx.
Qed.

Lemma handle_key_wf k : keeps (handle_key k).
Proof.
  apply when_wf. intros s Hs. eapply wp_seq; [by apply select_key_wf|].
  intros _ s'. apply apply_count_wf.
Qed.

End Limits.

#[export] Hint Resolve set_period_food_wf set_period_water_wf set_percent_food_wf write_led_wf
  set_mode_wf set_running_wf increase_value_wf decrease_value_wf set_confirm_mode_wf when_wf
  u8_nonneg : nx.

#[global] Arguments wf_selected : clear implicits.

Lemma wf_loosen s : wf s → wf_upto 255 255 255 s.
Proof. unfold wf, wf_upto. intros Hs. destruct_and! Hs. split_and!; first [assumption | lia]. Qed.

Lemma initial_wf : wf initial.
Proof. unfold wf, wf_upto, initial. simpl. unfold TRUE, FALSE. fin. Qed.

End Dogfeed.
