(* ===== verification/Schedule.v ===== *)
(** * Timing of the dog feeder

    What the [tick] part of the main loop of [dogfeed.c] does with time: the
    effect of one iteration, the schedule of the motor and of the valve over an
    undisturbed run of any length, and the iterations whose arithmetic C leaves
    undefined. *)

From S2P Require Import Prelude Dogfeed.

Module Schedule.
Import Dogfeed.
#[local] Open Scope cmd_scope.

(** ** Time *)

(** Iterations counted since the last confirmation. *)
Definition elapsed (s : feeder) : Z := (minutes s * 60 + seconds s) * 50 + miliseconds s.

Definition same_settings (s s' : feeder) : Prop :=
  period_food s' = period_food s ∧ period_water s' = period_water s ∧
  percent_food s' = percent_food s ∧ running s' = running s ∧ mode s' = mode s ∧
  count s' = count s.

(** What one [tick] does to an actuator that is switched on every [period]
    minutes and off after [limit] has been passed by [passed]. *)
Definition actuator (s' : feeder) (period limit passed was : Z) : Z :=
  if (miliseconds s' =? 0) && (seconds s' =? 0) && (minutes s' mod period =? 0) then 1
  else if limit <? passed then 0 else was.

Lemma rem_nonneg_mod x y : 0 ≤ x → 0 < y → Z.rem x y = x mod y.
Proof. intros. by rewrite Z.rem_mod_nonneg. Qed.

(** The three parts of [tick], each described by what it changes. *)
Definition same_flags (s s' : feeder) : Prop :=
  motor_enabled s' = motor_enabled s ∧ valve_enter_enabled s' = valve_enter_enabled s.

Definition blink_ok (s : feeder) : Prop := blink s = 0 ∨ blink s = 8.

Definition after_second (s s' : feeder) : Prop :=
  same_settings s s' ∧ same_flags s s' ∧ blink_ok s' ∧ minutes s' = minutes s ∧
  ((miliseconds s + running s < 50 ∧ miliseconds s' = miliseconds s + running s ∧
    seconds s' = seconds s) ∨
   (50 ≤ miliseconds s + running s ∧ miliseconds s' = 0 ∧ seconds s' = seconds s + 1)).

Definition after_minute (s s' : feeder) : Prop :=
  same_settings s s' ∧ blink_ok s' ∧ miliseconds s' = miliseconds s ∧
  ((seconds s < 60 ∧ seconds s' = seconds s ∧ minutes s' = minutes s ∧ same_flags s s') ∨
   (60 ≤ seconds s ∧ seconds s' = 0 ∧ minutes s' = minutes s + 1 ∧
    motor_enabled s' = (if minutes s' mod period_food s =? 0 then 1 else motor_enabled s) ∧
    valve_enter_enabled s' =
      (if minutes s' mod period_water s =? 0 then 1 else valve_enter_enabled s))).

Definition after_actuators (s s' : feeder) : Prop :=
  same_settings s s' ∧ blink_ok s' ∧ miliseconds s' = miliseconds s ∧
  seconds s' = seconds s ∧ minutes s' = minutes s ∧
  motor_enabled s' =
    (if (percent_food s <? seconds s * 2) then 0 else motor_enabled s) ∧
  valve_enter_enabled s' =
    (if (percent_food s <? seconds s) then 0 else valve_enter_enabled s).

Lemma tick_second_spec {mf mw mp} s : wf_upto mf mw mp s → wp tick_second (λ _, after_second s) s.
Proof.
  intros Hs. unfold wf, wf_upto in Hs. destruct_and! Hs. unfold tick_second. unfold_ops.
  wp_run; simpl in *; unfold after_second, same_settings, same_flags, blink_ok; simpl;
    fin.
Qed.

Lemma tick_minute_spec s :
  blink_ok s → 0 ≤ minutes s → 0 ≤ period_food s → 0 ≤ period_water s →
  (60 ≤ seconds s → minutes s < 2 ^ 31 - 1 ∧ period_food s ≠ 0 ∧ period_water s ≠ 0) →
  wp tick_minute (λ _, after_minute s) s.
Proof.
  intros Hb Hm Hpf Hpw Hd. unfold tick_minute. rewrite wp_bind, wp_gets. apply (proj2 (wp_when _ _ _ _)).
  destruct (Z.leb_spec 60 (seconds s)) as [H60|H60].
  2: { unfold after_minute, same_settings, same_flags. fin. }
  destruct (Hd H60) as (Hmax & Hf & Hw). unfold_ops.
  repeat first [rewrite wp_bind | rewrite wp_gets | rewrite wp_modify |
    rewrite wp_incr by (simpl; lia) | rewrite wp_rem by (simpl; lia)].
  rewrite wp_when. simpl. rewrite !rem_nonneg_mod by lia.
  destruct (Z.eqb_spec ((minutes s + 1) mod period_water s) 0) as [Ew|Ew];
    repeat first [rewrite wp_bind | rewrite wp_gets | rewrite wp_modify |
      rewrite wp_rem by (simpl; lia)];
    rewrite wp_when; simpl; rewrite !rem_nonneg_mod by lia;
    destruct (Z.eqb_spec ((minutes s + 1) mod period_food s) 0) as [Ef|Ef];
    rewrite ?wp_modify; unfold after_minute, same_settings, blink_ok; simpl;
    rewrite ?(proj2 (Z.eqb_eq _ _) Ew), ?(proj2 (Z.eqb_eq _ _) Ef),
      ?(proj2 (Z.eqb_neq _ _) Ew), ?(proj2 (Z.eqb_neq _ _) Ef);
    split_and!; try done; right; split_and!; done.
Qed.

(** The two actuators, with the flag written back to the device. *)
Lemma tick_valve_spec s :
  wp (v <-- gets valve_enter_enabled ;;
      when (negb (v =? 0))
        (p <-- gets percent_food ;; sec <-- gets seconds ;;
         when (p <? sec) (modify (upd_valve FALSE)) ;;;
         v <-- gets valve_enter_enabled ;; write_dev Valve v))
    (λ _ s', same_settings s s' ∧ blink s' = blink s ∧ miliseconds s' = miliseconds s ∧
      seconds s' = seconds s ∧ minutes s' = minutes s ∧ motor_enabled s' = motor_enabled s ∧
      valve_enter_enabled s' =
        (if percent_food s <? seconds s then 0 else valve_enter_enabled s)) s.
Proof.
  unfold_ops. wp_run; simpl in *; split_and!; try done; split_ifs; unfold FALSE; lia.
Qed.

Lemma tick_motor_spec s :
  wp (m <-- gets motor_enabled ;;
      when (negb (m =? 0))
        (p <-- gets percent_food ;; sec <-- gets seconds ;;
         when (p <? sec * 2) (modify (upd_motor FALSE)) ;;;
         m <-- gets motor_enabled ;; write_dev Motor m))
    (λ _ s', same_settings s s' ∧ blink s' = blink s ∧ miliseconds s' = miliseconds s ∧
      seconds s' = seconds s ∧ minutes s' = minutes s ∧
      valve_enter_enabled s' = valve_enter_enabled s ∧
      motor_enabled s' =
        (if percent_food s <? seconds s * 2 then 0 else motor_enabled s)) s.
Proof.
  unfold_ops. wp_run; simpl in *; split_and!; try done; split_ifs; unfold FALSE; lia.
Qed.

Lemma tick_actuators_spec s : blink_ok s → wp tick_actuators (λ _, after_actuators s) s.
Proof.
  intros Hb. unfold tick_actuators.
  pose proof (tick_valve_spec s) as Hv. rewrite wp_bind, wp_gets in Hv.
  rewrite wp_bind, wp_gets, wp_bind. eapply wp_mono; [exact Hv|]. clear Hv.
  intros [] s1 Hv. eapply wp_mono; [apply tick_motor_spec|]. intros [] s2 Hm.
  cbv beta in *. unfold after_actuators, same_settings, blink_ok in *. destruct_and!.
  split_and!; first [congruence | destruct Hb; [left|right]; congruence | rew_eqs; done].
Qed.

Lemma tick_running s :
  wf s → running s = 1 → 1 ≤ period_food s → 1 ≤ period_water s → minutes s < 2 ^ 31 - 1 →
  wp tick (λ _ s', wf s' ∧ same_settings s s' ∧ elapsed s' = elapsed s + 1 ∧
    motor_enabled s' =
      actuator s' (period_food s) (percent_food s) (seconds s' * 2) (motor_enabled s) ∧
    valve_enter_enabled s' =
      actuator s' (period_water s) (percent_food s) (seconds s') (valve_enter_enabled s)) s.
Proof.
  intros Hs Hrun Hpf Hpw Hmin. pose proof Hs as Hs'. unfold wf, wf_upto in Hs'. destruct_and! Hs'.
  unfold tick. rewrite wp_bind. eapply wp_mono; [by eapply tick_second_spec|].
  intros [] s1 (Set1 & Fl1 & B1 & M1 & C1). rewrite wp_bind.
  unfold same_settings, same_flags in Set1, Fl1. destruct_and!.
  eapply wp_mono; [apply tick_minute_spec; congruence || lia|].
  intros [] s2 (Set2 & B2 & Ms2 & C2). eapply wp_mono; [by apply tick_actuators_spec|].
  intros [] s3 (Set3 & B3 & Ms3 & S3 & M3 & Mo3 & V3).
  unfold same_settings, same_flags in *. destruct_and!.
  destruct C1 as [(? & ? & ?)|(? & ? & ?)], C2 as [(? & ? & ? & ? & ?)|(? & ? & ? & Mo2 & V2)].
  all: try lia.
  all: unfold wf, wf_upto, same_settings, elapsed, actuator, blink_ok in *; split_and!.
  all: try congruence.
  all: try lia.
  all: rew_eqs; clear Hs.
  all: split_ifs.
  all: lia.
Qed.

(** ** The schedule

    An actuator with a period of [period] minutes is on from each multiple of
    the period for [secs] seconds; a minute is 3000 iterations. *)

Definition due (period secs t : Z) : bool :=
  (3000 * period <=? t) && (t mod (3000 * period) <? 50 * secs).

(** Quotient and remainder of a tick count by the period. *)
Lemma schedule_split period m sec ms :
  1 ≤ period → 0 ≤ m → 0 ≤ sec < 60 → 0 ≤ ms < 50 →
  let t := (m * 60 + sec) * 50 + ms in
  t / (3000 * period) = m / period ∧
  t mod (3000 * period) = m mod period * 3000 + (sec * 50 + ms).
Proof.
  intros Hp Hm Hs Hms t.
  pose proof (Z.div_mod m period ltac:(lia)) as E.
  pose proof (Z.mod_pos_bound m period ltac:(lia)) as B.
  assert (t = 3000 * period * (m / period) + (m mod period * 3000 + (sec * 50 + ms))) as Et.
  { unfold t. rewrite E at 1. ring. }
  assert (0 ≤ m mod period * 3000 + (sec * 50 + ms) < 3000 * period) by nia.
  split.
  - symmetry. eapply Z.div_unique_pos; [|exact Et]. lia.
  - symmetry. eapply Z.mod_unique_pos; [|exact Et]. lia.
Qed.

Lemma due_split period secs m sec ms :
  1 ≤ period → 0 ≤ m → 0 ≤ sec < 60 → 0 ≤ ms < 50 →
  due period secs ((m * 60 + sec) * 50 + ms) =
    (1 <=? m / period) && (m mod period * 3000 + (sec * 50 + ms) <? 50 * secs).
Proof.
  intros Hp Hm Hs Hms. unfold due.
  destruct (schedule_split period m sec ms) as [Eq Er]; [done..|]. rewrite Er, <-Eq. f_equal.
  set (t := (m * 60 + sec) * 50 + ms).
  pose proof (Z.div_mod t (3000 * period) ltac:(lia)).
  pose proof (Z.mod_pos_bound t (3000 * period) ltac:(lia)).
  apply eq_true_iff_eq. rewrite !Z.leb_le. nia.
Qed.

Lemma due_pred period secs m sec ms :
  1 ≤ period → 0 ≤ m → 0 ≤ sec < 60 → 0 ≤ ms < 50 →
  1 ≤ m mod period * 3000 + (sec * 50 + ms) →
  due period secs ((m * 60 + sec) * 50 + ms - 1) =
    (1 <=? m / period) && (m mod period * 3000 + (sec * 50 + ms) - 1 <? 50 * secs).
Proof.
  intros Hp Hm Hs Hms Hr. unfold due.
  destruct (schedule_split period m sec ms) as [Eq Er]; [done..|].
  set (t := (m * 60 + sec) * 50 + ms) in *. set (P := 3000 * period) in *.
  pose proof (Z.div_mod t P ltac:(lia)) as Et. pose proof (Z.mod_pos_bound t P ltac:(lia)).
  assert (t - 1 = P * (t / P) + (t mod P - 1)) as Et1 by lia.
  rewrite <-(Z.mod_unique_pos (t - 1) P (t / P) (t mod P - 1)) by lia.
  rewrite Er, <-Eq. f_equal. apply eq_true_iff_eq. rewrite !Z.leb_le. nia.
Qed.

(** One step of an actuator follows the schedule. *)
Lemma actuator_due (s : feeder) period secs limit passed :
  wf s → 1 ≤ period → 1 ≤ secs ≤ 59 → 1 ≤ elapsed s →
  (limit < passed ↔ secs ≤ seconds s) →
  actuator s period limit passed (Z.b2z (due period secs (elapsed s - 1))) =
    Z.b2z (due period secs (elapsed s)).
Proof.
  intros Hs Hp Hk He Hoff. unfold wf, wf_upto in Hs. destruct_and! Hs. unfold actuator, elapsed in *.
  rewrite (due_split period secs) by lia.
  pose proof (Z.div_mod (minutes s) period ltac:(lia)).
  pose proof (Z.mod_pos_bound (minutes s) period ltac:(lia)).
  destruct ((miliseconds s =? 0) && (seconds s =? 0) && (minutes s mod period =? 0)) eqn:Et.
  - zify_bools. rewrite (proj2 (Z.leb_le 1 _)) by nia.
    rewrite (proj2 (Z.ltb_lt _ _)) by lia. done.
  - assert (1 ≤ minutes s mod period * 3000 + (seconds s * 50 + miliseconds s)) by lia.
    rewrite due_pred by lia. destruct (Z.ltb_spec limit passed) as [Hl|Hl].
    + apply Hoff in Hl. rewrite (proj2 (Z.ltb_ge _ (50 * secs))) by lia. by rewrite andb_false_r.
    + assert (seconds s < secs) by (apply Z.nle_gt; intros ?%Hoff; lia).
      do 2 f_equal. apply eq_true_iff_eq. rewrite !Z.ltb_lt. lia.
Qed.

(** With no limit to pass within a minute the actuator is never switched off. *)
Lemma actuator_stuck (s : feeder) period limit passed :
  wf s → 1 ≤ period → 1 ≤ elapsed s → passed ≤ limit →
  actuator s period limit passed (Z.b2z (3000 * period <=? elapsed s - 1)) =
    Z.b2z (3000 * period <=? elapsed s).
Proof.
  intros Hs Hp He Hoff. unfold wf, wf_upto in Hs. destruct_and! Hs. unfold actuator, elapsed in *.
  pose proof (Z.div_mod (minutes s) period ltac:(lia)).
  pose proof (Z.mod_pos_bound (minutes s) period ltac:(lia)).
  rewrite (proj2 (Z.ltb_ge limit passed)) by lia.
  destruct ((miliseconds s =? 0) && (seconds s =? 0) && (minutes s mod period =? 0)) eqn:Et.
  - zify_bools. assert (period ≤ minutes s)
      by (assert (1 ≤ minutes s / period) by nia; nia).
    by rewrite (proj2 (Z.leb_le (3000 * period) _)) by lia.
  - f_equal. apply eq_true_iff_eq. rewrite !Z.leb_le. split; [lia|]. intros Hle.
    destruct (decide (3000 * period = (minutes s * 60 + seconds s) * 50 + miliseconds s)); [|lia].
    exfalso. assert (miliseconds s = 0 ∧ seconds s = 0 ∧ minutes s = period) as (E1 & E2 & E) by lia.
    by rewrite E, E1, E2, Z_mod_same_full in Et.
Qed.

(** The flags at tick [t] of an undisturbed run that starts at time zero. *)
Definition motor_at (s : feeder) (t : Z) : Z :=
  Z.b2z (due (period_food s) (percent_food s / 2 + 1) t).
Definition valve_at (s : feeder) (t : Z) : Z :=
  Z.b2z (if percent_food s <? 59 then due (period_water s) (percent_food s + 1) t
         else 3000 * period_water s <=? t).

(** The loop while no button is pressed. *)
Definition idle (n : nat) : M feeder unit := main_loop (replicate n 0).

Lemma main_loop_snoc ks k (Q : unit → feeder → Prop) s :
  wp (main_loop (ks ++ [k])) Q s ↔ wp (main_loop ks) (λ _ s', wp (main_iteration k) Q s') s.
Proof.
  revert s. induction ks as [|k' ks IH]; intros s; simpl.
  - rewrite wp_bind, wp_ret. unfold wp at 1 3. by destruct (main_iteration k s) as [[[] ?]|].
  - rewrite !wp_bind. unfold wp at 1 3. destruct (main_iteration k' s) as [[[] ?]|]; [|done].
    apply IH.
Qed.

Lemma idle_iteration (Q : unit → feeder → Prop) s :
  wp (main_iteration 0) Q s ↔ wp tick Q s.
Proof.
  unfold main_iteration, handle_key. rewrite wp_bind. simpl. by rewrite wp_ret.
Qed.

Lemma replicate_snoc (n : nat) (k : Z) : replicate (S n) k = replicate n k ++ [k].
Proof. by rewrite <-replicate_S_end. Qed.

(** A state whose actuators are as an undisturbed run would leave them. *)
Definition on_schedule (s : feeder) : Prop :=
  motor_enabled s = motor_at s (elapsed s) ∧ valve_enter_enabled s = valve_at s (elapsed s).

Lemma tick_schedule s :
  wf s → running s = 1 → 1 ≤ period_food s → 1 ≤ period_water s → minutes s < 2 ^ 31 - 1 →
  on_schedule s →
  wp tick (λ _ s', wf s' ∧ same_settings s s' ∧ elapsed s' = elapsed s + 1 ∧ on_schedule s') s.
Proof.
  intros Hs Hrun Hpf Hpw Hmin [Hm Hv].
  eapply wp_mono; [by apply tick_running|].
  intros [] s' (Hw & Hset & He & Hm' & Hv'). pose proof Hset as Hset0.
  destruct Hset0 as (Ef & Ew & Ep & _ & _ & _).
  split_and!; [done..|split].
  - rewrite Hm', Hm. unfold motor_at. rewrite Ef, Ep.
    replace (elapsed s) with (elapsed s' - 1) by lia.
    apply actuator_due; unfold wf, wf_upto, elapsed in *; destruct_and!; try done;
      Z.to_euclidean_division_equations; lia.
  - rewrite Hv', Hv. unfold valve_at. rewrite Ew, Ep.
    replace (elapsed s) with (elapsed s' - 1) by lia.
    assert (1 ≤ elapsed s') by (unfold wf, wf_upto, elapsed in *; destruct_and!; lia).
    unfold wf, wf_upto in Hs; destruct_and!. destruct (Z.ltb_spec (percent_food s) 59).
    + apply actuator_due; try done; lia.
    + apply actuator_stuck; try done. unfold wf, wf_upto in Hw; destruct_and!; lia.
Qed.

Lemma idle_schedule s (n : nat) :
  wf s → running s = 1 → 1 ≤ period_food s → 1 ≤ period_water s → on_schedule s →
  elapsed s + Z.of_nat n < 3000 * (2 ^ 31 - 1) →
  wp (idle n) (λ _ s', wf s' ∧ same_settings s s' ∧ elapsed s' = elapsed s + Z.of_nat n ∧
    on_schedule s') s.
Proof.
  intros Hs Hrun Hpf Hpw Hsch. unfold idle. induction n as [|n IH]; intros Hn.
  - simpl. rewrite wp_ret. unfold same_settings. split_and!; try done. lia.
  - rewrite replicate_snoc. apply main_loop_snoc. eapply wp_mono; [apply IH; lia|].
    intros [] s1 (Hw1 & Set1 & E1 & Sch1). apply idle_iteration.
    assert (minutes s1 < 2 ^ 31 - 1) as Hmin.
    { unfold wf, wf_upto, elapsed in *. destruct_and!. lia. }
    unfold same_settings in Set1. destruct Set1 as (F1 & W1 & P1 & R1 & Mo1 & C1).
    eapply wp_mono; [apply tick_schedule; first [assumption | congruence | lia]|].
    intros [] s2 (Hw2 & (F2 & W2 & P2 & R2 & Mo2 & C2) & E2 & Sch2).
    unfold same_settings. split_and!; try congruence; try lia; done.
Qed.

(** C3: the feeding schedule.  From time zero with the settings confirmed and
    both actuators off, an undisturbed run of [n] iterations is defined and
    leaves the motor on exactly during the first [percent_food / 2 + 1] seconds
    of every [period_food]-th minute.  The valve is on during the first
    [percent_food + 1] seconds of every [period_water]-th minute if
    [percent_food] is below 59; from 59 on it is never switched off again. *)
Theorem feeding_schedule s (n : nat) :
  wf s → running s = 1 → 1 ≤ period_food s → 1 ≤ period_water s →
  elapsed s = 0 → motor_enabled s = 0 → valve_enter_enabled s = 0 →
  Z.of_nat n < 3000 * (2 ^ 31 - 1) →
  ∃ s', idle n s = Ok (tt, s') ∧ elapsed s' = Z.of_nat n ∧ same_settings s s' ∧
    motor_enabled s' =
      Z.b2z (due (period_food s) (percent_food s / 2 + 1) (Z.of_nat n)) ∧
    valve_enter_enabled s' =
      Z.b2z (if percent_food s <? 59 then due (period_water s) (percent_food s + 1) (Z.of_nat n)
             else 3000 * period_water s <=? Z.of_nat n).
Proof.
  intros Hs Hrun Hpf Hpw He Hm Hv Hn.
  assert (on_schedule s) as Hsch.
  { unfold on_schedule, motor_at, valve_at, due. rewrite He, Hm, Hv.
    rewrite !(proj2 (Z.leb_gt _ 0)) by lia. simpl. by destruct (_ <? _). }
  destruct (wp_run _ _ _ (idle_schedule s n Hs Hrun Hpf Hpw Hsch ltac:(lia)))
    as ([] & s' & E & Hw & (F & W & P & R & Mo & C) & He' & [Hm' Hv']).
  exists s'. rewrite He in He'. unfold motor_at, valve_at in *. rewrite F, W, P, He' in *.
  unfold same_settings. split_and!; done || lia.
Qed.

Lemma feeding_schedule_witness :
  ∃ s', idle 30001 initial = Ok (tt, s') ∧ motor_enabled s' = 1 ∧ valve_enter_enabled s' = 0.
Proof.
  destruct (feeding_schedule initial 30001) as (s' & E & _ & _ & M & V);
    try (vm_compute; (lia || reflexivity || (intuition congruence))).
  exists s'. split; [exact E|]. split; [exact M|exact V].
Defined.

(** ** Undefined behaviour of the timing code *)

(** The iteration that completes a minute. *)
Definition minute_due (s : feeder) : Prop :=
  running s = 1 ∧ miliseconds s = 49 ∧ seconds s = 59.

Definition tick_defined (s : feeder) : Prop :=
  minute_due s → minutes s < 2 ^ 31 - 1 ∧ period_food s ≠ 0 ∧ period_water s ≠ 0.

Lemma tick_wf {mf mw mp} s :
  wf_upto mf mw mp s → tick_defined s → wp tick (λ _, wf_upto mf mw mp) s.
Proof.
  intros Hs Hd. pose proof Hs as Hs'. unfold wf, wf_upto in Hs'. destruct_and! Hs'.
  unfold tick. rewrite wp_bind. eapply wp_mono; [by eapply tick_second_spec|].
  intros [] s1 (Set1 & Fl1 & B1 & M1 & C1). rewrite wp_bind.
  unfold same_settings, same_flags in Set1, Fl1. destruct_and!.
  assert (60 ≤ seconds s1 → minutes s1 < 2 ^ 31 - 1) as Hmax
    by (intros; rewrite M1; apply Hd; unfold minute_due; lia).
  eapply wp_mono.
  { apply tick_minute_spec; try congruence; try lia.
    intros H60. destruct Hd as (? & ? & ?); [unfold minute_due; lia|].
    split_and!; congruence || lia. }
  intros [] s2 (Set2 & B2 & Ms2 & C2). eapply wp_mono; [by apply tick_actuators_spec|].
  intros [] s3 (Set3 & B3 & Ms3 & S3 & M3 & Mo3 & V3).
  unfold same_settings, same_flags in *. destruct_and!.
  destruct C1 as [(? & ? & ?)|(? & ? & ?)], C2 as [(? & ? & ? & ? & ?)|(? & ? & ? & Mo2 & V2)];
    try lia; unfold wf, wf_upto, blink_ok in *; clear Hd Hs; split_and!;
    try congruence; try lia; rew_eqs; split_ifs; lia.
Qed.

Lemma tick_minute_undef s :
  60 ≤ seconds s →
  ¬ (minutes s < 2 ^ 31 - 1 ∧ period_food s ≠ 0 ∧ period_water s ≠ 0) →
  ∃ u, tick_minute s = Undef u ∧ (u = DivByZero ∨ u = SignedOverflow ∧ 2 ^ 31 - 1 ≤ minutes s).
Proof.
  intros H60 Hd. unfold tick_minute. unfold bind at 1, gets at 1. simpl.
  rewrite (proj2 (Z.leb_le _ _) H60). unfold when, incr_int, rem_int, bind. simpl.
  destruct (Z.ltb_spec (minutes s + 1) (2 ^ 31)); [|eexists; split; [done|right; split; [done|lia]]]. simpl.
  destruct (Z.eqb_spec (period_water s) 0); [eauto|]. simpl.
  destruct (Z.rem _ _ =? 0); simpl;
    (destruct (Z.eqb_spec (period_food s) 0); [simpl; eauto|lia]).
Qed.

Lemma tick_undef {mf mw mp} s :
  wf_upto mf mw mp s → minute_due s →
  ¬ (minutes s < 2 ^ 31 - 1 ∧ period_food s ≠ 0 ∧ period_water s ≠ 0) →
  ∃ u, tick s = Undef u ∧ (u = DivByZero ∨ u = SignedOverflow ∧ 2 ^ 31 - 1 ≤ minutes s).
Proof.
  intros Hs (Hr & Hms & Hsec) Hd. unfold tick.
  destruct (wp_run _ _ _ (tick_second_spec s Hs)) as ([] & s1 & E & H1).
  destruct H1 as ((F & W & _) & _ & _ & M & C).
  destruct (tick_minute_undef s1) as (u & Eu & Hu).
  { lia. }
  { rewrite F, W, M. done. }
  rewrite M in Hu. exists u. split; [|done]. unfold bind at 1. rewrite E. simpl. unfold bind.
  by rewrite Eu.
Qed.

End Schedule.
