(* ===== verification/Tasks.v ===== *)
(** * The calls of the server and the keypad

    The calls the server task makes on the variables of [dogfeed.c], each run
    without interruption ([Interleave] lets the main task in between), and the
    editing of a setting from the keypad. *)

From S2P Require Import Prelude Dogfeed Schedule.

Module Tasks.
Import Dogfeed Schedule.
#[local] Open Scope cmd_scope.

(** ** The calls of the server *)

(** The calls by which the server changes the state. *)
Inductive call : Type :=
| SetRunning (v : Z)
| SetMode (v : Z)
| SetPercentFood (v : Z)
| SetPeriodFood (v : Z)
| SetPeriodWater (v : Z)
| SetConfirmMode
| IncreaseValue
| DecreaseValue.

Definition run_call (c : call) : M feeder unit :=
  match c with
  | SetRunning v => set_running (u8 v)
  | SetMode v => set_mode (u8 v)
  | SetPercentFood v => set_percent_food (u8 v)
  | SetPeriodFood v => set_period_food (u8 v)
  | SetPeriodWater v => set_period_water (u8 v)
  | SetConfirmMode => set_confirm_mode
  | IncreaseValue => increase_value ;;; ret tt
  | DecreaseValue => decrease_value ;;; ret tt
  end.

Fixpoint run_calls (cs : list call) : M feeder unit :=
  match cs with
  | [] => ret tt
  | c :: cs => run_call c ;;; run_calls cs
  end.

Lemma run_call_wf {mf mw mp} `{!Limits mf mw mp} c : keeps_upto mf mw mp (run_call c).
Proof.
  destruct c; simpl;
    first [apply set_running_wf | apply set_mode_wf | apply set_percent_food_wf, u8_nonneg
          | apply set_period_food_wf, u8_nonneg | apply set_period_water_wf, u8_nonneg
          | apply set_confirm_mode_wf | idtac]; intros s Hs.
  - eapply wp_seq; [by apply increase_value_wf|]. done.
  - eapply wp_seq; [by apply decrease_value_wf|]. done.
Qed.

Lemma run_calls_wf cs : keeps_wf (run_calls cs).
Proof.
  induction cs as [|c cs IH]; intros s Hs; [done|].
  eapply (wp_seq wf); [by apply run_call_wf|]. intros _ s' Hs'. by apply IH.
Qed.

(** ** Editing a setting from the keypad *)

Lemma tick_paused s :
  wf s → running s + miliseconds s < 50 ∨ seconds s < 59 →
  wp tick (λ _ s', wf s' ∧ same_settings s s' ∧ elapsed s' = elapsed s + running s) s.
Proof.
  intros Hs Hrun. assert (tick_defined s) as Hd.
  { intros (? & ? & ?). lia. }
  destruct (wp_run _ _ _ (tick_wf s Hs Hd)) as ([] & s3 & E & Hw).
  eapply wp_ok; [exact E|]. split; [done|]. revert E. unfold wf, wf_upto in Hs. destruct_and! Hs.
  enough (wp tick (λ _ s', same_settings s s' ∧ elapsed s' = elapsed s + running s) s) as Hq.
  { intros E. exact (wp_ok_inv _ _ _ _ _ Hq E). }
  unfold tick. rewrite wp_bind. eapply wp_mono; [apply (tick_second_spec (mf := 24) (mw := 24) (mp := 99)); unfold wf_upto; fin|].
  intros [] s1 (Set1 & Fl1 & B1 & M1 & C1). rewrite wp_bind.
  unfold same_settings, same_flags in Set1, Fl1. destruct_and!.
  eapply wp_mono; [apply tick_minute_spec; first [assumption | congruence | lia]|].
  intros [] s2 (Set2 & B2 & Ms2 & C2). eapply wp_mono; [by apply tick_actuators_spec|].
  intros [] s' (Set3 & B3 & Ms3 & S3 & M3 & Mo3 & V3).
  unfold same_settings, same_flags, elapsed in *. destruct_and!. split_and!; try congruence; lia.
Qed.

Definition setting (m : Z) (s : feeder) : Z :=
  if m =? PERCENT_FOOD then percent_food s
  else if m =? PERIOD_FOOD then period_food s else period_water s.

Definition max_of (m : Z) : Z := if m =? PERCENT_FOOD then 99 else 24.

Definition is_setting (m : Z) : Prop := m = PERCENT_FOOD ∨ m = PERIOD_FOOD ∨ m = PERIOD_WATER.

(** The specification of one button while a setting is edited. *)
Definition press (m v k : Z) : Z :=
  if k =? KEY_UP then Z.min (max_of m) (v + 1)
  else if k =? KEY_DOWN then Z.max 0 (v - 1) else v.

Definition editing (m : Z) (s : feeder) : Prop :=
  wf s ∧ running s = 0 ∧ mode s = m ∧ count s = setting m s.

(** Only the setting [m] may differ. *)
Definition others_same (m : Z) (s s' : feeder) : Prop :=
  ∀ m', is_setting m' → m' ≠ m → setting m' s' = setting m' s.

Lemma apply_count_setting m s :
  is_setting m → wf_selected 24 24 99 s → running s = 0 → mode s = m →
  wp apply_count (λ _ s', editing m s' ∧ others_same m s s' ∧
    setting m s' = Z.max 0 (Z.min (max_of m) (count s))) s.
Proof.
  intros Hm Hsel Hr Hmode. pose proof (apply_count_wf s Hsel) as Hwf.
  destruct Hsel as (_ & Hc & _).
  enough (wp apply_count (λ _ s', (running s' = 0 ∧ mode s' = m ∧ count s' = setting m s') ∧
    others_same m s s' ∧ setting m s' = Z.max 0 (Z.min (max_of m) (count s))) s) as Hq.
  { destruct (wp_run _ _ _ Hwf) as ([] & s' & E & Hw). eapply wp_ok; [exact E|].
    pose proof (wp_ok_inv _ _ _ _ _ Hq E). unfold editing. naive_solver. }
  clear Hwf. unfold apply_count. rewrite wp_bind, wp_gets, Hr. simpl.
  unfold get_mode. rewrite wp_bind, wp_gets, Hmode.
  unfold others_same, is_setting in *.
  destruct_or! Hm; subst m; unfold_ops; unfold setting, max_of; simpl;
    wp_run; simpl in *; rewrite ?u8_small in * by lia; try lia;
    split_and!; try congruence; try lia; try (intros m' [-> | [-> | ->]]; done).
Qed.

Lemma max_of_bounds m s : is_setting m → wf s → 0 ≤ setting m s ≤ max_of m.
Proof.
  intros Hm Hs. unfold wf, wf_upto in Hs. destruct_and! Hs.
  destruct Hm as [-> | [-> | ->]]; unfold setting, max_of; simpl; lia.
Qed.

Lemma setting_upd_count m c s : setting m (upd_count c s) = setting m s.
Proof. done. Qed.

Lemma others_same_trans m s1 s2 s3 :
  others_same m s1 s2 → others_same m s2 s3 → others_same m s1 s3.
Proof. intros H1 H2 m' Hm Hne. by rewrite H2, H1. Qed.

Lemma same_settings_setting m s s' :
  same_settings s s' → setting m s' = setting m s ∧ others_same m s s'.
Proof.
  intros (F & W & P & _). unfold others_same, setting. rewrite F, W, P. done.
Qed.

Lemma handle_key_editing m s k :
  is_setting m → editing m s → k = 0 ∨ k = KEY_UP ∨ k = KEY_DOWN →
  wp (handle_key k) (λ _ s', editing m s' ∧ others_same m s s' ∧
    setting m s' = press m (setting m s) k) s.
Proof.
  intros Hm (Hw & Hr & Hmode & Hc) Hk. unfold handle_key.
  pose proof (max_of_bounds m s Hm Hw) as Hb.
  assert (max_of m ≤ 99) by (unfold max_of; case_match; lia).
  destruct Hk as [-> |Hk].
  { simpl. rewrite wp_ret. unfold editing, others_same. done. }
  assert (∃ d, (d = 1 ∨ d = -1) ∧ press m (setting m s) k =
      Z.max 0 (Z.min (max_of m) (count s + d)) ∧ (k =? 0) = false ∧
      wp (select_key k) (λ _ s', s' = upd_count (count s + d) s) s) as (d & Hd & -> & -> & Hsel).
  { destruct Hk as [-> | ->]; [exists 1|exists (-1)]; unfold press; simpl; rewrite Hc;
      (split_and!; [lia|lia|done|]); unfold select_key; simpl;
      wp_run; rewrite ?Hc; try done; unfold wf, wf_upto in Hw; lia. }
  simpl. rewrite wp_bind. eapply wp_mono; [exact Hsel|]. intros [] s' ->.
  eapply wp_mono; [apply (apply_count_setting m); try done|].
  { unfold wf_selected. simpl. unfold wf, wf_upto in *. simpl. destruct_and! Hw. fin. }
  intros [] s' (He & Ho & Es). simpl in Es. unfold editing, others_same in *. done.
Qed.

Lemma editing_iteration m s k :
  is_setting m → editing m s → k = 0 ∨ k = KEY_UP ∨ k = KEY_DOWN →
  wp (main_iteration k) (λ _ s', editing m s' ∧ others_same m s s' ∧
    setting m s' = press m (setting m s) k) s.
Proof.
  intros Hm He Hk. unfold main_iteration. rewrite wp_bind.
  eapply wp_mono; [by apply handle_key_editing|]. intros [] s1 ((Hw & Hr & Hmo & Hc) & Ho & Es).
  eapply wp_mono; [apply tick_paused; [done|left; unfold wf, wf_upto in Hw; lia]|].
  intros [] s2 (Hw2 & Hset & _). destruct (same_settings_setting m _ _ Hset) as [E2 O2].
  destruct Hset as (_ & _ & _ & R2 & M2 & C2).
  split_and!; [unfold editing; split_and!; congruence|by eapply others_same_trans|congruence].
Qed.

Lemma select_iteration m s :
  is_setting m → wf s → wp (main_iteration m) (λ _ s', editing m s' ∧ others_same m s s' ∧
    setting m s' = setting m s) s.
Proof.
  intros Hm Hs. unfold main_iteration. rewrite wp_bind.
  assert (wp (handle_key m) (λ _ s', editing m s' ∧ others_same m s s' ∧
    setting m s' = setting m s) s) as Hk.
  { unfold handle_key. rewrite (proj2 (Z.eqb_neq m 0)) by (by destruct Hm as [-> | [-> | ->]]).
    simpl. rewrite wp_bind.
    pose proof (select_key_wf m s Hs) as Hsel.
    assert (wp (select_key m) (λ _ s', running s' = 0 ∧ mode s' = m ∧
      count s' = setting m s ∧ same_settings (upd_mode (mode s') (upd_running 0
        (upd_count (count s') s))) s') s) as Hsel2.
    { destruct Hm as [-> | [-> | ->]]; unfold select_key; simpl; unfold_ops; simpl;
        wp_run; unfold same_settings, setting; simpl; done. }
    destruct (wp_run _ _ _ Hsel) as ([] & s1 & E1 & Hw1).
    pose proof (wp_ok_inv _ _ _ _ _ Hsel2 E1) as (R1 & M1 & C1 & (F & W & P & _)).
    eapply wp_ok; [exact E1|]. eapply wp_mono; [by apply (apply_count_setting m)|].
    intros [] s' (He & Ho & Es). split; [done|]. rewrite C1 in Es.
    pose proof (max_of_bounds m s Hm Hs).
    assert (∀ m', setting m' s1 = setting m' s) as Eset
      by (intros m'; unfold setting; rewrite F, W, P; done).
    split; [|lia]. intros m' Hm' Hne. rewrite Ho, Eset; done. }
  eapply wp_mono; [exact Hk|]. intros [] s1 ((Hw & Hr & Hmo & Hc) & Ho & Es).
  eapply wp_mono; [apply tick_paused; [done|left; unfold wf, wf_upto in Hw; lia]|].
  intros [] s2 (Hw2 & Hset & _). destruct (same_settings_setting m _ _ Hset) as [E2 O2].
  destruct Hset as (_ & _ & _ & R2 & M2 & C2).
  split_and!; [unfold editing; split_and!; congruence|by eapply others_same_trans|congruence].
Qed.

Lemma confirm_iteration s :
  wf s → wp (main_iteration CONFIRM_MODE) (λ _ s', wf s' ∧ running s' = 1 ∧ elapsed s' = 1 ∧
    ∀ m, setting m s' = setting m s) s.
Proof.
  intros Hs. unfold main_iteration. rewrite wp_bind.
  assert (wp (handle_key CONFIRM_MODE) (λ _ s', wf s' ∧ running s' = 1 ∧ elapsed s' = 0 ∧
    ∀ m, setting m s' = setting m s) s) as Hk.
  { destruct (wp_run _ _ _ (handle_key_wf CONFIRM_MODE s Hs)) as ([] & s1 & E1 & Hw1).
    eapply wp_ok; [exact E1|]. split; [done|]. revert E1.
    enough (wp (handle_key CONFIRM_MODE) (λ _ s', running s' = 1 ∧ elapsed s' = 0 ∧
      ∀ m, setting m s' = setting m s) s) as Hq
      by (intros E1; exact (wp_ok_inv _ _ _ _ _ Hq E1)).
    unfold handle_key, select_key, apply_count, set_confirm_mode. simpl. unfold_ops. simpl.
    wp_run; simpl in *; try lia; unfold elapsed; simpl; done. }
  eapply wp_mono; [exact Hk|]. intros [] s1 (Hw & Hr & He & Hset).
  assert (miliseconds s1 = 0) by (unfold wf, wf_upto, elapsed in *; destruct_and! Hw; lia).
  eapply wp_mono; [apply tick_paused; [done|left; lia]|].
  intros [] s2 (Hw2 & Hset2 & E2). destruct Hset2 as (F & W & P & R & _ & _).
  split_and!; [done|congruence|lia|]. intros m. rewrite <-Hset. unfold setting.
  by rewrite F, W, P.
Qed.

Lemma edited m s (keys : list Z) :
  is_setting m → wf s → Forall (λ k, k = 0 ∨ k = KEY_UP ∨ k = KEY_DOWN) keys →
  wp (main_loop (m :: keys ++ [CONFIRM_MODE])) (λ _ s', wf s' ∧
    setting m s' = foldl (press m) (setting m s) keys ∧
    others_same m s s' ∧ running s' = 1 ∧ elapsed s' = 1) s.
Proof.
  intros Hm Hs Hkeys.
  simpl. rewrite wp_bind. eapply wp_mono; [by apply select_iteration|].
  intros [] s1 (He & Ho & Es). rewrite <-Es. clear Es Hs.
  revert s1 He Ho. induction Hkeys as [|k keys Hk _ IH]; intros s1 He Ho.
  - simpl. rewrite wp_bind. eapply wp_mono; [apply confirm_iteration, He|].
    intros [] s2 (Hw & Hr & Hel & Hset). rewrite wp_ret. split_and!; try done.
    intros m' Hm' Hne. rewrite Hset. by apply Ho.
  - simpl. rewrite wp_bind. eapply wp_mono; [by apply editing_iteration|].
    intros [] s2 (He2 & Ho2 & E2). rewrite <-E2. apply IH; [done|].
    by eapply others_same_trans.
Qed.

(** C29: editing from the keypad.  Selecting a setting, pressing any sequence of
    up and down (with any number of idle iterations between) and confirming
    leaves that setting at the value the presses describe, each step clamped
    to the range 0-99 or 0-24, changes no other setting, and restarts the
    clock. *)
Theorem edit_setting m s (keys : list Z) :
  is_setting m → wf s → Forall (λ k, k = 0 ∨ k = KEY_UP ∨ k = KEY_DOWN) keys →
  ∃ s', main_loop (m :: keys ++ [CONFIRM_MODE]) s = Ok (tt, s') ∧
    setting m s' = foldl (press m) (setting m s) keys ∧
    others_same m s s' ∧ running s' = 1 ∧ elapsed s' = 1.
Proof.
  intros Hm Hs Hkeys.
  destruct (wp_run _ _ _ (edited m s keys Hm Hs Hkeys)) as ([] & s' & E & _ & H). eauto.
Qed.

Lemma edit_setting_witness :
  ∃ s', main_loop (PERIOD_WATER :: [KEY_UP; 0; KEY_UP; KEY_UP; KEY_UP; KEY_DOWN] ++ [CONFIRM_MODE])
          initial = Ok (tt, s') ∧ period_water s' = 23.
Proof.
  destruct (edit_setting PERIOD_WATER initial [KEY_UP; 0; KEY_UP; KEY_UP; KEY_UP; KEY_DOWN])
    as (s' & E & S & _).
  - right; right; reflexivity.
  - unfold wf, wf_upto, initial. simpl. unfold TRUE, FALSE. split_and!; lia.
  - repeat constructor; vm_compute; tauto.
  - exists s'. split; [exact E|exact S].
Defined.

(** ** A period of zero *)

(** Idle iterations within the first minute after the settings are confirmed. *)
Lemma idle_first_minute (n : nat) s :
  wf s → running s = 1 → elapsed s + Z.of_nat n < 3000 →
  wp (idle n) (λ _ s', wf s' ∧ same_settings s s' ∧ elapsed s' = elapsed s + Z.of_nat n) s.
Proof.
  intros Hs Hr. unfold idle. induction n as [|n IH]; intros Hn.
  - simpl. rewrite wp_ret. unfold same_settings. split_and!; done || lia.
  - rewrite replicate_snoc. apply main_loop_snoc. eapply wp_mono; [apply IH; lia|].
    intros [] s1 (Hw & (F & W & P & R & Mo & C) & E). apply idle_iteration.
    eapply wp_mono; [apply tick_paused; [done|]|].
    { unfold wf, wf_upto, elapsed in *. destruct_and!. lia. }
    intros [] s2 (Hw2 & (F2 & W2 & P2 & R2 & Mo2 & C2) & E2).
    unfold same_settings. split_and!; try congruence; try lia; done.
Qed.

Lemma main_loop_app ks1 ks2 s :
  main_loop (ks1 ++ ks2) s = (main_loop ks1 ;;; main_loop ks2) s.
Proof.
  revert s. induction ks1 as [|k ks1 IH]; intros s; [done|]. cbn [app main_loop]. unfold bind at 1.
  destruct (main_iteration k s) as [[[] s1]|] eqn:E; cbn [res_bind].
  - rewrite IH. unfold bind. by rewrite E.
  - unfold bind. by rewrite E.
Qed.

(** C36: a period of zero stops the program.  From any well-formed state, select
    either period, press up and down in any order (with idle iterations
    between) so that the presses lead to zero, and confirm: every one of the
    next 2998 idle iterations is defined, and the 2999th, which completes the
    first minute, divides by zero. *)
Theorem keypad_division_by_zero m s keys (n : nat) :
  m = PERIOD_FOOD ∨ m = PERIOD_WATER → wf s →
  Forall (λ k, k = 0 ∨ k = KEY_UP ∨ k = KEY_DOWN) keys →
  foldl (press m) (setting m s) keys = 0 →
  ((n < 2999)%nat →
    is_ok (main_loop ((m :: keys ++ [CONFIRM_MODE]) ++ replicate n 0) s) = true) ∧
  main_loop ((m :: keys ++ [CONFIRM_MODE]) ++ replicate 2999 0) s = Undef DivByZero.
Proof.
  intros Hm Hs Hkeys H0. assert (is_setting m) as Hm' by (unfold is_setting; tauto).
  destruct (wp_run _ _ _ (edited m s keys Hm' Hs Hkeys)) as ([] & s1 & E & Hw & Hset & _ & Hr & He).
  rewrite H0 in Hset.
  assert (∀ k : nat, (k < 2999)%nat → ∃ s2, idle k s1 = Ok (tt, s2) ∧ wf s2 ∧
    same_settings s1 s2 ∧ elapsed s2 = 1 + Z.of_nat k) as Hidle.
  { intros k Hk. destruct (wp_run _ _ _ (idle_first_minute k s1 Hw Hr ltac:(lia)))
      as ([] & s2 & E2 & Hw2 & S2 & El2). exists s2. split_and!; try done. lia. }
  rewrite !main_loop_app. unfold bind. rewrite E. cbn [res_bind]. split.
  - intros Hn. destruct (Hidle n Hn) as (s2 & E2 & _). unfold idle in E2. by rewrite E2.
  - destruct (Hidle 2998%nat ltac:(lia)) as (s2 & E2 & Hw2 & (F & W & _ & R & _) & El).
    change 2999%nat with (S 2998). rewrite replicate_snoc, main_loop_app. unfold bind.
    unfold idle in E2. rewrite E2. cbn [res_bind].
    assert (minute_due s2 ∧ minutes s2 = 0) as [Hdue Hmin].
    { unfold minute_due, wf, wf_upto, elapsed in *. destruct_and!. lia. }
    destruct (tick_undef s2 Hw2 Hdue) as (u & Eu & Hu).
    { intros (_ & Hf & Hwa). destruct Hm as [-> | ->]; unfold setting in Hset; simpl in Hset; congruence. }
    destruct Hu as [-> | [_ Hov]]; [|lia].
    cbn [main_loop]. unfold main_iteration, handle_key, when, bind, ret. simpl. by rewrite Eu.
Qed.

Lemma keypad_division_by_zero_witness :
  main_loop ((PERIOD_FOOD :: replicate 10 KEY_DOWN ++ [CONFIRM_MODE]) ++ replicate 2999 0) initial =
    Undef DivByZero.
Proof.
  apply (keypad_division_by_zero PERIOD_FOOD initial (replicate 10 KEY_DOWN) 0).
  - left. reflexivity.
  - vm_compute. intuition congruence.
  - apply Forall_replicate. right. right. reflexivity.
  - reflexivity.
Defined.

(** ** A setting changed by the server, then from the keypad *)

Definition set_call (m v : Z) : call :=
  if m =? PERCENT_FOOD then SetPercentFood v
  else if m =? PERIOD_FOOD then SetPeriodFood v else SetPeriodWater v.

Lemma server_set m v s :
  is_setting m → wf s → 0 ≤ v ≤ max_of m →
  wp (run_calls [SetRunning 0; SetMode m; set_call m v])
    (λ _ s', wf s' ∧ running s' = 0 ∧ mode s' = m ∧ count s' = count s ∧ setting m s' = v) s.
Proof.
  intros Hm Hs Hv.
  assert (wp (run_calls [SetRunning 0; SetMode m; set_call m v]) (λ _, wf) s) as Hw.
  { by apply run_calls_wf. }
  destruct (wp_run _ _ _ Hw) as ([] & s' & E & Hw'). eapply wp_ok; [exact E|].
  split; [done|]. revert E.
  enough (wp (run_calls [SetRunning 0; SetMode m; set_call m v]) (λ _ s',
    running s' = 0 ∧ mode s' = m ∧ count s' = count s ∧ setting m s' = v) s) as Hq
    by (intros E; exact (wp_ok_inv _ _ _ _ _ Hq E)).
  clear Hw Hw'. unfold set_call, setting, max_of in *.
  destruct Hm as [-> | [-> | ->]]; simpl in *; rewrite (u8_small v) by lia; unfold_ops; simpl;
    wp_run; simpl in *; try done; lia.
Qed.

(** the keypad counter is not told what the server set: after the server
    has set [m] to [v], the up key stores one more than the keypad counter,
    whatever [v] is. *)
Theorem server_set_then_up m v s :
  is_setting m → wf s → 0 ≤ v ≤ max_of m →
  ∃ s', (run_calls [SetRunning 0; SetMode m; set_call m v] ;;; handle_key KEY_UP) s =
          Ok (tt, s') ∧ setting m s' = Z.min (max_of m) (count s + 1).
Proof.
  intros Hm Hs Hv.
  enough (wp (run_calls [SetRunning 0; SetMode m; set_call m v] ;;; handle_key KEY_UP)
    (λ _ s', setting m s' = Z.min (max_of m) (count s + 1)) s) as Hq.
  { destruct (wp_run _ _ _ Hq) as ([] & s' & E & H). eauto. }
  rewrite wp_bind. eapply wp_mono; [by apply server_set|].
  intros [] s1 (Hw & Hr & Hmo & Hc & _). unfold handle_key. simpl. rewrite wp_bind.
  pose proof (select_key_wf KEY_UP s1 Hw) as Hsel.
  assert (0 ≤ count s1 ≤ 99) by (unfold wf, wf_upto in Hw; destruct_and! Hw; done).
  assert (wp (select_key KEY_UP) (λ _ s', s' = upd_count (count s1 + 1) s1) s1) as Hup.
  { unfold select_key. simpl. wp_run; [done|lia]. }
  destruct (wp_run _ _ _ Hup) as ([] & s2 & E2 & ->).
  pose proof (wp_ok_inv _ _ _ _ _ Hsel E2) as Hw2. eapply wp_ok; [exact E2|].
  eapply wp_mono; [by apply (apply_count_setting m)|].
  intros [] s' (_ & _ & ->). simpl. assert (24 ≤ max_of m) by (unfold max_of; case_match; lia).
  lia.
Qed.

Lemma server_set_then_up_witness :
  ∃ s', (run_calls [SetRunning 0; SetMode PERIOD_WATER; set_call PERIOD_WATER 5] ;;;
         handle_key KEY_UP) initial = Ok (tt, s') ∧ setting PERIOD_WATER s' = 1.
Proof.
  apply (server_set_then_up PERIOD_WATER 5 initial).
  - right; right; reflexivity.
  - unfold wf, wf_upto, initial. simpl. unfold TRUE, FALSE. split_and!; lia.
  - vm_compute. intuition congruence.
Defined.

End Tasks.
