(* ===== verification/Interleave.v ===== *)
(** * The two tasks of the dog feeder, access by access

    The server task (priority 50) runs the accessors of [dogfeed.c] without a
    lock, and the main task (priority 100) preempts it wherever it is when its
    [usleep] ends.  Here the server's calls are trees of single accesses to the
    shared variables ([proc], one per accessor of the source), and a step of
    the main task may come between any two of them.

    The two halves of an iteration of the main loop, [handle_key] and [tick],
    are single steps: they run at the higher priority, and the calls by which
    the main task gives up the processor lie outside them ([usleep] before
    [tick]; the [printf]s of a key, which can wait for the console, before the
    first access [handle_key] makes to a shared variable). *)

From stdpp Require Import relations.
From S2P Require Import Prelude Dogfeed Schedule Tasks.

Module Interleave.
Import Dogfeed Schedule Tasks.
#[local] Open Scope cmd_scope.

(** ** Accesses *)

(** The variables the accessors share with the main task. *)
Inductive var : Type :=
| PeriodFood | PeriodWater | PercentFood | Running | Mode
| Count | Miliseconds | Seconds | Minutes.

Definition load (x : var) (s : feeder) : Z :=
  match x with
  | PeriodFood => period_food s
  | PeriodWater => period_water s
  | PercentFood => percent_food s
  | Running => running s
  | Mode => mode s
  | Count => count s
  | Miliseconds => miliseconds s
  | Seconds => seconds s
  | Minutes => minutes s
  end.

(** The first five are [uint8_t], the others [int]. *)
Definition store (x : var) (v : Z) (s : feeder) : feeder :=
  match x with
  | PeriodFood => upd_period_food (u8 v) s
  | PeriodWater => upd_period_water (u8 v) s
  | PercentFood => upd_percent_food (u8 v) s
  | Running => upd_running (u8 v) s
  | Mode => upd_mode (u8 v) s
  | Count => upd_count (i32 v) s
  | Miliseconds => upd_miliseconds (i32 v) s
  | Seconds => upd_seconds (i32 v) s
  | Minutes => upd_minutes (i32 v) s
  end.

(** What is left of a call: one access, and what follows it. *)
Inductive proc : Type :=
| Done
| Load (x : var) (k : Z → proc)
| Store (x : var) (v : Z) (k : proc)
| Device (d : dev) (b : Z) (k : proc).

(** One access. *)
Definition access (p : proc) (s : feeder) : proc * feeder :=
  match p with
  | Done => (Done, s)
  | Load x k => (k (load x s), s)
  | Store x v k => (k, store x v s)
  | Device d b k => (k, emit d (u8 b) s)
  end.

(** All of them, uninterrupted. *)
Fixpoint finish (p : proc) (s : feeder) : feeder :=
  match p with
  | Done => s
  | Load x k => finish (k (load x s)) s
  | Store x v k => finish k (store x v s)
  | Device d b k => finish k (emit d (u8 b) s)
  end.

(** ** The accessors, access by access *)

Definition write_display_steps (mdisp : Z) (k : proc) : proc := Device Display (u8 mdisp) k.

Definition write_led_steps (mled : Z) (k : proc) : proc :=
  if (mled =? 0) || (mled =? PERCENT_FOOD) || (mled =? PERIOD_FOOD) ||
     (mled =? PERIOD_WATER) || (mled =? CONFIRM_MODE)
  then Device Led mled k else k.

(** [set_period_food], [set_period_water] and [set_percent_food]. *)
Definition set_steps (x : var) (in_range : bool) (v : Z) (k : proc) : proc :=
  if in_range then Store x v (Load x (λ y, write_display_steps y k)) else k.

Definition set_mode_steps (mod_ : Z) (k : proc) : proc :=
  if (mod_ =? PERCENT_FOOD) || (mod_ =? PERIOD_FOOD) || (mod_ =? PERIOD_WATER) ||
     (mod_ =? CONFIRM_MODE)
  then Store Mode mod_ (write_led_steps mod_ k) else write_led_steps mod_ k.

Definition set_running_steps (status : Z) (k : proc) : proc :=
  if (status =? TRUE) || (status =? FALSE) then Store Running status k else k.

(** One [if] of [increase_value] and [decrease_value]: [mode] is tested, the
    setting is read for the test, read again and written by [++] or [--], and
    read again for the display. *)
Definition bump_steps (m : Z) (x : var) (may : Z → bool) (d : Z) (k otherwise : proc) : proc :=
  Load Mode (λ md,
    if md =? m then
      Load x (λ v,
        if may v then Load x (λ v, Store x (v + d) (Load x (λ y, write_display_steps y k)))
        else otherwise)
    else otherwise).

Definition increase_value_steps (k : proc) : proc :=
  Load Running (λ r,
    if negb (r =? 0) then k
    else
      bump_steps PERCENT_FOOD PercentFood (λ v, v <? 99) 1 k
        (bump_steps PERIOD_FOOD PeriodFood (λ v, v <? 24) 1 k
          (bump_steps PERIOD_WATER PeriodWater (λ v, v <? 24) 1 k k))).

Definition decrease_value_steps (k : proc) : proc :=
  Load Running (λ r,
    if negb (r =? 0) then k
    else
      bump_steps PERCENT_FOOD PercentFood (λ v, 0 <? v) (-1) k
        (bump_steps PERIOD_FOOD PeriodFood (λ v, 0 <? v) (-1) k
          (bump_steps PERIOD_WATER PeriodWater (λ v, 0 <? v) (-1) k k))).

Definition set_confirm_mode_steps (k : proc) : proc :=
  Load Running (λ r,
    if negb (r =? 0) then k
    else
      Store Miliseconds 0 (Store Seconds 0 (Store Minutes 0 (Store Count 0
        (Load Count (λ c, write_display_steps c
          (Load Mode (λ m, write_led_steps m (set_running_steps TRUE k))))))))).

(** A call of the server. *)
Definition steps (c : call) : proc :=
  match c with
  | SetRunning v => set_running_steps (u8 v) Done
  | SetMode v => set_mode_steps (u8 v) Done
  | SetPercentFood v => set_steps PercentFood (u8 v <? 100) (u8 v) Done
  | SetPeriodFood v => set_steps PeriodFood (u8 v <=? 24) (u8 v) Done
  | SetPeriodWater v => set_steps PeriodWater (u8 v <=? 24) (u8 v) Done
  | SetConfirmMode => set_confirm_mode_steps Done
  | IncreaseValue => increase_value_steps Done
  | DecreaseValue => decrease_value_steps Done
  end.

(** Uninterrupted, the accesses of a call are the call. *)
Lemma steps_run_call c s : run_call c s = Ok (tt, finish (steps c) s).
Proof.
  destruct c; simpl;
    unfold set_running, set_running_steps, set_mode, set_mode_steps, set_percent_food,
      set_period_food, set_period_water, set_steps, set_confirm_mode, set_confirm_mode_steps,
      increase_value, increase_value_steps, decrease_value, decrease_value_steps, bump_steps,
      write_led, write_led_steps, write_display, write_display_steps, write_dev,
      PERCENT_FOOD, PERIOD_FOOD, PERIOD_WATER, CONFIRM_MODE, TRUE, FALSE;
    run_cmd; unfold Z.sub;
    rewrite ?(u8_small (u8 _)) by apply u8_bound;
    repeat (match goal with
            | |- context [?x =? ?y] => destruct (x =? y) eqn:?
            | |- context [?x <? ?y] => destruct (x <? y) eqn:?
            | |- context [?x <=? ?y] => destruct (x <=? y) eqn:?
            end; simpl; rewrite ?(u8_small (u8 _)) by apply u8_bound);
    first [reflexivity | congruence].
Qed.

(** ** What operations keep *)

(** Every run of [op] leads from a state to one related to it by [R]. *)
Class Moves (R : relation feeder) {A} (op : M feeder A) : Prop :=
  moves : ∀ s a s', op s = Ok (a, s') → R s s'.

Section Moves.
Context {R : relation feeder} `{!PreOrder R}.

#[export] Instance moves_ret {A} (a : A) : Moves R (ret a).
Proof. by intros s b s' [= _ <-]. Qed.

#[export] Instance moves_gets {A} (f : feeder → A) : Moves R (gets f).
Proof. by intros s b s' [= _ <-]. Qed.

#[export] Instance moves_fail {A} u : Moves R (A := A) (fail_ub u).
Proof. by intros s b s' [=]. Qed.

#[export] Instance moves_bind {A B} (c : M feeder B) (k : B → M feeder A) :
  Moves R c → (∀ b, Moves R (k b)) → Moves R (bind c k).
Proof.
  intros Hc Hk s a s'. unfold bind. destruct (c s) as [[b s1]|] eqn:E; [|done]. intros E'.
  transitivity s1; [by eapply Hc|by eapply Hk].
Qed.

#[export] Instance moves_if {A} (b : bool) (c d : M feeder A) :
  Moves R c → Moves R d → Moves R (if b then c else d).
Proof. by destruct b. Qed.

#[export] Instance moves_when b c : Moves R c → Moves R (when b c).
Proof. intros Hc. apply moves_if; [done|apply _]. Qed.

Lemma moves_modify f : (∀ s, R s (f s)) → Moves R (modify f).
Proof. intros Hf s b s' [= _ <-]. apply Hf. Qed.
End Moves.

#[export] Hint Extern 1 (Moves _ (modify _)) => apply moves_modify; by intros s : typeclass_instances.

#[export] Hint Extern 2 (Moves _ (incr_int _)) => unfold incr_int : typeclass_instances.
#[export] Hint Extern 2 (Moves _ (decr_int _)) => unfold decr_int : typeclass_instances.
#[export] Hint Extern 2 (Moves _ (rem_int _ _)) => unfold rem_int : typeclass_instances.

Ltac moves_op :=
  unfold run_call, startup, handle_key, select_key, apply_count, set_confirm_mode, set_mode, set_running,
    set_percent_food, set_period_food, set_period_water, increase_value, decrease_value,
    get_mode, get_percent_food, get_period_food, get_period_water, write_display,
    tick, tick_second, tick_minute, tick_actuators; apply _.


(** ** Runs of the two tasks

    In a [calm] run no key is handled while a call of the server is in
    progress. *)

Inductive tstep (calm : bool) : feeder * proc → feeder * proc → Prop :=
| t_key k s s' p :
    (calm = true → p = Done) → handle_key k s = Ok (tt, s') → tstep calm (s, p) (s', p)
| t_tick s s' p : tick s = Ok (tt, s') → tstep calm (s, p) (s', p)
| t_call c s : tstep calm (s, Done) (s, steps c)
| t_access s p : tstep calm (s, p) ((access p s).2, (access p s).1).

(** What the main task does during a call. *)
Definition main_steps (calm : bool) (s s' : feeder) : Prop :=
  (calm = false ∧ ∃ k, handle_key k s = Ok (tt, s')) ∨ tick s = Ok (tt, s').

(** ** What the calls rely on *)

Section Rely.
Context {mf mw mp : Z} `{!Limits mf mw mp} (E : relation feeder).
Hypothesis E_keeps : ∀ s s', E s s' → wf_upto mf mw mp s → wf_upto mf mw mp s'.

#[local] Abbreviation within := (wf_upto mf mw mp).

(** [p] may go on from [s] with steps of [E] anywhere between its accesses,
    and the limits hold all along. *)
Fixpoint safe (p : proc) (s : feeder) : Prop :=
  ∀ s', rtc E s s' → within s' ∧
    match p with
    | Done => True
    | Load x k => safe (k (load x s')) s'
    | Store x v k => safe k (store x v s')
    | Device d b k => safe k (emit d (u8 b) s')
    end.

Lemma rely_keeps s s' : rtc E s s' → within s → within s'.
Proof. induction 1; eauto. Qed.

Lemma safe_within p s : safe p s → within s.
Proof. destruct p; intros H; by apply (H s (rtc_refl _ _)). Qed.

Lemma safe_rely p s s' : E s s' → safe p s → safe p s'.
Proof. intros HE. destruct p; intros H s1 Hr; apply H; by eapply rtc_l. Qed.

Lemma safe_access p s : safe p s → safe (access p s).1 (access p s).2.
Proof. destruct p; intros H; destruct (H s (rtc_refl _ _)) as [Hw H1]; done. Qed.

(** Safe from every state within the limits. *)
Definition robust (p : proc) : Prop := ∀ s, within s → safe p s.

Lemma robust_done : robust Done.
Proof. intros s Hs s' Hr. split; [by eapply rely_keeps|done]. Qed.

Lemma robust_load x k : (∀ v, robust (k v)) → robust (Load x k).
Proof.
  intros Hk s Hs s' Hr. assert (within s') by by eapply rely_keeps. split; [done|by apply Hk].
Qed.

Lemma robust_store x v k : (∀ s, within s → within (store x v s)) → robust k → robust (Store x v k).
Proof.
  intros Hx Hk s Hs s' Hr. assert (within s') by by eapply rely_keeps. split; [done|].
  by apply Hk, Hx.
Qed.

Lemma robust_device d b k : robust k → robust (Device d b k).
Proof.
  intros Hk s Hs s' Hr. assert (within s') by by eapply rely_keeps. split; [done|]. by apply Hk.
Qed.

Lemma robust_if (b : bool) p q : (b = true → robust p) → (b = false → robust q) → robust (if b then p else q).
Proof. destruct b; auto. Qed.

#[local] Hint Resolve robust_done robust_load robust_device robust_if : nx.

(** A setting stays as it was read, or any value of [uint8_t] is within the
    limits. *)
Definition steady (x : var) : Prop :=
  (∀ s s', E s s' → load x s' = load x s) ∨ (∀ v s, within s → within (store x v s)).

Lemma steady_rtc x s s' : (∀ s s', E s s' → load x s' = load x s) → rtc E s s' → load x s' = load x s.
Proof. intros Hx. induction 1 as [|s1 s2 s3 HE _ IH]; [done|]. by rewrite IH, (Hx _ _ HE). Qed.

Definition is_setting_var (x : var) : Prop := x = PeriodFood ∨ x = PeriodWater ∨ x = PercentFood.

Lemma store_within x v s s' : is_setting_var x →
  within s' → within (store x v s) → within (store x v s').
Proof. intros [-> | [-> | ->]]; unfold wf_upto; simpl; tauto. Qed.

Lemma bump_robust m x may d k o :
  is_setting_var x → steady x → (∀ s, within s → may (load x s) = true → within (store x (load x s + d) s)) →
  robust k → robust o → robust (bump_steps m x may d k o).
Proof.
  intros Hx Hst Hmay Hk Ho. apply robust_load. intros md. apply robust_if; intros _; [|done].
  intros s Hs s1 Hr1. assert (within s1) as Hs1 by by eapply rely_keeps. split; [done|].
  destruct (may (load x s1)) eqn:Em; [|by apply Ho].
  intros s2 Hr2. assert (within s2) as Hs2 by by eapply rely_keeps. split; [done|].
  intros s3 Hr3. assert (within s3) as Hs3 by by eapply rely_keeps. split; [done|].
  assert (within (store x (load x s2 + d) s3)) as Hw.
  { destruct Hst as [Hst|Hst]; [|by apply Hst].
    rewrite (steady_rtc _ _ _ Hst Hr2). by apply (store_within _ _ s1), Hmay. }
  by apply robust_load; [intros y; apply robust_device|].
Qed.

Hypothesis steady_food : steady PeriodFood.
Hypothesis steady_water : steady PeriodWater.
Hypothesis steady_percent : steady PercentFood.

Ltac within := pose proof limits as (? & ? & ?); unfold wf_upto in *; simpl in *; destruct_and?;
  change (i32 0) with 0; rewrite ?u8_small by lia; fin.

Lemma set_robust x (b : bool) v k :
  (b = true → ∀ s, within s → within (store x v s)) → robust k → robust (set_steps x b v k).
Proof.
  intros Hb Hk. apply robust_if; [|done]. intros ?. apply robust_store; [by auto|].
  apply robust_load. intros y. by apply robust_device.
Qed.

Lemma led_robust v k : robust k → robust (write_led_steps v k).
Proof. intros Hk. apply robust_if; auto with nx. Qed.

Lemma running_robust v k : 0 ≤ v < 256 → robust k → robust (set_running_steps v k).
Proof.
  intros Hv Hk. apply robust_if; [|done]. unfold TRUE, FALSE. intros Hb. apply robust_store; [|done].
  intros s Hs. apply orb_true_iff in Hb. rewrite !Z.eqb_eq in Hb. within.
Qed.

Lemma mode_robust v k : robust k → robust (set_mode_steps v k).
Proof.
  intros Hk. apply robust_if; [|intros _; by apply led_robust]. intros Hb.
  unfold PERCENT_FOOD, PERIOD_FOOD, PERIOD_WATER, CONFIRM_MODE in Hb.
  rewrite !orb_true_iff, !Z.eqb_eq in Hb. apply robust_store; [|by apply led_robust].
  intros s Hs. within.
Qed.

Lemma steps_robust c : robust (steps c).
Proof.
  destruct c as [v|v|v|v|v| | |]; simpl; try pose proof (u8_bound v).
  - by apply running_robust, robust_done.
  - apply mode_robust, robust_done.
  - apply set_robust; [|apply robust_done]. intros Hb s Hs. zify_bools. within.
  - apply set_robust; [|apply robust_done]. intros Hb s Hs. zify_bools. within.
  - apply set_robust; [|apply robust_done]. intros Hb s Hs. zify_bools. within.
  - apply robust_load. intros r. apply robust_if; intros _; [apply robust_done|].
    do 4 (apply robust_store; [intros s Hs; within|]).
    apply robust_load. intros y. apply robust_device, robust_load. intros w. apply led_robust.
    by apply running_robust, robust_done.
  - apply robust_load. intros r. apply robust_if; intros _; [apply robust_done|].
    repeat (apply bump_robust; [unfold is_setting_var; tauto|done| |apply robust_done|];
      [intros s Hs Hm; zify_bools; within|]). apply robust_done.
  - apply robust_load. intros r. apply robust_if; intros _; [apply robust_done|].
    repeat (apply bump_robust; [unfold is_setting_var; tauto|done| |apply robust_done|];
      [intros s Hs Hm; zify_bools; within|]). apply robust_done.
Qed.

End Rely.

(** ** The settings while both tasks run *)

#[export] Instance same_settings_preorder : PreOrder same_settings.
Proof. unfold same_settings. split; [by intros s|]. intros s1 s2 s3. intuition congruence. Qed.

#[export] Instance same_settings_dev d b : Moves same_settings (write_dev d b).
Proof. by intros s u s' [= _ <-]. Qed.

#[export] Instance same_settings_led b : Moves same_settings (write_led b).
Proof. intros s u s'. unfold write_led, when. by destruct (_ || _); intros [= _ <-]. Qed.

#[export] Instance same_settings_tick : Moves same_settings tick.
Proof. moves_op. Qed.

Lemma tick_keeps {mf mw mp} s u s' : wf_upto mf mw mp s → tick s = Ok (u, s') → wf_upto mf mw mp s'.
Proof.
  intros Hs E. refine (wp_ok_inv _ _ _ _ _ (tick_wf s Hs _) E). intros Hmin.
  destruct (decide (minutes s < 2 ^ 31 - 1 ∧ period_food s ≠ 0 ∧ period_water s ≠ 0)) as [|Hd]; [done|].
  destruct (tick_undef s Hs Hmin Hd) as (v & Ev & _). congruence.
Qed.

Lemma main_keeps {mf mw mp} `{!Limits mf mw mp} calm s s' :
  main_steps calm s s' → wf_upto mf mw mp s → wf_upto mf mw mp s'.
Proof.
  intros [(_ & k & E)|E] Hs; [exact (wp_ok_inv _ _ _ _ _ (handle_key_wf k s Hs) E)|by eapply tick_keeps].
Qed.

Lemma calm_steady x : is_setting_var x → steady (mf := 24) (mw := 24) (mp := 99) (main_steps true) x.
Proof.
  intros Hx. left. intros s s' [[? _]|E]; [done|].
  destruct (same_settings_tick _ _ _ E) as (F & W & P & _). by destruct Hx as [-> | [-> | ->]].
Qed.

Lemma any_steady x : is_setting_var x → steady (mf := 255) (mw := 255) (mp := 255) (main_steps false) x.
Proof.
  intros Hx. right. intros v s Hs. pose proof (u8_bound v). unfold wf_upto in *.
  destruct_and! Hs. destruct Hx as [-> | [-> | ->]]; simpl; split_and!; first [assumption | lia].
Qed.

Lemma calm_robust c : robust (mf := 24) (mw := 24) (mp := 99) (main_steps true) (steps c).
Proof. apply steps_robust; [apply main_keeps|apply calm_steady; unfold is_setting_var; tauto..]. Qed.

Lemma any_robust c : robust (mf := 255) (mw := 255) (mp := 255) (main_steps false) (steps c).
Proof. apply steps_robust; [apply main_keeps|apply any_steady; unfold is_setting_var; tauto..]. Qed.

(** The invariant of a run: the call in progress is safe. *)
Definition settings_ok (calm : bool) (t : feeder * proc) : Prop :=
  if calm then safe (mf := 24) (mw := 24) (mp := 99) (main_steps true) t.2 t.1
  else safe (mf := 255) (mw := 255) (mp := 255) (main_steps false) t.2 t.1.

Lemma tstep_ok calm t t' : tstep calm t t' → settings_ok calm t → settings_ok calm t'.
Proof.
  intros [k s s' p Hc E|s s' p E|c s|s p] H; destruct calm; simpl in *.
  - rewrite (Hc eq_refl) in *. apply robust_done; [apply main_keeps|].
    exact (wp_ok_inv _ _ _ _ _ (handle_key_wf k s (safe_within _ _ _ H)) E).
  - eapply safe_rely; [|exact H]. left. eauto.
  - eapply safe_rely; [|exact H]. by right.
  - eapply safe_rely; [|exact H]. by right.
  - apply calm_robust, (H s (rtc_refl _ _)).
  - apply any_robust, (H s (rtc_refl _ _)).
  - by apply safe_access.
  - by apply safe_access.
Qed.

Lemma run_settings calm t : rtc (tstep calm) (initial, Done) t → settings_ok calm t.
Proof.
  intros Hr. assert (settings_ok calm (initial, Done)) as H0.
  { destruct calm; (apply robust_done; [apply main_keeps|]); [|apply wf_loosen]; apply initial_wf. }
  revert Hr H0. induction 1 as [|t1 t2 t3 Hs _ IH]; [done|]. intros H. by apply IH, (tstep_ok _ _ _ Hs).
Qed.

(** What is defined in a state with settings of any value. *)
Lemma tick_defined_iff s : wf_upto 255 255 255 s →
  is_ok (tick s) = true ↔
    ¬ (minute_due s ∧ (minutes s = 2 ^ 31 - 1 ∨ period_food s = 0 ∨ period_water s = 0)).
Proof.
  intros Hs. split.
  - intros Hok [Hmin Hz]. destruct (tick_undef s Hs Hmin) as (u & E & _); [lia|]. by rewrite E in Hok.
  - intros Hn. assert (tick_defined s) as Hd.
    { intros Hmin. assert (¬ (minutes s = 2 ^ 31 - 1 ∨ period_food s = 0 ∨ period_water s = 0))
        by naive_solver. unfold wf_upto in Hs. destruct_and! Hs. lia. }
    by destruct (wp_run _ _ _ (tick_wf s Hs Hd)) as (? & ? & -> & _).
Qed.


Fixpoint accesses (n : nat) (t : feeder * proc) : feeder * proc :=
  match n with
  | O => t
  | S n => accesses n ((access t.2 t.1).2, (access t.2 t.1).1)
  end.

Lemma accesses_run calm n t : rtc (tstep calm) t (accesses n t).
Proof.
  revert t. induction n as [|n IH]; intros [s p]; [done|]. simpl.
  eapply rtc_l; [apply t_access|]. apply IH.
Qed.


(** ** A lost update

    The decrement of the server and the keys of the main task, on the setting
    that is being edited. *)

Definition var_of (m : Z) : var :=
  if m =? PERCENT_FOOD then PercentFood else if m =? PERIOD_FOOD then PeriodFood else PeriodWater.

(** What is left of [decrease_value] after its tests. *)
Definition decrement (m : Z) : proc :=
  Load (var_of m) (λ v, Store (var_of m) (v + -1)
    (Load (var_of m) (λ y, write_display_steps y Done))).

Lemma decrease_tests m s : is_setting m → running s = 0 → mode s = m → 0 < setting m s →
  ∃ n, accesses n (s, steps DecreaseValue) = (s, decrement m).
Proof.
  intros Hm Hr Hmo Hp. apply Z.ltb_lt in Hp. unfold setting in Hp.
  destruct Hm as [-> | [-> | ->]]; [exists 3%nat|exists 4%nat|exists 5%nat];
    simpl in *; rewrite Hr; simpl; do 3 (rewrite ?Hmo; simpl); rewrite Hp; reflexivity.
Qed.

(** The down key, until the setting is zero. *)
Lemma keys_down m p (n : nat) s : is_setting m → editing m s → setting m s = Z.of_nat n →
  ∃ s', rtc (tstep false) (s, p) (s', p) ∧ setting m s' = 0.
Proof.
  intros Hm. revert s. induction n as [|n IH]; intros s He Hn; [by exists s|].
  destruct (wp_run _ _ _ (handle_key_editing m s KEY_DOWN Hm He ltac:(tauto)))
    as ([] & s1 & E & He1 & _ & Hs1).
  assert (setting m s1 = Z.of_nat n) as Hn1.
  { rewrite Hs1, Hn. unfold press. change (KEY_DOWN =? KEY_UP) with false.
    rewrite Z.eqb_refl. lia. }
  destruct (IH s1 He1 Hn1) as (s' & Hr & H0). exists s'. split; [|done].
  eapply rtc_l; [|exact Hr]. by apply (t_key _ KEY_DOWN).
Qed.

(** The tests of [decrease_value] do not protect its decrement: from any
    state in which a setting above zero is edited, the server can test it, the
    keypad set it to zero and the server then decrement it, which leaves it at
    255. *)
Theorem decrement_wraps m s : is_setting m → editing m s → 0 < setting m s →
  ∃ s', rtc (tstep false) (s, Done) (s', Done) ∧ setting m s' = 255.
Proof.
  intros Hm He Hp. pose proof He as (Hw & Hr & Hmo & _).
  destruct (decrease_tests m s Hm Hr Hmo Hp) as (n & En).
  destruct (keys_down m (decrement m) (Z.to_nat (setting m s)) s Hm He) as (s1 & Hr1 & H0); [lia|].
  exists (accesses 4 (s1, decrement m)).1. split.
  - eapply rtc_l; [apply (t_call _ DecreaseValue)|].
    etrans; [apply (accesses_run _ n)|]. rewrite En. etrans; [exact Hr1|].
    refine (eq_rect _ (rtc _ _) (accesses_run _ 4 (s1, decrement m)) _ _).
    by destruct Hm as [-> | [-> | ->]].
  - unfold setting in H0. destruct Hm as [-> | [-> | ->]]; simpl in *; unfold setting; simpl; by rewrite H0.
Qed.

Lemma decrement_wraps_witness :
  ∃ s', rtc (tstep false) (upd_count 10 (upd_mode PERIOD_FOOD (upd_running 0 initial)), Done) (s', Done) ∧
    setting PERIOD_FOOD s' = 255.
Proof.
  apply (decrement_wraps PERIOD_FOOD).
  - right. left. reflexivity.
  - split; [|repeat split; reflexivity]. vm_compute. intuition congruence.
  - reflexivity.
Defined.

End Interleave.
