(* ===== verification/Feeder.v ===== *)
(** * The feeder on its board

    [dogfeed_main] as a whole, on the registers of the board: the start-up of
    the drivers, the opening of the devices and the creation of the server
    task with their error returns, and the main loop, which reads the buttons
    through the driver and whose writes reach the drivers of [Board].

    The results of [open] and [task_create] are arguments.  What the outside
    world does to the input pins between two iterations is an argument too, a
    function on the registers that keeps the outputs. *)

From S2P Require Import Prelude Gpio Board Dogfeed Schedule Tasks Interleave.

Module Feeder.
Import Gpio Board Dogfeed Schedule Tasks Interleave.
#[local] Open Scope cmd_scope.

Definition ENOENT : Z := 2.

(** Bytes are written, and to the LEDs only the bytes that light at most one. *)
Definition led_bytes : list Z := [0; PERCENT_FOOD; PERIOD_FOOD; PERIOD_WATER; CONFIRM_MODE].

Definition ok_write (e : dev * Z) : Prop := 0 ≤ e.2 < 256 ∧ (e.1 = Led → e.2 ∈ led_bytes).

Definition writes (s s' : feeder) : Prop := ∃ es, out s' = es ++ out s ∧ Forall ok_write es.

#[export] Instance writes_preorder : PreOrder writes.
Proof.
  split.
  - intros s. by exists [].
  - intros s1 s2 s3 (es1 & E1 & F1) (es2 & E2 & F2). exists (es2 ++ es1).
    rewrite E2, E1, app_assoc. split; [done|by apply Forall_app].
Qed.

Lemma writes_same s s' : out s' = out s → writes s s'.
Proof. intros E. exists []. by rewrite E. Qed.

#[export] Hint Extern 0 (Moves writes (modify _)) =>
  apply moves_modify; intros ?; apply writes_same; reflexivity : typeclass_instances.

#[export] Instance writes_write_dev d b : d ≠ Led → Moves writes (write_dev d b).
Proof.
  intros Hd s u s' [= _ <-]. exists [(d, u8 b)]. split; [done|]. constructor; [|done].
  split; [apply u8_bound|done].
Qed.

#[export] Hint Extern 0 (_ ≠ Led) => discriminate : typeclass_instances.

#[export] Instance writes_write_led b : Moves writes (write_led b).
Proof.
  intros s u s'. unfold write_led, when. destruct (_ || _) eqn:E; intros [= _ <-]; [|by apply writes_same].
  assert (b ∈ led_bytes) as Hb.
  { unfold led_bytes. rewrite !orb_true_iff, !Z.eqb_eq in E. set_solver. }
  exists [(Led, u8 b)]. split; [done|]. constructor; [|done]. split; [apply u8_bound|]. intros _. simpl.
  rewrite u8_small; [done|].
  unfold led_bytes, PERCENT_FOOD, PERIOD_FOOD, PERIOD_WATER, CONFIRM_MODE in Hb.
  rewrite !elem_of_cons, elem_of_nil in Hb. lia.
Qed.

#[export] Instance writes_handle_key k : Moves writes (handle_key k).
Proof. moves_op. Qed.

#[export] Instance writes_tick : Moves writes tick.
Proof. moves_op. Qed.

#[export] Instance writes_startup : Moves writes startup.
Proof. moves_op. Qed.

#[export] Instance writes_call c : Moves writes (run_call c).
Proof. destruct c; moves_op. Qed.

(** The last byte written to a device, and the last one the display shows. *)
Fixpoint last_write (d : dev) (es : list (dev * Z)) : option Z :=
  match es with
  | [] => None
  | (d', b) :: es => if decide (d' = d) then Some b else last_write d es
  end.

Fixpoint last_shown (es : list (dev * Z)) : Z :=
  match es with
  | [] => 0
  | (Display, b) :: es => if b <? 100 then b else last_shown es
  | _ :: es => last_shown es
  end.

(** ** The actuators follow their flags *)

(** Neither the flags nor the actuators change, or a flag is set. *)
Definition arming (s s' : feeder) : Prop :=
  (motor_enabled s' = 0 → motor_enabled s = 0) ∧
  (valve_enter_enabled s' = 0 → valve_enter_enabled s = 0) ∧
  last_write Motor (out s') = last_write Motor (out s) ∧
  last_write Valve (out s') = last_write Valve (out s).

Definition passive (s s' : feeder) : Prop :=
  motor_enabled s' = motor_enabled s ∧ valve_enter_enabled s' = valve_enter_enabled s ∧
  last_write Motor (out s') = last_write Motor (out s) ∧
  last_write Valve (out s') = last_write Valve (out s).

#[export] Instance arming_preorder : PreOrder arming.
Proof. unfold arming. split; [by intros s|]. intros s1 s2 s3. intuition congruence. Qed.

#[export] Instance passive_preorder : PreOrder passive.
Proof. unfold passive. split; [by intros s|]. intros s1 s2 s3. intuition congruence. Qed.

#[export] Instance arming_display b : Moves arming (write_dev Display b).
Proof. by intros s u s' [= _ <-]. Qed.

#[export] Instance passive_display b : Moves passive (write_dev Display b).
Proof. by intros s u s' [= _ <-]. Qed.

#[export] Instance passive_led b : Moves passive (write_led b).
Proof. intros s u s'. unfold write_led, when. by destruct (_ || _); intros [= _ <-]. Qed.

#[export] Instance arming_led b : Moves arming (write_led b).
Proof. intros s u s'. unfold write_led, when. by destruct (_ || _); intros [= _ <-]. Qed.

#[export] Instance passive_handle_key k : Moves passive (handle_key k).
Proof. moves_op. Qed.

#[export] Instance passive_startup : Moves passive startup.
Proof. moves_op. Qed.

#[export] Instance passive_call c : Moves passive (run_call c).
Proof. destruct c; moves_op. Qed.

#[export] Instance arming_second : Moves arming tick_second.
Proof. moves_op. Qed.

#[export] Instance arming_minute : Moves arming tick_minute.
Proof. moves_op. Qed.

(** The last byte written to an actuator is its flag. *)
Definition follows (flag : Z) (last : option Z) : Prop := last = Some flag ∨ last = None ∧ flag = 0.

Definition actuators_ok (s : feeder) : Prop :=
  follows (motor_enabled s) (last_write Motor (out s)) ∧
  follows (valve_enter_enabled s) (last_write Valve (out s)).

Lemma passive_ok s s' : passive s s' → actuators_ok s → actuators_ok s'.
Proof. unfold passive, actuators_ok. by intros (-> & -> & -> & ->). Qed.

Lemma tick_actuators_follow s u s' :
  0 ≤ motor_enabled s ≤ 1 → 0 ≤ valve_enter_enabled s ≤ 1 →
  (motor_enabled s = 0 → follows 0 (last_write Motor (out s))) →
  (valve_enter_enabled s = 0 → follows 0 (last_write Valve (out s))) →
  tick_actuators s = Ok (u, s') → actuators_ok s'.
Proof.
  intros Hm Hv Fm Fv E.
  assert (wp tick_actuators (λ _, actuators_ok) s) as W; [|by apply (wp_ok_inv _ _ _ _ _ W E)].
  unfold tick_actuators, write_dev. clear E. unfold FALSE.
  wp_run; unfold actuators_ok; simpl in *; rewrite ?u8_small by lia;
    split; first [by left | match goal with H : ?f = 0 |- follows ?f _ => rewrite H; auto end].
Qed.

Definition flags_ok (s s' : feeder) : Prop :=
  0 ≤ motor_enabled s ≤ 1 ∧ 0 ≤ valve_enter_enabled s ≤ 1 →
  0 ≤ motor_enabled s' ≤ 1 ∧ 0 ≤ valve_enter_enabled s' ≤ 1.

#[export] Instance flags_preorder : PreOrder flags_ok.
Proof. unfold flags_ok. split; [by intros s|]. intros s1 s2 s3. tauto. Qed.

#[export] Hint Extern 0 (Moves flags_ok (modify _)) =>
  apply moves_modify; intros ?; unfold flags_ok; simpl; unfold TRUE, FALSE; lia : typeclass_instances.

#[export] Instance flags_dev d b : Moves flags_ok (write_dev d b).
Proof. intros s u s' [= _ <-] Hf. exact Hf. Qed.

#[export] Instance flags_led b : Moves flags_ok (write_led b).
Proof. apply moves_when, _. Qed.

Lemma tick_flags {mf mw mp} s u1 s1 u2 s2 : wf_upto mf mw mp s → tick_second s = Ok (u1, s1) → tick_minute s1 = Ok (u2, s2) →
  0 ≤ motor_enabled s2 ≤ 1 ∧ 0 ≤ valve_enter_enabled s2 ≤ 1.
Proof.
  intros Hs E1 E2. assert (Moves flags_ok tick_second) as H1 by moves_op.
  assert (Moves flags_ok tick_minute) as H2 by moves_op.
  apply (H2 _ _ _ E2), (H1 _ _ _ E1). unfold wf, wf_upto in Hs. lia.
Qed.

Lemma tick_follow {mf mw mp} s u s' : wf_upto mf mw mp s → actuators_ok s → tick s = Ok (u, s') → actuators_ok s'.
Proof.
  intros Hs [Fm Fv] E. unfold tick, bind in E.
  destruct (tick_second s) as [[[] s1]|] eqn:E1; [|done]. cbn [res_bind] in E.
  destruct (tick_minute s1) as [[[] s2]|] eqn:E2; [|done]. cbn [res_bind] in E.
  destruct (arming_second _ _ _ E1) as (A1 & A2 & A3 & A4), (arming_minute _ _ _ E2) as (B1 & B2 & B3 & B4).
  destruct (tick_flags _ _ _ _ _ Hs E1 E2) as [R1 R2].
  eapply tick_actuators_follow; [exact R1|exact R2| | |exact E].
  - intros H2. rewrite B3, A3. specialize (A1 (B1 H2)). by rewrite A1 in Fm.
  - intros H2. rewrite B4, A4. specialize (A2 (B2 H2)). by rewrite A2 in Fv.
Qed.

(** ** What a tick writes *)

Definition second_out (s s' : feeder) : Prop :=
  (miliseconds s + running s < 50 ∧ out s' = out s ∧ blink s' = blink s) ∨
  (50 ≤ miliseconds s + running s ∧ out s' = (Led, blink s) :: out s ∧ blink s' = 8 - blink s).

Lemma tick_second_out s u s' : wf s → tick_second s = Ok (u, s') → second_out s s'.
Proof.
  intros Hs E. assert (wp tick_second (λ _, second_out s) s) as W; [|exact (wp_ok_inv _ _ _ _ _ W E)].
  unfold wf, wf_upto in Hs. destruct_and! Hs. clear E. unfold tick_second. unfold_ops.
  unfold PERCENT_FOOD, PERIOD_FOOD, PERIOD_WATER, CONFIRM_MODE.
  wp_run; simpl in *; unfold second_out; simpl; rewrite ?u8_small by lia;
    first [left; split_and!; [lia|done|done] | right; split_and!; [lia|done|split_ifs; lia] | lia].
Qed.

Definition minute_out (s s' : feeder) : Prop :=
  blink s' = blink s ∧
  ((seconds s < 60 ∧ out s' = out s) ∨
   (60 ≤ seconds s ∧ out s' = (Display, u8 (minutes s + 1)) :: out s)).

Lemma tick_minute_out s u s' : tick_minute s = Ok (u, s') → minute_out s s'.
Proof.
  intros E. unfold minute_out. unfold tick_minute in E. unfold bind at 1, gets at 1 in E. cbn [res_bind] in E.
  destruct (Z.leb_spec 60 (seconds s)) as [H|H]; [|injection E as _ <-; split; [done|by left]].
  revert E. unfold when, incr_int, rem_int, write_display, write_dev, bind, gets, modify. simpl.
  destruct (minutes s + 1 <? 2 ^ 31); [|done]. simpl. destruct (period_water s =? 0); [done|]. simpl.
  destruct (Z.rem _ _ =? 0); simpl; (destruct (period_food s =? 0); [done|]); simpl;
    destruct (Z.rem _ _ =? 0); simpl; intros [= _ <-]; (split; [done|right; split; [done|]]); simpl;
    by rewrite !(u8_small (u8 _)) by apply u8_bound.
Qed.

Definition acts_out (s s' : feeder) : Prop :=
  blink s' = blink s ∧ last_write Led (out s') = last_write Led (out s) ∧
  last_shown (out s') = last_shown (out s) ∧
  (last_write Valve (out s') = None ↔ last_write Valve (out s) = None ∧ valve_enter_enabled s = 0).

Lemma tick_actuators_out s u s' : tick_actuators s = Ok (u, s') → acts_out s s'.
Proof.
  intros E. assert (wp tick_actuators (λ _, acts_out s) s) as W; [|exact (wp_ok_inv _ _ _ _ _ W E)].
  clear E. unfold tick_actuators, write_dev, FALSE. wp_run; unfold acts_out; simpl in *; naive_solver.
Qed.

(** The number the display shows after [m] minutes: the display ignores bytes
    from 100 on. *)
Definition shown (m : Z) : Z := if m mod 256 <? 100 then m mod 256 else 99.

Lemma shown_step m : 0 ≤ m →
  (if u8 (m + 1) <? 100 then u8 (m + 1) else shown m) = shown (m + 1).
Proof.
  intros Hm. unfold shown, u8, wrap. change (2 ^ 8) with 256.
  split_ifs; Z.to_euclidean_division_equations; lia.
Qed.

(** The display, the time LED and the valves of an undisturbed run. *)
Definition outputs_in_time (s : feeder) : Prop :=
  last_shown (out s) = shown (minutes s) ∧
  blink s = 8 * (seconds s mod 2) ∧
  last_write Led (out s) = Some (if (minutes s =? 0) && (seconds s =? 0) then 0 else 8 - blink s) ∧
  (last_write Valve (out s) = None ↔ minutes s < period_water s).

(** The valve device is first written when the first period ends. *)
Lemma unwritten_same (last : option Z) v m pw :
  (last = None ↔ m < pw) → v = 0 ∨ pw ≤ m → (last = None ∧ v = 0 ↔ m < pw).
Proof. intros -> Hv. lia. Qed.

Lemma unwritten_minute (last : option Z) v m pw :
  0 ≤ m → 1 ≤ pw → (last = None ↔ m < pw) → v = 0 ∨ pw ≤ m →
  (last = None ∧ (if (m + 1) mod pw =? 0 then 1 else v) = 0 ↔ m + 1 < pw).
Proof.
  intros Hm Hpw -> Hv. destruct (Z.eqb_spec ((m + 1) mod pw) 0) as [E|E].
  - split; [lia|]. intros Hlt. rewrite Z.mod_small in E by lia. lia.
  - split; [|lia]. intros [Hlt _]. destruct (decide (m + 1 = pw)) as [Heq|]; [|lia].
    by rewrite Heq, Z_mod_same_full in E.
Qed.

Lemma tick_in_time s u s' :
  wf s → running s = 1 → 1 ≤ period_food s → 1 ≤ period_water s → minutes s < 2 ^ 31 - 1 →
  valve_enter_enabled s = 0 ∨ period_water s ≤ minutes s →
  outputs_in_time s → tick s = Ok (u, s') → outputs_in_time s'.
Proof.
  intros Hs Hrun Hpf Hpw Hmin Hv (D & B & L & V) E. pose proof Hs as Hs'. unfold wf, wf_upto in Hs'. destruct_and! Hs'.
  unfold tick, bind in E.
  destruct (tick_second s) as [[[] s1]|] eqn:E1; [|done]. cbn [res_bind] in E.
  destruct (tick_minute s1) as [[[] s2]|] eqn:E2; [|done]. cbn [res_bind] in E.
  pose proof (wp_ok_inv _ _ _ _ _ (tick_second_spec s Hs) E1) as (Set1 & Fl1 & B1 & M1 & C1).
  pose proof (tick_second_out _ _ _ Hs E1) as O1.
  unfold same_settings, same_flags in Set1, Fl1. destruct_and!.
  assert (after_minute s1 s2) as (Set2 & B2 & Ms2 & C2).
  { refine (wp_ok_inv _ _ _ _ _ (tick_minute_spec s1 _ _ _ _ _) E2); try lia; done. }
  pose proof (tick_minute_out _ _ _ E2) as [K2 O2].
  pose proof (wp_ok_inv _ _ _ _ _ (tick_actuators_spec s2 B2) E) as (Set3 & B3 & Ms3 & S3 & M3 & Mo3 & V3).
  pose proof (tick_actuators_out _ _ _ E) as (K3 & L3 & D3 & N3).
  unfold same_settings, same_flags in Set2, Set3. destruct_and!.
  unfold outputs_in_time. rewrite D3, L3, N3, K3, K2, S3, M3.
  replace (period_water s') with (period_water s) by congruence.
  destruct C1 as [(? & ? & ?)|(? & ? & ?)], O1 as [(? & O1 & K1)|(? & O1 & K1)]; try lia;
    destruct C2 as [(? & ? & ? & ? & ?)|(? & ? & ? & _ & V2)], O2 as [(? & O2)|(? & O2)]; try lia;
    rewrite O2, O1, K1; cbn [last_write last_shown].
  - replace (seconds s2) with (seconds s) by congruence. replace (minutes s2) with (minutes s) by congruence.
    replace (valve_enter_enabled s2) with (valve_enter_enabled s) by congruence.
    split_and!; [done..|by apply unwritten_same].
  - replace (seconds s2) with (seconds s + 1) by congruence. replace (minutes s2) with (minutes s) by congruence.
    replace (valve_enter_enabled s2) with (valve_enter_enabled s) by congruence.
    split_and!; [done| | |by apply unwritten_same].
    + rewrite B. Z.to_euclidean_division_equations. lia.
    + rewrite (proj2 (Z.eqb_neq (seconds s + 1) 0)), andb_false_r by lia. simpl. f_equal. lia.
  - replace (seconds s2) with 0 by congruence. replace (minutes s2) with (minutes s + 1) by congruence.
    assert (seconds s = 59) as E59 by lia. rewrite E59 in B. change (59 mod 2) with 1 in B.
    split_and!.
    + rewrite M1. simpl. rewrite D. by apply shown_step.
    + change (0 mod 2) with 0. lia.
    + rewrite (proj2 (Z.eqb_neq (minutes s + 1) 0)) by lia. simpl. f_equal. lia.
    + rewrite V2. replace (minutes s2) with (minutes s + 1) by congruence.
      replace (period_water s1) with (period_water s) by congruence.
      replace (valve_enter_enabled s1) with (valve_enter_enabled s) by congruence.
      by apply unwritten_minute.
Qed.

Lemma valve_early s : wf s → on_schedule s → 1 ≤ period_water s →
  valve_enter_enabled s = 0 ∨ period_water s ≤ minutes s.
Proof.
  intros Hs [_ Hv] Hpw. unfold wf, wf_upto in Hs. destruct_and! Hs. rewrite Hv. unfold valve_at, due, elapsed.
  split_ifs; simpl; try lia; destruct (Z.leb_spec (3000 * period_water s)
    ((minutes s * 60 + seconds s) * 50 + miliseconds s)); simpl; lia.
Qed.

(** The time LED is lit in the even seconds, but not in second 0. *)
Lemma time_led n b m sec ms :
  b = 8 * (sec mod 2) → n / 50 = m * 60 + sec → (m * 60 + sec) * 50 + ms = n →
  0 ≤ m → 0 ≤ sec < 60 → 0 ≤ ms < 50 →
  Z.testbit (if (m =? 0) && (sec =? 0) then 0 else 8 - b) 3 = (100 <=? n) && Z.even (n / 50).
Proof.
  intros -> -> Hn Hm Hs Hms. rewrite Zmod_even, Z.even_add, Z.even_mul.
  change (Z.even 60) with true. rewrite orb_true_r.
  destruct (Z.eqb_spec m 0), (Z.eqb_spec sec 0), (Z.even sec) eqn:E, (Z.leb_spec 100 n);
    simpl; try done; subst; try done; try lia.
  assert (sec = 1) as -> by lia. done.
Qed.

Section Machine.
Context {hw : Type} `{Stm32Gpio hw}.

(** ** Writes *)

(** [write(fd, &b, 1)] on the device. *)
Definition perform (e : dev * Z) (h : hw) : res (Z * hw) :=
  match e.1 with
  | Led => leds_write (Some [e.2]) 1 h
  | Display => display_write (Some [e.2]) 1 h
  | Valve => valve_write (Some [e.2]) 1 h
  | Motor => motor_write (Some [e.2]) 1 h
  end.

(** Several writes, the oldest first; the results are ignored, as in the
    source. *)
Fixpoint replay (es : list (dev * Z)) (h : hw) : res hw :=
  match es with
  | [] => Ok h
  | e :: es => res_bind (perform e h) (λ r, replay es r.2)
  end.

(** ** The machine *)

Record machine : Type := mkmachine { app : feeder; board : hw }.

(** The writes that led from [s] to [s'], the oldest first. *)
Definition new_writes (s s' : feeder) : list (dev * Z) :=
  rev (take (length (out s') - length (out s)) (out s')).

Definition on_board (op : M feeder unit) : M machine unit := λ m,
  res_bind (op (app m)) (λ r,
  res_bind (replay (new_writes (app m) r.2) (board m)) (λ h,
  Ok (tt, mkmachine r.2 h))).

(** The variable [key] of [read_button] is not initialised: [stack] is what it
    holds. *)
Definition read_button (stack : Z) : M machine Z := λ m,
  res_bind (button_read (Some [stack]) 1 (board m)) (λ r,
  Ok (match r.2 with Some (key :: _) => key | _ => stack end, m)).

Definition set_inputs (f : hw → hw) : M machine unit :=
  modify (λ m, mkmachine (app m) (f (board m))).

Definition iteration (f : hw → hw) : M machine unit :=
  set_inputs f ;;;
  btkey <-- read_button 0 ;;
  on_board (handle_key btkey) ;;;
  on_board tick.

Fixpoint loop (fs : list (hw → hw)) : M machine unit :=
  match fs with
  | [] => ret tt
  | f :: fs => iteration f ;;; loop fs
  end.

(** The results of the five calls of [open]. *)
Record descriptors : Type := mkfds
  { fd_led : Z; fd_button : Z; fd_display : Z; fd_valve : Z; fd_motor : Z }.

(** The value [dogfeed_main] returns, or [None] when it is still running after
    the given iterations. *)
Definition dogfeed_main (fds : descriptors) (pid : Z) (fs : list (hw → hw)) :
    M machine (option Z) :=
  modify (λ m, mkmachine (app m) (fst (nsh_archinitialize (board m)))) ;;;
  if fd_led fds <? 0 then ret (Some (- ENOENT))
  else if fd_button fds <? 0 then ret (Some (- ENOENT))
  else if fd_display fds <? 0 then ret (Some (- ENOENT))
  else if fd_valve fds <? 0 then ret (Some (- ENOENT))
  else if fd_motor fds <? 0 then ret (Some (- ENOENT))
  else
    on_board startup ;;;
    if pid <? 0 then ret (Some pid)
    else loop fs ;;; ret None.

(** ** What the writes do to the pins *)

Definition led_pins : list Z := [LED_FOOD; LED_WATER; LED_PERIOD; LED_TIME].

(** The levels after the writes [es], the newest first: the actuators, the LEDs
    and the display. *)
Record act_levels (es : list (dev * Z)) (h : hw) : Prop := mkacts {
  lv_motor : pin_out MOTOR_PWM h = from_option (λ b, Z.testbit b 0) false (last_write Motor es);
  lv_dir : pin_out MOTOR_DIR h = true;
  lv_enter : pin_out VALVE_ENTER h = from_option (λ b, Z.testbit b 0) true (last_write Valve es);
  lv_exit : pin_out VALVE_EXIT h = from_option (λ b, Z.testbit b 1) true (last_write Valve es) }.

Definition led_levels (es : list (dev * Z)) (h : hw) : Prop :=
  (λ p, pin_out p h) <$> led_pins =
    from_option (λ b, (λ i, negb (Z.testbit b i)) <$> [0; 1; 2; 3]) [true; true; true; true]
      (last_write Led es).

Record levels (es : list (dev * Z)) (h : hw) : Prop := mklevels {
  lv_acts : act_levels es h;
  lv_leds : led_levels es h;
  lv_display : shows (last_shown es) h }.

(** Both digits of the display are decimal digits. *)
Definition digits_on (h : hw) : Prop := ∃ v, 0 ≤ v < 100 ∧ shows v h.

Context `{!Stm32GpioLaws hw}.

(** Same levels on all outputs. *)
Definition same_out (h h' : hw) : Prop := ∀ p, is_port p → odr p h' = odr p h.

Lemma shows_same v h h' : odr 2 h' = odr 2 h → odr 3 h' = odr 3 h → shows v h → shows v h'.
Proof. unfold shows. by intros -> ->. Qed.

Lemma gpiowrite_frame pin v h q :
  is_port (pin_port pin) → is_port q → q ≠ pin_port pin →
  odr q (stm32_gpiowrite pin v h) = odr q h.
Proof.
  intros Hp Hq Hne. apply Z.bits_inj'. intros i Hi. rewrite gpiowrite_odr by done.
  by rewrite (proj2 (Z.eqb_neq _ _)) by done.
Qed.

Ltac port := by apply pin_port_is_port.

(** The display is wired to ports of its own. *)
Lemma writes_keep_display e h r : e.1 ≠ Display → perform e h = Ok r →
  odr 2 r.2 = odr 2 h ∧ odr 3 r.2 = odr 3 h.
Proof.
  assert (is_port 2 ∧ is_port 3) as [? ?] by (unfold is_port, STM32_NGPIO_PORTS; lia).
  unfold perform. destruct e as [[] b]; intros Hd; try done; cbn [fst snd];
    unfold leds_write, valve_write, motor_write, with_byte; cbn [Z.ltb Z.compare];
    intros [= <-]; cbn [snd]; split; rewrite !gpiowrite_frame; done || port.
Qed.

(** What a write of one byte does to the levels. *)
Lemma perform_parts d b es h :
  0 ≤ b < 256 → ∃ h', perform (d, b) h = Ok (1, h') ∧
    (act_levels es h → act_levels ((d, b) :: es) h') ∧
    (led_levels es h → led_levels ((d, b) :: es) h') ∧
    (shows (last_shown es) h → shows (last_shown ((d, b) :: es)) h') ∧
    (digits_on h → digits_on h').
Proof.
  intros Hb.
  destruct (device_writes_spec b [] 1 h Hb) as ((h1 & E1 & P1) & (h2 & E2 & P2) & (h3 & E3 & P3)); [done|].
  unfold driven_pins, bit_set in *. destruct d.
  - exists h1. destruct (writes_keep_display (Led, b) h (1, h1)) as [O2 O3]; [done..|].
    injection P1 as Q1 Q2 Q3 Q4 Q5 Q6 Q7 Q8. split_and!; [done| | | |].
    + intros [L1 L2 L3 L4]. split; simpl in *; congruence.
    + intros _. unfold led_levels, led_pins. simpl in *. congruence.
    + by apply shows_same.
    + intros (v & Hv & Hs). exists v. split; [done|]. by eapply shows_same.
  - destruct (display_write_spec b [] 1 h Hb) as (h4 & E4 & Hhi & Hlo); [done|].
    exists h4. split; [done|]. destruct (Z.ltb_spec b 100) as [Hlt|Hge].
    + destruct (Hlo Hlt) as (Hs & _ & _ & Hp).
      assert (∀ pin, is_port (pin_port pin) → pin_port pin ≠ 2 → pin_port pin ≠ 3 →
        pin_out pin h4 = pin_out pin h) as Hpin by (intros; unfold pin_out; by rewrite Hp).
      split_and!; simpl.
      * intros [L1 L2 L3 L4]. split; simpl; rewrite ?Hpin by (done || port); done.
      * unfold led_levels, led_pins. cbn [fmap list_fmap]. by rewrite !Hpin by (done || port).
      * intros _. by rewrite (proj2 (Z.ltb_lt b 100)).
      * intros _. exists b. split; [lia|done].
    + rewrite (Hhi Hge). split_and!; simpl; try done.
      * intros [L1 L2 L3 L4]. by split.
      * by rewrite (proj2 (Z.ltb_ge b 100)).
  - exists h3. destruct (writes_keep_display (Valve, b) h (1, h3)) as [O2 O3]; [done..|].
    injection P3 as Q1 Q2 Q3 Q4 Q5 Q6 Q7 Q8. split_and!; [done| | | |].
    + intros [L1 L2 L3 L4]. split; simpl in *; congruence.
    + unfold led_levels, led_pins. simpl in *. congruence.
    + by apply shows_same.
    + intros (v & Hv & Hs). exists v. split; [done|]. by eapply shows_same.
  - exists h2. destruct (writes_keep_display (Motor, b) h (1, h2)) as [O2 O3]; [done..|].
    injection P2 as Q1 Q2 Q3 Q4 Q5 Q6 Q7 Q8. split_and!; [done| | | |].
    + intros [L1 L2 L3 L4]. split; simpl in *; congruence.
    + unfold led_levels, led_pins. simpl in *. congruence.
    + by apply shows_same.
    + intros (v & Hv & Hs). exists v. split; [done|]. by eapply shows_same.
Qed.

(** A relation between the bytes written and the registers that every write
    keeps. *)
Class Tracked (L : list (dev * Z) → hw → Prop) : Prop :=
  tracked d b es h : 0 ≤ b < 256 → L es h →
    ∃ h', perform (d, b) h = Ok (1, h') ∧ L ((d, b) :: es) h'.

#[export] Instance tracked_levels : Tracked levels.
Proof.
  intros d b es h Hb [L1 L2 L3].
  destruct (perform_parts d b es h Hb) as (h' & E & H1 & H2 & H3 & _).
  exists h'. split; [done|]. split; auto.
Qed.

Section Tracked.
Context {L : list (dev * Z) → hw → Prop} `{!Tracked L}.

Lemma replay_levels es es0 h :
  L es0 h → Forall ok_write es → ∃ h', replay es h = Ok h' ∧ L (rev es ++ es0) h'.
Proof.
  intros Hl Hes. revert es0 h Hl. induction Hes as [|[d b] es [Hb _] Hes IH]; intros es0 h Hl.
  - by exists h.
  - destruct (tracked d b es0 h Hb Hl) as (h1 & E & Hl1).
    destruct (IH _ _ Hl1) as (h2 & E2 & Hl2). exists h2. cbn [replay]. rewrite E. simpl.
    split; [done|]. by rewrite <- app_assoc.
Qed.

Lemma on_board_spec op (m : machine) s' u :
  Moves writes op → L (out (app m)) (board m) → op (app m) = Ok (u, s') →
  ∃ h', on_board op m = Ok (tt, mkmachine s' h') ∧ L (out s') h'.
Proof.
  intros Hop Hl E. destruct (Hop _ _ _ E) as (es & Eo & Hes). unfold on_board. rewrite E. cbn [res_bind snd].
  assert (new_writes (app m) s' = rev es) as ->.
  { unfold new_writes. rewrite Eo, length_app.
    replace (length es + _ - _)%nat with (length es) by lia. by rewrite take_app_length. }
  destruct (replay_levels (rev es) _ _ Hl) as (h' & E' & Hl'); [by apply Forall_rev|].
  rewrite E'. exists h'. split; [done|]. by rewrite Eo, <- (rev_involutive es).
Qed.

Lemma on_board_inv op (m m' : machine) :
  Moves writes op → L (out (app m)) (board m) → on_board op m = Ok (tt, m') →
  op (app m) = Ok (tt, app m') ∧ L (out (app m')) (board m').
Proof.
  intros Hop Hl E. destruct (op (app m)) as [[[] s']|] eqn:E1.
  - destruct (on_board_spec op m s' tt Hop Hl E1) as (h' & E2 & Hl'). rewrite E2 in E.
    by injection E as <-.
  - unfold on_board in E. by rewrite E1 in E.
Qed.
End Tracked.

(** The display shows 00 after start-up. *)
Lemma startup_shows h : shows 0 (fst (nsh_archinitialize h)).
Proof.
  unfold nsh_archinitialize, up_led, up_display, up_button, up_valve, up_motor. cbn [fst snd].
  destruct (show_digits_glyphs (nth 0 digits1 0) (nth 0 digits2 0)
    (config_all display_pins (config_all [LED_FOOD; LED_WATER; LED_PERIOD; LED_TIME] h))) as [G1 G2].
  set (h1 := show_digits _ _ _) in *.
  assert (∀ p, p = 2 ∨ p = 3 → odr p (stm32_gpiowrite MOTOR_DIR true (stm32_gpiowrite MOTOR_PWM false
    (config_all [MOTOR_DIR; MOTOR_PWM] (config_all [VALVE_ENTER; VALVE_EXIT]
      (config_all g_buttons h1))))) = odr p h1) as Ho.
  { intros p Hp. assert (is_port p) by (unfold is_port, STM32_NGPIO_PORTS; lia).
    apply Z.bits_inj'. intros i Hi. rewrite !gpiowrite_frame by (port || done || (destruct Hp; subst; done)).
    rewrite !config_all_out, config_all_in by done. destruct Hp; subst; done. }
  unfold shows. rewrite !Ho by tauto. rewrite G1, G2. split; reflexivity.
Qed.

Lemma boot_levels h : levels [] (fst (nsh_archinitialize h)).
Proof.
  destruct (startup_levels h) as (H1 & H2 & H3 & H4 & H5 & _).
  split; [by split|done|apply startup_shows].
Qed.

(** ** The machine at boot *)

Definition powered (h : hw) : machine := mkmachine initial (fst (nsh_archinitialize h)).

Record machine_ok (m : machine) : Prop := mkok {
  ok_wf : wf (app m);
  ok_levels : levels (out (app m)) (board m);
  ok_acts : actuators_ok (app m);
  ok_writes : Forall ok_write (out (app m)) }.

Lemma same_out_parts es h h' : same_out h h' →
  (act_levels es h → act_levels es h') ∧ (led_levels es h → led_levels es h') ∧
  (∀ v, shows v h → shows v h').
Proof.
  intros Ho.
  assert (∀ pin, is_port (pin_port pin) → pin_out pin h' = pin_out pin h) as Hp
    by (intros; unfold pin_out; by rewrite Ho).
  split_and!.
  - intros [L1 L2 L3 L4]. split; rewrite ?Hp by port; done.
  - unfold led_levels, led_pins. cbn [fmap list_fmap]. by rewrite !Hp by port.
  - intros v. unfold shows. by rewrite !Ho.
Qed.

Lemma same_out_levels es h h' : same_out h h' → levels es h → levels es h'.
Proof.
  intros Ho [L1 L2 L3]. destruct (same_out_parts es h h' Ho) as (H1 & H2 & H3). split; auto.
Qed.

Lemma on_board_ok op m m' :
  Moves writes op → (∀ u s', op (app m) = Ok (u, s') → wf s' ∧ actuators_ok s') →
  machine_ok m → on_board op m = Ok (tt, m') → machine_ok m'.
Proof.
  intros Hw Hop [O1 O2 O3 O4] E. destruct (on_board_inv _ _ _ Hw O2 E) as [E1 Hl].
  destruct (Hop _ _ E1) as [? ?]. split; [done..|].
  destruct (Hw _ _ _ E1) as (es & -> & Hes). by apply Forall_app.
Qed.

Lemma inputs_ok m h : same_out (board m) h → machine_ok m → machine_ok (mkmachine (app m) h).
Proof. intros Ho [O1 O2 O3 O4]. split; [done| |done|done]. by eapply same_out_levels. Qed.

Lemma tick_ok m m' : on_board tick m = Ok (tt, m') → machine_ok m → machine_ok m'.
Proof.
  intros E Hok. pose proof Hok as [O1 _ O3 _].
  eapply on_board_ok; [apply writes_tick| |done|done]. intros [] s' E'.
  split; [by eapply tick_keeps|by eapply tick_follow].
Qed.

Lemma boot_ok h m : on_board startup (powered h) = Ok (tt, m) → machine_ok m.
Proof.
  apply on_board_ok; [apply _| |].
  - intros u s' E. split; [|by eapply passive_ok; [eapply passive_startup|split; right]].
    vm_compute in E. injection E as _ <-. vm_compute. intuition congruence.
  - split; [apply initial_wf|apply boot_levels|split; right; done|constructor].
Qed.

Lemma last_write_ok d es b : Forall ok_write es → last_write d es = Some b → ok_write (d, b).
Proof.
  intros Hes. induction Hes as [|[d' b'] es He Hes IH]; simpl; [done|].
  destruct (decide (d' = d)) as [->|]; [intros [= <-]; done|done].
Qed.

Lemma last_shown_range es : Forall ok_write es → 0 ≤ last_shown es < 100.
Proof.
  intros Hes. induction Hes as [|[[] b] es [Hb _] Hes IH]; simpl in *; try lia.
  destruct (Z.ltb_spec b 100); lia.
Qed.

(** Bit 0 of the last byte written is the flag. *)
Lemma follows_level flag last d : 0 ≤ flag ≤ 1 → follows flag last →
  from_option (λ b, Z.testbit b 0) d last = (flag =? 1) ∧ last = Some flag ∧
    from_option (λ b, Z.testbit b 1) d last = false ∨
  last = None ∧ flag = 0.
Proof.
  intros Hf [->|[-> ->]]; [left|by right]. simpl.
  assert (flag = 0 ∨ flag = 1) as [->| ->] by lia; done.
Qed.

Definition lit_leds (h : hw) : list Z := filter (λ p, pin_out p h = false) led_pins.

Lemma levels_leds es h : Forall ok_write es → led_levels es h → (length (lit_leds h) ≤ 1)%nat.
Proof.
  intros Hes L5. unfold lit_leds, led_levels, led_pins in *. cbn [fmap list_fmap] in L5.
  destruct (last_write Led es) as [b|] eqn:E; simpl in L5.
  - destruct (last_write_ok _ _ _ Hes E) as [_ Hb]. specialize (Hb eq_refl).
    unfold led_bytes, PERCENT_FOOD, PERIOD_FOOD, PERIOD_WATER, CONFIRM_MODE in Hb. simpl in Hb.
    rewrite !elem_of_cons, elem_of_nil in Hb. injection L5 as L1 L2 L3 L4.
    rewrite !filter_cons, L1, L2, L3, L4. destruct_or! Hb; subst; simpl; lia || done.
  - injection L5 as L1 L2 L3 L4. rewrite !filter_cons, L1, L2, L3, L4. simpl. lia.
Qed.

(** ** An undisturbed run *)

Definition released (h : hw) : Prop := ∀ k, k ∈ g_buttons → stm32_gpioread k h = true.

(** The outside world keeps all buttons released. *)
Definition quiet (f : hw → hw) : Prop := ∀ h, same_out h (f h) ∧ released (f h).

Lemma scan_released keys i r h :
  (∀ k, k ∈ keys → stm32_gpioread k h = true) → scan_buttons keys i r h = r.
Proof.
  revert i. induction keys as [|k keys IH]; intros i Hk; simpl; [done|].
  rewrite (Hk k) by by left. simpl. apply IH. intros k' Hk'. apply Hk. by right.
Qed.

Lemma read_released stack m : released (board m) → read_button stack m = Ok (0, m).
Proof.
  intros Hr. unfold read_button, button_read, with_byte. cbn [Z.ltb Z.compare].
  by rewrite scan_released.
Qed.

Record idle_ok (n : Z) (m : machine) : Prop := mkidle {
  id_ok : machine_ok m;
  id_set : same_settings initial (app m);
  id_time : elapsed (app m) = n;
  id_sched : on_schedule (app m);
  id_outs : outputs_in_time (app m) }.

Lemma set_inputs_idle f n m : quiet f → idle_ok n m →
  ∃ m1, set_inputs f m = Ok (tt, m1) ∧ idle_ok n m1 ∧ released (board m1).
Proof.
  intros Hq [H1 H2 H3 H4 H5]. destruct (Hq (board m)) as [Ho Hr].
  exists (mkmachine (app m) (f (board m))). split; [done|]. split; [|done].
  split; [|done..]. by apply inputs_ok.
Qed.

Lemma handle_none m : on_board (handle_key 0) m = Ok (tt, m).
Proof.
  unfold on_board, handle_key, new_writes. simpl. rewrite Nat.sub_diag. by destruct m.
Qed.

Lemma tick_idle n m : n + 1 < 3000 * (2 ^ 31 - 1) → idle_ok n m →
  ∃ m', on_board tick m = Ok (tt, m') ∧ idle_ok (n + 1) m'.
Proof.
  intros Hn [Hok Hset Ht Hsch Hout]. pose proof Hok as [O1 O2 O3 O4].
  pose proof Hset as (F & W & P & R & _). simpl in F, W, P, R. unfold TRUE in R.
  assert (minutes (app m) < 2 ^ 31 - 1) as Hmin.
  { unfold elapsed in Ht. unfold wf, wf_upto in O1. destruct_and! O1. lia. }
  destruct (wp_run _ _ _ (tick_schedule (app m) O1 R ltac:(lia) ltac:(lia) Hmin Hsch))
    as ([] & s' & E & Hw & Hset' & Ht' & Hsch').
  destruct (on_board_spec tick m s' tt _ O2 E) as (h' & Eb & _).
  exists (mkmachine s' h'). split; [done|]. split; cbn [app].
  - by eapply tick_ok.
  - unfold same_settings in *. intuition congruence.
  - lia.
  - done.
  - eapply tick_in_time; [exact O1|exact R|lia|lia|exact Hmin| |exact Hout|exact E].
    apply valve_early; [done|done|lia].
Qed.

Lemma loop_idle fs n m :
  Forall quiet fs → n + Z.of_nat (length fs) < 3000 * (2 ^ 31 - 1) → idle_ok n m →
  ∃ m', loop fs m = Ok (tt, m') ∧ idle_ok (n + Z.of_nat (length fs)) m'.
Proof.
  intros Hfs. revert n m. induction Hfs as [|f fs Hf Hfs IH]; intros n m Hn Hm.
  - exists m. simpl. by rewrite Z.add_0_r.
  - rewrite length_cons, Nat2Z.inj_succ in *. destruct (set_inputs_idle f n m Hf Hm) as (m1 & E1 & Hm1 & Hr).
    destruct (tick_idle n m1) as (m2 & E2 & Hm2); [lia|done|].
    destruct (IH (n + 1) m2) as (m3 & E3 & Hm3); [lia|done|].
    exists m3. split; [|by replace (n + Z.succ (Z.of_nat (length fs))) with (n + 1 + Z.of_nat (length fs)) by lia].
    cbn [loop]. unfold iteration. unfold bind. rewrite E1. cbn [res_bind]. rewrite read_released by done.
    cbn [res_bind]. rewrite handle_none. cbn [res_bind]. rewrite E2. cbn [res_bind]. exact E3.
Qed.

(** Of the bytes 0 and 8 only bit 3, the time LED, may be set. *)
Lemma time_only b h :
  (λ p, pin_out p h) <$> led_pins = (λ i, negb (Z.testbit b i)) <$> [0; 1; 2; 3] → b = 0 ∨ b = 8 →
  lit_leds h = if Z.testbit b 3 then [LED_TIME] else [].
Proof.
  intros E Hb. unfold lit_leds, led_pins in *. cbn [fmap list_fmap] in E. injection E as L1 L2 L3 L4.
  rewrite !filter_cons, L1, L2, L3, L4. destruct Hb as [-> | ->]; done.
Qed.

(** The pins at iteration [n]. *)
Lemma idle_pins n m : 0 ≤ n → idle_ok n m →
  pin_out MOTOR_PWM (board m) = due 10 26 n ∧
  pin_out MOTOR_DIR (board m) = true ∧
  pin_out VALVE_ENTER (board m) = (n <? 63000) || due 21 51 n ∧
  pin_out VALVE_EXIT (board m) = (n <? 63000) ∧
  lit_leds (board m) = (if (100 <=? n) && Z.even (n / 50) then [LED_TIME] else []) ∧
  shows (shown (n / 3000)) (board m).
Proof.
  intros Hn [[O1 [[L1 LD L3 L4] L5 L6] [F1 F2] _] (PF & PW & PC & _) Ht [Sm Sv] (D & B & L & V)].
  simpl in PF, PW, PC. unfold wf, wf_upto in O1. set (a := app m) in *.
  assert (0 ≤ motor_enabled a ≤ 1 ∧ 0 ≤ valve_enter_enabled a ≤ 1) as [B1 B2] by tauto.
  assert (n / 3000 = minutes a ∧ n / 50 = minutes a * 60 + seconds a) as [Em Es].
  { unfold elapsed in Ht. destruct_and! O1. split; symmetry.
    - apply (Z.div_unique_pos _ _ _ (seconds a * 50 + miliseconds a)); lia.
    - apply (Z.div_unique_pos _ _ _ (miliseconds a)); lia. }
  assert (motor_enabled a = Z.b2z (due 10 26 n)) as Em2.
  { rewrite Sm. unfold motor_at. by rewrite PF, PC, Ht. }
  assert (valve_enter_enabled a = Z.b2z (due 21 51 n)) as Ev2.
  { rewrite Sv. unfold valve_at. by rewrite PW, PC, Ht. }
  assert ((n <? 63000) = true ↔ last_write Valve (out a) = None) as Hnone.
  { rewrite V, PW, <- Em, Z.ltb_lt. Z.to_euclidean_division_equations. lia. }
  rewrite PW in V. split_and!; [|exact LD|..].
  - rewrite L1. destruct (follows_level _ _ false B1 F1) as [[-> _]|[-> E0]]; rewrite Em2 in *;
      by destruct (due 10 26 n).
  - rewrite L3. destruct (follows_level _ _ true B2 F2) as [(-> & E & _)|[E E0]].
    + rewrite Ev2. destruct (n <? 63000); [rewrite E in Hnone; by apply proj1, (λ f, f eq_refl) in Hnone|].
      by destruct (due 21 51 n).
    + rewrite E. by rewrite (proj2 Hnone E).
  - rewrite L4. destruct (follows_level _ _ true B2 F2) as [(_ & E & ->)|[E E0]].
    + destruct (n <? 63000); [rewrite E in Hnone; by apply proj1, (λ f, f eq_refl) in Hnone|done].
    + rewrite E. by rewrite (proj2 Hnone E).
  - unfold led_levels in L5. rewrite L in L5.
    rewrite <- (time_led n (blink a) (minutes a) (seconds a) (miliseconds a)) by (tauto || done).
    apply (time_only _ _ L5). rewrite B. destruct (_ && _); [by left|].
    assert (seconds a mod 2 = 0 ∨ seconds a mod 2 = 1) as [-> | ->]
      by (Z.to_euclidean_division_equations; lia); [by right|by left].
  - rewrite Em, <- D. exact L6.
Qed.


Lemma boot_idle h : ∃ m, on_board startup (powered h) = Ok (tt, m) ∧ idle_ok 0 m.
Proof.
  assert (startup initial = Ok (tt, emit Display 0 (emit Led 0 initial))) as E by (vm_compute; reflexivity).
  destruct (on_board_spec startup (powered h) _ tt _ (boot_levels h) E) as (h' & Eb & _).
  exists (mkmachine (emit Display 0 (emit Led 0 initial)) h'). split; [exact Eb|].
  split; cbn [app].
  - exact (boot_ok _ _ Eb).
  - repeat split.
  - reflexivity.
  - split; vm_compute; reflexivity.
  - clear E Eb. split; [|split; [|split]]; [vm_compute; reflexivity..|].
    split; intros _; reflexivity.
Qed.

(** The descriptors are valid. *)
Definition opened (fds : descriptors) : Prop :=
  0 ≤ fd_led fds ∧ 0 ≤ fd_button fds ∧ 0 ≤ fd_display fds ∧ 0 ≤ fd_valve fds ∧ 0 ≤ fd_motor fds.

(** C1: the feeder from power-up.  When the devices open and the server task
    starts, [dogfeed_main] runs, whatever the registers held before; after
    [n] iterations (20 ms each) in which no button is pressed and no client
    calls, for every [n] below 3000 (2^31 - 1) (at which the minute counter
    would overflow, after some 4000 years), the motor runs forwards exactly in
    the first 26 seconds of every tenth minute, the inlet valve is driven in the
    first 51 seconds of every 21st minute and before the first such minute, the
    outlet valve before it only, the time LED is lit in the even seconds from
    the second one on, the three other LEDs are never lit, and the display
    shows the minutes modulo 256, or 99 while those are 100 or more. *)
Theorem undisturbed_board h fds pid fs :
  let n := Z.of_nat (length fs) in
  opened fds → 0 ≤ pid → Forall quiet fs → n < 3000 * (2 ^ 31 - 1) →
  ∃ m, dogfeed_main fds pid fs (mkmachine initial h) = Ok (None, m) ∧
    pin_out MOTOR_PWM (board m) = due 10 26 n ∧
    pin_out MOTOR_DIR (board m) = true ∧
    pin_out VALVE_ENTER (board m) = (n <? 63000) || due 21 51 n ∧
    pin_out VALVE_EXIT (board m) = (n <? 63000) ∧
    lit_leds (board m) = (if (100 <=? n) && Z.even (n / 50) then [LED_TIME] else []) ∧
    shows (shown (n / 3000)) (board m).
Proof.
  intros n Hfds Hpid Hfs Hn. destruct (boot_idle h) as (m0 & E0 & Hm0).
  destruct (loop_idle fs 0 m0 Hfs ltac:(lia) Hm0) as (m & E & Hm). exists m. split.
  - unfold dogfeed_main. unfold bind at 1, modify. cbn [res_bind app board]. unfold opened in Hfds.
    rewrite !(proj2 (Z.ltb_ge _ 0)) by lia. unfold bind. fold (powered h). rewrite E0. cbn [res_bind].
    rewrite E. done.
  - apply idle_pins; [lia|done].
Qed.

(** C35: [dogfeed_main] returns [-ENOENT] when a device does not open, before
    it writes to any of them, and the result of [task_create] when that
    fails; the settings are as they were in both cases. *)
Theorem main_start_errors h fds pid fs :
  (¬ opened fds → dogfeed_main fds pid fs (mkmachine initial h) = Ok (Some (- ENOENT), powered h)) ∧
  (opened fds → pid < 0 →
    ∃ m, dogfeed_main fds pid fs (mkmachine initial h) = Ok (Some pid, m) ∧
      out (app m) = [(Display, 0); (Led, 0)] ∧ same_settings initial (app m)).
Proof.
  unfold dogfeed_main, opened. split; unfold bind at 1, modify; cbn [res_bind app board].
  - intros Hf. destruct (Z.ltb_spec (fd_led fds) 0), (Z.ltb_spec (fd_button fds) 0),
      (Z.ltb_spec (fd_display fds) 0), (Z.ltb_spec (fd_valve fds) 0), (Z.ltb_spec (fd_motor fds) 0);
      try reflexivity. lia.
  - intros Hf Hp. rewrite !(proj2 (Z.ltb_ge _ 0)) by lia. rewrite (proj2 (Z.ltb_lt pid 0)) by done.
    destruct (boot_idle h) as (m0 & E0 & Hm0). unfold bind. fold (powered h). rewrite E0. cbn [res_bind].
    exists m0. split; [done|]. pose proof (id_set _ _ Hm0). split; [|done].
    apply on_board_inv in E0 as [E0 _]; [|apply _|apply boot_levels].
    assert (startup initial = Ok (tt, emit Display 0 (emit Led 0 initial))) as E1
      by (vm_compute; reflexivity).
    change (app (powered h)) with initial in E0. rewrite E1 in E0.
    assert (app m0 = emit Display 0 (emit Led 0 initial)) as -> by congruence. reflexivity.
Qed.

End Machine.

(** ** Witnesses, on the register file [F1] *)

Definition bare : F1.regs := F1.mkregs ∅ ∅.

(** All input pins are pulled up. *)
Definition pull_up (h : F1.regs) : F1.regs :=
  F1.mkregs (F1.kept h) (<[0 := 0xffff]> (<[1 := 0xffff]> (<[4 := 0xffff]> ∅))).

Lemma pulled_up x i : 0 ≤ i < 16 → negb (Z.land (Z.lor x 0xffff) (Z.shiftl 1 i) =? 0) = true.
Proof.
  intros Hi. rewrite Z.shiftl_1_l, (land_bit _ i) by (done || lia). rewrite negb_involutive, Z.lor_spec.
  change 65535 with (Z.ones 16). rewrite Z.ones_spec_low by lia. apply orb_true_r.
Qed.

Lemma pull_up_reads p h : p = 0 ∨ p = 1 ∨ p = 4 →
  getreg32 (gpiobase p + STM32_GPIO_IDR_OFFSET) (pull_up h) =
    Z.lor (F1.kept_at (gpiobase p + STM32_GPIO_ODR_OFFSET) h) 0xffff.
Proof. intros Hp. destruct_or! Hp; subst p; reflexivity. Qed.

Lemma pull_up_quiet : quiet pull_up.
Proof.
  intros h. split.
  - intros p Hp. by rewrite !F1.get_odr.
  - intros k Hk. unfold stm32_gpioread.
    assert ((pin_port k <? STM32_NGPIO_PORTS) = true ∧ (pin_port k = 0 ∨ pin_port k = 1 ∨ pin_port k = 4))
      as [-> Hp].
    { revert k Hk. apply Forall_forall. unfold g_buttons. repeat (apply Forall_cons_2; [vm_compute; tauto|]).
      apply Forall_nil_2. }
    rewrite pull_up_reads by done. apply pulled_up, pin_number_bound.
Qed.

Lemma undisturbed_board_witness :
  ∃ m, dogfeed_main (mkfds 3 4 5 6 7) 8 (replicate 30001 pull_up) (mkmachine initial bare) = Ok (None, m) ∧
    pin_out MOTOR_PWM (board m) = true ∧ shows 10 (board m).
Proof.
  destruct (undisturbed_board bare (mkfds 3 4 5 6 7) 8 (replicate 30001 pull_up)) as (m & E & M & _ & _ & _ & _ & D).
  - repeat split; discriminate.
  - discriminate.
  - apply Forall_replicate. exact pull_up_quiet.
  - rewrite length_replicate. vm_compute. reflexivity.
  - exists m. split; [exact E|]. rewrite length_replicate in M, D. split; [exact M|exact D].
Defined.

Lemma main_start_errors_witness :
  dogfeed_main (mkfds 3 4 (-2) 6 7) 8 [] (mkmachine initial bare) = Ok (Some (- ENOENT), powered bare).
Proof.
  apply (main_start_errors bare (mkfds 3 4 (-2) 6 7) 8 []). intros (_ & _ & H & _). apply H. reflexivity.
Defined.

End Feeder.
