(* ===== verification/Preempt.v ===== *)
(** * The board while the main task preempts the server

    The machine of [Feeder] with the server task run access by access
    ([Interleave]): an access to a shared variable is a step, and so is every
    register access of the driver that a byte written to the LEDs or the display
    reaches.  A step of the main task (the keys, or the timing code) and a
    change of the input pins may come between any two of them. *)

From stdpp Require Import relations.
From S2P Require Import Prelude Gpio Board Dogfeed Schedule Tasks Interleave Feeder.

Module Preempt.
Import Gpio Board Dogfeed Schedule Tasks Interleave Feeder.
#[local] Open Scope cmd_scope.

Section Machine.
Context {hw : Type} `{Stm32Gpio hw}.

(** ** Register accesses of the drivers *)

(** What is left of a [write]: a store that sets or resets one pin, a load of
    an output register, or a store of the value computed from it. *)
Inductive hact : Type :=
| SetPin (pin : Z) (v : bool)
| Fetch (reg mask digit : Z)
| Put (val reg : Z).

Definition register_access (a : hact) (h : hw) : list hact * hw :=
  match a with
  | SetPin pin v => ([], stm32_gpiowrite pin v h)
  | Fetch reg mask digit => ([Put (Z.lor (Z.land (getreg32 reg h) mask) digit) reg], h)
  | Put val reg => ([], putreg32 val reg h)
  end.

(** [leds_write], [display_write], [valve_write] and [motor_write] of a byte. *)
Definition accesses_of (d : dev) (b : Z) : list hact :=
  match d with
  | Led =>
      [SetPin LED_FOOD (Z.land b 0x01 =? 0); SetPin LED_WATER (Z.land b 0x02 =? 0);
       SetPin LED_PERIOD (Z.land b 0x04 =? 0); SetPin LED_TIME (Z.land b 0x08 =? 0)]
  | Display =>
      if 100 <=? b then []
      else
        let dgt1 := u8 (floor (b / 10)) in
        let dgt2 := u8 (b - dgt1 * 10) in
        match digits1 !! Z.to_nat dgt1, digits2 !! Z.to_nat dgt2 with
        | Some d1, Some d2 =>
            [Fetch STM32_GPIOC_ODR 0xFFFFE03F d1; Fetch STM32_GPIOD_ODR 0xFFFFFF00 d2]
        | _, _ => []
        end
  | Valve =>
      [SetPin VALVE_ENTER (negb (Z.land b 0x01 =? 0)); SetPin VALVE_EXIT (negb (Z.land b 0x02 =? 0))]
  | Motor => [SetPin MOTOR_PWM (negb (Z.land b 0x01 =? 0))]
  end.

(** All accesses, uninterrupted. *)
Fixpoint finish_driver (ds : list hact) (h : hw) : hw :=
  match ds with
  | [] => h
  | SetPin pin v :: ds => finish_driver ds (stm32_gpiowrite pin v h)
  | Fetch reg mask digit :: ds =>
      finish_driver ds (putreg32 (Z.lor (Z.land (getreg32 reg h) mask) digit) reg h)
  | Put val reg :: ds => finish_driver ds (putreg32 val reg h)
  end.

(** Uninterrupted, they are the driver's [write]. *)
Lemma finish_perform d b h : 0 ≤ b < 256 →
  perform (d, b) h = Ok (1, finish_driver (accesses_of d b) h).
Proof.
  intros Hb. unfold perform, leds_write, valve_write, motor_write, display_write, with_byte.
  destruct d; cbn [fst snd Z.ltb Z.compare accesses_of]; rewrite ?u8_small by done; try reflexivity.
  destruct (Z.leb_spec 100 b); [reflexivity|].
  destruct (decimal_digits b) as (-> & -> & H1 & H2); [lia|].
  destruct (digit_tables (b / 10) H1) as [(d1 & L1 & _) _].
  destruct (digit_tables (b mod 10) H2) as [_ (d2 & L2 & _)].
  rewrite L1, L2. reflexivity.
Qed.

(** ** The two tasks *)

(** What is left of the driver's [write] and of the call the server is in. *)
Record tasks : Type := mktasks { mach : machine (hw := hw); driver : list hact; call_left : proc }.

Definition driver_of (p : proc) : list hact :=
  match p with
  | Device d b _ => accesses_of d (u8 b)
  | _ => []
  end.

(** In a [calm] run the main task takes no step while the server is within a
    driver. *)
Inductive fstep (calm : bool) : tasks → tasks → Prop :=
| f_inputs m h ds p : same_out (board m) h →
    fstep calm (mktasks m ds p) (mktasks (mkmachine (app m) h) ds p)
| f_key m m' stack k ds p : (calm = true → ds = []) →
    read_button stack m = Ok (k, m) → on_board (handle_key k) m = Ok (tt, m') →
    fstep calm (mktasks m ds p) (mktasks m' ds p)
| f_tick m m' ds p : (calm = true → ds = []) →
    on_board tick m = Ok (tt, m') → fstep calm (mktasks m ds p) (mktasks m' ds p)
| f_call m c : fstep calm (mktasks m [] Done) (mktasks m [] (steps c))
| f_access m p :
    fstep calm (mktasks m [] p)
      (mktasks (mkmachine (access p (app m)).2 (board m)) (driver_of p) (access p (app m)).1)
| f_driver m a ds p :
    fstep calm (mktasks m (a :: ds) p)
      (mktasks (mkmachine (app m) (register_access a (board m)).2)
        ((register_access a (board m)).1 ++ ds) p).

Definition booted (m : machine (hw := hw)) : tasks := mktasks m [] Done.

(** ** What the server may still write *)

(** Only to the LEDs and the display, and to the LEDs only bytes that light at
    most one. *)
Fixpoint writes_left (p : proc) : Prop :=
  match p with
  | Done => True
  | Load _ k => ∀ v, writes_left (k v)
  | Store _ _ k => writes_left k
  | Device d b k => (d = Led ∨ d = Display) ∧ ok_write (d, u8 b) ∧ writes_left k
  end.

Lemma display_writes b k : writes_left k → writes_left (write_display_steps b k).
Proof. intros Hk. split; [by right|]. split; [|done]. split; [apply u8_bound|done]. Qed.

Lemma led_writes b k : writes_left k → writes_left (write_led_steps b k).
Proof.
  intros Hk. unfold write_led_steps. destruct (_ || _) eqn:E; [|done]. split; [by left|].
  split; [|done]. split; [apply u8_bound|]. intros _.
  assert (b ∈ led_bytes) as Hb by (unfold led_bytes; rewrite !orb_true_iff, !Z.eqb_eq in E; set_solver).
  cbn [snd]. rewrite u8_small; [done|].
  unfold led_bytes, PERCENT_FOOD, PERIOD_FOOD, PERIOD_WATER, CONFIRM_MODE in Hb.
  rewrite !elem_of_cons, elem_of_nil in Hb. lia.
Qed.

Lemma bump_writes m x may d k o :
  writes_left k → writes_left o → writes_left (bump_steps m x may d k o).
Proof.
  intros Hk Ho md. destruct (md =? m); [|done]. intros v. destruct (may v); [|done].
  intros v' y. by apply display_writes.
Qed.

Lemma running_writes v k : writes_left k → writes_left (set_running_steps v k).
Proof. intros Hk. unfold set_running_steps. by destruct (_ || _). Qed.

Lemma set_writes x (b : bool) v k : writes_left k → writes_left (set_steps x b v k).
Proof. intros Hk. destruct b; [|done]. intros y. by apply display_writes. Qed.

Lemma mode_writes v k : writes_left k → writes_left (set_mode_steps v k).
Proof. intros Hk. unfold set_mode_steps. destruct (_ || _); by apply led_writes. Qed.

Lemma steps_writes c : writes_left (steps c).
Proof.
  destruct c; simpl.
  - by apply running_writes.
  - by apply mode_writes.
  - by apply set_writes.
  - by apply set_writes.
  - by apply set_writes.
  - intros r. destruct (negb _); [done|]. cbn [writes_left]. intros y. apply display_writes. intros m.
    by apply led_writes, running_writes.
  - intros r. destruct (negb _); [done|]. by repeat apply bump_writes.
  - intros r. destruct (negb _); [done|]. by repeat apply bump_writes.
Qed.

Lemma access_passive p s : writes_left p → passive s (access p s).2.
Proof.
  destruct p as [|x k|x v k|d b k]; intros Hp; try done; [by destruct x|].
  by destruct Hp as [[-> | ->] _].
Qed.

Lemma access_writes p s : writes_left p → writes_left (access p s).1.
Proof. destruct p; simpl; try tauto. intros Hp. apply Hp. Qed.

Lemma access_out p s : writes_left p → Forall ok_write (out s) → Forall ok_write (out (access p s).2).
Proof.
  destruct p as [|x k|x v k|d b k]; intros Hp Hs; try done; [by destruct x|].
  destruct Hp as (_ & Hb & _). by constructor.
Qed.

(** ** Registers *)

Context `{!Stm32GpioLaws hw}.

Definition tens_on (reg : Z) : Prop := ∃ d, 0 ≤ d < 10 ∧ lit tens_bits reg = glyph d.
Definition units_on (reg : Z) : Prop := ∃ d, 0 ≤ d < 10 ∧ lit units_bits reg = glyph d.

Lemma digits_split h : digits_on h ↔ tens_on (odr 2 h) ∧ units_on (odr 3 h).
Proof.
  split.
  - intros (v & Hv & Ht & Hu). pose proof (Z.div_mod v 10). pose proof (Z.mod_pos_bound v 10).
    split; [exists (v / 10)|exists (v mod 10)]; (split; [lia|done]).
  - intros [(t & Ht & Et) (u & Hu & Eu)]. exists (10 * t + u). split; [lia|].
    assert ((10 * t + u) / 10 = t ∧ (10 * t + u) mod 10 = u) as [E1 E2]
      by (Z.to_euclidean_division_equations; lia).
    unfold shows. by rewrite E1, E2.
Qed.

(** The accesses of the server's drivers. *)
Definition hact_ok (a : hact) : Prop :=
  match a with
  | SetPin pin _ => pin ∈ led_pins
  | Fetch reg mask digit =>
      reg = STM32_GPIOC_ODR ∧ mask = 0xFFFFE03F ∧ tens_on digit ∨
      reg = STM32_GPIOD_ODR ∧ mask = 0xFFFFFF00 ∧ units_on digit
  | Put val reg =>
      reg = STM32_GPIOC_ODR ∧ tens_on (Z.land val 0xffff) ∨
      reg = STM32_GPIOD_ODR ∧ units_on (Z.land val 0xffff)
  end.

Lemma accesses_ok d b : d = Led ∨ d = Display → 0 ≤ b < 256 → Forall hact_ok (accesses_of d b).
Proof.
  intros [-> | ->] Hb; unfold accesses_of.
  - repeat constructor; unfold hact_ok, led_pins; set_solver.
  - destruct (Z.leb_spec 100 b); [done|].
    destruct (decimal_digits b) as (-> & -> & H1 & H2); [lia|].
    destruct (digit_tables (b / 10) H1) as [(d1 & L1 & G1) _].
    destruct (digit_tables (b mod 10) H2) as [_ (d2 & L2 & G2)].
    rewrite L1, L2. constructor; [left; split_and!; [done..|by exists (b / 10)]|].
    constructor; [right; split_and!; [done..|by exists (b mod 10)]|done].
Qed.

Lemma ports : is_port 2 ∧ is_port 3.
Proof. unfold is_port, STM32_NGPIO_PORTS. lia. Qed.

(** Bits of an output register after the store of a value computed from it. *)
Lemma fetched_digit h mask digit p (bits : list Z) :
  Forall (λ b, 0 ≤ b < 16 ∧ Z.testbit mask b = false) bits →
  lit bits (Z.land (Z.lor (Z.land (odr p h) mask) digit) 0xffff) = lit bits digit.
Proof. apply lit_masked. Qed.

Lemma put_odr q p v h : is_port p → is_port q →
  odr p (putreg32 v (gpiobase q + STM32_GPIO_ODR_OFFSET) h) = if p =? q then Z.land v 0xffff else odr p h.
Proof.
  intros Hp Hq. destruct (Z.eqb_spec p q) as [->|]; [by apply odr_put|].
  apply odr_other; auto.
Qed.

(** Pins of the other ports. *)
Lemma put_pin_out q v h pin : is_port q → is_port (pin_port pin) → pin_port pin ≠ q →
  pin_out pin (putreg32 v (gpiobase q + STM32_GPIO_ODR_OFFSET) h) = pin_out pin h.
Proof. intros. unfold pin_out. rewrite put_odr by done. by rewrite (proj2 (Z.eqb_neq _ _)). Qed.

Ltac port := by apply pin_port_is_port.

Lemma access_keeps_acts a es h : hact_ok a → act_levels es h → act_levels es (register_access a h).2.
Proof.
  intros Ha [L1 L2 L3 L4]. destruct ports as [P2 P3].
  destruct a as [pin v|reg mask d|v reg]; simpl; [|by split|].
  - unfold hact_ok, led_pins in Ha. rewrite !elem_of_cons, elem_of_nil in Ha.
    destruct_or! Ha; try done; subst pin; split;
      rewrite gpiowrite_other by (port || (vm_compute; congruence)); done.
  - destruct Ha as [[-> _]|[-> _]]; unfold STM32_GPIOC_ODR, STM32_GPIOD_ODR;
      split; rewrite put_pin_out by (done || port); done.
Qed.

Lemma access_keeps_digits a h : hact_ok a → digits_on h → digits_on (register_access a h).2.
Proof.
  intros Ha. rewrite !digits_split. intros [Ht Hu]. destruct ports as [P2 P3].
  destruct a as [pin v|reg mask d|v reg]; simpl; [|done|].
  - assert (pin_port pin ≠ 2 ∧ pin_port pin ≠ 3 ∧ is_port (pin_port pin)) as (N2 & N3 & Hp).
    { unfold hact_ok, led_pins in Ha. rewrite !elem_of_cons, elem_of_nil in Ha.
      destruct_or! Ha; try done; subst pin; split_and!; try done; port. }
    by rewrite !gpiowrite_frame by done.
  - destruct Ha as [[-> Hv]|[-> Hv]]; unfold STM32_GPIOC_ODR, STM32_GPIOD_ODR;
      rewrite !put_odr by done; done.
Qed.

Lemma access_new a h : hact_ok a → Forall hact_ok (register_access a h).1.
Proof.
  destruct a as [pin v|reg mask d|v reg]; simpl; [done| |done]. intros Ha. constructor; [|done].
  destruct Ha as [(-> & -> & t & Ht & Et)|(-> & -> & t & Ht & Et)]; [left|right]; (split; [done|]);
    exists t; (split; [done|]); rewrite <- Et.
  - apply (fetched_digit h _ _ 2). repeat constructor; lia.
  - apply (fetched_digit h _ _ 3). repeat constructor; lia.
Qed.

Lemma finish_access a ds h :
  finish_driver ((register_access a h).1 ++ ds) (register_access a h).2 = finish_driver (a :: ds) h.
Proof. by destruct a. Qed.

(** The drivers read the outputs only. *)
Lemma same_out_access a h h' : hact_ok a → same_out h h' →
  (register_access a h').1 = (register_access a h).1 ∧
  same_out (register_access a h).2 (register_access a h').2.
Proof.
  intros Ha Ho. destruct ports as [P2 P3]. destruct a as [pin v|reg mask d|v reg]; simpl.
  - split; [done|]. intros p Hp. apply Z.bits_inj'. intros i Hi.
    assert (is_port (pin_port pin)) as Hq.
    { unfold hact_ok, led_pins in Ha. rewrite !elem_of_cons, elem_of_nil in Ha.
      destruct_or! Ha; try done; subst pin; port. }
    by rewrite !gpiowrite_odr, (Ho p) by done.
  - split; [|done]. destruct Ha as [(-> & _)|(-> & _)];
      [pose proof (Ho 2 P2) as E|pose proof (Ho 3 P3) as E]; unfold odr in E;
      unfold STM32_GPIOC_ODR, STM32_GPIOD_ODR; by rewrite E.
  - split; [done|]. intros p Hp. destruct Ha as [[-> _]|[-> _]];
      unfold STM32_GPIOC_ODR, STM32_GPIOD_ODR; rewrite !put_odr by done; case_match; auto.
Qed.

Lemma same_out_finish ds h h' : Forall hact_ok ds → same_out h h' →
  same_out (finish_driver ds h) (finish_driver ds h').
Proof.
  intros Hds. revert h h'. induction Hds as [|a ds Ha Hds IH]; intros h h' Ho; [done|].
  destruct (same_out_access a h h' Ha Ho) as [E1 E2].
  rewrite <- (finish_access a ds h), <- (finish_access a ds h'), E1.
  pose proof (access_new a h Ha) as Hnew. destruct a as [pin v|reg mask d|v reg]; simpl in *; apply IH;
    [done| |done]. apply Forall_cons_1 in Hnew as [Hput _].
  apply (same_out_access (Put _ reg) _ _ Hput E2).
Qed.

(** ** The invariant *)

(** The levels that hold while the LEDs may be torn, and those of the LEDs. *)
Definition torn_levels (es : list (dev * Z)) (h : hw) : Prop := act_levels es h ∧ digits_on h.
Definition calm_levels (es : list (dev * Z)) (h : hw) : Prop := torn_levels es h ∧ led_levels es h.

#[export] Instance tracked_torn : Tracked torn_levels.
Proof.
  intros d b es h Hb [L1 L2]. destruct (perform_parts d b es h Hb) as (h' & E & H1 & _ & _ & H4).
  exists h'. split; [done|]. split; auto.
Qed.

#[export] Instance tracked_calm : Tracked calm_levels.
Proof.
  intros d b es h Hb [[L1 L2] L3]. destruct (perform_parts d b es h Hb) as (h' & E & H1 & H2 & _ & H4).
  exists h'. split; [done|]. split; [split|]; auto.
Qed.

Record tasks_ok (calm : bool) (t : tasks) : Prop := mkok {
  to_settings : settings_ok false (app (mach t), call_left t);
  to_acts : actuators_ok (app (mach t));
  to_out : Forall ok_write (out (app (mach t)));
  to_call : writes_left (call_left t);
  to_driver : Forall hact_ok (driver t);
  to_levels : torn_levels (out (app (mach t))) (board (mach t));
  to_leds : calm = true →
    led_levels (out (app (mach t))) (finish_driver (driver t) (board (mach t))) }.

Lemma ok_settings calm t : tasks_ok calm t → wf_upto 255 255 255 (app (mach t)).
Proof. intros [Hs _ _ _ _ _ _]. by apply safe_within in Hs. Qed.

(** A step of the main task. *)
Lemma main_ok calm op m m' ds p :
  Moves writes op → (calm = true → ds = []) →
  (∀ u s', op (app m) = Ok (u, s') → tstep false (app m, p) (s', p) ∧ actuators_ok s') →
  on_board op m = Ok (tt, m') → tasks_ok calm (mktasks m ds p) → tasks_ok calm (mktasks m' ds p).
Proof.
  intros Hw Hc Hop E [O1 O2 O3 O4 O5 O6 O7]. cbn [mach driver call_left] in *.
  destruct (on_board_inv (L := torn_levels) _ _ _ Hw O6 E) as [E1 Hl].
  destruct (Hop _ _ E1) as [Ht Ha]. split; cbn [mach driver call_left]; try done.
  - by eapply tstep_ok.
  - destruct (Hw _ _ _ E1) as (es & -> & Hes). by apply Forall_app.
  - intros Hcalm. specialize (O7 Hcalm). rewrite (Hc Hcalm) in *. cbn [finish_driver] in *.
    apply (on_board_inv (L := calm_levels) _ _ _ Hw (conj O6 O7) E).
Qed.

Lemma access_ok calm m p : tasks_ok calm (mktasks m [] p) →
  tasks_ok calm (mktasks (mkmachine (access p (app m)).2 (board m)) (driver_of p) (access p (app m)).1).
Proof.
  intros [O1 O2 O3 O4 O5 O6 O7]. cbn [mach driver call_left] in *.
  split; cbn [mach driver call_left app board].
  - eapply (tstep_ok false); [apply t_access|exact O1].
  - eapply passive_ok; [by apply access_passive|done].
  - by apply access_out.
  - by apply access_writes.
  - destruct p as [|x k|x v k|d b k]; try done. destruct O4 as (Hd & _ & _).
    apply accesses_ok; [done|apply u8_bound].
  - destruct (access_passive p (app m) O4) as (_ & _ & E1 & E2). destruct O6 as [[L1 L2 L3 L4] O6].
    split; [|done]. by split; rewrite ?E1, ?E2.
  - intros Hc. specialize (O7 Hc). destruct p as [|x k|x v k|d b k]; try done; [by destruct x|].
    cbn [access driver_of snd fst finish_driver] in *. pose proof (u8_bound b) as Hb.
    destruct (perform_parts d (u8 b) (out (app m)) (board m) Hb) as (h' & E & _ & H2 & _).
    rewrite finish_perform in E by done. injection E as <-. by apply H2.
Qed.

Lemma driver_ok calm m a ds p : tasks_ok calm (mktasks m (a :: ds) p) →
  tasks_ok calm (mktasks (mkmachine (app m) (register_access a (board m)).2)
    ((register_access a (board m)).1 ++ ds) p).
Proof.
  intros [O1 O2 O3 O4 O5 O6 O7]. cbn [mach driver call_left] in *. apply Forall_cons_1 in O5 as [Ha Hds].
  split; cbn [mach driver call_left app board]; try done.
  - apply Forall_app. split; [by apply access_new|done].
  - destruct O6 as [L D]. split; [by apply access_keeps_acts|by apply access_keeps_digits].
  - by rewrite finish_access.
Qed.

Lemma fstep_ok calm t t' : fstep calm t t' → tasks_ok calm t → tasks_ok calm t'.
Proof.
  intros Hst Hok. destruct Hst as [m h ds p Ho|m m' st k ds p Hc _ E|m m' ds p Hc E|m c|m p|m a ds p].
  - destruct Hok as [O1 O2 O3 O4 O5 O6 O7]. cbn [mach driver call_left] in *.
    destruct (same_out_parts (out (app m)) _ _ Ho) as (H1 & _ & H3).
    split; cbn [mach driver call_left app board]; try done.
    + destruct O6 as [L (v & Hv & D)]. split; [auto|]. exists v. auto.
    + intros Hcalm. pose proof (same_out_finish ds _ _ O5 Ho) as Hf.
      destruct (same_out_parts (out (app m)) _ _ Hf) as (_ & H2 & _). auto.
  - eapply main_ok; [apply (writes_handle_key k)|done| |done|done]. intros [] s' E'.
    split; [by eapply t_key; [|done]|]. eapply passive_ok; [by eapply passive_handle_key|apply Hok].
  - eapply main_ok; [apply writes_tick|done| |done|done]. intros [] s' E'. split; [by apply t_tick|].
    eapply tick_follow; [exact (ok_settings _ _ Hok)|apply Hok|done].
  - destruct Hok as [O1 O2 O3 O4 O5 O6 O7]. split; try done; cbn [mach driver call_left] in *.
    + eapply tstep_ok; [apply t_call|done].
    + apply steps_writes.
  - by apply access_ok.
  - by apply driver_ok.
Qed.

Lemma run_ok calm h m0 t : on_board startup (powered h) = Ok (tt, m0) →
  rtc (fstep calm) (booted m0) t → tasks_ok calm t.
Proof.
  intros Hb%boot_ok Hr. assert (tasks_ok calm (booted m0)) as H0.
  { destruct Hb as [O1 [L1 L2 L3] O3 O4]. split; cbn [mach driver call_left booted]; try done.
    - apply robust_done; [apply main_keeps|by apply wf_loosen].
    - split; [done|]. exists (last_shown (out (app m0))). split; [by apply last_shown_range|done]. }
  revert H0. induction Hr as [|t1 t2 t3 Hs _ IH]; [done|]. intros H0. by apply IH, (fstep_ok _ _ _ Hs).
Qed.


(** The next step of the server, as a function. *)
Definition server_step (t : tasks) : tasks :=
  match driver t with
  | [] =>
      mktasks (mkmachine (access (call_left t) (app (mach t))).2 (board (mach t)))
        (driver_of (call_left t)) (access (call_left t) (app (mach t))).1
  | a :: ds =>
      mktasks (mkmachine (app (mach t)) (register_access a (board (mach t))).2)
        ((register_access a (board (mach t))).1 ++ ds) (call_left t)
  end.

Lemma server_steps calm n t : rtc (fstep calm) t (Nat.iter n server_step t).
Proof.
  induction n as [|n IH]; [done|]. eapply rtc_r; [exact IH|]. simpl.
  destruct (Nat.iter n server_step t) as [m [|a ds] p]; constructor.
Qed.

End Machine.

(** ** Witnesses, on the register file [F1] *)


(** The button of the amount of food is pressed, the others are released. *)
Definition press_food (h : F1.regs) : F1.regs :=
  F1.mkregs (F1.kept h) (<[0 := 0xffff]> (<[1 := 0xbfff]> (<[4 := 0xffff]> ∅))).

(** The writes of the two tasks to the LEDs are not protected from each other:
    the server selects the water period, the button of the amount of food is
    pressed when two of the four LEDs are written, and two LEDs stay lit. *)
Theorem torn_leds :
  ∃ m0 t, on_board startup (powered bare) = Ok (tt, m0) ∧ rtc (fstep false) (booted m0) t ∧
    driver t = [] ∧ call_left t = Done ∧ lit_leds (board (mach t)) = [LED_FOOD; LED_PERIOD].
Proof.
  destruct (on_board startup (powered bare)) as [[[] m0]|] eqn:E0; [|vm_compute in E0; discriminate].
  set (t1 := Nat.iter 4 server_step (mktasks m0 [] (steps (SetMode PERIOD_WATER)))).
  set (m1 := mkmachine (app (mach t1)) (press_food (board (mach t1)))).
  assert (read_button 0 m1 = Ok (PERCENT_FOOD, m1)) as Ek.
  { subst m1 t1. vm_compute in E0. injection E0 as <-. vm_compute. reflexivity. }
  destruct (on_board (handle_key PERCENT_FOOD) m1) as [[[] m2]|] eqn:E2.
  2: { exfalso. revert E2. subst m1 t1. vm_compute in E0. injection E0 as <-. vm_compute. discriminate. }
  exists m0, (Nat.iter 2 server_step (mktasks m2 (driver t1) (call_left t1))).
  split; [reflexivity|]. split.
  { eapply rtc_l; [apply (f_call _ m0 (SetMode PERIOD_WATER))|].
    etrans; [apply (server_steps _ 4)|]. fold t1.
    eapply rtc_l; [apply (f_inputs _ (mach t1) (press_food (board (mach t1))) (driver t1) (call_left t1))|].
    { intros p Hp. by rewrite !F1.get_odr. }
    eapply rtc_l; [by eapply (f_key _ m1 m2 0 PERCENT_FOOD)|]. apply (server_steps _ 2). }
  revert E2. subst m1 t1. vm_compute in E0. injection E0 as <-.
  intros E2. vm_compute in E2. injection E2 as <-. vm_compute. auto.
Qed.

End Preempt.
