(* ===== verification/Server.v ===== *)
(** * The TCP server of the dog feeder

    Models [apps/examples/dogfeed/server.c]: the decoding of the bytes a client
    sends ([process_byte], the body of the [for] loop), the handling of one
    received buffer, and the life of the listening socket ([create_server])
    with the results of the socket calls as arguments.

    The decoder keeps [dog_cmd], [first_digit] and the local array [value];
    [value] starts with whatever the stack holds.  What [send] transmits is
    appended to [replies]. *)

From S2P Require Import Prelude Strtol Dogfeed Schedule Tasks.

Module Server.
Import Dogfeed Tasks.
#[local] Open Scope cmd_scope.

(** ** State *)

Record conn : Type := mkconn { feed : feeder; replies : list (list Z) }.

Record parser : Type := mkparser { dog_cmd : Z; first_digit : bool; value : list Z }.

Definition RXBUFFER_SIZE : Z := 128.

(** The accessors of [dogfeed.c] act on the shared variables. *)
Definition on_feeder {A} (m : M feeder A) : M conn A :=
  λ c, res_bind (m (feed c)) (λ '(a, f), Ok (a, mkconn f (replies c))).

Definition call_feeder (c : call) : M conn unit := on_feeder (run_call c).

Definition send (buf : list Z) : M conn unit :=
  modify (λ c, mkconn (feed c) (replies c ++ [buf])).

Definition lift {A} (r : res A) : M conn A :=
  λ c, res_bind r (λ a, Ok (a, c)).

(** ** Decoding *)

(** The reply to [E], [F] and [G]: the letter, two digits, newline and the
    terminator, written into [value]. *)
Definition reply (letter : Z) (val : Z) (v : list Z) : list Z :=
  let v := <[0%nat := letter]> v in
  let v := <[1%nat := u8 (Z.quot val 10 + 48)]> v in
  let v := <[2%nat := u8 (Z.rem val 10 + 48)]> v in
  let v := <[3%nat := 10]> v in
  <[4%nat := 0]> v.

(** The commands, once the second digit has arrived. *)
Definition dispatch (cmd val : Z) (v : list Z) : M conn (list Z) :=
  when (cmd =? 65)
    (call_feeder (SetRunning 0) ;;; call_feeder (SetMode PERCENT_FOOD) ;;;
     call_feeder (SetPercentFood val)) ;;;
  when ((cmd =? 66) && ((0 <=? val) && (val <=? 24)))
    (call_feeder (SetRunning 0) ;;; call_feeder (SetMode PERIOD_FOOD) ;;;
     call_feeder (SetPeriodFood val)) ;;;
  when ((cmd =? 67) && ((0 <=? val) && (val <=? 24)))
    (call_feeder (SetRunning 0) ;;; call_feeder (SetMode PERIOD_WATER) ;;;
     call_feeder (SetPeriodWater val)) ;;;
  when (cmd =? 68) (call_feeder SetConfirmMode) ;;;
  v <-- (if cmd =? 69 then
           val <-- on_feeder get_percent_food ;;
           let v := reply 69 val v in send v ;;; ret v
         else ret v) ;;
  v <-- (if cmd =? 70 then
           val <-- on_feeder get_period_food ;;
           let v := reply 70 val v in send v ;;; ret v
         else ret v) ;;
  v <-- (if cmd =? 71 then
           val <-- on_feeder get_period_water ;;
           let v := reply 71 val v in send v ;;; ret v
         else ret v) ;;
  when (cmd =? 73) (call_feeder IncreaseValue) ;;;
  when (cmd =? 72) (call_feeder DecreaseValue) ;;;
  ret v.

(** One iteration of the [for] loop over the received bytes. *)
Definition process_byte (b : Z) (p : parser) : M conn parser :=
  if (65 <=? b) && (b <=? 73) then ret (mkparser b (first_digit p) (value p))
  else if ((48 <=? b) && (b <=? 57)) || (b =? 63) then
    if dog_cmd p =? 0 then ret p
    else if first_digit p then
      ret (mkparser (dog_cmd p) false (<[0%nat := b]> (value p)))
    else
      let v := <[2%nat := 0]> (<[1%nat := b]> (value p)) in
      val <-- lift (Strtol.atoi (Some v)) ;;
      v <-- dispatch (dog_cmd p) val v ;;
      ret (mkparser 0 true v)
  else ret (mkparser 0 (first_digit p) (value p)).

Fixpoint process_bytes (bs : list Z) (p : parser) : M conn parser :=
  match bs with
  | [] => ret p
  | b :: bs => p <-- process_byte b p ;; process_bytes bs p
  end.

(** The decoder at the start of a buffer; [stack] is what [value] holds. *)
Definition fresh (stack : list Z) : parser := mkparser 0 true stack.

(** The [for] loop over [ret] bytes of [mybuffer]; it does not look at the size
    of the buffer. *)
Fixpoint receive (n : nat) (mybuffer : list Z) (p : parser) : M conn parser :=
  match n with
  | O => ret p
  | S n =>
      match mybuffer with
      | [] => fail_ub OutOfBounds
      | b :: bs => p <-- process_byte b p ;; receive n bs p
      end
  end.

(** What is done with the result of [recv]. *)
Definition handle_recv (ret_ : Z) (mybuffer stack : list Z) : M conn unit :=
  when (0 <? ret_) (receive (Z.to_nat ret_) mybuffer (fresh stack) ;;; ret tt).

(** ** The listening socket *)

(** One turn of the accept loop: what [accept] and [recv] return, the contents
    of [mybuffer] after [recv], and the stack under [value]. *)
Record session : Type := mksession {
  accept_ret : Z; recv_ret : Z; mybuffer : list Z; under : list Z
}.

(** The results of the calls before the loop. *)
Record setup : Type := mksetup {
  socket_ret : Z; errno : Z; setsockopt_ret : Z; bind_ret : Z; listen_ret : Z
}.

(** The accept loop over a finite sequence of sessions: the descriptors closed,
    in order, and whether the loop was left by a failed [accept]. *)
Fixpoint accept_loop (ss : list session) : M conn (bool * list Z) :=
  match ss with
  | [] => ret (false, [])
  | s :: ss =>
      if accept_ret s <? 0 then ret (true, [])
      else
        handle_recv (recv_ret s) (mybuffer s) (under s) ;;;
        r <-- accept_loop ss ;;
        ret (fst r, accept_ret s :: snd r)
  end.

(** [create_server]: [None] while it is still accepting, [Some r] when it has
    returned [r]; and the descriptors closed, in order. *)
Definition create_server (u : setup) (ss : list session) : M conn (option Z * list Z) :=
  if socket_ret u <? 0 then ret (Some (- errno u), [])
  else if (setsockopt_ret u <? 0) || (bind_ret u <? 0) || (listen_ret u <? 0) then
    ret (Some 0, [socket_ret u])
  else
    r <-- accept_loop ss ;;
    if (fst r : bool) then ret (Some 0, snd r ++ [socket_ret u])
    else ret (None, snd r).

(** ** Specification: the protocol *)

(** A command as the protocol describes it: a letter and two operand
    characters, digits or question marks. *)
Record command : Type := mkcommand { letter : Z; op1 : Z; op2 : Z }.

Definition is_operand (b : Z) : Prop := 48 ≤ b ≤ 57 ∨ b = 63.
Definition valid (c : command) : Prop :=
  65 ≤ letter c ≤ 73 ∧ is_operand (op1 c) ∧ is_operand (op2 c).

Definition encode (c : command) : list Z := [letter c; op1 c; op2 c].

(** The number two operand characters stand for: a question mark ends it. *)
Definition operand_value (a b : Z) : Z :=
  if a =? 63 then 0 else if b =? 63 then a - 48 else 10 * (a - 48) + (b - 48).

Definition two_digits (v : Z) : list Z := [v / 10 + 48; v mod 10 + 48].

(** What each command does. *)
Definition exec (c : command) : M conn unit :=
  let v := operand_value (op1 c) (op2 c) in
  if letter c =? 65 then
    call_feeder (SetRunning 0) ;;; call_feeder (SetMode PERCENT_FOOD) ;;;
    call_feeder (SetPercentFood v)
  else if letter c =? 66 then
    when (v <=? 24) (call_feeder (SetRunning 0) ;;; call_feeder (SetMode PERIOD_FOOD) ;;;
      call_feeder (SetPeriodFood v))
  else if letter c =? 67 then
    when (v <=? 24) (call_feeder (SetRunning 0) ;;; call_feeder (SetMode PERIOD_WATER) ;;;
      call_feeder (SetPeriodWater v))
  else if letter c =? 68 then call_feeder SetConfirmMode
  else if letter c =? 69 then
    x <-- gets (λ c, percent_food (feed c)) ;; send (69 :: two_digits x ++ [10; 0])
  else if letter c =? 70 then
    x <-- gets (λ c, period_food (feed c)) ;; send (70 :: two_digits x ++ [10; 0])
  else if letter c =? 71 then
    x <-- gets (λ c, period_water (feed c)) ;; send (71 :: two_digits x ++ [10; 0])
  else if letter c =? 72 then call_feeder DecreaseValue
  else call_feeder IncreaseValue.

Fixpoint exec_all (cs : list command) : M conn unit :=
  match cs with
  | [] => ret tt
  | c :: cs => exec c ;;; exec_all cs
  end.

(** ** Lemmas *)

Lemma length5 (v : list Z) : length v = 5%nat → ∃ a b c d e, v = [a; b; c; d; e].
Proof. intros H. do 6 (destruct v as [|? v]; try discriminate H). eauto 10. Qed.

Lemma atoi_operand a b t :
  is_operand a → is_operand b →
  Strtol.atoi (Some (a :: b :: 0 :: t)) = Ok (operand_value a b).
Proof.
  intros Ha Hb. unfold operand_value.
  destruct (Z.eqb_spec a 63) as [->|Na]; [reflexivity|].
  assert (a = 48 + (a - 48)) as Ea by lia. assert (0 ≤ a - 48 < 10) as Da.
  { destruct Ha; lia. }
  destruct (Z.eqb_spec b 63) as [->|Nb].
  - assert (∃ d, a = 48 + d ∧ 0 ≤ d < 10) as (d & -> & Hd) by (exists (a - 48); lia).
    assert (d ∈ seqZ 0 10) as Hin by (apply elem_of_seqZ; lia).
    repeat (apply elem_of_cons in Hin as [->|Hin]; [reflexivity|]).
    by apply elem_of_nil in Hin.
  - rewrite Ea at 1. replace b with (48 + (b - 48)) at 1 by lia.
    apply Strtol.atoi_two_digits; [done|]. destruct Hb; lia.
Qed.

Lemma operand_value_bound a b :
  is_operand a → is_operand b → 0 ≤ operand_value a b ≤ 99.
Proof.
  unfold is_operand, operand_value. intros Ha Hb. split_ifs; lia.
Qed.

(** Extensional equality of commands, a congruence for sequencing. *)
Definition cmd_eq {S A} (m m' : M S A) : Prop := ∀ s, m s = m' s.

#[export] Instance cmd_eq_equiv {S A} : Equivalence (@cmd_eq S A).
Proof. split; unfold cmd_eq; [done|by intros ? ? H s; rewrite H|]. intros a b c H1 H2 s. by rewrite H1. Qed.

#[export] Instance bind_proper {S A B} :
  Proper (cmd_eq ==> pointwise_relation A cmd_eq ==> cmd_eq) (@bind S A B).
Proof.
  intros m m' Hm k k' Hk s. unfold bind. rewrite Hm.
  destruct (m' s) as [[a s']|]; [|done]. apply Hk.
Qed.

Lemma bind_assoc {S A B C} (m : M S A) (k : A → M S B) (l : B → M S C) :
  cmd_eq (bind (bind m k) l) (bind m (λ a, bind (k a) l)).
Proof. intros s. unfold bind. by destruct (m s) as [[a s']|]. Qed.

Lemma bind_ret_l {S A B} (a : A) (k : A → M S B) : cmd_eq (bind (ret a) k) (k a).
Proof. done. Qed.

Lemma bind_ret_tt {S} (m : M S unit) : cmd_eq (m ;;; ret tt) m.
Proof. intros s. unfold bind. by destruct (m s) as [[[] s']|]. Qed.

Lemma reply_digits l x v :
  length v = 5%nat → 0 ≤ x ≤ 255 → reply l x v = l :: two_digits x ++ [10; 0].
Proof.
  intros (a & b & c & d & e & ->)%length5 Hx. unfold reply, two_digits. simpl.
  rewrite Z.quot_div_nonneg, Z.rem_mod_nonneg by lia.
  pose proof (Z.mod_pos_bound x 10). assert (0 ≤ x / 10 < 26).
  { split; [apply Z.div_pos; lia|apply Z.div_lt_upper_bound; lia]. }
  by rewrite !u8_small by lia.
Qed.

(** A complete command does what the protocol says and leaves [value] with
    five bytes. *)
Lemma dispatch_exec c v s :
  valid c → length v = 5%nat → wf_upto 255 255 255 (feed s) →
  ∃ v', length v' = 5%nat ∧
    dispatch (letter c) (operand_value (op1 c) (op2 c)) v s = (exec c ;;; ret v') s.
Proof.
  intros (Hl & H1 & H2) Hv Hs. pose proof (operand_value_bound _ _ H1 H2) as Hb.
  destruct c as [l a b]. simpl in *. unfold exec. simpl.
  generalize dependent (operand_value a b). intros val Hb.
  assert (l ∈ seqZ 65 9) as Hin by (apply elem_of_seqZ; lia).
  pose proof Hs as Hs'. unfold wf_upto in Hs'. destruct_and! Hs'.
  assert (∀ k x, 0 ≤ x ≤ 255 → length (reply k x v) = 5%nat) as Hlen
    by (intros; by rewrite reply_digits).
  unfold dispatch.
  repeat (apply elem_of_cons in Hin as [->|Hin];
    [simpl; rewrite ?(proj2 (Z.leb_le 0 val)) by lia; simpl;
     first
       [ exists v; split; [done|reflexivity]
       | exists (reply 69 (percent_food (feed s)) v); split; [apply Hlen; lia|];
         unfold bind, on_feeder; simpl; rewrite reply_digits by (done || lia); reflexivity
       | exists (reply 70 (period_food (feed s)) v); split; [apply Hlen; lia|];
         unfold bind, on_feeder; simpl; rewrite reply_digits by (done || lia); reflexivity
       | exists (reply 71 (period_water (feed s)) v); split; [apply Hlen; lia|];
         unfold bind, on_feeder; simpl; rewrite reply_digits by (done || lia); reflexivity ]|]).
  by apply elem_of_nil in Hin.
Qed.

(** Every accessor call is defined on a state within the limits and keeps it so. *)
Definition safe (m : M conn unit) : Prop :=
  ∀ mf mw mp, Limits mf mw mp → ∀ s, wf_upto mf mw mp (feed s) →
    wp m (λ _ s', wf_upto mf mw mp (feed s')) s.

Lemma call_feeder_safe c : safe (call_feeder c).
Proof.
  intros mf mw mp Hl s Hs. destruct (wp_run _ _ _ (run_call_wf c (feed s) Hs)) as ([] & f & E & Hw).
  unfold call_feeder, on_feeder, wp. by rewrite E.
Qed.

Lemma send_safe b : safe (send b).
Proof. by intros mf mw mp Hl s Hs. Qed.

Lemma seq_safe m m' : safe m → safe m' → safe (m ;;; m').
Proof.
  intros Hm Hm' mf mw mp Hl s Hs. eapply (wp_seq (λ s, wf_upto mf mw mp (feed s))); [by apply Hm|].
  intros _ s' Hs'. by apply Hm'.
Qed.

Lemma when_safe (b : bool) m : safe m → safe (when b m).
Proof. intros Hm mf mw mp Hl s Hs. destruct b; [by apply Hm|done]. Qed.

Lemma gets_send_safe (f : conn → Z) (g : Z → list Z) : safe (x <-- gets f ;; send (g x)).
Proof. by intros mf mw mp Hl s Hs. Qed.

#[local] Hint Resolve call_feeder_safe send_safe seq_safe when_safe gets_send_safe : nx.

Lemma exec_safe c : safe (exec c).
Proof. unfold exec. repeat case_match; auto 8 with nx. Qed.

Lemma process_encoded c p s :
  valid c → first_digit p = true → length (value p) = 5%nat → wf_upto 255 255 255 (feed s) →
  ∃ v', length v' = 5%nat ∧
    process_bytes (encode c) p s = (exec c ;;; ret (mkparser 0 true v')) s.
Proof.
  intros Hc Hf Hv Hs. pose proof Hc as ((Hl1 & Hl2) & H1 & H2).
  destruct (length5 _ Hv) as (a0 & a1 & a2 & a3 & a4 & Ev).
  unfold encode, process_bytes, process_byte.
  rewrite (proj2 (Z.leb_le 65 _)), (proj2 (Z.leb_le _ 73)) by done. simpl.
  assert (∀ b, is_operand b → ((65 <=? b) && (b <=? 73)) = false ∧
    (((48 <=? b) && (b <=? 57)) || (b =? 63)) = true) as Hop
    by (unfold is_operand; intros; lia).
  destruct (Hop _ H1) as [O1 O1'], (Hop _ H2) as [O2 O2'].
  unfold bind at 1. simpl. rewrite O1, O1'. simpl.
  rewrite (proj2 (Z.eqb_neq (letter c) 0)) by lia. rewrite Hf. simpl.
  unfold bind at 1. simpl. rewrite O2, O2'. simpl.
  rewrite (proj2 (Z.eqb_neq (letter c) 0)) by lia. rewrite Ev. simpl.
  unfold bind at 1 2. unfold lift. rewrite atoi_operand by done. simpl.
  destruct (dispatch_exec c [op1 c; op2 c; 0; a3; a4] s Hc) as (v' & Lv' & E); [done..|].
  exists v'. split; [done|]. unfold bind at 1. rewrite E. unfold bind.
  by destruct (exec c s) as [[[] s']|].
Qed.

Lemma process_bytes_app bs1 bs2 p :
  cmd_eq (process_bytes (bs1 ++ bs2) p) (p <-- process_bytes bs1 p ;; process_bytes bs2 p).
Proof.
  revert p. induction bs1 as [|b bs1 IH]; intros p; [done|]. simpl.
  rewrite bind_assoc. intros s. unfold bind. destruct (process_byte b p s) as [[p' s']|]; [|done].
  apply IH.
Qed.

(** A sequence of encoded commands from any decoder state between commands. *)
Lemma process_commands (cs : list command) p s :
  Forall valid cs → first_digit p = true → length (value p) = 5%nat → wf (feed s) →
  ∃ s' p', exec_all cs s = Ok (tt, s') ∧ wf (feed s') ∧
    process_bytes (concat (encode <$> cs)) p s = Ok (p', s').
Proof.
  intros Hcs Hf Hv Hs. revert s Hs p Hf Hv.
  induction Hcs as [|c cs Hc _ IH]; intros s Hs p Hf Hv; [by eauto|].
  rewrite fmap_cons. cbn [concat exec_all].
  destruct (process_encoded c p s Hc Hf Hv (wf_loosen _ Hs)) as (v' & Lv' & E).
  destruct (wp_run _ _ _ (exec_safe c _ _ _ limits_wf s Hs)) as ([] & s1 & E1 & Hs1).
  destruct (IH s1 Hs1 (mkparser 0 true v') eq_refl Lv') as (s2 & p2 & E2 & Hs2 & E3).
  exists s2, p2. split_and!; [|done|].
  - unfold bind. by rewrite E1.
  - rewrite (process_bytes_app _ _ p s). unfold bind at 1. rewrite E.
    unfold bind at 1. rewrite E1. simpl. exact E3.
Qed.

(** The loop within the buffer. *)
Lemma receive_take n buf p s : (n ≤ length buf)%nat →
  receive n buf p s = process_bytes (take n buf) p s.
Proof.
  revert buf p s. induction n as [|n IH]; intros [|b buf] p s Hn; simpl in *; [done..|lia|].
  unfold bind. destruct (process_byte b p s) as [[p' s']|]; [|done]. simpl. apply IH. lia.
Qed.

Lemma handle_commands (cs : list command) (stack : list Z) (s : conn) :
  Forall valid cs → length stack = 5%nat → wf (feed s) →
  ∃ s', exec_all cs s = Ok (tt, s') ∧ wf (feed s') ∧
    handle_recv (Z.of_nat (length (concat (encode <$> cs)))) (concat (encode <$> cs)) stack s
      = Ok (tt, s').
Proof.
  intros Hcs Hst Hs.
  destruct (process_commands cs (fresh stack) s) as (s' & p' & E & Hw & Ep); [done..|].
  exists s'. split_and!; [done..|]. unfold handle_recv.
  rewrite Nat2Z.id.
  destruct (Z.ltb_spec 0 (Z.of_nat (length (concat (encode <$> cs))))).
  - simpl. unfold bind. by rewrite receive_take, firstn_all, Ep.
  - destruct cs as [|c cs]; [|simpl in *; lia]. simpl in *. by injection E as ->.
Qed.

(** C5: the decoder implements the protocol: a buffer that holds any sequence
    of well-formed three-byte commands has exactly the effect of executing
    them in order, whatever the uninitialised array held, and is always
    defined. *)
Theorem server_protocol (cs : list command) (stack : list Z) (s : conn) :
  Forall valid cs → length stack = 5%nat → wf (feed s) →
  ∃ s', exec_all cs s = Ok (tt, s') ∧ wf (feed s') ∧
    handle_recv (Z.of_nat (length (concat (encode <$> cs)))) (concat (encode <$> cs)) stack s
      = Ok (tt, s').
Proof. apply handle_commands. Qed.

Lemma server_protocol_witness :
  ∃ s', handle_recv 6 [66; 48; 54; 70; 63; 63] [7; 7; 7; 7; 7] (mkconn initial []) = Ok (tt, s') ∧
        replies s' = [[70; 48; 54; 10; 0]].
Proof.
  destruct (server_protocol [mkcommand 66 48 54; mkcommand 70 63 63] [7; 7; 7; 7; 7]
    (mkconn initial [])) as (s' & E & _ & P).
  - repeat constructor; vm_compute; intuition congruence.
  - reflexivity.
  - unfold wf, wf_upto, initial. simpl. unfold TRUE, FALSE. split_and!; lia.
  - exists s'. split; [exact P|]. vm_compute in E. by injection E as <-.
Defined.

(** ** Arbitrary input *)

(** What the decoder has seen so far. *)
Definition parser_ok (p : parser) : Prop :=
  length (value p) = 5%nat ∧ (dog_cmd p = 0 ∨ 65 ≤ dog_cmd p ≤ 73) ∧
  (first_digit p = false → ∃ a, value p !! 0%nat = Some a ∧ is_operand a).

(** One byte either only moves the decoder or executes one command. *)
Lemma process_byte_cases b p s :
  parser_ok p → wf_upto 255 255 255 (feed s) →
  ∃ p', parser_ok p' ∧
    (process_byte b p s = Ok (p', s) ∨
     ∃ c, valid c ∧ process_byte b p s = (exec c ;;; ret p') s).
Proof.
  intros (Hl & Hd & Hf) Hs. unfold process_byte.
  destruct ((65 <=? b) && (b <=? 73)) eqn:EA.
  { eexists; split; [|left; reflexivity]. zify_bools. split_and!; simpl; auto. }
  destruct (((48 <=? b) && (b <=? 57)) || (b =? 63)) eqn:EO.
  2: { eexists; split; [|left; reflexivity]. split_and!; simpl; auto. }
  assert (is_operand b) as Hb by (unfold is_operand; lia).
  destruct (Z.eqb_spec (dog_cmd p) 0) as [E0|E0].
  { eexists; split; [|left; reflexivity]. done. }
  destruct (length5 _ Hl) as (a0 & a1 & a2 & a3 & a4 & Ev).
  destruct (first_digit p) eqn:Ef.
  { eexists; split; [|left; reflexivity]. rewrite Ev. split_and!; simpl; [done|auto|eauto]. }
  destruct (Hf eq_refl) as (a & Ea & Ha). rewrite Ev in *. injection Ea as <-. simpl.
  destruct (dispatch_exec (mkcommand (dog_cmd p) a0 b) [a0; b; 0; a3; a4] s)
    as (v' & Lv' & E); [split; simpl; [lia|done]|done|done|].
  exists (mkparser 0 true v'). split; [split_and!; simpl; auto; done|]. right.
  exists (mkcommand (dog_cmd p) a0 b). split; [split; simpl; [lia|done]|].
  unfold bind at 1, lift. rewrite atoi_operand by done. simpl in *.
  unfold bind at 1. rewrite E. unfold bind. by destruct (exec _ s) as [[[] ?]|].
Qed.

(** One accessor call of the server. *)
Definition called (s s' : feeder) : Prop := ∃ c, run_call c s = Ok (tt, s').

Lemma called_wf {mf mw mp} `{!Limits mf mw mp} s s' :
  rtc called s s' → wf_upto mf mw mp s → wf_upto mf mw mp s'.
Proof.
  induction 1 as [|s1 s2 s3 [c E] _ IH]; [done|]. intros Hs. apply IH.
  exact (wp_ok_inv _ _ _ _ _ (run_call_wf c s1 Hs) E).
Qed.

(** The effect of a command on the shared variables is a sequence of accessor
    calls. *)
Definition stepped (m : M conn unit) : Prop :=
  ∀ s s', m s = Ok (tt, s') → rtc called (feed s) (feed s').

Lemma call_feeder_stepped c : stepped (call_feeder c).
Proof.
  intros s s'. unfold call_feeder, on_feeder.
  destruct (run_call c (feed s)) as [[[] f]|] eqn:E; [|done]. intros [= <-]. simpl.
  apply rtc_once. by exists c.
Qed.

Lemma seq_stepped m m' : stepped m → stepped m' → stepped (m ;;; m').
Proof.
  intros Hm Hm' s s''. unfold bind. destruct (m s) as [[[] s']|] eqn:E; [|done].
  simpl. intros E'. etrans; [by apply Hm|by apply Hm'].
Qed.

Lemma when_stepped (b : bool) m : stepped m → stepped (when b m).
Proof. intros Hm s s'. destruct b; [apply Hm|]. by intros [= <-]. Qed.

Lemma gets_send_stepped (f : conn → Z) (g : Z → list Z) : stepped (x <-- gets f ;; send (g x)).
Proof. intros s s'. by intros [= <-]. Qed.

#[local] Hint Resolve call_feeder_stepped seq_stepped when_stepped gets_send_stepped : nx.

Lemma exec_stepped c : stepped (exec c).
Proof. unfold exec. repeat case_match; auto 8 with nx. Qed.

Lemma process_bytes_safe bs p s :
  parser_ok p → wf_upto 255 255 255 (feed s) →
  ∃ p' s', process_bytes bs p s = Ok (p', s') ∧ wf_upto 255 255 255 (feed s') ∧ rtc called (feed s) (feed s').
Proof.
  revert p s. induction bs as [|b bs IH]; intros p s Hp Hs; [by eauto 10 using rtc_refl|].
  destruct (process_byte_cases b p s Hp Hs) as (p' & Hp' & [E|(c & Hc & E)]);
    cbn [process_bytes]; unfold bind at 1; rewrite E.
  - simpl. by apply IH.
  - destruct (wp_run _ _ _ (exec_safe c _ _ _ limits_uint8 s Hs)) as ([] & s1 & E1 & Hs1).
    unfold bind. rewrite E1. simpl.
    destruct (IH p' s1 Hp' Hs1) as (p2 & s2 & E2 & Hs2 & Hr).
    exists p2, s2. split_and!; [done..|]. etrans; [by apply (exec_stepped c)|done].
Qed.

Lemma handle_recv_safe n buf stack s :
  length stack = 5%nat → n ≤ Z.of_nat (length buf) → wf_upto 255 255 255 (feed s) →
  ∃ s', handle_recv n buf stack s = Ok (tt, s') ∧ wf_upto 255 255 255 (feed s') ∧ rtc called (feed s) (feed s').
Proof.
  intros Hst Hn Hs. unfold handle_recv. destruct (0 <? n); [|by eauto using rtc_refl]. simpl.
  destruct (process_bytes_safe (take (Z.to_nat n) buf) (fresh stack) s)
    as (p' & s' & E & Hw & Hr); [split_and!; simpl; auto; done|done|].
  exists s'. unfold bind. by rewrite receive_take, E by lia.
Qed.

(** A result above the size of the buffer: the bytes of the buffer are decoded,
    then the one behind it is read. *)
Lemma receive_overrun (n : nat) buf stack s :
  length stack = 5%nat → (length buf < n)%nat → wf_upto 255 255 255 (feed s) →
  receive n buf (fresh stack) s = Undef OutOfBounds.
Proof.
  intros Hst. assert (parser_ok (fresh stack)) as Hp by (split_and!; simpl; auto; done).
  revert buf s Hp. generalize (fresh stack) as p. induction n as [|n IH]; intros p buf s Hp Hn Hs; [lia|].
  destruct buf as [|b buf]; [done|]. simpl in *.
  destruct (process_byte_cases b p s Hp Hs) as (p' & Hp' & [E|(c & Hc & E)]); unfold bind at 1; rewrite E.
  - simpl. apply IH; [done|lia|done].
  - destruct (wp_run _ _ _ (exec_safe c _ _ _ limits_uint8 s Hs)) as ([] & s1 & E1 & Hs1).
    unfold bind. rewrite E1. simpl. apply IH; [done|lia|done].
Qed.

(** The descriptors an undisturbed run of the loop accepts, up to the first
    failed [accept]. *)
Fixpoint accepted (ss : list session) : list Z :=
  match ss with
  | [] => []
  | s :: ss => if accept_ret s <? 0 then [] else accept_ret s :: accepted ss
  end.

Definition accept_fails (ss : list session) : bool := existsb (λ s, accept_ret s <? 0) ss.

(** What the server relies on: [recv] returns at most the size of the buffer it
    is given, which is that of [mybuffer]. *)
Definition session_ok (x : session) : Prop :=
  length (under x) = 5%nat ∧ Z.of_nat (length (mybuffer x)) = RXBUFFER_SIZE ∧
  recv_ret x ≤ RXBUFFER_SIZE.

Lemma accept_loop_spec ss s :
  Forall session_ok ss → wf_upto 255 255 255 (feed s) →
  ∃ s', accept_loop ss s = Ok ((accept_fails ss, accepted ss), s') ∧
    rtc called (feed s) (feed s').
Proof.
  intros Hss. revert s. induction Hss as [|x ss (Hu & Hb & Hr) _ IH]; intros s Hs;
    [by eauto using rtc_refl|]. simpl.
  destruct (accept_ret x <? 0); [by eauto using rtc_refl|]. simpl. rewrite <- Hb in Hr.
  destruct (handle_recv_safe (recv_ret x) (mybuffer x) (under x) s Hu Hr Hs) as (s1 & E1 & H1 & R1).
  destruct (IH s1 H1) as (s2 & E2 & R2).
  exists s2. unfold bind. rewrite E1. simpl. rewrite E2. simpl.
  split_and!; [done|by etrans].
Qed.

(** C28: whatever bytes the clients send, whatever the stack holds and whatever
    the socket calls return, [recv] at most the [RXBUFFER_SIZE] bytes it is
    given room for, the server reaches no undefined behaviour from any values
    of the settings, changes the shared variables only by calls of the
    accessors, closes every accepted descriptor exactly once and in order,
    closes the listening descriptor last and exactly when it returns after
    creating it, and returns the negated error of [socket] or 0.  A result of
    [recv] above the size of the buffer makes it read past the buffer. *)
Theorem server_robust u ss s :
  Forall session_ok ss → wf_upto 255 255 255 (feed s) →
  ∃ r closed s', create_server u ss s = Ok ((r, closed), s') ∧
    rtc called (feed s) (feed s') ∧
    wf_upto 255 255 255 (feed s') ∧ (wf (feed s) → wf (feed s')) ∧
    (if socket_ret u <? 0 then r = Some (- errno u) ∧ closed = []
     else if (setsockopt_ret u <? 0) || (bind_ret u <? 0) || (listen_ret u <? 0)
     then r = Some 0 ∧ closed = [socket_ret u]
     else if accept_fails ss then r = Some 0 ∧ closed = accepted ss ++ [socket_ret u]
     else r = None ∧ closed = accepted ss) ∧
    (∀ n buf stack, Z.of_nat (length buf) = RXBUFFER_SIZE → length stack = 5%nat →
      RXBUFFER_SIZE < n → handle_recv n buf stack s = Undef OutOfBounds).
Proof.
  intros Hss Hs.
  assert (∀ n buf stack, Z.of_nat (length buf) = RXBUFFER_SIZE → length stack = 5%nat →
    RXBUFFER_SIZE < n → handle_recv n buf stack s = Undef OutOfBounds) as Hover.
  { intros n buf stack Hb Hst Hn. unfold handle_recv. rewrite (proj2 (Z.ltb_lt 0 n)) by (unfold RXBUFFER_SIZE in *; lia).
    unfold when, bind. by rewrite receive_overrun by (done || lia). }
  assert (∀ s', rtc called (feed s) (feed s') →
    wf_upto 255 255 255 (feed s') ∧ (wf (feed s) → wf (feed s'))) as Hkeep.
  { intros s' Hr. split; [by eapply called_wf|]. intros Hw. by apply (called_wf _ _ Hr). }
  enough (∃ r closed s', create_server u ss s = Ok ((r, closed), s') ∧ rtc called (feed s) (feed s') ∧
    (if socket_ret u <? 0 then r = Some (- errno u) ∧ closed = []
     else if (setsockopt_ret u <? 0) || (bind_ret u <? 0) || (listen_ret u <? 0)
     then r = Some 0 ∧ closed = [socket_ret u]
     else if accept_fails ss then r = Some 0 ∧ closed = accepted ss ++ [socket_ret u]
     else r = None ∧ closed = accepted ss)) as (r & closed & s' & E & Hr & Hc).
  { exists r, closed, s'. destruct (Hkeep s' Hr). done. }
  unfold create_server.
  destruct (socket_ret u <? 0); [by eauto 12 using rtc_refl|].
  destruct (_ || _); [by eauto 12 using rtc_refl|].
  destruct (accept_loop_spec ss s Hss Hs) as (s' & E & Hr).
  unfold bind. rewrite E. simpl. destruct (accept_fails ss); by eauto 12.
Qed.

Lemma server_robust_witness :
  let buf := [0; 255; 65] ++ replicate 125 0 in
  ∃ r closed s', create_server (mksetup 3 0 0 0 0)
    [mksession 4 128 buf [1; 2; 3; 4; 5]; mksession (-1) 0 buf [1; 2; 3; 4; 5]]
    (mkconn initial []) = Ok ((r, closed), s') ∧ closed = [4; 3].
Proof.
  intros buf.
  destruct (server_robust (mksetup 3 0 0 0 0)
    [mksession 4 128 buf [1; 2; 3; 4; 5]; mksession (-1) 0 buf [1; 2; 3; 4; 5]]
    (mkconn initial [])) as (r & closed & s' & E & _ & _ & _ & Hc & _).
  - repeat constructor; discriminate.
  - apply wf_loosen, initial_wf.
  - exists r, closed, s'. split; [exact E|exact (proj2 Hc)].
Defined.

(** ** Reading back what was set *)

Definition query_of (l : Z) : Z := l + 4.

Definition mode_of (l : Z) : Z :=
  if l =? 65 then PERCENT_FOOD else if l =? 66 then PERIOD_FOOD else PERIOD_WATER.

Lemma three_calls c1 c2 c3 s f :
  run_calls [c1; c2; c3] (feed s) = Ok (tt, f) →
  (call_feeder c1 ;;; call_feeder c2 ;;; call_feeder c3) s = Ok (tt, mkconn f (replies s)).
Proof.
  simpl. unfold bind, call_feeder, on_feeder.
  destruct (run_call c1 (feed s)) as [[[] f1]|]; [|done]. simpl.
  destruct (run_call c2 f1) as [[[] f2]|]; [|done]. simpl.
  destruct (run_call c3 f2) as [[[] f3]|]; [|done]. simpl. by intros [= ->].
Qed.

(** A setting command stores its operand. *)
Lemma exec_set l x y s :
  l = 65 ∨ l = 66 ∨ l = 67 → wf (feed s) →
  0 ≤ operand_value x y → operand_value x y ≤ max_of (mode_of l) →
  ∃ s', exec (mkcommand l x y) s = Ok (tt, s') ∧ wf (feed s') ∧ replies s' = replies s ∧
    setting (mode_of l) (feed s') = operand_value x y.
Proof.
  intros Hl Hs H0 Hm.
  assert (is_setting (mode_of l)) as Hset
    by (destruct Hl as [-> | [-> | ->]]; unfold is_setting, mode_of; simpl; auto).
  destruct (wp_run _ _ _ (server_set (mode_of l) (operand_value x y) (feed s) Hset Hs
    (conj H0 Hm))) as ([] & f & E & Hw & _ & _ & _ & Hv).
  exists (mkconn f (replies s)). split; [|done].
  apply three_calls in E.
  destruct Hl as [-> | [-> | ->]]; unfold exec; cbn [letter op1 op2]; simpl;
    [exact E|..]; (rewrite (proj2 (Z.leb_le (operand_value x y) 24)) by exact Hm; exact E).
Qed.

Lemma exec_query l x y s :
  l = 65 ∨ l = 66 ∨ l = 67 →
  exec (mkcommand (query_of l) x y) s =
    Ok (tt, mkconn (feed s) (replies s ++
      [query_of l :: two_digits (setting (mode_of l) (feed s)) ++ [10; 0]])).
Proof. by intros [-> | [-> | ->]]. Qed.

(** a setting written with [A], [B] or [C] and two digits is what [E], [F]
    or [G] reads back, digit for digit, provided the value is in the range of
    that setting. *)
Theorem set_then_query l a b (x y : Z) stack s :
  l = 65 ∨ l = 66 ∨ l = 67 → 0 ≤ a < 10 → 0 ≤ b < 10 → is_operand x → is_operand y →
  (l ≠ 65 → 10 * a + b ≤ 24) → length stack = 5%nat → wf (feed s) →
  ∃ s', handle_recv 6 [l; 48 + a; 48 + b; query_of l; x; y] stack s = Ok (tt, s') ∧
    replies s' = replies s ++ [[query_of l; 48 + a; 48 + b; 10; 0]].
Proof.
  intros Hl Ha Hb Hx Hy Hr Hst Hs.
  assert (Forall valid [mkcommand l (48 + a) (48 + b); mkcommand (query_of l) x y]) as Hv.
  { unfold query_of, valid. repeat apply Forall_cons_2; [..|apply Forall_nil_2]; simpl;
      split_and!; try done; unfold is_operand; lia. }
  destruct (handle_commands _ stack s Hv Hst Hs) as (s' & E & Hw & P).
  exists s'. split; [exact P|]. clear P. revert E. cbn [exec_all].
  assert (operand_value (48 + a) (48 + b) = 10 * a + b) as Ev
    by (unfold operand_value; split_ifs; lia).
  destruct (exec_set l (48 + a) (48 + b) s Hl) as (s1 & E1 & Hw1 & R1 & S1);
    [done|rewrite Ev; lia|rewrite Ev; by destruct Hl as [-> | [-> | ->]]; cbv -[Z.le Z.add Z.mul]; lia|].
  unfold bind at 1. rewrite E1. cbn [res_bind]. rewrite Ev in S1.
  unfold bind. rewrite (exec_query l x y s1 Hl). cbn [res_bind]. intros [= <-].
  simpl. rewrite R1, S1. unfold two_digits, query_of.
  replace ((10 * a + b) / 10) with a by (Z.to_euclidean_division_equations; lia).
  replace ((10 * a + b) mod 10) with b by (Z.to_euclidean_division_equations; lia).
  simpl. by rewrite (Z.add_comm 48 a), (Z.add_comm 48 b).
Qed.

Lemma set_then_query_witness :
  ∃ s', handle_recv 6 [66; 49; 50; 70; 63; 63] [0; 0; 0; 0; 0] (mkconn initial []) = Ok (tt, s') ∧
    replies s' = [[70; 49; 50; 10; 0]].
Proof.
  apply (set_then_query 66 1 2 63 63 [0; 0; 0; 0; 0] (mkconn initial []));
    try (vm_compute; intuition congruence); try (unfold is_operand; lia).
Defined.

(** a byte that is neither a letter nor an operand forgets the command but
    not that a digit was seen, so the next command takes its first digit as its
    second: after the input A1 and a comma, the well-formed command B23 sets
    the feeding period to 12. *)
Theorem separator_shifts_digits stack s :
  length stack = 5%nat → wf (feed s) →
  ∃ s', handle_recv 6 [65; 49; 44; 66; 50; 51] stack s = Ok (tt, s') ∧
    period_food (feed s') = 12.
Proof.
  intros (a & b & c & d & e & ->)%length5 Hs.
  assert (operand_value 49 50 = 12) as Ev by done.
  destruct (exec_set 66 49 50 s) as (s1 & E1 & Hw1 & R1 & S1); [auto|done|done..|].
  exists s1. split; [|exact S1].
  destruct (dispatch_exec (mkcommand 66 49 50) [49; 50; 0; d; e] s) as (v' & _ & Ed);
    [unfold valid, is_operand; simpl; lia|done|by apply wf_loosen|].
  assert (process_bytes [65; 49; 44; 66] (fresh [a; b; c; d; e]) s =
    Ok (mkparser 66 false [49; b; c; d; e], s)) as E4 by reflexivity.
  assert (process_byte 50 (mkparser 66 false [49; b; c; d; e]) s =
    Ok (mkparser 0 true v', s1)) as E5.
  { transitivity ((v <-- dispatch 66 (operand_value 49 50) [49; 50; 0; d; e] ;;
                   ret (mkparser 0 true v)) s); [reflexivity|].
    cbn [letter op1 op2] in Ed. unfold bind at 1. rewrite Ed. unfold bind. by rewrite E1. }
  assert (process_bytes ([65; 49; 44; 66] ++ [50; 51]) (fresh [a; b; c; d; e]) s =
    Ok (mkparser 0 true v', s1)) as E6.
  { rewrite process_bytes_app. unfold bind. rewrite E4. cbn [res_bind process_bytes].
    unfold bind at 1. rewrite E5. reflexivity. }
  unfold handle_recv, when. change (0 <? 6) with true. cbv iota. unfold bind.
  rewrite receive_take by (simpl; lia).
  change (take (Z.to_nat 6) [65; 49; 44; 66; 50; 51]) with ([65; 49; 44; 66] ++ [50; 51]).
  by rewrite E6.
Qed.

Lemma separator_shifts_digits_witness :
  ∃ s', handle_recv 6 [65; 49; 44; 66; 50; 51] [7; 7; 7; 7; 7] (mkconn initial []) = Ok (tt, s') ∧
    period_food (feed s') = 12.
Proof.
  apply (separator_shifts_digits [7; 7; 7; 7; 7] (mkconn initial [])); [done|].
  unfold wf, wf_upto, initial. simpl. unfold TRUE, FALSE. split_and!; lia.
Defined.

End Server.
