(* ===== verification/Queue.v ===== *)
(** * Linked queues

    Models [libc/queue]: the singly linked queues ([sq_*]) and the doubly
    linked ones ([dq_*]) on which the kernel builds its lists.

    A node is an address; the store maps it to its link fields.  An operation
    reads and writes the store and returns the new queue header, with the
    pointer the C function returns, if any.  Dereferencing the null pointer or
    an address that holds no node is undefined.  The searches of [sq_rem] and
    [sq_remlast] are bounded by the number of nodes in the store: a queue
    without a cycle is never longer. *)

From S2P Require Import Prelude.

Definition NULL : Z := 0.

(** A queue header, of either kind. *)
Record queue : Type := mkqueue { head : Z; tail : Z }.

Definition empty_queue : queue := mkqueue NULL NULL.

#[export] Instance queue_eq_dec : EqDecision queue.
Proof. solve_decision. Defined.

(** Reading and writing the node at an address. *)
Definition deref {V} (p : Z) : M (gmap Z V) V := λ m,
  if p =? NULL then Undef NullDeref
  else match m !! p with Some v => Ok (v, m) | None => Undef OutOfBounds end.

Definition assign {V} (p : Z) (f : V → V) : M (gmap Z V) unit :=
  (v <-- deref p ;; modify (λ m, <[p := f v]> m))%cmd.

(** An element occurs once in a list without duplicates. *)
Lemma pivot_unique {A} (x : A) l1 l2 k1 k2 :
  NoDup (l1 ++ x :: l2) → l1 ++ x :: l2 = k1 ++ x :: k2 → l1 = k1 ∧ l2 = k2.
Proof.
  revert k1. induction l1 as [|y l1 IH]; intros [|z k1] Hd E; simpl in *; simplify_eq.
  - done.
  - apply NoDup_cons in Hd. set_solver.
  - apply NoDup_cons in Hd. set_solver.
  - apply NoDup_cons in Hd as [_ Hd]. naive_solver.
Qed.

(** ** Segments

    [seg m b p l e n]: starting at [p], the nodes [l] follow each other in the
    store; [b] is the node before them, [e] the last one ([b] when there is
    none), [n] the address the last one points to.  [fits b n v] says that a
    node holding [v] has the neighbours [b] and [n]. *)

Section Segments.
Context {V : Type} (fits : Z → Z → V → Prop).
Implicit Types (m : gmap Z V) (l : list Z).

Fixpoint seg m (b p : Z) l (e n : Z) : Prop :=
  match l with
  | [] => p = n ∧ e = b
  | x :: l => p = x ∧ x ≠ NULL ∧ ∃ nx v, m !! x = Some v ∧ fits b nx v ∧ seg m x nx l e n
  end.

Lemma seg_app m b p l1 l2 e n :
  seg m b p (l1 ++ l2) e n ↔ ∃ c r, seg m b p l1 c r ∧ seg m c r l2 e n.
Proof.
  revert b p. induction l1 as [|x l1 IH]; intros b p; simpl.
  - split; [eauto|]. by intros (c & r & [-> ->] & ?).
  - setoid_rewrite IH. naive_solver.
Qed.

Lemma seg_frame m m' b p l e n :
  seg m b p l e n → (∀ x, x ∈ l → m' !! x = m !! x) → seg m' b p l e n.
Proof.
  revert b p. induction l as [|x l IH]; intros b p; simpl; [done|].
  intros (-> & ? & nx & v & E & F & Hs) Hm. split_and!; [done|done|].
  exists nx, v. rewrite Hm by set_solver. split_and!; [done..|].
  apply IH; [done|]. set_solver.
Qed.

Lemma seg_insert m b p l e n x v :
  x ∉ l → seg m b p l e n → seg (<[x := v]> m) b p l e n.
Proof.
  intros Hx Hs. eapply seg_frame; [exact Hs|].
  intros y Hy. rewrite lookup_insert_ne; [done|set_solver].
Qed.

Lemma seg_nonnull m b p l e n : seg m b p l e n → NULL ∉ l.
Proof.
  revert b p. induction l as [|x l IH]; intros b p; simpl; [set_solver|].
  intros (-> & ? & nx & v & E & F & Hs). apply IH in Hs. set_solver.
Qed.

Lemma seg_node m b p l e n x : seg m b p l e n → x ∈ l → is_Some (m !! x).
Proof.
  revert b p. induction l as [|y l IH]; intros b p; simpl; [set_solver|].
  intros (-> & ? & nx & v & E & F & Hs) [->|Hx]%elem_of_cons; eauto.
Qed.

Lemma seg_head m b p l e n : seg m b p l e n → p = default n (l !! 0%nat).
Proof. destruct l; simpl; naive_solver. Qed.

Lemma seg_last m b p l e n : seg m b p l e n → e = default b (last l).
Proof.
  revert b p. induction l as [|x l IH]; intros b p; [by intros [_ ->]|].
  intros (_ & _ & nx & v & _ & _ & H). rewrite (IH _ _ H), last_cons.
  by destruct (last l).
Qed.

Lemma seg_length m b p l e n :
  NoDup l → seg m b p l e n → (length l ≤ size m)%nat.
Proof.
  intros Hl Hs. rewrite <- size_dom. rewrite <- (size_list_to_set (C := gset Z) l Hl).
  apply subseteq_size. intros x Hx%elem_of_list_to_set. apply elem_of_dom. by eapply seg_node.
Qed.

End Segments.

(** ** Memory rules *)

Lemma wp_deref {V} p (v : V) Q m :
  p ≠ NULL → m !! p = Some v → wp (deref p) Q m = Q v m.
Proof. intros Hp E. unfold wp, deref. by rewrite (proj2 (Z.eqb_neq p NULL) Hp), E. Qed.

Lemma wp_assign {V} p (v : V) f Q m :
  p ≠ NULL → m !! p = Some v → wp (assign p f) Q m = Q tt (<[p := f v]> m).
Proof. intros Hp E. unfold assign. by rewrite wp_bind, (wp_deref p v). Qed.

(** [m'] differs from [m] on the nodes [l] only. *)
Definition only {V} (l : list Z) (m m' : gmap Z V) : Prop :=
  (∀ x, x ∉ l → m' !! x = m !! x) ∧ dom m' = dom m.

Lemma only_refl {V} l (m : gmap Z V) : only l m m.
Proof. done. Qed.

Lemma only_insert {V} l (m m' : gmap Z V) x v :
  only l m m' → x ∈ l → is_Some (m !! x) → only l m (<[x := v]> m').
Proof.
  intros [H D] Hx Hs. split.
  - intros y Hy. rewrite lookup_insert_ne; [by apply H|set_solver].
  - rewrite dom_insert_L, D. apply elem_of_dom in Hs. set_solver.
Qed.

Lemma only_trans {V} l l' (m1 m2 m3 : gmap Z V) :
  only l m1 m2 → only l' m2 m3 → l ⊆ l' → only l' m1 m3.
Proof.
  intros [H D] [H' D'] Hl. split; [|congruence].
  intros x Hx. rewrite H' by done. apply H. set_solver.
Qed.

Lemma only_some {V} l (m m' : gmap Z V) x : only l m m' → is_Some (m !! x) → is_Some (m' !! x).
Proof. intros [_ D] Hx. by rewrite <- elem_of_dom, D, elem_of_dom. Qed.

Lemma only_mono {V} l l' (m m' : gmap Z V) : only l m m' → l ⊆ l' → only l' m m'.
Proof. intros [H D] Hl. split; [|done]. set_solver. Qed.

#[export] Hint Resolve only_refl only_insert : nx.

(** ** Singly linked queues *)

Module Sq.
#[local] Open Scope cmd_scope.

(** The store of [flink] fields. *)
Abbreviation links := (gmap Z Z).

Definition sq_addfirst (node : Z) (q : queue) : M links queue :=
  assign node (λ _, head q) ;;;
  let tl := if head q =? NULL then node else tail q in
  ret (mkqueue node tl).

Definition sq_addlast (node : Z) (q : queue) : M links queue :=
  assign node (λ _, NULL) ;;;
  if head q =? NULL then ret (mkqueue node node)
  else assign (tail q) (λ _, node) ;;; ret (mkqueue (head q) node).

Definition sq_addafter (prev node : Z) (q : queue) : M links queue :=
  if (head q =? NULL) || (prev =? tail q) then sq_addlast node q
  else
    next <-- deref prev ;;
    assign node (λ _, next) ;;;
    assign prev (λ _, node) ;;;
    ret q.

Definition sq_remfirst (q : queue) : M links (Z * queue) :=
  let r := head q in
  if r =? NULL then ret (r, q)
  else
    next <-- deref r ;;
    let tl := if next =? NULL then NULL else tail q in
    assign r (λ _, NULL) ;;;
    ret (r, mkqueue next tl).

Definition sq_remafter (node : Z) (q : queue) : M links (Z * queue) :=
  r <-- deref node ;;
  if negb (head q =? NULL) && negb (r =? NULL) then
    q' <-- (if tail q =? r then assign node (λ _, NULL) ;;; ret (mkqueue (head q) node)
            else next <-- deref r ;; assign node (λ _, next) ;;; ret q) ;;
    assign r (λ _, NULL) ;;;
    ret (r, q')
  else ret (r, q).

(** The search loop shared by [sq_remlast] and [sq_rem]: the node whose
    [flink] is [node], from [prev] on. *)
Fixpoint find_prev (fuel : nat) (prev node : Z) : M links Z :=
  if prev =? NULL then ret NULL
  else
    next <-- deref prev ;;
    if next =? node then ret prev
    else match fuel with
         | O => fail_ub NoFuel
         | S fuel => find_prev fuel next node
         end.

Definition sq_remlast (q : queue) : M links (Z * queue) :=
  let r := tail q in
  if r =? NULL then ret (r, q)
  else
    q' <-- (if head q =? tail q then ret empty_queue
            else
              n <-- gets size ;;
              prev <-- find_prev n (head q) r ;;
              if prev =? NULL then ret q
              else assign prev (λ _, NULL) ;;; ret (mkqueue (head q) prev)) ;;
    assign r (λ _, NULL) ;;;
    ret (r, q').

Definition sq_rem (node : Z) (q : queue) : M links queue :=
  if negb (head q =? NULL) && negb (node =? NULL) then
    if node =? head q then
      next <-- deref node ;;
      ret (mkqueue next (if node =? tail q then NULL else tail q))
    else
      n <-- gets size ;;
      prev <-- find_prev n (head q) node ;;
      if prev =? NULL then ret q
      else r <-- sq_remafter prev q ;; ret (snd r)
  else ret q.

(** *** Representation *)

Definition fits (_ n v : Z) : Prop := v = n.

Definition sq_rep (m : links) (q : queue) (l : list Z) : Prop :=
  NoDup l ∧ seg fits m NULL (head q) l (tail q) NULL.

Lemma sq_rep_empty m : sq_rep m empty_queue [].
Proof. split; [apply NoDup_nil_2|done]. Qed.

Lemma sq_rep_frame m m' q l : sq_rep m q l → (∀ x, x ∈ l → m' !! x = m !! x) → sq_rep m' q l.
Proof. intros [Hn Hs] H. split; [done|by eapply seg_frame]. Qed.

Lemma sq_head m q l : sq_rep m q l → head q = default NULL (l !! 0%nat).
Proof. intros [_ H]. by apply seg_head in H. Qed.

Lemma sq_tail m q l : sq_rep m q l → tail q = default NULL (last l).
Proof. intros [_ H]. by apply seg_last in H. Qed.

Lemma sq_empty m q l : sq_rep m q l → (head q =? NULL) = bool_decide (l = []).
Proof.
  intros [_ H]. destruct l as [|x l]; simpl in H.
  - destruct H as [-> _]. by rewrite bool_decide_true.
  - destruct H as (-> & Hx & _). rewrite bool_decide_false by done. by apply Z.eqb_neq.
Qed.

Lemma sq_node m q l x : sq_rep m q l → x ∈ l → x ≠ NULL ∧ is_Some (m !! x).
Proof.
  intros [_ H] Hx. split; [|by eapply seg_node].
  apply seg_nonnull in H. set_solver.
Qed.

(** Taking a queue apart at a node and putting it together again. *)
Lemma sq_split m q l1 x l2 :
  sq_rep m q (l1 ++ x :: l2) →
  NoDup (l1 ++ x :: l2) ∧ x ≠ NULL ∧
  ∃ c n, seg fits m NULL (head q) l1 c x ∧ m !! x = Some n ∧
    seg fits m x n l2 (tail q) NULL.
Proof.
  intros [Hn (c & r & H1 & (-> & Hx & nx & v & E & -> & H2))%seg_app].
  split_and!; [done..|]. by exists c, nx.
Qed.

Lemma sq_join m h t l1 x l2 c n :
  NoDup (l1 ++ x :: l2) → x ≠ NULL → seg fits m NULL h l1 c x → m !! x = Some n →
  seg fits m x n l2 t NULL → sq_rep m (mkqueue h t) (l1 ++ x :: l2).
Proof.
  intros Hn Hx H1 E H2. split; [done|]. apply seg_app. exists c, x. split; [done|].
  simpl. split_and!; [done..|]. by exists n, n.
Qed.

(** The node before a segment matters only when the segment is empty. *)
Lemma sq_seg_rebase m b b' p l e n :
  seg fits m b p l e n → seg fits m b' p l (if l is [] then b' else e) n.
Proof. destruct l; simpl; naive_solver. Qed.

Lemma sq_last_split m q l :
  sq_rep m q l → head q ≠ NULL → ∃ l', l = l' ++ [tail q].
Proof.
  intros Hr Hh. pose proof (sq_tail _ _ _ Hr) as Ht. destruct (last l) as [t|] eqn:E.
  - apply last_Some in E as [l' ->]. exists l'. by rewrite Ht.
  - apply last_None in E as ->. apply sq_head in Hr. done.
Qed.

(** *** The operations implement those of lists *)

Lemma sq_addfirst_spec m q l node :
  sq_rep m q l → node ∉ l → node ≠ NULL → is_Some (m !! node) →
  wp (sq_addfirst node q) (λ q' m', sq_rep m' q' (node :: l) ∧ only (node :: l) m m') m.
Proof.
  intros Hr Hl Hn [v Hv]. unfold sq_addfirst.
  rewrite wp_bind, (wp_assign _ v), wp_ret by done.
  rewrite (sq_empty _ _ _ Hr). destruct Hr as [Hd Hs]. split.
  - apply (sq_join _ _ _ [] _ _ NULL (head q)); [by constructor|done|done|by rewrite lookup_insert_eq|].
    apply (sq_seg_rebase _ NULL) with (b' := node) in Hs.
    apply (seg_insert _ _ _ _ _ _ _ node (head q) Hl) in Hs. by destruct l.
  - apply only_insert; [done|set_solver|eauto].
Qed.

Lemma sq_addlast_spec m q l node :
  sq_rep m q l → node ∉ l → node ≠ NULL → is_Some (m !! node) →
  wp (sq_addlast node q) (λ q' m', sq_rep m' q' (l ++ [node]) ∧ only (node :: l) m m') m.
Proof.
  intros Hr Hl Hn [v Hv]. unfold sq_addlast.
  rewrite wp_bind, (wp_assign _ v) by done.
  destruct (Z.eqb_spec (head q) NULL) as [E|E].
  - pose proof (sq_empty _ _ _ Hr) as H. rewrite (proj2 (Z.eqb_eq _ _) E) in H.
    symmetry in H. apply bool_decide_eq_true in H as ->. rewrite wp_ret. split.
    + apply (sq_join _ _ _ [] _ [] NULL NULL); [apply NoDup_singleton|done|done|by rewrite lookup_insert_eq|done].
    + apply only_insert; [done|set_solver|eauto].
  - destruct (sq_last_split _ _ _ Hr E) as [l' El]. rewrite El in *.
    destruct (sq_split _ _ _ _ _ Hr) as (Hd & Ht & c & n & H1 & Em & H2 & _).
    rewrite wp_bind, (wp_assign _ n), wp_ret; [|done|rewrite lookup_insert_ne by set_solver; done].
    assert (NoDup ((l' ++ [tail q]) ++ [node])) as Hd'.
    { apply NoDup_app. split_and!; [done| |apply NoDup_singleton]. set_solver. }
    split.
    + rewrite <- app_assoc in *. simpl in *. eapply sq_join; [done|done| |by rewrite lookup_insert_eq|].
      * apply NoDup_app in Hd as (_ & Hd & _). 
        do 2 (apply seg_insert; [set_solver|]). done.
      * simpl. split_and!; [done|done|]. exists NULL, NULL.
        rewrite lookup_insert_ne, lookup_insert_eq by set_solver. done.
    + apply only_insert; [apply only_insert; [done|set_solver|eauto]|set_solver|eauto].
Qed.

Lemma tail_iff m q l1 x l2 :
  sq_rep m q (l1 ++ x :: l2) → (x =? tail q) = bool_decide (l2 = []).
Proof.
  intros Hr. pose proof (sq_tail _ _ _ Hr) as Ht. destruct Hr as [Hd _].
  destruct l2 as [|y l2].
  - rewrite bool_decide_true by done. rewrite last_snoc in Ht. by apply Z.eqb_eq.
  - rewrite bool_decide_false by done. apply Z.eqb_neq.
    rewrite last_app, last_cons_cons in Ht. destruct (last (y :: l2)) as [z|] eqn:E.
    + simpl in Ht. subst. apply NoDup_app in Hd as (_ & _ & [Hd _]%NoDup_cons).
      apply last_Some_elem_of in E. congruence.
    + by apply last_None in E.
Qed.

Lemma sq_addafter_spec m q l1 prev l2 node :
  sq_rep m q (l1 ++ prev :: l2) → node ∉ l1 ++ prev :: l2 → node ≠ NULL → is_Some (m !! node) →
  wp (sq_addafter prev node q)
    (λ q' m', sq_rep m' q' (l1 ++ prev :: node :: l2) ∧ only (node :: l1 ++ prev :: l2) m m') m.
Proof.
  intros Hr Hl Hn Hv. unfold sq_addafter.
  rewrite (sq_empty _ _ _ Hr), (tail_iff _ _ _ _ _ Hr).
  rewrite bool_decide_false by by destruct l1. simpl. case_bool_decide as E.
  - subst. eapply wp_mono; [by apply sq_addlast_spec|].
    intros q' m' [H ?]. rewrite <- app_assoc in H. done.
  - destruct (sq_split _ _ _ _ _ Hr) as (Hd & Hp & c & n & H1 & Em & H2).
    destruct Hv as [v Hv].
    rewrite wp_bind, (wp_deref _ n) by done.
    rewrite wp_bind, (wp_assign _ v) by done.
    rewrite wp_bind, (wp_assign _ n), wp_ret; [|done|rewrite lookup_insert_ne by set_solver; done].
    apply NoDup_app in Hd as Hd'. destruct Hd' as (Hd1 & Hd2 & [Hd3 Hd4]%NoDup_cons).
    split.
    + destruct q as [h t]. eapply sq_join; [|done| |by rewrite lookup_insert_eq|].
      * apply NoDup_app. split_and!; [done|set_solver|].
        repeat apply NoDup_cons_2; set_solver.
      * do 2 (apply seg_insert; [set_solver|]). done.
      * simpl. split_and!; [done|done|]. exists n, n.
        rewrite lookup_insert_ne, lookup_insert_eq by set_solver. split_and!; [done..|].
        do 2 (apply seg_insert; [set_solver|]).
        apply (sq_seg_rebase _ prev) with (b' := node) in H2. by destruct l2.
    + apply only_insert; [apply only_insert; [done|set_solver|eauto]|set_solver|eauto].
Qed.

Lemma sq_remfirst_spec m q l :
  sq_rep m q l →
  wp (sq_remfirst q)
    (λ r m', fst r = default NULL (l !! 0%nat) ∧ sq_rep m' (snd r) (drop 1 l) ∧ only l m m') m.
Proof.
  intros Hr. unfold sq_remfirst. rewrite (sq_empty _ _ _ Hr). case_bool_decide as E.
  - subst. rewrite wp_ret. simpl. by rewrite (sq_head _ _ _ Hr).
  - destruct l as [|x l]; [done|]. pose proof (sq_head _ _ _ Hr) as Hh. simpl in Hh.
    destruct (sq_split _ _ [] _ _ Hr) as (Hd & Hx & c & n & H1 & Em & H2).
    rewrite Hh. rewrite wp_bind, (wp_deref _ n) by done.
    rewrite wp_bind, (wp_assign _ n), wp_ret by done. simpl.
    apply NoDup_cons in Hd as [Hd1 Hd2]. split_and!; [done| |].
    + rewrite drop_0. split; [done|]. simpl. apply (seg_insert _ _ _ _ _ _ _ x NULL Hd1).
      apply (sq_seg_rebase _ x) with (b' := NULL) in H2.
      destruct l as [|y l]; [by destruct H2 as [-> _]|]. pose proof H2 as (-> & Hy & _).
      by rewrite (proj2 (Z.eqb_neq y NULL)).
    + apply only_insert; [done|set_solver|eauto].
Qed.

Lemma remafter_spec m q l1 node l2 :
  sq_rep m q (l1 ++ node :: l2) →
  wp (sq_remafter node q)
    (λ r m', fst r = default NULL (l2 !! 0%nat) ∧ sq_rep m' (snd r) (l1 ++ node :: drop 1 l2) ∧
       only (l1 ++ node :: l2) m m') m.
Proof.
  intros Hr. destruct (sq_split _ _ _ _ _ Hr) as (Hd & Hx & c & n & H1 & Em & H2).
  unfold sq_remafter. rewrite wp_bind, (wp_deref _ n) by done.
  rewrite (sq_empty _ _ _ Hr), bool_decide_false by by destruct l1. simpl.
  destruct l2 as [|y l2].
  { destruct H2 as [-> Ht]. simpl. by rewrite wp_ret. }
  pose proof H2 as (-> & Hy & nx & v & Ey & -> & H3). rewrite (proj2 (Z.eqb_neq y NULL)) by done. simpl.
  apply NoDup_app in Hd as Hd'. destruct Hd' as (Hd1 & Hd2 & [Hd3 [Hd4 Hd5]%NoDup_cons]%NoDup_cons).
  rewrite drop_0. assert (NoDup (l1 ++ node :: l2)) as Hd'.
  { apply NoDup_app. split_and!; [done|set_solver|]. apply NoDup_cons_2; set_solver. }
  rewrite Z.eqb_sym. replace (l1 ++ node :: y :: l2) with ((l1 ++ [node]) ++ y :: l2) in Hr
    by by rewrite <- app_assoc.
  rewrite (tail_iff _ _ _ _ _ Hr). case_bool_decide as E.
  - subst. rewrite !wp_bind, (wp_assign _ y), wp_ret by done.
    rewrite wp_bind, (wp_assign _ nx), wp_ret; [|done|rewrite lookup_insert_ne by set_solver; done].
    simpl. split_and!; [done| |].
    + eapply sq_join; [done|done| |rewrite lookup_insert_ne, lookup_insert_eq by set_solver; done|done].
      do 2 (apply seg_insert; [set_solver|]). done.
    + apply only_insert; [apply only_insert; [done|set_solver|eauto]|set_solver|eauto].
  - rewrite !wp_bind, (wp_deref _ nx), wp_bind, (wp_assign _ y), wp_ret by done.
    rewrite wp_bind, (wp_assign _ nx), wp_ret; [|done|rewrite lookup_insert_ne by set_solver; done].
    simpl. split_and!; [done| |].
    + destruct q as [h t].
      eapply sq_join; [done|done| |rewrite lookup_insert_ne, lookup_insert_eq by set_solver; done|].
      * do 2 (apply seg_insert; [set_solver|]). done.
      * do 2 (apply seg_insert; [set_solver|]).
        apply (sq_seg_rebase _ y) with (b' := node) in H3. by destruct l2.
    + apply only_insert; [apply only_insert; [done|set_solver|eauto]|set_solver|eauto].
Qed.

(** The search returns the predecessor of a queued node, and the null pointer
    for a node that is not queued behind another one. *)
Lemma find_prev_spec m b p l e node fuel :
  seg fits m b p l e NULL → node ≠ NULL → (length l ≤ fuel)%nat → NoDup l →
  wp (find_prev fuel p node)
    (λ r m', m' = m ∧ ((∃ l1 l2, l = l1 ++ r :: node :: l2) ∨ (r = NULL ∧ node ∉ drop 1 l))) m.
Proof.
  revert b p fuel. induction l as [|x l IH]; intros b p fuel Hs Hn Hf Hd.
  - destruct Hs as [-> _]. destruct fuel; simpl; rewrite wp_ret; split; [done| |done|];
      right; split; (done || set_solver).
  - destruct Hs as (-> & Hx & n & v & E & -> & Hs). apply NoDup_cons in Hd as [Hd1 Hd2].
    destruct fuel as [|fuel]; [simpl in Hf; lia|]. simpl.
    rewrite (proj2 (Z.eqb_neq x NULL)) by done.
    rewrite wp_bind, (wp_deref _ n) by done.
    destruct (Z.eqb_spec n node) as [->|Nn].
    + rewrite wp_ret. split; [done|]. left. exists [].
      destruct l as [|y l]; [by destruct Hs as [-> _]|]. destruct Hs as (<- & _). by exists l.
    + eapply wp_mono; [apply (IH x n fuel Hs Hn); [simpl in Hf; lia|done]|].
      intros r m' [-> [(l1 & l2 & ->)|[-> Hnot]]]; split; [done| |done|].
      * left. by exists (x :: l1), l2.
      * right. split; [done|]. simpl. rewrite drop_0. destruct l as [|y l]; [set_solver|].
        destruct Hs as (<- & _). simpl in Hnot. rewrite drop_0 in Hnot. set_solver.
Qed.

Lemma sq_remlast_spec m q l :
  sq_rep m q l →
  wp (sq_remlast q)
    (λ r m', fst r = default NULL (last l) ∧
       sq_rep m' (snd r) (take (length l - 1) l) ∧ only l m m') m.
Proof.
  intros Hr. unfold sq_remlast. destruct l as [|x l _] using rev_ind.
  { pose proof Hr as [_ [Hh Ht]]. rewrite Ht. simpl. rewrite wp_ret. done. }
  pose proof (sq_tail _ _ _ Hr) as Ht. rewrite last_snoc in Ht |- *. simpl in Ht.
  destruct (sq_split _ _ _ _ _ Hr) as (Hd & Hx & c & n & H1 & Em & H2).
  rewrite Ht, (proj2 (Z.eqb_neq x NULL)) by done.
  rewrite length_app, Nat.add_sub, take_app_length.
  pose proof Hr as [_ Hs]. pose proof (sq_head _ _ _ Hr) as Hh.
  assert (is_Some (m !! x)) as Sx by eauto.
  destruct (Z.eqb_spec (head q) x) as [E|E].
  - rewrite !wp_bind, !wp_ret. rewrite wp_bind, (wp_assign _ n), wp_ret by done. simpl.
    assert (l = []) as ->.
    { destruct l as [|y l]; [done|]. simpl in Hh. subst y. rewrite E in Hd.
      apply NoDup_cons in Hd. set_solver. }
    split_and!; [done|apply sq_rep_empty|]. apply only_insert; [done|set_solver|done].
  - rewrite wp_bind, wp_bind, wp_gets, wp_bind. eapply wp_mono.
    { apply (find_prev_spec _ _ _ _ _ _ _ Hs Hx); [by eapply seg_length|done]. }
    intros r m' [-> [(l1 & l2 & El)|[-> Hnot]]].
    + rewrite (cons_middle r), app_assoc in El. 
      destruct (pivot_unique _ _ _ _ _ Hd El) as [-> <-].
      replace ((l1 ++ [r]) ++ [x]) with (l1 ++ r :: [x]) in * by by rewrite <- app_assoc.
      destruct (sq_split _ _ _ _ _ Hr) as (_ & Hrn & c' & n' & H1' & Em' & H2').
      rewrite (proj2 (Z.eqb_neq r NULL)) by done.
      apply NoDup_app in Hd as (Hd1 & Hd2 & [Hd3 Hd4]%NoDup_cons).
      rewrite wp_bind, (wp_assign _ n'), wp_ret by done.
      rewrite wp_bind, (wp_assign _ n), wp_ret; [|done|rewrite lookup_insert_ne by set_solver; done].
      simpl. split_and!; [done| |].
      * eapply sq_join; [apply NoDup_app; split_and!; [done|set_solver|apply NoDup_singleton]|done| |
          rewrite lookup_insert_ne, lookup_insert_eq by set_solver; done|done].
        do 2 (apply seg_insert; [set_solver|]). done.
      * apply only_insert; [apply only_insert; [done|set_solver|eauto]|set_solver|done].
    + exfalso. destruct l as [|y l]; [simpl in Hh; congruence|]. apply Hnot. simpl. rewrite drop_0. set_solver.
Qed.

(** Removing a node from the middle. *)
Lemma sq_rem_spec m q l1 node l2 :
  sq_rep m q (l1 ++ node :: l2) →
  wp (sq_rem node q)
    (λ q' m', sq_rep m' q' (l1 ++ l2) ∧ only (l1 ++ node :: l2) m m') m.
Proof.
  intros Hr. destruct (sq_split _ _ _ _ _ Hr) as (Hd & Hx & c & n & H1 & Em & H2).
  unfold sq_rem. rewrite (sq_empty _ _ _ Hr), bool_decide_false by by destruct l1.
  rewrite (proj2 (Z.eqb_neq node NULL)) by done. simpl.
  pose proof (sq_head _ _ _ Hr) as Hh. pose proof Hr as [_ Hs].
  rewrite (tail_iff _ _ _ _ _ Hr).
  destruct l1 as [|y l1].
  - simpl in Hh. rewrite Hh, Z.eqb_refl. rewrite wp_bind, (wp_deref _ n), wp_ret by done.
    split; [|done]. apply NoDup_cons in Hd as [Hd1 Hd2]. split; [done|]. simpl.
    apply (sq_seg_rebase _ node) with (b' := NULL) in H2. destruct l2; by case_bool_decide.
  - simpl in Hh. assert (node ≠ head q) as Hne.
    { simpl in Hd. apply NoDup_cons in Hd. rewrite Hh. set_solver. }
    rewrite (proj2 (Z.eqb_neq node (head q))) by done. rewrite wp_bind, wp_gets, wp_bind. eapply wp_mono.
    { apply (find_prev_spec _ _ _ _ _ _ _ Hs Hx); [by eapply seg_length|done]. }
    intros r m' [-> [(k1 & k2 & El)|[-> Hnot]]].
    + rewrite (cons_middle r), app_assoc in El.
      destruct (pivot_unique node (y :: l1) _ _ _ Hd El) as [E1 <-].
      rewrite E1 in *. rewrite <- app_assoc in Hr. simpl in Hr.
      destruct (sq_node _ _ _ r Hr) as [Hrn _]; [set_solver|].
      rewrite (proj2 (Z.eqb_neq r NULL)) by done. rewrite wp_bind.
      eapply wp_mono; [by apply remafter_spec|].
      intros [r' q'] m' (_ & H & Ho). rewrite wp_ret. simpl in *. rewrite drop_0 in H.
      rewrite <- !app_assoc. done.
    + exfalso. apply Hnot. simpl. rewrite drop_0. set_solver.
Qed.

(** Removing a node that is not queued does nothing. *)
Lemma rem_absent m q l node :
  sq_rep m q l → node ∉ l → wp (sq_rem node q) (λ q' m', q' = q ∧ m' = m) m.
Proof.
  intros Hr Hn. pose proof (sq_head _ _ _ Hr) as Hh. unfold sq_rem.
  rewrite (sq_empty _ _ _ Hr). case_bool_decide as E; [done|].
  destruct (Z.eqb_spec node NULL) as [->|Nn]; [done|]. simpl.
  destruct l as [|x l]; [done|]. simpl in Hh.
  rewrite (proj2 (Z.eqb_neq node (head q))) by (rewrite Hh; set_solver). pose proof Hr as [Hd Hs].
  rewrite wp_bind, wp_gets, wp_bind. eapply wp_mono.
  { apply (find_prev_spec _ _ _ _ _ _ _ Hs Nn); [by eapply seg_length|done]. }
  intros r m' [-> [(k1 & k2 & El)|[-> _]]]; [|done].
  rewrite El in Hn. set_solver.
Qed.

(** *** Sequences of operations *)

Inductive op : Type :=
| AddFirst (node : Z)
| AddLast (node : Z)
| AddAfter (prev node : Z)
| RemFirst
| RemLast
| RemAfter (node : Z)
| Rem (node : Z).

(** The pointer a call returns ([NULL] for the [void] functions) and the new
    header. *)
Definition run_op (o : op) (q : queue) : M links (Z * queue) :=
  match o with
  | AddFirst n => q <-- sq_addfirst n q ;; ret (NULL, q)
  | AddLast n => q <-- sq_addlast n q ;; ret (NULL, q)
  | AddAfter p n => q <-- sq_addafter p n q ;; ret (NULL, q)
  | RemFirst => sq_remfirst q
  | RemLast => sq_remlast q
  | RemAfter n => sq_remafter n q
  | Rem n => q <-- sq_rem n q ;; ret (NULL, q)
  end.

Fixpoint run_ops (os : list op) (q : queue) : M links (list Z * queue) :=
  match os with
  | [] => ret ([], q)
  | o :: os =>
      r <-- run_op o q ;; rs <-- run_ops os (snd r) ;; ret (fst r :: fst rs, snd rs)
  end.

(** The same on lists: [None] where the contract of the call is broken (a node
    that is already queued, not a node, or an unknown position). *)
Definition spec_op (nodes : gset Z) (o : op) (l : list Z) : option (Z * list Z) :=
  match o with
  | AddFirst n => guard (n ∈ nodes ∧ n ∉ l) ;; Some (NULL, n :: l)
  | AddLast n => guard (n ∈ nodes ∧ n ∉ l) ;; Some (NULL, l ++ [n])
  | AddAfter p n =>
      guard (n ∈ nodes ∧ n ∉ l) ;; '(i, _) ← list_find (p =.) l ;
      Some (NULL, take (S i) l ++ n :: drop (S i) l)
  | RemFirst => Some (default NULL (l !! 0%nat), drop 1 l)
  | RemLast => Some (default NULL (last l), take (length l - 1) l)
  | RemAfter n =>
      '(i, _) ← list_find (n =.) l ;
      Some (default NULL (l !! S i), take (S i) l ++ drop (S (S i)) l)
  | Rem n => Some (NULL, filter (n ≠.) l)
  end%stdpp.

Fixpoint spec_ops (nodes : gset Z) (os : list op) (l : list Z) : option (list Z * list Z) :=
  match os with
  | [] => Some ([], l)
  | o :: os =>
      '(r, l) ← spec_op nodes o l ; '(rs, l) ← spec_ops nodes os l ; Some (r :: rs, l)
  end%stdpp.

Lemma filter_ne_absent (n : Z) (l : list Z) : n ∉ l → filter (n ≠.) l = l.
Proof.
  induction l as [|x l IH]; intros H; [done|]. rewrite filter_cons_True by set_solver.
  f_equal. apply IH. set_solver.
Qed.

Lemma filter_ne_once (n : Z) (l1 l2 : list Z) :
  NoDup (l1 ++ n :: l2) → filter (n ≠.) (l1 ++ n :: l2) = l1 ++ l2.
Proof.
  intros (_ & H1 & [H2 _]%NoDup_cons)%NoDup_app.
  rewrite filter_app, filter_cons_False by tauto.
  rewrite !filter_ne_absent; [done|set_solver|set_solver].
Qed.

Lemma list_find_split (x : Z) (l : list Z) i y :
  list_find (x =.) l = Some (i, y) →
  l = take i l ++ x :: drop (S i) l ∧ take (S i) l = take i l ++ [x].
Proof.
  intros (Hi & -> & _)%list_find_Some. by rewrite take_drop_middle, (take_S_r _ _ y).
Qed.

Lemma sq_run_op_spec o m q l r l' :
  sq_rep m q l → NULL ∉ dom m → spec_op (dom m) o l = Some (r, l') →
  wp (run_op o q) (λ rq m', fst rq = r ∧ sq_rep m' (snd rq) l' ∧ dom m' = dom m) m.
Proof.
  intros Hr H0. assert (∀ n, n ∈ dom m → n ≠ NULL ∧ is_Some (m !! n)) as Hn.
  { intros n Hn. split; [set_solver|by apply elem_of_dom]. }
  destruct o as [n|n|p n|  | |n|n]; simpl; intros E; try (case_guard as G; [|done]; destruct G as [G1 G2];
    destruct (Hn _ G1)); simplify_option_eq.
  - rewrite wp_bind. eapply wp_mono; [by apply sq_addfirst_spec|]. intros q' m' [? []]. done.
  - rewrite wp_bind. eapply wp_mono; [by apply sq_addlast_spec|]. intros q' m' [? []]. done.
  - destruct (list_find (p =.) l) as [[i y]|] eqn:Ef; simplify_eq/=.
    destruct (list_find_split _ _ _ _ Ef) as [El Et]. rewrite Et, <- app_assoc. simpl.
    rewrite wp_bind. eapply wp_mono; [apply (sq_addafter_spec m q (take i l) p (drop (S i) l) n)|];
      rewrite <- ?El; [done..|]. intros q' m' [? []]. done.
  - eapply wp_mono; [by apply sq_remfirst_spec|]. intros [x q'] m' (? & ? & []). done.
  - eapply wp_mono; [by apply sq_remlast_spec|]. intros [x q'] m' (? & ? & []). done.
  - destruct (list_find (n =.) l) as [[i y]|] eqn:Ef; simplify_eq/=.
    destruct (list_find_split _ _ _ _ Ef) as [El Et]. rewrite Et, <- app_assoc. simpl.
    rewrite El in Hr. eapply wp_mono; [by apply remafter_spec|].
    intros [x q'] m' (E1 & E2 & []). rewrite drop_drop, Nat.add_1_r in E2. split_and!; [|done|done].
    rewrite E1, lookup_drop. by rewrite Nat.add_0_r.
  - rewrite wp_bind. destruct (decide (n ∈ l)) as [(l1 & l2 & ->)%list_elem_of_split|Hl].
    + rewrite filter_ne_once by apply Hr. eapply wp_mono; [by apply sq_rem_spec|].
      intros q' m' [? []]. done.
    + rewrite filter_ne_absent by done. eapply wp_mono; [by eapply rem_absent|].
      intros q' m' [-> ->]. done.
Qed.

(** C32: the singly linked queues are lists: any sequence of queue calls that
    respects their contract, from a store that represents the list [l], is
    defined, returns the pointers the list operations return, and ends in a
    store that represents the resulting list. *)
Theorem sq_refinement os m q l rs l' :
  sq_rep m q l → NULL ∉ dom m → spec_ops (dom m) os l = Some (rs, l') →
  ∃ q' m', run_ops os q m = Ok ((rs, q'), m') ∧ sq_rep m' q' l'.
Proof.
  revert m q l rs. induction os as [|o os IH]; intros m q l rs Hr H0 E; simpl in E.
  - simplify_eq. by exists q, m.
  - destruct (spec_op (dom m) o l) as [[r l1]|] eqn:E1; simplify_eq/=.
    destruct (spec_ops (dom m) os l1) as [[rs1 l2]|] eqn:E2; simplify_eq/=.
    destruct (wp_run _ _ _ (sq_run_op_spec _ _ _ _ _ _ Hr H0 E1)) as ([r' q1] & m1 & R1 & <- & Hr1 & D).
    rewrite <- D in E2, H0. destruct (IH _ _ _ _ Hr1 H0 E2) as (q' & m' & R2 & Hr').
    exists q', m'. split; [|done]. unfold bind. rewrite R1. cbn [res_bind]. simpl in R2.
    simpl. rewrite R2. done.
Qed.

Lemma sq_refinement_witness :
  ∃ q' m', run_ops [AddLast 10; AddLast 20; AddFirst 30; AddAfter 10 40; RemLast; Rem 10; RemAfter 30; RemFirst]
      empty_queue (list_to_map [(10, 0); (20, 0); (30, 0); (40, 0)])
    = Ok (([0; 0; 0; 0; 20; 0; 40; 30], q'), m') ∧ sq_rep m' q' [].
Proof.
  apply (sq_refinement _ _ _ []); [apply sq_rep_empty| |vm_compute; reflexivity].
  by vm_compute.
Defined.

End Sq.

(** ** Doubly linked queues *)

Module Dq.
#[local] Open Scope cmd_scope.

(** The store of [flink] and [blink] fields. *)
Record links_of : Type := mklinks { flink : Z; blink : Z }.
Abbreviation links := (gmap Z links_of).

Definition set_flink (p : Z) (v : links_of) : links_of := mklinks p (blink v).
Definition set_blink (p : Z) (v : links_of) : links_of := mklinks (flink v) p.

Definition dq_addfirst (node : Z) (q : queue) : M links queue :=
  assign node (set_blink NULL) ;;;
  assign node (set_flink (head q)) ;;;
  if head q =? NULL then ret (mkqueue node node)
  else assign (head q) (set_blink node) ;;; ret (mkqueue node (tail q)).

Definition dq_addlast (node : Z) (q : queue) : M links queue :=
  assign node (set_flink NULL) ;;;
  assign node (set_blink (tail q)) ;;;
  if head q =? NULL then ret (mkqueue node node)
  else assign (tail q) (set_flink node) ;;; ret (mkqueue (head q) node).

Definition dq_addafter (prev node : Z) (q : queue) : M links queue :=
  if (head q =? NULL) || (prev =? tail q) then dq_addlast node q
  else
    pv <-- deref prev ;;
    let next := flink pv in
    assign node (set_blink prev) ;;;
    assign node (set_flink next) ;;;
    assign next (set_blink node) ;;;
    assign prev (set_flink node) ;;;
    ret q.

Definition dq_addbefore (next node : Z) (q : queue) : M links queue :=
  if (head q =? NULL) || (next =? head q) then dq_addfirst node q
  else
    nv <-- deref next ;;
    let prev := blink nv in
    assign node (set_flink next) ;;;
    assign node (set_blink prev) ;;;
    assign prev (set_flink node) ;;;
    assign next (set_blink node) ;;;
    ret q.

Definition dq_rem (node : Z) (q : queue) : M links queue :=
  v <-- deref node ;;
  let prev := blink v in
  let next := flink v in
  q <-- (if prev =? NULL then ret (mkqueue next (tail q))
         else assign prev (set_flink next) ;;; ret q) ;;
  q <-- (if next =? NULL then ret (mkqueue (head q) prev)
         else assign next (set_blink prev) ;;; ret q) ;;
  assign node (set_flink NULL) ;;;
  assign node (set_blink NULL) ;;;
  ret q.

Definition dq_remfirst (q : queue) : M links (Z * queue) :=
  let r := head q in
  if r =? NULL then ret (r, q)
  else
    v <-- deref r ;;
    let next := flink v in
    q <-- (if next =? NULL then ret empty_queue
           else assign next (set_blink NULL) ;;; ret (mkqueue next (tail q))) ;;
    assign r (set_flink NULL) ;;;
    assign r (set_blink NULL) ;;;
    ret (r, q).

Definition dq_remlast (q : queue) : M links (Z * queue) :=
  let r := tail q in
  if r =? NULL then ret (r, q)
  else
    v <-- deref r ;;
    let prev := blink v in
    q <-- (if prev =? NULL then ret empty_queue
           else assign prev (set_flink NULL) ;;; ret (mkqueue (head q) prev)) ;;
    assign r (set_flink NULL) ;;;
    assign r (set_blink NULL) ;;;
    ret (r, q).

(** *** Representation *)

Definition fits (b n : Z) (v : links_of) : Prop := v = mklinks n b.

Definition dq_rep (m : links) (q : queue) (l : list Z) : Prop :=
  NoDup l ∧ seg fits m NULL (head q) l (tail q) NULL.

Lemma dq_rep_empty m : dq_rep m empty_queue [].
Proof. split; [apply NoDup_nil_2|done]. Qed.

(** Redirecting the end of a segment, and the start of one. *)
Lemma seg_retarget m m' b p l c n n' :
  seg fits m b p l c n → NoDup l →
  (l ≠ [] → m' !! c = set_flink n' <$> m !! c) → (∀ x, x ∈ l → x ≠ c → m' !! x = m !! x) →
  seg fits m' b (if l is [] then n' else p) l c n'.
Proof.
  intros Hs Hd Hc Hx. destruct l as [|x l _] using rev_ind; [by destruct Hs as [_ ->]|].
  apply seg_app in Hs as (c' & r & H1 & (-> & Hx0 & nx & v & E & -> & [-> ->])).
  apply NoDup_app in Hd as (_ & Hd & _). rewrite E in Hc. simpl in Hc.
  assert (seg fits m' b p (l ++ [x]) x n').
  { apply seg_app. exists c', x. split.
    - eapply seg_frame; [done|]. intros y Hy. apply Hx; set_solver.
    - simpl. split_and!; [done|done|]. exists n', (mklinks n' c'). split_and!; [|done..].
      rewrite Hc by by destruct l. done. }
  by destruct l.
Qed.

Lemma dq_seg_rebase m m' b b' r l t n :
  seg fits m b r l t n → NoDup l →
  (l ≠ [] → m' !! r = set_blink b' <$> m !! r) → (∀ x, x ∈ l → x ≠ r → m' !! x = m !! x) →
  seg fits m' b' r l (if l is [] then b' else t) n.
Proof.
  intros Hs Hd Hr Hx. destruct l as [|x l]; [by destruct Hs as [-> _]|].
  destruct Hs as (-> & Hx0 & nx & v & E & -> & Hs). apply NoDup_cons in Hd as [Hd _].
  simpl. split_and!; [done|done|]. exists nx, (mklinks nx b'). rewrite Hr, E by done.
  split_and!; [done..|]. eapply seg_frame; [done|]. intros y Hy. apply Hx; set_solver.
Qed.

(** Where two adjacent segments meet. *)
Lemma meet m h t l1 l2 c r :
  seg fits m NULL h l1 c r → seg fits m c r l2 t NULL →
  (c = NULL ↔ l1 = []) ∧ (r = NULL ↔ l2 = []) ∧ (l1 ≠ [] → c ∈ l1) ∧ (l2 ≠ [] → r ∈ l2).
Proof.
  intros H1 H2. pose proof (seg_nonnull _ _ _ _ _ _ _ H1). pose proof (seg_nonnull _ _ _ _ _ _ _ H2).
  apply seg_last in H1. apply seg_head in H2.
  assert (l1 ≠ [] → c ∈ l1) as Hc.
  { intros Hl. destruct (last l1) as [z|] eqn:E; [|by apply last_None in E].
    apply last_Some_elem_of in E. by rewrite H1. }
  assert (l2 ≠ [] → r ∈ l2) as Hr by (destruct l2; [done|]; intros _; rewrite H2; set_solver).
  split_and!; [| |done|done].
  - split; [|by intros ->]. intros ->. destruct l1; [done|]. by destruct H; apply Hc.
  - split; [|by intros ->]. intros ->. destruct l2; [done|]. by destruct H0; apply Hr.
Qed.

(** Linking a node between two segments, and unlinking it. *)
Lemma link_rep m m' h t l1 l2 c r node :
  NoDup (l1 ++ node :: l2) → node ≠ NULL →
  seg fits m NULL h l1 c r → seg fits m c r l2 t NULL →
  m' !! node = Some (mklinks r c) →
  (c ≠ NULL → m' !! c = set_flink node <$> m !! c) →
  (r ≠ NULL → m' !! r = set_blink node <$> m !! r) →
  (∀ x, x ≠ node → x ≠ c → x ≠ r → m' !! x = m !! x) →
  dq_rep m' (mkqueue (if c =? NULL then node else h) (if r =? NULL then node else t))
    (l1 ++ node :: l2).
Proof.
  intros Hd Hn H1 H2 En Ec Er Ex. destruct (meet _ _ _ _ _ _ _ H1 H2) as (Mc & Mr & Ic & Ir).
  split; [done|]. apply NoDup_app in Hd as (Hd1 & Hd2 & [Hd3 Hd4]%NoDup_cons).
  apply seg_app. exists c, node. split.
  - apply (seg_retarget _ m' _ _ _ _ _ node) in H1; [|done|naive_solver|].
    + destruct l1; [by rewrite (proj2 Mc)|]. rewrite (proj2 (Z.eqb_neq c NULL)) by naive_solver. done.
    + intros x Hx Hxc. apply Ex; [set_solver|done|]. intros ->. apply seg_nonnull in H1.
      destruct l2; [by rewrite (proj2 Mr) in Hx|]. apply (Hd2 _ Hx), elem_of_cons. right. by apply Ir.
  - simpl. split_and!; [done|done|]. exists r, (mklinks r c). split_and!; [done|done|].
    apply (dq_seg_rebase _ m' _ node) in H2; [|done|naive_solver|].
    + destruct l2; [by rewrite (proj2 Mr)|]. rewrite (proj2 (Z.eqb_neq r NULL)) by naive_solver. done.
    + intros x Hx Hxr. apply Ex; [set_solver| |done]. intros ->. apply seg_nonnull in H2.
      destruct l1; [by rewrite (proj2 Mc) in Hx|]. apply (Hd2 c); [by apply Ic|]. apply elem_of_cons. by right.
Qed.

Lemma unlink_rep m m' h t l1 l2 c r node :
  NoDup (l1 ++ node :: l2) →
  seg fits m NULL h l1 c node → seg fits m node r l2 t NULL →
  (c ≠ NULL → m' !! c = set_flink r <$> m !! c) →
  (r ≠ NULL → m' !! r = set_blink c <$> m !! r) →
  (∀ x, x ≠ node → x ≠ c → x ≠ r → m' !! x = m !! x) →
  dq_rep m' (mkqueue (if c =? NULL then r else h) (if r =? NULL then c else t)) (l1 ++ l2).
Proof.
  intros Hd H1 H2 Ec Er Ex.
  apply NoDup_app in Hd as (Hd1 & Hd2 & [Hd3 Hd4]%NoDup_cons).
  split; [apply NoDup_app; split_and!; [done|set_solver|done]|]. simpl.
  pose proof (seg_nonnull _ _ _ _ _ _ _ H1) as N1. pose proof (seg_nonnull _ _ _ _ _ _ _ H2) as N2.
  pose proof (seg_last _ _ _ _ _ _ _ H1) as L1. pose proof (seg_head _ _ _ _ _ _ _ H2) as L2.
  assert (if decide (l1 = []) then c = NULL else c ∈ l1) as Ic.
  { destruct (decide _) as [->|Hl]; [done|]. destruct (last l1) as [z|] eqn:E;
      [apply last_Some_elem_of in E; by rewrite L1|by apply last_None in E]. }
  assert (if decide (l2 = []) then r = NULL else r ∈ l2) as Ir.
  { destruct l2; [done|]. rewrite L2. set_solver. }
  apply seg_app. exists c, r. split.
  - apply (seg_retarget _ m' _ _ _ _ _ r) in H1; [|done| |].
    + destruct l1; [by rewrite Ic|]. simpl in Ic.
      rewrite (proj2 (Z.eqb_neq c NULL)) by (intros ->; done). done.
    + intros Hl. rewrite decide_False in Ic by done. apply Ec. intros ->; done.
    + intros x Hx Hxc. apply Ex; [set_solver|done|]. intros ->.
      destruct l2; simpl in Ir; [by rewrite Ir in Hx|]. apply (Hd2 _ Hx). by apply elem_of_cons; right.
  - apply (dq_seg_rebase _ m' _ c) in H2; [|done| |].
    + destruct l2; [by rewrite Ir|]. simpl in Ir.
      rewrite (proj2 (Z.eqb_neq r NULL)) by (intros ->; done). done.
    + intros Hl. rewrite decide_False in Ir by done. apply Er. intros ->; done.
    + intros x Hx Hxr. apply Ex; [set_solver| |done]. intros ->.
      destruct l1; simpl in Ic; [by rewrite Ic in Hx|]. apply (Hd2 _ Ic). by apply elem_of_cons; right.
Qed.

(** Cutting a queue in two: the nodes at the cut point at each other. *)
Lemma dq_cut m q l1 l2 :
  dq_rep m q (l1 ++ l2) →
  ∃ c r, seg fits m NULL (head q) l1 c r ∧ seg fits m c r l2 (tail q) NULL ∧
    c = default NULL (last l1) ∧ r = default NULL (l2 !! 0%nat) ∧
    (c ≠ NULL → ∃ b, m !! c = Some (mklinks r b)) ∧
    (r ≠ NULL → ∃ n, m !! r = Some (mklinks n c)).
Proof.
  intros [_ (c & r & H1 & H2)%seg_app]. exists c, r.
  pose proof (seg_last _ _ _ _ _ _ _ H1) as L1. pose proof (seg_head _ _ _ _ _ _ _ H2) as L2.
  split_and!; [done..| |].
  - intros Hc. destruct l1 as [|x l1 _] using rev_ind; [by destruct H1 as [_ ->]|].
    apply seg_app in H1 as (c' & r' & _ & (-> & _ & nx & v & E & -> & [-> ->])). eauto.
  - intros Hr. destruct l2 as [|x l2]; [by destruct H2 as [-> _]|].
    destruct H2 as (-> & _ & nx & v & E & -> & _). eauto.
Qed.

Lemma dq_cut_node m q l1 node l2 :
  dq_rep m q (l1 ++ node :: l2) →
  node ≠ NULL ∧ ∃ c r, m !! node = Some (mklinks r c) ∧
    seg fits m NULL (head q) l1 c node ∧ seg fits m node r l2 (tail q) NULL ∧
    c = default NULL (last l1) ∧ r = default NULL (l2 !! 0%nat) ∧
    (c ≠ NULL → c ≠ node ∧ c ≠ r ∧ ∃ b, m !! c = Some (mklinks node b)) ∧
    (r ≠ NULL → r ≠ node ∧ ∃ n, m !! r = Some (mklinks n node)).
Proof.
  intros Hr. destruct (dq_cut _ _ _ _ Hr) as (c & r0 & H1 & H2 & Ec & _ & Fc & _).
  rewrite (cons_middle node), app_assoc in Hr.
  destruct (dq_cut _ _ _ _ Hr) as (c' & r & H1' & H2' & Ec' & Er & _ & Fr).
  rewrite last_snoc in Ec'. simpl in Ec'. subst c'.
  destruct H2 as (-> & Hn & nx & v & E & -> & H2). split; [done|]. exists c, r.
  assert (nx = r) as -> by (apply seg_head in H2; congruence).
  destruct Hr as [Hd _]. rewrite <- app_assoc in Hd.
  apply NoDup_app in Hd as (_ & Hd & [Hd' _]%NoDup_cons).
  assert (r ≠ NULL → r ∈ l2) as Ir.
  { intros Hr. destruct l2; [by subst|]. simpl in Er. rewrite Er. set_solver. }
  split_and!; [done..| |].
  - intros Hc. assert (c ∈ l1) as Ic.
    { destruct (last l1) as [z|] eqn:El; simpl in Ec; [|done].
      rewrite Ec. by apply last_Some_elem_of in El. }
    split_and!; [|intros ->|by apply Fc].
    + intros ->. apply (Hd _ Ic). set_solver.
    + apply (Hd _ Ic). apply elem_of_cons. right. by apply Ir.
  - intros Hr. split; [|by apply Fr]. intros ->. by apply Hd', Ir.
Qed.

Ltac dq_step :=
  first
    [ rewrite wp_bind
    | rewrite wp_ret
    | erewrite wp_deref; [|done|by simplify_map_eq]
    | erewrite wp_assign; [|done|by simplify_map_eq] ].

(** The store after an operation, looked up. *)
Ltac dq_lookup :=
  intros; simplify_map_eq; unfold set_flink, set_blink; simpl; done.

Lemma empty_iff m q l : dq_rep m q l → (head q =? NULL) = bool_decide (l = []).
Proof.
  intros [_ H]. destruct l as [|x l]; simpl in H.
  - destruct H as [-> _]. by rewrite bool_decide_true.
  - destruct H as (-> & Hx & _). rewrite bool_decide_false by done. by apply Z.eqb_neq.
Qed.

Ltac dq_only := repeat (apply only_insert; [|set_solver|eauto]); done.

Lemma dq_addfirst_spec m q l node :
  dq_rep m q l → node ∉ l → node ≠ NULL → is_Some (m !! node) →
  wp (dq_addfirst node q) (λ q' m', dq_rep m' q' (node :: l) ∧ only (node :: l) m m') m.
Proof.
  intros Hr Hl Hn [v Hv]. destruct (dq_cut _ _ [] _ Hr) as (c & r & H1 & H2 & -> & Er & _ & Fr).
  pose proof Hr as [Hd _]. unfold dq_addfirst. pose proof H1 as [Eh _].
  do 4 dq_step. rewrite Eh. destruct (Z.eqb_spec r NULL) as [->|Nr].
  - assert (l = []) as -> by (by destruct l; [|destruct H2 as (? & ? & _); congruence]).
    repeat dq_step. split; [|dq_only].
    apply (link_rep m _ NULL NULL [] [] NULL NULL); try done; first [apply NoDup_singleton|dq_lookup].
  - destruct (Fr Nr) as [n En]. assert (r ∈ l) as Ir.
    { destruct l; simpl in Er; [done|]. rewrite Er. set_solver. }
    assert (r ≠ node) as Hrn by (intros ->; done).
    repeat dq_step. split; [|dq_only].
    pose proof (link_rep m (<[r:=set_blink node (mklinks n NULL)]>
      (<[node:=set_flink r (set_blink NULL v)]> (<[node:=set_blink NULL v]> m)))
      (head q) (tail q) [] l NULL r node) as L.
    simpl in L. rewrite (proj2 (Z.eqb_neq r NULL)) in L by done.
    apply L; try done; first [by apply NoDup_cons_2|dq_lookup].
Qed.

Lemma dq_addlast_spec m q l node :
  dq_rep m q l → node ∉ l → node ≠ NULL → is_Some (m !! node) →
  wp (dq_addlast node q) (λ q' m', dq_rep m' q' (l ++ [node]) ∧ only (node :: l) m m') m.
Proof.
  intros Hr Hl Hn [v Hv]. pose proof Hr as Hr'. rewrite <- (app_nil_r l) in Hr'.
  destruct (dq_cut _ _ _ _ Hr') as (c & r & H1 & H2 & Ec & -> & Fc & _).
  pose proof Hr as [Hd _]. unfold dq_addlast. pose proof H2 as [_ Et].
  do 4 dq_step. rewrite Et, (empty_iff _ _ _ Hr). case_bool_decide as El.
  - subst l. simpl in Ec. subst c. repeat dq_step. split; [|dq_only].
    apply (link_rep m _ NULL NULL [] [] NULL NULL); try done; first [apply NoDup_singleton|dq_lookup].
  - assert (c ∈ l) as Ic.
    { destruct (last l) as [z|] eqn:E; [|by apply last_None in E].
      rewrite Ec. by apply last_Some_elem_of in E. }
    assert (c ≠ NULL) as Nc by (intros ->; by apply seg_nonnull in H1).
    destruct (Fc Nc) as [b Eb]. assert (c ≠ node) as Hcn by (intros ->; done).
    repeat dq_step. split; [|dq_only].
    pose proof (link_rep m (<[c:=set_flink node (mklinks (default NULL ([] !! 0%nat)) b)]>
      (<[node:=set_blink c (set_flink NULL v)]> (<[node:=set_flink NULL v]> m)))
      (head q) (tail q) l [] c NULL node) as L.
    simpl in L. rewrite (proj2 (Z.eqb_neq c NULL)) in L by done.
    apply L; try done; first [apply NoDup_app; split_and!; [done|set_solver|apply NoDup_singleton]|dq_lookup].
Qed.

Lemma ends_iff m q l1 x l2 :
  dq_rep m q (l1 ++ x :: l2) →
  (x =? tail q) = bool_decide (l2 = []) ∧ (x =? head q) = bool_decide (l1 = []).
Proof.
  intros Hr. destruct (dq_cut_node _ _ _ _ _ Hr) as (Hx & c & r & _ & H1 & H2 & Ec & Er & Fc & Fr).
  pose proof (proj1 Hr) as Hd. apply NoDup_app in Hd as (_ & Hd & [Hd' _]%NoDup_cons).
  pose proof (seg_head _ _ _ _ _ _ _ H1) as Eh. pose proof (seg_last _ _ _ _ _ _ _ H2) as Et. split.
  - case_bool_decide as E; [subst; by apply Z.eqb_eq|]. apply Z.eqb_neq. intros Ex.
    destruct (last l2) as [z|] eqn:El; [|by apply last_None in El]. simpl in Et.
    apply last_Some_elem_of in El. congruence.
  - case_bool_decide as E; [subst; by apply Z.eqb_eq|]. apply Z.eqb_neq. intros Ex.
    destruct l1 as [|y l1]; [done|]. simpl in Eh. apply (Hd y); set_solver.
Qed.

(** A node between [c] and [r], both queued. *)
Lemma addbetween m m' q l1 l2 c r b n node :
  dq_rep m q (l1 ++ l2) → node ∉ l1 ++ l2 → node ≠ NULL →
  seg fits m NULL (head q) l1 c r → seg fits m c r l2 (tail q) NULL →
  c ≠ NULL → r ≠ NULL → m !! c = Some (mklinks r b) → m !! r = Some (mklinks n c) →
  m' !! node = Some (mklinks r c) → m' !! c = Some (mklinks node b) →
  m' !! r = Some (mklinks n node) → (∀ x, x ≠ node → x ≠ c → x ≠ r → m' !! x = m !! x) →
  dq_rep m' q (l1 ++ node :: l2).
Proof.
  intros [Hd _] Hl Hn H1 H2 Nc Nr Ec Er En' Ec' Er' Ex.
  pose proof (link_rep m m' (head q) (tail q) l1 l2 c r node) as L.
  rewrite (proj2 (Z.eqb_neq c NULL)), (proj2 (Z.eqb_neq r NULL)) in L by done.
  destruct q. apply L; try done.
  - apply NoDup_app in Hd as (Hd1 & Hd2 & Hd3). apply NoDup_app.
    split_and!; [done|set_solver|]. apply NoDup_cons_2; [set_solver|done].
  - intros _. by rewrite Ec, Ec'.
  - intros _. by rewrite Er, Er'.
Qed.

Lemma adjacent_distinct m q l1 l2 c r :
  dq_rep m q (l1 ++ l2) → seg fits m NULL (head q) l1 c r → seg fits m c r l2 (tail q) NULL →
  c ≠ NULL → r ≠ NULL → c ≠ r ∧ c ∈ l1 ∧ r ∈ l2.
Proof.
  intros [(_ & Hd & _)%NoDup_app _] H1 H2 Nc Nr. destruct (meet _ _ _ _ _ _ _ H1 H2) as (Mc & Mr & Ic & Ir).
  assert (c ∈ l1) by (apply Ic; naive_solver). assert (r ∈ l2) by (apply Ir; naive_solver).
  split_and!; [|done..]. intros ->. by apply (Hd r).
Qed.

Lemma dq_addafter_spec m q l1 prev l2 node :
  dq_rep m q (l1 ++ prev :: l2) → node ∉ l1 ++ prev :: l2 → node ≠ NULL → is_Some (m !! node) →
  wp (dq_addafter prev node q)
    (λ q' m', dq_rep m' q' (l1 ++ prev :: node :: l2) ∧ only (node :: l1 ++ prev :: l2) m m') m.
Proof.
  intros Hr Hl Hn Hv. unfold dq_addafter.
  rewrite (empty_iff _ _ _ Hr), bool_decide_false, (proj1 (ends_iff _ _ _ _ _ Hr)) by by destruct l1.
  simpl. case_bool_decide as El.
  { subst. eapply wp_mono; [by apply dq_addlast_spec|]. intros q' m' [H ?]. by rewrite <- app_assoc in H. }
  destruct Hv as [v Hv]. rewrite (cons_middle prev), app_assoc in Hr, Hl.
  rewrite (cons_middle prev l1 (node :: l2)), (cons_middle prev l1 l2), !app_assoc.
  destruct (dq_cut _ _ _ _ Hr) as (c & r & H1 & H2 & Ec & Er & Fc & Fr).
  rewrite last_snoc in Ec. simpl in Ec. subst c.
  assert (prev ≠ NULL ∧ r ≠ NULL) as [Np Nr].
  { destruct (meet _ _ _ _ _ _ _ H1 H2) as (Mc & Mr & _). split; [|naive_solver].
    intros E. apply Mc in E. by destruct l1. }
  destruct (Fc Np) as [b Eb], (Fr Nr) as [n En].
  destruct (adjacent_distinct _ _ _ _ _ _ Hr H1 H2 Np Nr) as (Hpr & Ip & Ir).
  assert (prev ≠ node ∧ r ≠ node) as [Hpn Hrn] by (split; intros ->; apply Hl, elem_of_app; auto).
  clear Er. repeat dq_step. simpl. repeat dq_step. split; [|dq_only].
  eapply (addbetween m _ q _ _ prev r b n); try done; dq_lookup.
Qed.

Lemma addbefore_spec m q l1 next l2 node :
  dq_rep m q (l1 ++ next :: l2) → node ∉ l1 ++ next :: l2 → node ≠ NULL → is_Some (m !! node) →
  wp (dq_addbefore next node q)
    (λ q' m', dq_rep m' q' (l1 ++ node :: next :: l2) ∧ only (node :: l1 ++ next :: l2) m m') m.
Proof.
  intros Hr Hl Hn Hv. unfold dq_addbefore.
  rewrite (empty_iff _ _ _ Hr), bool_decide_false, (proj2 (ends_iff _ _ _ _ _ Hr)) by by destruct l1.
  simpl. case_bool_decide as El; [subst; by apply dq_addfirst_spec|].
  destruct Hv as [v Hv].
  destruct (dq_cut _ _ _ _ Hr) as (c & r & H1 & H2 & Ec & Er & Fc & Fr). simpl in Er. subst r.
  assert (c ≠ NULL ∧ next ≠ NULL) as [Nc Nn].
  { destruct (meet _ _ _ _ _ _ _ H1 H2) as (Mc & Mr & _). naive_solver. }
  destruct (Fc Nc) as [b Eb], (Fr Nn) as [n En].
  destruct (adjacent_distinct _ _ _ _ _ _ Hr H1 H2 Nc Nn) as (Hcn & Ic & In).
  assert (c ≠ node ∧ next ≠ node) as [Hpn Hrn] by (split; intros ->; apply Hl, elem_of_app; auto).
  clear Ec. repeat dq_step. simpl. repeat dq_step. split; [|dq_only].
  eapply (addbetween m _ q _ _ c next b n); try done; dq_lookup.
Qed.

Lemma dq_rem_spec m q l1 node l2 :
  dq_rep m q (l1 ++ node :: l2) →
  wp (dq_rem node q) (λ q' m', dq_rep m' q' (l1 ++ l2) ∧ only (l1 ++ node :: l2) m m') m.
Proof.
  intros Hr. destruct (dq_cut_node _ _ _ _ _ Hr) as (Hn & c & r & En & H1 & H2 & Ec & Er & Fc & Fr).
  pose proof (unlink_rep m) as L. pose proof (proj1 Hr) as Hd.
  assert (c ≠ NULL → c ∈ l1) as Ic.
  { intros Hc. destruct (last l1) eqn:E; simpl in Ec; [|done]. rewrite Ec. by apply last_Some_elem_of in E. }
  assert (r ≠ NULL → r ∈ l2) as Ir.
  { intros Hc. destruct l2; simpl in Er; [done|]. rewrite Er. set_solver. }
  clear Ec Er. unfold dq_rem. do 2 dq_step. simpl. rewrite wp_bind.
  destruct (Z.eqb_spec c NULL) as [->|Nc];
    [|destruct (Fc Nc) as (Hcn & Hcr & b & Eb)]; repeat dq_step; simpl;
    (destruct (Z.eqb_spec r NULL) as [->|Nr]; [|destruct (Fr Nr) as (Hrn & n & En')]);
    repeat dq_step; (split; [|repeat (apply only_insert; [|set_solver|eauto]); done]).
  - eapply (L _ (head q) (tail q) l1 l2 NULL NULL node); try done; dq_lookup.
  - pose proof (λ m', L m' (head q) (tail q) l1 l2 NULL r node) as L'.
    rewrite (proj2 (Z.eqb_neq r NULL)) in L' by done. apply L'; try done; dq_lookup.
  - pose proof (λ m', L m' (head q) (tail q) l1 l2 c NULL node) as L'.
    rewrite (proj2 (Z.eqb_neq c NULL)) in L' by done. apply L'; try done; dq_lookup.
  - pose proof (λ m', L m' (head q) (tail q) l1 l2 c r node) as L'.
    rewrite (proj2 (Z.eqb_neq c NULL)), (proj2 (Z.eqb_neq r NULL)) in L' by done.
    destruct q. apply L'; try done; dq_lookup.
Qed.

Lemma dq_remfirst_spec m q l :
  dq_rep m q l →
  wp (dq_remfirst q)
    (λ r m', fst r = default NULL (l !! 0%nat) ∧ dq_rep m' (snd r) (drop 1 l) ∧ only l m m') m.
Proof.
  intros Hr. unfold dq_remfirst. rewrite (empty_iff _ _ _ Hr). destruct l as [|x l].
  { rewrite bool_decide_true, wp_ret by done. by destruct (proj2 Hr) as [-> _]. }
  rewrite bool_decide_false by done. destruct (proj2 Hr) as [-> _].
  destruct (dq_cut_node _ _ [] _ _ Hr) as (Hn & c & r & En & H1 & H2 & -> & Er & _ & Fr).
  assert (r ≠ NULL → r ∈ l) as Ir.
  { intros Hc. destruct l; simpl in Er; [done|]. rewrite Er. set_solver. }
  pose proof (λ m', unlink_rep m m' (head q) (tail q) [] l NULL r x (proj1 Hr) H1 H2) as L.
  clear Er. do 3 dq_step. simpl. rewrite drop_0.
  destruct (Z.eqb_spec r NULL) as [->|Nr]; [|destruct (Fr Nr) as (Hrn & n & En')];
    repeat dq_step; simpl;
    (split_and!; [done| |repeat (apply only_insert; [|set_solver|eauto]); done]).
  - apply L; dq_lookup.
  - apply L; dq_lookup.
Qed.

Lemma dq_remlast_spec m q l :
  dq_rep m q l →
  wp (dq_remlast q)
    (λ r m', fst r = default NULL (last l) ∧
       dq_rep m' (snd r) (take (length l - 1) l) ∧ only l m m') m.
Proof.
  intros Hr. unfold dq_remlast. destruct l as [|x l _] using rev_ind.
  { pose proof Hr as [_ [Hh Ht]]. rewrite Ht. simpl. by rewrite wp_ret. }
  destruct (dq_cut_node _ _ _ _ _ Hr) as (Hn & c & r & En & H1 & H2 & Ec & -> & Fc & _).
  pose proof H2 as [_ Et]. rewrite last_snoc, length_app, Nat.add_sub, take_app_length. simpl.
  rewrite Et, (proj2 (Z.eqb_neq x NULL)) by done.
  assert (c ≠ NULL → c ∈ l) as Ic.
  { intros Hc. destruct (last l) eqn:E; simpl in Ec; [|done]. rewrite Ec. by apply last_Some_elem_of in E. }
  pose proof (λ m', unlink_rep m m' (head q) (tail q) l [] c NULL x (proj1 Hr) H1 H2) as L.
  rewrite app_nil_r in L. assert (c = NULL → l = []) as El.
  { intros ->. destruct (last l) eqn:E; simpl in Ec; [|by apply last_None in E].
    apply last_Some_elem_of in E. apply seg_nonnull in H1. congruence. }
  clear Ec. do 3 dq_step. simpl.
  destruct (Z.eqb_spec c NULL) as [->|Nc]; [|destruct (Fc Nc) as (Hcn & _ & n & En')];
    repeat dq_step; simpl;
    (split_and!; [done| |repeat (apply only_insert; [|set_solver|eauto]); done]).
  - apply L; dq_lookup.
  - apply L; dq_lookup.
Qed.

(** *** Sequences of operations *)

Inductive op : Type :=
| AddFirst (node : Z)
| AddLast (node : Z)
| AddAfter (prev node : Z)
| AddBefore (next node : Z)
| RemFirst
| RemLast
| Rem (node : Z).

Definition run_op (o : op) (q : queue) : M links (Z * queue) :=
  match o with
  | AddFirst n => q <-- dq_addfirst n q ;; ret (NULL, q)
  | AddLast n => q <-- dq_addlast n q ;; ret (NULL, q)
  | AddAfter p n => q <-- dq_addafter p n q ;; ret (NULL, q)
  | AddBefore p n => q <-- dq_addbefore p n q ;; ret (NULL, q)
  | RemFirst => dq_remfirst q
  | RemLast => dq_remlast q
  | Rem n => q <-- dq_rem n q ;; ret (NULL, q)
  end.

Fixpoint run_ops (os : list op) (q : queue) : M links (list Z * queue) :=
  match os with
  | [] => ret ([], q)
  | o :: os =>
      r <-- run_op o q ;; rs <-- run_ops os (snd r) ;; ret (fst r :: fst rs, snd rs)
  end.

(** On lists: unlike [sq_rem], [dq_rem] requires its node to be queued. *)
Definition spec_op (nodes : gset Z) (o : op) (l : list Z) : option (Z * list Z) :=
  match o with
  | AddFirst n => guard (n ∈ nodes ∧ n ∉ l) ;; Some (NULL, n :: l)
  | AddLast n => guard (n ∈ nodes ∧ n ∉ l) ;; Some (NULL, l ++ [n])
  | AddAfter p n =>
      guard (n ∈ nodes ∧ n ∉ l) ;; '(i, _) ← list_find (p =.) l ;
      Some (NULL, take (S i) l ++ n :: drop (S i) l)
  | AddBefore p n =>
      guard (n ∈ nodes ∧ n ∉ l) ;; '(i, _) ← list_find (p =.) l ;
      Some (NULL, take i l ++ n :: drop i l)
  | RemFirst => Some (default NULL (l !! 0%nat), drop 1 l)
  | RemLast => Some (default NULL (last l), take (length l - 1) l)
  | Rem n => guard (n ∈ l) ;; Some (NULL, filter (n ≠.) l)
  end%stdpp.

Fixpoint spec_ops (nodes : gset Z) (os : list op) (l : list Z) : option (list Z * list Z) :=
  match os with
  | [] => Some ([], l)
  | o :: os =>
      '(r, l) ← spec_op nodes o l ; '(rs, l) ← spec_ops nodes os l ; Some (r :: rs, l)
  end%stdpp.

Lemma dq_run_op_spec o m q l r l' :
  dq_rep m q l → NULL ∉ dom m → spec_op (dom m) o l = Some (r, l') →
  wp (run_op o q) (λ rq m', fst rq = r ∧ dq_rep m' (snd rq) l' ∧ dom m' = dom m) m.
Proof.
  intros Hr H0. assert (∀ n, n ∈ dom m → n ≠ NULL ∧ is_Some (m !! n)) as Hn.
  { intros n Hn. split; [set_solver|by apply elem_of_dom]. }
  destruct o as [n|n|p n|p n| | |n]; simpl; intros E.
  5, 6 : simplify_eq.
  1-4, 7 : case_guard as G; [|done]; simplify_option_eq.
  1-4 : destruct G as [G1 G2]; destruct (Hn _ G1).
  - rewrite wp_bind. eapply wp_mono; [by apply dq_addfirst_spec|]. intros q' m' [? []]. done.
  - rewrite wp_bind. eapply wp_mono; [by apply dq_addlast_spec|]. intros q' m' [? []]. done.
  - destruct (list_find (p =.) l) as [[i y]|] eqn:Ef; simplify_eq/=.
    destruct (Sq.list_find_split _ _ _ _ Ef) as [El Et]. rewrite Et, <- app_assoc. simpl.
    rewrite wp_bind. eapply wp_mono; [apply (dq_addafter_spec m q (take i l) p (drop (S i) l) n)|];
      rewrite <- ?El; [done..|]. intros q' m' [? []]. done.
  - destruct (list_find (p =.) l) as [[i y]|] eqn:Ef; simplify_eq/=.
    destruct (Sq.list_find_split _ _ _ _ Ef) as [El Et].
    assert (drop i l = p :: drop (S i) l) as ->.
    { apply list_find_Some in Ef as (Ei & -> & _). by apply drop_S. }
    rewrite wp_bind. eapply wp_mono; [apply (addbefore_spec m q (take i l) p (drop (S i) l) n)|];
      rewrite <- ?El; [done..|]. intros q' m' [? []]. done.
  - rewrite wp_bind. apply list_elem_of_split in G as (l1 & l2 & ->).
    rewrite Sq.filter_ne_once by apply Hr. eapply wp_mono; [by apply dq_rem_spec|].
    intros q' m' [? []]. done.
  - eapply wp_mono; [by apply dq_remfirst_spec|]. intros [x q'] m' (? & ? & []). done.
  - eapply wp_mono; [by apply dq_remlast_spec|]. intros [x q'] m' (? & ? & []). done.
Qed.

(** C33: the doubly linked queues are lists, for any sequence of calls that
    respects their contract. *)
Theorem dq_refinement os m q l rs l' :
  dq_rep m q l → NULL ∉ dom m → spec_ops (dom m) os l = Some (rs, l') →
  ∃ q' m', run_ops os q m = Ok ((rs, q'), m') ∧ dq_rep m' q' l'.
Proof.
  revert m q l rs. induction os as [|o os IH]; intros m q l rs Hr H0 E; simpl in E.
  - simplify_eq. by exists q, m.
  - destruct (spec_op (dom m) o l) as [[r l1]|] eqn:E1; simplify_eq/=.
    destruct (spec_ops (dom m) os l1) as [[rs1 l2]|] eqn:E2; simplify_eq/=.
    destruct (wp_run _ _ _ (dq_run_op_spec _ _ _ _ _ _ Hr H0 E1)) as ([r' q1] & m1 & R1 & <- & Hr1 & D).
    rewrite <- D in E2, H0. destruct (IH _ _ _ _ Hr1 H0 E2) as (q' & m' & R2 & Hr').
    exists q', m'. split; [|done]. unfold bind. rewrite R1. cbn [res_bind]. simpl in R2.
    simpl. rewrite R2. done.
Qed.

Lemma dq_refinement_witness :
  ∃ q' m', run_ops [AddLast 10; AddFirst 20; AddAfter 10 30; AddBefore 10 40; Rem 10; RemLast; RemFirst]
      empty_queue (list_to_map ((λ n, (n, mklinks 0 0)) <$> [10; 20; 30; 40]))
    = Ok (([0; 0; 0; 0; 0; 30; 20], q'), m') ∧ dq_rep m' q' [40].
Proof.
  apply (dq_refinement _ _ _ []); [apply dq_rep_empty| |vm_compute; reflexivity].
  by vm_compute.
Defined.

End Dq.
