(* ===== verification/Wdog.v ===== *)
(** * Watchdog timers

    Models [sched/wdog]: the timers that drive [usleep] and every other timed
    wait of the kernel.  The active timers form a singly linked list ordered by
    expiration, in which each entry holds the ticks between its predecessor
    and itself ([lag]); the timer interrupt decrements the first one.

    The state holds the [next] links of the timers (which the queue operations
    of Queue.v use), the other fields of [struct wdog_s], the two lists and the
    count of free timers, [errno], and the trace of the functions called.  The
    functions themselves are arguments of the model: what a function does to
    the timers is a sequence of calls of [wd_start] and [wd_cancel].

    The configuration is that of [config_ethernet_dogfeed]: two parameters at
    most, a pool of 16 timers of which 2 are reserved for interrupt handlers,
    assertions enabled, one call of [wd_timer] for each tick. *)

From S2P Require Import Prelude Queue.

Module Wdog.
#[local] Open Scope cmd_scope.

Definition CONFIG_MAX_WDOGPARMS : Z := 2.
Definition CONFIG_PREALLOC_WDOGS : Z := 16.
Definition CONFIG_WDOG_INTRESERVE : Z := 2.
Definition WDOGF_ACTIVE : Z := 1.
Definition WDOGF_ALLOCED : Z := 2.
Definition WDOGF_STATIC : Z := 4.
Definition OK : Z := 0.
Definition ERROR : Z := -1.
Definition EINVAL : Z := 22.

(** [struct wdog_s] without its [next] link. *)
Record wdog_s : Type := mkwdog {
  func : Z; lag : Z; flags : Z; argc : Z; parm : list Z
}.

Record wdstate : Type := mkst {
  next : gmap Z Z;
  wdogs : gmap Z wdog_s;
  g_wdactivelist : queue;
  g_wdfreelist : queue;
  g_wdnfree : Z;
  errno : Z;
  calls : list (Z * Z * list Z)
}.

Definition upd_next v s := mkst v (wdogs s) (g_wdactivelist s) (g_wdfreelist s) (g_wdnfree s) (errno s) (calls s).
Definition upd_wdogs v s := mkst (next s) v (g_wdactivelist s) (g_wdfreelist s) (g_wdnfree s) (errno s) (calls s).
Definition upd_active v s := mkst (next s) (wdogs s) v (g_wdfreelist s) (g_wdnfree s) (errno s) (calls s).
Definition upd_free v s := mkst (next s) (wdogs s) (g_wdactivelist s) v (g_wdnfree s) (errno s) (calls s).
Definition upd_nfree v s := mkst (next s) (wdogs s) (g_wdactivelist s) (g_wdfreelist s) v (errno s) (calls s).
Definition upd_errno v s := mkst (next s) (wdogs s) (g_wdactivelist s) (g_wdfreelist s) (g_wdnfree s) v (calls s).
Definition upd_calls v s := mkst (next s) (wdogs s) (g_wdactivelist s) (g_wdfreelist s) (g_wdnfree s) (errno s) v.

(** ** Access to a timer *)

(** Running an operation on the links, and on the other fields. *)
Definition on_next {A} (m : M (gmap Z Z) A) : M wdstate A := λ s,
  res_bind (m (next s)) (λ '(a, v), Ok (a, upd_next v s)).

Definition on_wdogs {A} (m : M (gmap Z wdog_s) A) : M wdstate A := λ s,
  res_bind (m (wdogs s)) (λ '(a, v), Ok (a, upd_wdogs v s)).

Definition get (w : Z) : M wdstate wdog_s := on_wdogs (deref w).
Definition set (w : Z) (f : wdog_s → wdog_s) : M wdstate unit := on_wdogs (assign w f).
Definition get_next (w : Z) : M wdstate Z := on_next (deref w).
Definition set_next (w v : Z) : M wdstate unit := on_next (assign w (λ _, v)).

Definition set_lag v w := mkwdog (func w) v (flags w) (argc w) (parm w).
Definition set_flags v w := mkwdog (func w) (lag w) v (argc w) (parm w).

Definition WDOG_ISACTIVE (w : wdog_s) : bool := negb (Z.land (flags w) WDOGF_ACTIVE =? 0).
Definition WDOG_ISALLOCED (w : wdog_s) : bool := negb (Z.land (flags w) WDOGF_ALLOCED =? 0).
Definition WDOG_ISSTATIC (w : wdog_s) : bool := negb (Z.land (flags w) WDOGF_STATIC =? 0).
Definition WDOG_SETACTIVE (w : wdog_s) : wdog_s := set_flags (u8 (Z.lor (flags w) WDOGF_ACTIVE)) w.
Definition WDOG_CLRACTIVE (w : wdog_s) : wdog_s :=
  set_flags (u8 (Z.land (flags w) (Z.lnot WDOGF_ACTIVE))) w.

(** Operations on the two lists. *)
Definition active_op (f : queue → M (gmap Z Z) queue) : M wdstate unit :=
  q <-- gets g_wdactivelist ;; q <-- on_next (f q) ;; modify (upd_active q).
Definition active_rem (f : queue → M (gmap Z Z) (Z * queue)) : M wdstate Z :=
  q <-- gets g_wdactivelist ;; r <-- on_next (f q) ;; modify (upd_active (snd r)) ;;; ret (fst r).

(** ** [wd_cancel] *)

(** The search for the timer and its predecessor. *)
Fixpoint seek (fuel : nat) (prev curr wdog : Z) : M wdstate (Z * Z) :=
  if (curr =? NULL) || (curr =? wdog) then ret (prev, curr)
  else
    nx <-- get_next curr ;;
    match fuel with
    | O => fail_ub NoFuel
    | S fuel => seek fuel curr nx wdog
    end.

Definition wd_cancel (wdog : Z) : M wdstate Z :=
  if wdog =? NULL then ret ERROR
  else
    w <-- get wdog ;;
    if WDOG_ISACTIVE w then
      n <-- gets (λ s, size (next s)) ;;
      h <-- gets (λ s, head (g_wdactivelist s)) ;;
      pc <-- seek n NULL h wdog ;;
      let '(prev, curr) := pc in
      assert_ (negb (curr =? NULL)) ;;;
      nx <-- get_next curr ;;
      when (negb (nx =? NULL))
        (c <-- get curr ;; x <-- get nx ;;
         l <-- add_int (lag x) (lag c) ;; set nx (set_lag l)) ;;;
      (if negb (prev =? NULL) then active_rem (Sq.sq_remafter prev)
       else active_rem Sq.sq_remfirst) ;;;
      set_next wdog NULL ;;;
      set wdog WDOG_CLRACTIVE ;;;
      ret OK
    else ret ERROR.

(** ** [wd_start] *)

(** Advance to positive time. *)
Fixpoint advance (fuel : nat) (prev curr now : Z) : M wdstate (Z * Z * Z) :=
  c <-- get curr ;;
  now <-- add_int now (lag c) ;;
  nx <-- get_next curr ;;
  if (now <? 0) && negb (nx =? NULL) then
    match fuel with
    | O => fail_ub NoFuel
    | S fuel => advance fuel curr nx now
    end
  else ret (prev, curr, now).

(** Advance past shorter delays. *)
Fixpoint skip (fuel : nat) (prev curr now delay : Z) : M wdstate (Z * Z * Z) :=
  nx <-- get_next curr ;;
  if (now <=? delay) && negb (nx =? NULL) then
    x <-- get nx ;;
    now <-- add_int now (lag x) ;;
    match fuel with
    | O => fail_ub NoFuel
    | S fuel => skip fuel curr nx now delay
    end
  else ret (prev, curr, now).

(** Insertion into a list that is not empty; the result is the new lag. *)
Definition place (wdog delay : Z) : M wdstate Z :=
  n <-- gets (λ s, size (next s)) ;;
  h <-- gets (λ s, head (g_wdactivelist s)) ;;
  p <-- advance n h h 0 ;;
  let '(prev, curr, now) := p in
  p <-- skip n prev curr now delay ;;
  let '(prev, curr, now) := p in
  c <-- get curr ;;
  if delay <? now then
    t <-- sub_int now (lag c) ;;
    delay <-- sub_int delay t ;;
    l <-- sub_int (lag c) delay ;;
    set curr (set_lag l) ;;;
    (if curr =? h then active_op (Sq.sq_addfirst wdog)
     else active_op (Sq.sq_addafter prev wdog)) ;;;
    ret delay
  else
    delay <-- sub_int delay now ;;
    nx <-- get_next curr ;;
    (if nx =? NULL then active_op (Sq.sq_addlast wdog)
     else
       x <-- get nx ;;
       l <-- sub_int (lag x) delay ;;
       set nx (set_lag l) ;;;
       active_op (Sq.sq_addafter curr wdog)) ;;;
    ret delay.

Definition wd_start (wdog delay wdentry : Z) (args : list Z) : M wdstate Z :=
  let n := Z.of_nat (length args) in
  if (wdog =? NULL) || (CONFIG_MAX_WDOGPARMS <? n) || (delay <? 0) then
    modify (upd_errno EINVAL) ;;; ret ERROR
  else
    w <-- get wdog ;;
    (if WDOG_ISACTIVE w then wd_cancel wdog ;;; ret tt else ret tt) ;;;
    set wdog (λ w, mkwdog wdentry (lag w) (flags w) n
      (args ++ replicate (Z.to_nat (CONFIG_MAX_WDOGPARMS - n)) 0)) ;;;
    delay <-- (if delay <=? 0 then ret 1
               else
                 d <-- add_int delay 1 ;;
                 if d <=? 0 then sub_int d 1 else ret d) ;;
    h <-- gets (λ s, head (g_wdactivelist s)) ;;
    delay <-- (if h =? NULL then active_op (Sq.sq_addlast wdog) ;;; ret delay
               else place wdog delay) ;;
    set wdog (λ w, WDOG_SETACTIVE (set_lag delay w)) ;;;
    ret OK.

(** ** [wd_gettime] *)

Fixpoint remaining (fuel : nat) (curr delay wdog : Z) : M wdstate Z :=
  if curr =? NULL then ret 0
  else
    c <-- get curr ;;
    delay <-- add_int delay (lag c) ;;
    if curr =? wdog then ret delay
    else
      nx <-- get_next curr ;;
      match fuel with
      | O => fail_ub NoFuel
      | S fuel => remaining fuel nx delay wdog
      end.

Definition wd_gettime (wdog : Z) : M wdstate Z :=
  if wdog =? NULL then ret 0
  else
    w <-- get wdog ;;
    if WDOG_ISACTIVE w then
      n <-- gets (λ s, size (next s)) ;;
      h <-- gets (λ s, head (g_wdactivelist s)) ;;
      remaining n h 0 wdog
    else ret 0.

(** ** The timer interrupt *)

(** What a watchdog function does to the timers. *)
Inductive hop : Type :=
| HStart (wdog delay wdentry : Z) (args : list Z)
| HCancel (wdog : Z).

Definition run_hop (o : hop) : M wdstate unit :=
  match o with
  | HStart w d f a => wd_start w d f a ;;; ret tt
  | HCancel w => wd_cancel w ;;; ret tt
  end.

Fixpoint run_hops (os : list hop) : M wdstate unit :=
  match os with
  | [] => ret tt
  | o :: os => run_hop o ;;; run_hops os
  end.

Section Expiration.
(** The watchdog functions: function and arguments to what they do. *)
Context (handler : Z → list Z → list hop).

(** Calling the function of a timer: the call is recorded, then its effect on
    the timers takes place. *)
Definition call_entry (wdog : Z) (w : wdog_s) : M wdstate unit :=
  if (argc w <? 0) || (CONFIG_MAX_WDOGPARMS <? argc w) then fail_ub AssertFail
  else
    let args := take (Z.to_nat (argc w)) (parm w) in
    modify (λ s, upd_calls (calls s ++ [(wdog, func w, args)]) s) ;;;
    run_hops (handler (func w) args).

(** The loop of [wd_expiration]. *)
Fixpoint expire (fuel : nat) : M wdstate unit :=
  h <-- gets (λ s, head (g_wdactivelist s)) ;;
  if h =? NULL then ret tt
  else
    w <-- get h ;;
    if lag w <=? 0 then
      match fuel with
      | O => fail_ub NoFuel
      | S fuel =>
          wdog <-- active_rem Sq.sq_remfirst ;;
          h <-- gets (λ s, head (g_wdactivelist s)) ;;
          when (negb (h =? NULL))
            (x <-- get h ;; w <-- get wdog ;;
             l <-- add_int (lag x) (lag w) ;; set h (set_lag l)) ;;;
          set wdog WDOG_CLRACTIVE ;;;
          w <-- get wdog ;;
          call_entry wdog w ;;;
          expire fuel
      end
    else ret tt.

(** [wd_expiration] reads the first timer before the loop. *)
Definition wd_expiration : M wdstate unit :=
  h <-- gets (λ s, head (g_wdactivelist s)) ;;
  w <-- get h ;;
  if lag w <=? 0 then n <-- gets (λ s, size (next s)) ;; expire n else ret tt.

Definition wd_timer : M wdstate unit :=
  h <-- gets (λ s, head (g_wdactivelist s)) ;;
  if h =? NULL then ret tt
  else
    w <-- get h ;;
    l <-- sub_int (lag w) 1 ;;
    set h (set_lag l) ;;;
    wd_expiration.

End Expiration.

(** ** Allocation *)

(** The addresses of the pool [g_wdpool] that starts at [base]. *)
Definition sizeof_wdog : Z := 24.
Definition pool (base : Z) : list Z :=
  (λ i, base + sizeof_wdog * i) <$> seqZ 0 CONFIG_PREALLOC_WDOGS.

Definition free_op (f : queue → M (gmap Z Z) queue) : M wdstate unit :=
  q <-- gets g_wdfreelist ;; q <-- on_next (f q) ;; modify (upd_free q).

Fixpoint add_all (ws : list Z) : M wdstate unit :=
  match ws with
  | [] => ret tt
  | w :: ws => free_op (Sq.sq_addlast w) ;;; add_all ws
  end.

Definition wd_initialize (base : Z) : M wdstate unit :=
  modify (upd_free empty_queue) ;;;
  modify (upd_active empty_queue) ;;;
  add_all (pool base) ;;;
  modify (upd_nfree CONFIG_PREALLOC_WDOGS).

(** [irq] is [up_interrupt_context ()]; [mem] is what [kmm_malloc] returns, with
    the contents [garbage]. *)
Definition wd_create (irq : bool) (mem : Z) (garbage : wdog_s) : M wdstate Z :=
  nfree <-- gets g_wdnfree ;;
  if (CONFIG_WDOG_INTRESERVE <? nfree) || irq then
    q <-- gets g_wdfreelist ;;
    r <-- on_next (Sq.sq_remfirst q) ;;
    modify (upd_free (snd r)) ;;;
    let wdog := fst r in
    assert_ (0 <? nfree) ;;;
    modify (upd_nfree (u16 (nfree - 1))) ;;;
    when (negb (wdog =? NULL)) (set_next wdog NULL ;;; set wdog (set_flags 0)) ;;;
    ret wdog
  else
    when (negb (mem =? NULL))
      (modify (λ s, upd_next (<[mem := NULL]> (next s))
                      (upd_wdogs (<[mem := set_flags WDOGF_ALLOCED garbage]> (wdogs s)) s))) ;;;
    ret mem.

(** [sched_kfree] takes the structure out of the store. *)
Definition wd_delete (wdog : Z) : M wdstate Z :=
  assert_ (negb (wdog =? NULL)) ;;;
  w <-- get wdog ;;
  (if WDOG_ISACTIVE w then wd_cancel wdog ;;; ret tt else ret tt) ;;;
  w <-- get wdog ;;
  (if WDOG_ISALLOCED w then
     modify (λ s, upd_next (base.delete wdog (next s)) (upd_wdogs (base.delete wdog (wdogs s)) s))
   else if negb (WDOG_ISSTATIC w) then
     free_op (Sq.sq_addlast wdog) ;;;
     nfree <-- gets g_wdnfree ;;
     modify (upd_nfree (u16 (nfree + 1))) ;;;
     nfree <-- gets g_wdnfree ;;
     assert_ (nfree <=? CONFIG_PREALLOC_WDOGS)
   else ret tt) ;;;
  ret OK.

(** [wd_recover]: the result is the new [tcb->waitdog]. *)
Definition wd_recover (waitdog : Z) : M wdstate Z :=
  if negb (waitdog =? NULL) then wd_cancel waitdog ;;; wd_delete waitdog ;;; ret NULL
  else ret waitdog.

(** ** Specification: timers with the ticks they have left *)

Record timer : Type := mktimer { id : Z; due : Z; fn : Z; fargs : list Z }.

#[export] Instance timer_eq_dec : EqDecision timer.
Proof. solve_decision. Defined.

(** Timers are kept in the order of expiration, first come first served. *)
Fixpoint insert (x : timer) (ts : list timer) : list timer :=
  match ts with
  | [] => [x]
  | y :: ts => if due y <=? due x then y :: insert x ts else x :: y :: ts
  end.

Definition cancel (w : Z) (ts : list timer) : list timer := filter (λ x, id x ≠ w) ts.

Definition start (w d f : Z) (args : list Z) (ts : list timer) : list timer :=
  insert (mktimer w (d + 1) f args) (cancel w ts).

Definition spec_hop (o : hop) (ts : list timer) : list timer :=
  match o with
  | HStart w d f args => start w d f args ts
  | HCancel w => cancel w ts
  end.

Fixpoint spec_hops (os : list hop) (ts : list timer) : list timer :=
  match os with
  | [] => ts
  | o :: os => spec_hops os (spec_hop o ts)
  end.

Section Spec.
Context (handler : Z → list Z → list hop).

(** A tick: every timer has one tick less; those that have none left are
    called, in order, and what their functions do takes effect at once. *)
Fixpoint fire (fuel : nat) (ts : list timer) : list (Z * Z * list Z) * list timer :=
  match fuel, ts with
  | S fuel, x :: ts' =>
      if due x <=? 0 then
        let '(evs, ts'') := fire fuel (spec_hops (handler (fn x) (fargs x)) ts') in
        ((id x, fn x, fargs x) :: evs, ts'')
      else ([], ts)
  | _, _ => ([], ts)
  end.

Definition elapse (ts : list timer) : list timer :=
  (λ x, mktimer (id x) (due x - 1) (fn x) (fargs x)) <$> ts.

Definition tick (ts : list timer) : list (Z * Z * list Z) * list timer :=
  fire (length ts) (elapse ts).

End Spec.

(** The ticks a timer has left; zero when it is not running. *)
Fixpoint left (w : Z) (ts : list timer) : Z :=
  match ts with
  | [] => 0
  | x :: ts => if id x =? w then due x else left w ts
  end.

(** ** Representation *)

(** A timer structure that holds [x], whose predecessor is due at [t]. *)
Definition holds (t : Z) (x : timer) (v : wdog_s) : Prop :=
  lag v = due x - t ∧ func v = fn x ∧ argc v = Z.of_nat (length (fargs x)) ∧
  (length (fargs x) ≤ 2)%nat ∧ take (length (fargs x)) (parm v) = fargs x.

(** The structures hold the timers [ts], the first of which follows time [t]. *)
Fixpoint lags (wd : gmap Z wdog_s) (t : Z) (ts : list timer) : Prop :=
  match ts with
  | [] => True
  | x :: ts =>
      t ≤ due x < 2 ^ 31 ∧ (∃ v, wd !! id x = Some v ∧ holds t x v) ∧ lags wd (due x) ts
  end.

Definition ids (ts : list timer) : list Z := id <$> ts.

(** The state holds the active timers [ts] and the free structures [fl]. *)
Record rep (s : wdstate) (ts : list timer) (fl : list Z) : Prop := mkrep {
  rep_active : Sq.sq_rep (next s) (g_wdactivelist s) (ids ts);
  rep_lags : lags (wdogs s) 0 ts;
  rep_flags : ∀ p v, wdogs s !! p = Some v → WDOG_ISACTIVE v = bool_decide (p ∈ ids ts);
  rep_free : Sq.sq_rep (next s) (g_wdfreelist s) fl;
  rep_disj : ∀ p, p ∈ fl → p ∉ ids ts;
  rep_dom : dom (next s) = dom (wdogs s);
  rep_null : NULL ∉ dom (next s)
}.

(** What an operation on timers leaves alone. *)
Definition frame (s s' : wdstate) : Prop :=
  dom (next s') = dom (next s) ∧ g_wdfreelist s' = g_wdfreelist s ∧
  g_wdnfree s' = g_wdnfree s ∧ errno s' = errno s ∧ calls s' = calls s.

#[export] Instance frame_preorder : PreOrder frame.
Proof.
  split; [by intros s|]. intros s1 s2 s3 (?&?&?&?&?) (?&?&?&?&?). unfold frame. split_and!; congruence.
Qed.

(** *** Rules for the access functions *)

Lemma wp_on_next {A} (m : M (gmap Z Z) A) Q s :
  wp (on_next m) Q s = wp m (λ a v, Q a (upd_next v s)) (next s).
Proof. unfold wp, on_next. by destruct (m (next s)) as [[a v]|]. Qed.

Lemma wp_on_wdogs {A} (m : M (gmap Z wdog_s) A) Q s :
  wp (on_wdogs m) Q s = wp m (λ a v, Q a (upd_wdogs v s)) (wdogs s).
Proof. unfold wp, on_wdogs. by destruct (m (wdogs s)) as [[a v]|]. Qed.

Lemma wp_get w v Q s : w ≠ NULL → wdogs s !! w = Some v → wp (get w) Q s = Q v s.
Proof. intros. unfold get. rewrite wp_on_wdogs, (wp_deref w v) by done. by destruct s. Qed.

Lemma wp_set w v f Q s :
  w ≠ NULL → wdogs s !! w = Some v →
  wp (set w f) Q s = Q tt (upd_wdogs (<[w := f v]> (wdogs s)) s).
Proof. intros. unfold set. by rewrite wp_on_wdogs, (wp_assign w v). Qed.

Lemma wp_get_next w v Q s : w ≠ NULL → next s !! w = Some v → wp (get_next w) Q s = Q v s.
Proof. intros. unfold get_next. rewrite wp_on_next, (wp_deref w v) by done. by destruct s. Qed.

Lemma wp_set_next w n v Q s :
  w ≠ NULL → next s !! w = Some n →
  wp (set_next w v) Q s = Q tt (upd_next (<[w := v]> (next s)) s).
Proof. intros. unfold set_next. by rewrite wp_on_next, (wp_assign w n). Qed.

Lemma wp_active_op f Q s :
  wp (active_op f) Q s =
    wp (f (g_wdactivelist s)) (λ q m, Q tt (upd_active q (upd_next m s))) (next s).
Proof. unfold active_op. by rewrite wp_bind, wp_gets, wp_bind, wp_on_next. Qed.

Lemma wp_active_rem f Q s :
  wp (active_rem f) Q s =
    wp (f (g_wdactivelist s)) (λ r m, Q (fst r) (upd_active (snd r) (upd_next m s))) (next s).
Proof. unfold active_rem. by rewrite wp_bind, wp_gets, wp_bind, wp_on_next. Qed.

(** *** Timers and lags *)

Definition last_due (t : Z) (ts : list timer) : Z := default t (due <$> last ts).

Lemma last_due_cons t x ts : last_due t (x :: ts) = last_due (due x) ts.
Proof. unfold last_due. rewrite last_cons. by destruct (last ts). Qed.

Lemma lags_app wd t ts1 ts2 :
  lags wd t (ts1 ++ ts2) ↔ lags wd t ts1 ∧ lags wd (last_due t ts1) ts2.
Proof.
  revert t. induction ts1 as [|x ts1 IH]; intros t; [simpl; tauto|].
  rewrite last_due_cons. simpl. rewrite IH. tauto.
Qed.

Lemma lags_frame wd wd' t ts :
  lags wd t ts → (∀ p, p ∈ ids ts → wd' !! p = wd !! p) → lags wd' t ts.
Proof.
  revert t. induction ts as [|x ts IH]; intros t; [done|]. intros (Ht & Hv & Hl) H.
  simpl. split_and!; [lia|lia| |].
  - rewrite H by set_solver. done.
  - apply IH; [done|]. intros p Hp. apply H. set_solver.
Qed.

Lemma lags_insert wd t ts p v : p ∉ ids ts → lags wd t ts → lags (<[p := v]> wd) t ts.
Proof.
  intros Hp H. eapply lags_frame; [exact H|]. intros q Hq. rewrite lookup_insert_ne; [done|set_solver].
Qed.

Lemma lags_bound wd t ts : lags wd t ts → t < 2 ^ 31 → t ≤ last_due t ts < 2 ^ 31.
Proof.
  revert t. induction ts as [|x ts IH]; intros t; [unfold last_due; simpl; lia|].
  intros (Ht & _ & Hl) Hb. rewrite last_due_cons. apply IH in Hl; lia.
Qed.

Lemma cancel_absent w ts : w ∉ ids ts → cancel w ts = ts.
Proof.
  unfold cancel, ids. induction ts as [|x ts IH]; intros H; [done|]. simpl in H.
  rewrite filter_cons_True by set_solver. f_equal. apply IH. set_solver.
Qed.

Lemma cancel_once x ts1 ts2 :
  NoDup (ids (ts1 ++ x :: ts2)) → cancel (id x) (ts1 ++ x :: ts2) = ts1 ++ ts2.
Proof.
  unfold ids. rewrite fmap_app, fmap_cons. intros (_ & H1 & [H2 _]%NoDup_cons)%NoDup_app.
  unfold cancel. rewrite filter_app, filter_cons_False by tauto.
  change (cancel (id x) ts1 ++ cancel (id x) ts2 = ts1 ++ ts2).
  rewrite !cancel_absent; [done|exact H2|]. intros H. apply (H1 _ H). set_solver.
Qed.

Lemma insert_split x ts1 ts2 :
  Forall (λ y, due y ≤ due x) ts1 → (∀ y, ts2 !! 0%nat = Some y → due x < due y) →
  insert x (ts1 ++ ts2) = ts1 ++ x :: ts2.
Proof.
  induction ts1 as [|y ts1 IH]; intros H1 H2; simpl.
  - destruct ts2 as [|z ts2]; [done|]. specialize (H2 z eq_refl). simpl.
    by rewrite (proj2 (Z.leb_gt _ _)).
  - apply Forall_cons in H1 as [Hy H1]. rewrite (proj2 (Z.leb_le _ _)) by done. f_equal. auto.
Qed.

Lemma ids_app ts1 ts2 : ids (ts1 ++ ts2) = ids ts1 ++ ids ts2.
Proof. apply fmap_app. Qed.

(** *** Flags *)

Lemma active_odd v : WDOG_ISACTIVE v = Z.odd (flags v).
Proof.
  unfold WDOG_ISACTIVE, WDOGF_ACTIVE. change 1 with (Z.ones 1). rewrite Z.land_ones by lia.
  change (2 ^ 1) with 2. rewrite Zmod_odd. by destruct (Z.odd (flags v)).
Qed.

Lemma odd_u8 z : Z.odd (u8 z) = Z.odd z.
Proof. unfold u8, wrap. rewrite <- !Z.bit0_odd. by rewrite Z.mod_pow2_bits_low. Qed.

Lemma set_active v : WDOG_ISACTIVE (WDOG_SETACTIVE v) = true.
Proof.
  rewrite active_odd. simpl. rewrite odd_u8, <- Z.bit0_odd, Z.lor_spec. apply orb_true_r.
Qed.

Lemma clr_active v : WDOG_ISACTIVE (WDOG_CLRACTIVE v) = false.
Proof.
  rewrite active_odd. simpl. rewrite odd_u8, <- Z.bit0_odd, Z.land_spec. apply andb_false_r.
Qed.

(** *** [wd_cancel] *)

Lemma rep_node s ts fl x :
  rep s ts fl → x ∈ ts → id x ≠ NULL ∧ is_Some (next s !! id x) ∧ is_Some (wdogs s !! id x).
Proof.
  intros Hr Hx. assert (id x ∈ ids ts) as Hi by (apply list_elem_of_fmap; eauto).
  destruct (Sq.sq_node _ _ _ _ (rep_active _ _ _ Hr) Hi) as [H1 H2]. split_and!; [done..|].
  by rewrite <- elem_of_dom, <- (rep_dom _ _ _ Hr), elem_of_dom.
Qed.

Lemma seek_spec s b p l1 w l2 e fuel :
  seg Sq.fits (next s) b p (l1 ++ w :: l2) e NULL → NoDup (l1 ++ w :: l2) →
  (length l1 ≤ fuel)%nat →
  wp (seek fuel b p w) (λ pc s', s' = s ∧ pc = (default b (last l1), w)) s.
Proof.
  revert b p fuel. induction l1 as [|x l1 IH]; intros b p fuel Hs Hd Hf.
  - destruct Hs as (-> & _). destruct fuel; simpl; rewrite Z.eqb_refl, orb_true_r; by rewrite wp_ret.
  - destruct Hs as (-> & Hx & n & v & E & -> & Hs). simpl in Hd. apply NoDup_cons in Hd as [Hd1 Hd2].
    destruct fuel as [|fuel]; [simpl in Hf; lia|]. simpl.
    rewrite (proj2 (Z.eqb_neq x NULL)), (proj2 (Z.eqb_neq x w)) by (done || set_solver). simpl.
    rewrite wp_bind, (wp_get_next x n) by done.
    eapply wp_mono; [apply (IH x n); [done|done|simpl in Hf; lia]|].
    intros pc s' [-> ->]. split; [done|]. rewrite last_cons. by destruct (last l1).
Qed.

(** A timer that is not running: nothing happens. *)
Lemma cancel_inactive s ts fl w :
  rep s ts fl → w ∈ dom (wdogs s) → w ∉ ids ts →
  wp (wd_cancel w) (λ r s', r = ERROR ∧ s' = s) s.
Proof.
  intros Hr [v Hv]%elem_of_dom Hw. unfold wd_cancel.
  assert (w ≠ NULL) as Hn.
  { intros ->. apply (rep_null _ _ _ Hr). rewrite (rep_dom _ _ _ Hr). apply elem_of_dom; eauto. }
  rewrite (proj2 (Z.eqb_neq w NULL)) by done. rewrite wp_bind, (wp_get w v) by done.
  rewrite (rep_flags _ _ _ Hr _ _ Hv), bool_decide_false by done. by rewrite wp_ret.
Qed.

(** The successor inherits the ticks of the removed timer. *)
Lemma lags_remove wd t x ts2 v :
  lags wd t (x :: ts2) → NoDup (ids (x :: ts2)) → t < 2 ^ 31 → 0 ≤ t →
  match ts2 with
  | [] => True
  | y :: _ => ∃ vx vy, wd !! id x = Some vx ∧ wd !! id y = Some vy ∧ holds (due x) y vy ∧
      lag vx = due x - t ∧ 0 ≤ lag vy + lag vx < 2 ^ 31 ∧
      lags (<[id x := v]> (<[id y := set_lag (lag vy + lag vx) vy]> wd)) t ts2
  end.
Proof.
  intros (Hb & (vx & Ex & Lx & _) & Hl) Hd H1 H0. destruct ts2 as [|y ts2]; [done|].
  destruct Hl as (Hb' & (vy & Ey & Hy) & Hl). exists vx, vy.
  apply NoDup_cons in Hd as [Hd1 Hd2]. apply NoDup_cons in Hd2 as [Hd2 Hd3].
  pose proof Hy as (Ly & Fy & Ay & By & Py). split_and!; [done..|lia|lia|].
  simpl. split_and!; [lia|lia| |].
  - exists (set_lag (lag vy + lag vx) vy). rewrite lookup_insert_ne, lookup_insert_eq by set_solver.
    split; [done|]. unfold holds. simpl. split_and!; [lia|done..].
  - apply lags_insert; [set_solver|]. by apply lags_insert.
Qed.

(** Structures that differ in their lags only. *)
Definition relag (wd wd' : gmap Z wdog_s) : Prop :=
  dom wd' = dom wd ∧
  ∀ p v', wd' !! p = Some v' → ∃ v, wd !! p = Some v ∧ v' = set_lag (lag v') v.

Lemma relag_refl wd : relag wd wd.
Proof. split; [done|]. intros p v E. exists v. by destruct v. Qed.

Lemma dom_insert_some {V} (m : gmap Z V) p (v w : V) : m !! p = Some v → dom (<[p := w]> m) = dom m.
Proof. intros E. apply dom_insert_lookup_L. eauto. Qed.

Lemma relag_set wd wd' p v l :
  relag wd wd' → wd' !! p = Some v → relag wd (<[p := set_lag l v]> wd').
Proof.
  intros [D H] E. split; [by rewrite (dom_insert_some _ _ v)|].
  intros q v'. destruct (decide (q = p)) as [->|Hq].
  - rewrite lookup_insert_eq. intros [= <-]. destruct (H _ _ E) as (v0 & E0 & ->). by exists v0.
  - rewrite lookup_insert_ne by done. apply H.
Qed.

(** Removing the entry found by the search. *)
Lemma remove_spec s l1 w l2 :
  Sq.sq_rep (next s) (g_wdactivelist s) (l1 ++ w :: l2) →
  wp (if negb (default NULL (last l1) =? NULL)
      then active_rem (Sq.sq_remafter (default NULL (last l1))) else active_rem Sq.sq_remfirst)
    (λ _ s', ∃ m q, s' = upd_active q (upd_next m s) ∧ Sq.sq_rep m q (l1 ++ l2) ∧
       only (l1 ++ w :: l2) (next s) m) s.
Proof.
  intros Hr. destruct l1 as [|p l1 _] using rev_ind.
  - simpl. rewrite wp_active_rem. eapply wp_mono; [by apply Sq.sq_remfirst_spec|].
    intros [r q] m (_ & H & Ho). simpl in H. rewrite drop_0 in H. by exists m, q.
  - rewrite last_snoc. simpl. rewrite <- !app_assoc in *. simpl in *.
    destruct (Sq.sq_node _ _ _ p Hr) as [Hp _]; [set_solver|].
    rewrite (proj2 (Z.eqb_neq p NULL)) by done. simpl.
    rewrite wp_active_rem. eapply wp_mono; [by apply Sq.remafter_spec|].
    intros [r q] m (_ & H & Ho). simpl in H. rewrite drop_0 in H. by exists m, q.
Qed.

(** The state with a timer taken out. *)
Lemma rep_remove s s' wd' ts1 x ts2 fl vx :
  rep s (ts1 ++ x :: ts2) fl → relag (wdogs s) wd' →
  wdogs s' = <[id x := WDOG_CLRACTIVE vx]> wd' →
  lags (wdogs s') 0 (ts1 ++ ts2) →
  Sq.sq_rep (next s') (g_wdactivelist s') (ids ts1 ++ ids ts2) →
  only (ids ts1 ++ id x :: ids ts2) (next s) (next s') →
  g_wdfreelist s' = g_wdfreelist s →
  rep s' (ts1 ++ ts2) fl.
Proof.
  intros Hr [Dw Fw] Ew Hl Hq [Ho Dm] Ef.
  assert (id x ∈ dom wd') as Hxw.
  { rewrite Dw, <- (rep_dom _ _ _ Hr). apply elem_of_dom. eapply rep_node; [done|]. set_solver. }
  pose proof (rep_active _ _ _ Hr) as [Hd _]. rewrite ids_app in Hd. simpl in Hd.
  assert (id x ∉ ids (ts1 ++ ts2)) as Hx.
  { rewrite ids_app. apply NoDup_app in Hd as (_ & H1 & [H2 _]%NoDup_cons). set_solver. }
  assert (∀ p, p ∈ ids (ts1 ++ x :: ts2) ↔ p = id x ∨ p ∈ ids (ts1 ++ ts2)) as Hids
    by (intros p; rewrite !ids_app; set_solver).
  split.
  - by rewrite ids_app.
  - done.
  - rewrite Ew. intros p v. destruct (decide (p = id x)) as [->|Hp].
    + rewrite lookup_insert_eq. intros [= <-]. by rewrite clr_active, bool_decide_false.
    + rewrite lookup_insert_ne by done. intros E. destruct (Fw _ _ E) as (v0 & E0 & ->).
      change (WDOG_ISACTIVE v0 = bool_decide (p ∈ ids (ts1 ++ ts2))).
      rewrite (rep_flags _ _ _ Hr _ _ E0). apply bool_decide_ext. rewrite Hids. tauto.
  - rewrite Ef. eapply Sq.sq_rep_frame; [by eapply rep_free|]. intros p Hp.
    pose proof (rep_disj _ _ _ Hr _ Hp) as Hp'. apply Ho. by rewrite ids_app in Hp'.
  - intros p Hp Hp'. apply (rep_disj _ _ _ Hr _ Hp), Hids. by right.
  - rewrite Ew, Dm, (rep_dom _ _ _ Hr), <- Dw. rewrite dom_insert_L. set_solver.
  - rewrite Dm. apply (rep_null _ _ _ Hr).
Qed.

Lemma only_ids_dom {V} l (m m' : gmap Z V) : only l m m' → dom m' = dom m.
Proof. by intros [_ D]. Qed.

(** The step that adds the lag of the removed timer to its successor. *)
Lemma inherit_spec s ts1 x ts2 vx n :
  id x ≠ NULL → wdogs s !! id x = Some vx → NoDup (ids (ts1 ++ x :: ts2)) → lags (wdogs s) 0 (ts1 ++ x :: ts2) →
  n = default NULL (ids ts2 !! 0%nat) → (∀ y, y ∈ ts2 → id y ≠ NULL ∧ is_Some (wdogs s !! id y)) →
  ∃ wd', relag (wdogs s) wd' ∧ lags (<[id x := WDOG_CLRACTIVE vx]> wd') 0 (ts1 ++ ts2) ∧
    ∀ Q, Q tt (upd_wdogs wd' s) →
      wp (when (negb (n =? NULL)) (c <-- get (id x) ;; x <-- get n ;;
        l <-- add_int (lag x) (lag c) ;; set n (set_lag l))) Q s.
Proof.
  intros Hx Ex Hd [Hl1 Hl2]%lags_app En Hok. rewrite ids_app in Hd.
  pose proof (lags_bound _ _ _ Hl1 ltac:(lia)) as Ht.
  apply NoDup_app in Hd as (_ & Hd & Hd2).
  pose proof (lags_remove _ _ _ _ (WDOG_CLRACTIVE vx) Hl2 Hd2 (proj2 Ht) (proj1 Ht)) as Hrem.
  assert (∀ p, p ∈ ids ts1 → p ≠ id x ∧ p ∉ ids ts2) as H1.
  { intros p Hp. specialize (Hd p Hp). simpl in Hd. set_solver. }
  destruct ts2 as [|y ts2]; simpl in En; subst n.
  - exists (wdogs s). split_and!; [apply relag_refl| |].
    + rewrite app_nil_r. apply lags_insert; [|done]. intros H. by apply H1 in H as [? _].
    + intros Q HQ. simpl. rewrite wp_ret. by destruct s.
  - destruct (Hok y) as [Hy _]; [set_solver|]. destruct Hrem as (vx' & vy & Ex' & Ey & Hold & Lx & Hb & Hl).
    rewrite Ex in Ex'. injection Ex' as <-.
    exists (<[id y := set_lag (lag vy + lag vx) vy]> (wdogs s)). split_and!.
    + apply relag_set; [apply relag_refl|done].
    + apply lags_app. split; [|done]. apply lags_insert; [intros H; by apply H1 in H as [? _]|].
      apply lags_insert; [|done]. intros H. apply H1 in H as [_ H]. set_solver.
    + intros Q HQ. rewrite (proj2 (Z.eqb_neq (id y) NULL)) by done. simpl.
      rewrite wp_bind, (wp_get _ vx), wp_bind, (wp_get _ vy) by done.
      rewrite wp_bind, wp_add, (wp_set _ vy) by (done || lia). done.
Qed.

Lemma cancel_active s ts1 x ts2 fl :
  rep s (ts1 ++ x :: ts2) fl →
  wp (wd_cancel (id x)) (λ r s', r = OK ∧ rep s' (ts1 ++ ts2) fl ∧ frame s s') s.
Proof.
  intros Hr. pose proof (rep_active _ _ _ Hr) as Ha. rewrite ids_app in Ha. simpl in Ha.
  pose proof Ha as [Hd Hseg]. destruct (rep_node _ _ _ x Hr) as (Hx & _ & [vx Ex]); [set_solver|].
  destruct (Sq.sq_split _ _ _ _ _ Ha) as (_ & _ & c & n & _ & En & Hn).
  pose proof (rep_lags _ _ _ Hr) as Hl. apply lags_app in Hl as [Hl1 Hl2].
  unfold wd_cancel. rewrite (proj2 (Z.eqb_neq (id x) NULL)) by done.
  rewrite wp_bind, (wp_get _ vx) by done.
  rewrite (rep_flags _ _ _ Hr _ _ Ex), bool_decide_true by (rewrite ids_app; set_solver).
  rewrite !wp_bind, wp_gets, wp_bind, wp_gets, wp_bind. eapply wp_mono.
  { eapply seek_spec; [exact Hseg|done|].
    pose proof (seg_length _ _ _ _ _ _ _ Hd Hseg) as H. rewrite length_app in H. lia. }
  intros pc s' [-> ->]. rewrite wp_bind, wp_assert by by rewrite (proj2 (Z.eqb_neq (id x) NULL)).
  rewrite wp_bind, (wp_get_next _ n), wp_bind by done.
  destruct (inherit_spec s ts1 x ts2 vx n Hx Ex) as (wd' & Hrl & Hl & Hw).
  { rewrite ids_app. done. }
  { apply lags_app. done. }
  { apply seg_head in Hn. done. }
  { intros y Hy. destruct (rep_node _ _ _ y Hr) as (? & _ & ?); [set_solver|done]. }
  apply Hw. rewrite wp_bind. eapply wp_mono; [by apply (remove_spec (upd_wdogs wd' s))|].
  intros _ s' (m & q & -> & Hq & Ho).
  assert (is_Some (m !! id x)) as [nx Enx] by (eapply only_some; [done|]; simpl; eauto).
  assert (is_Some (wd' !! id x)) as [vx' Ex'].
  { apply elem_of_dom. rewrite (proj1 Hrl). apply elem_of_dom. eauto. }
  rewrite wp_bind, (wp_set_next _ nx) by done. rewrite wp_bind, (wp_set _ vx') by done.
  rewrite wp_ret. split_and!; [done| |].
  - eapply (rep_remove s _ wd' _ _ _ _ vx'); simpl; try done; cycle 1.
    { eapply Sq.sq_rep_frame; [done|]. intros p Hp. rewrite lookup_insert_ne; [done|].
      intros <-. apply NoDup_app in Hd as (_ & H1 & [H2 _]%NoDup_cons). set_solver. }
    { apply only_insert; [done|set_solver|eauto]. }
    destruct (proj2 Hrl _ _ Ex') as (v0 & E0 & Ev). rewrite Ex in E0. injection E0 as <-.
    assert (id x ∉ ids (ts1 ++ ts2)) as Hnx.
    { rewrite ids_app. apply NoDup_app in Hd as (_ & H1 & [H2 _]%NoDup_cons). set_solver. }
    eapply lags_frame; [exact Hl|]. intros p Hp. rewrite !lookup_insert_ne by (intros <-; done). done.
  - unfold frame. simpl. rewrite (dom_insert_some _ _ nx) by done. by rewrite (only_ids_dom _ _ _ Ho).
Qed.

Lemma cancel_spec s ts fl w :
  rep s ts fl → w ∈ dom (wdogs s) →
  wp (wd_cancel w) (λ r s', r = (if bool_decide (w ∈ ids ts) then OK else ERROR) ∧
    rep s' (cancel w ts) fl ∧ frame s s') s.
Proof.
  intros Hr Hw. destruct (decide (w ∈ ids ts)) as [Hi|Hi].
  - apply list_elem_of_fmap in Hi as (x & -> & (ts1 & ts2 & ->)%list_elem_of_split).
    rewrite cancel_once by apply (rep_active _ _ _ Hr).
    rewrite bool_decide_true by (rewrite ids_app; set_solver).
    eapply wp_mono; [by apply cancel_active|done].
  - rewrite cancel_absent, bool_decide_false by done. eapply wp_mono; [by eapply cancel_inactive|].
    intros r s' [-> ->]. done.
Qed.

(** *** [wd_start] *)

(** What the structure of a timer in the list holds. *)
Lemma rep_at s ts1 c ts2 fl :
  rep s (ts1 ++ c :: ts2) fl →
  id c ≠ NULL ∧ next s !! id c = Some (default NULL (ids ts2 !! 0%nat)) ∧
  (∃ v, wdogs s !! id c = Some v ∧ holds (last_due 0 ts1) c v) ∧
  0 ≤ last_due 0 ts1 ≤ due c ∧ due c < 2 ^ 31.
Proof.
  intros Hr. pose proof (rep_active _ _ _ Hr) as Ha. rewrite ids_app in Ha. simpl in Ha.
  destruct (Sq.sq_split _ _ _ _ _ Ha) as (_ & Hc & p & n & _ & En & Hn).
  apply seg_head in Hn. subst n.
  pose proof (rep_lags _ _ _ Hr) as Hl. apply lags_app in Hl as [Hl1 (Hb & Hv & _)].
  pose proof (lags_bound _ _ _ Hl1 ltac:(lia)). split_and!; try done; lia.
Qed.

Lemma advance_spec s x ts fl fuel :
  rep s (x :: ts) fl →
  wp (advance fuel (id x) (id x) 0) (λ p s', s' = s ∧ p = (id x, id x, due x)) s.
Proof.
  intros Hr. destruct (rep_at s [] x ts fl Hr) as (Hx & En & (v & Ev & Lv & _) & Hb & Hb').
  change (last_due 0 []) with 0 in *.
  assert (∀ k, wp (c <-- get (id x) ;; now <-- add_int 0 (lag c) ;; nx <-- get_next (id x) ;;
    if (now <? 0) && negb (nx =? NULL) then k nx now else ret (id x, id x, now))
    (λ p s', s' = s ∧ p = (id x, id x, due x)) s) as H.
  { intros k. rewrite wp_bind, (wp_get _ v) by done. rewrite wp_bind, wp_add by lia.
    rewrite wp_bind, (wp_get_next _ _ _ _ Hx En). rewrite (proj2 (Z.ltb_ge _ _)) by lia.
    simpl. rewrite wp_ret. split; [done|]. f_equal. lia. }
  destruct fuel; apply H.
Qed.

Lemma skip_spec s pre c post fl prev d fuel :
  rep s (pre ++ c :: post) fl → (length post ≤ fuel)%nat →
  Forall (λ y, due y ≤ d) pre → (pre ≠ [] → last (ids pre) = Some prev) →
  wp (skip fuel prev (id c) (due c) d)
    (λ r s', s' = s ∧ ∃ prev' pre' c' post', r = (prev', id c', due c') ∧
       pre ++ c :: post = pre' ++ c' :: post' ∧ Forall (λ y, due y ≤ d) pre' ∧
       (pre' ≠ [] → last (ids pre') = Some prev') ∧ (due c' ≤ d → post' = [])) s.
Proof.
  revert pre c prev fuel. induction post as [|y post IH]; intros pre c prev fuel Hr Hf Hpre Hprev.
  - destruct (rep_at _ _ _ _ _ Hr) as (Hc & En & _). simpl in En.
    destruct fuel; simpl; rewrite wp_bind, (wp_get_next _ _ _ _ Hc En); simpl;
      rewrite andb_false_r, wp_ret; (split; [done|]); by exists prev, pre, c, [].
  - destruct (rep_at _ _ _ _ _ Hr) as (Hc & En & _ & Hb & Hb'). simpl in En.
    pose proof Hr as Hr'. rewrite cons_middle, app_assoc in Hr'.
    destruct (rep_at _ _ _ _ _ Hr') as (Hy & _ & (vy & Ey & Ly & _) & Hby & Hby').
    assert (last_due 0 (pre ++ [c]) = due c) as Eld by (unfold last_due; by rewrite last_snoc).
    rewrite Eld in *. destruct fuel as [|fuel]; [simpl in Hf; lia|]. simpl.
    rewrite wp_bind, (wp_get_next _ _ _ _ Hc En). rewrite (proj2 (Z.eqb_neq (id y) NULL)) by done.
    destruct (Z.leb_spec (due c) d) as [Hd|Hd]; simpl.
    + rewrite wp_bind, (wp_get _ vy) by done. rewrite wp_bind, wp_add by lia.
      replace (due c + lag vy) with (due y) by lia.
      eapply wp_mono; [apply (IH (pre ++ [c]) y (id c) fuel); [done|simpl in Hf; lia| |]|].
      * apply Forall_app. split; [done|]. by apply Forall_singleton.
      * intros _. rewrite ids_app. simpl. by rewrite last_snoc.
      * intros r s' [-> (prev' & pre' & c' & post' & -> & E & ?)]. split; [done|].
        exists prev', pre', c', post'. split; [done|]. rewrite <- app_assoc in E. simpl in E. done.
    + rewrite wp_ret. split; [done|]. exists prev, pre, c, (y :: post). split_and!; [done..|lia].
Qed.

(** Where the new timer [x] goes, and how the lags around it change. *)
Definition placed (s : wdstate) (ts : list timer) (x : timer) (r : Z) (s' : wdstate) : Prop :=
  ∃ ts1 ts2 wd' m q, insert x ts = ts1 ++ x :: ts2 ∧ ts = ts1 ++ ts2 ∧
    s' = upd_active q (upd_next m (upd_wdogs wd' s)) ∧
    Sq.sq_rep m q (ids ts1 ++ id x :: ids ts2) ∧ only (id x :: ids ts) (next s) m ∧
    relag (wdogs s) wd' ∧ r = due x - last_due 0 ts1 ∧ 0 ≤ last_due 0 ts1 ≤ due x ∧
    lags wd' 0 ts1 ∧ lags wd' (due x) ts2.

Lemma lags_due wd t t' x ts l v :
  lags wd t (x :: ts) → wd !! id x = Some v → NoDup (ids (x :: ts)) → t' < due x →
  l = due x - t' → lags (<[id x := set_lag l v]> wd) t' (x :: ts).
Proof.
  intros (Hb & (v' & E & _ & Hh) & Hl) E' [Hd _]%NoDup_cons Ht ->.
  rewrite E in E'. injection E' as ->. simpl. split_and!; [lia|lia| |by apply lags_insert].
  exists (set_lag (due x - t') v). rewrite lookup_insert_eq. by split.
Qed.

(** Before [c], which is due later. *)
Lemma place_before s pre c post fl x prev :
  rep s (pre ++ c :: post) fl → id x ∉ ids (pre ++ c :: post) → id x ∈ dom (next s) →
  Forall (λ y, due y ≤ due x) pre → (pre ≠ [] → last (ids pre) = Some prev) →
  0 ≤ due x < due c →
  wp (v <-- get (id c) ;;
      t <-- sub_int (due c) (lag v) ;; delay <-- sub_int (due x) t ;;
      l <-- sub_int (lag v) delay ;; set (id c) (set_lag l) ;;;
      (if id c =? head (g_wdactivelist s) then active_op (Sq.sq_addfirst (id x))
       else active_op (Sq.sq_addafter prev (id x))) ;;; ret delay)
    (placed s (pre ++ c :: post) x) s.
Proof.
  intros Hr Hx Hxd Hpre Hprev Hdx. destruct (rep_at _ _ _ _ _ Hr) as (Hc & _ & (v & Ev & Lv & Hh) & Hb & Hb').
  assert (id x ≠ NULL) as Hx0 by (intros E; rewrite E in Hxd; by apply (rep_null _ _ _ Hr)).
  pose proof (rep_active _ _ _ Hr) as Ha. pose proof (proj1 Ha) as Hd.
  assert (last_due 0 pre ≤ due x) as Hlast.
  { unfold last_due. destruct (last pre) as [z|] eqn:E; simpl; [|lia].
    apply last_Some_elem_of in E. rewrite Forall_forall in Hpre. by apply Hpre. }
  rewrite wp_bind, (wp_get _ v) by done. rewrite wp_bind, wp_sub by lia.
  rewrite wp_bind, wp_sub by lia. rewrite wp_bind, wp_sub by lia.
  rewrite wp_bind, (wp_set _ v) by done. rewrite wp_bind.
  set (s1 := upd_wdogs _ s).
  assert (wp (if id c =? head (g_wdactivelist s) then active_op (Sq.sq_addfirst (id x))
      else active_op (Sq.sq_addafter prev (id x)))
    (λ _ s', ∃ m q, s' = upd_active q (upd_next m s1) ∧
       Sq.sq_rep m q (ids pre ++ id x :: ids (c :: post)) ∧
       only (id x :: ids (pre ++ c :: post)) (next s) m) s1) as Hq.
  { rewrite ids_app in Ha, Hd, Hx |- *. pose proof (Sq.sq_head _ _ _ Ha) as Hh'.
    destruct pre as [|p pre _] using rev_ind.
    - simpl in Hh'. rewrite Hh', Z.eqb_refl, wp_active_op. eapply wp_mono.
      { apply Sq.sq_addfirst_spec; [exact Ha|done|done|by apply elem_of_dom]. }
      intros q m [??]. by exists m, q.
    - specialize (Hprev ltac:(by destruct pre)). rewrite ids_app in *. simpl in *.
      rewrite last_snoc in Hprev. injection Hprev as <-. rewrite <- app_assoc in *. simpl in *.
      rewrite (proj2 (Z.eqb_neq _ _)).
      2: { rewrite Hh'. apply NoDup_app in Hd as (_ & Hd & Hd'). destruct pre as [|z pre]; simpl in *.
           - apply NoDup_cons in Hd'. set_solver.
           - specialize (Hd (id z) ltac:(set_solver)). set_solver. }
      rewrite wp_active_op. eapply wp_mono.
      { apply Sq.sq_addafter_spec; [exact Ha|done|done|by apply elem_of_dom]. }
      intros q m [??]. exists m, q. by rewrite <- app_assoc. }
  eapply wp_mono; [exact Hq|]. intros _ s' (m & q & -> & Hq' & Ho). rewrite wp_ret.
  pose proof (rep_lags _ _ _ Hr) as Hl. apply lags_app in Hl as [Hl1 Hl2].
  rewrite ids_app in Hd. apply NoDup_app in Hd as (_ & Hd1 & Hd2).
  exists pre, (c :: post), (<[id c := set_lag (lag v - (due x - (due c - lag v))) v]> (wdogs s)), m, q.
  split_and!; [|done|done|done|done| |lia|lia|lia| |].
  - apply insert_split; [done|]. intros y [= <-]. lia.
  - apply relag_set; [apply relag_refl|done].
  - apply lags_insert; [|done]. intros H. apply (Hd1 _ H). set_solver.
  - eapply lags_due; [exact Hl2|done|done|lia|lia].
Qed.

(** After the last timer. *)
Lemma place_last s pre c fl x :
  rep s (pre ++ [c]) fl → id x ∉ ids (pre ++ [c]) → id x ∈ dom (next s) →
  Forall (λ y, due y ≤ due x) (pre ++ [c]) → due x < 2 ^ 31 →
  wp (v <-- get (id c) ;;
      delay <-- sub_int (due x) (due c) ;;
      nx <-- get_next (id c) ;;
      (if nx =? NULL then active_op (Sq.sq_addlast (id x))
       else y <-- get nx ;; l <-- sub_int (lag y) delay ;; set nx (set_lag l) ;;;
            active_op (Sq.sq_addafter (id c) (id x))) ;;; ret delay)
    (placed s (pre ++ [c]) x) s.
Proof.
  intros Hr Hx Hxd Hpre Hdx. destruct (rep_at _ _ _ _ _ Hr) as (Hc & En & (v & Ev & _) & Hb & Hb').
  assert (id x ≠ NULL) as Hx0 by (intros E; rewrite E in Hxd; by apply (rep_null _ _ _ Hr)).
  pose proof Hpre as [_ Hcx]%Forall_app. rewrite Forall_singleton in Hcx. simpl in En.
  rewrite wp_bind, (wp_get _ v) by done. rewrite wp_bind, wp_sub by lia.
  rewrite wp_bind, (wp_get_next _ _ _ _ Hc En). simpl. rewrite wp_bind, wp_active_op.
  eapply wp_mono; [apply Sq.sq_addlast_spec; [apply (rep_active _ _ _ Hr)|done|done|by apply elem_of_dom]|].
  intros q m [Hq Ho]. rewrite wp_ret.
  assert (last_due 0 (pre ++ [c]) = due c) as El by (unfold last_due; by rewrite last_snoc).
  exists (pre ++ [c]), [], (wdogs s), m, q. rewrite El, app_nil_r.
  split_and!; [|done|done|done|done| |lia|lia|lia| |done].
  - rewrite <- (app_nil_r (pre ++ [c])) at 1. by apply insert_split.
  - apply relag_refl.
  - apply (rep_lags _ _ _ Hr).
Qed.

Lemma place_spec s ts fl x :
  rep s ts fl → ts ≠ [] → id x ∉ ids ts → id x ∈ dom (next s) → 0 ≤ due x < 2 ^ 31 →
  wp (place (id x) (due x)) (placed s ts x) s.
Proof.
  intros Hr Hne Hx Hxd Hdx. unfold place. rewrite wp_bind, wp_gets, wp_bind, wp_gets, wp_bind.
  destruct ts as [|y ts]; [done|]. pose proof (rep_active _ _ _ Hr) as Ha.
  rewrite (Sq.sq_head _ _ _ Ha). simpl. eapply wp_mono; [by eapply advance_spec|].
  intros p s' [-> ->]. rewrite wp_bind. eapply wp_mono.
  { apply (skip_spec s [] y ts fl (id y) (due x)); [done| |done|done].
    pose proof (seg_length _ _ _ _ _ _ _ (proj1 Ha) (proj2 Ha)) as H. unfold ids in H.
    rewrite length_fmap in H. simpl in H. lia. }
  intros r s' [-> (prev & pre & c & post & -> & E & Hpre & Hprev & Hlast)]. simpl in E.
  pose proof (Sq.sq_head _ _ _ Ha) as Hh. simpl in Hh. rewrite E in *.
  destruct (Z.ltb_spec (due x) (due c)) as [Hlt|Hge].
  - rewrite <- Hh. apply (place_before _ _ _ _ fl); [done|done|done|done|done|lia].
  - rewrite Hlast in * by lia. apply (place_last _ _ _ fl); [done..| |lia].
    apply Forall_app. split; [done|]. by apply Forall_singleton.
Qed.

(** Marking the placed timer active completes the insertion. *)
Lemma rep_placed s ts fl x v r s' v' :
  rep s ts fl → placed s ts x r s' → id x ∉ ids ts → id x ∉ fl → due x < 2 ^ 31 →
  wdogs s !! id x = Some v → func v = fn x → argc v = Z.of_nat (length (fargs x)) →
  (length (fargs x) ≤ 2)%nat → take (length (fargs x)) (parm v) = fargs x →
  wdogs s' !! id x = Some v' →
  let s'' := upd_wdogs (<[id x := WDOG_SETACTIVE (set_lag r v')]> (wdogs s')) s' in
  rep s'' (insert x ts) fl ∧ frame s s''.
Proof.
  intros Hr (ts1 & ts2 & wd' & m & q & Ei & Et & -> & Hq & Ho & [Dw Fw] & Er & Hb & Hl1 & Hl2)
    Hx Hxf Hdx Ev Fv Av Hlen Pv Ev' s''. simpl in Ev'. rewrite Et, ids_app in Hx.
  destruct (Fw _ _ Ev') as (v0 & E0 & Hv'). rewrite Ev in E0. injection E0 as <-.
  assert (∀ p, p ∈ ids (ts1 ++ x :: ts2) ↔ p = id x ∨ p ∈ ids ts) as Hids
    by (intros p; rewrite Et, !ids_app; set_solver).
  rewrite Ei. split; [split|]; simpl.
  - by rewrite ids_app.
  - apply lags_app. split; [apply lags_insert; [set_solver|done]|]. simpl.
    split_and!; [lia|lia| |apply lags_insert; [set_solver|done]].
    exists (WDOG_SETACTIVE (set_lag r v')). rewrite lookup_insert_eq. split; [done|].
    unfold holds. rewrite Hv'. simpl. by rewrite Fv, Av, Pv.
  - intros p u. destruct (decide (p = id x)) as [->|Hp].
    + rewrite lookup_insert_eq. intros [= <-]. rewrite set_active, bool_decide_true; [done|].
      apply Hids. by left.
    + rewrite lookup_insert_ne by done. intros E. destruct (Fw _ _ E) as (u0 & E0 & ->).
      change (WDOG_ISACTIVE u0 = bool_decide (p ∈ ids (ts1 ++ x :: ts2))).
      rewrite (rep_flags _ _ _ Hr _ _ E0). apply bool_decide_ext. rewrite Hids. tauto.
  - eapply Sq.sq_rep_frame; [by eapply rep_free|]. intros p Hp. apply (proj1 Ho).
    intros [->|H]%elem_of_cons; [done|]. by apply (rep_disj _ _ _ Hr p).
  - intros p Hp [->|H]%Hids; [done|]. by apply (rep_disj _ _ _ Hr p).
  - rewrite (dom_insert_some _ _ v') by done. by rewrite Dw, (proj2 Ho), (rep_dom _ _ _ Hr).
  - rewrite (proj2 Ho). apply (rep_null _ _ _ Hr).
  - unfold frame. simpl. by rewrite (proj2 Ho).
Qed.

(** A timer that is not running can be loaded. *)
Lemma rep_load s ts fl w v f n ps :
  rep s ts fl → w ∉ ids ts → wdogs s !! w = Some v →
  rep (upd_wdogs (<[w := mkwdog f (lag v) (flags v) n ps]> (wdogs s)) s) ts fl.
Proof.
  intros [R1 R2 R3 R4 R5 R6 R7] Hw Ev. split; simpl; try done.
  - by apply lags_insert.
  - intros p u. destruct (decide (p = w)) as [->|Hp].
    + rewrite lookup_insert_eq. intros [= <-]. by apply R3 in Ev.
    + rewrite lookup_insert_ne by done. apply R3.
  - by rewrite (dom_insert_some _ _ v).
Qed.

(** Insertion into the empty list. *)
Lemma place_empty s fl x :
  rep s [] fl → id x ∈ dom (next s) → 0 ≤ due x →
  wp (active_op (Sq.sq_addlast (id x)) ;;; ret (due x)) (placed s [] x) s.
Proof.
  intros Hr Hxd Hdx.
  assert (id x ≠ NULL) as Hx0 by (intros E; rewrite E in Hxd; by apply (rep_null _ _ _ Hr)).
  rewrite wp_bind, wp_active_op. eapply wp_mono.
  { apply Sq.sq_addlast_spec; [apply (rep_active _ _ _ Hr)|set_solver|done|by apply elem_of_dom]. }
  intros q m [Hq Ho]. rewrite wp_ret. exists [], [], (wdogs s), m, q. unfold last_due. simpl.
  split_and!; try done; [apply relag_refl|lia].
Qed.

Definition startable (s : wdstate) (fl : list Z) (w d : Z) (args : list Z) : Prop :=
  w ∈ dom (next s) ∧ ¬ (w ∈ fl) ∧ 0 ≤ d < 2 ^ 31 - 1 ∧ (length args ≤ 2)%nat.

Lemma cancel_ids p w ts : p ∈ ids (cancel w ts) ↔ p ∈ ids ts ∧ p ≠ w.
Proof.
  unfold ids, cancel. rewrite !list_elem_of_fmap. setoid_rewrite list_elem_of_filter. naive_solver.
Qed.

Lemma start_spec s ts fl w d f args :
  rep s ts fl → startable s fl w d args →
  wp (wd_start w d f args)
    (λ r s', r = OK ∧ rep s' (start w d f args ts) fl ∧ frame s s') s.
Proof.
  intros Hr (Hwd & Hwf & Hd & Ha). set (x := mktimer w (d + 1) f args).
  assert (w ≠ NULL) as Hw0 by (intros ->; by apply (rep_null _ _ _ Hr)).
  unfold wd_start, CONFIG_MAX_WDOGPARMS. rewrite (proj2 (Z.eqb_neq w NULL)) by done.
  rewrite (proj2 (Z.ltb_ge 2 _)), (proj2 (Z.ltb_ge d 0)) by lia. simpl.
  rewrite (rep_dom _ _ _ Hr) in Hwd. apply elem_of_dom in Hwd as Hv. destruct Hv as [v Ev].
  rewrite wp_bind, (wp_get _ v), wp_bind by done.
  assert (wp (if WDOG_ISACTIVE v then wd_cancel w ;;; ret tt else ret tt)
    (λ _ s', rep s' (cancel w ts) fl ∧ frame s s') s) as Hc.
  { rewrite (rep_flags _ _ _ Hr _ _ Ev). case_bool_decide as Hi.
    - rewrite wp_bind. eapply wp_mono; [by apply cancel_spec|]. by intros r s1 (_ & ? & ?).
    - rewrite wp_ret, cancel_absent by done. done. }
  eapply wp_mono; [exact Hc|]. intros _ s1 [Hr1 Hf1]. clear Hc.
  assert (w ∉ ids (cancel w ts)) as Hw1 by (rewrite cancel_ids; tauto).
  assert (w ∈ dom (next s1)) as Hwd1 by (by rewrite (proj1 Hf1), (rep_dom _ _ _ Hr)).
  assert (is_Some (wdogs s1 !! w)) as [v1 Ev1] by by rewrite <- elem_of_dom, <- (rep_dom _ _ _ Hr1).
  rewrite wp_bind, (wp_set _ v1) by done.
  set (ps := args ++ _). pose proof (rep_load _ _ _ w v1 f (Z.of_nat (length args)) ps Hr1 Hw1 Ev1) as Hr2.
  set (s2 := upd_wdogs _ s1) in *. rewrite wp_bind.
  assert (∀ Q : Z → wdstate → Prop, Q (d + 1) s2 → wp (if d <=? 0 then ret 1
    else d0 <-- add_int d 1 ;; if d0 <=? 0 then sub_int d0 1 else ret d0) Q s2) as Hdel.
  { intros Q HQ. destruct (Z.leb_spec d 0); [by replace 1 with (d + 1) by lia|].
    rewrite wp_bind, wp_add by lia. by rewrite (proj2 (Z.leb_gt _ _)) by lia. }
  apply Hdel. rewrite wp_bind, wp_gets, wp_bind.
  rewrite (Sq.sq_empty _ _ _ (rep_active _ _ _ Hr2)).
  assert (wp (if bool_decide (ids (cancel w ts) = []) then active_op (Sq.sq_addlast w) ;;; ret (d + 1)
    else place w (d + 1)) (placed s2 (cancel w ts) x) s2) as Hp.
  { case_bool_decide as E.
    - apply fmap_nil_inv in E. rewrite E in *. apply (place_empty s2 fl x); [done|done|simpl; lia].
    - apply (place_spec s2 _ fl x); [done| |done|done|simpl; lia]. by intros H; rewrite H in E. }
  eapply wp_mono; [exact Hp|]. intros r s3 H3.
  assert (is_Some (wdogs s3 !! w)) as [v3 Ev3].
  { destruct H3 as (? & ? & wd' & ? & ? & _ & _ & -> & _ & _ & [Dw _] & _). simpl.
    rewrite <- elem_of_dom, Dw, <- (rep_dom _ _ _ Hr2). done. }
  rewrite wp_bind, (wp_set _ v3), wp_ret by done.
  destruct (rep_placed s2 (cancel w ts) fl x (mkwdog f (lag v1) (flags v1) (Z.of_nat (length args)) ps)
    r s3 v3) as [H4 H5]; simpl; try done; [lia|by rewrite lookup_insert_eq|unfold ps; by rewrite take_app_length|].
  split_and!; [done|done|]. etrans; [done|]. etrans; [|done]. done.
Qed.

(** *** The timer interrupt *)

(** A call a watchdog function may make: on a structure that is neither free
    nor unknown, with a delay and arguments the interface allows. *)
Definition hop_ok (nodes : gset Z) (fl : list Z) (o : hop) : Prop :=
  match o with
  | HStart w d f args => w ∈ nodes ∧ ¬ (w ∈ fl) ∧ 0 ≤ d < 2 ^ 31 - 1 ∧ (length args ≤ 2)%nat
  | HCancel w => w ∈ nodes
  end.

Lemma run_hops_spec os s ts fl :
  rep s ts fl → Forall (hop_ok (dom (next s)) fl) os →
  wp (run_hops os) (λ _ s', rep s' (spec_hops os ts) fl ∧ frame s s') s.
Proof.
  revert s ts. induction os as [|o os IH]; intros s ts Hr Hos; [done|].
  apply Forall_cons in Hos as [Ho Hos]. simpl. rewrite wp_bind.
  assert (wp (run_hop o) (λ _ s', rep s' (spec_hop o ts) fl ∧ frame s s') s) as H1.
  { destruct o as [w d f args|w]; simpl in *; rewrite wp_bind.
    - eapply wp_mono; [by apply start_spec|]. intros r s' (_ & ? & ?). by rewrite wp_ret.
    - eapply wp_mono; [apply cancel_spec; [done|by rewrite <- (rep_dom _ _ _ Hr)]|].
      intros r s' (_ & ? & ?). by rewrite wp_ret. }
  eapply wp_mono; [exact H1|]. intros _ s1 [Hr1 Hf1]. rewrite <- (proj1 Hf1) in Hos.
  eapply wp_mono; [by apply IH|]. intros _ s2 [Hr2 Hf2]. split; [done|by etrans].
Qed.

(** The timers that are due. *)
Definition expired (ts : list timer) : nat := length (filter (λ x, due x ≤ 0) ts).

Lemma expired_cancel w ts : (expired (cancel w ts) ≤ expired ts)%nat.
Proof.
  unfold expired, cancel. induction ts as [|x ts IH]; [done|].
  rewrite (filter_cons _ x ts). case_decide; rewrite !filter_cons; case_decide; simpl; lia.
Qed.

Lemma expired_insert x ts : 0 < due x → expired (insert x ts) = expired ts.
Proof.
  unfold expired. induction ts as [|y ts IH]; intros H; simpl.
  - rewrite filter_cons_False by lia. done.
  - destruct (due y <=? due x); rewrite !filter_cons; repeat case_decide; simpl; (lia || auto).
Qed.

Lemma expired_hops nodes fl os ts :
  Forall (hop_ok nodes fl) os → (expired (spec_hops os ts) ≤ expired ts)%nat.
Proof.
  revert ts. induction os as [|o os IH]; intros ts Hos; [done|].
  apply Forall_cons in Hos as [Ho Hos]. simpl. etrans; [by apply IH|].
  destruct o as [w d f args|w]; simpl; [|apply expired_cancel].
  unfold start. rewrite expired_insert; [apply expired_cancel|].
  destruct Ho as (_ & _ & Hd & _). simpl. lia.
Qed.

(** In a list of timers the first is due first. *)
Lemma lags_le wd t ts x : lags wd t ts → x ∈ ts → t ≤ due x.
Proof.
  revert t. induction ts as [|y ts IH]; intros t Hl; [set_solver|].
  destruct Hl as (Hb & _ & Hl). intros [->|Hx]%elem_of_cons; [lia|]. specialize (IH _ Hl Hx). lia.
Qed.


(** Taking the first timer off the list when its time has come. *)
Lemma pop_spec {A} s x ts fl (k : Z → wdog_s → M wdstate A) Q :
  rep s (x :: ts) fl → due x = 0 →
  (∀ v s', rep s' ts fl → frame s s' → holds 0 x v → wp (k (id x) v) Q s') →
  wp (wdog <-- active_rem Sq.sq_remfirst ;;
      h <-- gets (λ s, head (g_wdactivelist s)) ;;
      when (negb (h =? NULL))
        (y <-- get h ;; w <-- get wdog ;; l <-- add_int (lag y) (lag w) ;; set h (set_lag l)) ;;;
      set wdog WDOG_CLRACTIVE ;;; w <-- get wdog ;; k wdog w) Q s.
Proof.
  intros Hr Hx0 Hk. destruct (rep_at s [] x ts fl Hr) as (Hx & _ & (vx & Ex & Hh) & _).
  change (last_due 0 []) with 0 in Hh. pose proof (rep_active _ _ _ Hr) as Ha. pose proof (proj1 Ha) as Hd.
  pose proof (lags_remove _ 0 x ts (WDOG_CLRACTIVE vx) (rep_lags _ _ _ Hr) Hd ltac:(lia) ltac:(lia)) as Hrem.
  rewrite wp_bind, wp_active_rem. eapply wp_mono; [by apply Sq.sq_remfirst_spec|].
  intros [r q] m (-> & Hq & Ho). simpl in Hq |- *. rewrite drop_0 in Hq.
  rewrite wp_bind, wp_gets, wp_bind. simpl. rewrite (Sq.sq_head _ _ _ Hq).
  set (s1 := upd_active q (upd_next m s)).
  assert (∃ wd', relag (wdogs s) wd' ∧ wd' !! id x = Some vx ∧
    lags (<[id x := WDOG_CLRACTIVE vx]> wd') 0 ts ∧
    ∀ Q, Q tt (upd_wdogs wd' s1) →
      wp (when (negb (default NULL (ids ts !! 0%nat) =? NULL))
        (y <-- get (default NULL (ids ts !! 0%nat)) ;; w <-- get (id x) ;;
         l <-- add_int (lag y) (lag w) ;; set (default NULL (ids ts !! 0%nat)) (set_lag l))) Q s1)
    as (wd' & Hrl & Ex' & Hl & Hw).
  { destruct ts as [|y ts].
    - exists (wdogs s). split_and!; [apply relag_refl|done..].
    - destruct Hrem as (vx' & vy & Ex' & Ey & Hold & Lx & Hb & Hl). rewrite Ex in Ex'. injection Ex' as <-.
      apply NoDup_cons in Hd as [Hd _].
      exists (<[id y := set_lag (lag vy + lag vx) vy]> (wdogs s)). split_and!; [| |done|].
      + apply relag_set; [apply relag_refl|done].
      + rewrite lookup_insert_ne; [done|set_solver].
      + intros Q' HQ. simpl. destruct (rep_node _ _ _ y Hr) as (Hy & _); [set_solver|].
        rewrite (proj2 (Z.eqb_neq (id y) NULL)) by done. simpl.
        rewrite wp_bind, (wp_get _ vy), wp_bind, (wp_get _ vx) by done.
        rewrite wp_bind, wp_add, (wp_set _ vy) by (done || lia). done. }
  apply Hw. rewrite wp_bind, (wp_set _ vx) by done.
  rewrite wp_bind, (wp_get _ (WDOG_CLRACTIVE vx)); [|done|by simpl; rewrite lookup_insert_eq].
  apply Hk; [|unfold frame; simpl; by rewrite (proj2 Ho)|done].
  by eapply (rep_remove s _ wd' [] x ts fl vx).
Qed.

(** The events of a tick are added to the trace; nothing else of the state
    changes. *)
Definition traced (s : wdstate) (evs : list (Z * Z * list Z)) (s' : wdstate) : Prop :=
  calls s' = calls s ++ evs ∧ frame s (upd_calls (calls s) s').

Lemma traced_nil s : traced s [] s.
Proof. split; [by rewrite app_nil_r|]. by destruct s. Qed.

(** The events of a step followed by others. *)
Lemma traced_cons s s1 s2 e evs :
  frame s s1 → traced (upd_calls (calls s1 ++ [e]) s1) evs s2 → traced s (e :: evs) s2.
Proof.
  intros (F1 & F2 & F3 & F4 & F5) [C F]. unfold traced, frame in *. simpl in *.
  destruct F as (G1 & G2 & G3 & G4 & _). rewrite F5, <- app_assoc in C. split; [done|].
  split_and!; try congruence.
Qed.

Lemma traced_frame s s1 s2 evs : frame s s1 → traced s1 evs s2 → traced s evs s2.
Proof.
  intros (F1 & F2 & F3 & F4 & F5) [C F]. unfold traced, frame in *. simpl in *.
  destruct F as (G1 & G2 & G3 & G4 & _). rewrite F5 in C. split; [done|]. split_and!; try congruence.
Qed.

Lemma rep_calls s ts fl cs : rep s ts fl → rep (upd_calls cs s) ts fl.
Proof. by intros [R1 R2 R3 R4 R5 R6 R7]. Qed.

Section Tick.
Context (handler : Z → list Z → list hop) (nodes : gset Z) (fl : list Z).
Hypothesis handler_ok : ∀ f args, Forall (hop_ok nodes fl) (handler f args).

(** Nothing is due. *)
Lemma expire_idle f1 f2 s ts :
  rep s ts fl → (∀ x, ts !! 0%nat = Some x → 0 < due x) →
  wp (expire handler f1) (λ _ s', s' = s) s ∧ fire handler f2 ts = ([], ts) ∧
  Forall (λ x, 0 < due x) ts.
Proof.
  intros Hr H0. pose proof (Sq.sq_head _ _ _ (rep_active _ _ _ Hr)) as Eh. destruct ts as [|x ts]; simpl in Eh.
  - split_and!; [|by destruct f2|done]. destruct f1; simpl; by rewrite wp_bind, wp_gets, Eh.
  - specialize (H0 x eq_refl). pose proof (rep_at s [] x ts fl Hr) as (Hx & _ & (vx & Ex & Lx & _) & _).
    change (last_due 0 []) with 0 in Lx. split_and!.
    + destruct f1; simpl; rewrite wp_bind, wp_gets, Eh, (proj2 (Z.eqb_neq (id x) NULL)) by done;
        rewrite wp_bind, (wp_get _ vx), (proj2 (Z.leb_gt _ _)) by (done || lia); by rewrite wp_ret.
    + destruct f2; simpl; [done|]. by rewrite (proj2 (Z.leb_gt _ _)) by lia.
    + pose proof (rep_lags _ _ _ Hr) as (_ & _ & Hl). apply Forall_cons. split; [done|].
      apply Forall_forall. intros y Hy. pose proof (lags_le _ _ _ _ Hl Hy). lia.
Qed.

Lemma head_due ts :
  (∀ x, ts !! 0%nat = Some x → 0 < due x) ∨ ∃ x ts', ts = x :: ts' ∧ due x ≤ 0.
Proof.
  destruct ts as [|x ts]; [by left|]. destruct (Z.le_gt_cases (due x) 0); [right; eauto|].
  left. intros y [= <-]. lia.
Qed.

Lemma expire_spec f1 f2 s ts :
  rep s ts fl → dom (next s) = nodes → (expired ts ≤ f1)%nat → (expired ts ≤ f2)%nat →
  wp (expire handler f1)
    (λ _ s', rep s' (snd (fire handler f2 ts)) fl ∧ traced s (fst (fire handler f2 ts)) s' ∧
       Forall (λ x, 0 < due x) (snd (fire handler f2 ts))) s.
Proof.
  revert f2 s ts. induction f1 as [|f1 IH]; intros f2 s ts Hr Hn H1 H2.
  all: destruct (head_due ts) as [Hidle|(x & ts' & -> & Hdue)].
  1, 3: destruct (expire_idle 0 f2 s ts Hr Hidle) as (_ & -> & Hall);
    eapply wp_mono; [by apply (expire_idle _ f2 s ts Hr)|];
    intros _ s' ->; (split_and!; [done|apply traced_nil|done]).
  all: assert (expired (x :: ts') = S (expired ts')) as Ee
    by (unfold expired; by rewrite filter_cons_True by done).
  { lia. }
  destruct f2 as [|f2]; [lia|]. rewrite Ee in H1, H2.
  destruct (rep_at s [] x ts' fl Hr) as (Hx & _ & (vx & Ex & Lx & _) & Hb & _).
  change (last_due 0 []) with 0 in *.
  pose proof (Sq.sq_head _ _ _ (rep_active _ _ _ Hr)) as Eh. simpl in Eh.
  cbn [expire]. rewrite wp_bind, wp_gets, Eh, (proj2 (Z.eqb_neq (id x) NULL)) by done.
  rewrite wp_bind, (wp_get _ vx), (proj2 (Z.leb_le _ _)) by (done || lia).
  apply (pop_spec s x ts' fl); [done|lia|]. intros v s1 Hr1 Hf1 (_ & Fv & Av & Bv & Pv).
  rewrite wp_bind. unfold call_entry, CONFIG_MAX_WDOGPARMS.
  rewrite (proj2 (Z.ltb_ge (argc v) 0)), (proj2 (Z.ltb_ge 2 _)) by lia. simpl.
  rewrite Av, Nat2Z.id, Pv, Fv, wp_bind, wp_modify.
  set (s2 := upd_calls _ s1). assert (dom (next s2) = nodes) as Hn2 by (unfold s2; simpl; by rewrite (proj1 Hf1)).
  eapply wp_mono; [apply (run_hops_spec _ s2 ts' fl); [by apply rep_calls|by rewrite Hn2]|].
  intros _ s3 [Hr3 Hf3]. pose proof (expired_hops _ _ _ ts' (handler_ok (fn x) (fargs x))) as He.
  eapply wp_mono; [apply (IH f2 s3 _ Hr3); [by rewrite (proj1 Hf3)|lia|lia]|].
  intros _ s4 (Hr4 & Ht4 & Hall). simpl. rewrite (proj2 (Z.leb_le _ _)) by done.
  destruct (fire handler f2 _) as [evs ts4]. simpl in *. split_and!; [done| |done].
  eapply traced_cons; [done|]. by eapply traced_frame.
Qed.

Lemma ids_elapse ts : ids (elapse ts) = ids ts.
Proof. unfold ids, elapse. rewrite <- list_fmap_compose. by apply list_fmap_ext. Qed.

Lemma lags_elapse wd t ts : lags wd t ts → lags wd (t - 1) (elapse ts).
Proof.
  revert t. induction ts as [|x ts IH]; intros t; [done|]. intros (Hb & (v & E & Hh) & Hl).
  simpl. split_and!; [lia|lia| |by apply IH].
  exists v. split; [done|]. unfold holds in *. simpl. destruct Hh as (? & ?). split; [lia|done].
Qed.

Lemma expired_le ts : (expired ts ≤ length ts)%nat.
Proof. apply length_filter. Qed.

Lemma timer_spec s ts :
  rep s ts fl → dom (next s) = nodes → Forall (λ x, 0 < due x) ts →
  wp (wd_timer handler)
    (λ _ s', rep s' (snd (tick handler ts)) fl ∧ traced s (fst (tick handler ts)) s' ∧
       Forall (λ x, 0 < due x) (snd (tick handler ts))) s.
Proof.
  intros Hr Hn Hpos. pose proof (rep_active _ _ _ Hr) as Ha. pose proof (Sq.sq_head _ _ _ Ha) as Eh.
  unfold wd_timer. rewrite wp_bind, wp_gets. destruct ts as [|x ts]; simpl in Eh; rewrite Eh.
  { simpl. rewrite wp_ret. split_and!; [done|apply traced_nil|done]. }
  destruct (rep_at s [] x ts fl Hr) as (Hx & _ & (v & Ev & Hh) & Hb & Hb').
  change (last_due 0 []) with 0 in *. apply Forall_cons in Hpos as [Hx0 _]. pose proof (proj1 Hh) as Lv.
  rewrite (proj2 (Z.eqb_neq (id x) NULL)) by done.
  rewrite wp_bind, (wp_get _ v) by done. rewrite wp_bind, wp_sub by lia.
  rewrite wp_bind, (wp_set _ v) by done. set (s1 := upd_wdogs _ s).
  assert (rep s1 (elapse (x :: ts)) fl) as Hr1.
  { destruct Hr as [R1 R2 R3 R4 R5 R6 R7]. split; simpl; rewrite ?ids_elapse; try done.
    - destruct R2 as (_ & _ & Hl). destruct R1 as [[Hd _]%NoDup_cons _].
      split_and!; [lia|lia| |].
      + exists (set_lag (lag v - 1) v). rewrite lookup_insert_eq. split; [done|].
        unfold holds in *. simpl. destruct Hh as (? & ?). split; [lia|done].
      + apply lags_insert; [by rewrite ids_elapse|]. by apply lags_elapse in Hl.
    - intros p u. destruct (decide (p = id x)) as [->|Hp].
      + rewrite lookup_insert_eq. intros [= <-]. by apply R3 in Ev.
      + rewrite lookup_insert_ne by done. apply R3.
    - by rewrite (dom_insert_some _ _ v). }
  unfold wd_expiration. rewrite wp_bind, wp_gets. simpl. rewrite Eh.
  rewrite wp_bind, (wp_get _ (set_lag (lag v - 1) v)); [|done|by simpl; rewrite lookup_insert_eq].
  assert (length (x :: ts) ≤ size (next s1))%nat as Hsz.
  { pose proof (seg_length _ _ _ _ _ _ _ (proj1 Ha) (proj2 Ha)) as H. unfold ids in H.
    by rewrite length_fmap in H. }
  pose proof (expired_le (elapse (x :: ts))) as He. unfold elapse in He at 2. rewrite length_fmap in He.
  change (lag (set_lag (lag v - 1) v)) with (lag v - 1). unfold tick.
  destruct (Z.leb_spec (lag v - 1) 0).
  - rewrite wp_bind, wp_gets. eapply wp_mono; [apply (expire_spec _ (length (x :: ts)) s1 _ Hr1); [done|lia|lia]|].
    intros _ s' (? & ? & ?). split_and!; [done| |done]. by apply (traced_frame s s1).
  - rewrite wp_ret. destruct (expire_idle 0 (length (x :: ts)) s1 _ Hr1) as (_ & -> & Hall).
    { intros y [= <-]. simpl. lia. }
    split_and!; [done| |done]. by apply (traced_frame s s1); [|apply traced_nil].
Qed.

End Tick.

(** *** [wd_gettime] *)

Lemma remaining_spec s ts1 ts2 fl w fuel :
  rep s (ts1 ++ ts2) fl → w ∈ ids ts2 → (length ts2 ≤ fuel)%nat →
  wp (remaining fuel (default NULL (ids ts2 !! 0%nat)) (last_due 0 ts1) w)
    (λ r s', s' = s ∧ r = left w ts2) s.
Proof.
  revert ts1 fuel. induction ts2 as [|x ts2 IH]; intros ts1 fuel Hr Hw Hf; [set_solver|].
  destruct (rep_at _ _ _ _ _ Hr) as (Hx & En & (v & Ev & Lv & _) & Hb & Hb').
  destruct fuel as [|fuel]; [simpl in Hf; lia|].
  change (default NULL (ids (x :: ts2) !! 0%nat)) with (id x). cbn [remaining left].
  rewrite (proj2 (Z.eqb_neq (id x) NULL)) by done.
  rewrite wp_bind, (wp_get _ v) by done. rewrite wp_bind, wp_add by lia.
  replace (last_due 0 ts1 + lag v) with (due x) by lia.
  destruct (Z.eqb_spec (id x) w) as [E|Hne]; [done|].
  rewrite wp_bind, (wp_get_next _ _ _ _ Hx En).
  rewrite cons_middle, app_assoc in Hr.
  replace (due x) with (last_due 0 (ts1 ++ [x])) by (unfold last_due; by rewrite last_snoc).
  apply IH; [done| |simpl in Hf; lia]. simpl in Hw. set_solver.
Qed.

Lemma left_absent w ts : w ∉ ids ts → left w ts = 0.
Proof.
  induction ts as [|x ts IH]; intros H; [done|]. simpl in *.
  rewrite (proj2 (Z.eqb_neq (id x) w)) by set_solver. apply IH. set_solver.
Qed.

Lemma gettime_spec s ts fl w :
  rep s ts fl → w ∈ dom (next s) → wp (wd_gettime w) (λ r s', s' = s ∧ r = left w ts) s.
Proof.
  intros Hr Hw. assert (w ≠ NULL) as Hw0 by (intros ->; by apply (rep_null _ _ _ Hr)).
  rewrite (rep_dom _ _ _ Hr) in Hw. apply elem_of_dom in Hw as [v Ev].
  unfold wd_gettime. rewrite (proj2 (Z.eqb_neq w NULL)) by done.
  rewrite wp_bind, (wp_get _ v), (rep_flags _ _ _ Hr _ _ Ev) by done. case_bool_decide as Hi.
  - rewrite wp_bind, wp_gets, wp_bind, wp_gets. pose proof (rep_active _ _ _ Hr) as Ha.
    rewrite (Sq.sq_head _ _ _ Ha). apply (remaining_spec s [] ts fl); [done|done|].
    pose proof (seg_length _ _ _ _ _ _ _ (proj1 Ha) (proj2 Ha)) as H. unfold ids in H.
    by rewrite length_fmap in H.
  - rewrite wp_ret. by rewrite left_absent.
Qed.

(** ** Sequences of operations *)

Inductive op : Type :=
| Start (wdog delay wdentry : Z) (args : list Z)
| Cancel (wdog : Z)
| GetTime (wdog : Z)
| Tick.

Section Ops.
Context (handler : Z → list Z → list hop).

Definition run_op (o : op) : M wdstate Z :=
  match o with
  | Start w d f args => wd_start w d f args
  | Cancel w => wd_cancel w
  | GetTime w => wd_gettime w
  | Tick => wd_timer handler ;;; ret 0
  end.

Fixpoint run_ops (os : list op) : M wdstate (list Z) :=
  match os with
  | [] => ret []
  | o :: os => r <-- run_op o ;; rs <-- run_ops os ;; ret (r :: rs)
  end.

(** The value returned, the functions called and the timers left. *)
Definition spec_op (o : op) (ts : list timer) : Z * list (Z * Z * list Z) * list timer :=
  match o with
  | Start w d f args => (OK, [], start w d f args ts)
  | Cancel w => (if bool_decide (w ∈ ids ts) then OK else ERROR, [], cancel w ts)
  | GetTime w => (left w ts, [], ts)
  | Tick => let '(evs, ts) := tick handler ts in (0, evs, ts)
  end.

Fixpoint spec_ops (os : list op) (ts : list timer) : list Z * list (Z * Z * list Z) * list timer :=
  match os with
  | [] => ([], [], ts)
  | o :: os =>
      let '(r, evs, ts) := spec_op o ts in
      let '(rs, evs', ts) := spec_ops os ts in (r :: rs, evs ++ evs', ts)
  end.

Definition op_ok (nodes : gset Z) (fl : list Z) (o : op) : Prop :=
  match o with
  | Start w d f args => hop_ok nodes fl (HStart w d f args)
  | Cancel w | GetTime w => w ∈ nodes
  | Tick => True
  end.

Definition live (ts : list timer) : Prop := Forall (λ x, 0 < due x) ts.

Context (nodes : gset Z) (fl : list Z).
Hypothesis handler_ok : ∀ f args, Forall (hop_ok nodes fl) (handler f args).

Lemma live_cancel w ts : live ts → live (cancel w ts).
Proof.
  unfold live. rewrite !Forall_forall. intros H x [_ Hx]%list_elem_of_filter. by apply H.
Qed.

Lemma live_insert x ts : 0 < due x → live ts → live (insert x ts).
Proof.
  intros Hx. induction ts as [|y ts IH]; intros H; simpl; [by apply Forall_singleton|].
  apply Forall_cons in H as [Hy H]. destruct (due y <=? due x); repeat apply Forall_cons_2; auto.
  by apply IH.
Qed.

Lemma wd_run_op_spec o s ts :
  rep s ts fl → dom (next s) = nodes → live ts → op_ok nodes fl o →
  wp (run_op o) (λ r s', ∃ evs ts', spec_op o ts = (r, evs, ts') ∧ rep s' ts' fl ∧ live ts' ∧
    traced s evs s') s.
Proof.
  intros Hr Hn Hl Ho. destruct o as [w d f args|w|w|]; simpl in *.
  - eapply wp_mono; [apply (start_spec s ts fl); [done|by rewrite <- Hn in Ho]|].
    intros r s' (-> & Hr' & Hf). exists [], (start w d f args ts). split_and!; [done|done| |].
    + apply live_insert; [simpl; lia|by apply live_cancel].
    + eapply traced_frame; [done|apply traced_nil].
  - eapply wp_mono; [apply (cancel_spec s ts fl); [done|by rewrite <- (rep_dom _ _ _ Hr), Hn]|].
    intros r s' (-> & Hr' & Hf). eexists _, _. split_and!; [done|done|by apply live_cancel|].
    eapply traced_frame; [done|apply traced_nil].
  - eapply wp_mono; [apply (gettime_spec s ts fl); [done|by rewrite Hn]|].
    intros r s' (-> & ->). eexists _, _. split_and!; [done|done|done|apply traced_nil].
  - rewrite wp_bind. eapply wp_mono; [by apply (timer_spec handler nodes fl)|].
    intros _ s' (Hr' & Ht & Hl'). rewrite wp_ret. destruct (tick handler ts) as [evs ts'].
    by exists evs, ts'.
Qed.

Lemma traced_trans s s1 s2 e1 e2 : traced s e1 s1 → traced s1 e2 s2 → traced s (e1 ++ e2) s2.
Proof.
  intros [C1 F1] [C2 F2]. unfold traced, frame in *. simpl in *.
  rewrite C2, C1, app_assoc. destruct_and!. split_and!; congruence.
Qed.

Lemma run_ops_spec os s ts :
  rep s ts fl → dom (next s) = nodes → live ts → Forall (op_ok nodes fl) os →
  ∃ rs evs ts' s', run_ops os s = Ok (rs, s') ∧ spec_ops os ts = (rs, evs, ts') ∧
    rep s' ts' fl ∧ live ts' ∧ traced s evs s'.
Proof.
  revert s ts. induction os as [|o os IH]; intros s ts Hr Hn Hl Hos.
  - exists [], [], ts, s. split_and!; try done; apply traced_nil.
  - apply Forall_cons in Hos as [Ho Hos].
    destruct (wp_run _ _ _ (wd_run_op_spec o s ts Hr Hn Hl Ho)) as (r & s1 & R & evs & ts1 & E & Hr1 & Hl1 & Ht).
    destruct (IH s1 ts1 Hr1) as (rs & evs' & ts' & s' & R' & E' & Hr' & Hl' & Ht'); [|done|done|].
    { destruct Ht as [_ F]. by rewrite <- Hn, <- (proj1 F). }
    exists (r :: rs), (evs ++ evs'), ts', s'. simpl. unfold bind. rewrite R. cbn [res_bind].
    rewrite R'. cbn [res_bind]. rewrite E, E'. split_and!; [done..|by eapply traced_trans].
Qed.

End Ops.

(** C18: the watchdog list refines a list of timers with the ticks each has
    left.  From a state that represents the timers [ts], any sequence of
    [wd_start], [wd_cancel], [wd_gettime] and timer ticks is defined (no
    overflow, no failed assertion, every loop ends), returns what the
    specification returns, calls the same functions with the same arguments in
    the same order, and ends in a state that represents the timers left.  The
    functions may themselves start and cancel timers. *)
Theorem wd_refinement handler fl os s ts :
  rep s ts fl → live ts →
  (∀ f args, Forall (hop_ok (dom (next s)) fl) (handler f args)) →
  Forall (op_ok (dom (next s)) fl) os →
  ∃ rs evs ts' s', run_ops handler os s = Ok (rs, s') ∧ spec_ops handler os ts = (rs, evs, ts') ∧
    rep s' ts' fl ∧ live ts' ∧ calls s' = calls s ++ evs.
Proof.
  intros Hr Hl Hh Hos. destruct (run_ops_spec handler (dom (next s)) fl Hh os s ts)
    as (rs & evs & ts' & s' & ? & ? & ? & ? & [? _]); [done..|].
  by exists rs, evs, ts', s'.
Qed.

(** A state in which no timer runs and none is free. *)
Definition quiet (nodes : list Z) : wdstate :=
  mkst (list_to_map ((λ p, (p, NULL)) <$> nodes))
       (list_to_map ((λ p, (p, mkwdog 0 0 0 0 [0; 0])) <$> nodes))
       empty_queue empty_queue 0 0 [].

Lemma dom_nodes {V} (v : V) (nodes : list Z) :
  dom (list_to_map ((λ p, (p, v)) <$> nodes) : gmap Z V) = list_to_set nodes.
Proof. induction nodes as [|p nodes IH]; [done|]. cbn. rewrite dom_insert_L, IH. done. Qed.

Lemma rep_quiet nodes : NULL ∉ nodes → rep (quiet nodes) [] [].
Proof.
  intros H0. split; cbn [next wdogs g_wdactivelist g_wdfreelist quiet].
  - apply Sq.sq_rep_empty.
  - done.
  - intros p v E. apply elem_of_list_to_map_2, list_elem_of_fmap in E as (q & [= -> ->] & _). done.
  - apply Sq.sq_rep_empty.
  - set_solver.
  - by rewrite !dom_nodes.
  - by rewrite dom_nodes, elem_of_list_to_set.
Qed.

Lemma wd_refinement_witness :
  let h := λ f args, if f =? 100 then [HStart 16 1 200 [7]] else [] in
  ∃ rs evs (ts' : list timer) s', run_ops h [Start 8 1 100 []; Tick; GetTime 8; Tick; Tick; Tick; Cancel 8]
      (quiet [8; 16; 24]) = Ok (rs, s') ∧
    evs = [(8, 100, []); (16, 200, [7])] ∧ calls s' = evs ∧ rs = [0; 0; 1; 0; 0; 0; -1] ∧ ts' = [].
Proof.
  set (h := λ (f : Z) (args : list Z), if f =? 100 then [HStart 16 1 200 [7]] else []).
  destruct (wd_refinement h [] [Start 8 1 100 []; Tick; GetTime 8; Tick; Tick; Tick; Cancel 8]
    (quiet [8; 16; 24]) []) as (rs & evs & ts' & s' & R & E & _ & _ & C).
  - apply rep_quiet. set_solver.
  - apply Forall_nil_2.
  - intros f args. unfold h. destruct (f =? 100); [|apply Forall_nil_2].
    apply Forall_singleton. simpl. split_and!; [by apply elem_of_dom|set_solver|lia..].
  - repeat apply Forall_cons_2; simpl; split_and?; try (by apply elem_of_dom); try set_solver; try lia.
  - exists rs, evs, ts', s'. vm_compute in E. injection E as <- <- <-.
    split; [exact R|]. split; [reflexivity|]. split; [exact C|]. split; reflexivity.
Defined.

(** ** Expiration on time *)

(** The timers of structure [w], and the calls made for it. *)
Definition mine (w : Z) (ts : list timer) : list timer := filter (λ x, id x = w) ts.
Definition calls_of (w : Z) (evs : list (Z * Z * list Z)) : list (Z * Z * list Z) :=
  filter (λ e, e.1.1 = w) evs.

Definition hop_other (w : Z) (o : hop) : Prop :=
  match o with HStart w' _ _ _ | HCancel w' => w' ≠ w end.
Definition op_other (w : Z) (o : op) : Prop :=
  match o with Start w' _ _ _ | Cancel w' => w' ≠ w | GetTime _ | Tick => True end.

(** The number of ticks in a sequence of operations. *)
Definition is_tick (o : op) : bool := match o with Tick => true | _ => false end.
Fixpoint ticks (os : list op) : Z :=
  match os with
  | [] => 0
  | o :: os => (if is_tick o then 1 else 0) + ticks os
  end.

Lemma mine_cancel w w' ts : w' ≠ w → mine w (cancel w' ts) = mine w ts.
Proof.
  intros Hw. unfold mine, cancel. rewrite list_filter_filter. apply list_filter_iff. naive_solver.
Qed.

Lemma mine_insert w x ts : mine w (insert x ts) ≡ₚ mine w (x :: ts).
Proof.
  unfold mine. apply filter_Permutation. induction ts as [|y ts IH]; simpl; [done|].
  destruct (due y <=? due x); [|done]. rewrite IH. apply Permutation_swap.
Qed.

Lemma mine_insert_other w x ts : id x ≠ w → mine w (insert x ts) = mine w ts.
Proof.
  intros Hx. unfold mine. induction ts as [|y ts IH]; simpl.
  - by rewrite filter_cons_False.
  - destruct (due y <=? due x); rewrite !filter_cons; repeat case_decide; congruence.
Qed.

Lemma mine_cancelled w ts : mine w (cancel w ts) = [].
Proof.
  unfold mine, cancel. induction ts as [|x ts IH]; [done|]. rewrite filter_cons.
  case_decide; [|done]. by rewrite filter_cons_False.
Qed.

Lemma mine_hops w os ts : Forall (hop_other w) os → mine w (spec_hops os ts) = mine w ts.
Proof.
  revert ts. induction os as [|o os IH]; intros ts Hos; [done|].
  apply Forall_cons in Hos as [Ho Hos]. simpl. rewrite IH by done.
  destruct o as [w' d f args|w']; simpl in *; [unfold start; rewrite mine_insert_other by done|];
    by apply mine_cancel.
Qed.

Lemma mine_elapse w ts : mine w (elapse ts) = elapse (mine w ts).
Proof.
  unfold mine. induction ts as [|x ts IH]; [done|].
  change (elapse (x :: ts)) with (mktimer (id x) (due x - 1) (fn x) (fargs x) :: elapse ts).
  rewrite !filter_cons. cbn [id]. case_decide; [|done]. rewrite IH. done.
Qed.

Section OnTime.
Context (handler : Z → list Z → list hop) (w : Z).
Hypothesis handler_other : ∀ f args, Forall (hop_other w) (handler f args).

(** Firing leaves the timer of [w] alone, or calls it once and removes it. *)
Lemma fire_mine fuel ts :
  (length (mine w ts) ≤ 1)%nat →
  let '(evs, ts') := fire handler fuel ts in
  (mine w ts' = mine w ts ∧ calls_of w evs = []) ∨
  (∃ x, mine w ts = [x] ∧ due x ≤ 0 ∧ mine w ts' = [] ∧ calls_of w evs = [(id x, fn x, fargs x)]).
Proof.
  revert ts. induction fuel as [|fuel IH]; intros ts Hm; [by left|].
  destruct ts as [|x ts]; simpl; [by left|]. destruct (Z.leb_spec (due x) 0); [|by left].
  specialize (IH (spec_hops (handler (fn x) (fargs x)) ts)).
  rewrite (mine_hops w _ ts) in IH by done.
  destruct (fire handler fuel _) as [evs ts']. unfold mine in Hm |- *. rewrite filter_cons in Hm |- *.
  unfold calls_of. rewrite filter_cons. simpl. fold (mine w ts) in *. fold (mine w ts').
  fold (calls_of w evs).
  case_decide as Hx; simpl in Hm.
  - assert (mine w ts = []) as Hn by (apply length_zero_iff_nil; lia).
    rewrite Hn in *. right. exists x. destruct IH as [[-> ->]|(y & [=] & _)]; [simpl; lia|done].
  - destruct IH as [[-> ->]|(y & -> & ? & -> & ->)]; [done|by left|]. right. by exists y.
Qed.

Definition timing (k f : Z) (args : list Z) (ts : list timer) : Prop :=
  mine w ts = [mktimer w k f args].

(** A tick brings the timer of [w] one tick closer, and calls it when that was
    the last one. *)
Lemma tick_mine ts evs ts' k f args :
  tick handler ts = (evs, ts') → live ts' → timing k f args ts →
  if 1 <? k then timing (k - 1) f args ts' ∧ calls_of w evs = []
  else mine w ts' = [] ∧ calls_of w evs = [(w, f, args)].
Proof.
  unfold timing, tick. intros E Hl Ht.
  pose proof (fire_mine (length ts) (elapse ts)) as H. rewrite mine_elapse, Ht in H. simpl in H.
  rewrite E in H. destruct (H ltac:(lia)) as [[E1 E2]|(y & [= <-] & Hy & E1 & E2)].
  - assert (mktimer w (k - 1) f args ∈ mine w ts') as Hin by (rewrite E1; set_solver).
    unfold mine in Hin. apply list_elem_of_filter in Hin as [_ Hin].
    unfold live in Hl. rewrite Forall_forall in Hl. apply Hl in Hin. simpl in Hin.
    by rewrite (proj2 (Z.ltb_lt _ _)) by lia.
  - simpl in Hy. by rewrite (proj2 (Z.ltb_ge _ _)) by lia.
Qed.

Lemma tick_none ts evs ts' :
  tick handler ts = (evs, ts') → mine w ts = [] → mine w ts' = [] ∧ calls_of w evs = [].
Proof.
  unfold tick. intros E Ht. pose proof (fire_mine (length ts) (elapse ts)) as H.
  rewrite mine_elapse, Ht in H. simpl in H. rewrite E in H.
  destruct (H ltac:(lia)) as [[? ?]|(y & [=] & _)]. done.
Qed.

(** An operation on other timers does not concern [w]. *)
Lemma other_op o ts r evs ts' :
  op_other w o → is_tick o = false → spec_op handler o ts = (r, evs, ts') →
  mine w ts' = mine w ts ∧ evs = [].
Proof.
  intros Ho Ht E. destruct o as [w' d g a|w'|w'|]; simpl in *; simplify_eq; split; try done.
  - unfold start. by rewrite mine_insert_other, mine_cancel by done.
  - by rewrite mine_cancel.
Qed.

Context (nodes : gset Z) (fl : list Z).
Hypothesis handler_ok : ∀ f args, Forall (hop_ok nodes fl) (handler f args).

(** The life of a timer over a sequence of operations on other timers. *)
Lemma ops_mine os s ts k f args :
  rep s ts fl → dom (next s) = nodes → live ts → Forall (op_ok nodes fl) os →
  Forall (op_other w) os → (0 < k ∧ timing k f args ts ∨ k ≤ 0 ∧ mine w ts = []) →
  ∃ rs evs ts' s', run_ops handler os s = Ok (rs, s') ∧ calls s' = calls s ++ evs ∧
    rep s' ts' fl ∧ dom (next s') = nodes ∧
    (0 < k - ticks os ∧ timing (k - ticks os) f args ts' ∨ k - ticks os ≤ 0 ∧ mine w ts' = []) ∧
    calls_of w evs = if (0 <? k) && (k - ticks os <=? 0) then [(w, f, args)] else [].
Proof.
  revert s ts k. induction os as [|o os IH]; intros s ts k Hr Hn Hl Hos Hoth Hk.
  - exists [], [], ts, s. simpl. rewrite app_nil_r, Z.sub_0_r. split_and!; try done.
    by destruct (Z.ltb_spec 0 k), (Z.leb_spec k 0); (lia || done).
  - apply Forall_cons in Hos as [Ho Hos]. apply Forall_cons in Hoth as [Ho' Hoth].
    destruct (wp_run _ _ _ (wd_run_op_spec handler nodes fl handler_ok o s ts Hr Hn Hl Ho))
      as (r & s1 & R & evs & ts1 & E & Hr1 & Hl1 & [C1 F1]).
    assert (0 ≤ ticks os) as Hpos by (clear; induction os; simpl; [|destruct (is_tick _)]; lia).
    set (k1 := k - (if is_tick o then 1 else 0)).
    assert ((0 < k1 ∧ timing k1 f args ts1 ∨ k1 ≤ 0 ∧ mine w ts1 = []) ∧
      calls_of w evs = if (0 <? k) && (k1 <=? 0) then [(w, f, args)] else []) as [Hk1 Ec].
    { unfold k1. destruct (is_tick o) eqn:Et.
      - destruct o; try done. simpl in E. destruct (tick handler ts) as [evs0 ts0] eqn:Etick. simplify_eq.
        destruct Hk as [[Hk Ht]|[Hk Ht]].
        + pose proof (tick_mine _ _ _ _ _ _ Etick Hl1 Ht) as H. rewrite (proj2 (Z.ltb_lt 0 k)) by done.
          destruct (Z.ltb_spec 1 k), (Z.leb_spec (k - 1) 0); try lia; destruct H as [Hm ->]; simpl.
          * split; [left; split; [lia|done]|done].
          * split; [right; split; [lia|done]|done].
        + destruct (tick_none _ _ _ Etick Ht) as [-> ->]. rewrite (proj2 (Z.ltb_ge 0 k)) by lia.
          split; [right; split; [lia|done]|done].
      - destruct (other_op _ _ _ _ _ Ho' Et E) as [Em ->]. unfold timing in *. rewrite Em, Z.sub_0_r.
        split; [done|]. by destruct (Z.ltb_spec 0 k), (Z.leb_spec k 0); (lia || done). }
    destruct (IH s1 ts1 k1 Hr1) as (rs & evs' & ts' & s' & R' & C' & Hr' & Hn' & Hk' & Ec');
      [by rewrite <- Hn, <- (proj1 F1)|done..|].
    exists (r :: rs), (evs ++ evs'), ts', s'.
    assert (k - ticks (o :: os) = k1 - ticks os) as -> by (unfold k1; simpl; lia).
    split_and!; [|by rewrite C', C1, app_assoc|done|done|done|].
    + simpl. unfold bind. rewrite R. cbn [res_bind]. by rewrite R'.
    + unfold calls_of in *. rewrite filter_app, Ec, Ec'.
      assert (k1 ≤ k) by (unfold k1; destruct (is_tick o); lia).
      by destruct (Z.ltb_spec 0 k), (Z.leb_spec k1 0), (Z.ltb_spec 0 k1), (Z.leb_spec (k1 - ticks os) 0);
        (lia || done).
Qed.

End OnTime.

Lemma timing_start w d f args ts : timing w (d + 1) f args (start w d f args ts).
Proof.
  unfold timing. apply Permutation_singleton_r. unfold start. rewrite mine_insert.
  unfold mine. rewrite filter_cons_True by done. fold (mine w (cancel w ts)). by rewrite mine_cancelled.
Qed.

Lemma left_mine w ts : left w ts = default 0 (due <$> mine w ts !! 0%nat).
Proof.
  unfold mine. induction ts as [|x ts IH]; [done|]. rewrite filter_cons. simpl.
  case_decide as H; [by rewrite (proj2 (Z.eqb_eq _ _) H)|].
  by rewrite (proj2 (Z.eqb_neq _ _) H).
Qed.

(** C19: a watchdog expires on time.  After [wd_start] with delay [d], and as
    long as nobody restarts or cancels that watchdog, whatever happens to the
    others, its function has not been called during the first [d] ticks and has
    been called exactly once, with its arguments, from tick [d + 1] on;
    [wd_gettime] reports the ticks left. *)
Theorem wd_on_time handler fl s ts w d f args os :
  rep s ts fl → live ts → startable s fl w d args →
  (∀ f args, Forall (hop_ok (dom (next s)) fl) (handler f args)) →
  (∀ f args, Forall (hop_other w) (handler f args)) →
  Forall (op_ok (dom (next s)) fl) os → Forall (op_other w) os →
  ∃ rs evs s', run_ops handler (Start w d f args :: os) s = Ok (rs, s') ∧
    calls s' = calls s ++ evs ∧
    calls_of w evs = (if ticks os <=? d then [] else [(w, f, args)]) ∧
    wd_gettime w s' = Ok (Z.max 0 (d + 1 - ticks os), s').
Proof.
  intros Hr Hl Hst Hh Hh' Hos Hoth. pose proof Hst as (Hw & _ & Hd & _).
  destruct (wp_run _ _ _ (start_spec s ts fl w d f args Hr Hst)) as (r & s1 & R & -> & Hr1 & Hf1).
  pose proof (timing_start w d f args ts) as Ht.
  destruct (ops_mine handler w Hh' _ fl Hh os s1 _ (d + 1) f args Hr1) as
    (rs & evs & ts' & s' & R' & C & Hr' & Hn' & Hk & Ec); [by apply Hf1| |done|done|left; split; [lia|exact Ht]|].
  { apply live_insert; [simpl; lia|by apply live_cancel]. }
  exists (OK :: rs), evs, s'. split_and!.
  - simpl. unfold bind. rewrite R. cbn [res_bind]. by rewrite R'.
  - destruct Hf1 as (_ & _ & _ & _ & E). by rewrite C, E.
  - rewrite Ec. rewrite (proj2 (Z.ltb_lt 0 _)) by lia.
    by destruct (Z.leb_spec (d + 1 - ticks os) 0), (Z.leb_spec (ticks os) d); (lia || done).
  - rewrite <- Hn' in Hw. destruct (wp_run _ _ _ (gettime_spec _ _ _ _ Hr' Hw)) as (r & s2 & -> & -> & ->).
    do 2 f_equal. rewrite left_mine. destruct Hk as [[Hk ->]|[Hk ->]]; simpl; lia.
Qed.

Lemma wd_on_time_witness :
  ∃ rs evs s', run_ops (λ _ _, []) [Start 8 1 100 [5]; Tick; Start 16 0 200 []; Tick] (quiet [8; 16])
      = Ok (rs, s') ∧
    calls s' = [] ++ evs ∧ calls_of 8 evs = [(8, 100, [5])] ∧ wd_gettime 8 s' = Ok (0, s').
Proof.
  apply (wd_on_time (λ _ _, []) [] (quiet [8; 16]) [] 8 1 100 [5] [Tick; Start 16 0 200 []; Tick]).
  - apply rep_quiet. set_solver.
  - apply Forall_nil_2.
  - split_and!; [by apply elem_of_dom|set_solver|simpl; lia..].
  - intros. apply Forall_nil_2.
  - intros. apply Forall_nil_2.
  - repeat apply Forall_cons_2; simpl; split_and?; try (by apply elem_of_dom); try set_solver; try lia.
  - repeat apply Forall_cons_2; simpl; try lia; try done.
Defined.

(** ** Allocation *)

(** The origin of a structure, in its flags, is never changed by the timer
    operations. *)
Definition origin (v : wdog_s) : Z := Z.land (flags v) (Z.lor WDOGF_ALLOCED WDOGF_STATIC).

Definition same_origins (s s' : wdstate) : Prop :=
  ∀ p v', wdogs s' !! p = Some v' → ∃ v, wdogs s !! p = Some v ∧ origin v' = origin v.

#[export] Instance same_origins_preorder : PreOrder same_origins.
Proof.
  split; [intros s p v E; by exists v|]. intros s1 s2 s3 H1 H2 p v E.
  destruct (H2 _ _ E) as (v2 & E2 & ->). destruct (H1 _ _ E2) as (v1 & E1 & ->). by exists v1.
Qed.

Definition keeps {A} (m : M wdstate A) : Prop := ∀ s a s', m s = Ok (a, s') → same_origins s s'.

Lemma keeps_bind {A B} (m : M wdstate A) (k : A → M wdstate B) :
  keeps m → (∀ a, keeps (k a)) → keeps (bind m k).
Proof.
  intros Hm Hk s b s'. unfold bind. destruct (m s) as [[a s1]|] eqn:E; [|done]. intros E'.
  etrans; [by eapply Hm|by eapply Hk].
Qed.

Lemma keeps_when (b : bool) m : keeps m → keeps (when b m).
Proof. intros Hm. destruct b; [done|]. intros s [] s' [= ->]. done. Qed.

Lemma keeps_ret {A} (a : A) : keeps (ret a).
Proof. by intros s b s' [= _ ->]. Qed.

Lemma keeps_gets {A} (f : wdstate → A) : keeps (gets f).
Proof. by intros s b s' [= _ ->]. Qed.

Lemma keeps_fail {A} u : keeps (@fail_ub wdstate A u).
Proof. done. Qed.

Lemma keeps_assert b : keeps (assert_ b).
Proof. destruct b; [apply keeps_ret|done]. Qed.

Lemma keeps_add x y : keeps (add_int x y).
Proof. unfold add_int. destruct (_ && _); [apply keeps_ret|done]. Qed.

Lemma keeps_sub x y : keeps (sub_int x y).
Proof. apply keeps_add. Qed.

Lemma keeps_modify f : (∀ s, wdogs (f s) = wdogs s) → keeps (modify f).
Proof. intros Hf s [] s' [= <-] p v. rewrite Hf. eauto. Qed.

Lemma keeps_next {A} (m : M (gmap Z Z) A) : keeps (on_next m).
Proof. intros s a s'. unfold on_next. destruct (m (next s)) as [[b v]|]; [|done].
  intros [= _ <-] p u. simpl. eauto.
Qed.

Lemma keeps_get w : keeps (get w).
Proof.
  intros s a s'. unfold get, on_wdogs, deref. destruct (w =? NULL); [done|].
  destruct (wdogs s !! w) eqn:E; simpl; [|done]. intros [= _ <-] p u. simpl. eauto.
Qed.

Lemma keeps_set w f : (∀ v, origin (f v) = origin v) → keeps (set w f).
Proof.
  intros Hf s [] s'. unfold set, on_wdogs, assign, bind, deref. destruct (w =? NULL); [done|].
  destruct (wdogs s !! w) as [v|] eqn:E; simpl; [|done]. intros [= <-] p v'. simpl.
  destruct (decide (p = w)) as [->|Hp]; [|rewrite lookup_insert_ne by done; eauto].
  rewrite lookup_insert_eq. intros [= <-]. eauto.
Qed.

Lemma origin_setactive v : origin (WDOG_SETACTIVE v) = origin v.
Proof.
  unfold origin. simpl. change (Z.lor WDOGF_ALLOCED WDOGF_STATIC) with 6. unfold WDOGF_ACTIVE.
  apply Z.bits_inj'. intros n Hn. rewrite !Z.land_spec. unfold u8, wrap.
  destruct (decide (n < 8)) as [H8|H8].
  - rewrite Z.mod_pow2_bits_low, Z.lor_spec by done.
    assert (n = 0 ∨ n ≠ 0) as [->|H0] by lia; [by rewrite !andb_false_r|].
    rewrite (Z.bits_above_log2 1 n) by (simpl; lia). by rewrite orb_false_r.
  - rewrite (Z.bits_above_log2 6 n) by (simpl; lia). by rewrite !andb_false_r.
Qed.

Lemma origin_clractive v : origin (WDOG_CLRACTIVE v) = origin v.
Proof.
  unfold origin. simpl. change (Z.lor WDOGF_ALLOCED WDOGF_STATIC) with 6. unfold WDOGF_ACTIVE.
  apply Z.bits_inj'. intros n Hn. rewrite !Z.land_spec. unfold u8, wrap.
  destruct (decide (n < 8)) as [H8|H8].
  - rewrite Z.mod_pow2_bits_low, Z.land_spec by done.
    assert (n = 0 ∨ n ≠ 0) as [->|H0] by lia; [by rewrite !andb_false_r|].
    rewrite Z.lnot_spec by done.
    rewrite (Z.bits_above_log2 1 n) by (simpl; lia). by rewrite andb_true_r.
  - rewrite (Z.bits_above_log2 6 n) by (simpl; lia). by rewrite !andb_false_r.
Qed.

Create HintDb origins.
#[local] Hint Resolve keeps_bind keeps_when keeps_ret keeps_gets keeps_fail keeps_assert keeps_add
  keeps_sub keeps_next keeps_get keeps_set origin_clractive origin_setactive : origins.
#[local] Hint Extern 1 (keeps (modify _)) => apply keeps_modify; done : origins.
#[local] Hint Extern 1 (keeps (active_op _)) => unfold active_op : origins.
#[local] Hint Extern 1 (keeps (active_rem _)) => unfold active_rem : origins.
#[local] Hint Extern 1 (keeps (get_next _)) => apply keeps_next : origins.
#[local] Hint Extern 1 (keeps (set_next _ _)) => apply keeps_next : origins.
#[local] Hint Extern 2 (keeps (if ?b then _ else _)) => destruct b : origins.
#[local] Hint Extern 2 (keeps (let '(_, _) := ?p in _)) => destruct p : origins.

Lemma keeps_seek fuel prev curr w : keeps (seek fuel prev curr w).
Proof. revert prev curr. induction fuel; intros; simpl; eauto 10 with origins. Qed.
#[local] Hint Resolve keeps_seek : origins.

Lemma keeps_cancel w : keeps (wd_cancel w).
Proof. unfold wd_cancel. eauto 40 with origins. Qed.

#[local] Hint Resolve keeps_cancel : origins.

Ltac keeps_tac :=
  repeat first
    [ apply keeps_bind; [|intros ?] | apply keeps_when
    | match goal with
      | |- keeps (if ?b then _ else _) => destruct b
      | |- keeps (let '(_, _) := ?p in _) => destruct p
      end ]; eauto with origins.

Lemma keeps_advance fuel prev curr now : keeps (advance fuel prev curr now).
Proof. revert prev curr now. induction fuel; intros; simpl; keeps_tac. Qed.

Lemma keeps_skip fuel prev curr now d : keeps (skip fuel prev curr now d).
Proof. revert prev curr now. induction fuel; intros; simpl; keeps_tac. Qed.
#[local] Hint Resolve keeps_advance keeps_skip : origins.

Lemma keeps_place w d : keeps (place w d).
Proof. unfold place. keeps_tac. Qed.
#[local] Hint Resolve keeps_place : origins.

Lemma keeps_start w d f args : keeps (wd_start w d f args).
Proof.
  unfold wd_start. keeps_tac. apply keeps_set. intros v. apply (origin_setactive (set_lag _ v)).
Qed.

#[local] Hint Resolve keeps_start : origins.

Lemma keeps_remaining fuel curr d w : keeps (remaining fuel curr d w).
Proof. revert curr d. induction fuel; intros; simpl; keeps_tac. Qed.
#[local] Hint Resolve keeps_remaining : origins.

Lemma keeps_hops os : keeps (run_hops os).
Proof. induction os as [|[w d f args|w] os IH]; simpl; keeps_tac. Qed.
#[local] Hint Resolve keeps_hops : origins.

Lemma keeps_expire handler fuel : keeps (expire handler fuel).
Proof. induction fuel; simpl; keeps_tac; unfold call_entry; keeps_tac. Qed.
#[local] Hint Resolve keeps_expire : origins.

Lemma keeps_run_op handler o : keeps (run_op handler o).
Proof.
  destruct o; simpl; eauto with origins.
  - unfold wd_gettime. keeps_tac.
  - unfold wd_timer, wd_expiration. keeps_tac.
Qed.

(** Taking a structure from the pool. *)
Lemma create_spec irq mem g s ts w fl :
  rep s ts (w :: fl) → g_wdnfree s = Z.of_nat (length (w :: fl)) → g_wdnfree s < 2 ^ 16 →
  (CONFIG_WDOG_INTRESERVE <? g_wdnfree s) || irq = true →
  wp (wd_create irq mem g)
    (λ r s', r = w ∧ rep s' ts fl ∧ g_wdnfree s' = g_wdnfree s - 1 ∧
       dom (next s') = dom (next s) ∧ calls s' = calls s ∧
       ∃ v, wdogs s' !! w = Some v ∧ flags v = 0) s.
Proof.
  intros Hr Hn Hb Hc. unfold wd_create. rewrite wp_bind, wp_gets, Hc.
  rewrite wp_bind, wp_gets, wp_bind, wp_on_next.
  eapply wp_mono; [apply Sq.sq_remfirst_spec, (rep_free _ _ _ Hr)|].
  intros [r q] m (-> & Hq & Ho). simpl in Hq |- *. rewrite drop_0 in Hq.
  rewrite wp_bind, wp_modify, wp_bind, wp_assert by (simpl in Hn; lia).
  rewrite wp_bind, wp_modify.
  assert (w ≠ NULL ∧ is_Some (next s !! w)) as [Hw Hwn]
    by (apply (Sq.sq_node _ _ _ _ (rep_free _ _ _ Hr)); set_solver).
  assert (is_Some (m !! w)) as [n En] by by eapply only_some.
  assert (is_Some (wdogs s !! w)) as [v Ev]
    by by rewrite <- elem_of_dom, <- (rep_dom _ _ _ Hr), elem_of_dom.
  assert (w ∉ ids ts) as Hwt by (apply (rep_disj _ _ _ Hr); set_solver).
  pose proof (proj1 (rep_free _ _ _ Hr)) as [Hwf _]%NoDup_cons.
  rewrite (proj2 (Z.eqb_neq w NULL)) by done. simpl.
  rewrite wp_bind, wp_bind, (wp_set_next _ n), (wp_set _ v), wp_ret by done.
  destruct Ho as [Ho Dm]. split_and!; [done| |unfold u16; simpl; rewrite wrap_small; simpl in Hn; lia|..].
  - destruct Hr as [R1 R2 R3 R4 R5 R6 R7]. split; simpl; try done.
    + eapply Sq.sq_rep_frame; [done|]. intros p Hp. rewrite lookup_insert_ne by set_solver.
      apply Ho. intros H. by apply (R5 p).
    + by apply lags_insert.
    + intros p u. destruct (decide (p = w)) as [->|Hp].
      * rewrite lookup_insert_eq. intros [= <-]. by rewrite bool_decide_false.
      * rewrite lookup_insert_ne by done. apply R3.
    + eapply Sq.sq_rep_frame; [done|]. intros p Hp. rewrite lookup_insert_ne; [done|set_solver].
    + intros p Hp. apply R5. set_solver.
    + by rewrite (dom_insert_some _ _ n), (dom_insert_some _ _ v), Dm.
    + by rewrite (dom_insert_some _ _ n), Dm.
  - simpl. by rewrite (dom_insert_some _ _ n).
  - done.
  - exists (set_flags 0 v). simpl. by rewrite lookup_insert_eq.
Qed.

(** Returning a pool structure, running or not. *)
Lemma delete_spec s ts fl w v :
  rep s ts fl → wdogs s !! w = Some v → w ∉ fl → origin v = 0 →
  g_wdnfree s = Z.of_nat (length fl) → g_wdnfree s < CONFIG_PREALLOC_WDOGS →
  wp (wd_delete w)
    (λ r s', r = OK ∧ rep s' (cancel w ts) (fl ++ [w]) ∧ g_wdnfree s' = g_wdnfree s + 1 ∧
       dom (next s') = dom (next s) ∧ calls s' = calls s) s.
Proof.
  intros Hr Ev Hwf Ov Hn Hb. unfold CONFIG_PREALLOC_WDOGS in Hb.
  assert (w ∈ dom (wdogs s)) as Hwd by (apply elem_of_dom; eauto).
  assert (w ≠ NULL) as Hw0 by (intros ->; apply (rep_null _ _ _ Hr); by rewrite (rep_dom _ _ _ Hr)).
  unfold wd_delete. rewrite wp_bind, wp_assert by by rewrite (proj2 (Z.eqb_neq w NULL)).
  rewrite wp_bind, (wp_get _ v), wp_bind by done.
  assert (wp (if WDOG_ISACTIVE v then wd_cancel w ;;; ret tt else ret tt)
    (λ _ s', rep s' (cancel w ts) fl ∧ frame s s' ∧ same_origins s s') s) as Hc.
  { rewrite (rep_flags _ _ _ Hr _ _ Ev). case_bool_decide as Hi.
    - rewrite wp_bind. destruct (wp_run _ _ _ (cancel_spec s ts fl w Hr Hwd)) as (r & s1 & R & _ & H1 & H2).
      eapply wp_ok; [exact R|]. rewrite wp_ret. split_and!; [done|done|]. by eapply keeps_cancel.
    - rewrite wp_ret, cancel_absent by done. done. }
  eapply wp_mono; [exact Hc|]. intros _ s1 (Hr1 & Hf1 & Ho1). clear Hc.
  assert (is_Some (wdogs s1 !! w)) as [v1 Ev1].
  { rewrite <- elem_of_dom, <- (rep_dom _ _ _ Hr1), (proj1 Hf1), (rep_dom _ _ _ Hr). done. }
  destruct (Ho1 _ _ Ev1) as (v0 & E0 & Ov1). rewrite Ev in E0. injection E0 as <-. rewrite Ov in Ov1.
  rewrite wp_bind, (wp_get _ v1) by done. rewrite wp_bind.
  assert (WDOG_ISALLOCED v1 = false ∧ WDOG_ISSTATIC v1 = false) as [-> ->].
  { unfold origin in Ov1. change (Z.lor WDOGF_ALLOCED WDOGF_STATIC) with 6 in Ov1.
    unfold WDOG_ISALLOCED, WDOG_ISSTATIC, WDOGF_ALLOCED, WDOGF_STATIC.
    change 2 with (Z.land 6 2). change 4 with (Z.land 6 4). by rewrite !Z.land_assoc, Ov1. }
  simpl. unfold free_op. rewrite !wp_bind, wp_gets, wp_bind, wp_on_next.
  assert (w ∈ dom (next s1)) as Hwn by (rewrite (rep_dom _ _ _ Hr1); apply elem_of_dom; eauto).
  eapply wp_mono; [apply Sq.sq_addlast_spec; [apply (rep_free _ _ _ Hr1)|done|done|by apply elem_of_dom]|].
  intros q m [Hq [Ho Dm]]. rewrite wp_modify, wp_bind, wp_gets, wp_bind, wp_modify. simpl.
  destruct Hf1 as (F1 & F2 & F3 & F4 & F5).
  assert (u16 (g_wdnfree s1 + 1) = g_wdnfree s + 1) as En by (unfold u16; rewrite wrap_small; lia).
  rewrite wp_bind, wp_gets, wp_assert, wp_ret; [|simpl; rewrite En; unfold CONFIG_PREALLOC_WDOGS; lia].
  split_and!; [done| |done|by simpl; rewrite Dm|done]. destruct Hr1 as [R1 R2 R3 R4 R5 R6 R7]. split; simpl; try done.
  - eapply Sq.sq_rep_frame; [done|]. intros p Hp. apply Ho. intros [->|H]%elem_of_cons.
    + apply cancel_ids in Hp. tauto.
    + by apply (R5 p).
  - intros p [H|H]%elem_of_app; [by apply R5|]. apply list_elem_of_singleton in H as ->.
    rewrite cancel_ids. tauto.
  - by rewrite Dm.
  - by rewrite Dm.
Qed.

Lemma cancel_insert w x ts : w ∉ ids ts → id x = w → cancel w (insert x ts) = ts.
Proof.
  intros Hw Hx. induction ts as [|y ts IH]; simpl.
  - unfold cancel. by rewrite filter_cons_False by tauto.
  - simpl in Hw. destruct (due y <=? due x); unfold cancel.
    + rewrite filter_cons_True by set_solver. f_equal. apply IH. set_solver.
    + rewrite filter_cons_False by tauto. by apply (cancel_absent w (y :: ts)).
Qed.

Lemma cancel_mine w ts : mine w ts = [] → cancel w ts = ts.
Proof.
  intros H. apply cancel_absent. intros (x & -> & Hx)%list_elem_of_fmap.
  assert (x ∈ mine (id x) ts) as Hin by (unfold mine; by apply list_elem_of_filter).
  rewrite H in Hin. set_solver.
Qed.

(** nothing leaks from the pool.  A watchdog taken from the pool with
    [wd_create], started, and given back with [wd_delete] while it is running
    is again free, at the end of the free list; the other timers keep running
    and the count of free timers is what it was. *)
Theorem wd_pool_roundtrip irq mem g s ts w fl d f args :
  rep s ts (w :: fl) → g_wdnfree s = Z.of_nat (length (w :: fl)) →
  g_wdnfree s ≤ CONFIG_PREALLOC_WDOGS → (CONFIG_WDOG_INTRESERVE <? g_wdnfree s) || irq = true →
  0 ≤ d < 2 ^ 31 - 1 → (length args ≤ 2)%nat →
  ∃ s', (w' <-- wd_create irq mem g ;; wd_start w' d f args ;;; wd_delete w') s = Ok (OK, s') ∧
    rep s' ts (fl ++ [w]) ∧ g_wdnfree s' = g_wdnfree s ∧ calls s' = calls s.
Proof.
  intros Hr Hn Hb Hc Hd Ha. unfold CONFIG_PREALLOC_WDOGS in Hb.
  assert (w ∉ ids ts) as Hwt by (apply (rep_disj _ _ _ Hr); set_solver).
  pose proof (proj1 (rep_free _ _ _ Hr)) as [Hwf _]%NoDup_cons.
  destruct (wp_run _ _ _ (create_spec irq mem g s ts w fl Hr Hn ltac:(lia) Hc))
    as (r & s1 & R1 & -> & Hr1 & Hn1 & D1 & C1 & v1 & Ev1 & Fl1).
  assert (startable s1 fl w d args) as Hst.
  { split_and!; [|done|lia|lia|done]. rewrite (rep_dom _ _ _ Hr1). apply elem_of_dom. eauto. }
  destruct (wp_run _ _ _ (start_spec s1 ts fl w d f args Hr1 Hst)) as (r & s2 & R2 & -> & Hr2 & Hf2).
  pose proof (keeps_start _ _ _ _ _ _ _ R2) as Ho2.
  assert (is_Some (wdogs s2 !! w)) as [v2 Ev2].
  { rewrite <- elem_of_dom, <- (rep_dom _ _ _ Hr2), (proj1 Hf2). apply Hst. }
  destruct (Ho2 _ _ Ev2) as (v0 & E0 & Ov2). rewrite Ev1 in E0. injection E0 as <-.
  unfold origin in Ov2 at 2. rewrite Fl1 in Ov2. destruct Hf2 as (_ & _ & F3 & _ & F5).
  simpl in Hn. destruct (wp_run _ _ _ (delete_spec s2 _ fl w v2 Hr2 Ev2 Hwf Ov2 ltac:(lia)
    ltac:(unfold CONFIG_PREALLOC_WDOGS; lia))) as (r & s3 & R3 & -> & Hr3 & Hn3 & _ & C3).
  exists s3. split_and!; [|..|lia|congruence].
  - unfold bind. rewrite R1. cbn [res_bind]. rewrite R2. cbn [res_bind]. by rewrite R3.
  - replace ts with (cancel w (start w d f args ts)); [done|].
    unfold start. rewrite (cancel_absent w ts) by done. by apply cancel_insert.
Qed.

(** The pool after initialization. *)
Lemma add_all_spec ws s fl :
  rep s [] fl → NoDup ws → (∀ w, w ∈ ws → w ∈ dom (next s) ∧ ¬ (w ∈ fl)) →
  wp (add_all ws) (λ _ s', rep s' [] (fl ++ ws) ∧ calls s' = calls s) s.
Proof.
  revert s fl. induction ws as [|w ws IH]; intros s fl Hr Hd Hw; simpl.
  - by rewrite app_nil_r.
  - apply NoDup_cons in Hd as [Hd1 Hd2]. destruct (Hw w) as [Hwn Hwf]; [set_solver|].
    assert (w ≠ NULL) as Hw0 by (intros ->; by apply (rep_null _ _ _ Hr)).
    unfold free_op. rewrite !wp_bind, wp_gets, wp_bind, wp_on_next.
    eapply wp_mono; [apply Sq.sq_addlast_spec; [apply (rep_free _ _ _ Hr)|done|done|by apply elem_of_dom]|].
    intros q m [Hq [Ho Dm]]. rewrite wp_modify.
    replace (fl ++ w :: ws) with ((fl ++ [w]) ++ ws) by by rewrite <- app_assoc.
    apply (IH (upd_free q (upd_next m s))).
    + destruct Hr as [R1 R2 R3 R4 R5 R6 R7]. split; simpl; try done; try (by rewrite Dm).
      set_solver.
    + done.
    + intros x Hx. destruct (Hw x) as [Hxn Hxf]; [set_solver|]. simpl. rewrite Dm. set_solver.
Qed.

Lemma wd_initialize_spec base :
  0 < base →
  wp (wd_initialize base)
    (λ _ s', rep s' [] (pool base) ∧ g_wdnfree s' = Z.of_nat (length (pool base)) ∧ calls s' = [])
    (quiet (pool base)).
Proof.
  intros Hb. unfold wd_initialize. rewrite wp_bind, wp_modify, wp_bind, wp_modify, wp_bind.
  assert (NULL ∉ pool base) as H0.
  { unfold pool. intros (i & E & Hi%elem_of_seqZ)%list_elem_of_fmap. unfold NULL, sizeof_wdog in E. lia. }
  eapply wp_mono; [apply (add_all_spec (pool base) (quiet (pool base)) [])|].
  - by apply rep_quiet.
  - unfold pool. apply NoDup_fmap; [|apply NoDup_seqZ]. intros i j. unfold sizeof_wdog. lia.
  - intros w Hw. split; [|set_solver]. change (w ∈ dom (next (quiet (pool base)))).
    unfold quiet. cbn [next]. by rewrite dom_nodes, elem_of_list_to_set.
  - intros _ s' [Hr C]. rewrite wp_modify. split_and!; [|done|done].
    simpl in Hr. by destruct Hr.
Qed.

Lemma wd_pool_roundtrip_witness :
  ∃ s0 s', wd_initialize 0x20000100 (quiet (pool 0x20000100)) = Ok (tt, s0) ∧
    (w' <-- wd_create false 0 (mkwdog 0 0 0 0 [0; 0]) ;; wd_start w' 9 100 [1] ;;; wd_delete w') s0
      = Ok (OK, s') ∧ g_wdnfree s' = 16.
Proof.
  destruct (wp_run _ _ _ (wd_initialize_spec 0x20000100 ltac:(lia))) as ([] & s0 & R & Hr & Hn & _).
  destruct (pool 0x20000100) as [|w fl] eqn:Ep; [done|].
  assert (length (w :: fl) = 16%nat) as Hl by by rewrite <- Ep.
  destruct (wd_pool_roundtrip false 0 (mkwdog 0 0 0 0 [0; 0]) s0 [] w fl 9 100 [1])
    as (s' & R' & _ & Hn' & _).
  - exact Hr.
  - exact Hn.
  - rewrite Hn, Hl. done.
  - rewrite Hn, Hl. done.
  - lia.
  - simpl. lia.
  - exists s0, s'. split; [exact R|]. assert (w = 0x20000100) as -> by (vm_compute in Ep; congruence).
    split; [exact R'|]. by rewrite Hn', Hn, Hl.
Defined.

(** in an interrupt handler, when the pool is empty, [wd_create] does not
    return the null pointer: the count of free timers is zero and the assertion
    on it stops the system. *)
Theorem wd_create_exhausted mem g s ts :
  rep s ts [] → g_wdnfree s = 0 → wd_create true mem g s = Undef AssertFail.
Proof.
  intros Hr Hn. unfold wd_create, bind at 1, gets. cbn [res_bind]. rewrite orb_true_r.
  destruct (rep_free _ _ _ Hr) as [_ [Eh _]].
  unfold bind at 1. cbn [res_bind]. unfold bind at 1, on_next, Sq.sq_remfirst.
  rewrite Eh. simpl. unfold bind. simpl. by rewrite Hn.
Qed.

Lemma wd_create_exhausted_witness :
  wd_create true 0 (mkwdog 0 0 0 0 []) (quiet [8]) = Undef AssertFail.
Proof. apply (wd_create_exhausted _ _ _ []); [apply rep_quiet; set_solver|reflexivity]. Defined.

End Wdog.
