(* ===== verification/Sleep.v ===== *)
(** * Sleeping

    Models [usleep] ([libc/unistd/lib_usleep.c]), [nanosleep]
    ([sched/signal/sig_nanosleep.c]), the waiting part of [sigtimedwait]
    ([sched/signal/sig_timedwait.c]), the conversions between times and ticks
    ([sched/clock]) and the system timer, on the watchdogs of Wdog.v.

    The state is that of one sleeping task: the watchdogs, the system timer, and
    the fields of its TCB that the wait uses.  What happens while the task does not
    run is a sequence of events given to the model: timer ticks, watchdog
    operations of others, signals to the task, and the scheduler giving the
    processor to the task, which has an effect only once the task has been
    woken.  A sleep returns the events that are left when the task runs again, or
    [None] when they end before. *)

From S2P Require Import Prelude Queue Wdog.

Module Sleep.
Import Wdog.
#[local] Open Scope cmd_scope.

Definition NSEC_PER_SEC : Z := 1000000000.
Definition USEC_PER_TICK : Z := 10000.
Definition NSEC_PER_TICK : Z := USEC_PER_TICK * 1000.
Definition TICK_PER_SEC : Z := Z.quot 1000000 USEC_PER_TICK.
Definition SIG_WAIT_TIMEOUT : Z := 255.
Definition MAX_SIGNO : Z := 31.
Definition EINTR : Z := 4.
Definition EAGAIN : Z := 11.

(** [struct timespec]. *)
Record timespec : Type := mktime { tv_sec : Z; tv_nsec : Z }.

(** ** Time conversion *)

(** In [int64_t]; the result is converted to [int]. *)
Definition clock_time2ticks (reltime : timespec) : Z :=
  let relnsec := tv_sec reltime * NSEC_PER_SEC + tv_nsec reltime in
  i32 (Z.quot (relnsec + NSEC_PER_TICK - 1) NSEC_PER_TICK).

Definition clock_ticks2time (ticks : Z) : timespec :=
  let sec := u32 (Z.quot ticks TICK_PER_SEC) in
  let remainder := i32 (ticks - TICK_PER_SEC * sec) in
  mktime sec (remainder * NSEC_PER_TICK).

(** The ticks [sigtimedwait] waits for, in [uint64_t]. *)
Definition waitticks64 (t : timespec) : Z :=
  wrap 64 (wrap 64 (tv_sec t * NSEC_PER_SEC) + wrap 64 (tv_nsec t) + NSEC_PER_TICK - 1)
    / NSEC_PER_TICK.

(** ** The sleeping task *)

Record ktask : Type := mkk {
  wd : wdstate; g_system_timer : Z; waiting : bool; si_signo : Z; waitdog : Z
}.

Definition on_wd {A} (m : M wdstate A) : M ktask A := λ s,
  res_bind (m (wd s))
    (λ '(a, v), Ok (a, mkk v (g_system_timer s) (waiting s) (si_signo s) (waitdog s))).

Definition set_waiting (b : bool) (s : ktask) : ktask :=
  mkk (wd s) (g_system_timer s) b (si_signo s) (waitdog s).
Definition set_waitdog (w : Z) (s : ktask) : ktask :=
  mkk (wd s) (g_system_timer s) (waiting s) (si_signo s) w.
Definition set_errno (e : Z) : M ktask unit := on_wd (modify (upd_errno e)).

(** The clock part of the timer interrupt. *)
Definition clock_timer : M ktask unit :=
  modify (λ s, mkk (wd s) (u32 (g_system_timer s + 1)) (waiting s) (si_signo s) (waitdog s)).

Definition clock_systimer : M ktask Z := gets g_system_timer.

Inductive event : Type :=
| Op (o : op)
| Signal (signo : Z)
| Run.

Definition is_run (e : event) : bool := match e with Run => true | _ => false end.

Section Task.
(** The watchdog functions; the address of [sig_timeout], that of the TCB, and
    what [kmm_malloc] would give for a new watchdog. *)
Context (handler : Z → list Z → list hop) (sig_timeout_fn tcb mem : Z) (garbage : wdog_s).

(** [sig_timeout], called with the TCB of a task: wakes it when it still waits.
    Only the effect on the modelled task is kept. *)
Definition sig_timeout (itcb : Z) : M ktask unit :=
  assert_ (negb (itcb =? NULL)) ;;;
  b <-- gets waiting ;;
  when (b && (itcb =? tcb))
    (modify (λ s, mkk (wd s) (g_system_timer s) false SIG_WAIT_TIMEOUT (waitdog s))).

(** The effect of the watchdog functions called during an operation. *)
Fixpoint called (evs : list (Z * Z * list Z)) : M ktask unit :=
  match evs with
  | [] => ret tt
  | (_, f, args) :: evs =>
      when (f =? sig_timeout_fn) (sig_timeout (hd NULL args)) ;;; called evs
  end.

(** The timer interrupt increments the clock, then runs the watchdogs. *)
Definition sched_process_timer : M ktask unit :=
  clock_timer ;;; on_wd (run_op handler Tick) ;;; ret tt.

Definition deliver (e : event) : M ktask unit :=
  match e with
  | Op o =>
      n <-- gets (λ s, length (calls (wd s))) ;;
      (if is_tick o then sched_process_timer else on_wd (run_op handler o) ;;; ret tt) ;;;
      evs <-- gets (λ s, drop n (calls (wd s))) ;;
      called evs
  | Signal n =>
      b <-- gets waiting ;;
      when b (modify (λ s, mkk (wd s) (g_system_timer s) false n (waitdog s)))
  | Run => ret tt
  end.

Fixpoint deliver_all (evs : list event) : M ktask unit :=
  match evs with
  | [] => ret tt
  | e :: evs => deliver e ;;; deliver_all evs
  end.

(** [up_block_task]: the events that happen until the task runs again, which is
    when it has been woken and the scheduler gets to it. *)
Fixpoint block (evs : list event) : M ktask (option (list event)) :=
  match evs with
  | [] => ret None
  | e :: evs =>
      b <-- gets waiting ;;
      if negb b && is_run e then ret (Some evs) else deliver e ;;; block evs
  end.

(** The wait of [sigtimedwait] for no signal in particular, with a timeout. *)
Definition sigtimedwait (timeout : timespec) (evs : list event) : M ktask (option (Z * list event)) :=
  w <-- gets waitdog ;;
  assert_ (w =? NULL) ;;;
  let waitticks64 := waitticks64 timeout in
  assert_ (waitticks64 <=? 2 ^ 32 - 1) ;;;
  let waitticks := i32 waitticks64 in
  w <-- on_wd (wd_create false mem garbage) ;;
  modify (set_waitdog w) ;;;
  assert_ (negb (w =? NULL)) ;;;
  on_wd (wd_start w waitticks sig_timeout_fn [tcb]) ;;;
  modify (set_waiting true) ;;;
  r <-- block evs ;;
  match r with
  | None => ret None
  | Some evs =>
      on_wd (wd_delete w) ;;;
      modify (set_waitdog NULL) ;;;
      signo <-- gets si_signo ;;
      if u32 signo <=? MAX_SIGNO then set_errno EINTR ;;; ret (Some (ERROR, evs))
      else
        assert_ (signo =? SIG_WAIT_TIMEOUT) ;;;
        set_errno EAGAIN ;;;
        ret (Some (ERROR, evs))
  end.

(** [nanosleep]; the result is the return value, what is stored through
    [rmtp] when that pointer is given, and the events left. *)
Definition nanosleep (rqtp : timespec) (rmtp : bool) (evs : list event)
    : M ktask (option (Z * option timespec * list event)) :=
  if (tv_nsec rqtp <? 0) || (1000000000 <=? tv_nsec rqtp) then
    set_errno EINVAL ;;; ret (Some (ERROR, None, evs))
  else
    starttick <-- clock_systimer ;;
    r <-- sigtimedwait rqtp evs ;;
    match r with
    | None => ret None
    | Some (r, evs) =>
        errval <-- gets (λ s, errno (wd s)) ;;
        assert_ ((r <? 0) && ((errval =? EAGAIN) || (errval =? EINTR))) ;;;
        if errval =? EAGAIN then ret (Some (OK, None, evs))
        else
          now <-- clock_systimer ;;
          let ticks := clock_time2ticks rqtp in
          let elapsed := u32 (now - starttick) in
          let remaining := if u32 ticks <=? elapsed then 0 else u32 (u32 ticks - elapsed) in
          let rem := if rmtp then Some (clock_ticks2time (i32 remaining)) else None in
          set_errno errval ;;;
          ret (Some (ERROR, rem, evs))
    end.

Definition usleep (usec : Z) (evs : list event) : M ktask (option (Z * list event)) :=
  if usec =? 0 then ret (Some (0, evs))
  else
    let sec := Z.quot usec 1000000 in
    let nsec := u32 (u32 (usec - u32 (sec * 1000000)) * 1000) in
    r <-- nanosleep (mktime sec (i32 nsec)) false evs ;;
    ret (match r with Some (r, _, evs) => Some (r, evs) | None => None end).

End Task.

(** ** Lemmas *)

Lemma wp_on_wd {A} (m : M wdstate A) Q s :
  wp (on_wd m) Q s =
    wp m (λ a v, Q a (mkk v (g_system_timer s) (waiting s) (si_signo s) (waitdog s))) (wd s).
Proof. unfold wp, on_wd. by destruct (m (wd s)) as [[a v]|]. Qed.

Section Proofs.
Context (handler : Z → list Z → list hop) (sig_timeout_fn tcb mem : Z) (garbage : wdog_s).
Context (w : Z).

(** A watchdog function that does not concern the task. *)
Definition foreign (f : Z) (args : list Z) : Prop :=
  f = sig_timeout_fn → hd NULL args ≠ NULL ∧ hd NULL args ≠ tcb.

Definition hop_foreign (o : hop) : Prop :=
  match o with HStart _ _ f args => foreign f args | HCancel _ => True end.
Definition op_foreign (o : op) : Prop :=
  match o with Start _ _ f args => foreign f args | _ => True end.

Definition foreign_timers (ts : list timer) : Prop :=
  Forall (λ x, id x = w ∨ foreign (fn x) (fargs x)) ts.
Definition foreign_calls (evs : list (Z * Z * list Z)) : Prop :=
  Forall (λ e, e.1.1 = w ∨ foreign e.1.2 e.2) evs.

Hypothesis handler_foreign : ∀ f args, Forall hop_foreign (handler f args).

Lemma foreign_cancel p ts : foreign_timers ts → foreign_timers (cancel p ts).
Proof.
  unfold foreign_timers. rewrite !Forall_forall. intros H x [_ Hx]%list_elem_of_filter. by apply H.
Qed.

Lemma foreign_insert x ts :
  id x = w ∨ foreign (fn x) (fargs x) → foreign_timers ts → foreign_timers (insert x ts).
Proof.
  intros Hx. induction ts as [|y ts IH]; intros H; simpl; [by apply Forall_singleton|].
  apply Forall_cons in H as [Hy H]. destruct (due y <=? due x); repeat apply Forall_cons_2; auto.
  by apply IH.
Qed.

Lemma foreign_hops os ts :
  Forall hop_foreign os → foreign_timers ts → foreign_timers (spec_hops os ts).
Proof.
  revert ts. induction os as [|o os IH]; intros ts Hos Hts; [done|].
  apply Forall_cons in Hos as [Ho Hos]. apply IH; [done|].
  destruct o as [p d f args|p]; simpl; [apply foreign_insert; [by right|]|]; by apply foreign_cancel.
Qed.

Lemma foreign_fire fuel ts :
  foreign_timers ts →
  foreign_calls (fst (fire handler fuel ts)) ∧ foreign_timers (snd (fire handler fuel ts)).
Proof.
  revert ts. induction fuel as [|fuel IH]; intros ts Hts; [by split; [apply Forall_nil_2|]|].
  destruct ts as [|x ts]; [by split; apply Forall_nil_2|]. simpl.
  destruct (due x <=? 0); [|by split; [apply Forall_nil_2|]].
  apply Forall_cons in Hts as [Hx Hts].
  specialize (IH _ (foreign_hops _ _ (handler_foreign (fn x) (fargs x)) Hts)).
  destruct (fire handler fuel _) as [evs ts']. destruct IH as [H1 H2]. split; [|done].
  by apply Forall_cons_2.
Qed.

Lemma foreign_elapse ts : foreign_timers ts → foreign_timers (elapse ts).
Proof. intros H. apply Forall_fmap. eapply Forall_impl; [exact H|]. done. Qed.

Lemma foreign_op o ts r evs ts' :
  op_foreign o → foreign_timers ts → spec_op handler o ts = (r, evs, ts') →
  foreign_calls evs ∧ foreign_timers ts'.
Proof.
  intros Ho Hts E. destruct o as [p d f args|p|p|]; simpl in *; simplify_eq.
  - split; [apply Forall_nil_2|]. apply foreign_insert; [by right|by apply foreign_cancel].
  - split; [apply Forall_nil_2|by apply foreign_cancel].
  - by split; [apply Forall_nil_2|].
  - unfold tick in E. pose proof (foreign_fire (length ts) _ (foreign_elapse _ Hts)) as H.
    destruct (fire handler _ _) as [evs0 ts0]. by simplify_eq.
Qed.

(** The calls of an operation wake the task exactly when its own watchdog is
    among them. *)
Lemma called_spec evs s :
  foreign_calls evs → tcb ≠ NULL →
  calls_of w evs = [] ∨ calls_of w evs = [(w, sig_timeout_fn, [tcb])] →
  wp (called sig_timeout_fn tcb evs)
    (λ _ s', wd s' = wd s ∧ g_system_timer s' = g_system_timer s ∧ waitdog s' = waitdog s ∧
       if (waiting s && negb (bool_decide (calls_of w evs = []))) then
         waiting s' = false ∧ si_signo s' = SIG_WAIT_TIMEOUT
       else waiting s' = waiting s ∧ si_signo s' = si_signo s) s.
Proof.
  revert s. induction evs as [|[[p f] args] evs IH]; intros s Hf Ht Hc; simpl.
  { rewrite wp_ret, andb_false_r. done. }
  apply Forall_cons in Hf as [Hp Hf]. simpl in Hp. unfold calls_of in *. rewrite filter_cons in *.
  simpl in *. rewrite wp_bind. case_decide as Hw.
  - destruct Hc as [[=]|[= -> -> -> Hnil]]. rewrite bool_decide_false, andb_true_r by done.
    rewrite Z.eqb_refl. simpl. unfold sig_timeout. rewrite wp_bind, wp_assert.
    2: { simpl. by rewrite (proj2 (Z.eqb_neq tcb NULL)). }
    rewrite wp_bind, wp_gets. simpl. rewrite Z.eqb_refl, andb_true_r.
    destruct (waiting s) eqn:Ew; simpl.
    + rewrite wp_modify. eapply wp_mono; [apply (IH _ Hf Ht); by left|]. simpl. naive_solver.
    + rewrite wp_ret. eapply wp_mono; [apply (IH _ Hf Ht); by left|]. simpl. rewrite Ew. simpl. naive_solver.
  - destruct Hp as [->|Hp]; [done|].
    assert (wp (when (f =? sig_timeout_fn) (sig_timeout tcb (hd NULL args))) (λ _ s', s' = s) s) as H1.
    { destruct (Z.eqb_spec f sig_timeout_fn) as [E|_]; [|done]. simpl.
      destruct (Hp E) as [N1 N2]. unfold sig_timeout.
      rewrite wp_bind, wp_assert by by rewrite (proj2 (Z.eqb_neq _ NULL)).
      rewrite wp_bind, wp_gets, (proj2 (Z.eqb_neq _ tcb)), andb_false_r by done. done. }
    eapply wp_mono; [exact H1|]. intros _ s' ->. by apply IH.
Qed.

Context (nodes : gset Z) (fl : list Z).
Hypothesis handler_ok : ∀ f args, Forall (hop_ok nodes fl) (handler f args).
Hypothesis handler_other : ∀ f args, Forall (hop_other w) (handler f args).
Hypothesis tcb_nonnull : tcb ≠ NULL.

(** The watchdog [w] will end the wait in [k] ticks, or is not active. *)
Record timed (s : ktask) (ts : list timer) (k : Z) : Prop := mktimed {
  sl_rep : rep (wd s) ts fl;
  sl_dom : dom (next (wd s)) = nodes;
  sl_live : live ts;
  sl_foreign : foreign_timers ts;
  sl_timer : if 0 <? k then timing w k sig_timeout_fn [tcb] ts else mine w ts = []
}.

(** What passing events leave alone. *)
Definition stable (n : Z) (s s' : ktask) : Prop :=
  waitdog s' = waitdog s ∧ g_wdnfree (wd s') = g_wdnfree (wd s) ∧
  origin <$> wdogs (wd s') !! w = origin <$> wdogs (wd s) !! w ∧
  g_system_timer s' = u32 (g_system_timer s + n).

(** What may happen: others use their own watchdogs, and signals have a number. *)
Definition admissible (e : event) : Prop :=
  match e with
  | Op o => op_ok nodes fl o ∧ op_other w o ∧ op_foreign o
  | Signal n => 1 ≤ n ≤ MAX_SIGNO
  | Run => True
  end.

Definition tick_of (e : event) : Z := match e with Op Tick => 1 | _ => 0 end.
Definition ticks_in (evs : list event) : Z := foldr (λ e n, tick_of e + n) 0 evs.

(** The event wakes a task that has [k] ticks to sleep, and how. *)
Definition wakes (k : Z) (e : event) : option Z :=
  match e with
  | Signal n => Some n
  | Op Tick => if k =? 1 then Some SIG_WAIT_TIMEOUT else None
  | _ => None
  end.

(** The state of the task after the event. *)
Definition woken (k : Z) (e : event) (s s' : ktask) : Prop :=
  match (if waiting s then wakes k e else None) with
  | Some n => waiting s' = false ∧ si_signo s' = n
  | None => waiting s' = waiting s ∧ si_signo s' = si_signo s
  end.

Lemma op_timer o r evs ts ts' k : 0 ≤ k → op_other w o → spec_op handler o ts = (r, evs, ts') → live ts' →
  (if 0 <? k then timing w k sig_timeout_fn [tcb] ts else mine w ts = []) →
  (let k' := Z.max 0 (k - tick_of (Op o)) in
   if 0 <? k' then timing w k' sig_timeout_fn [tcb] ts' else mine w ts' = []) ∧
  calls_of w evs = if is_tick o && (k =? 1) then [(w, sig_timeout_fn, [tcb])] else [].
Proof.
  intros Hk Hoo E Hl Ht. cbv zeta. destruct (is_tick o) eqn:Et.
  - destruct o; try done. simpl in E. destruct (tick handler ts) as [evs0 ts0] eqn:Etick. simplify_eq. simpl.
    destruct (Z.ltb_spec 0 k) as [Hk0|Hk0].
    + pose proof (tick_mine handler w handler_other _ _ _ _ _ _ Etick Hl Ht) as H. rewrite Z.max_r by lia.
      destruct (Z.ltb_spec 1 k), (Z.ltb_spec 0 (k - 1)), (Z.eqb_spec k 1); try lia; done.
    + destruct (tick_none handler w handler_other _ _ _ Etick Ht) as [-> ->].
      rewrite Z.max_l, (proj2 (Z.eqb_neq k 1)) by lia. done.
  - destruct (other_op handler w o _ _ _ _ Hoo Et E) as [Em ->]. unfold timing in *.
    destruct o; simpl; rewrite ?Z.sub_0_r, ?Z.max_r, ?Em by done; done.
Qed.

Lemma deliver_spec s ts k e :
  timed s ts k → 0 ≤ k → (waiting s = true → 0 < k) → admissible e → 0 ≤ g_system_timer s < 2 ^ 32 →
  wp (deliver handler sig_timeout_fn tcb e)
    (λ _ s', (∃ ts', timed s' ts' (Z.max 0 (k - tick_of e))) ∧ woken k e s s' ∧ stable (tick_of e) s s') s.
Proof.
  intros [Hr Hn Hl Hf Ht] Hk Hw He Hg.
  assert (∀ b n, timed (mkk (wd s) (g_system_timer s) b n (waitdog s)) ts (Z.max 0 (k - 0))) as Hsame
    by (intros b n; rewrite Z.sub_0_r, Z.max_r by done; by split).
  assert (stable 0 s s) as H0 by (by unfold stable; rewrite Z.add_0_r, u32_small).
  destruct e as [o|n|].
  2: { unfold deliver. rewrite wp_bind, wp_gets. unfold woken. simpl. destruct (waiting s) eqn:Ew; simpl.
       - rewrite wp_modify. split_and!; [eexists; apply Hsame|done|done|apply H0].
       - rewrite wp_ret. split_and!; [|done|done|apply H0]. exists ts. destruct s. simpl in *. subst. apply Hsame. }
  2: { unfold deliver. rewrite wp_ret. split_and!; [|unfold woken; simpl; by destruct (waiting s)|apply H0].
       exists ts. destruct s. apply Hsame. }
  destruct He as (Ho & Hoo & Hof).
  destruct (wp_run _ _ _ (wd_run_op_spec handler nodes fl handler_ok o (wd s) ts Hr Hn Hl Ho))
    as (r & s1 & R & evs & ts1 & E & Hr1 & Hl1 & [C1 F1]).
  destruct (foreign_op _ _ _ _ _ Hof Hf E) as [Hfe Hft].
  destruct (op_timer o r evs ts ts1 k Hk Hoo E Hl1 Ht) as [Htime Hcalls].
  assert (origin <$> wdogs s1 !! w = origin <$> wdogs (wd s) !! w) as Hor.
  { pose proof (keeps_run_op handler o _ _ _ R) as Hor.
    assert (dom (wdogs s1) = dom (wdogs (wd s))) as Hd.
    { rewrite <- (rep_dom _ _ _ Hr1), <- (rep_dom _ _ _ Hr). apply F1. }
    destruct (wdogs s1 !! w) as [v1|] eqn:E1.
    - destruct (Hor _ _ E1) as (v0 & -> & Hv). simpl. by rewrite Hv.
    - apply not_elem_of_dom in E1. rewrite Hd in E1. by apply not_elem_of_dom in E1 as ->. }
  set (s2 := mkk s1 (if is_tick o then u32 (g_system_timer s + 1) else g_system_timer s)
    (waiting s) (si_signo s) (waitdog s)).
  assert (∀ Q, Q tt s2 → wp (if is_tick o then sched_process_timer handler
    else on_wd (run_op handler o) ;;; ret tt) Q s) as Hrun.
  { intros Q HQ. unfold sched_process_timer, clock_timer. destruct (is_tick o) eqn:Et.
    - destruct o; try done. rewrite wp_bind, wp_modify, wp_bind, wp_on_wd. by eapply wp_ok.
    - rewrite wp_bind, wp_on_wd. by eapply wp_ok. }
  unfold deliver. rewrite wp_bind, wp_gets, wp_bind. apply Hrun. rewrite wp_bind, wp_gets.
  assert (drop (length (calls (wd s))) (calls (wd s2)) = evs) as ->
    by (unfold s2; simpl; by rewrite C1, drop_app_length).
  eapply wp_mono; [apply (called_spec evs s2); [done|done|]|].
  { rewrite Hcalls. destruct (_ && _); auto. }
  intros _ s' (Ew & Eg & Ed & Hst). unfold s2 in Ew, Eg, Ed, Hst. cbn [wd g_system_timer waitdog waiting si_signo] in *.
  split_and!.
  - exists ts1. split; rewrite ?Ew; try done. by rewrite <- Hn, <- (proj1 F1).
  - rewrite Hcalls in Hst. unfold woken. destruct (waiting s); [|done]. destruct o; try done.
    simpl in *. by destruct (k =? 1).
  - unfold stable. rewrite Ew, Eg, Ed. destruct F1 as (_ & _ & F3 & _). split_and!; [done|done|done|].
    destruct o; simpl; rewrite ?Z.add_0_r, ?u32_small by done; done.
Qed.

Lemma stable_trans a b s s1 s2 : stable a s s1 → stable b s1 s2 → stable (a + b) s s2.
Proof.
  intros (A1 & A2 & A4 & A3) (B1 & B2 & B4 & B3). unfold stable. rewrite B1, B2, B3, B4, A1, A2, A3, A4.
  split_and!; [done..|]. unfold u32, wrap. rewrite Zplus_mod_idemp_l. f_equal. lia.
Qed.

Lemma stable_refl s : 0 ≤ g_system_timer s < 2 ^ 32 → stable 0 s s.
Proof. intros. unfold stable. by rewrite Z.add_0_r, u32_small. Qed.

Lemma stable_clock n s s' : stable n s s' → 0 ≤ g_system_timer s' < 2 ^ 32.
Proof. intros (_ & _ & _ & ->). apply u32_bound. Qed.

(** ** The events of a nap

    [asleep]: the events up to the one that wakes the task; [until_run]: those
    up to the moment the task runs. *)

Fixpoint asleep (k : Z) (evs : list event) : option (list event * list event) :=
  match evs with
  | [] => None
  | e :: evs =>
      match wakes k e with
      | Some _ => Some ([e], evs)
      | None => '(a, post) ← asleep (k - tick_of e) evs; Some (e :: a, post)
      end
  end.

Fixpoint until_run (evs : list event) : option (list event * list event) :=
  match evs with
  | [] => None
  | e :: evs =>
      if is_run e then Some ([], evs) else '(d, post) ← until_run evs; Some (e :: d, post)
  end.

(** The events asleep, those awake but not running, and the rest. *)
Definition nap (k : Z) (evs : list event) : option (list event * list event * list event) :=
  '(a, rest) ← asleep k evs;
  '(d, post) ← until_run rest;
  Some (a, d, post).

(** What ended the nap: the timeout or a signal. *)
Definition timed_out (a : list event) : bool := match last a with Some (Signal _) => false | _ => true end.
Definition wake_signo (a : list event) : Z := match last a with Some (Signal n) => n | _ => SIG_WAIT_TIMEOUT end.

Definition signals (evs : list event) : Prop := ∃ n, Signal n ∈ evs.

(** A nap of [k] ticks: they pass in full, or a signal comes before. *)
Definition nap_of (k : Z) (a : list event) : Prop :=
  (¬ signals a ∧ ticks_in a = k ∧ timed_out a = true) ∨
  ∃ a' n, a = a' ++ [Signal n] ∧ ¬ signals a' ∧ 0 ≤ ticks_in a' < k.

Lemma asleep_spec k evs a post : 0 < k → asleep k evs = Some (a, post) → evs = a ++ post ∧ nap_of k a.
Proof.
  revert k a. induction evs as [|e evs IH]; intros k a Hk E; [done|]. simpl in E.
  destruct (wakes k e) as [n|] eqn:Ew.
  - injection E as <- <-. split; [done|]. destruct e as [[]|m|]; try done; simpl in Ew.
    + destruct (Z.eqb_spec k 1) as [->|]; [|done]. left. split_and!; [|done|done].
      intros [m Hm]. by apply list_elem_of_singleton in Hm.
    + right. exists [], m. split_and!; [done| |done|simpl; lia]. intros [? Hm]. by apply not_elem_of_nil in Hm.
  - apply bind_Some in E as ([a' post'] & E & [= <- <-]).
    assert (0 < k - tick_of e ∧ 0 ≤ tick_of e) as [Hk' Ht].
    { destruct e as [[]|m|]; simpl in *; try lia. destruct (Z.eqb_spec k 1); [done|lia]. }
    destruct (IH _ _ Hk' E) as [-> H]. split; [done|].
    assert (∀ l, ¬ signals l → ¬ signals (e :: l)) as Hs.
    { intros l Hl [m [Hm|Hm]%elem_of_cons]; [|apply Hl; by exists m]. by subst e. }
    destruct H as [(H1 & H2 & H3)|(b & m & -> & H1 & H2)].
    + left. split_and!; [by apply Hs|simpl; lia|]. unfold timed_out in *. rewrite last_cons.
      destruct (last a') as [|]; [done|]. by destruct e as [[]|m|].
    + right. exists (e :: b), m. split_and!; [done|by apply Hs|simpl; lia|simpl; lia].
Qed.

Lemma until_run_spec evs d post : until_run evs = Some (d, post) → evs = d ++ Run :: post ∧ ¬ (Run ∈ d).
Proof.
  revert d. induction evs as [|e evs IH]; intros d E; [done|]. simpl in E. destruct (is_run e) eqn:Er.
  - injection E as <- <-. destruct e; try done. split; [done|]. apply not_elem_of_nil.
  - apply bind_Some in E as ([d' post'] & E & [= <- <-]). destruct (IH _ E) as [-> H]. split; [done|].
    intros [Hr|Hr]%elem_of_cons; [by subst e|done].
Qed.

Lemma nap_spec k evs a d post : 0 < k → nap k evs = Some (a, d, post) →
  evs = (a ++ d ++ [Run]) ++ post ∧ nap_of k a ∧ ¬ (Run ∈ d).
Proof.
  intros Hk E. unfold nap in E. apply bind_Some in E as ([a' rest] & E1 & E). apply bind_Some in E as ([d' post'] & E2 & E).
  injection E as <- <- <-. destruct (asleep_spec _ _ _ _ Hk E1) as [-> H1]. destruct (until_run_spec _ _ _ E2) as [-> H2].
  split; [|done]. by rewrite <- !app_assoc.
Qed.

(** The task was woken: it goes on when it gets the processor. *)
Lemma block_awake evs s ts k :
  timed s ts k → 0 ≤ k → waiting s = false → Forall admissible evs → 0 ≤ g_system_timer s < 2 ^ 32 →
  wp (block handler sig_timeout_fn tcb evs)
    (λ r s', r = snd <$> until_run evs ∧ ∀ d post, until_run evs = Some (d, post) →
       ∃ ts' k', timed s' ts' k' ∧ 0 ≤ k' ∧ si_signo s' = si_signo s ∧ waiting s' = false ∧ stable (ticks_in d) s s') s.
Proof.
  revert s ts k. induction evs as [|e evs IH]; intros s ts k Hs Hk Hw He Hg; [done|].
  apply Forall_cons in He as [He Hes]. cbn [block until_run]. rewrite wp_bind, wp_gets, Hw.
  destruct (is_run e) eqn:Er; simpl.
  - rewrite wp_ret. split; [done|]. intros d post [= <- <-]. exists ts, k. split_and!; try done; by apply stable_refl.
  - rewrite wp_bind. eapply wp_mono; [apply (deliver_spec s ts k e Hs Hk); [by rewrite Hw|done|done]|].
    intros _ s1 ((ts1 & Hs1) & Hwk & Hst). unfold woken in Hwk. rewrite Hw in Hwk. destruct Hwk as [Hw1 Hsig].
    eapply wp_mono; [apply (IH s1 ts1 _ Hs1); [lia|done|done|by eapply stable_clock]|].
    intros r s' [-> H]. split; [by destruct (until_run evs) as [[]|]|].
    intros d post E. apply bind_Some in E as ([d' post'] & E & [= <- <-]).
    destruct (H _ _ E) as (ts' & k' & Hs' & Hk' & Hsig' & Hw' & Hst'). exists ts', k'. split_and!; [done|done|congruence|done|].
    by eapply stable_trans.
Qed.

Lemma block_spec evs s ts k :
  timed s ts k → 0 < k → waiting s = true → Forall admissible evs → 0 ≤ g_system_timer s < 2 ^ 32 →
  wp (block handler sig_timeout_fn tcb evs)
    (λ r s', r = snd <$> nap k evs ∧ ∀ a d post, nap k evs = Some (a, d, post) →
       ∃ ts' k', timed s' ts' k' ∧ 0 ≤ k' ∧ si_signo s' = wake_signo a ∧ waiting s' = false ∧
         stable (ticks_in a + ticks_in d) s s') s.
Proof.
  revert s ts k. induction evs as [|e evs IH]; intros s ts k Hs Hk Hw He Hg; [done|].
  apply Forall_cons in He as [He Hes]. cbn [block]. rewrite wp_bind, wp_gets, Hw. simpl. rewrite wp_bind.
  eapply wp_mono; [apply (deliver_spec s ts k e Hs); [lia|done|done|done]|].
  intros _ s1 ((ts1 & Hs1) & Hwk & Hst). unfold woken in Hwk. rewrite Hw in Hwk.
  pose proof (stable_clock _ _ _ Hst) as Hg1. unfold nap. cbn [asleep]. destruct (wakes k e) as [n|] eqn:Ew.
  - destruct Hwk as [Hw1 Hsig]. simpl. eapply wp_mono; [apply (block_awake evs s1 ts1 _ Hs1); [lia|done|done|done]|].
    intros r s' [-> H]. split; [by destruct (until_run evs) as [[]|]|].
    intros a d post E. apply bind_Some in E as ([d' post'] & E & [= <- <- <-]).
    destruct (H _ _ E) as (ts' & k' & Hs' & Hk' & Hsig' & Hw' & Hst'). exists ts', k'.
    replace (ticks_in [e]) with (tick_of e) by (simpl; lia). split_and!; [done|done| |done|by eapply stable_trans].
    rewrite Hsig', Hsig. unfold wake_signo. destruct e as [[]|m|]; simpl in *; simplify_eq; try done.
    destruct (k =? 1); congruence.
  - destruct Hwk as [Hw1 Hsig].
    assert (0 < k - tick_of e) as Hk1.
    { destruct e as [[]|m|]; simpl in *; try lia. destruct (Z.eqb_spec k 1); [done|lia]. }
    rewrite Z.max_r in Hs1 by lia.
    eapply wp_mono; [apply (IH s1 ts1 _ Hs1); [lia|congruence|done|done]|].
    intros r s' [-> H]. unfold nap in *. destruct (asleep (k - tick_of e) evs) as [[a rest]|]; [|done]. simpl in *.
    destruct (until_run rest) as [[d post]|]; [|done]. simpl in *. split; [done|].
    intros a' d' post' [= <- <- <-]. destruct (H _ _ _ eq_refl) as (ts' & k' & Hs' & Hk' & Hsig' & Hw' & Hst').
    exists ts', k'. simpl. rewrite <- Z.add_assoc. split_and!; [done|done| |done|by eapply stable_trans].
    rewrite Hsig'. unfold wake_signo. rewrite last_cons. destruct (last a) eqn:El; [done|].
    destruct e as [[]|m|]; simpl in *; done.
Qed.

(** The wait of [sigtimedwait] is a nap of one tick more than the ticks it asked
    for; the watchdog is back in the pool. *)
Lemma sigtimedwait_spec t evs s ts :
  rep (wd s) ts (w :: fl) → dom (next (wd s)) = nodes → live ts → foreign_timers ts →
  g_wdnfree (wd s) = Z.of_nat (length (w :: fl)) →
  CONFIG_WDOG_INTRESERVE < g_wdnfree (wd s) ≤ CONFIG_PREALLOC_WDOGS →
  waitdog s = NULL → 0 ≤ g_system_timer s < 2 ^ 32 →
  0 ≤ waitticks64 t < 2 ^ 31 - 1 → Forall admissible evs →
  wp (sigtimedwait handler sig_timeout_fn tcb mem garbage t evs)
    (λ r s', r = (λ x, (ERROR, x.2)) <$> nap (waitticks64 t + 1) evs ∧
       ∀ a d post, nap (waitticks64 t + 1) evs = Some (a, d, post) → ∃ ts',
         errno (wd s') = (if timed_out a then EAGAIN else EINTR) ∧
         rep (wd s') (cancel w ts') (fl ++ [w]) ∧ dom (next (wd s')) = nodes ∧ live ts' ∧ foreign_timers ts' ∧
         g_wdnfree (wd s') = g_wdnfree (wd s) ∧ waitdog s' = NULL ∧ waiting s' = false ∧
         g_system_timer s' = u32 (g_system_timer s + (ticks_in a + ticks_in d))) s.
Proof.
  intros Hr Hn Hl Hf Hnf Hb Hwd Hg Ht Hadm. unfold CONFIG_WDOG_INTRESERVE, CONFIG_PREALLOC_WDOGS in Hb.
  pose proof (proj1 (rep_free _ _ _ Hr)) as [Hwf _]%NoDup_cons.
  assert (w ∉ ids ts) as Hwt by (apply (rep_disj _ _ _ Hr); set_solver).
  unfold sigtimedwait. rewrite wp_bind, wp_gets, wp_bind, wp_assert by by rewrite Hwd.
  rewrite wp_bind, wp_assert by lia. rewrite wp_bind, wp_on_wd.
  eapply wp_mono; [apply (create_spec false mem garbage _ ts w fl Hr Hnf); [lia|]|].
  { rewrite (proj2 (Z.ltb_lt _ _)); [done|]. unfold CONFIG_WDOG_INTRESERVE. lia. }
  intros r s1 (-> & Hr1 & Hn1 & D1 & C1 & v1 & Ev1 & Fl1).
  rewrite wp_bind, wp_modify, wp_bind.
  assert (w ∈ dom (next s1)) as Hw1 by (rewrite (rep_dom _ _ _ Hr1); apply elem_of_dom; eauto).
  assert (w ≠ NULL) as Hw0 by (intros E; rewrite E in Hw1; by apply (rep_null _ _ _ Hr1)).
  rewrite wp_assert by by rewrite (proj2 (Z.eqb_neq w NULL)).
  rewrite wp_bind, wp_on_wd. simpl. rewrite i32_small by lia.
  assert (startable s1 fl w (waitticks64 t) [tcb]) as Hst by (split_and!; [done|done|lia|lia|simpl; lia]).
  destruct (wp_run _ _ _ (start_spec s1 ts fl w _ sig_timeout_fn [tcb] Hr1 Hst)) as (r & s2 & R2 & -> & Hr2 & Hf2).
  pose proof (keeps_start _ _ _ _ _ _ _ R2) as Ho2. eapply wp_ok; [exact R2|].
  rewrite wp_bind, wp_modify, wp_bind. set (K := waitticks64 t + 1) in *.
  assert (0 < K) as HK by (unfold K; lia).
  assert (origin <$> wdogs s2 !! w = Some 0) as Horg.
  { assert (is_Some (wdogs s2 !! w)) as [v2 Ev2]
      by (rewrite <- elem_of_dom, <- (rep_dom _ _ _ Hr2), (proj1 Hf2); done).
    destruct (Ho2 _ _ Ev2) as (v0 & E0 & Hv). rewrite Ev1 in E0. injection E0 as <-. rewrite Ev2. simpl. rewrite Hv.
    unfold origin. by rewrite Fl1. }
  eapply wp_mono; [apply (block_spec evs _ (start w (waitticks64 t) sig_timeout_fn [tcb] ts) K); [|lia|done|done|done]|].
  { split; simpl; [done|by rewrite (proj1 Hf2), D1| | |].
    - apply live_insert; [simpl; lia|by apply live_cancel].
    - apply foreign_insert; [by left|by apply foreign_cancel].
    - rewrite (proj2 (Z.ltb_lt 0 _)) by done. apply timing_start. }
  intros r s3 [-> H]. destruct (nap K evs) as [[[a d] post]|] eqn:En; [|done]. cbn [fmap option_fmap option_map snd].
  destruct (H _ _ _ eq_refl) as (ts3 & k3 & [Hr3 Hn3 Hl3 Hf3 _] & _ & Hsig & Hw3 & (T1 & T2 & T4 & T3)).
  simpl in T1, T2, T3, T4. rewrite Horg in T4. apply fmap_Some in T4 as (v3 & Ev3 & Ov3). symmetry in Ov3.
  destruct Hf2 as (_ & _ & F3 & _ & _). simpl in Hnf.
  rewrite wp_bind, wp_on_wd.
  destruct (wp_run _ _ _ (delete_spec (wd s3) ts3 fl w v3 Hr3 Ev3 Hwf Ov3 ltac:(lia)
    ltac:(unfold CONFIG_PREALLOC_WDOGS; lia))) as (r & s4 & R4 & -> & Hr4 & Hn4 & D4 & _).
  eapply wp_ok; [exact R4|]. rewrite wp_bind, wp_modify, wp_bind, wp_gets. simpl. rewrite Hsig.
  assert (∀ e, rep (upd_errno e s4) (cancel w ts3) (fl ++ [w])) as Hr5 by (intros e; destruct Hr4; by split).
  destruct (nap_spec _ _ _ _ _ HK En) as (Eevs & _).
  unfold timed_out, wake_signo. destruct (last a) as [[o|n|]|] eqn:El.
  2: { assert (admissible (Signal n)) as Hn'.
       { eapply Forall_forall; [exact Hadm|]. apply last_Some in El as [a' ->]. rewrite Eevs. set_solver. }
       simpl in Hn'. unfold MAX_SIGNO in *. rewrite u32_small, (proj2 (Z.leb_le _ _)) by lia.
       rewrite wp_bind. unfold set_errno. rewrite wp_on_wd, wp_modify, wp_ret. split; [done|].
       intros ? ? ? [= <- <- <-]. exists ts3. rewrite El. simpl. split_and!; try done; [by rewrite D4|lia]. }
  all: change (u32 SIG_WAIT_TIMEOUT <=? MAX_SIGNO) with false; cbv iota;
    rewrite wp_bind, wp_assert by done; rewrite wp_bind; unfold set_errno; rewrite wp_on_wd, wp_modify, wp_ret;
    (split; [done|]); intros ? ? ? [= <- <- <-]; exists ts3; rewrite El; simpl; (split_and!; try done; [by rewrite D4|lia]).
Qed.

End Proofs.

(** ** The duration of a sleep *)

Section Duration.
Context (handler : Z → list Z → list hop) (sig_timeout_fn tcb mem : Z) (garbage : wdog_s).
Context (nodes : gset Z).

(** A call that stays away from the free watchdogs [pool] and from the task. *)
Definition polite_start (pool : list Z) (w d f : Z) (args : list Z) : Prop :=
  hop_ok nodes pool (HStart w d f args) ∧ foreign sig_timeout_fn tcb f args.
Definition polite_hop (pool : list Z) (o : hop) : Prop :=
  match o with
  | HStart w d f args => polite_start pool w d f args
  | HCancel w => w ∈ nodes ∧ ¬ (w ∈ pool)
  end.
Definition polite_event (pool : list Z) (e : event) : Prop :=
  match e with
  | Op (Start w d f args) => polite_start pool w d f args
  | Op (Cancel w) => w ∈ nodes ∧ ¬ (w ∈ pool)
  | Op (GetTime w) => w ∈ nodes
  | Op Tick => True
  | Signal n => 1 ≤ n ≤ MAX_SIGNO
  | Run => True
  end.

(** A running task that can sleep: the watchdogs are in order and more than the
    reserve of them are free. *)
Record ready (s : ktask) (ts : list timer) (pool : list Z) : Prop := mkready {
  rd_rep : rep (wd s) ts pool;
  rd_dom : dom (next (wd s)) = nodes;
  rd_live : live ts;
  rd_foreign : Forall (λ x, foreign sig_timeout_fn tcb (fn x) (fargs x)) ts;
  rd_nfree : g_wdnfree (wd s) = Z.of_nat (length pool);
  rd_count : CONFIG_WDOG_INTRESERVE < g_wdnfree (wd s) ≤ CONFIG_PREALLOC_WDOGS;
  rd_waitdog : waitdog s = NULL;
  rd_running : waiting s = false;
  rd_clock : 0 ≤ g_system_timer s < 2 ^ 32
}.

Lemma waitticks_usleep usec :
  0 < usec < 2 ^ 32 →
  let sec := Z.quot usec 1000000 in
  let nsec := i32 (u32 (u32 (usec - u32 (sec * 1000000)) * 1000)) in
  0 ≤ nsec < 1000000000 ∧ waitticks64 (mktime sec nsec) = (usec + 9999) / 10000 ∧
  0 ≤ (usec + 9999) / 10000 < 2 ^ 31 - 1.
Proof.
  intros Hu sec nsec. assert (usec = 1000000 * sec + usec mod 1000000) as E.
  { unfold sec. rewrite Z.quot_div_nonneg by lia. apply Z.div_mod. lia. }
  pose proof (Z.mod_pos_bound usec 1000000 ltac:(lia)) as Hm.
  assert (0 ≤ sec < 4295) as Hs by lia.
  assert (nsec = usec mod 1000000 * 1000) as En.
  { unfold nsec. rewrite (u32_small (sec * 1000000)) by lia.
    replace (usec - sec * 1000000) with (usec mod 1000000) by lia.
    rewrite (u32_small (usec mod 1000000)) by lia. rewrite u32_small by lia.
    rewrite i32_small by lia. done. }
  rewrite En. split_and!; [lia|lia| |apply Z.div_pos; lia|apply Z.div_lt_upper_bound; lia].
  unfold waitticks64, NSEC_PER_SEC, NSEC_PER_TICK, USEC_PER_TICK. cbn [tv_sec tv_nsec].
  rewrite (wrap_small 64 (sec * _)), (wrap_small 64 (_ mod _ * _)), wrap_small by lia.
  replace (sec * 1000000000 + usec mod 1000000 * 1000 + 10000 * 1000 - 1)
    with (usec * 1000 + 9999999) by lia.
  change (10000 * 1000) with 10000000.
  Z.to_euclidean_division_equations; lia.
Qed.

(** A watchdog that no other call uses. *)
Lemma polite_other w pool : (∀ v, v = w → ¬ (v ∈ nodes) ∨ v ∈ pool) →
  (∀ o, polite_hop pool o → hop_other w o) ∧
  (∀ e, polite_event pool e → admissible sig_timeout_fn tcb w nodes pool e).
Proof.
  intros Hw. assert (∀ v, v ∈ nodes → ¬ (v ∈ pool) → v ≠ w) as Hn by (intros v H1 H2 E; destruct (Hw v E); done).
  split.
  - intros [v d f args|v]; simpl; [intros [(? & ? & _) _]|intros []]; by apply Hn.
  - intros [[v d f args|v|v|]|n|]; simpl; try done.
    + intros [H ?]. split; [done|]. split; [|done]. destruct H as (? & ? & _). by apply Hn.
    + intros []. split; [done|]. split; [by apply Hn|done].
Qed.

Lemma admissible_tail w v pool e : admissible sig_timeout_fn tcb w nodes (v :: pool) e → admissible sig_timeout_fn tcb w nodes pool e.
Proof.
  destruct e as [[]|n|]; simpl; try done. intros [(? & ? & ?) ?]. split; [|done]. split_and!; set_solver.
Qed.

Lemma hop_ok_tail v pool o : hop_ok nodes (v :: pool) o → hop_ok nodes pool o.
Proof. destruct o; simpl; [|done]. intros (? & ? & ?). split_and!; set_solver. Qed.

Lemma timer_not_null v ts pool x : rep v ts pool → x ∈ ts → id x ≠ NULL.
Proof.
  intros Hr (pre & post & ->)%list_elem_of_split E. destruct (rep_at _ _ _ _ _ Hr) as (_ & _ & (d & Ed & _) & _).
  apply (rep_null _ _ _ Hr). rewrite (rep_dom _ _ _ Hr), <- E. apply elem_of_dom. eauto.
Qed.

Lemma mine_null v ts pool : rep v ts pool → mine NULL ts = [].
Proof.
  intros Hr. unfold mine. destruct (filter _ ts) as [|x l] eqn:E; [done|].
  assert (x ∈ filter (λ x, id x = NULL) ts) as [Hx Hin]%list_elem_of_filter by (rewrite E; set_solver).
  by destruct (timer_not_null _ _ _ _ Hr Hin).
Qed.

(** Events that pass while the task runs. *)
Lemma ready_deliver s ts pool e : ready s ts pool → tcb ≠ NULL →
  (∀ f args, Forall (polite_hop pool) (handler f args)) → polite_event pool e →
  wp (deliver handler sig_timeout_fn tcb e)
    (λ _ s', (∃ ts', ready s' ts' pool) ∧ g_system_timer s' = u32 (g_system_timer s + tick_of e)) s.
Proof.
  intros [R1 R2 R3 R4 R5 R6 R7 R9 R8] Htcb Hh He.
  assert (¬ (NULL ∈ nodes)) as Hnull by (rewrite <- R2; apply (rep_null _ _ _ R1)).
  destruct (polite_other NULL pool ltac:(intros v ->; by left)) as [Po Pe].
  eapply wp_mono; [apply (deliver_spec handler sig_timeout_fn tcb NULL) with (nodes := nodes) (fl := pool) (ts := ts) (k := 0)|].
  - intros f args. eapply Forall_impl; [apply Hh|]. intros [] H; [apply H|done].
  - intros f args. eapply Forall_impl; [apply Hh|]. intros [] H; [apply H|apply H].
  - intros f args. eapply Forall_impl; [apply Hh|]. apply Po.
  - done.
  - split; [done|done|done| |by eapply mine_null]. eapply Forall_impl; [exact R4|]. by right.
  - done.
  - by rewrite R9.
  - by apply Pe.
  - done.
  - intros _ s' ((ts' & [S1 S2 S3 S4 _]) & Hwk & (T1 & T2 & _ & T3)). unfold woken in Hwk. rewrite R9 in Hwk.
    destruct Hwk as [Hw _]. split; [|done]. exists ts'. split; try done.
    + apply Forall_forall. intros x Hx. unfold foreign_timers in S4. rewrite Forall_forall in S4.
      destruct (S4 x Hx) as [E|]; [|done]. by destruct (timer_not_null _ _ _ _ S1 Hx).
    + by rewrite T2.
    + by rewrite T2.
    + by rewrite T1.
    + rewrite T3. apply u32_bound.
Qed.

Lemma ready_deliver_all evs s ts pool : ready s ts pool → tcb ≠ NULL →
  (∀ f args, Forall (polite_hop pool) (handler f args)) → Forall (polite_event pool) evs →
  wp (deliver_all handler sig_timeout_fn tcb evs)
    (λ _ s', (∃ ts', ready s' ts' pool) ∧ g_system_timer s' = u32 (g_system_timer s + ticks_in evs)) s.
Proof.
  revert s ts. induction evs as [|e evs IH]; intros s ts Hr Ht Hh He; simpl.
  - rewrite wp_ret. split; [by eauto|]. rewrite Z.add_0_r, u32_small; [done|apply (rd_clock _ _ _ Hr)].
  - apply Forall_cons in He as [He Hes]. rewrite wp_bind. eapply wp_mono; [by apply (ready_deliver s ts pool e)|].
    intros [] s1 [(ts1 & Hr1) T1]. eapply wp_mono; [by apply (IH s1 ts1)|]. intros [] s2 [Hr2 T2]. split; [done|].
    rewrite T2, T1. unfold u32, wrap. rewrite Zplus_mod_idemp_l. f_equal. lia.
Qed.

Lemma usleep_spec usec evs s ts w fl :
  ready s ts (w :: fl) → tcb ≠ NULL →
  (∀ f args, Forall (polite_hop (w :: fl)) (handler f args)) →
  Forall (polite_event (w :: fl)) evs → 0 < usec < 2 ^ 32 →
  let k := (usec + 9999) / 10000 + 1 in
  wp (usleep handler sig_timeout_fn tcb mem garbage usec evs)
    (λ r s', r = (λ x, (if timed_out x.1.1 then 0 else ERROR, x.2)) <$> nap k evs ∧
       ∀ a d post, nap k evs = Some (a, d, post) → (∃ ts', ready s' ts' (fl ++ [w])) ∧
         g_system_timer s' = u32 (g_system_timer s + (ticks_in a + ticks_in d))) s.
Proof.
  intros [R1 R2 R3 R4 R5 R6 R7 R9 R8] Htcb Hh He Hu.
  destruct (waitticks_usleep usec Hu) as (Hns & Hwt & Hwb). cbv zeta in Hns, Hwt.
  unfold usleep. rewrite (proj2 (Z.eqb_neq usec 0)) by lia. set (t := mktime _ _) in *. cbv zeta. rewrite <- Hwt in Hwb |- *.
  destruct (polite_other w (w :: fl) ltac:(intros v ->; right; set_solver)) as [Po Pe].
  unfold nanosleep, clock_systimer. cbn [tv_nsec t]. rewrite wp_bind.
  rewrite (proj2 (Z.ltb_ge _ 0)), (proj2 (Z.leb_gt _ _)) by lia. simpl orb. cbv iota. fold t.
  rewrite wp_bind, wp_gets, wp_bind. eapply wp_mono.
  { apply (sigtimedwait_spec handler sig_timeout_fn tcb mem garbage w) with (ts := ts) (nodes := nodes) (fl := fl); try done.
    - intros f args. eapply Forall_impl; [apply Hh|]. intros [] H; [apply H|done].
    - intros f args. eapply Forall_impl; [apply Hh|]. intros [v d g l|v] H; simpl in *; [|by destruct H].
      destruct H as [H _]. by apply (hop_ok_tail w fl (HStart v d g l)).
    - intros f args. eapply Forall_impl; [apply Hh|]. apply Po.
    - eapply Forall_impl; [exact R4|]. by right.
    - eapply Forall_impl; [exact He|]. intros e H. by apply (admissible_tail w w), Pe. }
  intros r s' [-> H]. destruct (nap _ evs) as [[[a d] post]|] eqn:En; simpl.
  2: { rewrite !wp_ret. done. }
  destruct (H _ _ _ eq_refl) as (ts' & Her & Q1 & Q2 & Q3 & Q4 & Q5 & Q6 & Q8 & Q7).
  assert (∀ e, ready (mkk (upd_errno e (wd s')) (g_system_timer s') (waiting s') (si_signo s') (waitdog s')) (cancel w ts') (fl ++ [w])) as HR.
  { intros e. split; simpl; try done.
    - destruct Q1; by split.
    - by apply live_cancel.
    - apply Forall_forall. intros x [Hx Hin]%list_elem_of_filter. unfold foreign_timers in Q4. rewrite Forall_forall in Q4.
      by destruct (Q4 x Hin).
    - rewrite Q5, R5, length_app. simpl. lia.
    - by rewrite Q5.
    - rewrite Q7. apply u32_bound. }
  assert (ready s' (cancel w ts') (fl ++ [w])) as HR'.
  { specialize (HR (errno (wd s'))). destruct s' as [[] ? ? ? ?]. exact HR. }
  rewrite wp_bind, wp_gets, Her. destruct (timed_out a) eqn:Et.
  - rewrite wp_bind, wp_assert by done. change (EAGAIN =? EAGAIN) with true. cbv iota.
    rewrite !wp_ret. split; [done|]. intros ? ? ? [= <- <- <-]. eauto.
  - rewrite wp_bind, wp_assert by done. change (EINTR =? EAGAIN) with false. cbv iota.
    rewrite wp_bind, wp_gets, wp_bind. unfold set_errno. rewrite wp_on_wd, wp_modify, !wp_ret.
    split; [done|]. intros ? ? ? [= <- <- <-]. split; [|done]. eexists. apply HR.
Qed.

(** The main loop of the dog feeder between two increments of its seconds: before each
    sleep of [usec] microseconds the task runs, while the events of a list in
    [works] happen. *)
Fixpoint sleep_loop (works : list (list event)) (usec : Z) (evs : list event) : M ktask (option (list event)) :=
  match works with
  | [] => ret (Some evs)
  | work :: works =>
      deliver_all handler sig_timeout_fn tcb work ;;;
      r <-- usleep handler sig_timeout_fn tcb mem garbage usec evs ;;
      match r with
      | Some (_, evs) => sleep_loop works usec evs
      | None => ret None
      end
  end.

Lemma polite_perm pool pool' :
  pool ≡ₚ pool' → (∀ o, polite_hop pool o → polite_hop pool' o) ∧
  (∀ e, polite_event pool e → polite_event pool' e).
Proof.
  intros P. assert (∀ w, ¬ (w ∈ pool) → ¬ (w ∈ pool')) as H by (intros w; by rewrite P).
  assert (∀ w d f args, polite_start pool w d f args → polite_start pool' w d f args) as Hs.
  { intros w d f args [(? & ? & ?) ?]. split; [|done]. split; [done|]. split; [by apply H|done]. }
  split; [intros []|intros [[]|n|]]; simpl; naive_solver.
Qed.

Lemma u32_add_l a b : u32 (u32 a + b) = u32 (a + b).
Proof. unfold u32, wrap. by rewrite Zplus_mod_idemp_l. Qed.

(** [n] naps, one after the other. *)
Fixpoint naps (n : nat) (k : Z) (evs : list event) : option (list (list event * list event) * list event) :=
  match n with
  | O => Some ([], evs)
  | S n => '(a, d, rest) ← nap k evs; '(l, post) ← naps n k rest; Some ((a, d) :: l, post)
  end.

Definition total_ticks (l : list (list event)) : Z := foldr (λ x n, ticks_in x + n) 0 l.

Lemma total_ticks_cons x l : total_ticks (x :: l) = ticks_in x + total_ticks l.
Proof. done. Qed.

Lemma sleep_loop_spec works usec evs s ts pool :
  ready s ts pool → tcb ≠ NULL →
  (∀ f args, Forall (polite_hop pool) (handler f args)) →
  Forall (Forall (polite_event pool)) works → Forall (polite_event pool) evs → 0 < usec < 2 ^ 32 →
  let k := (usec + 9999) / 10000 + 1 in
  wp (sleep_loop works usec evs) (λ r s', r = snd <$> naps (length works) k evs ∧
    ∀ l post, naps (length works) k evs = Some (l, post) →
      (∃ ts' pool', ready s' ts' pool' ∧ pool' ≡ₚ pool) ∧
      g_system_timer s' = u32 (g_system_timer s + total_ticks works + total_ticks l.*1 + total_ticks l.*2)) s.
Proof.
  intros Hr Ht Hh Hw He Hu k. assert (0 < k) as Hk by (unfold k; pose proof (Z.div_pos (usec + 9999) 10000); lia).
  revert evs s ts pool Hr Hh Hw He. induction works as [|work works IH]; intros evs s ts pool Hr Hh Hw He; simpl.
  - rewrite wp_ret. split; [done|]. intros l post [= <- <-]. split; [by eauto|]. simpl.
    rewrite !Z.add_0_r, u32_small; [done|apply (rd_clock _ _ _ Hr)].
  - apply Forall_cons in Hw as [Hw Hws]. rewrite wp_bind. eapply wp_mono; [by apply (ready_deliver_all work s ts pool)|].
    intros [] s1 [(ts1 & Hr1) T1]. destruct pool as [|w fl].
    { pose proof (rd_nfree _ _ _ Hr). pose proof (rd_count _ _ _ Hr) as H'.
      unfold CONFIG_WDOG_INTRESERVE in H'. simpl in *. lia. }
    rewrite wp_bind. eapply wp_mono; [by apply (usleep_spec usec evs s1 ts1 w fl)|]. fold k.
    intros r s2 [-> H]. destruct (nap k evs) as [[[a d] rest]|] eqn:En; simpl; [|by rewrite wp_ret].
    destruct (H _ _ _ eq_refl) as ((ts2 & Hr2) & T2). destruct (nap_spec _ _ _ _ _ Hk En) as (-> & _).
    assert (w :: fl ≡ₚ fl ++ [w]) as P by apply Permutation_cons_append.
    destruct (polite_perm _ _ P) as [Ph Pe]. apply Forall_app in He as [_ He].
    eapply wp_mono; [apply (IH rest s2 ts2 (fl ++ [w]))|].
    + done.
    + intros f args. eapply Forall_impl; [apply Hh|done].
    + eapply Forall_impl; [exact Hws|]. intros x Hx. eapply Forall_impl; [exact Hx|done].
    + eapply Forall_impl; [exact He|done].
    + intros r s3 [-> H3]. split; [by destruct (naps _ _ _) as [[]|]|]. intros l post E.
      apply bind_Some in E as ([l' post'] & E & [= <- <-]). destruct (H3 _ _ E) as ((ts3 & pool3 & Hr3 & P3) & T3).
      split; [exists ts3, pool3; split; [done|]; by rewrite P3, P|]. rewrite !fmap_cons, !total_ticks_cons, T3, T2, T1.
      rewrite <- !Z.add_assoc, u32_add_l, <- !Z.add_assoc, u32_add_l. f_equal. cbn [fst snd]. lia.
Qed.

End Duration.

(** ** The duration of several naps *)

Lemma naps_spec n k evs l post : 0 < k → naps n k evs = Some (l, post) →
  evs = concat ((λ x, x.1 ++ x.2 ++ [Run]) <$> l) ++ post ∧ length l = n ∧
  Forall (λ x, nap_of k x.1 ∧ ¬ (Run ∈ x.2)) l.
Proof.
  intros Hk. revert evs l. induction n as [|n IH]; intros evs l E; simpl in E; [by injection E as <- <-|].
  apply bind_Some in E as ([[a d] rest] & E1 & E). apply bind_Some in E as ([l' post'] & E2 & [= <- <-]).
  destruct (nap_spec _ _ _ _ _ Hk E1) as (-> & H1 & H2). destruct (IH _ _ E2) as (-> & <- & H3).
  split_and!; [by rewrite fmap_cons; simpl; rewrite <- !app_assoc|done|by constructor].
Qed.

(** Without signals every nap has its full length. *)
Lemma naps_full n k evs l post : 0 < k → naps n k evs = Some (l, post) → ¬ signals evs →
  total_ticks l.*1 = Z.of_nat n * k.
Proof.
  intros Hk. revert evs l. induction n as [|n IH]; intros evs l E Hs; simpl in E; [by injection E as <- <-|].
  apply bind_Some in E as ([[a d] rest] & E1 & E). apply bind_Some in E as ([l' post'] & E2 & [= <- <-]).
  destruct (nap_spec _ _ _ _ _ Hk E1) as (-> & H1 & H2). rewrite fmap_cons, total_ticks_cons, (IH _ _ E2).
  - cbn [fst]. destruct H1 as [(_ & -> & _)|(b & m & -> & _)]; [lia|]. destruct Hs. exists m. set_solver.
  - intros [m Hm]. apply Hs. exists m. set_solver.
Qed.

(** Signals only make it shorter. *)
Lemma naps_bound n k evs l post : 0 < k → naps n k evs = Some (l, post) → 0 ≤ total_ticks l.*1 ≤ Z.of_nat n * k.
Proof.
  intros Hk E. destruct (naps_spec _ _ _ _ _ Hk E) as (_ & <- & H). clear E.
  induction H as [|[a d] l [Hn _] _ IH]; [done|]. rewrite fmap_cons, total_ticks_cons, length_cons.
  assert (0 ≤ ticks_in a ≤ k); [|cbn [fst]; lia]. cbn [fst] in *. destruct Hn as [(_ & -> & _)|(b & m & -> & _ & ?)]; [lia|].
  assert (ticks_in (b ++ [Signal m]) = ticks_in b) as ->; [|lia].
  unfold ticks_in. rewrite foldr_app. done.
Qed.

Lemma ticks_in_nonneg l : 0 ≤ ticks_in l.
Proof. induction l as [|e l IH]; simpl; [lia|]. destruct e as [[]|m|]; simpl; lia. Qed.

Lemma ticks_in_app pre post : ticks_in (pre ++ post) = ticks_in pre + ticks_in post.
Proof. unfold ticks_in. induction pre as [|e pre IH]; simpl; [done|]. lia. Qed.

(** A nap is over once its ticks have passed and the task has got the processor. *)
Lemma asleep_within k l r : 0 < k ≤ ticks_in l → ∃ a c, asleep k (l ++ r) = Some (a, c ++ r).
Proof.
  revert k. induction l as [|e l IH]; intros k Hk; simpl in Hk; [lia|]. simpl.
  destruct (wakes k e) as [n|] eqn:Ew; [by eexists _, l|].
  destruct (IH (k - tick_of e)) as (a & c & ->); [|by eexists (e :: a), c].
  destruct e as [[]|m|]; simpl in *; try lia. destruct (Z.eqb_spec k 1); [done|lia].
Qed.

Lemma until_run_within l r : ∃ d c, until_run (l ++ Run :: r) = Some (d, c ++ r).
Proof.
  induction l as [|e l (d & c & E)]; [by exists [], []|]. simpl. destruct (is_run e); [|rewrite E; by exists (e :: d), c].
  exists [], (l ++ [Run]). by rewrite <- app_assoc.
Qed.

Lemma nap_within k l r : 0 < k ≤ ticks_in l → ∃ a d c, nap k (l ++ Run :: r) = Some (a, d, c ++ r).
Proof.
  intros Hk. unfold nap. destruct (asleep_within k l (Run :: r) Hk) as (a & x & ->). simpl.
  destruct (until_run_within x r) as (d & c & ->). simpl. eauto.
Qed.

(** The events give the task the processor [n] times, each time after [k] ticks. *)
Definition turns (n : nat) (k : Z) (evs : list event) : Prop :=
  ∃ l rest, evs = concat ((λ x, x ++ [Run]) <$> l) ++ rest ∧ length l = n ∧ Forall (λ x, k ≤ ticks_in x) l.

Lemma naps_turns n k evs : 0 < k → turns n k evs → is_Some (naps n k evs).
Proof.
  intros Hk (l & rest & -> & <- & HF).
  assert (∀ c, is_Some (naps (length l) k (c ++ concat ((λ x, x ++ [Run]) <$> l) ++ rest))) as H; [|by apply (H [])].
  induction HF as [|x l Hx _ IH]; intros c; [simpl; by eexists|]. cbn [length naps].
  rewrite fmap_cons. simpl. rewrite <- !app_assoc, (app_assoc c x). simpl.
  destruct (nap_within k (c ++ x) (concat ((λ x, x ++ [Run]) <$> l) ++ rest)) as (a & d & c' & ->).
  - rewrite ticks_in_app. pose proof (ticks_in_nonneg c). lia.
  - simpl. destruct (IH c') as [[l' post] E]. rewrite E. by eexists.
Qed.

(** C20: how long sleeping takes.  [n] calls of [usleep] are [n] naps of [k]
    ticks, where [k] is the number of 10 ms ticks that covers [usec], plus one:
    each lasts until its [k] ticks have passed or a signal arrives, and then
    until the scheduler gives the task the processor.  Meanwhile other tasks and
    interrupts start, cancel and query their own watchdogs, send signals and
    run for as long as they like, and the task may spend time between the calls.
    No watchdog is lost, and on the clock the loop takes the ticks asleep, those
    ready but not running, and those of the work in between: the ticks asleep are
    [n * k] when no signal comes, at most that otherwise.  The loop comes to its
    end when the task gets the processor [n] times, each time after [k] ticks or more.
    Fifty calls of [usleep(1)], which is what the main loop of the dog feeder
    makes between two increments of its seconds, are one hundred ticks asleep,
    one second, and every delay adds to it. *)
Theorem sleep_loop_duration handler sig_timeout_fn tcb mem garbage nodes works usec evs s ts pool :
  ready sig_timeout_fn tcb nodes s ts pool → tcb ≠ NULL →
  (∀ f args, Forall (polite_hop sig_timeout_fn tcb nodes pool) (handler f args)) →
  Forall (Forall (polite_event sig_timeout_fn tcb nodes pool)) works →
  Forall (polite_event sig_timeout_fn tcb nodes pool) evs → 0 < usec < 2 ^ 32 →
  let n := length works in
  let k := (usec + 9999) / 10000 + 1 in
  ∃ s', sleep_loop handler sig_timeout_fn tcb mem garbage works usec evs s = Ok (snd <$> naps n k evs, s') ∧
    (turns n k evs → is_Some (naps n k evs)) ∧
    (∀ l post, naps n k evs = Some (l, post) →
       evs = concat ((λ x, x.1 ++ x.2 ++ [Run]) <$> l) ++ post ∧ length l = n ∧
       Forall (λ x, nap_of k x.1 ∧ ¬ (Run ∈ x.2)) l ∧
       (∃ ts' pool', ready sig_timeout_fn tcb nodes s' ts' pool' ∧ pool' ≡ₚ pool) ∧
       g_system_timer s' = u32 (g_system_timer s + total_ticks works + total_ticks l.*1 + total_ticks l.*2) ∧
       0 ≤ total_ticks l.*1 ≤ Z.of_nat n * k ∧
       (¬ signals evs → total_ticks l.*1 = Z.of_nat n * k)) ∧
    (n = 50%nat → usec = 1 → Z.of_nat n * k = TICK_PER_SEC).
Proof.
  intros Hr Ht Hh Hw He Hu n k. assert (0 < k) as Hk by (unfold k; pose proof (Z.div_pos (usec + 9999) 10000); lia).
  destruct (wp_run _ _ _ (sleep_loop_spec handler sig_timeout_fn tcb mem garbage nodes works usec evs s ts pool
    Hr Ht Hh Hw He Hu)) as (r & s' & E & -> & H).
  exists s'. split_and!; [done|by apply naps_turns| |by unfold k; intros -> ->]. intros l post En.
  destruct (naps_spec _ _ _ _ _ Hk En) as (E1 & E2 & E3). destruct (H _ _ En) as [Hr' Hc].
  split_and!; try done; [by eapply naps_bound..|]. by eapply naps_full.
Qed.

(** Fifty sleeps with the ticks of the timer and one delay of three ticks; the
    last is cut short by a signal. *)
Definition one_second : list event :=
  concat (replicate 48 [Op Tick; Run; Op Tick; Run]) ++
  [Op Tick; Op Tick; Op Tick; Op Tick; Op Tick; Run; Op Tick; Signal 10; Run].

Lemma sleep_loop_duration_witness :
  ∃ s0 s', wd_initialize 0x20000100 (quiet (pool 0x20000100)) = Ok (tt, s0) ∧
    sleep_loop (λ _ _, []) 900 0x20004000 0 (mkwdog 0 0 0 0 []) (replicate 50 [Op Tick]) 1 one_second
      (mkk s0 0 false 0 NULL) = Ok (Some [], s') ∧
    g_system_timer s' = 50 + 99 + 3.
Proof.
  destruct (wp_run _ _ _ (wd_initialize_spec 0x20000100 ltac:(lia))) as ([] & s0 & R & Hr & Hn & _).
  destruct (sleep_loop_duration (λ _ _, []) 900 0x20004000 0 (mkwdog 0 0 0 0 []) (dom (next s0)) (replicate 50 [Op Tick]) 1
    one_second (mkk s0 0 false 0 NULL) [] (pool 0x20000100))
    as (s' & R' & _ & H & _).
  - clear R. split; cbn [wd g_system_timer waitdog waiting].
    + exact Hr.
    + reflexivity.
    + apply Forall_nil_2.
    + apply Forall_nil_2.
    + exact Hn.
    + rewrite Hn. split; [reflexivity|]. vm_compute. discriminate.
    + reflexivity.
    + reflexivity.
    + lia.
  - discriminate.
  - intros. apply Forall_nil_2.
  - apply Forall_replicate. apply Forall_cons_2; [exact I|apply Forall_nil_2].
  - unfold one_second. apply Forall_app. split.
    + apply Forall_concat, Forall_replicate. repeat (apply Forall_cons_2; [exact I|]). apply Forall_nil_2.
    + repeat (apply Forall_cons_2; [first [exact I|split; discriminate]|]). apply Forall_nil_2.
  - lia.
  - assert ((λ x, (x.2, total_ticks x.1.*1, total_ticks x.1.*2)) <$> naps 50 2 one_second = Some ([], 99, 3)) as En
      by (vm_compute; reflexivity).
    change ((1 + 9999) / 10000 + 1) with 2 in *. rewrite length_replicate in *.
    destruct (naps 50 2 one_second) as [[l post]|] eqn:E; [|discriminate En]. injection En as -> E1 E2.
    destruct (H l [] eq_refl) as (_ & _ & _ & _ & Hc & _). exists s0, s'. split; [exact R|]. split; [exact R'|].
    rewrite Hc, E1, E2. vm_compute. reflexivity.
Defined.

End Sleep.
