(* ===== verification/Heap.v ===== *)
(** * The memory manager

    Models [mm/mm_heap]: the allocator behind [malloc] and [free], for one
    region and 32-bit sizes.

    Memory is a map from word addresses to 32-bit words.  Its domain is the
    RAM the system has: an access outside it (or at an address that is not a
    multiple of four) is undefined.  A node of the heap is an address; its
    fields [size], [preceding], [flink] and [blink] are the four words there.
    The hooks [mm_nodelist] of the heap structure lie in the same memory, at
    the address [mm_nodelist].  Pointer arithmetic wraps at 32 bits.

    The searches of the free list and the walk over the nodes are bounded by
    the number of words of the memory. *)

From S2P Require Import Prelude Queue.

Module Heap.

Definition MM_MIN_SHIFT : Z := 4.
Definition MM_MAX_SHIFT : Z := 22.
Definition MM_MIN_CHUNK : Z := Z.shiftl 1 MM_MIN_SHIFT.
Definition MM_MAX_CHUNK : Z := Z.shiftl 1 MM_MAX_SHIFT.
Definition MM_NNODES : Z := MM_MAX_SHIFT - MM_MIN_SHIFT + 1.
Definition MM_GRAN_MASK : Z := MM_MIN_CHUNK - 1.
Definition MM_ALIGN_UP (a : Z) : Z := Z.land (u32 (a + MM_GRAN_MASK)) (Z.lnot MM_GRAN_MASK).
Definition MM_ALIGN_DOWN (a : Z) : Z := Z.land a (Z.lnot MM_GRAN_MASK).
Definition MM_ALLOC_BIT : Z := 0x80000000.
Definition SIZEOF_MM_ALLOCNODE : Z := 8.
Definition SIZEOF_MM_FREENODE : Z := 16.
Definition SEM_VALUE_MAX : Z := 0x7fff.
Definition MIN_EXTEND : Z := 2 * SIZEOF_MM_ALLOCNODE.

(** The heap structure, with the memory around it and the process id of the
    task that runs. *)
Record heap : Type := mkheap
  { mem : gmap Z Z;
    getpid : Z;
    mm_semaphore : Z;
    mm_holder : Z;
    mm_counts_held : Z;
    mm_heapsize : Z;
    mm_heapstart : Z;
    mm_heapend : Z;
    mm_nodelist : Z }.

Definition set_mem (m : gmap Z Z) (h : heap) : heap :=
  mkheap m (getpid h) (mm_semaphore h) (mm_holder h) (mm_counts_held h)
    (mm_heapsize h) (mm_heapstart h) (mm_heapend h) (mm_nodelist h).
Definition set_lock (s o c : Z) (h : heap) : heap :=
  mkheap (mem h) (getpid h) s o c
    (mm_heapsize h) (mm_heapstart h) (mm_heapend h) (mm_nodelist h).
Definition set_heapsize (z : Z) (h : heap) : heap :=
  mkheap (mem h) (getpid h) (mm_semaphore h) (mm_holder h) (mm_counts_held h)
    z (mm_heapstart h) (mm_heapend h) (mm_nodelist h).
Definition set_heapstart (a : Z) (h : heap) : heap :=
  mkheap (mem h) (getpid h) (mm_semaphore h) (mm_holder h) (mm_counts_held h)
    (mm_heapsize h) a (mm_heapend h) (mm_nodelist h).
Definition set_heapend (a : Z) (h : heap) : heap :=
  mkheap (mem h) (getpid h) (mm_semaphore h) (mm_holder h) (mm_counts_held h)
    (mm_heapsize h) (mm_heapstart h) a (mm_nodelist h).

(** ** Memory *)

Definition load (a : Z) : M heap Z := λ h,
  if a =? NULL then Undef NullDeref
  else match mem h !! a with Some v => Ok (v, h) | None => Undef OutOfBounds end.

Definition store (a v : Z) : M heap unit :=
  (_ <-- load a ;; modify (λ h, set_mem (<[a := v]> (mem h)) h))%cmd.

(** The fields of [struct mm_freenode_s]; the first two are those of
    [struct mm_allocnode_s]. *)
Definition node_size (p : Z) : M heap Z := load p.
Definition preceding (p : Z) : M heap Z := load (p + 4).
Definition flink (p : Z) : M heap Z := load (p + 8).
Definition blink (p : Z) : M heap Z := load (p + 12).
Definition set_size (p v : Z) : M heap unit := store p v.
Definition set_preceding (p v : Z) : M heap unit := store (p + 4) v.
Definition set_flink (p v : Z) : M heap unit := store (p + 8) v.
Definition set_blink (p v : Z) : M heap unit := store (p + 12) v.

(** Bytes within words, least significant first. *)
Definition load_byte (a : Z) : M heap Z :=
  (w <-- load (a - a mod 4) ;;
   ret (Z.land (Z.shiftr w (8 * (a mod 4))) 255))%cmd.

Definition store_byte (a v : Z) : M heap unit :=
  (let k := 8 * (a mod 4) in
   w <-- load (a - a mod 4) ;;
   store (a - a mod 4) (Z.lor (Z.land (u32 w) (Z.lnot (Z.shiftl 255 k))) (Z.shiftl (u8 v) k)))%cmd.

Fixpoint copy_bytes (n : nat) (pout pin : Z) : M heap unit :=
  match n with
  | O => ret tt
  | S n => (b <-- load_byte pin ;; store_byte pout b ;;;
            copy_bytes n (u32 (pout + 1)) (u32 (pin + 1)))%cmd
  end.

Definition memcpy (dest src n : Z) : M heap unit := copy_bytes (Z.to_nat n) dest src.

Fixpoint fill_bytes (n : nat) (p c : Z) : M heap unit :=
  match n with
  | O => ret tt
  | S n => (store_byte p c ;;; fill_bytes n (u32 (p + 1)) c)%cmd
  end.

Definition memset (s c n : Z) : M heap unit := fill_bytes (Z.to_nat n) s c.

(** ** The lock *)

Definition mm_seminitialize : M heap unit := modify (set_lock 1 (-1) 0).

Definition sem_wait : M heap unit := λ h,
  if 0 <? mm_semaphore h
  then Ok (tt, set_lock (mm_semaphore h - 1) (mm_holder h) (mm_counts_held h) h)
  else Undef Blocked.

(** The running task is the only one the model has: nobody waits for the
    semaphore when it is posted. *)
Definition sem_post : M heap unit :=
  (s <-- gets mm_semaphore ;;
   assert_ (s <? SEM_VALUE_MAX) ;;;
   modify (λ h, set_lock (mm_semaphore h + 1) (mm_holder h) (mm_counts_held h) h))%cmd.

Definition mm_takesemaphore : M heap unit :=
  (my_pid <-- gets getpid ;;
   holder <-- gets mm_holder ;;
   if holder =? my_pid
   then c <-- gets mm_counts_held ;;
        c' <-- incr_int c ;;
        modify (λ h, set_lock (mm_semaphore h) (mm_holder h) c' h)
   else sem_wait ;;;
        modify (λ h, set_lock (mm_semaphore h) my_pid 1 h))%cmd.

Definition mm_trysemaphore : M heap bool :=
  (my_pid <-- gets getpid ;;
   holder <-- gets mm_holder ;;
   if holder =? my_pid
   then c <-- gets mm_counts_held ;;
        c' <-- incr_int c ;;
        modify (λ h, set_lock (mm_semaphore h) (mm_holder h) c' h) ;;;
        ret true
   else s <-- gets mm_semaphore ;;
        if 0 <? s
        then modify (set_lock (s - 1) my_pid 1) ;;; ret true
        else ret false)%cmd.

Definition mm_givesemaphore : M heap unit :=
  (my_pid <-- gets getpid ;;
   holder <-- gets mm_holder ;;
   assert_ (holder =? my_pid) ;;;
   c <-- gets mm_counts_held ;;
   if 1 <? c
   then modify (λ h, set_lock (mm_semaphore h) (mm_holder h) (c - 1) h)
   else modify (λ h, set_lock (mm_semaphore h) (-1) 0 h) ;;;
        sem_post)%cmd.

(** ** The free list *)

Fixpoint halvings (fuel : nat) (size ndx : Z) : Z :=
  match fuel with
  | O => ndx
  | S fuel => if 1 <? size then halvings fuel (Z.shiftr size 1) (ndx + 1) else ndx
  end.

(** A 32-bit size is halved fewer than 32 times. *)
Definition mm_size2ndx (size : Z) : Z :=
  if MM_MAX_CHUNK <=? size then MM_NNODES - 1
  else halvings 32 (Z.shiftr size MM_MIN_SHIFT) 0.

Definition hook (ndx : Z) (h : heap) : Z := mm_nodelist h + SIZEOF_MM_FREENODE * ndx.

Definition fuel (h : heap) : nat := S (size (mem h)).

(** The loop that finds where a node of size [sz] goes. *)
Fixpoint find_place (n : nat) (sz prev next : Z) : M heap (Z * Z) :=
  match n with
  | O => fail_ub NoFuel
  | S n =>
    (if next =? NULL then ret (prev, next)
     else s <-- node_size next ;;
          if negb (s =? 0) && (s <? sz)
          then f <-- flink next ;; find_place n sz next f
          else ret (prev, next))%cmd
  end.

Definition mm_addfreechunk (node : Z) : M heap unit :=
  (sz <-- node_size node ;;
   prev <-- gets (hook (mm_size2ndx sz)) ;;
   next <-- flink prev ;;
   n <-- gets fuel ;;
   pn <-- find_place n sz prev next ;;
   set_flink pn.1 node ;;;
   set_blink node pn.1 ;;;
   set_flink node pn.2 ;;;
   when (negb (pn.2 =? NULL)) (set_blink pn.2 node))%cmd.

(** Taking a node out of the free list. *)
Definition unlink (node : Z) : M heap unit :=
  (b <-- blink node ;;
   assert_ (negb (b =? NULL)) ;;;
   f <-- flink node ;;
   set_flink b f ;;;
   f <-- flink node ;;
   when (negb (f =? NULL)) (b <-- blink node ;; set_blink f b))%cmd.

(** ** Setting up *)

Definition mm_addregion (heapstart heapsize : Z) : M heap unit :=
  (let heapbase := MM_ALIGN_UP heapstart in
   let heapend := MM_ALIGN_DOWN (u32 (heapstart + heapsize)) in
   let heapsize := u32 (heapend - heapbase) in
   modify (λ h, set_heapsize (u32 (mm_heapsize h + heapsize)) h) ;;;
   modify (set_heapstart heapbase) ;;;
   set_size heapbase SIZEOF_MM_ALLOCNODE ;;;
   set_preceding heapbase MM_ALLOC_BIT ;;;
   let node := u32 (heapbase + SIZEOF_MM_ALLOCNODE) in
   set_size node (u32 (heapsize - 2 * SIZEOF_MM_ALLOCNODE)) ;;;
   set_preceding node SIZEOF_MM_ALLOCNODE ;;;
   let last := u32 (heapend - SIZEOF_MM_ALLOCNODE) in
   modify (set_heapend last) ;;;
   set_size last SIZEOF_MM_ALLOCNODE ;;;
   s <-- node_size node ;;
   set_preceding last (Z.lor s MM_ALLOC_BIT) ;;;
   mm_addfreechunk node)%cmd.

Fixpoint link_hooks (n : nat) (i : Z) : M heap unit :=
  match n with
  | O => ret tt
  | S n =>
    (prev <-- gets (hook (i - 1)) ;;
     this <-- gets (hook i) ;;
     set_flink prev this ;;;
     set_blink this prev ;;;
     link_hooks n (i + 1))%cmd
  end.

Definition mm_initialize (heapstart heapsize : Z) : M heap unit :=
  (modify (set_heapsize 0) ;;;
   list <-- gets mm_nodelist ;;
   memset list 0 (SIZEOF_MM_FREENODE * MM_NNODES) ;;;
   link_hooks (Z.to_nat (MM_NNODES - 1)) 1 ;;;
   mm_seminitialize ;;;
   mm_addregion heapstart heapsize)%cmd.

(** ** Allocation *)

(** The loop that finds the first node of the list that is large enough. *)
Fixpoint find_fit (n : nat) (sz node : Z) : M heap Z :=
  match n with
  | O => fail_ub NoFuel
  | S n =>
    (if node =? NULL then ret NULL
     else s <-- node_size node ;;
          if s <? sz then f <-- flink node ;; find_fit n sz f
          else ret node)%cmd
  end.

(** Allocate [sz] bytes from a free node: the rest of it goes back to the
    list when it can hold a free node. *)
Definition take_node (node sz : Z) : M heap Z :=
  (unlink node ;;;
   s <-- node_size node ;;
   let remaining := u32 (s - sz) in
   when (SIZEOF_MM_FREENODE <=? remaining)
     (let next := u32 (node + s) in
      let remainder := u32 (node + sz) in
      set_size remainder remaining ;;;
      set_preceding remainder sz ;;;
      set_size node sz ;;;
      p <-- preceding next ;;
      set_preceding next (Z.lor remaining (Z.land p MM_ALLOC_BIT)) ;;;
      mm_addfreechunk remainder) ;;;
   p <-- preceding node ;;
   set_preceding node (Z.lor p MM_ALLOC_BIT) ;;;
   ret (u32 (node + SIZEOF_MM_ALLOCNODE)))%cmd.

Definition chunk_size (size : Z) : Z := MM_ALIGN_UP (u32 (size + SIZEOF_MM_ALLOCNODE)).

Definition mm_malloc (size : Z) : M heap Z :=
  (if size <? 1 then ret NULL
   else
     let sz := chunk_size size in
     mm_takesemaphore ;;;
     list <-- gets (hook (if MM_MAX_CHUNK <=? sz then MM_NNODES - 1 else mm_size2ndx sz)) ;;
     first <-- flink list ;;
     n <-- gets fuel ;;
     node <-- find_fit n sz first ;;
     r <-- (if node =? NULL then ret NULL else take_node node sz) ;;
     mm_givesemaphore ;;;
     ret r)%cmd.

Definition mm_zalloc (size : Z) : M heap Z :=
  (alloc <-- mm_malloc size ;;
   when (negb (alloc =? NULL)) (memset alloc 0 size) ;;;
   ret alloc)%cmd.

Definition mm_calloc (n elem_size : Z) : M heap Z :=
  if (0 <? n) && (0 <? elem_size) then mm_zalloc (u32 (n * elem_size)) else ret NULL.

(** ** Release *)

(** Merge the node with the following one, if that is free; the result is
    the node that follows then. *)
Definition merge_next (node : Z) : M heap Z :=
  (s <-- node_size node ;;
   let next := u32 (node + s) in
   p <-- preceding next ;;
   if Z.land p MM_ALLOC_BIT =? 0
   then ns <-- node_size next ;;
        let andbeyond := u32 (next + ns) in
        unlink next ;;;
        s <-- node_size node ;;
        ns <-- node_size next ;;
        set_size node (u32 (s + ns)) ;;;
        s <-- node_size node ;;
        p <-- preceding andbeyond ;;
        set_preceding andbeyond (Z.lor s (Z.land p MM_ALLOC_BIT)) ;;;
        ret andbeyond
   else ret next)%cmd.

(** Merge the node with the preceding one, if that is free; the result is
    the merged node. *)
Definition merge_prev (node next : Z) : M heap Z :=
  (d <-- preceding node ;;
   let prev := u32 (node - d) in
   p <-- preceding prev ;;
   if Z.land p MM_ALLOC_BIT =? 0
   then unlink prev ;;;
        ps <-- node_size prev ;;
        s <-- node_size node ;;
        set_size prev (u32 (ps + s)) ;;;
        ps <-- node_size prev ;;
        p <-- preceding next ;;
        set_preceding next (Z.lor ps (Z.land p MM_ALLOC_BIT)) ;;;
        ret prev
   else ret node)%cmd.

Definition mm_free (m : Z) : M heap unit :=
  (if m =? NULL then ret tt
   else
     mm_takesemaphore ;;;
     let node := u32 (m - SIZEOF_MM_ALLOCNODE) in
     p <-- preceding node ;;
     set_preceding node (Z.land p (Z.lnot MM_ALLOC_BIT)) ;;;
     next <-- merge_next node ;;
     node <-- merge_prev node next ;;
     mm_addfreechunk node ;;;
     mm_givesemaphore)%cmd.

(** ** Changing the size of an allocation *)

Definition mm_shrinkchunk (node sz : Z) : M heap unit :=
  (s <-- node_size node ;;
   let next := u32 (node + s) in
   p <-- preceding next ;;
   if Z.land p MM_ALLOC_BIT =? 0
   then ns <-- node_size next ;;
        let andbeyond := u32 (next + ns) in
        unlink next ;;;
        let newnode := u32 (node + sz) in
        ns <-- node_size next ;;
        s <-- node_size node ;;
        set_size newnode (u32 (ns + s - sz)) ;;;
        set_preceding newnode sz ;;;
        set_size node sz ;;;
        w <-- node_size newnode ;;
        p <-- preceding andbeyond ;;
        set_preceding andbeyond (Z.lor w (Z.land p MM_ALLOC_BIT)) ;;;
        mm_addfreechunk newnode
   else when (u32 (sz + SIZEOF_MM_FREENODE) <=? s)
     (let newnode := u32 (node + sz) in
      set_size newnode (u32 (s - sz)) ;;;
      set_preceding newnode sz ;;;
      set_size node sz ;;;
      w <-- node_size newnode ;;
      set_preceding next (Z.lor w MM_ALLOC_BIT) ;;;
      mm_addfreechunk newnode))%cmd.

(** How much a growing allocation takes from the free chunks before and
    after it. *)
Definition take_sizes (needed prevsize nextsize : Z) : Z * Z :=
  if (0 <? prevsize) && ((prevsize <=? nextsize) || (nextsize <? 1))
  then if prevsize <? needed
       then (prevsize, u32 (needed - prevsize))
       else (needed, 0)
  else if (0 <? nextsize) && negb (needed =? 0)
       then if nextsize <? needed
            then (u32 (needed - nextsize), nextsize)
            else (0, needed)
       else (0, 0).

(** Extend [oldnode] into the preceding free chunk and move the contents
    down; the result is the new node with its size. *)
Definition extend_prev (oldnode oldsize prev next prevsize takeprev oldmem : Z) :
    M heap (Z * Z) :=
  (unlink prev ;;;
   let newnode := u32 (oldnode - takeprev) in
   (if takeprev <? prevsize
    then ps <-- node_size prev ;;
         set_size prev (u32 (ps - takeprev)) ;;;
         set_size newnode (u32 (oldsize + takeprev)) ;;;
         ps <-- node_size prev ;;
         set_preceding newnode (Z.lor ps MM_ALLOC_BIT) ;;;
         s <-- node_size newnode ;;
         p <-- preceding next ;;
         set_preceding next (Z.lor s (Z.land p MM_ALLOC_BIT)) ;;;
         mm_addfreechunk prev
    else s <-- node_size newnode ;;
         set_size newnode (u32 (s + oldsize)) ;;;
         p <-- preceding newnode ;;
         set_preceding newnode (Z.lor p MM_ALLOC_BIT) ;;;
         s <-- node_size newnode ;;
         p <-- preceding next ;;
         set_preceding next (Z.lor s (Z.land p MM_ALLOC_BIT))) ;;;
   s <-- node_size newnode ;;
   memcpy (u32 (newnode + SIZEOF_MM_ALLOCNODE)) oldmem (u32 (s - SIZEOF_MM_ALLOCNODE)) ;;;
   ret (newnode, s))%cmd.

(** Extend [oldnode] into the following free chunk. *)
Definition extend_next (oldnode oldsize next nextsize takenext : Z) : M heap unit :=
  (let andbeyond := u32 (next + nextsize) in
   unlink next ;;;
   set_size oldnode (u32 (oldsize + takenext)) ;;;
   s <-- node_size oldnode ;;
   let newnode := u32 (oldnode + s) in
   if takenext <? nextsize
   then set_size newnode (u32 (nextsize - takenext)) ;;;
        s <-- node_size oldnode ;;
        set_preceding newnode s ;;;
        w <-- node_size newnode ;;
        p <-- preceding andbeyond ;;
        set_preceding andbeyond (Z.lor w (Z.land p MM_ALLOC_BIT)) ;;;
        mm_addfreechunk newnode
   else s <-- node_size oldnode ;;
        p <-- preceding andbeyond ;;
        set_preceding andbeyond (Z.lor s (Z.land p MM_ALLOC_BIT)))%cmd.

(** The size of a chunk when it is free, and 0 otherwise. *)
Definition free_size (node : Z) : M heap Z :=
  (p <-- preceding node ;;
   if Z.land p MM_ALLOC_BIT =? 0 then node_size node else ret 0)%cmd.

(** The block does not fit where it is: allocate, copy and release. *)
Definition realloc_move (oldmem oldsize sz : Z) : M heap Z :=
  (mm_givesemaphore ;;;
   newmem <-- mm_malloc sz ;;
   when (negb (newmem =? NULL)) (memcpy newmem oldmem oldsize ;;; mm_free oldmem) ;;;
   ret newmem)%cmd.

Definition mm_realloc (oldmem size : Z) : M heap Z :=
  (if oldmem =? NULL then mm_malloc size
   else if size <? 1 then mm_free oldmem ;;; ret NULL
   else
     let sz := chunk_size size in
     let oldnode := u32 (oldmem - SIZEOF_MM_ALLOCNODE) in
     mm_takesemaphore ;;;
     oldsize <-- node_size oldnode ;;
     if sz <=? oldsize
     then when (sz <? oldsize) (mm_shrinkchunk oldnode sz) ;;;
          mm_givesemaphore ;;;
          ret oldmem
     else
       let next := u32 (oldnode + oldsize) in
       nextsize <-- free_size next ;;
       d <-- preceding oldnode ;;
       let prev := u32 (oldnode - Z.land d (Z.lnot MM_ALLOC_BIT)) in
       prevsize <-- free_size prev ;;
       if sz <=? u32 (nextsize + prevsize + oldsize)
       then
         let take := take_sizes (u32 (sz - oldsize)) prevsize nextsize in
         ns <-- (if negb (take.1 =? 0)
                 then extend_prev oldnode oldsize prev next prevsize take.1 oldmem
                 else ret (oldnode, oldsize)) ;;
         when (negb (take.2 =? 0)) (extend_next ns.1 ns.2 next nextsize take.2) ;;;
         mm_givesemaphore ;;;
         ret (if negb (take.1 =? 0) then u32 (ns.1 + SIZEOF_MM_ALLOCNODE) else oldmem)
       else realloc_move oldmem oldsize sz)%cmd.

(** ** Aligned allocation *)

(** Free the part of a chunk that lies before the aligned one; the result is
    the aligned chunk, its node and the size it can hold. *)
Definition split_front (alignment rawchunk node alignedchunk : Z) : M heap (Z * Z * Z) :=
  (s <-- node_size node ;;
   let next := u32 (node + s) in
   assert_ (u32 (rawchunk + 8) <=? alignedchunk) ;;;
   let short := u32 (u32 (alignedchunk - SIZEOF_MM_ALLOCNODE) - node) <? SIZEOF_MM_FREENODE in
   let alignedchunk := if short then u32 (alignedchunk + alignment) else alignedchunk in
   let newnode := u32 (alignedchunk - SIZEOF_MM_ALLOCNODE) in
   let precedingsize := u32 (newnode - node) in
   set_size newnode (u32 (next - newnode)) ;;;
   set_preceding newnode (Z.lor precedingsize MM_ALLOC_BIT) ;;;
   set_size node precedingsize ;;;
   p <-- preceding node ;;
   set_preceding node (Z.land p (Z.lnot MM_ALLOC_BIT)) ;;;
   w <-- node_size newnode ;;
   p <-- preceding next ;;
   set_preceding next (Z.lor w (Z.land p MM_ALLOC_BIT)) ;;;
   w <-- node_size newnode ;;
   mm_addfreechunk node ;;;
   ret (alignedchunk, newnode, u32 (w - SIZEOF_MM_ALLOCNODE)))%cmd.

Definition mm_memalign (alignment size : Z) : M heap Z :=
  (let mask := u32 (alignment - 1) in
   if alignment <=? MM_MIN_CHUNK then mm_malloc size
   else
     let size := MM_ALIGN_UP size in
     let allocsize := u32 (size + 2 * alignment) in
     rawchunk <-- mm_malloc allocsize ;;
     if rawchunk =? 0 then ret NULL
     else
       mm_takesemaphore ;;;
       let node := u32 (rawchunk - SIZEOF_MM_ALLOCNODE) in
       let alignedchunk := Z.land (u32 (rawchunk + mask)) (Z.lnot mask) in
       r <-- (if negb (alignedchunk =? rawchunk)
              then split_front alignment rawchunk node alignedchunk
              else ret (alignedchunk, node, allocsize)) ;;
       let '(alignedchunk, node, allocsize) := r in
       when (size <? allocsize)
         (mm_shrinkchunk node (u32 (size + SIZEOF_MM_ALLOCNODE))) ;;;
       mm_givesemaphore ;;;
       ret alignedchunk)%cmd.

(** ** Growing the heap *)

Definition mm_extend (m size region : Z) : M heap unit :=
  (assert_ (negb (m =? NULL)) ;;;
   assert_ ((MIN_EXTEND <=? size) && (region =? 0)) ;;;
   let blockend := u32 (m + size) in
   assert_ (MM_ALIGN_UP m =? m) ;;;
   assert_ (MM_ALIGN_DOWN blockend =? blockend) ;;;
   mm_takesemaphore ;;;
   oldnode <-- gets mm_heapend ;;
   assert_ (u32 (oldnode + SIZEOF_MM_ALLOCNODE) =? m) ;;;
   set_size oldnode size ;;;
   p <-- preceding oldnode ;;
   assert_ (negb (Z.land p MM_ALLOC_BIT =? 0)) ;;;
   let newnode := u32 (blockend - SIZEOF_MM_ALLOCNODE) in
   set_size newnode SIZEOF_MM_ALLOCNODE ;;;
   s <-- node_size oldnode ;;
   set_preceding newnode (Z.lor s MM_ALLOC_BIT) ;;;
   modify (set_heapend newnode) ;;;
   mm_givesemaphore ;;;
   mm_free m)%cmd.

(** ** Statistics *)

(** [visit_nodes] keeps the unsigned counters in the same record. *)
Record mallinfo : Type := mkmallinfo
  { arena : Z; ordblks : Z; mxordblk : Z; uordblks : Z; fordblks : Z }.

Fixpoint visit_nodes (n : nat) (node : Z) (i : mallinfo) : M heap (Z * mallinfo) :=
  match n with
  | O => fail_ub NoFuel
  | S n =>
    (heapend <-- gets mm_heapend ;;
     if node <? heapend
     then s <-- node_size node ;;
          p <-- preceding node ;;
          i <-- (if negb (Z.land p MM_ALLOC_BIT =? 0)
                 then ret (mkmallinfo (arena i) (ordblks i) (mxordblk i)
                             (u32 (uordblks i + s)) (fordblks i))
                 else c <-- incr_int (ordblks i) ;;
                      ret (mkmallinfo (arena i) c
                             (if mxordblk i <? s then s else mxordblk i)
                             (uordblks i) (u32 (fordblks i + s)))) ;;
          visit_nodes n (u32 (node + s)) i
     else ret (node, i))%cmd
  end.

Definition mm_mallinfo : M heap mallinfo :=
  (mm_takesemaphore ;;;
   n <-- gets fuel ;;
   start <-- gets mm_heapstart ;;
   r <-- visit_nodes n start (mkmallinfo 0 0 0 0 0) ;;
   mm_givesemaphore ;;;
   heapend <-- gets mm_heapend ;;
   assert_ (r.1 =? heapend) ;;;
   let used := u32 (uordblks r.2 + SIZEOF_MM_ALLOCNODE) in
   heapsize <-- gets mm_heapsize ;;
   assert_ (u32 (used + fordblks r.2) =? heapsize) ;;;
   ret (mkmallinfo (i32 heapsize) (ordblks r.2) (i32 (mxordblk r.2)) (i32 used)
          (i32 (fordblks r.2))))%cmd.

End Heap.
