(* ===== verification/HeapRep.v ===== *)
(** * The heap as lists

    The representation of the memory manager of [Heap]: the chunks of the
    region one after the other, and the free list with the hooks that lead
    into it.  The lemmas say what the two list routines of the manager,
    [unlink] and [mm_addfreechunk], and its two searches do to a free list;
    the theorems on the operations build on them. *)

From S2P Require Import Prelude Queue Heap.

Module HeapRep.
Import Heap.

(** ** The word [preceding]: a size and the allocation bit *)

Definition tag (p : Z) (u : bool) : Z := if u then p + MM_ALLOC_BIT else p.

Lemma land_low p : 0 ≤ p < MM_ALLOC_BIT → Z.land p MM_ALLOC_BIT = 0.
Proof.
  intros Hp. apply Z.bits_inj'. intros i Hi.
  rewrite Z.land_spec, Z.bits_0. change MM_ALLOC_BIT with (2 ^ 31).
  rewrite Z.pow2_bits_eqb by lia. destruct (31 =? i) eqn:E; [|apply andb_false_r].
  apply Z.eqb_eq in E as <-. rewrite andb_true_r.
  rewrite Z.testbit_eqb by lia. rewrite Z.div_small by exact Hp. done.
Qed.

Lemma lor_bit p : 0 ≤ p < MM_ALLOC_BIT → Z.lor p MM_ALLOC_BIT = tag p true.
Proof.
  intros Hp. unfold tag. rewrite <- Z.lxor_lor by by apply land_low.
  by rewrite <- Z.add_nocarry_lxor by by apply land_low.
Qed.

Lemma tag_bit p u : 0 ≤ p < MM_ALLOC_BIT →
  Z.land (tag p u) MM_ALLOC_BIT = if u then MM_ALLOC_BIT else 0.
Proof.
  intros Hp. destruct u; [|by apply land_low].
  rewrite <- lor_bit by done. rewrite Z.land_lor_distr_l, land_low by done.
  by rewrite Z.lor_0_l, Z.land_diag.
Qed.

Lemma tag_test p u : 0 ≤ p < MM_ALLOC_BIT → (Z.land (tag p u) MM_ALLOC_BIT =? 0) = negb u.
Proof. intros Hp. rewrite tag_bit by done. by destruct u. Qed.

Lemma retag p q u : 0 ≤ p < MM_ALLOC_BIT → 0 ≤ q < MM_ALLOC_BIT →
  Z.lor p (Z.land (tag q u) MM_ALLOC_BIT) = tag p u.
Proof.
  intros Hp Hq. rewrite tag_bit by done. destruct u; [by apply lor_bit|apply Z.lor_0_r].
Qed.

Lemma tag_set p u : 0 ≤ p < MM_ALLOC_BIT → Z.lor (tag p u) MM_ALLOC_BIT = tag p true.
Proof.
  intros Hp. destruct u; [|by apply lor_bit].
  by rewrite <- lor_bit by done; rewrite <- Z.lor_assoc, Z.lor_diag.
Qed.

Lemma tag_clear p u : 0 ≤ p < MM_ALLOC_BIT → Z.land (tag p u) (Z.lnot MM_ALLOC_BIT) = p.
Proof.
  intros Hp.
  assert (Z.land p (Z.lnot MM_ALLOC_BIT) = p) as E.
  { rewrite <- (Z.lor_ldiff_and p MM_ALLOC_BIT) at 2.
    by rewrite land_low, Z.lor_0_r, Z.ldiff_land. }
  destruct u; [|done]. rewrite <- lor_bit by done.
  by rewrite Z.land_lor_distr_l, E, Z.land_lnot_diag, Z.lor_0_r.
Qed.

(** ** Rounding *)

Lemma align_up_eq a : 0 ≤ a → a + 15 < 2 ^ 32 → MM_ALIGN_UP a = 16 * ((a + 15) / 16).
Proof.
  intros H1 H2. unfold MM_ALIGN_UP. change MM_GRAN_MASK with (Z.ones 4).
  change (Z.ones 4) with 15 at 1. rewrite u32_small by lia.
  rewrite <- Z.ldiff_land, Z.ldiff_ones_r by lia.
  rewrite Z.shiftl_mul_pow2, Z.shiftr_div_pow2 by lia. change (2 ^ 4) with 16. lia.
Qed.

Lemma align_down_eq a : 0 ≤ a → MM_ALIGN_DOWN a = 16 * (a / 16).
Proof.
  intros H1. unfold MM_ALIGN_DOWN. change MM_GRAN_MASK with (Z.ones 4).
  rewrite <- Z.ldiff_land, Z.ldiff_ones_r by lia.
  rewrite Z.shiftl_mul_pow2, Z.shiftr_div_pow2 by lia. change (2 ^ 4) with 16. lia.
Qed.

(** ** The bucket of a size *)

Lemma halvings_bounds n s k : 1 ≤ s < 2 ^ Z.of_nat n →
  let r := halvings n s k - k in 0 ≤ r ∧ 2 ^ r ≤ s < 2 ^ (r + 1).
Proof.
  revert s k. induction n as [|n IH]; intros s k Hs; cbn [halvings].
  { simpl in Hs. lia. }
  destruct (1 <? s) eqn:E; zify_bools.
  - rewrite Z.shiftr_div_pow2 by lia. change (2 ^ 1) with 2.
    rewrite Nat2Z.inj_succ, Z.pow_succ_r in Hs by lia.
    destruct (IH (s / 2) (k + 1)) as (H1 & H2 & H3).
    { split; [apply Z.div_le_lower_bound; lia|apply Z.div_lt_upper_bound; lia]. }
    set (r := halvings n (s / 2) (k + 1)) in *. cbv zeta.
    replace (r - k) with (Z.succ (r - (k + 1))) by lia.
    generalize dependent (r - (k + 1)). clear r. intros q H1 H2 H3.
    rewrite Z.pow_add_r in H3 by lia. rewrite Z.pow_add_r, Z.pow_succ_r by lia.
    pose proof (Z.div_mod s 2). pose proof (Z.mod_pos_bound s 2). lia.
  - replace (k - k) with 0 by lia. simpl. lia.
Qed.

Lemma size2ndx_bounds s : 16 ≤ s →
  let i := mm_size2ndx s in
  0 ≤ i < MM_NNODES ∧ 2 ^ (4 + i) ≤ s ∧ (i < MM_NNODES - 1 → s < 2 ^ (5 + i)).
Proof.
  intros Hs. unfold mm_size2ndx. change MM_MAX_CHUNK with (2 ^ 22). change MM_NNODES with 19.
  destruct (2 ^ 22 <=? s) eqn:E; zify_bools; [cbn; lia|].
  rewrite Z.shiftr_div_pow2 by (compute; discriminate).
  change (2 ^ MM_MIN_SHIFT) with 16.
  destruct (halvings_bounds 32 (s / 16) 0) as (H1 & H2 & H3).
  { split; [apply Z.div_le_lower_bound; lia|apply Z.div_lt_upper_bound; simpl; lia]. }
  set (r := halvings 32 (s / 16) 0) in *. rewrite Z.sub_0_r in H1, H2, H3. cbv zeta.
  rewrite Z.pow_add_r in H3 by lia. rewrite !Z.pow_add_r by lia.
  assert (r < 18).
  { apply (Z.pow_lt_mono_r_iff 2); [lia..|].
    assert (s / 16 < 2 ^ 18) by (apply Z.div_lt_upper_bound; lia). lia. }
  pose proof (Z.div_mod s 16). pose proof (Z.mod_pos_bound s 16). lia.
Qed.

(** ** Memory rules

    The memory of a state is kept apart from the rest of it. *)

Lemma set_mem_id h : set_mem (mem h) h = h.
Proof. by destruct h. Qed.

Lemma wp_load a v Q m h :
  0 < a → m !! a = Some v → wp (load a) Q (set_mem m h) = Q v (set_mem m h).
Proof.
  intros Ha E. unfold wp, load. rewrite (proj2 (Z.eqb_neq a NULL)) by (unfold NULL; lia).
  simpl. by rewrite E.
Qed.

Lemma wp_store a v Q m h :
  0 < a → is_Some (m !! a) →
  wp (store a v) Q (set_mem m h) = Q tt (set_mem (<[a := v]> m) h).
Proof. intros Ha [w E]. unfold store. by rewrite wp_bind, (wp_load a w). Qed.

(** Nodes that do not overlap. *)
Definition spread (l : list Z) : Prop :=
  ∀ x y, x ∈ l → y ∈ l → x = y ∨ x + 16 ≤ y ∨ y + 16 ≤ x.

Lemma spread_sub l l' : l' ⊆ l → spread l → spread l'.
Proof. intros Hs Hl x y Hx Hy. apply Hl; by apply Hs. Qed.

(** [m'] differs from [m] in the links of the nodes [l] only. *)
Definition links_only (l : list Z) (m m' : gmap Z Z) : Prop :=
  (∀ a, (∀ y, y ∈ l → a ≠ y + 8 ∧ a ≠ y + 12) → m' !! a = m !! a) ∧
  (∀ a, is_Some (m !! a) → is_Some (m' !! a)).

Lemma links_only_insert l m m' x a v :
  links_only l m m' → x ∈ l → a = x + 8 ∨ a = x + 12 →
  links_only l m (<[a := v]> m').
Proof.
  intros [H1 H2] Hx Ha. split.
  - intros b Hb. rewrite lookup_insert_ne; [by apply H1|].
    destruct (Hb x Hx). by destruct Ha as [->| ->].
  - intros b Hb. apply lookup_insert_is_Some'. right. by apply H2.
Qed.

Lemma links_only_refl l m : links_only l m m.
Proof. done. Qed.

(** ** Doubly linked segments *)

Fixpoint dseg (m : gmap Z Z) (b p : Z) (l : list Z) (e n : Z) : Prop :=
  match l with
  | [] => p = n ∧ e = b
  | x :: l =>
    p = x ∧ 0 < x ∧ m !! (x + 12) = Some b ∧
    ∃ nx, m !! (x + 8) = Some nx ∧ dseg m x nx l e n
  end.

Lemma dseg_app m b p l1 l2 e n :
  dseg m b p (l1 ++ l2) e n ↔ ∃ c r, dseg m b p l1 c r ∧ dseg m c r l2 e n.
Proof.
  revert b p. induction l1 as [|x l1 IH]; intros b p; simpl.
  - split; [eauto|]. by intros (c & r & [-> ->] & ?).
  - setoid_rewrite IH. naive_solver.
Qed.

Lemma dseg_frame m m' b p l e n :
  dseg m b p l e n →
  (∀ x, x ∈ l → m' !! (x + 8) = m !! (x + 8) ∧ m' !! (x + 12) = m !! (x + 12)) →
  dseg m' b p l e n.
Proof.
  revert b p. induction l as [|x l IH]; intros b p; simpl; [done|].
  intros (-> & ? & Hb & nx & Hn & Hs) Hm.
  destruct (Hm x) as [E1 E2]; [by left|]. split_and!; [done|done|by rewrite E2|].
  exists nx. rewrite E1. split; [done|]. apply IH; [done|]. intros y Hy. apply Hm. by right.
Qed.

Lemma dseg_pos m b p l e n x : dseg m b p l e n → x ∈ l → 0 < x.
Proof.
  revert b p. induction l as [|y l IH]; intros b p; simpl; [by intros _ ?%elem_of_nil|].
  intros (-> & ? & Hb & nx & Hn & Hs) [->|Hx]%elem_of_cons; eauto.
Qed.

(** The memory in which the node [n], if there is one, has [y] before it. *)
Definition reback (m : gmap Z Z) (n y : Z) : gmap Z Z :=
  if n =? NULL then m else <[n + 12 := y]> m.

Lemma dseg_reback m x y nx l e :
  dseg m x nx l e NULL → NoDup l → spread l →
  ∃ e', dseg (reback m nx y) y nx l e' NULL.
Proof.
  intros Hs Hd Hl. unfold reback. destruct l as [|z l]; simpl in *.
  - destruct Hs as [-> ->]. by exists y.
  - destruct Hs as (-> & Hz & Hb & n' & Hn & Hs). exists e.
    rewrite (proj2 (Z.eqb_neq z NULL)) by (unfold NULL; lia).
    apply NoDup_cons in Hd as [Hzl Hd].
    split_and!; [done|done|by rewrite lookup_insert_eq|].
    exists n'. rewrite lookup_insert_ne by lia. split; [done|].
    eapply dseg_frame; [exact Hs|]. intros w Hw.
    assert (w ≠ z) by (intros ->; done).
    destruct (Hl z w) as [?|?]; [by left|by right|done|].
    by rewrite !lookup_insert_ne by lia.
Qed.

Lemma reback_links l m m' n y :
  links_only l m m' → n = NULL ∨ n ∈ l → links_only l m (reback m' n y).
Proof.
  intros H Hn. unfold reback. destruct (n =? NULL) eqn:E; [done|].
  zify_bools. destruct Hn as [->|Hn]; [done|]. eapply links_only_insert; eauto.
Qed.

Lemma wp_set_blink n y Q m h :
  n = NULL ∨ 0 < n ∧ is_Some (m !! (n + 12)) →
  wp (when (negb (n =? NULL)) (set_blink n y)) Q (set_mem m h) = Q tt (set_mem (reback m n y) h).
Proof.
  intros Hn. unfold reback. destruct (n =? NULL) eqn:E; [done|].
  zify_bools. destruct Hn as [->|[? ?]]; [done|]. simpl. unfold set_blink.
  by rewrite wp_store by (done || lia).
Qed.

Lemma dseg_next m b p l e : dseg m b p l e NULL → p = NULL ∨ 0 < p ∧ p ∈ l ∧ is_Some (m !! (p + 12)).
Proof.
  destruct l; simpl; [by intros [-> ?]; left|].
  intros (-> & ? & H & _). right. split_and!; [done|by left|by rewrite H].
Qed.

(** Two nodes of a list without duplicates do not overlap. *)
Lemma spread_apart l x y : spread l → x ∈ l → y ∈ l → x ≠ y → x + 16 ≤ y ∨ y + 16 ≤ x.
Proof. intros Hl Hx Hy Hn. destruct (Hl x y); tauto. Qed.

Lemma reback_ne m n y a : (n = NULL ∨ a ≠ n + 12) → reback m n y !! a = m !! a.
Proof.
  intros H. unfold reback. destruct (n =? NULL) eqn:E; [done|]. zify_bools.
  rewrite lookup_insert_ne; naive_solver.
Qed.

Lemma dseg_sub m b p l e n : dseg m b p l e n → n = NULL → p = NULL ∨ p ∈ l.
Proof. destruct l; simpl; [intros [-> _] ->; by left|intros [-> _]; right; by left]. Qed.

(** Linking a node [y] and a list behind it in both directions. *)
Lemma dseg_join m p l0 c y b nx l2 e :
  dseg m NULL p l0 c y → 0 < y → m !! (y + 12) = Some c → dseg m b nx l2 e NULL →
  NoDup (l0 ++ y :: l2) → spread (l0 ++ y :: l2) →
  ∃ e', dseg (reback (<[y + 8 := nx]> m) nx y) NULL p (l0 ++ y :: l2) e' NULL.
Proof.
  intros H1 Hy Hyb H2 Hd Hl.
  apply NoDup_app in Hd as (Hd0 & Hd1 & Hd2). apply NoDup_cons in Hd2 as [Hyn Hd2].
  assert (∀ w, w ∈ l2 → w + 16 ≤ y ∨ y + 16 ≤ w) as Hl2.
  { intros w Hw. apply (spread_apart _ _ _ Hl); [set_solver..|]. intros ->. tauto. }
  assert (∀ w, w ∈ l0 → (w + 16 ≤ y ∨ y + 16 ≤ w) ∧ ∀ z, z ∈ l2 → w + 16 ≤ z ∨ z + 16 ≤ w) as Hl0.
  { intros w Hw. split.
    - apply (spread_apart _ _ _ Hl); [set_solver..|]. intros ->. apply (Hd1 y Hw). by left.
    - intros z Hz. apply (spread_apart _ _ _ Hl); [set_solver..|].
      intros ->. apply (Hd1 z Hw). by right. }
  pose proof (dseg_sub _ _ _ _ _ _ H2 eq_refl) as Hnx.
  assert (dseg (<[y + 8 := nx]> m) b nx l2 e NULL) as H3.
  { eapply dseg_frame; [exact H2|]. intros w Hw. specialize (Hl2 w Hw).
    by rewrite !lookup_insert_ne by lia. }
  destruct (dseg_reback _ _ y _ _ _ H3) as [e' H4]; [done|eapply spread_sub, Hl; set_solver|].
  exists e'. apply dseg_app. exists c, y. split.
  - eapply dseg_frame; [exact H1|]. intros w [Hw1 Hw2]%Hl0.
    rewrite !reback_ne, !lookup_insert_ne; [done|lia|lia| |];
      destruct Hnx as [?|Hnx]; [by left|specialize (Hw2 _ Hnx); lia|by left|specialize (Hw2 _ Hnx); lia].
  - assert (∀ k, k = 8 ∨ k = 12 → nx = NULL ∨ y + k ≠ nx + 12) as Ek.
    { intros k Hk. destruct Hnx as [?|Hnx]; [by left|]. specialize (Hl2 _ Hnx). lia. }
    simpl. rewrite !reback_ne by (apply Ek; tauto).
    rewrite lookup_insert_eq, lookup_insert_ne by lia. eauto 10.
Qed.

Lemma join_links l m y nx :
  y ∈ l → nx = NULL ∨ nx ∈ l → links_only l m (reback (<[y + 8 := nx]> m) nx y).
Proof.
  intros Hy Hn. apply reback_links; [|done].
  eapply (links_only_insert _ _ _ y); [apply links_only_refl|done|by left].
Qed.

Lemma wp_unlink l1 x l2 p e Q m h :
  dseg m NULL p (l1 ++ x :: l2) e NULL → NoDup (l1 ++ x :: l2) → spread (l1 ++ x :: l2) →
  l1 ≠ [] →
  (∀ m' e', dseg m' NULL p (l1 ++ l2) e' NULL → links_only (l1 ++ l2) m m' →
    Q tt (set_mem m' h)) →
  wp (unlink x) Q (set_mem m h).
Proof.
  intros Hs Hd Hl Hl1 HQ. destruct l1 as [|y l0 _] using rev_ind; [done|clear Hl1].
  rewrite <- !app_assoc in *. simpl in *.
  apply dseg_app in Hs as (c & r & H1 & H2). simpl in H2.
  destruct H2 as (-> & Hy & Hyb & ? & Hyf & -> & Hx & Hxb & nx & Hxf & H2).
  assert (x + 16 ≤ y ∨ y + 16 ≤ x) as Hxy.
  { apply (spread_apart _ _ _ Hl); [set_solver..|]. intros ->.
    apply NoDup_app in Hd as (_ & _ & Hd). apply NoDup_cons in Hd. set_solver. }
  assert (NoDup (l0 ++ y :: l2)) as Hd'.
  { eapply sublist_NoDup; [exact Hd|]. by apply sublist_app, sublist_skip, sublist_cons. }
  assert (spread (l0 ++ y :: l2)) as Hl' by (eapply spread_sub, Hl; set_solver).
  destruct (dseg_join _ _ _ _ _ _ _ _ _ H1 Hy Hyb H2 Hd' Hl') as [e' H3].
  pose proof (dseg_next _ _ _ _ _ H2) as Hnx.
  unfold unlink, blink, flink, set_flink.
  rewrite wp_bind, (wp_load _ y) by (done || lia).
  rewrite wp_bind, wp_assert by (apply negb_true_iff, Z.eqb_neq; unfold NULL; lia).
  rewrite wp_bind, (wp_load _ nx) by (done || lia).
  rewrite wp_bind, wp_store by (done || lia).
  rewrite wp_bind, (wp_load _ nx); [|lia|by rewrite lookup_insert_ne by lia].
  assert (wp (when (negb (nx =? NULL)) (set_blink nx y)) Q
    (set_mem (<[y + 8 := nx]> m) h)) as G.
  { rewrite wp_set_blink.
    - apply (HQ _ e' H3). apply join_links; set_solver.
    - rewrite lookup_insert_is_Some'. naive_solver. }
  destruct (negb (nx =? NULL)); [|exact G]. simpl in *. unfold blink.
  rewrite wp_bind, (wp_load _ y); [exact G|lia|]. by rewrite lookup_insert_ne by lia.
Qed.

(** ** The free list

    An entry is a node with a key: the size of a free chunk; for a hook, a
    number just below the sizes of its bucket.  The list is sorted by keys. *)

Definition hook_nodes (nl : Z) : list (Z * Z) :=
  (λ i, (nl + SIZEOF_MM_FREENODE * i, 2 ^ (4 + i) - 1)) <$> seqZ 0 MM_NNODES.

Definition key_le (x y : Z * Z) : Prop := x.2 ≤ y.2.

Definition entry_ok (m : gmap Z Z) (nl : Z) (p : Z * Z) : Prop :=
  p ∈ hook_nodes nl ∧ m !! p.1 = Some 0 ∨
  (¬ (p ∈ hook_nodes nl) ∧ 16 ≤ p.2) ∧ m !! p.1 = Some p.2.

Record flist (m : gmap Z Z) (nl : Z) (fl : list (Z * Z)) : Prop := mkflist {
  fl_links : ∃ e, dseg m NULL nl fl.*1 e NULL;
  fl_sorted : StronglySorted key_le fl;
  fl_nodup : NoDup fl.*1;
  fl_spread : spread fl.*1;
  fl_sizes : ∀ p, p ∈ fl → entry_ok m nl p;
  fl_hooks : hook_nodes nl ⊆ fl }.

Lemma hook_nodes_elem nl p :
  p ∈ hook_nodes nl ↔ ∃ i, 0 ≤ i < MM_NNODES ∧ p = (nl + 16 * i, 2 ^ (4 + i) - 1).
Proof.
  unfold hook_nodes. rewrite list_elem_of_fmap.
  split; intros (i & H1 & H2); exists i; [apply elem_of_seqZ in H2|rewrite elem_of_seqZ]; naive_solver lia.
Qed.

(** The loop of [mm_addfreechunk] passes the nodes with smaller sizes up to
    the next hook. *)
Lemma find_place_spec m nl sz h l n prev next e :
  dseg m prev next l.*1 e NULL → (length l < n)%nat → (∀ p, p ∈ l → entry_ok m nl p) →
  wp (find_place n sz prev next) (λ r s, s = set_mem m h ∧ ∃ la lb, l = la ++ lb ∧
    dseg m prev next la.*1 r.1 r.2 ∧ dseg m r.1 r.2 lb.*1 e NULL ∧
    (∀ p, p ∈ la → p.2 < sz) ∧
    (∀ p lb', lb = p :: lb' → p ∈ hook_nodes nl ∨ sz ≤ p.2)) (set_mem m h).
Proof.
  revert prev next n. induction l as [|[x k] l IH]; intros prev next n Hs Hn Hok;
    (destruct n as [|n]; [simpl in Hn; lia|]); cbn [find_place].
  - destruct Hs as [-> ->]. rewrite Z.eqb_refl, wp_ret. split; [done|].
    exists [], []. split_and!; try done. by intros p ?%elem_of_nil.
  - destruct Hs as (-> & Hx & Hb & nx & Hf & Hs). cbn [fst] in *.
    rewrite (proj2 (Z.eqb_neq x NULL)) by (unfold NULL; lia).
    assert (entry_ok m nl (x, k)) as Hok1 by (apply Hok; by left).
    assert (∃ s, m !! x = Some s ∧
      (negb (s =? 0) && (s <? sz) = true → k < sz) ∧
      (negb (s =? 0) && (s <? sz) = false → (x, k) ∈ hook_nodes nl ∨ sz ≤ k)) as (s & E & Ht & Hf').
    { destruct Hok1 as [[? E]|[? E]]; eexists; (split; [exact E|]); simpl in *; [naive_solver|lia]. }
    unfold node_size. rewrite wp_bind, (wp_load _ s) by done.
    destruct (negb (s =? 0) && (s <? sz)) eqn:Ec.
    + unfold flink. rewrite wp_bind, (wp_load _ nx) by (done || lia).
      eapply wp_mono; [apply (IH x nx n Hs); [simpl in Hn; lia|intros p Hp; apply Hok; by right]|].
      intros [r1 r2] s' (-> & la & lb & -> & H1 & H2 & H3 & H4). split; [done|].
      exists ((x, k) :: la), lb. split_and!; [done| |done| |done].
      * simpl. split_and!; [done..|]. by exists nx.
      * intros p [->|Hp]%elem_of_cons; [simpl; by apply Ht|by apply H3].
    + rewrite wp_ret. split; [done|]. exists [], ((x, k) :: l). split_and!; [done..| | |].
      * simpl. split_and!; [done..|]. by exists nx.
      * by intros p ?%elem_of_nil.
      * intros p lb' [= <- <-]. simpl. by apply Hf'.
Qed.

Lemma flist_fuel m nl fl h : flist m nl fl → (length fl < fuel (set_mem m h))%nat.
Proof.
  intros H. unfold fuel. simpl. apply Nat.lt_succ_r. rewrite <- (length_fmap fst).
  rewrite <- size_dom, <- (size_list_to_set (C := gset Z) fl.*1) by apply H.
  apply subseteq_size. intros x Hx%elem_of_list_to_set.
  apply list_elem_of_fmap in Hx as (p & -> & Hp). apply elem_of_dom.
  destruct (fl_sizes _ _ _ H p Hp) as [[_ E]|[_ E]]; by rewrite E.
Qed.

Lemma flist_frame m m' nl fl :
  flist m nl fl →
  (∀ x, x ∈ fl.*1 → m' !! x = m !! x ∧ m' !! (x + 8) = m !! (x + 8) ∧ m' !! (x + 12) = m !! (x + 12)) →
  flist m' nl fl.
Proof.
  intros [[e H1] H2 H3 H4 H5 H6] Hm. split; [|done..| |done].
  - exists e. eapply dseg_frame; [exact H1|]. intros x Hx. by apply Hm.
  - intros p Hp. unfold entry_ok. destruct (Hm p.1) as [-> _].
    { apply list_elem_of_fmap. eauto. }
    by apply H5.
Qed.

Lemma dseg_retail m b p l e n n' :
  dseg m b p l e n → l ≠ [] → NoDup l → spread l → dseg (<[e + 8 := n']> m) b p l e n'.
Proof.
  intros H Hl Hd Hs. destruct l as [|y l _] using rev_ind; [done|].
  apply dseg_app in H as (c & r & H1 & H2). destruct H2 as (-> & Hy & Hb & nx & Hf & -> & ->).
  apply NoDup_app in Hd as (_ & Hd & _).
  apply dseg_app. exists c, y. split.
  - eapply dseg_frame; [exact H1|]. intros w Hw.
    assert (w + 16 ≤ y ∨ y + 16 ≤ w).
    { apply (spread_apart _ _ _ Hs); [set_solver..|]. intros ->. apply (Hd y Hw). by left. }
    by rewrite !lookup_insert_ne by lia.
  - simpl. rewrite lookup_insert_ne, lookup_insert_eq by lia. eauto 10.
Qed.

(** A node of a size goes after the smaller entries and before the others. *)
Lemma add_sorted l1 (x sz : Z) l2 :
  StronglySorted key_le (l1 ++ l2) → (∀ p, p ∈ l1 → p.2 ≤ sz) → (∀ p, p ∈ l2 → sz ≤ p.2) →
  StronglySorted key_le (l1 ++ (x, sz) :: l2).
Proof.
  intros (Ha & Hb & Hc)%StronglySorted_app H1 H2.
  apply StronglySorted_app_2; [|done|apply StronglySorted_cons; split; [by apply Forall_forall|done]].
  intros p q Hp [->|Hq]%elem_of_cons; [by apply H1|by apply Ha].
Qed.

Lemma place_keys nl i f1 la lb sz :
  StronglySorted key_le (f1 ++ (nl + 16 * i, 2 ^ (4 + i) - 1) :: la ++ lb) →
  NoDup (f1 ++ (nl + 16 * i, 2 ^ (4 + i) - 1) :: la ++ lb).*1 →
  0 ≤ i < MM_NNODES → 2 ^ (4 + i) ≤ sz → (i < MM_NNODES - 1 → sz < 2 ^ (5 + i)) →
  (∀ p, p ∈ la → p.2 < sz) →
  (∀ p lb', lb = p :: lb' → p ∈ hook_nodes nl ∨ sz ≤ p.2) →
  (∀ p, p ∈ f1 ++ (nl + 16 * i, 2 ^ (4 + i) - 1) :: la → p.2 ≤ sz) ∧ (∀ p, p ∈ lb → sz ≤ p.2).
Proof.
  intros Hs Hd Hi Hlo Hhi Ha Hb. apply StronglySorted_app in Hs as (Hs1 & _ & Hs2).
  apply StronglySorted_cons in Hs2 as (Hs2 & Hs3). rewrite Forall_forall in Hs2.
  apply StronglySorted_app in Hs3 as (_ & _ & Hs3). split.
  - intros p [Hp|[->|Hp]%elem_of_cons]%elem_of_app.
    + specialize (Hs1 p _ Hp (list_elem_of_here _ _)). unfold key_le in Hs1. simpl in Hs1. lia.
    + simpl. lia.
    + specialize (Ha p Hp). lia.
  - destruct lb as [|q lb]; [by intros p ?%elem_of_nil|].
    assert (sz ≤ q.2) as Hq.
    { destruct (Hb q lb eq_refl) as [Hq|Hq]; [|done].
      apply hook_nodes_elem in Hq as (j & Hj & ->). cbn [snd].
      specialize (Hs2 (nl + 16 * j, 2 ^ (4 + j) - 1)). unfold key_le in Hs2. cbn [snd] in Hs2.
      assert (i ≠ j).
      { intros <-. rewrite fmap_app, fmap_cons in Hd.
        apply NoDup_app in Hd as (_ & _ & Hd). apply NoDup_cons in Hd as [Hd _].
        apply Hd. rewrite fmap_app. set_solver. }
      assert (i < j).
      { assert (2 ^ (4 + i) ≤ 2 ^ (4 + j)) as Hle by (assert (2 ^ (4 + i) - 1 ≤ 2 ^ (4 + j) - 1) by (apply Hs2; set_solver); lia).
        apply Z.pow_le_mono_r_iff in Hle; lia. }
      assert (2 ^ (5 + i) ≤ 2 ^ (4 + j)) by (apply Z.pow_le_mono_r; lia).
      assert (sz < 2 ^ (5 + i)) by (apply Hhi; lia). lia. }
    apply StronglySorted_cons in Hs3 as (Hs3 & _). rewrite Forall_forall in Hs3.
    intros p [->|Hp]%elem_of_cons; [done|]. specialize (Hs3 p Hp). unfold key_le in Hs3. lia.
Qed.

(** Writing the links of a new node between the two nodes the search found. *)
Lemma wp_link_in m p l1 l2 pr nxt e x Q h :
  dseg m NULL p l1 pr nxt → dseg m pr nxt l2 e NULL → l1 ≠ [] → 0 < pr → 0 < x →
  NoDup (l1 ++ x :: l2) → spread (l1 ++ x :: l2) →
  is_Some (m !! (pr + 8)) → is_Some (m !! (x + 8)) → is_Some (m !! (x + 12)) → pr ∈ l1 →
  (∀ m' e', dseg m' NULL p (l1 ++ x :: l2) e' NULL → links_only (l1 ++ x :: l2) m m' →
    Q tt (set_mem m' h)) →
  wp (set_flink pr x ;;; set_blink x pr ;;; set_flink x nxt ;;;
      when (negb (nxt =? NULL)) (set_blink nxt x))%cmd Q (set_mem m h).
Proof.
  intros H1 H2 Hl1 Hpr Hx Hd Hl E1 E2 E3 Hin HQ.
  pose proof Hd as (Hd1 & Hd12 & Hd2)%NoDup_app. apply NoDup_cons in Hd2 as [Hxl2 Hd2].
  assert (∀ w, w ∈ l1 ++ l2 → w + 16 ≤ x ∨ x + 16 ≤ w) as Hwx.
  { intros w Hw. apply (spread_apart _ _ _ Hl); [set_solver..|]. set_solver. }
  assert (pr + 16 ≤ x ∨ x + 16 ≤ pr) as Hpx by (apply Hwx; set_solver).
  set (m2 := <[x + 12 := pr]> (<[pr + 8 := x]> m)).
  assert (dseg m2 NULL p l1 pr x) as H1'.
  { eapply dseg_frame; [apply (dseg_retail _ _ _ _ _ _ x H1); [done..|eapply spread_sub, Hl; set_solver]|].
    intros w Hw. assert (w + 16 ≤ x ∨ x + 16 ≤ w) by (apply Hwx; set_solver). subst m2.
    by rewrite !(lookup_insert_ne _ (x + 12)) by lia. }
  assert (dseg m2 pr nxt l2 e NULL) as H2'.
  { eapply dseg_frame; [exact H2|]. intros w Hw.
    assert (w + 16 ≤ x ∨ x + 16 ≤ w) by (apply Hwx; set_solver).
    assert (w + 16 ≤ pr ∨ pr + 16 ≤ w) by
      (apply (spread_apart _ _ _ Hl); [set_solver..|intros ->; apply (Hd12 pr Hin); by right]).
    subst m2. by rewrite !lookup_insert_ne by lia. }
  assert (m2 !! (x + 12) = Some pr) as Hxb by (subst m2; by rewrite lookup_insert_eq).
  destruct (dseg_join _ _ _ _ _ _ _ _ _ H1' Hx Hxb H2' Hd Hl) as [e' H3].
  unfold set_flink, set_blink at 1.
  rewrite wp_bind, wp_store by (done || lia).
  rewrite wp_bind, wp_store by (try apply lookup_insert_is_Some'; (by right) || lia).
  fold m2.
  assert (is_Some (m2 !! (x + 8))) as E4 by (subst m2; rewrite !lookup_insert_is_Some'; by right; right).
  rewrite wp_bind, wp_store by (done || lia).
  rewrite wp_set_blink.
  - apply (HQ _ e' H3). pose proof (dseg_sub _ _ _ _ _ _ H2 eq_refl).
    apply reback_links; [|set_solver]. subst m2.
    eapply (links_only_insert _ _ _ x); [|set_solver|by left].
    eapply (links_only_insert _ _ _ x); [|set_solver|by right].
    eapply (links_only_insert _ _ _ pr); [apply links_only_refl|set_solver|by left].
  - pose proof (dseg_next _ _ _ _ _ H2'). rewrite lookup_insert_is_Some'. naive_solver.
Qed.

Lemma dseg_end m b p l e n : dseg m b p l e n → l ≠ [] → e ∈ l ∧ 0 < e ∧ m !! (e + 8) = Some n.
Proof.
  intros H Hl. destruct l as [|y l _] using rev_ind; [done|].
  apply dseg_app in H as (c & r & H1 & H2). destruct H2 as (-> & Hy & Hb & nx & Hf & -> & ->).
  split_and!; [set_solver|done..].
Qed.

Lemma mid_sub {A} (l1 : list A) x l2 : l1 ++ x :: l2 ⊆ x :: l1 ++ l2.
Proof. intros y Hy. by rewrite Permutation_middle. Qed.

Lemma mid_sup {A} (l1 : list A) x l2 : x :: l1 ++ l2 ⊆ l1 ++ x :: l2.
Proof. intros y Hy. by rewrite <- Permutation_middle. Qed.

(** [mm_addfreechunk] keeps the list sorted. *)
Lemma wp_addfreechunk m nl fl x sz Q h :
  mm_nodelist h = nl → flist m nl fl → m !! x = Some sz → 16 ≤ sz → 0 < x →
  x ∉ fl.*1 → spread (x :: fl.*1) → is_Some (m !! (x + 8)) → is_Some (m !! (x + 12)) →
  (∀ m' l1 l2, fl = l1 ++ l2 → flist m' nl (l1 ++ (x, sz) :: l2) →
    links_only (x :: fl.*1) m m' → Q tt (set_mem m' h)) →
  wp (mm_addfreechunk x) Q (set_mem m h).
Proof.
  intros Hnl Hfl Esz Hsz Hx Hxfl Hsp E8 E12 HQ.
  pose proof (size2ndx_bounds sz Hsz) as (Hi & Hlo & Hhi). cbv zeta in Hi, Hlo, Hhi.
  set (i := mm_size2ndx sz) in *. set (hk := (nl + 16 * i, 2 ^ (4 + i) - 1)).
  assert (hk ∈ fl) as (f1 & f2 & ->)%list_elem_of_split.
  { apply Hfl, hook_nodes_elem. eauto. }
  pose proof (flist_fuel _ _ _ h Hfl) as Hfuel.
  destruct (fl_links _ _ _ Hfl) as [e Hs]. rewrite fmap_app, fmap_cons in Hs.
  apply dseg_app in Hs as (c & r & H1 & H2). destruct H2 as (-> & Hhk & Hb & nx & Hf & H2).
  unfold mm_addfreechunk, node_size.
  rewrite wp_bind, (wp_load _ sz) by done. rewrite wp_bind, wp_gets.
  change (hook (mm_size2ndx sz) (set_mem m h)) with (mm_nodelist h + 16 * i). rewrite Hnl.
  unfold flink. rewrite wp_bind, (wp_load _ nx) by (done || (cbn [hk fst] in Hhk; lia)).
  rewrite wp_bind, wp_gets, wp_bind.
  eapply wp_mono; [apply (find_place_spec m nl sz h f2 _ (nl + 16 * i) nx e H2)|].
  { rewrite length_app in Hfuel. simpl in Hfuel. lia. }
  { intros p Hp. apply (fl_sizes _ _ _ Hfl). set_solver. }
  intros [pr nxt] s (-> & la & lb & -> & Ha & Hb' & Hla & Hlb). cbn [fst snd] in *.
  destruct (place_keys nl i f1 la lb sz) as [K1 K2];
    [apply Hfl|apply Hfl|done..|]. fold hk in K1.
  assert (dseg m NULL nl (f1 ++ hk :: la).*1 pr nxt) as Hl1.
  { rewrite fmap_app, fmap_cons. apply dseg_app. exists c, hk.1. split; [done|].
    simpl. split_and!; [done..|]. eauto. }
  assert ((f1 ++ hk :: la ++ lb).*1 = (f1 ++ hk :: la).*1 ++ lb.*1) as Efl.
  { by rewrite !fmap_app, !fmap_cons, fmap_app, <- app_assoc. }
  assert (f1 ++ hk :: la ++ lb = (f1 ++ hk :: la) ++ lb) as Efl' by by rewrite <- app_assoc.
  destruct (dseg_end _ _ _ _ _ _ Hl1) as (Hpr & Hpr0 & Hprf); [by destruct f1|].
  destruct Hfl as [_ F2 F3 F4 F5 F6]. rewrite Efl' in F2, F5, F6. rewrite Efl in *.
  apply (wp_link_in _ nl _ _ _ _ _ _ _ _ Hl1 Hb'); try done.
  - by destruct f1.
  - rewrite <- Permutation_middle. by apply NoDup_cons.
  - eapply spread_sub, Hsp. apply mid_sub.
  - intros m' e' H3 H4.
    assert (links_only (x :: (f1 ++ hk :: la).*1 ++ lb.*1) m m') as H5.
    { split; [|apply H4]. intros a Ha'. apply H4. intros y Hy. by apply Ha', mid_sub. }
    apply (HQ m' (f1 ++ hk :: la) lb Efl'); [|done].
    assert (∀ y, y ∈ x :: (f1 ++ hk :: la).*1 ++ lb.*1 → m' !! y = m !! y) as Hy.
    { intros y Hy. apply H5. intros z Hz. destruct (Hsp y z Hy Hz); lia. }
    split; [eexists; by rewrite fmap_app, fmap_cons|by apply add_sorted| | | |].
    + rewrite fmap_app, fmap_cons, <- Permutation_middle. by apply NoDup_cons.
    + rewrite fmap_app, fmap_cons. eapply spread_sub, Hsp. apply mid_sub.
    + intros p Hp. rewrite <- Permutation_middle in Hp.
      assert (p.1 ∈ x :: (f1 ++ hk :: la).*1 ++ lb.*1) as Hp1.
      { rewrite <- fmap_app, <- (fmap_cons fst (x, sz)). by apply list_elem_of_fmap_2. }
      unfold entry_ok. rewrite (Hy _ Hp1).
      apply elem_of_cons in Hp as [->|Hp]; [right|by apply F5].
      split_and!; [|done..]. intros Hh%F6%(list_elem_of_fmap_2 fst).
      rewrite fmap_app in Hh. by apply Hxfl.
    + intros p Hp. apply mid_sup. right. by apply F6.
Qed.

Lemma wp_unlink_entry m nl l1 x k l2 Q h :
  flist m nl (l1 ++ (x, k) :: l2) → (x, k) ∉ hook_nodes nl →
  (∀ m', flist m' nl (l1 ++ l2) → links_only (l1 ++ l2).*1 m m' → Q tt (set_mem m' h)) →
  wp (unlink x) Q (set_mem m h).
Proof.
  intros [[e H1] H2 H3 H4 H5 H6] Hk HQ. rewrite fmap_app, fmap_cons in H1, H3, H4.
  assert (l1 ++ (x, k) :: l2 ⊆ (x, k) :: l1 ++ l2) as Hsub by apply mid_sub.
  assert ((nl, 15) ∈ l1 ++ (x, k) :: l2) as H0.
  { apply H6, hook_nodes_elem. exists 0. split; [compute; intuition discriminate|].
    f_equal; lia. }
  apply (wp_unlink _ _ _ _ _ _ _ _ H1 H3 H4).
  - intros El1%fmap_nil_inv. subst l1. simpl in *. destruct H1 as (-> & _).
    apply elem_of_cons in H0 as [[= <-]|H0].
    + apply Hk, hook_nodes_elem. exists 0. split; [compute; intuition discriminate|].
      f_equal; lia.
    + apply NoDup_cons in H3 as [H3 _]. apply H3.
      by apply (list_elem_of_fmap_2 fst) in H0.
  - intros m' e' H1' Hm. rewrite <- fmap_app in *. apply HQ; [|done].
    assert (∀ y, y ∈ (l1 ++ l2).*1 → m' !! y = m !! y) as Hy.
    { intros y Hy. apply Hm. intros z Hz.
      assert (∀ w, w ∈ (l1 ++ l2).*1 → w ∈ l1.*1 ++ x :: l2.*1) as Hi.
      { intros w Hw. apply mid_sup. right. by rewrite <- fmap_app. }
      destruct (H4 y z (Hi _ Hy) (Hi _ Hz)); lia. }
    assert (∀ p, p ∈ l1 ++ l2 → p ∈ l1 ++ (x, k) :: l2) as Hin.
    { intros p Hp. apply mid_sup. by right. }
    split.
    + by exists e'.
    + apply StronglySorted_app in H2 as (S1 & S2 & S3). apply StronglySorted_cons in S3 as [_ S3].
      apply StronglySorted_app_2; [|done..]. intros p q Hp Hq. apply S1; [done|by right].
    + rewrite <- Permutation_middle in H3. apply NoDup_cons in H3 as [_ H3]. by rewrite fmap_app.
    + eapply spread_sub, H4. intros y Hyl. apply mid_sup. right. by rewrite <- fmap_app.
    + intros p Hp. unfold entry_ok. rewrite Hy by by apply list_elem_of_fmap_2. by apply H5, Hin.
    + intros p Hp. specialize (Hsub p (H6 p Hp)). apply elem_of_cons in Hsub as [->|?]; done.
Qed.

(** The loop of [mm_malloc] finds the first large enough chunk. *)
Lemma find_fit_spec m nl sz h l n b node e :
  0 < sz → dseg m b node l.*1 e NULL → (length l < n)%nat → (∀ p, p ∈ l → entry_ok m nl p) →
  wp (find_fit n sz node) (λ r s, s = set_mem m h ∧
    (r = NULL ∧ (∀ p, p ∈ l → p ∈ hook_nodes nl ∨ p.2 < sz) ∨
     ∃ la k lb, l = la ++ (r, k) :: lb ∧ 0 < r ∧ sz ≤ k ∧ ¬ ((r, k) ∈ hook_nodes nl) ∧
       ∀ p, p ∈ la → p ∈ hook_nodes nl ∨ p.2 < sz)) (set_mem m h).
Proof.
  intros Hsz. revert b node n. induction l as [|[x k] l IH]; intros b node n Hs Hn Hok;
    (destruct n as [|n]; [simpl in Hn; lia|]); cbn [find_fit].
  - destruct Hs as [-> ->]. rewrite Z.eqb_refl, wp_ret. split; [done|]. left.
    split; [done|]. by intros p ?%elem_of_nil.
  - destruct Hs as (-> & Hx & Hb & nx & Hf & Hs). cbn [fst] in *.
    rewrite (proj2 (Z.eqb_neq x NULL)) by (unfold NULL; lia).
    assert (entry_ok m nl (x, k)) as Hok1 by (apply Hok; by left).
    assert (∃ s, m !! x = Some s ∧ (s < sz → (x, k) ∈ hook_nodes nl ∨ k < sz) ∧
      (sz ≤ s → sz ≤ k ∧ ¬ ((x, k) ∈ hook_nodes nl)))
      as (s & E & Ht & Hf').
    { destruct Hok1 as [[? E]|[? E]]; eexists; (split; [exact E|]); simpl in *.
      - split; [by left|lia].
      - split; [lia|naive_solver]. }
    unfold node_size. rewrite wp_bind, (wp_load _ s) by done.
    destruct (s <? sz) eqn:Ec; zify_bools.
    + unfold flink. rewrite wp_bind, (wp_load _ nx) by (done || lia).
      eapply wp_mono; [apply (IH x nx n Hs); [simpl in Hn; lia|intros p Hp; apply Hok; by right]|].
      intros r s' (-> & [[-> H1]|(la & k' & lb & -> & H1 & H2 & H3 & H4)]); (split; [done|]).
      * left. split; [done|]. intros p [->|Hp]%elem_of_cons; [by apply Ht|by apply H1].
      * right. exists ((x, k) :: la), k', lb. split_and!; try done.
        intros p [->|Hp]%elem_of_cons; [by apply Ht|by apply H4].
    + rewrite wp_ret. split; [done|]. right. exists [], k, l.
      destruct (Hf' Ec). split_and!; try done. by intros p ?%elem_of_nil.
Qed.

(** ** The chunks of the region

    A chunk is a size with a flag, set when it is allocated. *)

Abbreviation chunk := (Z * bool)%type.

Definition total (cs : list chunk) : Z := foldr (λ c n, c.1 + n) 0 cs.

(** The size of the last chunk, [p] when there is none. *)
Definition endsz (p : Z) (cs : list chunk) : Z := foldl (λ _ c, c.1) p cs.

(** The flag of the first chunk; the node behind the chunks is allocated. *)
Definition hd_used (cs : list chunk) : bool :=
  match cs with [] => true | c :: _ => c.2 end.

Definition good (cs : list chunk) : Prop := Forall (λ c, 16 ≤ c.1 ∧ (8 | c.1)) cs.

Fixpoint starts (a : Z) (cs : list chunk) : list Z :=
  match cs with
  | [] => []
  | c :: cs => a :: starts (a + c.1) cs
  end.

Fixpoint free_nodes (a : Z) (cs : list chunk) : list (Z * Z) :=
  match cs with
  | [] => []
  | c :: cs => (if c.2 then [] else [(a, c.1)]) ++ free_nodes (a + c.1) cs
  end.

(** The headers of the chunks from address [a] on, the first preceded by a
    chunk of size [p]. *)
Fixpoint span (m : gmap Z Z) (a p : Z) (cs : list chunk) : Prop :=
  match cs with
  | [] => True
  | c :: cs => m !! a = Some c.1 ∧ m !! (a + 4) = Some (tag p c.2) ∧ span m (a + c.1) c.1 cs
  end.

(** The same up to the node at the end of the region. *)
Definition layout (m : gmap Z Z) (a p : Z) (cs : list chunk) : Prop :=
  span m a p cs ∧ m !! (a + total cs) = Some 8 ∧
  m !! (a + total cs + 4) = Some (tag (endsz p cs) true).

Lemma total_app c1 c2 : total (c1 ++ c2) = total c1 + total c2.
Proof. induction c1 as [|c c1 IH]; simpl; [done|]. rewrite IH. lia. Qed.

Lemma total_nonneg cs : good cs → 0 ≤ total cs.
Proof. induction 1; simpl; lia. Qed.

Lemma total_div cs : good cs → (8 | total cs).
Proof.
  induction 1 as [|c cs [_ Hc] H IH]; simpl; [apply Z.divide_0_r|by apply Z.divide_add_r].
Qed.

Lemma span_app m a p c1 c2 :
  span m a p (c1 ++ c2) ↔ span m a p c1 ∧ span m (a + total c1) (endsz p c1) c2.
Proof.
  revert a p. induction c1 as [|c c1 IH]; intros a p; simpl.
  - rewrite Z.add_0_r. tauto.
  - rewrite IH, Z.add_assoc. unfold endsz. simpl. tauto.
Qed.

Lemma starts_app a c1 c2 : starts a (c1 ++ c2) = starts a c1 ++ starts (a + total c1) c2.
Proof.
  revert a. induction c1 as [|c c1 IH]; intros a; simpl; [by rewrite Z.add_0_r|].
  by rewrite IH, Z.add_assoc.
Qed.

Lemma free_nodes_app a c1 c2 :
  free_nodes a (c1 ++ c2) = free_nodes a c1 ++ free_nodes (a + total c1) c2.
Proof.
  revert a. induction c1 as [|c c1 IH]; intros a; simpl; [by rewrite Z.add_0_r|].
  by rewrite IH, Z.add_assoc, app_assoc.
Qed.

Lemma layout_app m a p c1 c2 :
  layout m a p (c1 ++ c2) ↔ span m a p c1 ∧ layout m (a + total c1) (endsz p c1) c2.
Proof.
  unfold layout. rewrite span_app, total_app, Z.add_assoc. unfold endsz. rewrite foldl_app. tauto.
Qed.

Lemma layout_cons m a p c cs :
  layout m a p (c :: cs) ↔
  m !! a = Some c.1 ∧ m !! (a + 4) = Some (tag p c.2) ∧ layout m (a + c.1) c.1 cs.
Proof. unfold layout. simpl. rewrite Z.add_assoc. unfold endsz. simpl. tauto. Qed.

Lemma starts_range a cs x : good cs → x ∈ starts a cs → a ≤ x ∧ x + 16 ≤ a + total cs.
Proof.
  intros H. revert a. induction H as [|c cs Hc H IH]; intros a; simpl.
  - by intros ?%elem_of_nil.
  - pose proof (total_nonneg cs H). intros [->|Hx]%elem_of_cons; [lia|].
    destruct (IH _ Hx). lia.
Qed.

Lemma starts_spread a cs : good cs → spread (starts a cs).
Proof.
  intros H. revert a. induction H as [|c cs Hc H IH]; intros a x y; simpl.
  - by intros ?%elem_of_nil.
  - intros [->|Hx]%elem_of_cons [->|Hy]%elem_of_cons; [lia| | |by eapply IH].
    + destruct (starts_range _ _ _ H Hy). lia.
    + destruct (starts_range _ _ _ H Hx). lia.
Qed.

Lemma free_nodes_split a cs x k :
  (x, k) ∈ free_nodes a cs → ∃ c1 c2, cs = c1 ++ (k, false) :: c2 ∧ x = a + total c1.
Proof.
  revert a. induction cs as [|[s u] cs IH]; intros a; simpl; [by intros ?%elem_of_nil|].
  intros [Hx|Hx]%elem_of_app.
  - destruct u; simpl in Hx; [by apply elem_of_nil in Hx|].
    apply list_elem_of_singleton in Hx as [= -> ->]. exists [], cs. split; [done|simpl; lia].
  - destruct (IH _ Hx) as (c1 & c2 & -> & ->). exists ((s, u) :: c1), c2. split; [done|simpl; lia].
Qed.

Lemma free_nodes_starts a cs p : p ∈ free_nodes a cs → p.1 ∈ starts a cs.
Proof.
  destruct p as [x k]. intros (c1 & c2 & -> & ->)%free_nodes_split. simpl.
  rewrite starts_app. apply elem_of_app. right. by left.
Qed.

Lemma span_frame m m' a p cs :
  span m a p cs →
  (∀ x, x ∈ starts a cs → m' !! x = m !! x ∧ m' !! (x + 4) = m !! (x + 4)) →
  span m' a p cs.
Proof.
  revert a p. induction cs as [|c cs IH]; intros a p; simpl; [done|].
  intros (H1 & H2 & H3) Hm. destruct (Hm a) as [-> ->]; [by left|]. split_and!; [done..|].
  apply IH; [done|]. intros x Hx. apply Hm. by right.
Qed.

(** The headers do not change but for the first word [preceding]. *)
Lemma layout_retag m m' a p p' cs :
  layout m a p cs → good cs → m' !! (a + 4) = Some (tag p' (hd_used cs)) →
  (∀ x, x ∈ starts a cs ++ [a + total cs] →
    m' !! x = m !! x ∧ (x ≠ a → m' !! (x + 4) = m !! (x + 4))) →
  layout m' a p' cs.
Proof.
  intros Hl Hg Ht Hm. destruct cs as [|c cs].
  - destruct Hl as (_ & H1 & H2). split; [done|]. simpl in *. rewrite Z.add_0_r in *.
    destruct (Hm a) as [-> _]; [by left|]. done.
  - apply layout_cons in Hl as (H1 & H2 & H3 & H4 & H5). apply layout_cons. simpl in Hm.
    apply Forall_cons in Hg as [Hc Hg]. pose proof (total_nonneg _ Hg).
    destruct (Hm a) as [-> _]; [by left|]. split_and!; [done..|]. split_and!.
    + eapply span_frame; [exact H3|]. intros x Hx. destruct (Hm x) as [-> Hx'].
      { right. apply elem_of_app. by left. }
      split; [done|]. apply Hx'. destruct (starts_range _ _ _ Hg Hx). lia.
    + destruct (Hm (a + c.1 + total cs)) as [-> _]; [|done].
      rewrite Z.add_assoc. right. apply elem_of_app. right. by left.
    + destruct (Hm (a + c.1 + total cs)) as [_ Hx'].
      { rewrite Z.add_assoc. right. apply elem_of_app. right. by left. }
      rewrite Hx' by lia. done.
Qed.

(** The region from [base] to the last node [e], with the nodes at its two
    ends. *)
Record region (m : gmap Z Z) (base : Z) (cs : list chunk) (e : Z) : Prop := mkregion {
  rg_base : 0 < base ∧ (8 | base);
  rg_end : e = base + 8 + total cs;
  rg_max : e + 8 ≤ 2 ^ 32 ∧ total cs + 16 < MM_ALLOC_BIT;
  rg_good : good cs;
  rg_start : m !! base = Some 8 ∧ m !! (base + 4) = Some MM_ALLOC_BIT;
  rg_layout : layout m (base + 8) 8 cs;
  rg_ram : ∀ a, base ≤ a < e + 8 → (4 | a) → is_Some (m !! a) }.

(** Chunks replaced by others that fill the same space: only the headers in
    that space change, and the word [preceding] behind it. *)
Lemma region_edit m m' base c1 cm cm' c2 e :
  region m base (c1 ++ cm ++ c2) e → good cm' → total cm' = total cm →
  span m' (base + 8 + total c1) (endsz 8 c1) cm' →
  m' !! (base + 8 + total c1 + total cm + 4) = Some (tag (endsz (endsz 8 c1) cm') (hd_used c2)) →
  (∀ a, is_Some (m !! a) → is_Some (m' !! a)) →
  (∀ a, a < base + 8 + total c1 ∨ base + 8 + total c1 + total cm ≤ a →
    a ≠ base + 8 + total c1 + total cm + 4 → m' !! a = m !! a) →
  region m' base (c1 ++ cm' ++ c2) e.
Proof.
  intros [H1 H2 H3 H4 H5 H6 H7] Hg Ht Hs Hp Hd Hm.
  apply Forall_app in H4 as [Hg1 H4]. apply Forall_app in H4 as [Hgm Hg2].
  pose proof (total_nonneg _ Hg1) as T1. pose proof (total_nonneg _ Hgm) as Tm.
  rewrite !total_app in *.
  apply layout_app in H6 as [L1 L2]. apply layout_app in L2 as [Lm L2].
  set (x := base + 8 + total c1) in *.
  split; rewrite ?total_app, ?Ht; [done..| | | |].
  - apply Forall_app. split; [done|]. by apply Forall_app.
  - rewrite !Hm by lia. done.
  - apply layout_app. split.
    + eapply span_frame; [exact L1|]. intros y Hy. destruct (starts_range _ _ _ Hg1 Hy).
      rewrite !Hm by lia. done.
    + fold x. apply layout_app. split; [done|]. rewrite Ht.
      eapply layout_retag; [exact L2|done|done|]. intros y Hy. apply elem_of_app in Hy.
      assert (y = x + total cm ∨ x + total cm + 16 ≤ y) as Hy'.
      { destruct c2 as [|c c2].
        - destruct Hy as [?%elem_of_nil|Hy%list_elem_of_singleton]; [done|]. simpl in Hy. lia.
        - apply Forall_cons in Hg2 as [Hc Hg2]. pose proof (total_nonneg _ Hg2). simpl in Hy.
          destruct Hy as [[->|Hy]%elem_of_cons|Hy%list_elem_of_singleton]; [lia| |lia].
          destruct (starts_range _ _ _ Hg2 Hy). lia. }
      split; [apply Hm; lia|intros Hne; apply Hm; lia].
  - intros a Ha H4a. by apply Hd, H7.
Qed.

(** Where the hooks are: outside the region. *)
Definition hooks_apart (nl base e : Z) : Prop :=
  0 < nl ∧ nl + 304 ≤ 2 ^ 32 ∧ (nl + 304 ≤ base ∨ e + 8 ≤ nl).

Lemma nodes_spread nl base cs e m :
  region m base cs e → hooks_apart nl base e →
  spread ((hook_nodes nl).*1 ++ starts (base + 8) cs).
Proof.
  intros [H1 H2 H3 H4 H5 H6 H7] Hh x y.
  assert (∀ z, z ∈ (hook_nodes nl).*1 → ∃ i, 0 ≤ i < 19 ∧ z = nl + 16 * i) as Hz.
  { intros z Hz. apply list_elem_of_fmap in Hz as (p & -> & Hp).
    apply hook_nodes_elem in Hp as (i & Hi & ->). by exists i. }
  destruct Hh as (_ & _ & Hh).
  intros [(i & ? & ->)%Hz|Hx]%elem_of_app [(j & ? & ->)%Hz|Hy]%elem_of_app.
  - lia.
  - destruct (starts_range _ _ _ H4 Hy). lia.
  - destruct (starts_range _ _ _ H4 Hx). lia.
  - by apply (starts_spread (base + 8) cs).
Qed.

(** Links of free nodes are not headers. *)
Lemma region_links nl m m' base cs e l :
  region m base cs e → hooks_apart nl base e →
  l ⊆ (hook_nodes nl).*1 ++ starts (base + 8) cs → links_only l m m' →
  region m' base cs e.
Proof.
  intros Hr Hh Hl Hm. pose proof (nodes_spread _ _ _ _ _ Hr Hh) as Hs.
  pose proof Hr as [H1 H2 H3 H4 H5 H6 H7]. destruct Hm as [Hm Hd].
  assert (∀ y, y ∈ l → y + 16 ≤ base ∨ base + 8 ≤ y ∧ y + 16 ≤ e ∨ e + 8 ≤ y) as Hrange.
  { intros y Hy%Hl. destruct Hh as (_ & _ & Hh). apply elem_of_app in Hy as [Hy|Hy].
    - apply list_elem_of_fmap in Hy as (p & -> & Hp).
      apply hook_nodes_elem in Hp as (i & Hi & ->). change MM_NNODES with 19 in Hi. simpl. lia.
    - destruct (starts_range _ _ _ H4 Hy). lia. }
  assert (∀ a, a = base ∨ a = base + 4 ∨ a = e ∨ a = e + 4 → m' !! a = m !! a) as Hends.
  { pose proof (total_nonneg _ H4).
    intros a Ha. apply Hm. intros y Hy. specialize (Hrange y Hy). lia. }
  assert (∀ x, x ∈ starts (base + 8) cs → m' !! x = m !! x ∧ m' !! (x + 4) = m !! (x + 4)) as Hst.
  { intros x Hx. split; apply Hm; intros y Hy;
      (destruct (Hs x y) as [?|?]; [apply elem_of_app; by right|by apply Hl|lia|lia]). }
  split; [done..| | |].
  - rewrite !Hends by tauto. done.
  - destruct H6 as (L1 & L2 & L3). split_and!; [by eapply span_frame| |];
      rewrite Hends by lia; done.
  - intros a Ha H4a. by apply Hd, H7.
Qed.

(** ** User data

    The words of the chunks in use behind their headers. *)

Fixpoint payload (a : Z) (cs : list chunk) (w : Z) : Prop :=
  match cs with
  | [] => False
  | c :: cs => (c.2 = true ∧ a + 8 ≤ w < a + c.1) ∨ payload (a + c.1) cs w
  end.

Lemma payload_app a c1 c2 w :
  payload a (c1 ++ c2) w ↔ payload a c1 w ∨ payload (a + total c1) c2 w.
Proof.
  revert a. induction c1 as [|c c1 IH]; intros a; simpl.
  - rewrite Z.add_0_r. tauto.
  - rewrite IH, Z.add_assoc. tauto.
Qed.

Lemma payload_join a c1 s t c2 w :
  payload a (c1 ++ (s, false) :: (t, false) :: c2) w ↔ payload a (c1 ++ (s + t, false) :: c2) w.
Proof. rewrite !payload_app. simpl. rewrite !Z.add_assoc. naive_solver. Qed.

Lemma payload_range a cs w : good cs → payload a cs w → a + 8 ≤ w < a + total cs.
Proof.
  intros H. revert a. induction H as [|c cs Hc H IH]; intros a; simpl; [done|].
  pose proof (total_nonneg _ H). intros [?|Hw%IH]; lia.
Qed.

Lemma payload_free a cs w p :
  good cs → payload a cs w → p ∈ free_nodes a cs → w < p.1 ∨ p.1 + 16 ≤ w.
Proof.
  intros H. revert a. induction H as [|[s u] cs Hc H IH]; intros a; simpl in *; [done|].
  intros Hw Hp. apply elem_of_app in Hp as [Hp|Hp].
  - destruct u; [by apply elem_of_nil in Hp|]. apply list_elem_of_singleton in Hp as ->.
    destruct Hw as [[? _]|Hw]; [done|]. apply payload_range in Hw; [simpl; lia|done].
  - destruct Hw as [[? Hw]|Hw]; [|by eapply IH]. apply free_nodes_starts in Hp.
    destruct (starts_range _ _ _ H Hp). lia.
Qed.

(** ** The heap in memory

    The region, and the free list with the free chunks [F]: all of them
    between operations, and fewer while an operation holds some back. *)

Record rep (m : gmap Z Z) (nl base : Z) (cs : list chunk) (e : Z) (F : list (Z * Z)) : Prop :=
  mkrep {
  rep_region : region m base cs e;
  rep_apart : hooks_apart nl base e;
  rep_list : ∃ fl, flist m nl fl ∧ fl ≡ₚ hook_nodes nl ++ F;
  rep_free : F ⊆ free_nodes (base + 8) cs }.

(** What an operation on the links keeps. *)
Definition data_kept (base : Z) (cs : list chunk) (m m' : gmap Z Z) : Prop :=
  ∀ w, payload (base + 8) cs w → m' !! w = m !! w.

Lemma rep_perm m nl base cs e F F' : F ≡ₚ F' → rep m nl base cs e F → rep m nl base cs e F'.
Proof.
  intros HF [H1 H2 (fl & H3 & H4) H5]. split; [done|done| |].
  - exists fl. by rewrite <- HF.
  - intros p Hp. apply H5. by rewrite HF.
Qed.

Lemma rep_nodes m nl base cs e F fl :
  rep m nl base cs e F → fl ≡ₚ hook_nodes nl ++ F →
  fl.*1 ⊆ (hook_nodes nl).*1 ++ starts (base + 8) cs.
Proof.
  intros [_ _ _ HF] Hfl x Hx. rewrite Hfl, fmap_app in Hx. apply elem_of_app in Hx as [Hx|Hx].
  - apply elem_of_app. by left.
  - apply elem_of_app. right. apply list_elem_of_fmap in Hx as (p & -> & Hp).
    by apply free_nodes_starts, HF.
Qed.

Lemma hook_range nl base e x :
  hooks_apart nl base e → x ∈ (hook_nodes nl).*1 → 0 < x ∧ (x + 16 ≤ base ∨ e + 8 ≤ x).
Proof.
  intros (H1 & H2 & H3) Hx. apply list_elem_of_fmap in Hx as (p & -> & Hp).
  apply hook_nodes_elem in Hp as (i & Hi & ->). change MM_NNODES with 19 in Hi. simpl. lia.
Qed.

Lemma links_data m nl base cs e l m' :
  region m base cs e → hooks_apart nl base e →
  l ⊆ (hook_nodes nl).*1 ++ (free_nodes (base + 8) cs).*1 → links_only l m m' →
  data_kept base cs m m'.
Proof.
  intros [H1 H2 H3 H4 _ _ _] Hh Hl [Hm _] w Hw. apply Hm. intros y Hy%Hl.
  pose proof (payload_range _ _ _ H4 Hw).
  apply elem_of_app in Hy as [Hy|Hy]; [pose proof (hook_range _ _ _ _ Hh Hy); lia|].
  apply list_elem_of_fmap in Hy as (p & -> & Hp).
  pose proof (payload_free _ _ _ _ H4 Hw Hp). lia.
Qed.

Lemma rep_links m nl base cs e fl F :
  rep m nl base cs e F → fl ≡ₚ hook_nodes nl ++ F →
  fl.*1 ⊆ (hook_nodes nl).*1 ++ (free_nodes (base + 8) cs).*1.
Proof.
  intros [_ _ _ HF] Hfl x Hx. rewrite Hfl, fmap_app in Hx. apply elem_of_app in Hx as [Hx|Hx];
    apply elem_of_app; [by left|right].
  apply list_elem_of_fmap in Hx as (p & -> & Hp). apply list_elem_of_fmap_2. by apply HF.
Qed.

Lemma free_starts_sub a cs nl :
  (hook_nodes nl).*1 ++ (free_nodes a cs).*1 ⊆ (hook_nodes nl).*1 ++ starts a cs.
Proof.
  intros x Hx. apply elem_of_app in Hx as [Hx|Hx]; apply elem_of_app; [by left|right].
  apply list_elem_of_fmap in Hx as (p & -> & Hp). by apply free_nodes_starts.
Qed.

(** A free chunk is not a hook. *)
Lemma free_not_hook m nl base cs e p :
  region m base cs e → hooks_apart nl base e → p ∈ free_nodes (base + 8) cs →
  p.1 ∉ (hook_nodes nl).*1.
Proof.
  intros [H1 H2 H3 H4 _ _ _] Hh Hp Hx. pose proof (hook_range _ _ _ _ Hh Hx).
  apply free_nodes_starts in Hp. destruct (starts_range _ _ _ H4 Hp). lia.
Qed.

Lemma wp_rep_unlink m nl base cs e x k F Q h :
  rep m nl base cs e ((x, k) :: F) →
  (∀ m', rep m' nl base cs e F → data_kept base cs m m' → Q tt (set_mem m' h)) →
  wp (unlink x) Q (set_mem m h).
Proof.
  intros Hr HQ. pose proof Hr as [H1 H2 (fl & H3 & H4) H5].
  assert ((x, k) ∈ fl) as (l1 & l2 & ->)%list_elem_of_split.
  { rewrite H4. apply elem_of_app. right. by left. }
  apply (wp_unlink_entry _ nl l1 x k l2); [done| |].
  { intros Hx%(list_elem_of_fmap_2 fst). eapply (free_not_hook m); [done..| |exact Hx].
    apply H5. by left. }
  assert (l1 ++ l2 ≡ₚ hook_nodes nl ++ F) as HF.
  { rewrite <- !Permutation_middle in H4. by apply Permutation.Permutation_cons_inv in H4. }
  assert ((l1 ++ l2).*1 ⊆ (hook_nodes nl).*1 ++ (free_nodes (base + 8) cs).*1) as Hsub.
  { intros y Hy. eapply (rep_links _ _ _ _ _ _ _ Hr H4), list_elem_of_fmap.
    apply list_elem_of_fmap in Hy as (p & -> & Hp). exists p. split; [done|].
    apply mid_sup. by right. }
  intros m' Hf Hm. apply HQ; [|by eapply links_data].
  split; [|done|by exists (l1 ++ l2)|intros p Hp; apply H5; by right].
  eapply region_links; [done..| |exact Hm]. etrans; [exact Hsub|apply free_starts_sub].
Qed.

Lemma wp_rep_add m nl base cs e x sz F Q h :
  mm_nodelist h = nl → rep m nl base cs e F → (x, sz) ∈ free_nodes (base + 8) cs → x ∉ F.*1 →
  m !! x = Some sz →
  (∀ m', rep m' nl base cs e ((x, sz) :: F) → data_kept base cs m m' → Q tt (set_mem m' h)) →
  wp (mm_addfreechunk x) Q (set_mem m h).
Proof.
  intros Hnl Hr Hx HxF Esz HQ. pose proof Hr as [H1 H2 (fl & H3 & H4) H5].
  pose proof (free_nodes_starts _ _ _ Hx) as Hxs. simpl in Hxs.
  pose proof H1 as [R1 R2 R3 R4 R5 R6 R7]. destruct (starts_range _ _ _ R4 Hxs) as [Hlo Hhi].
  assert (16 ≤ sz ∧ (4 | x)) as [Hsz Hdiv].
  { destruct (free_nodes_split _ _ _ _ Hx) as (c1 & c2 & -> & ->).
    apply Forall_app in R4 as [Hg1 R4]. apply Forall_cons in R4 as [[? _] _]. split; [done|].
    pose proof (total_div _ Hg1) as D.
    destruct R1 as [_ [b ->]], D as [d ->]. exists (2 * b + 2 + 2 * d). lia. }
  assert (x :: fl.*1 ⊆ (hook_nodes nl).*1 ++ (free_nodes (base + 8) cs).*1) as Hsub.
  { intros y [->|Hy]%elem_of_cons; [|by eapply (rep_links _ _ _ _ _ _ _ Hr H4)].
    apply elem_of_app. right. by apply (list_elem_of_fmap_2 fst) in Hx. }
  apply (wp_addfreechunk _ nl fl x sz); [done|done|done|done|lia| | | | |].
  - rewrite H4, fmap_app. intros [Hy|Hy]%elem_of_app; [|done].
    by eapply (free_not_hook m _ _ _ _ (x, sz)).
  - eapply spread_sub; [|eapply nodes_spread; done]. etrans; [exact Hsub|apply free_starts_sub].
  - apply R7; [lia|]. apply Z.divide_add_r; [done|by exists 2].
  - apply R7; [lia|]. apply Z.divide_add_r; [done|by exists 3].
  - intros m' l1 l2 -> Hf Hm. apply HQ; [|by eapply links_data].
    split; [|done| |].
    + eapply region_links; [done..| |exact Hm]. etrans; [exact Hsub|apply free_starts_sub].
    + eexists. split; [exact Hf|]. by rewrite <- !Permutation_middle, H4.
    + intros p [->|Hp]%elem_of_cons; [done|by apply H5].
Qed.

(** ** Editing headers *)

(** [m'] differs from [m] only in the [n] bytes at [x] and in the word
    [preceding] of the node behind them. *)
Definition within (m m' : gmap Z Z) (x n : Z) : Prop :=
  (∀ a, is_Some (m !! a) → is_Some (m' !! a)) ∧
  ∀ a, a < x ∨ x + n ≤ a → a ≠ x + n + 4 → m' !! a = m !! a.

Lemma within_refl m x n : within m m x n.
Proof. done. Qed.

Lemma within_insert m m' x n a v :
  within m m' x n → x ≤ a < x + n ∨ a = x + n + 4 → within m (<[a := v]> m') x n.
Proof.
  intros [H1 H2] Ha. split.
  - intros b Hb. apply lookup_insert_is_Some'. right. by apply H1.
  - intros b Hb Hne. rewrite lookup_insert_ne by lia. by apply H2.
Qed.

Lemma starts_hd a cs x : good cs → x ∈ starts a cs → x = a ∨ a + 16 ≤ x.
Proof.
  intros Hg Hx. destruct Hg as [|c cs Hc Hg]; simpl in Hx; [by apply elem_of_nil in Hx|].
  apply elem_of_cons in Hx as [->|Hx]; [by left|]. destruct (starts_range _ _ _ Hg Hx). lia.
Qed.

Lemma rep_edit m m' nl base c1 cm cm' c2 e F :
  rep m nl base (c1 ++ cm ++ c2) e F → good cm' → total cm' = total cm →
  span m' (base + 8 + total c1) (endsz 8 c1) cm' →
  m' !! (base + 8 + total c1 + total cm + 4) = Some (tag (endsz (endsz 8 c1) cm') (hd_used c2)) →
  within m m' (base + 8 + total c1) (total cm) →
  F ⊆ free_nodes (base + 8) c1 ++ free_nodes (base + 8 + total c1 + total cm) c2 →
  rep m' nl base (c1 ++ cm' ++ c2) e F ∧
  ∀ w, payload (base + 8) c1 w ∨ payload (base + 8 + total c1 + total cm) c2 w → m' !! w = m !! w.
Proof.
  intros [H1 H2 (fl & H3 & H4) _] Hg Ht Hs Hp [Hd Hm] HF.
  pose proof (rg_good _ _ _ _ H1) as Hgs. apply Forall_app in Hgs as [Hg1 Hgs].
  apply Forall_app in Hgs as [Hgm Hg2]. pose proof (rg_end _ _ _ _ H1) as He.
  rewrite !total_app in He.
  pose proof (total_nonneg _ Hg1). pose proof (total_nonneg _ Hgm). pose proof (total_nonneg _ Hg2).
  split; [split|].
  - by eapply region_edit.
  - done.
  - exists fl. split; [|done]. eapply flist_frame; [exact H3|]. intros y Hy.
    assert (y + 16 ≤ base + 8 + total c1 ∨ y = base + 8 + total c1 + total cm ∨
      base + 8 + total c1 + total cm + 8 ≤ y) as Hy'.
    { rewrite H4, fmap_app in Hy. apply elem_of_app in Hy as [Hy|Hy].
      - pose proof (hook_range _ _ _ _ H2 Hy). lia.
      - apply list_elem_of_fmap in Hy as (p & -> & Hy%HF).
        apply elem_of_app in Hy as [Hy%free_nodes_starts|Hy%free_nodes_starts].
        + destruct (starts_range _ _ _ Hg1 Hy). lia.
        + destruct (starts_hd _ _ _ Hg2 Hy); lia. }
    rewrite !Hm by lia. done.
  - intros p Hpf%HF. rewrite !free_nodes_app, Ht.
    apply elem_of_app in Hpf as [Hpf|Hpf]; apply elem_of_app; [by left|right].
    apply elem_of_app. by right.
  - intros w [Hw|Hw]; [pose proof (payload_range _ _ _ Hg1 Hw)|pose proof (payload_range _ _ _ Hg2 Hw)];
      apply Hm; lia.
Qed.

Lemma endsz_bound p cs : 0 ≤ p → good cs → 0 ≤ endsz p cs ≤ p + total cs.
Proof.
  intros Hp Hg. revert p Hp. induction Hg as [|c cs Hc Hg IH]; intros p Hp.
  - unfold endsz. simpl. lia.
  - destruct (IH c.1); [lia|]. unfold endsz in *. simpl. lia.
Qed.

Lemma layout_hd m a p cs : layout m a p cs → m !! (a + 4) = Some (tag p (hd_used cs)).
Proof.
  destruct cs as [|c cs].
  - intros (_ & _ & H). simpl in H. by rewrite Z.add_0_r in H.
  - intros H. apply layout_cons in H. simpl. tauto.
Qed.

(** The header of a chunk in the middle, and its bounds. *)
Lemma region_mid m base c1 s u c2 e :
  region m base (c1 ++ (s, u) :: c2) e →
  let x := base + 8 + total c1 in
  (m !! x = Some s ∧ m !! (x + 4) = Some (tag (endsz 8 c1) u) ∧
   m !! (x + s + 4) = Some (tag s (hd_used c2))) ∧
  (base + 8 ≤ x ∧ 0 < base ∧ 16 ≤ s < MM_ALLOC_BIT ∧ (8 | s) ∧ (8 | x) ∧ x + s + total c2 = e ∧
   0 ≤ total c2 ∧ e + 8 ≤ 2 ^ 32 ∧ 0 ≤ endsz 8 c1 < MM_ALLOC_BIT ∧
   total c1 + s + total c2 + 16 < MM_ALLOC_BIT).
Proof.
  intros [H1 H2 H3 H4 H5 H6 H7]. apply layout_app in H6 as [_ H6].
  apply layout_cons in H6 as (L1 & L2 & L3). apply layout_hd in L3. simpl in *.
  rewrite total_app in *. simpl in *.
  apply Forall_app in H4 as [Hg1 H4]. apply Forall_cons in H4 as [Hc Hg2]. simpl in Hc.
  pose proof (total_nonneg _ Hg1). pose proof (total_nonneg _ Hg2).
  destruct (endsz_bound 8 c1) as [? ?]; [lia|done|]. split; [done|]. split_and!; try lia; try tauto.
  apply Z.divide_add_r; [apply Z.divide_add_r; [tauto|by exists 1]|by apply total_div].
Qed.

(** The headers of two chunks next to each other. *)
Lemma region_pair m base c1 s u t v c2 e :
  region m base (c1 ++ (s, u) :: (t, v) :: c2) e →
  let x := base + 8 + total c1 in
  (m !! x = Some s ∧ m !! (x + 4) = Some (tag (endsz 8 c1) u) ∧
   m !! (x + s) = Some t ∧ m !! (x + s + 4) = Some (tag s v) ∧
   m !! (x + s + t + 4) = Some (tag t (hd_used c2))) ∧
  (base + 8 ≤ x ∧ 0 < base ∧ 16 ≤ s ∧ 16 ≤ t ∧ s + t < MM_ALLOC_BIT ∧
   (8 | s) ∧ (8 | t) ∧ (8 | x) ∧ x + s + t + total c2 = e ∧ 0 ≤ total c2 ∧ e + 8 ≤ 2 ^ 32 ∧
   0 ≤ endsz 8 c1 < MM_ALLOC_BIT).
Proof.
  intros H x. pose proof (region_mid _ _ _ _ _ _ _ H) as [(E1 & E2 & E3) B].
  pose proof (total_nonneg c1) as T.
  pose proof (rg_good _ _ _ _ H) as [Hg _]%Forall_app. specialize (T Hg).
  change (c1 ++ (s, u) :: (t, v) :: c2) with (c1 ++ [(s, u)] ++ (t, v) :: c2) in H.
  rewrite app_assoc in H.
  pose proof (region_mid _ _ _ _ _ _ _ H) as [(E4 & E5 & E6) B'].
  cbv zeta in *. fold x in E1, E2, E3, B. rewrite total_app in E4, E5, E6, B'.
  simpl in E4, E5, E6, B', B.
  replace (base + 8 + (total c1 + (s + 0))) with (x + s) in E4, E5, E6, B' by lia.
  split; [done|]. split_and!; try lia; tauto.
Qed.

(** ** Chunks in use *)

Fixpoint used_nodes (a : Z) (cs : list chunk) : list (Z * Z) :=
  match cs with
  | [] => []
  | c :: cs => (if c.2 then [(a, c.1)] else []) ++ used_nodes (a + c.1) cs
  end.

Lemma used_nodes_app a c1 c2 :
  used_nodes a (c1 ++ c2) = used_nodes a c1 ++ used_nodes (a + total c1) c2.
Proof.
  revert a. induction c1 as [|c c1 IH]; intros a; simpl; [by rewrite Z.add_0_r|].
  by rewrite IH, Z.add_assoc, app_assoc.
Qed.

Lemma used_nodes_split a cs x k :
  (x, k) ∈ used_nodes a cs → ∃ c1 c2, cs = c1 ++ (k, true) :: c2 ∧ x = a + total c1.
Proof.
  revert a. induction cs as [|[s u] cs IH]; intros a; simpl; [by intros ?%elem_of_nil|].
  intros [Hx|Hx]%elem_of_app.
  - destruct u; simpl in Hx; [|by apply elem_of_nil in Hx].
    apply list_elem_of_singleton in Hx as [= -> ->]. exists [], cs. split; [done|simpl; lia].
  - destruct (IH _ Hx) as (c1 & c2 & -> & ->). exists ((s, u) :: c1), c2. split; [done|simpl; lia].
Qed.

Lemma used_payload a cs x s w :
  (x, s) ∈ used_nodes a cs → x + 8 ≤ w < x + s → payload a cs w.
Proof.
  intros (c1 & c2 & -> & ->)%used_nodes_split Hw. apply payload_app. right. left. done.
Qed.

Lemma payload_start a cs w x : good cs → payload a cs w → x ∈ starts a cs → w < x ∨ x + 8 ≤ w.
Proof.
  intros H. revert a. induction H as [|[s u] cs Hc H IH]; intros a; simpl in *; [done|].
  intros Hw [->|Hx]%elem_of_cons.
  - destruct Hw as [Hw|Hw%payload_range]; [lia|lia|done].
  - destruct Hw as [Hw|Hw]; [|by eapply IH]. destruct (starts_range _ _ _ H Hx). lia.
Qed.

(** Two chunks in use do not overlap. *)
Lemma used_disjoint a cs l1 p l2 q l3 : good cs →
  used_nodes a cs = l1 ++ p :: l2 ++ q :: l3 → p.1 + p.2 ≤ q.1.
Proof.
  intros Hg. revert a l1. induction Hg as [|[s u] cs Hc Hg IH]; intros a l1; simpl.
  - by destruct l1.
  - destruct u; [|by apply IH]. destruct l1 as [|r l1]; simpl; intros [= <- E]; [|by eapply IH].
    assert (q ∈ used_nodes (a + s) cs) as Hq.
    { rewrite E. apply elem_of_app. right. by left. }
    destruct q as [y k]. apply used_nodes_split in Hq as (c1 & c2 & -> & ->).
    apply Forall_app in Hg as [Hg1 _]. pose proof (total_nonneg _ Hg1). simpl. lia.
Qed.

(** A word of user data is written. *)
Lemma rep_store m nl base cs e F w v :
  rep m nl base cs e F → payload (base + 8) cs w → rep (<[w := v]> m) nl base cs e F.
Proof.
  intros Hr Hw. pose proof Hr as [[H1 H2 H3 H4 H5 H6 H7] Ha (fl & L1 & L2) HF].
  pose proof (payload_range _ _ _ H4 Hw) as Hrange.
  assert (∀ x, x ∈ starts (base + 8) cs → w < x ∨ x + 8 ≤ w) as Hst
    by (intros x; by apply payload_start).
  split; [split; try done| done | |done].
  - rewrite !lookup_insert_ne by lia. done.
  - destruct H6 as (S1 & S2 & S3). split_and!.
    + eapply span_frame; [exact S1|]. intros x Hx%Hst. by rewrite !lookup_insert_ne by lia.
    + by rewrite lookup_insert_ne by lia.
    + by rewrite lookup_insert_ne by lia.
  - intros a Hra Hd. apply lookup_insert_is_Some'. right. by apply H7.
  - exists fl. split; [|done]. eapply flist_frame; [exact L1|]. intros x Hx.
    assert (w < x ∨ x + 16 ≤ w) as Hx'.
    { apply (rep_links _ _ _ _ _ _ _ Hr L2) in Hx. apply elem_of_app in Hx as [Hx|Hx].
      - pose proof (hook_range _ _ _ _ Ha Hx). lia.
      - apply list_elem_of_fmap in Hx as (p & -> & Hp). by eapply payload_free. }
    by rewrite !lookup_insert_ne by lia.
Qed.

(** ** No two free chunks are next to each other *)

Fixpoint coalesced (cs : list chunk) : Prop :=
  match cs with
  | c :: cs => (c.2 = false → hd_used cs = true) ∧ coalesced cs
  | [] => True
  end.

Definition end_used (cs : list chunk) : bool :=
  match last cs with Some c => c.2 | None => true end.

Lemma coalesced_app c1 c2 :
  coalesced (c1 ++ c2) ↔
  coalesced c1 ∧ coalesced c2 ∧ (end_used c1 = false → hd_used c2 = true).
Proof.
  unfold end_used. induction c1 as [|c c1 IH]; simpl; [naive_solver|].
  rewrite IH. destruct c1 as [|d c1]; simpl; [|naive_solver]. naive_solver.
Qed.

End HeapRep.
