(* ===== verification/Alloc.v ===== *)
(** * Allocation and release

    The lemmas on [mm_malloc] and [mm_free]: each refines an operation on
    the list of chunks, and the words of every allocated block are kept. *)

From S2P Require Import Prelude Queue Heap HeapRep.

Module Alloc.
Import Heap HeapRep.

(** ** Specification *)

(** A chunk of size [s] from which [n] bytes are taken. *)
Definition carve (n s : Z) : list chunk :=
  if 16 <=? s - n then [(n, true); (s - n, false)] else [(s, true)].

Lemma u32_id z : 0 ≤ z < 2 ^ 32 → u32 z = z.
Proof. apply u32_small. Qed.

(** Looking up a word in memory that was written at other words. *)
Ltac look :=
  repeat first
    [ rewrite lookup_insert_eq
    | rewrite lookup_insert_ne by lia ].

Ltac exec := unfold node_size, preceding, set_size, set_preceding.

(** A free chunk of size [s] joined with the free chunk behind it, or with the
    one before it, if that is free. *)
Definition absorb_next (s : Z) (c2 : list chunk) : Z * list chunk :=
  match c2 with
  | (t, false) :: c2 => (s + t, c2)
  | _ => (s, c2)
  end.

Definition absorb_prev (c1 : list chunk) (s : Z) : list chunk * Z :=
  match last c1 with
  | Some (t, false) => (removelast c1, t + s)
  | _ => (c1, s)
  end.

(** The chunks after the release of the chunk of size [s] between [c1] and [c2]. *)
Definition release (c1 : list chunk) (s : Z) (c2 : list chunk) : list chunk :=
  let n := absorb_next s c2 in
  let p := absorb_prev c1 n.1 in
  p.1 ++ (p.2, false) :: n.2.

Lemma carve_total n s : total (carve n s) = s.
Proof. unfold carve. destruct (16 <=? s - n); simpl; lia. Qed.

Ltac div4 :=
  repeat match goal with
  | H : (8 | _) |- _ => apply Z.mod_divide in H; [|discriminate]
  end;
  apply Z.mod_divide; [discriminate|]; Z.div_mod_to_equations; lia.

(** Setting the allocation bit of a chunk. *)
Lemma mark_used_spec m nl base c1 s c2 e F Q h :
  let x := base + 8 + total c1 in
  rep m nl base (c1 ++ (s, false) :: c2) e F →
  F ⊆ free_nodes (base + 8) c1 ++ free_nodes (x + s) c2 →
  (∀ m', rep m' nl base (c1 ++ (s, true) :: c2) e F →
    data_kept base (c1 ++ (s, false) :: c2) m m' → Q (x + 8) (set_mem m' h)) →
  wp (p <-- preceding x ;; set_preceding x (Z.lor p MM_ALLOC_BIT) ;;;
      ret (u32 (x + SIZEOF_MM_ALLOCNODE)))%cmd Q (set_mem m h).
Proof.
  intros x Hr HF HQ. pose proof (rep_region _ _ _ _ _ _ Hr) as Hreg.
  pose proof (region_mid _ _ _ _ _ _ _ Hreg) as [(E1 & E2 & E3) B].
  cbv zeta in *. fold x in E1, E2, E3, B. change MM_ALLOC_BIT with (2 ^ 31) in B.
  exec. rewrite wp_bind, (wp_load _ (tag (endsz 8 c1) false)) by (done || lia).
  rewrite wp_bind, wp_store by (by rewrite E2 || lia).
  rewrite wp_ret, tag_set by tauto. change SIZEOF_MM_ALLOCNODE with 8.
  rewrite u32_id by lia.
  destruct (rep_edit m (<[x + 4 := tag (endsz 8 c1) true]> m) nl base c1 [(s, false)]
    [(s, true)] c2 e F) as [H1 H2]; try done.
  - constructor; [|done]. simpl. tauto.
  - simpl. fold x. look. done.
  - simpl. fold x. rewrite Z.add_0_r. look. done.
  - simpl. fold x. rewrite Z.add_0_r. apply within_insert; [apply within_refl|lia].
  - simpl. fold x. by rewrite Z.add_0_r.
  - apply HQ; [done|]. intros w Hw. simpl in H2. rewrite Z.add_0_r in H2. apply H2.
    apply payload_app in Hw as [Hw|[[? _]|Hw]]; [by left|done|by right].
Qed.

(** Words of the region exist. *)
Lemma rep_ram m nl base cs e F a :
  rep m nl base cs e F → base ≤ a < e + 8 → (4 | a) → is_Some (m !! a).
Proof. intros H. apply (rg_ram _ _ _ _ (rep_region _ _ _ _ _ _ H)). Qed.

(** Cutting a free chunk in two. *)
Lemma split_spec m nl base c1 k c2 e n Q h :
  let x := base + 8 + total c1 in
  let G := free_nodes (base + 8) c1 ++ free_nodes (x + k) c2 in
  mm_nodelist h = nl → rep m nl base (c1 ++ (k, false) :: c2) e G →
  16 ≤ n → 16 ≤ k - n → (8 | n) →
  (∀ m', rep m' nl base (c1 ++ [(n, false); (k - n, false)] ++ c2) e ((x + n, k - n) :: G) →
    data_kept base (c1 ++ (k, false) :: c2) m m' → Q tt (set_mem m' h)) →
  wp (set_size (x + n) (k - n) ;;; set_preceding (x + n) n ;;; set_size x n ;;;
      p <-- preceding (x + k) ;;
      set_preceding (x + k) (Z.lor (k - n) (Z.land p MM_ALLOC_BIT)) ;;;
      mm_addfreechunk (x + n))%cmd Q (set_mem m h).
Proof.
  intros x G Hnl Hr Hn Hkn Hdiv HQ. pose proof (rep_region _ _ _ _ _ _ Hr) as Hreg.
  pose proof (region_mid _ _ _ _ _ _ _ Hreg) as [(E1 & E2 & E3) B].
  cbv zeta in E1, E2, E3, B. fold x in E1, E2, E3, B. change MM_ALLOC_BIT with (2 ^ 31) in B.
  destruct B as (B1 & B2 & B3 & B4 & B5 & B6 & B7 & B8 & B9).
  assert (is_Some (m !! (x + n))) by (eapply rep_ram; [exact Hr|lia|div4]).
  assert (is_Some (m !! (x + n + 4))) by (eapply rep_ram; [exact Hr|lia|div4]).
  exec.
  rewrite wp_bind, wp_store by (done || lia).
  rewrite wp_bind, wp_store by ((look; done) || lia).
  rewrite wp_bind, wp_store by ((look; by rewrite E1) || lia).
  rewrite wp_bind, (wp_load _ (tag k (hd_used c2))) by ((look; done) || lia).
  rewrite wp_bind, wp_store by ((look; by rewrite E3) || lia).
  rewrite retag by (unfold MM_ALLOC_BIT; lia).
  set (m2 := <[x + k + 4 := _]> _).
  destruct (rep_edit m m2 nl base c1 [(k, false)] [(n, false); (k - n, false)] c2 e G) as [H1 H2];
    subst m2; simpl; fold x; rewrite ?Z.add_0_r; try done.
  - constructor; [done|constructor; [|done]]. simpl. split; [lia|by apply Z.divide_sub_r].
  - lia.
  - look. done.
  - look. done.
  - repeat apply within_insert; try lia. apply within_refl.
  - simpl in H2. fold x in H2. rewrite Z.add_0_r in H2.
    eapply (wp_rep_add _ nl base _ e (x + n) (k - n) G); [done|exact H1| | |look; done|].
    + rewrite free_nodes_app. apply elem_of_app. right. fold x. simpl. right. by left.
    + pose proof (rg_good _ _ _ _ Hreg) as [Hg1 [_ Hg2]%Forall_cons]%Forall_app.
      subst G. rewrite fmap_app. intros Hx. apply elem_of_app in Hx as [Hx|Hx];
        apply list_elem_of_fmap in Hx as (p & Ep & Hp%free_nodes_starts).
      * destruct (starts_range _ _ _ Hg1 Hp). lia.
      * destruct (starts_range _ _ _ Hg2 Hp). lia.
    + intros m' Hr' Hk. apply HQ; [done|]. intros w Hw.
      apply payload_app in Hw. fold x in Hw. simpl in Hw.
      assert (payload (base + 8) c1 w ∨ payload (x + k) c2 w) as Hw'.
      { destruct Hw as [Hw|[[? _]|Hw]]; [by left|done|by right]. }
      rewrite Hk; [by apply H2|]. apply payload_app. fold x. simpl.
      replace (x + n + (k - n)) with (x + k) by lia. tauto.
Qed.

Lemma take_node_spec m nl base c1 k c2 e n F Q h :
  let x := base + 8 + total c1 in
  mm_nodelist h = nl →
  rep m nl base (c1 ++ (k, false) :: c2) e F →
  F ≡ₚ free_nodes (base + 8) (c1 ++ (k, false) :: c2) →
  16 ≤ n ≤ k → (8 | n) →
  (∀ m', rep m' nl base (c1 ++ carve n k ++ c2) e (free_nodes (base + 8) (c1 ++ carve n k ++ c2)) →
    data_kept base (c1 ++ (k, false) :: c2) m m' → Q (x + 8) (set_mem m' h)) →
  wp (take_node x n) Q (set_mem m h).
Proof.
  intros x Hnl Hr HF Hn Hdiv HQ.
  set (G := free_nodes (base + 8) c1 ++ free_nodes (x + k) c2).
  assert (F ≡ₚ (x, k) :: G) as HF'.
  { rewrite HF, free_nodes_app. simpl. by rewrite <- Permutation_middle. }
  apply (rep_perm _ _ _ _ _ _ _ HF') in Hr.
  unfold take_node. rewrite wp_bind. eapply wp_rep_unlink; [exact Hr|]. intros m1 Hr1 Hk1.
  pose proof (rep_region _ _ _ _ _ _ Hr1) as Hreg.
  pose proof (region_mid _ _ _ _ _ _ _ Hreg) as [(E1 & E2 & E3) B].
  cbv zeta in E1, E2, E3, B. fold x in E1, E2, E3, B. change MM_ALLOC_BIT with (2 ^ 31) in B.
  unfold node_size at 1. rewrite wp_bind, (wp_load _ k) by (done || lia).
  rewrite (u32_id (k - n)) by lia. rewrite wp_bind. apply (proj2 (wp_when _ _ _ _)).
  unfold carve in HQ. change SIZEOF_MM_FREENODE with 16.
  destruct (16 <=? k - n) eqn:C; zify_bools.
  - rewrite (u32_id (x + k)), (u32_id (x + n)) by lia.
    apply (split_spec m1 nl base c1 k c2 e n); [done..|lia|lia|done|]. intros m2 Hr2 Hk2.
    fold x in Hr2. change ([(n, false); (k - n, false)] ++ c2) with ((n, false) :: (k - n, false) :: c2) in Hr2.
    eapply (mark_used_spec m2 nl base c1 n); [exact Hr2| |].
    + intros p [->|Hp]%elem_of_cons; fold x; simpl; replace (x + n + (k - n)) with (x + k) by lia.
      * apply elem_of_app. right. by left.
      * apply elem_of_app in Hp as [Hp|Hp]; apply elem_of_app; [by left|right; by right].
    + intros m3 Hr3 Hk3. apply HQ.
      * eapply rep_perm; [|exact Hr3]. rewrite free_nodes_app. fold x. simpl.
        replace (x + n + (k - n)) with (x + k) by lia. by rewrite <- Permutation_middle.
      * intros w Hw. rewrite Hk3, Hk2, Hk1; [done..|].
        rewrite !payload_app in *. simpl in *. fold x in Hw |- *.
        replace (x + n + (k - n)) with (x + k) by lia. naive_solver.
  - eapply (mark_used_spec m1 nl base c1 k c2 e G); [done|done|]. intros m' Hr' Hk'. apply HQ.
    + eapply rep_perm; [|exact Hr']. by rewrite free_nodes_app.
    + intros w Hw. rewrite Hk' by done. by apply Hk1.
Qed.

(** ** The heap between operations *)

Definition unlocked (h : heap) : Prop :=
  mm_semaphore h = 1 ∧ mm_holder h = -1 ∧ mm_counts_held h = 0 ∧ 0 ≤ getpid h.

Record hrep (h : heap) (cs : list chunk) : Prop := mkhrep {
  hr_lock : unlocked h;
  hr_rep : rep (mem h) (mm_nodelist h) (mm_heapstart h) cs (mm_heapend h)
             (free_nodes (mm_heapstart h + 8) cs) }.

Definition locked (h : heap) : heap := set_lock 0 (getpid h) 1 h.

Lemma wp_take_lock Q h cs : hrep h cs →
  wp mm_takesemaphore Q h = Q tt (set_mem (mem h) (locked h)).
Proof.
  intros [(L1 & L2 & L3 & L4) _]. unfold mm_takesemaphore, sem_wait.
  rewrite !wp_bind, !wp_gets, wp_bind, wp_gets, L2.
  rewrite (proj2 (Z.eqb_neq (-1) (getpid h))) by lia.
  rewrite wp_bind. unfold wp at 1. rewrite L1. by destruct h.
Qed.

Lemma wp_give_unlocked Q h m : unlocked h →
  wp mm_givesemaphore Q (set_mem m (locked h)) = Q tt (set_mem m h).
Proof.
  intros (L1 & L2 & L3 & L4). unfold mm_givesemaphore, sem_post.
  rewrite !wp_bind, !wp_gets, wp_bind, wp_gets.
  rewrite wp_bind, wp_assert by apply Z.eqb_refl.
  rewrite wp_bind, wp_gets. cbn [locked set_lock set_mem mm_counts_held].
  change (1 <? 1) with false. cbn iota.
  rewrite wp_bind, wp_modify, wp_bind, wp_gets. cbn.
  destruct h; simpl in *. by subst.
Qed.

Lemma wp_give_lock Q h cs m : hrep h cs →
  wp mm_givesemaphore Q (set_mem m (locked h)) = Q tt (set_mem m h).
Proof. intros [L _]. by apply wp_give_unlocked. Qed.

Lemma hrep_set h m cs cs' :
  hrep h cs →
  rep m (mm_nodelist h) (mm_heapstart h) cs' (mm_heapend h) (free_nodes (mm_heapstart h + 8) cs') →
  hrep (set_mem m h) cs'.
Proof. intros [L _] H. by split. Qed.

(** ** Allocation *)

Lemma chunk_size_bounds size : 1 ≤ size → size + 23 < 2 ^ 32 →
  16 ≤ chunk_size size ∧ size + 8 ≤ chunk_size size ≤ size + 23 ∧ (8 | chunk_size size).
Proof.
  intros H1 H2. unfold chunk_size. change SIZEOF_MM_ALLOCNODE with 8.
  rewrite u32_id, align_up_eq by lia. split_and!; try (Z.div_mod_to_equations; lia).
  exists (2 * ((size + 8 + 15) / 16)). lia.
Qed.

(** The search of [mm_malloc]: the best fitting free chunk, if there is one. *)
Lemma search_spec {A} m nl base cs e n (K : Z → M heap A) Q h :
  mm_nodelist h = nl → rep m nl base cs e (free_nodes (base + 8) cs) → 16 ≤ n →
  ((∀ p, p ∈ free_nodes (base + 8) cs → p.2 < n) → wp (K NULL) Q (set_mem m h)) →
  (∀ x k, (x, k) ∈ free_nodes (base + 8) cs → n ≤ k → 0 < x →
    (∀ p, p ∈ free_nodes (base + 8) cs → n ≤ p.2 → k ≤ p.2) → wp (K x) Q (set_mem m h)) →
  wp (list <-- gets (hook (if MM_MAX_CHUNK <=? n then MM_NNODES - 1 else mm_size2ndx n)) ;;
      first <-- flink list ;;
      f <-- gets fuel ;;
      node <-- find_fit f n first ;;
      K node)%cmd Q (set_mem m h).
Proof.
  intros Hnl Hr Hn HQ1 HQ2. pose proof Hr as [H1 H2 (fl & H3 & H4) _].
  assert ((if MM_MAX_CHUNK <=? n then MM_NNODES - 1 else mm_size2ndx n) = mm_size2ndx n) as ->.
  { unfold mm_size2ndx. by destruct (MM_MAX_CHUNK <=? n). }
  pose proof (size2ndx_bounds n Hn) as (Hi & Hlo & Hhi). cbv zeta in Hi, Hlo, Hhi.
  set (i := mm_size2ndx n) in *. set (hk := (nl + 16 * i, 2 ^ (4 + i) - 1)).
  pose proof (flist_fuel _ _ _ h H3) as Hfuel.
  assert (hk ∈ fl) as (f1 & f2 & ->)%list_elem_of_split.
  { apply H3, hook_nodes_elem. eauto. }
  destruct (fl_links _ _ _ H3) as [e' Hs]. rewrite fmap_app, fmap_cons in Hs.
  apply dseg_app in Hs as (c & r & _ & Hs). destruct Hs as (-> & Hhk & _ & nx & Hf & Hs).
  assert (∀ p, p ∈ free_nodes (base + 8) cs → n ≤ p.2 → p ∈ f2) as Hin.
  { intros p Hp Hpn. assert (p ∈ f1 ++ hk :: f2) as Hp' by (rewrite H4; apply elem_of_app; by right).
    apply elem_of_app in Hp' as [Hp'|[->|Hp']%elem_of_cons]; [|cbn [hk snd] in Hpn; lia|done].
    pose proof (fl_sorted _ _ _ H3) as (Hs1 & _ & _)%StronglySorted_app.
    specialize (Hs1 p hk Hp' (list_elem_of_here _ _)). unfold key_le in Hs1. cbn [hk snd] in Hs1. lia. }
  assert (∀ p, p ∈ free_nodes (base + 8) cs → ¬ p ∈ hook_nodes nl) as Hnh.
  { intros p Hp Hh%(list_elem_of_fmap_2 fst). by eapply free_not_hook. }
  rewrite wp_bind, wp_gets. change (hook i (set_mem m h)) with (mm_nodelist h + 16 * i). rewrite Hnl.
  unfold flink. rewrite wp_bind, (wp_load _ nx) by (done || (cbn [hk fst] in Hhk; lia)).
  rewrite wp_bind, wp_gets, wp_bind.
  eapply wp_mono; [apply (find_fit_spec m nl n h f2 _ (nl + 16 * i) nx e')|].
  { lia. }
  { exact Hs. }
  { rewrite length_app in Hfuel. simpl in Hfuel. lia. }
  { intros p Hp. apply (fl_sizes _ _ _ H3). apply elem_of_app. right. by right. }
  intros x s (-> & [[-> Hall]|(la & k & lb & -> & Hx & Hk & Hh & Hla)]).
  - apply HQ1. intros p Hp. destruct (Z.lt_ge_cases p.2 n) as [?|Hpn]; [done|].
    destruct (Hall p (Hin p Hp Hpn)) as [?|?]; [by apply Hnh in Hp|done].
  - assert ((x, k) ∈ free_nodes (base + 8) cs) as Hxk.
    { assert ((x, k) ∈ f1 ++ hk :: la ++ (x, k) :: lb) as Hin'.
      { apply elem_of_app. right. right. apply elem_of_app. right. by left. }
      rewrite H4 in Hin'. by apply elem_of_app in Hin' as [?|?]. }
    apply (HQ2 x k Hxk Hk Hx). intros p Hp Hpn. pose proof (Hin p Hp Hpn) as Hp2.
    apply elem_of_app in Hp2 as [Hp2|[->|Hp2]%elem_of_cons]; [|done|].
    + destruct (Hla p Hp2) as [?|?]; [by apply Hnh in Hp|lia].
    + pose proof (fl_sorted _ _ _ H3) as (_ & _ & Hs2)%StronglySorted_app.
      apply StronglySorted_cons in Hs2 as (_ & Hs2). apply StronglySorted_app in Hs2 as (_ & _ & Hs2).
      apply StronglySorted_cons in Hs2 as (Hs2 & _). rewrite Forall_forall in Hs2. by apply Hs2.
Qed.

Lemma malloc_spec size h cs :
  hrep h cs → 1 ≤ size → 16 ≤ chunk_size size → (8 | chunk_size size) →
  wp (mm_malloc size) (λ r h',
    (r = NULL ∧ h' = h ∧
     ∀ p, p ∈ free_nodes (mm_heapstart h + 8) cs → p.2 < chunk_size size) ∨
    ∃ c1 s c2 m', cs = c1 ++ (s, false) :: c2 ∧ chunk_size size ≤ s ∧
      (∀ p, p ∈ free_nodes (mm_heapstart h + 8) cs → chunk_size size ≤ p.2 → s ≤ p.2) ∧
      r = mm_heapstart h + 8 + total c1 + 8 ∧ h' = set_mem m' h ∧
      hrep h' (c1 ++ carve (chunk_size size) s ++ c2) ∧
      data_kept (mm_heapstart h) cs (mem h) m') h.
Proof.
  intros Hh H1 N1 N3.
  unfold mm_malloc. rewrite (proj2 (Z.ltb_ge size 1)) by lia.
  set (n := chunk_size size) in *. rewrite wp_bind, (wp_take_lock _ _ _ Hh).
  pose proof (hr_rep _ _ Hh) as Hr.
  apply (search_spec _ _ _ _ _ _ _ _ (locked h) eq_refl Hr); [done|..].
  - intros Hall. rewrite wp_bind, Z.eqb_refl, wp_ret, wp_bind, (wp_give_lock _ _ _ _ Hh), wp_ret.
    left. by rewrite set_mem_id.
  - intros x k Hxk Hk Hx Hbest.
    destruct (free_nodes_split _ _ _ _ Hxk) as (c1 & c2 & Hcs & ->).
    rewrite (proj2 (Z.eqb_neq _ NULL)) by (unfold NULL; lia). rewrite wp_bind. subst cs.
    apply (take_node_spec _ _ _ _ _ _ _ _ _ _ (locked h) eq_refl Hr); [done|lia|done|].
    intros m' Hr' Hk'. rewrite wp_bind, (wp_give_lock _ _ _ _ Hh), wp_ret. right.
    exists c1, k, c2, m'. split_and!; try done. by eapply hrep_set.
Qed.

(** ** Release *)

(** The free chunks but the one between [c1] and [c2]. *)
Definition others (base : Z) (c1 : list chunk) (s : Z) (c2 : list chunk) : list (Z * Z) :=
  free_nodes (base + 8) c1 ++ free_nodes (base + 8 + total c1 + s) c2.

Lemma data_kept_trans base cs cs' m m1 m2 :
  data_kept base cs m m1 → data_kept base cs' m1 m2 →
  (∀ w, payload (base + 8) cs' w → payload (base + 8) cs w) →
  data_kept base cs' m m2.
Proof. intros H1 H2 Hs w Hw. rewrite H2 by done. by apply H1, Hs. Qed.

(** Two adjacent free chunks become one. *)
Lemma join_rep m nl base c1 s t c2 e :
  let x := base + 8 + total c1 in
  rep m nl base (c1 ++ (s, false) :: (t, false) :: c2) e (others base c1 (s + t) c2) →
  let m' := <[x + s + t + 4 := tag (s + t) (hd_used c2)]> (<[x := s + t]> m) in
  rep m' nl base (c1 ++ (s + t, false) :: c2) e (others base c1 (s + t) c2) ∧
  data_kept base (c1 ++ (s + t, false) :: c2) m m'.
Proof.
  intros x Hr m'. pose proof (rep_region _ _ _ _ _ _ Hr) as Hreg.
  pose proof (region_mid _ _ _ _ _ _ _ Hreg) as [(E1 & E2 & E3) B].
  cbv zeta in E1, E2, E3, B. fold x in E1, E2, E3, B. simpl in B.
  destruct B as (B1 & B2 & B3 & B4 & B5 & B6 & B7 & B8 & B9).
  pose proof (rg_good _ _ _ _ Hreg) as [_ [_ [[Ht1 Ht2] _]%Forall_cons]%Forall_cons]%Forall_app.
  simpl in Ht1, Ht2.
  destruct (rep_edit m m' nl base c1 [(s, false); (t, false)] [(s + t, false)] c2 e
    (others base c1 (s + t) c2)) as [H1 H2];
    subst m'; simpl; fold x; rewrite ?Z.add_0_r; try done; try lia.
  - constructor; [|done]. simpl. split; [lia|by apply Z.divide_add_r].
  - look. done.
  - rewrite !Z.add_assoc. look. done.
  - repeat apply within_insert; try lia. apply within_refl.
  - split; [done|]. intros w Hw. apply H2. fold x. simpl. rewrite Z.add_0_r.
    apply payload_app in Hw as [Hw|[[? _]|Hw]]; [by left|done|by right].
Qed.

Lemma merge_next_spec m nl base c1 s c2 e Q h :
  let x := base + 8 + total c1 in
  let n := absorb_next s c2 in
  rep m nl base (c1 ++ (s, false) :: c2) e (others base c1 s c2) →
  (∀ m', rep m' nl base (c1 ++ (n.1, false) :: n.2) e (others base c1 n.1 n.2) →
    data_kept base (c1 ++ (s, false) :: c2) m m' → Q (x + n.1) (set_mem m' h)) →
  wp (merge_next x) Q (set_mem m h).
Proof.
  intros x n Hr HQ. pose proof (rep_region _ _ _ _ _ _ Hr) as Hreg.
  pose proof (region_mid _ _ _ _ _ _ _ Hreg) as [(E1 & E2 & E3) B].
  cbv zeta in E1, E2, E3, B. fold x in E1, E2, E3, B.
  assert (MM_ALLOC_BIT < 2 ^ 32) as HB by done.
  unfold merge_next. exec.
  rewrite wp_bind, (wp_load _ s) by (done || lia). rewrite (u32_id (x + s)) by lia.
  rewrite wp_bind, (wp_load _ (tag s (hd_used c2))) by (done || lia).
  rewrite tag_test by lia.
  destruct c2 as [|[t [|]] c2]; cbn [hd_used snd negb];
    [rewrite wp_ret; by apply HQ| rewrite wp_ret; by apply HQ|].
  pose proof (region_pair _ _ _ _ _ _ _ _ _ Hreg) as [(_ & _ & E4 & _) B'].
  cbv zeta in E4, B'. fold x in E4, B'. clear E1 E2 E3 B.
  rewrite wp_bind, (wp_load _ t) by (done || lia). rewrite (u32_id (x + s + t)) by lia.
  rewrite wp_bind. eapply (wp_rep_unlink _ _ _ _ _ (x + s) t (others base c1 (s + t) c2)).
  { eapply rep_perm; [|exact Hr]. unfold others. simpl. fold x.
    rewrite <- Permutation_middle, Z.add_assoc. done. }
  intros m1 Hr1 Hk1.
  pose proof (region_pair _ _ _ _ _ _ _ _ _ (rep_region _ _ _ _ _ _ Hr1)) as [(E1 & _ & E2 & _ & E3) _].
  cbv zeta in E1, E2, E3. fold x in E1, E2, E3.
  rewrite wp_bind, (wp_load _ s) by (done || lia). rewrite wp_bind, (wp_load _ t) by (done || lia).
  rewrite wp_bind, wp_store by (by rewrite E1 || lia). rewrite (u32_id (s + t)) by lia.
  rewrite wp_bind, (wp_load _ (s + t)) by ((look; done) || lia).
  rewrite wp_bind, (wp_load _ (tag t (hd_used c2))) by ((look; done) || lia).
  rewrite wp_bind, wp_store by ((look; by rewrite E3) || lia). rewrite retag by lia.
  rewrite wp_ret. destruct (join_rep _ _ _ _ _ _ _ _ Hr1) as [Hr2 Hk2]. fold x in Hr2, Hk2.
  pose proof (HQ _ Hr2) as HQ'. change n.1 with (s + t) in HQ'. rewrite Z.add_assoc in HQ'. apply HQ'.
  intros w Hw. rewrite Hk2; [by apply Hk1|]. by apply payload_join.
Qed.

(** The same for the chunk before. *)
Lemma merge_prev_spec m nl base c1 s c2 e Q h :
  let x := base + 8 + total c1 in
  let p := absorb_prev c1 s in
  rep m nl base (c1 ++ (s, false) :: c2) e (others base c1 s c2) →
  (∀ m', rep m' nl base (p.1 ++ (p.2, false) :: c2) e (others base p.1 p.2 c2) →
    data_kept base (c1 ++ (s, false) :: c2) m m' →
    Q (base + 8 + total p.1) (set_mem m' h)) →
  wp (merge_prev x (x + s)) Q (set_mem m h).
Proof.
  intros x p Hr HQ. pose proof (rep_region _ _ _ _ _ _ Hr) as Hreg.
  pose proof (region_mid _ _ _ _ _ _ _ Hreg) as [(E1 & E2 & E3) B].
  cbv zeta in E1, E2, E3, B. fold x in E1, E2, E3, B.
  assert (MM_ALLOC_BIT < 2 ^ 32) as HB by done.
  unfold merge_prev. exec.
  rewrite wp_bind, (wp_load _ (endsz 8 c1)) by (done || lia).
  destruct c1 as [|[t v] c1 _] using rev_ind.
  - destruct (rg_start _ _ _ _ Hreg) as [_ E4]. simpl in *.
    rewrite (u32_id (x - 8)) by lia. replace (x - 8) with base by lia.
    rewrite wp_bind, (wp_load _ MM_ALLOC_BIT) by (done || lia).
    change (Z.land MM_ALLOC_BIT MM_ALLOC_BIT =? 0) with false. cbn iota.
    rewrite wp_ret. by apply HQ.
  - assert (x = base + 8 + total c1 + t) as Hx by (subst x; rewrite total_app; simpl; lia).
    assert (endsz 8 (c1 ++ [(t, v)]) = t) as Et by (unfold endsz; by rewrite foldl_app).
    rewrite <- app_assoc in Hr, Hreg. simpl in Hr, Hreg.
    pose proof (region_pair _ _ _ _ _ _ _ _ _ Hreg) as [(_ & E4 & _) B']. cbv zeta in E4, B'.
    rewrite Et. clearbody x. set (y := base + 8 + total c1) in *. subst x.
    replace (y + t - t) with y by lia. rewrite (u32_id y) by lia.
    rewrite wp_bind, (wp_load _ (tag (endsz 8 c1) v)) by (done || lia).
    rewrite tag_test by lia. subst p. unfold absorb_prev in HQ. rewrite last_snoc in HQ.
    destruct v; cbn [negb].
    { cbn [fst snd] in HQ. rewrite wp_ret.
      replace (y + t) with (base + 8 + total (c1 ++ [(t, true)]))
        by (rewrite total_app; simpl; lia).
      apply HQ; [|done]. rewrite <- app_assoc. done. }
    rewrite removelast_last in HQ. cbn [fst snd] in HQ.
    rewrite wp_bind. eapply (wp_rep_unlink _ _ _ _ _ y t (others base c1 (t + s) c2)).
    { eapply rep_perm; [|exact Hr]. unfold others. rewrite free_nodes_app, total_app. simpl.
      fold y. rewrite <- app_assoc. simpl. rewrite <- Permutation_middle.
      by replace (base + 8 + (total c1 + (t + 0)) + s) with (y + (t + s)) by lia. }
    intros m1 Hr1 Hk1.
    pose proof (region_pair _ _ _ _ _ _ _ _ _ (rep_region _ _ _ _ _ _ Hr1)) as [(E5 & _ & E6 & _ & E7) _].
    cbv zeta in E5, E6, E7. fold y in E5, E6, E7.
    rewrite wp_bind, (wp_load _ t) by (done || lia). rewrite wp_bind, (wp_load _ s) by (done || lia).
    rewrite wp_bind, wp_store by (by rewrite E5 || lia). rewrite (u32_id (t + s)) by lia.
    rewrite wp_bind, (wp_load _ (t + s)) by ((look; done) || lia).
    rewrite wp_bind, (wp_load _ (tag s (hd_used c2))) by ((look; done) || lia).
    rewrite wp_bind, wp_store by ((look; by rewrite E7) || lia). rewrite retag by lia.
    rewrite wp_ret. destruct (join_rep _ _ _ _ _ _ _ _ Hr1) as [Hr2 Hk2]. fold y in Hr2, Hk2.
    apply (HQ _ Hr2). rewrite <- app_assoc. intros w Hw.
    rewrite Hk2; [by apply Hk1|]. by apply payload_join.
Qed.

Lemma absorb_next_payload a c1 s c2 w :
  payload a (c1 ++ (s, false) :: c2) w →
  payload a (c1 ++ ((absorb_next s c2).1, false) :: (absorb_next s c2).2) w.
Proof. destruct c2 as [|[t []] c2]; [done..|]. apply payload_join. Qed.

Lemma absorb_prev_payload a c1 s c2 w :
  payload a (c1 ++ (s, false) :: c2) w →
  payload a ((absorb_prev c1 s).1 ++ ((absorb_prev c1 s).2, false) :: c2) w.
Proof.
  unfold absorb_prev. destruct c1 as [|[t v] c1 _] using rev_ind; [done|].
  rewrite last_snoc. destruct v; [done|]. rewrite removelast_last, <- app_assoc. apply payload_join.
Qed.

Lemma others_perm base c1 s c2 :
  (base + 8 + total c1, s) :: others base c1 s c2 ≡ₚ
  free_nodes (base + 8) (c1 ++ (s, false) :: c2).
Proof. unfold others. rewrite free_nodes_app. simpl. apply Permutation_middle. Qed.

Lemma others_fresh m base c1 s u c2 e :
  region m base (c1 ++ (s, u) :: c2) e → base + 8 + total c1 ∉ (others base c1 s c2).*1.
Proof.
  intros Hr. pose proof (rg_good _ _ _ _ Hr) as [Hg1 [[Hs _] Hg2]%Forall_cons]%Forall_app.
  simpl in Hs. unfold others. rewrite fmap_app. intros Hx.
  apply elem_of_app in Hx as [Hx|Hx]; apply list_elem_of_fmap in Hx as (p & Ep & Hp%free_nodes_starts).
  - destruct (starts_range _ _ _ Hg1 Hp). lia.
  - destruct (starts_range _ _ _ Hg2 Hp). lia.
Qed.

(** A chunk held back goes to the free list. *)
Lemma give_back_spec m nl base c1 s c2 e Q h :
  mm_nodelist h = nl → rep m nl base (c1 ++ (s, false) :: c2) e (others base c1 s c2) →
  (∀ m', rep m' nl base (c1 ++ (s, false) :: c2) e
           (free_nodes (base + 8) (c1 ++ (s, false) :: c2)) →
    data_kept base (c1 ++ (s, false) :: c2) m m' → Q tt (set_mem m' h)) →
  wp (mm_addfreechunk (base + 8 + total c1)) Q (set_mem m h).
Proof.
  intros Hnl Hr HQ. pose proof (rep_region _ _ _ _ _ _ Hr) as Hreg.
  pose proof (region_mid _ _ _ _ _ _ _ Hreg) as [(E1 & _) _].
  apply (wp_rep_add _ nl base _ e _ s _ _ _ Hnl Hr); [|by eapply others_fresh|done|].
  - rewrite <- others_perm. by left.
  - intros m' Hr' Hk. apply HQ; [|done]. eapply rep_perm; [apply others_perm|exact Hr'].
Qed.

(** [mm_free] on an allocated block. *)
Lemma free_spec h c1 s c2 :
  hrep h (c1 ++ (s, true) :: c2) →
  wp (mm_free (mm_heapstart h + 8 + total c1 + 8)) (λ _ h', ∃ m', h' = set_mem m' h ∧
    hrep h' (release c1 s c2) ∧
    data_kept (mm_heapstart h) (c1 ++ (s, false) :: c2) (mem h) m') h.
Proof.
  intros Hh. pose proof (hr_rep _ _ Hh) as Hr.
  set (base := mm_heapstart h) in *. set (nl := mm_nodelist h) in *. set (e := mm_heapend h) in *.
  pose proof (region_mid _ _ _ _ _ _ _ (rep_region _ _ _ _ _ _ Hr)) as [(E1 & E2 & E3) B].
  cbv zeta in E1, E2, E3, B. set (x := base + 8 + total c1) in *.
  unfold mm_free. rewrite (proj2 (Z.eqb_neq _ NULL)) by (unfold NULL; lia).
  rewrite wp_bind, (wp_take_lock _ _ _ Hh). change SIZEOF_MM_ALLOCNODE with 8.
  replace (x + 8 - 8) with x by lia. rewrite (u32_id x) by lia. unfold preceding, set_preceding.
  rewrite wp_bind, (wp_load _ (tag (endsz 8 c1) true)) by (done || lia).
  rewrite wp_bind, wp_store by (by rewrite E2 || lia). rewrite tag_clear by lia.
  destruct (rep_edit (mem h) (<[x + 4 := endsz 8 c1]> (mem h)) nl base c1 [(s, true)]
    [(s, false)] c2 e (free_nodes (base + 8) (c1 ++ (s, true) :: c2))) as [Hr1 Hk1];
    simpl; fold x; rewrite ?Z.add_0_r; try done.
  { constructor; [|done]. simpl. tauto. }
  { look. done. }
  { look. done. }
  { apply within_insert; [apply within_refl|lia]. }
  { rewrite free_nodes_app. done. }
  simpl in Hk1. fold x in Hk1. rewrite Z.add_0_r in Hk1.
  rewrite free_nodes_app in Hr1. simpl in Hr1. fold (others base c1 s c2) in Hr1.
  rewrite wp_bind. apply (merge_next_spec _ nl base c1 s c2 e); [done|]. intros m2 Hr2 Hk2.
  set (n := absorb_next s c2) in *. fold x.
  rewrite wp_bind. apply (merge_prev_spec _ nl base c1 n.1 n.2 e); [done|]. intros m3 Hr3 Hk3.
  set (p := absorb_prev c1 n.1) in *.
  rewrite wp_bind. apply (give_back_spec _ nl base p.1 p.2 n.2 e); [done|done|]. intros m4 Hr4 Hk4.
  rewrite (wp_give_lock _ _ _ _ Hh). exists m4. split; [done|]. split; [by eapply hrep_set|].
  intros w Hw. pose proof (absorb_next_payload _ _ _ _ _ Hw) as Hw2.
  pose proof (absorb_prev_payload _ _ _ _ _ Hw2) as Hw3.
  rewrite Hk4, Hk3, Hk2, Hk1; [done|..|done|done|done].
  apply payload_app in Hw as [Hw|[[? _]|Hw]]; [by left|done|by right].
Qed.

End Alloc.
