(* ===== verification/HeapBytes.v ===== *)
(** * Clearing and copying memory

    [memset] and [memcpy] go byte by byte over memory that the heap reads and
    writes by words.  On aligned areas they act on whole words: [memset]
    clears them, and [memcpy] moves them in ascending order, which is also
    right for an area that moves down onto itself. *)

From S2P Require Import Prelude Queue Heap HeapRep Alloc.

Module HeapBytes.
Import Heap HeapRep Alloc.

(** ** Bytes of a word *)

Definition get_byte (i w : Z) : Z := Z.land (Z.shiftr w (8 * i)) 255.

(** The word [w] with [v] in its byte [i]. *)
Definition put_byte (i v w : Z) : Z :=
  Z.lor (Z.land (u32 w) (Z.lnot (Z.shiftl 255 (8 * i)))) (Z.shiftl (u8 v) (8 * i)).

Lemma wrap_bits k w n : 0 ≤ k → 0 ≤ n → Z.testbit (wrap k w) n = (n <? k) && Z.testbit w n.
Proof.
  intros Hk Hn. unfold wrap. rewrite <- Z.land_ones, Z.land_spec by done.
  rewrite Z.testbit_ones by done. rewrite (proj2 (Z.leb_le 0 n)) by done. by rewrite andb_comm.
Qed.

Lemma put_byte_bits i v w n : 0 ≤ i < 4 → 0 ≤ n →
  Z.testbit (put_byte i v w) n =
  if (8 * i <=? n) && (n <? 8 * i + 8) then Z.testbit v (n - 8 * i) else (n <? 32) && Z.testbit w n.
Proof.
  intros Hi Hn. unfold put_byte, u32, u8. rewrite Z.lor_spec, Z.land_spec, Z.lnot_spec by done.
  rewrite !Z.shiftl_spec, wrap_bits by lia. change 255 with (Z.ones 8).
  destruct (Z.leb_spec (8 * i) n) as [Hlo|Hlo]; simpl.
  - rewrite wrap_bits, Z.testbit_ones by lia. rewrite (proj2 (Z.leb_le 0 (n - 8 * i))) by lia. simpl.
    destruct (Z.ltb_spec n (8 * i + 8)) as [Hhi|Hhi].
    + rewrite (proj2 (Z.ltb_lt (n - 8 * i) 8)) by lia. simpl. by rewrite andb_false_r.
    + rewrite (proj2 (Z.ltb_ge (n - 8 * i) 8)) by lia. simpl. by rewrite andb_true_r, orb_false_r.
  - rewrite !(Z.testbit_neg_r _ (n - 8 * i)) by lia. simpl. by rewrite andb_true_r, orb_false_r.
Qed.

Lemma get_byte_bits i w n : 0 ≤ i → 0 ≤ n →
  Z.testbit (get_byte i w) n = (n <? 8) && Z.testbit w (n + 8 * i).
Proof.
  intros Hi Hn. unfold get_byte. change 255 with (Z.ones 8).
  rewrite Z.land_spec, Z.shiftr_spec, Z.testbit_ones by done.
  rewrite (proj2 (Z.leb_le 0 n)) by done. by rewrite andb_comm.
Qed.

(** Decide a comparison with [n]. *)
Ltac settle n :=
  match goal with
  | |- context [?a <=? n] =>
      first [rewrite (proj2 (Z.leb_le a n)) by lia | rewrite (proj2 (Z.leb_gt a n)) by lia]
  | |- context [n <? ?b] =>
      first [rewrite (proj2 (Z.ltb_lt n b)) by lia | rewrite (proj2 (Z.ltb_ge n b)) by lia]
  end.

Definition put_word (v w : Z) : Z :=
  put_byte 3 (get_byte 3 v) (put_byte 2 (get_byte 2 v)
    (put_byte 1 (get_byte 1 v) (put_byte 0 (get_byte 0 v) w))).

Lemma put_word_eq v w : put_word v w = u32 v.
Proof.
  apply Z.bits_inj'. intros n Hn. unfold put_word, u32. rewrite (wrap_bits 32) by lia.
  rewrite !put_byte_bits by lia.
  assert (n < 8 ∨ 8 ≤ n < 16 ∨ 16 ≤ n < 24 ∨ 24 ≤ n < 32 ∨ 32 ≤ n) as H by lia.
  destruct_or! H; repeat settle n; simpl; rewrite ?get_byte_bits by lia;
    rewrite ?(proj2 (Z.ltb_lt _ 8)) by lia; simpl; try (f_equal; lia); done.
Qed.

Lemma byte_index p i : (4 | p) → 0 ≤ i < 4 → (p + i) mod 4 = i ∧ p + i - (p + i) mod 4 = p.
Proof. intros [q ->] Hi. split; Z.div_mod_to_equations; lia. Qed.

Lemma wp_store_byte p i v w m Q h :
  0 < p → (4 | p) → 0 ≤ i < 4 → m !! p = Some w →
  wp (store_byte (p + i) v) Q (set_mem m h) = Q tt (set_mem (<[p := put_byte i v w]> m) h).
Proof.
  intros Hp Hd Hi E. unfold store_byte. destruct (byte_index p i Hd Hi) as [E1 E2]. rewrite E2, E1.
  by rewrite wp_bind, (wp_load _ w), wp_store by (done || by rewrite E).
Qed.

Lemma wp_load_byte p i w m Q h :
  0 < p → (4 | p) → 0 ≤ i < 4 → m !! p = Some w →
  wp (load_byte (p + i)) Q (set_mem m h) = Q (get_byte i w) (set_mem m h).
Proof.
  intros Hp Hd Hi E. unfold load_byte. destruct (byte_index p i Hd Hi) as [E1 E2]. rewrite E2, E1.
  by rewrite wp_bind, (wp_load _ w), wp_ret.
Qed.

(** ** Clearing *)

(** The words of [n] bytes from [p] on hold zero. *)
Definition zeros (m : gmap Z Z) (p n : Z) : Prop :=
  ∀ a, p ≤ a < p + n → (4 | a) → m !! a = Some 0.

Ltac next_byte p i :=
  rewrite (u32_id (p + i + 1)) by lia;
  let j := eval compute in (i + 1) in replace (p + i + 1) with (p + j) by lia.

Lemma wp_clear_word n p w m Q h :
  0 < p → (4 | p) → p + 4 ≤ 2 ^ 32 → m !! p = Some w →
  wp (fill_bytes n (u32 (p + 4)) 0) Q (set_mem (<[p := 0]> m) h) →
  wp (fill_bytes (S (S (S (S n)))) p 0) Q (set_mem m h).
Proof.
  intros Hp Hd Hmax E HQ. change 0 with (u32 0) in HQ at 2.
  rewrite <- (put_word_eq 0 w) in HQ. rewrite <- (Z.add_0_r p). cbn [fill_bytes].
  rewrite wp_bind, (wp_store_byte p 0 0 w) by (done || lia). next_byte p 0.
  rewrite wp_bind, (wp_store_byte p 1 0 (put_byte 0 0 w)) by (rewrite ?lookup_insert_eq; done || lia).
  next_byte p 1. rewrite wp_bind, (wp_store_byte p 2 0 (put_byte 1 0 (put_byte 0 0 w)))
    by (rewrite ?lookup_insert_eq; done || lia).
  next_byte p 2. rewrite wp_bind, (wp_store_byte p 3 0 (put_byte 2 0 (put_byte 1 0 (put_byte 0 0 w))))
    by (rewrite ?lookup_insert_eq; done || lia).
  rewrite <- (Z.add_assoc p 3 1). by rewrite !insert_insert_eq.
Qed.

Lemma fill_words_spec k p m h :
  0 < p → (4 | p) → p + 4 * Z.of_nat k ≤ 2 ^ 32 →
  (∀ a, p ≤ a < p + 4 * Z.of_nat k → (4 | a) → is_Some (m !! a)) →
  wp (fill_bytes (4 * k) p 0) (λ _ s, ∃ m', s = set_mem m' h ∧
    zeros m' p (4 * Z.of_nat k) ∧
    (∀ a, a < p ∨ p + 4 * Z.of_nat k ≤ a → m' !! a = m !! a) ∧
    (∀ a, is_Some (m !! a) → is_Some (m' !! a))) (set_mem m h).
Proof.
  revert p m. induction k as [|k IH]; intros p m Hp Hd Hmax Hram.
  { simpl. rewrite wp_ret. exists m. split_and!; try done. intros a Ha. lia. }
  replace (4 * S k)%nat with (S (S (S (S (4 * k))))) by lia.
  rewrite Nat2Z.inj_succ in *.
  destruct (Hram p) as [w E]; [lia|done|].
  eapply (wp_clear_word _ _ w); [done|done|lia|done|].
  assert ((4 | p + 4)) as Hd4 by (apply Z.divide_add_r; [done|by exists 1]).
  eapply wp_mono with (Q := λ _ s, ∃ m', s = set_mem m' h ∧ zeros m' (p + 4) (4 * Z.of_nat k) ∧
    (∀ a, a < p + 4 ∨ p + 4 + 4 * Z.of_nat k ≤ a → m' !! a = <[p := 0]> m !! a) ∧
    (∀ a, is_Some (<[p := 0]> m !! a) → is_Some (m' !! a))).
  - destruct k as [|k].
    { simpl. rewrite wp_ret. eexists. split_and!; try done. intros a Ha. lia. }
    rewrite u32_id by lia. apply IH; [lia|done|lia|].
    intros a Ha H4. apply lookup_insert_is_Some'. right. apply Hram; [lia|done].
  - intros _ s (m' & -> & Z1 & Z2 & Z3). exists m'. split_and!; [done|..].
    + intros a Ha H4. destruct (decide (a = p)) as [->|Hne].
      * rewrite Z2 by lia. by rewrite lookup_insert_eq.
      * apply Z1; [|done]. destruct Hd as [d ->], H4 as [b ->]. lia.
    + intros a Ha. rewrite Z2 by lia. rewrite lookup_insert_ne by lia. done.
    + intros a Ha. apply Z3. apply lookup_insert_is_Some'. by right.
Qed.

(** ** Copying *)

Lemma wp_copy_word n p q v w m Q h :
  0 < p → 0 < q → (4 | p) → (4 | q) → p ≠ q → p + 4 ≤ 2 ^ 32 → q + 4 ≤ 2 ^ 32 →
  m !! p = Some w → m !! q = Some v →
  wp (copy_bytes n (u32 (p + 4)) (u32 (q + 4))) Q (set_mem (<[p := u32 v]> m) h) →
  wp (copy_bytes (S (S (S (S n)))) p q) Q (set_mem m h).
Proof.
  intros Hp Hq Dp Dq Hne Mp Mq Ep Eq HQ. rewrite <- (put_word_eq v w) in HQ.
  rewrite <- (Z.add_0_r p), <- (Z.add_0_r q). cbn [copy_bytes].
  rewrite wp_bind, (wp_load_byte q 0 v) by (done || lia).
  rewrite wp_bind, (wp_store_byte p 0 _ w) by (done || lia). next_byte p 0. next_byte q 0.
  rewrite wp_bind, (wp_load_byte q 1 v) by (rewrite ?lookup_insert_ne by done; done || lia).
  rewrite wp_bind, (wp_store_byte p 1 _ (put_byte 0 (get_byte 0 v) w))
    by (rewrite ?lookup_insert_eq; done || lia). next_byte p 1. next_byte q 1.
  rewrite insert_insert_eq.
  rewrite wp_bind, (wp_load_byte q 2 v) by (rewrite ?lookup_insert_ne by done; done || lia).
  rewrite wp_bind, (wp_store_byte p 2 _ _)
    by (apply lookup_insert_eq || done || lia). next_byte p 2. next_byte q 2.
  rewrite insert_insert_eq.
  rewrite wp_bind, (wp_load_byte q 3 v) by (rewrite ?lookup_insert_ne by done; done || lia).
  rewrite wp_bind, (wp_store_byte p 3 _ _) by (apply lookup_insert_eq || done || lia).
  rewrite insert_insert_eq. rewrite <- (Z.add_assoc p 3 1), <- (Z.add_assoc q 3 1). exact HQ.
Qed.

(** [n] bytes at [q] copied to [p]: the words of the target hold those of the
    source, and the rest of memory is unchanged. *)
Definition copied (m m' : gmap Z Z) (p q n : Z) : Prop :=
  (∀ a v, q ≤ a < q + n → (4 | a) → m !! a = Some v → m' !! (a - q + p) = Some (u32 v)) ∧
  (∀ a, a < p ∨ p + n ≤ a → m' !! a = m !! a) ∧
  (∀ a, is_Some (m !! a) → is_Some (m' !! a)).

Lemma copy_words_spec k p q m h :
  0 < p → 0 < q → (4 | p) → (4 | q) →
  p < q ∨ q + 4 * Z.of_nat k ≤ p →
  p + 4 * Z.of_nat k ≤ 2 ^ 32 → q + 4 * Z.of_nat k ≤ 2 ^ 32 →
  (∀ a, p ≤ a < p + 4 * Z.of_nat k → (4 | a) → is_Some (m !! a)) →
  (∀ a, q ≤ a < q + 4 * Z.of_nat k → (4 | a) → is_Some (m !! a)) →
  wp (copy_bytes (4 * k) p q) (λ _ s, ∃ m', s = set_mem m' h ∧ copied m m' p q (4 * Z.of_nat k))
    (set_mem m h).
Proof.
  revert p q m. induction k as [|k IH]; intros p q m Hp Hq Dp Dq Hpq Mp Mq Rp Rq.
  { simpl. rewrite wp_ret. exists m. split; [done|]. split_and!; try done. intros a v Ha. lia. }
  replace (4 * S k)%nat with (S (S (S (S (4 * k))))) by lia.
  rewrite Nat2Z.inj_succ in *.
  destruct (Rp p) as [w Ep]; [lia|done|]. destruct (Rq q) as [v Eq]; [lia|done|].
  eapply (wp_copy_word _ _ _ v w); [done|done|done|done|lia|lia|lia|done|done|].
  assert (4 | p + 4) as Dp4 by (apply Z.divide_add_r; [done|by exists 1]).
  assert (4 | q + 4) as Dq4 by (apply Z.divide_add_r; [done|by exists 1]).
  eapply wp_mono with (Q := λ _ s, ∃ m', s = set_mem m' h ∧
    copied (<[p := u32 v]> m) m' (p + 4) (q + 4) (4 * Z.of_nat k)).
  - destruct k as [|k].
    { simpl. rewrite wp_ret. eexists. split; [done|]. split_and!; try done. intros a x Ha. lia. }
    rewrite !u32_id by lia. apply IH; try done; try lia; intros a Ha H4;
      apply lookup_insert_is_Some'; right; [apply Rp|apply Rq]; lia || done.
  - intros _ s (m' & -> & C1 & C2 & C3). exists m'. split; [done|]. split_and!.
    + intros a x Ha H4 Ex. destruct (decide (a = q)) as [->|Hne].
      * rewrite C2 by lia. replace (q - q + p) with p by lia. rewrite lookup_insert_eq. congruence.
      * replace (a - q + p) with (a - (q + 4) + (p + 4)) by lia. apply C1; [|done|].
        { destruct Dq as [d ->], H4 as [b ->]. lia. }
        by rewrite lookup_insert_ne by lia.
    + intros a Ha. rewrite C2 by lia. by rewrite lookup_insert_ne by lia.
    + intros a Ha. apply C3. apply lookup_insert_is_Some'. by right.
Qed.

(** ** Writing inside a block *)

Lemma rep_inside m m' nl base c1 k c2 e :
  let y := base + 8 + total c1 in
  rep m nl base (c1 ++ (k, true) :: c2) e (free_nodes (base + 8) (c1 ++ (k, true) :: c2)) →
  (∀ a, is_Some (m !! a) → is_Some (m' !! a)) →
  (∀ a, a < y + 8 ∨ y + k ≤ a → m' !! a = m !! a) →
  rep m' nl base (c1 ++ (k, true) :: c2) e (free_nodes (base + 8) (c1 ++ (k, true) :: c2)) ∧
  data_kept base (c1 ++ (k, false) :: c2) m m'.
Proof.
  intros y Hr Hd Hm.
  pose proof (region_mid _ _ _ _ _ _ _ (rep_region _ _ _ _ _ _ Hr)) as [(E1 & E2 & E3) B].
  cbv zeta in E1, E2, E3, B. fold y in E1, E2, E3, B.
  destruct (rep_edit m m' nl base c1 [(k, true)] [(k, true)] c2 e
    (free_nodes (base + 8) (c1 ++ (k, true) :: c2))) as [Hr2 Hk2];
    simpl; fold y; rewrite ?Z.add_0_r; try done; try lia.
  - constructor; [|done]. simpl. tauto.
  - by rewrite !Hm by lia.
  - by rewrite !Hm by lia.
  - split; [done|]. intros a Ha _. apply Hm. lia.
  - rewrite free_nodes_app. simpl. fold y. done.
  - split; [done|]. intros w Hw. apply Hk2. simpl. rewrite Z.add_0_r.
    apply payload_app in Hw as [Hw|[[? _]|Hw]]; [by left|done|by right].
Qed.

(** ** Clearing bytes *)

(** The byte at [a]. *)
Definition byte_at (m : gmap Z Z) (a : Z) : option Z := get_byte (a mod 4) <$> m !! (a - a mod 4).

Lemma get_put_byte i j v w : 0 ≤ i < 4 → 0 ≤ j < 4 →
  get_byte j (put_byte i v w) = if i =? j then u8 v else get_byte j w.
Proof.
  intros Hi Hj. apply Z.bits_inj'. intros n Hn. rewrite get_byte_bits, put_byte_bits by lia.
  destruct (Z.eqb_spec i j) as [->|Hne].
  - unfold u8. rewrite (wrap_bits 8) by lia. destruct (Z.ltb_spec n 8); [|done]. cbn [andb].
    rewrite (proj2 (Z.leb_le _ _)), (proj2 (Z.ltb_lt _ (8 * j + 8))) by lia. cbn [andb]. f_equal. lia.
  - rewrite get_byte_bits by lia. destruct (Z.ltb_spec n 8); [|done]. cbn [andb].
    rewrite (proj2 (Z.ltb_lt _ 32)) by lia.
    destruct (Z.leb_spec (8 * i) (n + 8 * j)), (Z.ltb_spec (n + 8 * j) (8 * i + 8)); done || lia.
Qed.

Lemma byte_at_store p i v w m a : (4 | p) → 0 ≤ i < 4 → m !! p = Some w →
  byte_at (<[p := put_byte i v w]> m) a = if p + i =? a then Some (u8 v) else byte_at m a.
Proof.
  intros Dp Hi E. unfold byte_at. pose proof (Z.mod_pos_bound a 4 ltac:(lia)) as Ha.
  destruct (byte_index p i Dp Hi) as [E1 E2].
  destruct (decide (a - a mod 4 = p)) as [Ep|Hne].
  - rewrite Ep, lookup_insert_eq, E. simpl. rewrite get_put_byte by done.
    destruct (Z.eqb_spec i (a mod 4)), (Z.eqb_spec (p + i) a); done || lia.
  - rewrite lookup_insert_ne by done. destruct (Z.eqb_spec (p + i) a) as [<-|]; [|done]. lia.
Qed.

Lemma fill_bytes_spec n p m h :
  4 ≤ p → p + Z.of_nat n ≤ 2 ^ 32 →
  (∀ a, p - p mod 4 ≤ a < p + Z.of_nat n → (4 | a) → is_Some (m !! a)) →
  wp (fill_bytes n p 0) (λ _ s, ∃ m', s = set_mem m' h ∧
    (∀ a, p ≤ a < p + Z.of_nat n → byte_at m' a = Some 0) ∧
    (∀ a, a < p ∨ p + Z.of_nat n ≤ a → byte_at m' a = byte_at m a) ∧
    (∀ a, a < p - p mod 4 ∨ p + Z.of_nat n ≤ a → m' !! a = m !! a) ∧
    (∀ a, is_Some (m !! a) → is_Some (m' !! a))) (set_mem m h).
Proof.
  revert p m. induction n as [|n IH]; intros p m Hp Hmax Hram.
  { simpl. rewrite wp_ret. exists m. split_and!; try done. intros a Ha. lia. }
  rewrite Nat2Z.inj_succ in *. cbn [fill_bytes].
  pose proof (Z.mod_pos_bound p 4 ltac:(lia)) as Hi. set (i := p mod 4) in *. set (q := p - i) in *.
  assert (4 | q) as Dq by (exists (p / 4); subst q i; Z.div_mod_to_equations; lia).
  destruct (Hram q) as [w E]; [lia|done|]. assert (q + i = p) as Eq by lia.
  rewrite wp_bind, <- Eq, (wp_store_byte q i 0 w) by (done || lia). rewrite Eq.
  set (m1 := <[q := put_byte i 0 w]> m).
  assert (∀ a, is_Some (m !! a) → is_Some (m1 !! a)) as D1
    by (intros a Ha; apply lookup_insert_is_Some'; by right).
  assert (∀ a, byte_at m1 a = if p =? a then Some 0 else byte_at m a) as B1
    by (intros a; unfold m1; rewrite <- Eq; by apply byte_at_store).
  eapply wp_mono with (Q := λ _ s, ∃ m', s = set_mem m' h ∧
    (∀ a, p + 1 ≤ a < p + 1 + Z.of_nat n → byte_at m' a = Some 0) ∧
    (∀ a, a < p + 1 ∨ p + 1 + Z.of_nat n ≤ a → byte_at m' a = byte_at m1 a) ∧
    (∀ a, a < p + 1 - (p + 1) mod 4 ∨ p + 1 + Z.of_nat n ≤ a → m' !! a = m1 !! a) ∧
    (∀ a, is_Some (m1 !! a) → is_Some (m' !! a))).
  - destruct n as [|n].
    { simpl. rewrite wp_ret. exists m1. split_and!; try done. intros a Ha. lia. }
    rewrite u32_id by lia. apply IH; [lia|lia|].
    intros a Ha H4. apply D1, Hram; [|done]. split; [|lia].
    destruct Dq as [d Dq], H4 as [b ->]. Z.div_mod_to_equations. lia.
  - intros _ s (m' & -> & Z1 & Z2 & Z3 & Z4). exists m'. split_and!; [done|..].
    + intros a Ha. destruct (decide (a = p)) as [->|Hne]; [|apply Z1; lia].
      rewrite Z2, B1 by lia. by rewrite Z.eqb_refl.
    + intros a Ha. rewrite Z2, B1 by lia. by rewrite (proj2 (Z.eqb_neq p a)) by lia.
    + intros a Ha. rewrite Z3; [apply lookup_insert_ne; lia|].
      assert (q ≤ p + 1 - (p + 1) mod 4) by (subst q i; Z.div_mod_to_equations; lia). lia.
    + intros a Ha. by apply Z4, D1.
Qed.

End HeapBytes.
