(* ===== verification/HeapInit.v ===== *)
(** * Setting up the heap

    [mm_initialize] establishes the representation of [HeapRep] with one free
    chunk, for any region of memory. *)

From S2P Require Import Prelude Queue Heap HeapRep Alloc HeapBytes.

Module HeapInit.
Import Heap HeapRep Alloc HeapBytes.

(** ** The hooks *)

Definition hook_addrs (nl n : Z) : list Z := (λ i, nl + 16 * i) <$> seqZ 0 n.

Lemma hook_addrs_snoc nl n : 0 ≤ n → hook_addrs nl (n + 1) = hook_addrs nl n ++ [nl + 16 * n].
Proof.
  intros Hn. unfold hook_addrs. rewrite seqZ_app by lia. by rewrite fmap_app.
Qed.

Lemma hook_addrs_elem nl n x : x ∈ hook_addrs nl n ↔ ∃ i, 0 ≤ i < n ∧ x = nl + 16 * i.
Proof.
  unfold hook_addrs. rewrite list_elem_of_fmap. setoid_rewrite elem_of_seqZ. naive_solver lia.
Qed.

Lemma hook_addrs_nodup nl n : NoDup (hook_addrs nl n).
Proof. apply NoDup_fmap_2; [intros i j; lia|apply NoDup_seqZ]. Qed.

Lemma hook_addrs_spread nl n : spread (hook_addrs nl n).
Proof.
  intros x y (i & Hi & ->)%hook_addrs_elem (j & Hj & ->)%hook_addrs_elem. lia.
Qed.

Lemma hook_addrs_nodes nl : hook_addrs nl MM_NNODES = (hook_nodes nl).*1.
Proof. unfold hook_addrs, hook_nodes. by rewrite <- list_fmap_compose. Qed.

Lemma link_hooks_spec n i m h :
  let nl := mm_nodelist h in
  0 < nl → (4 | nl) → 1 ≤ i → i + Z.of_nat n = MM_NNODES →
  dseg m NULL nl (hook_addrs nl i) (nl + 16 * (i - 1)) NULL →
  zeros m (nl + 16 * i) (16 * Z.of_nat n) →
  wp (link_hooks n i) (λ _ s, ∃ m', s = set_mem m' h ∧
    dseg m' NULL nl (hook_addrs nl MM_NNODES) (nl + 16 * (MM_NNODES - 1)) NULL ∧
    links_only (hook_addrs nl MM_NNODES) m m') (set_mem m h).
Proof.
  intros nl Hnl Hd. revert i m. induction n as [|n IH]; intros i m Hi Hn Hs Hz.
  { simpl. rewrite wp_ret. exists m. replace i with MM_NNODES in Hs by lia. done. }
  cbn [link_hooks]. rewrite wp_bind, wp_gets, wp_bind, wp_gets.
  change (hook (i - 1) (set_mem m h)) with (nl + 16 * (i - 1)).
  change (hook i (set_mem m h)) with (nl + 16 * i).
  set (y := nl + 16 * (i - 1)) in *. set (x := nl + 16 * i) in *.
  rewrite Nat2Z.inj_succ in *. unfold set_flink, set_blink.
  destruct (dseg_end _ _ _ _ _ _ Hs) as (Hy & Hy0 & Ey).
  { intros E%(f_equal length). unfold hook_addrs in E. rewrite length_fmap, length_seqZ in E. simpl in E. lia. }
  assert (4 | x) as Hdx by (apply Z.divide_add_r; [done|exists (4 * i); lia]).
  assert (∀ k, k = 8 ∨ k = 12 → m !! (x + k) = Some 0) as Ex.
  { intros k Hk. apply Hz; [lia|]. apply Z.divide_add_r; [done|].
    destruct Hk as [->| ->]; [by exists 2|by exists 3]. }
  rewrite wp_bind, wp_store by (by rewrite Ey || lia).
  rewrite wp_bind, wp_store by ((look; by rewrite Ex by tauto) || lia).
  set (m1 := <[x + 12 := y]> (<[y + 8 := x]> m)).
  eapply wp_mono; [apply (IH (i + 1) m1); [lia|lia| |]|].
  - rewrite hook_addrs_snoc by lia. apply dseg_app. exists y, x. split.
    + eapply dseg_frame; [apply (dseg_retail _ _ _ _ _ _ x Hs)|].
      * intros E. rewrite E in Hy. by apply elem_of_nil in Hy.
      * apply hook_addrs_nodup.
      * apply hook_addrs_spread.
      * intros w (j & Hj & ->)%hook_addrs_elem. subst m1 x. by rewrite !(lookup_insert_ne _ (_ + 12)) by lia.
    + fold x. simpl. subst m1. look. rewrite Ex by tauto.
      replace (nl + 16 * (i + 1 - 1)) with x by lia. split_and!; [done|lia|done|]. by exists NULL.
  - intros a Ha H4. subst m1. assert (a ≠ x + 12 ∧ a ≠ y + 8) as [? ?] by lia.
    rewrite !lookup_insert_ne by lia. apply Hz; [lia|done].
  - intros _ s (m' & -> & H1 & H2). exists m'. split; [done|]. split; [done|].
    assert (links_only (hook_addrs nl MM_NNODES) m m1) as H3.
    { subst m1. eapply (links_only_insert _ _ _ x); [|apply hook_addrs_elem; exists i; lia|by right].
      eapply (links_only_insert _ _ _ y); [apply links_only_refl|apply hook_addrs_elem; exists (i - 1); lia|by left]. }
    destruct H2 as [H2a H2b], H3 as [H3a H3b]. split.
    + intros a Ha. rewrite H2a by done. by apply H3a.
    + intros a Ha. by apply H2b, H3b.
Qed.

Lemma hook_nodes_sorted nl : StronglySorted key_le (hook_nodes nl).
Proof.
  unfold hook_nodes. cbn. unfold key_le. repeat constructor; simpl; lia.
Qed.

Lemma hooks_flist m nl e :
  dseg m NULL nl (hook_addrs nl MM_NNODES) e NULL →
  (∀ x, x ∈ hook_addrs nl MM_NNODES → m !! x = Some 0) →
  flist m nl (hook_nodes nl).
Proof.
  rewrite hook_addrs_nodes. intros Hs Hz. split; [by exists e|apply hook_nodes_sorted|..|done].
  - rewrite <- hook_addrs_nodes. apply hook_addrs_nodup.
  - rewrite <- hook_addrs_nodes. apply hook_addrs_spread.
  - intros p Hp. left. split; [done|]. by apply Hz, list_elem_of_fmap_2.
Qed.

(** ** The region *)

(** The region [mm_addregion] makes of [heapsize] bytes at [heapstart]. *)
Definition region_base (heapstart : Z) : Z := 16 * ((heapstart + 15) / 16).
Definition region_top (heapstart heapsize : Z) : Z := 16 * ((heapstart + heapsize) / 16).

Definition added (heapstart heapsize : Z) (h : heap) : heap :=
  let base := region_base heapstart in
  let top := region_top heapstart heapsize in
  set_heapend (top - 8) (set_heapstart base
    (set_heapsize (u32 (mm_heapsize h + (top - base))) h)).

Lemma addregion_spec m h hs sz :
  let nl := mm_nodelist h in
  let base := region_base hs in
  let top := region_top hs sz in
  0 < hs → 0 ≤ sz → hs + 15 < 2 ^ 32 → hs + sz < 2 ^ 32 → base + 32 ≤ top →
  top - base < MM_ALLOC_BIT → hooks_apart nl base (top - 8) → flist m nl (hook_nodes nl) →
  (∀ a, base ≤ a < top → (4 | a) → is_Some (m !! a)) →
  wp (mm_addregion hs sz) (λ _ s, ∃ m', s = set_mem m' (added hs sz h) ∧
    rep m' nl base [(top - base - 16, false)] (top - 8) [(base + 8, top - base - 16)])
    (set_mem m h).
Proof.
  intros nl base top H1 H2 H3 H4 H5 H6 Hap Hfl Hram. change MM_ALLOC_BIT with (2 ^ 31) in H6.
  unfold mm_addregion. rewrite align_up_eq by lia. fold (region_base hs). fold base.
  rewrite (u32_id (hs + sz)), align_down_eq by lia. fold (region_top hs sz). fold top.
  assert (16 ≤ base) as Hb by (unfold base, region_base; Z.div_mod_to_equations; lia).
  assert (top < 2 ^ 32) as Ht by (unfold top, region_top; Z.div_mod_to_equations; lia).
  assert (16 | base) as Db by (exists ((hs + 15) / 16); unfold base, region_base; lia).
  assert (16 | top) as Dt by (exists ((hs + sz) / 16); unfold top, region_top; lia).
  change SIZEOF_MM_ALLOCNODE with 8. change (2 * 8) with 16. unfold set_size, set_preceding, node_size.
  rewrite (u32_id (top - base)), (u32_id (base + 8)), (u32_id (top - base - 16)),
    (u32_id (top - 8)) by lia.
  set (s := top - base - 16) in *. replace (top - 8) with (base + 8 + s) in * by lia.
  assert (∀ k, 0 ≤ k < 6 → is_Some (m !! (base + 4 * k))) as Hlo.
  { intros k Hk. apply Hram; [lia|]. destruct Db as [d ->]. exists (4 * d + k). lia. }
  assert (∀ k, 0 ≤ k < 2 → is_Some (m !! (base + 8 + s + 4 * k))) as Hhi.
  { intros k Hk. apply Hram; [lia|]. destruct Dt as [d ?]. exists (4 * d - 2 + k). lia. }
  rewrite wp_bind, wp_modify, wp_bind, wp_modify.
  rewrite wp_bind.
  match goal with |- wp _ _ ?st =>
    change st with (set_mem m (set_heapstart base (set_heapsize (u32 (mm_heapsize h + (top - base))) h))) end.
  set (h1 := set_heapstart base _).
  rewrite wp_store; [|lia|rewrite <- (Z.add_0_r base); apply (Hlo 0); lia].
  rewrite wp_bind, wp_store; [|lia|look; apply (Hlo 1); lia].
  rewrite wp_bind, wp_store; [|lia|look; apply (Hlo 2); lia].
  rewrite wp_bind, wp_store; [|lia|look; replace (base + 8 + 4) with (base + 4 * 3) by lia; apply (Hlo 3); lia].
  rewrite wp_bind, wp_modify, wp_bind.
  match goal with |- wp _ _ (set_heapend _ (set_mem ?m1 _)) =>
    change (set_heapend (base + 8 + s) (set_mem m1 h1)) with (set_mem m1 (set_heapend (base + 8 + s) h1)) end.
  assert (set_heapend (base + 8 + s) h1 = added hs sz h) as ->.
  { unfold added. fold base top. by replace (top - 8) with (base + 8 + s) by lia. }
  rewrite wp_store; [|lia|look; replace (base + 8 + s) with (base + 8 + s + 4 * 0) by lia; apply Hhi; lia].
  rewrite wp_bind, (wp_load _ s) by (look; done || lia).
  rewrite wp_bind, wp_store; [|lia|look; apply (Hhi 1); lia].
  rewrite lor_bit by (unfold MM_ALLOC_BIT; lia).
  match goal with |- wp _ _ (set_mem ?x _) => set (m2 := x) end.
  assert (rep m2 nl base [(s, false)] (base + 8 + s) []) as Hr.
  { split; [split|done| |].
    - split; [lia|]. destruct Db as [d ->]. exists (2 * d). lia.
    - simpl. lia.
    - simpl. unfold MM_ALLOC_BIT. lia.
    - constructor; [|done]. simpl. split; [lia|]. destruct Db as [d Ed], Dt as [d' Ed'].
      exists (2 * d' - 2 * d - 2). lia.
    - subst m2. look. done.
    - unfold layout. simpl. rewrite Z.add_0_r. subst m2. look. done.
    - intros a Ha H4a. subst m2. rewrite !lookup_insert_is_Some'. do 6 right. apply Hram; [lia|done].
    - exists (hook_nodes nl). split; [|by rewrite app_nil_r]. eapply flist_frame; [exact Hfl|].
      intros x Hx. pose proof (hook_range _ _ _ _ Hap Hx). subst m2.
      by rewrite !lookup_insert_ne by lia.
    - by intros p ?%elem_of_nil. }
  apply (wp_rep_add _ nl base _ _ _ s _ _ (added hs sz h) eq_refl Hr).
  - simpl. by left.
  - by intros ?%elem_of_nil.
  - subst m2. look. done.
  - intros m' Hr' _. eauto.
Qed.

(** [mm_initialize] on memory that has the hooks and the region. *)
Lemma initialize_spec h hs sz :
  let nl := mm_nodelist h in
  let base := region_base hs in
  let top := region_top hs sz in
  (4 | nl) → 0 ≤ getpid h →
  (∀ a, nl ≤ a < nl + 304 → (4 | a) → is_Some (mem h !! a)) →
  (∀ a, base ≤ a < top → (4 | a) → is_Some (mem h !! a)) →
  0 < hs → 0 ≤ sz → hs + 15 < 2 ^ 32 → hs + sz < 2 ^ 32 → base + 32 ≤ top →
  top - base < MM_ALLOC_BIT → hooks_apart nl base (top - 8) → nl + 304 < 2 ^ 32 →
  wp (mm_initialize hs sz) (λ _ h', hrep h' [(top - base - 16, false)] ∧
    mm_heapstart h' = base ∧ mm_heapend h' = top - 8 ∧ mm_heapsize h' = top - base) h.
Proof.
  intros nl base top Dn Hpid Hn Hram H1 H2 H3 H4 H5 H6 Hap Hmax. pose proof Hap as (Hn0 & _ & Hdis).
  unfold mm_initialize. rewrite wp_bind, wp_modify, wp_bind, wp_gets, wp_bind.
  unfold memset. change (Z.to_nat (SIZEOF_MM_FREENODE * MM_NNODES)) with (4 * 76)%nat.
  set (h0 := set_heapsize 0 h).
  rewrite <- (set_mem_id h0). change (mm_nodelist h0) with nl. change (mem h0) with (mem h).
  eapply wp_mono; [apply (fill_words_spec 76 nl (mem h)); [done|done|lia|done]|].
  intros _ s (m1 & -> & Z1 & Z2 & Z3). change (4 * Z.of_nat 76) with 304 in *.
  rewrite wp_bind. change (Z.to_nat (MM_NNODES - 1)) with 18%nat.
  assert (∀ k, 0 ≤ k < 76 → m1 !! (nl + 4 * k) = Some 0) as Hz.
  { intros k Hk. apply Z1; [lia|]. apply Z.divide_add_r; [done|]. exists k. lia. }
  eapply wp_mono; [apply (link_hooks_spec 18 1 m1 h0); try done|].
  { change (mm_nodelist h0) with nl. change (hook_addrs nl 1) with [nl + 16 * 0].
    simpl. rewrite Z.add_0_r. split_and!; [lia|lia|apply (Hz 3); lia|].
    exists 0. split; [apply (Hz 2); lia|]. split; [done|]. lia. }
  { intros a Ha H4a. change (mm_nodelist h0) with nl in Ha. apply Z1; [lia|done]. }
  change (mm_nodelist h0) with nl. intros _ s (m2 & -> & S1 & S2).
  rewrite wp_bind. unfold mm_seminitialize. rewrite wp_modify.
  change (set_lock 1 (-1) 0 (set_mem m2 h0)) with (set_mem m2 (set_lock 1 (-1) 0 h0)).
  set (h1 := set_lock 1 (-1) 0 h0).
  eapply wp_mono; [apply (addregion_spec m2 h1 hs sz); try done|].
  - change (mm_nodelist h1) with nl. eapply hooks_flist; [exact S1|]. intros x (i & Hi & ->)%hook_addrs_elem.
    change MM_NNODES with 19 in Hi. destruct S2 as [S2 _]. rewrite S2.
    + replace (nl + 16 * i) with (nl + 4 * (4 * i)) by lia. apply Hz. lia.
    + intros y (j & Hj & ->)%hook_addrs_elem. lia.
  - intros a Ha H4a. destruct S2 as [_ S2]. apply S2, Z3. by apply Hram.
  - intros _ s (m3 & -> & Hr). unfold added. fold base top. split; [split|].
    + done.
    + exact Hr.
    + simpl. change MM_ALLOC_BIT with (2 ^ 31) in H6. rewrite u32_id by lia. done.
Qed.

(** [mm_initialize] turns any memory that has the hooks and the region
    into a heap with one free chunk: all of the region, rounded inwards to 16
    bytes, but the two end nodes.  It holds whatever the memory contained. *)
Theorem initialize_heap h hs sz :
  (4 | mm_nodelist h) → 0 ≤ getpid h →
  (∀ a, mm_nodelist h ≤ a < mm_nodelist h + 304 → (4 | a) → is_Some (mem h !! a)) →
  (∀ a, region_base hs ≤ a < region_top hs sz → (4 | a) → is_Some (mem h !! a)) →
  0 < hs → 0 ≤ sz → hs + 15 < 2 ^ 32 → hs + sz < 2 ^ 32 →
  region_base hs + 32 ≤ region_top hs sz → region_top hs sz - region_base hs < MM_ALLOC_BIT →
  hooks_apart (mm_nodelist h) (region_base hs) (region_top hs sz - 8) →
  mm_nodelist h + 304 < 2 ^ 32 →
  ∃ h', mm_initialize hs sz h = Ok (tt, h') ∧
    hrep h' [(region_top hs sz - region_base hs - 16, false)] ∧
    mm_heapstart h' = region_base hs ∧ mm_heapend h' = region_top hs sz - 8 ∧
    mm_heapsize h' = region_top hs sz - region_base hs.
Proof.
  intros. destruct (wp_run _ _ _ (initialize_spec h hs sz ltac:(done) ltac:(done) ltac:(done)
    ltac:(done) ltac:(done) ltac:(done) ltac:(done) ltac:(done) ltac:(done) ltac:(done)
    ltac:(done) ltac:(done))) as ([] & h' & E & HQ).
  by exists h'.
Qed.

(** ** A concrete memory: the hooks at address 4096, 512 bytes at 8196. *)

Fixpoint ram (n : nat) (a : Z) : gmap Z Z :=
  match n with
  | O => ∅
  | S n => <[a := 0xdeadbeef]> (ram n (a + 4))
  end.

Lemma ram_some n a x :
  a ≤ x < a + 4 * Z.of_nat n → (4 | x - a) → ram n a !! x = Some 0xdeadbeef.
Proof.
  revert a. induction n as [|n IH]; intros a Hx Hd; [simpl in Hx; lia|].
  rewrite Nat2Z.inj_succ in Hx. cbn [ram].
  destruct (decide (x = a)) as [->|Hne]; [by rewrite lookup_insert_eq|].
  rewrite lookup_insert_ne by done. destruct Hd as [d Hd]. apply IH; [lia|]. exists (d - 1). lia.
Qed.

Definition h0 : heap := mkheap (ram 76 4096 ∪ ram 128 8192) 3 0 0 0 0 0 0 4096.

Lemma h0_hooks a : 4096 ≤ a < 4400 → (4 | a) → is_Some (mem h0 !! a).
Proof.
  intros Ha Hd. apply lookup_union_is_Some. left. rewrite (ram_some 76 4096 a); [done|simpl; lia|].
  apply Z.divide_sub_r; [done|by exists 1024].
Qed.

Lemma h0_region a : 8192 ≤ a < 8704 → (4 | a) → is_Some (mem h0 !! a).
Proof.
  intros Ha Hd. apply lookup_union_is_Some. right. rewrite (ram_some 128 8192 a); [done|simpl; lia|].
  apply Z.divide_sub_r; [done|by exists 2048].
Qed.

Lemma initialize_heap_witness :
  ∃ h', mm_initialize 8196 500 h0 = Ok (tt, h') ∧ hrep h' [(464, false)] ∧
    mm_heapstart h' = 8208 ∧ mm_heapend h' = 8680 ∧ mm_heapsize h' = 480.
Proof.
  apply (initialize_heap h0 8196 500).
  - by exists 1024.
  - discriminate.
  - apply h0_hooks.
  - intros a Ha. apply h0_region. change (8208 ≤ a < 8688) in Ha. lia.
  - reflexivity.
  - discriminate.
  - reflexivity.
  - reflexivity.
  - discriminate.
  - reflexivity.
  - split; [reflexivity|]. split; [discriminate|]. left. discriminate.
  - reflexivity.
Defined.

End HeapInit.
