(* ===== verification/HeapClient.v ===== *)
(** * Clients of the heap

    A task that allocates blocks, writes into them and releases them, in any
    order.  [mm_malloc] and [mm_free] are called for the blocks the task
    holds; the specification is a list of private blocks. *)

From S2P Require Import Prelude Queue Heap HeapRep Alloc HeapInit.

Module HeapClient.
Import Heap HeapRep Alloc HeapInit.

(** ** The client *)

(** A block with the words the client wrote to it, by their offsets. *)
Record block : Type := mkblock { ptr : Z; len : Z; data : gmap Z Z }.

Inductive client_op : Type :=
| Malloc (size : Z)
| Free (i : nat)
| Put (i : nat) (off v : Z).

Definition in_block (b : block) (off : Z) : bool :=
  (0 <=? off) && (off + 4 <=? len b) && (off mod 4 =? 0).

Definition run_client_op (o : client_op) (bs : list block) : M heap (list block) :=
  match o with
  | Malloc size =>
    (p <-- mm_malloc size ;;
     ret (if p =? NULL then bs else bs ++ [mkblock p size ∅]))%cmd
  | Free i =>
    match bs !! i with
    | Some b => (mm_free (ptr b) ;;; ret (delete i bs))%cmd
    | None => ret bs
    end
  | Put i off v =>
    match bs !! i with
    | Some b =>
      if in_block b off
      then (store (ptr b + off) v ;;;
            ret (<[i := mkblock (ptr b) (len b) (<[off := v]> (data b))]> bs))%cmd
      else ret bs
    | None => ret bs
    end
  end.

Fixpoint run_client (os : list client_op) (bs : list block) : M heap (list block) :=
  match os with
  | [] => ret bs
  | o :: os => (bs <-- run_client_op o bs ;; run_client os bs)%cmd
  end.

(** The sizes for which the computation of the chunk size does not overflow. *)
Definition client_ok (o : client_op) : Prop :=
  match o with
  | Malloc size => 0 ≤ size ∧ size + 23 < 2 ^ 32
  | _ => True
  end.

(** ** Facts on [carve] and [release] *)

Lemma used_release a c1 s c2 :
  used_nodes a (release c1 s c2) = used_nodes a c1 ++ used_nodes (a + total c1 + s) c2.
Proof.
  unfold release.
  assert (∀ n c2', used_nodes a ((absorb_prev c1 n).1 ++ ((absorb_prev c1 n).2, false) :: c2') =
    used_nodes a c1 ++ used_nodes (a + total c1 + n) c2') as H.
  { intros n c2'. unfold absorb_prev. destruct c1 as [|[t v] c1 _] using rev_ind.
    - simpl. by rewrite Z.add_0_r.
    - rewrite last_snoc. destruct v; rewrite ?removelast_last; simpl;
        rewrite !used_nodes_app; simpl; rewrite ?total_app, ?app_nil_r; simpl; f_equal; f_equal; lia. }
  rewrite H. destruct c2 as [|[t []] c2]; simpl; [done..|]. by rewrite Z.add_assoc.
Qed.

Lemma total_release c1 s c2 : total (release c1 s c2) = total c1 + s + total c2.
Proof.
  unfold release. rewrite total_app. simpl.
  assert (∀ n, total (absorb_prev c1 n).1 + (absorb_prev c1 n).2 = total c1 + n) as H.
  { intros n. unfold absorb_prev. destruct c1 as [|[t v] c1 _] using rev_ind; [done|].
    rewrite last_snoc. destruct v; [done|]. rewrite removelast_last, total_app. simpl. lia. }
  specialize (H (absorb_next s c2).1). destruct c2 as [|[t []] c2]; simpl in *; lia.
Qed.

Lemma absorb_prev_coalesced c1 s :
  coalesced c1 → coalesced (absorb_prev c1 s).1 ∧ end_used (absorb_prev c1 s).1 = true.
Proof.
  unfold absorb_prev, end_used. destruct c1 as [|[t v] c1 _] using rev_ind; [done|].
  rewrite last_snoc. destruct v; intros (H1 & _ & H3)%coalesced_app.
  - cbn [fst]. rewrite last_snoc. split; [|done]. by apply coalesced_app.
  - cbn [fst]. rewrite removelast_last. split; [done|]. fold (end_used c1).
    destruct (end_used c1); [done|]. by specialize (H3 eq_refl).
Qed.

Lemma coalesced_release c1 s c2 : coalesced (c1 ++ (s, true) :: c2) → coalesced (release c1 s c2).
Proof.
  intros (H1 & [_ H2] & _)%coalesced_app. unfold release.
  destruct (absorb_prev_coalesced c1 (absorb_next s c2).1 H1) as [H3 H4].
  apply coalesced_app. split_and!; [done| |by rewrite H4].
  destruct c2 as [|[t []] c2]; simpl in *; naive_solver.
Qed.

Lemma coalesced_carve c1 n s c2 :
  coalesced (c1 ++ (s, false) :: c2) → coalesced (c1 ++ carve n s ++ c2).
Proof.
  intros (H1 & [H2 H3] & H4)%coalesced_app. apply coalesced_app. split_and!; [done| |].
  - unfold carve. destruct (16 <=? s - n); simpl; [|done]. split; [done|]. by split.
  - unfold carve. by destruct (16 <=? s - n).
Qed.

Lemma used_carve a c1 n s c2 : n ≤ s →
  ∃ k, n ≤ k ∧ used_nodes a (c1 ++ carve n s ++ c2) ≡ₚ
    (a + total c1, k) :: used_nodes a (c1 ++ (s, false) :: c2).
Proof.
  intros Hn. unfold carve. destruct (16 <=? s - n).
  - exists n. split; [done|]. rewrite !used_nodes_app. simpl.
    rewrite <- Permutation_middle. replace (a + total c1 + (n + (s - n + 0))) with (a + total c1 + s) by lia.
    done.
  - exists s. split; [done|]. rewrite !used_nodes_app. simpl. rewrite Z.add_0_r.
    by rewrite <- Permutation_middle.
Qed.

Lemma used_nodes_range a cs p : good cs → p ∈ used_nodes a cs → a ≤ p.1 ∧ p.1 + p.2 ≤ a + total cs.
Proof.
  intros Hg. destruct p as [x k]. intros (c1 & c2 & -> & ->)%used_nodes_split.
  apply Forall_app in Hg as [H1 H2]. apply Forall_cons in H2 as [_ H2]. simpl.
  pose proof (total_nonneg _ H1). pose proof (total_nonneg _ H2). rewrite total_app. simpl. lia.
Qed.

Lemma used_nodes_div a cs p : (8 | a) → good cs → p ∈ used_nodes a cs → (8 | p.1).
Proof.
  intros Ha Hg. destruct p as [x k]. intros (c1 & c2 & -> & ->)%used_nodes_split.
  apply Forall_app in Hg as [H1 _]. apply Z.divide_add_r; [done|by apply total_div].
Qed.

Lemma used_nodes_nodup a cs : good cs → NoDup (used_nodes a cs).
Proof.
  intros Hg. revert a. induction Hg as [|[s u] cs [Hs _] Hg IH]; intros a; simpl in *; [constructor|].
  destruct u; [|apply IH]. apply NoDup_cons. split; [|apply IH].
  intros Hx%used_nodes_range; [simpl in Hx; lia|done].
Qed.

Lemma used_apart a cs p q : good cs → p ∈ used_nodes a cs → q ∈ used_nodes a cs → p ≠ q →
  p.1 + p.2 ≤ q.1 ∨ q.1 + q.2 ≤ p.1.
Proof.
  intros Hg Hp Hq Hne. apply list_elem_of_split in Hp as (l1 & l2 & E). rewrite E in Hq.
  apply elem_of_app in Hq as [Hq|[->|Hq]%elem_of_cons]; [|done|];
    apply list_elem_of_split in Hq as (l3 & l4 & ->).
  - right. rewrite <- app_assoc in E. simpl in E. by eapply used_disjoint.
  - left. by eapply used_disjoint.
Qed.

(** ** The invariant *)

Definition owns (b : block) (p : Z * Z) : Prop :=
  ptr b = p.1 + 8 ∧ 0 ≤ len b ∧ len b + 8 ≤ p.2.

Definition holds_data (m : gmap Z Z) (b : block) : Prop :=
  ∀ off v, data b !! off = Some v → in_block b off = true ∧ m !! (ptr b + off) = Some v.

Record owned (h : heap) (cs : list chunk) (bs : list block) : Prop := mkowned {
  ow_rep : hrep h cs;
  ow_coalesced : coalesced cs;
  ow_blocks : ∃ us, us ≡ₚ used_nodes (mm_heapstart h + 8) cs ∧ Forall2 owns bs us;
  ow_data : ∀ b, b ∈ bs → holds_data (mem h) b }.

Lemma in_block_range b off : in_block b off = true → 0 ≤ off ∧ off + 4 ≤ len b ∧ (4 | off).
Proof.
  unfold in_block. intros H. zify_bools. split_and!; [done..|]. by apply Z.mod_divide.
Qed.

(** The words of a block are user data of the chunk it owns. *)
Lemma owns_payload a cs b p off :
  owns b p → p ∈ used_nodes a cs → in_block b off = true → payload a cs (ptr b + off).
Proof.
  intros (E & H1 & H2) Hp (H3 & H4 & _)%in_block_range. destruct p as [x s]. simpl in *.
  eapply used_payload; [exact Hp|]. lia.
Qed.

Lemma data_kept_holds base cs m m' b p :
  data_kept base cs m m' → owns b p → p ∈ used_nodes (base + 8) cs →
  holds_data m b → holds_data m' b.
Proof.
  intros Hk Hb Hp Hd off v [H1 H2]%Hd. split; [done|]. rewrite Hk; [done|]. by eapply owns_payload.
Qed.

Lemma Forall2_elem {A B} (P : A → B → Prop) l k x :
  Forall2 P l k → x ∈ l → ∃ y, y ∈ k ∧ P x y.
Proof.
  intros H Hx. apply list_elem_of_lookup in Hx as [i Hi].
  destruct (Forall2_lookup_l _ _ _ _ _ H Hi) as (y & Hy & HP).
  exists y. split; [by eapply list_elem_of_lookup_2|done].
Qed.

Lemma malloc_owned h cs bs size :
  owned h cs bs → client_ok (Malloc size) →
  wp (run_client_op (Malloc size) bs) (λ bs' h', ∃ cs' m', h' = set_mem m' h ∧
    owned h' cs' bs' ∧ total cs' = total cs) h.
Proof.
  intros Ho [Hs1 Hs2]. simpl. rewrite wp_bind.
  destruct (Z.eq_dec size 0) as [->|Hs].
  { unfold mm_malloc. simpl. rewrite !wp_ret. exists cs, (mem h). by rewrite set_mem_id. }
  pose proof Ho as [Hh Hc (us & U1 & U2) Hd].
  destruct (chunk_size_bounds size) as (N1 & N2 & N3); [lia..|].
  eapply wp_mono; [by apply (malloc_spec size h cs Hh); [lia|..]|].
  intros r h' [(-> & -> & _)|(c1 & s & c2 & m' & -> & Hn & _ & -> & -> & Hh' & Hk)]; rewrite wp_ret.
  { rewrite Z.eqb_refl. exists cs, (mem h). by rewrite set_mem_id. }
  pose proof (region_mid _ _ _ _ _ _ _ (rep_region _ _ _ _ _ _ (hr_rep _ _ Hh))) as [_ B].
  cbv zeta in B. rewrite (proj2 (Z.eqb_neq _ NULL)) by (unfold NULL; lia).
  exists (c1 ++ carve (chunk_size size) s ++ c2), m'. split; [done|].
  split; [|by rewrite !total_app, carve_total].
  destruct (used_carve (mm_heapstart h + 8) c1 (chunk_size size) s c2 Hn) as (k & Hk1 & Hk2).
  split; [done|by apply coalesced_carve| |].
  - exists (us ++ [(mm_heapstart h + 8 + total c1, k)]). split.
    + simpl. rewrite Hk2, U1. by rewrite Permutation_app_comm.
    + apply Forall2_app; [done|]. constructor; [|done].
      unfold owns. simpl. lia.
  - intros b Hb. apply elem_of_app in Hb as [Hb|Hb]; [|apply list_elem_of_singleton in Hb as ->].
    + destruct (Forall2_elem _ _ _ _ U2 Hb) as (p & Hp & Hbp). rewrite U1 in Hp.
      eapply data_kept_holds; [exact Hk|done..|by apply Hd].
    + intros off v E. simpl in E. by rewrite lookup_empty in E.
Qed.

Lemma free_owned h cs bs i :
  owned h cs bs →
  wp (run_client_op (Free i) bs) (λ bs' h', ∃ cs' m', h' = set_mem m' h ∧
    owned h' cs' bs' ∧ total cs' = total cs) h.
Proof.
  intros Ho. pose proof Ho as [Hh Hc (us & U1 & U2) Hd]. simpl.
  destruct (bs !! i) as [b|] eqn:Eb; [|rewrite wp_ret; exists cs, (mem h); by rewrite set_mem_id].
  destruct (Forall2_lookup_l _ _ _ _ _ U2 Eb) as ([x s] & Eu & (Ep & Hl1 & Hl2)). simpl in *.
  pose proof (delete_Permutation _ _ _ Eu) as Pu.
  assert ((x, s) ∈ used_nodes (mm_heapstart h + 8) cs) as Hx.
  { rewrite <- U1. by eapply list_elem_of_lookup_2. }
  destruct (used_nodes_split _ _ _ _ Hx) as (c1 & c2 & -> & ->).
  rewrite Ep, wp_bind. eapply wp_mono; [by apply free_spec|].
  intros _ h' (m' & -> & Hh' & Hk). rewrite wp_ret. exists (release c1 s c2), m'. split; [done|].
  split; [|rewrite total_release, total_app; simpl; lia].
  assert (delete i us ≡ₚ used_nodes (mm_heapstart h + 8) (c1 ++ (s, false) :: c2)) as Pd.
  { rewrite Pu, !used_nodes_app in U1. rewrite used_nodes_app. simpl in *.
    rewrite <- Permutation_middle in U1. by apply Permutation.Permutation_cons_inv in U1. }
  split; [done|by apply coalesced_release| |].
  - exists (delete i us). split; [|by apply Forall2_delete].
    simpl. by rewrite used_release, Pd, used_nodes_app.
  - intros b' Hb'. destruct (Forall2_elem _ _ _ _ (Forall2_delete _ _ _ i U2) Hb') as (p & Hp & Hbp).
    rewrite Pd in Hp. eapply data_kept_holds; [exact Hk|done..|].
    apply Hd. apply list_elem_of_lookup in Hb' as [j Hj]. rewrite list_lookup_delete in Hj.
    case_decide; by eapply list_elem_of_lookup_2.
Qed.

Lemma put_owned h cs bs i off v :
  owned h cs bs →
  wp (run_client_op (Put i off v) bs) (λ bs' h', ∃ cs' m', h' = set_mem m' h ∧
    owned h' cs' bs' ∧ total cs' = total cs) h.
Proof.
  intros Ho. pose proof Ho as [Hh Hc (us & U1 & U2) Hd]. simpl.
  destruct (bs !! i) as [b|] eqn:Eb; [|rewrite wp_ret; exists cs, (mem h); by rewrite set_mem_id].
  destruct (in_block b off) eqn:Ein; [|rewrite wp_ret; exists cs, (mem h); by rewrite set_mem_id].
  destruct (Forall2_lookup_l _ _ _ _ _ U2 Eb) as (p & Eu & Hb).
  assert (p ∈ used_nodes (mm_heapstart h + 8) cs) as Hp.
  { rewrite <- U1. by eapply list_elem_of_lookup_2. }
  pose proof (owns_payload _ _ _ _ _ Hb Hp Ein) as Hw.
  pose proof (hr_rep _ _ Hh) as Hr. pose proof (rep_region _ _ _ _ _ _ Hr) as [R1 R2 R3 R4 _ _ R7].
  pose proof (payload_range _ _ _ R4 Hw) as Hrange.
  destruct (in_block_range _ _ Ein) as (O1 & O2 & O3).
  assert (4 | ptr b) as Hdiv.
  { destruct Hb as [-> _]. apply Z.divide_add_r; [|by exists 2].
    assert (8 | p.1) as [q ->]; [|exists (2 * q); lia].
    eapply used_nodes_div; [|done|exact Hp]. apply Z.divide_add_r; [tauto|by exists 1]. }
  rewrite wp_bind.
  pose proof (λ Q, wp_store (ptr b + off) v Q (mem h) h) as Hstore. rewrite set_mem_id in Hstore.
  rewrite Hstore; [|lia|apply R7; [lia|by apply Z.divide_add_r]].
  rewrite wp_ret. exists cs, (<[ptr b + off := v]> (mem h)). split; [done|]. split; [|done].
  split; [eapply hrep_set; [done|]; by apply rep_store|done| |].
  - exists us. split; [done|]. rewrite <- (list_insert_id us i p Eu). by apply Forall2_insert.
  - intros b' Hb'. apply list_elem_of_lookup in Hb' as [j Hj].
    destruct (decide (j = i)) as [->|Hji].
    + rewrite list_lookup_insert_eq in Hj by by eapply lookup_lt_Some. injection Hj as <-.
      intros o w E. simpl in E. destruct (decide (o = off)) as [->|Ho'].
      * rewrite lookup_insert_eq in E. injection E as <-. split; [done|]. simpl.
        by rewrite lookup_insert_eq.
      * rewrite lookup_insert_ne in E by done. simpl. rewrite lookup_insert_ne by lia.
        apply (Hd b); [by eapply list_elem_of_lookup_2|done].
    + rewrite list_lookup_insert_ne in Hj by done. intros o w E.
      destruct (Hd b' (list_elem_of_lookup_2 _ _ _ Hj) o w E) as [Hin Hm]. split; [done|].
      simpl. rewrite lookup_insert_ne; [done|].
      destruct (Forall2_lookup_l _ _ _ _ _ U2 Hj) as (p' & Eu' & (E1 & E2 & E3)).
      assert (p ≠ p') as Hne.
      { intros <-. assert (NoDup us) as Hnd by (rewrite U1; by apply used_nodes_nodup).
        apply Hji. by eapply NoDup_lookup. }
      assert (p' ∈ used_nodes (mm_heapstart h + 8) cs) as Hp'.
      { rewrite <- U1. by eapply list_elem_of_lookup_2. }
      destruct Hb as (F1 & F2 & F3). destruct (in_block_range _ _ Hin) as (O4 & O5 & _).
      destruct (used_apart _ _ _ _ R4 Hp Hp' Hne); lia.
Qed.

Lemma run_client_owned os h cs bs :
  owned h cs bs → Forall client_ok os →
  wp (run_client os bs) (λ bs' h', ∃ cs' m', h' = set_mem m' h ∧
    owned h' cs' bs' ∧ total cs' = total cs) h.
Proof.
  intros Ho Hok. revert h cs bs Ho. induction Hok as [|o os Hop Hok IH]; intros h cs bs Ho.
  { simpl. rewrite wp_ret. exists cs, (mem h). by rewrite set_mem_id. }
  cbn [run_client]. rewrite wp_bind.
  assert (wp (run_client_op o bs) (λ bs' h', ∃ cs' m', h' = set_mem m' h ∧
    owned h' cs' bs' ∧ total cs' = total cs) h) as H1.
  { destruct o; [by apply malloc_owned|by apply free_owned|by apply put_owned]. }
  eapply wp_mono; [exact H1|]. intros bs1 h1 (cs1 & m1 & -> & Ho1 & Ht1).
  eapply wp_mono; [by apply IH|]. intros bs2 h2 (cs2 & m2 & -> & Ho2 & Ht2).
  exists cs2, m2. split; [done|]. split; [done|lia].
Qed.

(** Without blocks in use a coalesced heap is one free chunk. *)
Lemma none_used a cs : good cs → coalesced cs → used_nodes a cs = [] →
  cs = [] ∨ cs = [(total cs, false)].
Proof.
  intros Hg Hc Hu. destruct cs as [|[s u] cs]; [by left|right]. simpl in *.
  destruct u; [done|]. destruct Hc as [Hc _]. specialize (Hc eq_refl).
  destruct cs as [|[t v] cs]; simpl in *; [by rewrite Z.add_0_r|]. subst v. done.
Qed.

(** C9: blocks are private.  Whatever sequence of allocations, releases and
    writes into its own blocks a task performs on a fresh heap, every call is
    defined; the blocks it holds are aligned to 8 bytes, lie in the region and
    do not overlap; each still holds the words written to it; and when all
    blocks are released the heap is the single free chunk it was. *)
Theorem client_isolation h s os :
  hrep h [(s, false)] → Forall client_ok os →
  ∃ bs h', run_client os [] h = Ok (bs, h') ∧
    (∀ i j b b', i ≠ j → bs !! i = Some b → bs !! j = Some b' →
      ptr b + len b ≤ ptr b' ∨ ptr b' + len b' ≤ ptr b) ∧
    (∀ b, b ∈ bs → (8 | ptr b) ∧ mm_heapstart h + 16 ≤ ptr b ∧ ptr b + len b ≤ mm_heapend h) ∧
    (∀ b off v, b ∈ bs → data b !! off = Some v → mem h' !! (ptr b + off) = Some v) ∧
    (bs = [] → hrep h' [(s, false)]).
Proof.
  intros Hh Hok.
  assert (owned h [(s, false)] []) as Ho.
  { split; [done|done|by exists []|]. intros b Hb. by apply elem_of_nil in Hb. }
  destruct (wp_run _ _ _ (run_client_owned os _ _ _ Ho Hok))
    as (bs & h' & E & cs & m & -> & [Hh' Hc (us & U1 & U2) Hd] & Ht).
  exists bs, (set_mem m h). split; [done|].
  pose proof (rep_region _ _ _ _ _ _ (hr_rep _ _ Hh')) as [R1 R2 R3 R4 _ _ R7]. simpl in *.
  split_and!.
  - intros i j b b' Hij Hi Hj.
    destruct (Forall2_lookup_l _ _ _ _ _ U2 Hi) as (p & Ei & (P1 & P2 & P3)).
    destruct (Forall2_lookup_l _ _ _ _ _ U2 Hj) as (q & Ej & (Q1 & Q2 & Q3)).
    assert (p ≠ q) as Hne.
    { intros ->. assert (NoDup us) as Hnd by (rewrite U1; by apply used_nodes_nodup).
      apply Hij. by eapply NoDup_lookup. }
    apply list_elem_of_lookup_2 in Ei, Ej. rewrite U1 in Ei, Ej.
    destruct (used_apart _ _ _ _ R4 Ei Ej Hne); lia.
  - intros b Hb. destruct (Forall2_elem _ _ _ _ U2 Hb) as (p & Hp & (P1 & P2 & P3)). rewrite U1 in Hp.
    pose proof (used_nodes_range _ _ _ R4 Hp). split_and!; [|lia|lia].
    rewrite P1. apply Z.divide_add_r; [|by exists 1].
    eapply used_nodes_div; [|done|exact Hp]. apply Z.divide_add_r; [tauto|by exists 1].
  - intros b off v Hb E'. by apply (Hd b Hb off v E').
  - intros ->. apply Forall2_nil_inv_l in U2 as ->. symmetry in U1.
    apply Permutation_nil_r in U1.
    destruct (none_used _ _ R4 Hc U1) as [E1|E1];
      [|rewrite Ht, Z.add_0_r in E1; by rewrite <- E1].
    subst cs. simpl in Ht.
    pose proof (rep_region _ _ _ _ _ _ (hr_rep _ _ Hh)) as [_ _ _ G _ _ _].
    apply Forall_cons in G as [[G _] _]. simpl in G. lia.
Qed.

(** A fresh heap, as [mm_initialize] leaves it. *)
Lemma fresh_heap : ∃ h, mm_initialize 8192 512 h0 = Ok (tt, h) ∧ hrep h [(496, false)].
Proof.
  destruct (wp_run _ _ _ (initialize_spec h0 8192 512 ltac:(by exists 1024) ltac:(discriminate)
    h0_hooks h0_region ltac:(reflexivity) ltac:(discriminate) ltac:(reflexivity)
    ltac:(reflexivity) ltac:(discriminate) ltac:(reflexivity)
    ltac:(split; [reflexivity|split; [discriminate|left; discriminate]]) ltac:(reflexivity)))
    as ([] & h & E & H & _).
  exists h. split; [exact E|exact H].
Qed.

(** The client allocates three blocks, writes to them and releases the one in
    the middle. *)
Definition some_ops : list client_op :=
  [Malloc 20; Malloc 30; Malloc 0; Malloc 40; Put 0 4 77; Put 1 0 5; Put 2 36 99; Free 1].

Lemma client_isolation_witness :
  ∃ h bs h', hrep h [(496, false)] ∧ run_client some_ops [] h = Ok (bs, h') ∧
    (∀ b off v, b ∈ bs → data b !! off = Some v → mem h' !! (ptr b + off) = Some v).
Proof.
  destruct fresh_heap as (h & _ & Hh). exists h.
  destruct (client_isolation h 496 some_ops Hh) as (bs & h' & E & _ & _ & Hd & _).
  - repeat constructor; discriminate.
  - exists bs, h'. split; [exact Hh|]. split; [exact E|exact Hd].
Defined.

End HeapClient.
