(* ===== verification/HeapOps.v ===== *)
(** * The operations of the heap

    What [mm_malloc], [mm_free], [mm_mallinfo] and [mm_extend] do to the list
    of chunks, and what happens outside the bounds they expect. *)

From S2P Require Import Prelude Queue Heap HeapRep Alloc HeapInit HeapClient.

Module HeapOps.
Import Heap HeapRep Alloc HeapInit HeapClient.

(** ** Allocation and release *)

(** C30: [mm_malloc] finds the best fit.  It returns the null pointer, and
    changes nothing, exactly when no free chunk can hold the request with its
    header; otherwise it allocates from the smallest free chunk that can, puts
    the rest back when that is large enough for a free node, and keeps the
    data of every allocated block. *)
Theorem malloc_best_fit size h cs :
  hrep h cs → 1 ≤ size → size + 23 < 2 ^ 32 →
  ∃ r h', mm_malloc size h = Ok (r, h') ∧
    (r = NULL ↔ ∀ p, p ∈ free_nodes (mm_heapstart h + 8) cs → p.2 < chunk_size size) ∧
    (r = NULL → h' = h) ∧
    (r ≠ NULL → ∃ c1 s c2, cs = c1 ++ (s, false) :: c2 ∧ chunk_size size ≤ s ∧
      (∀ p, p ∈ free_nodes (mm_heapstart h + 8) cs → chunk_size size ≤ p.2 → s ≤ p.2) ∧
      r = mm_heapstart h + 8 + total c1 + 8 ∧
      hrep h' (c1 ++ carve (chunk_size size) s ++ c2) ∧
      data_kept (mm_heapstart h) cs (mem h) (mem h')).
Proof.
  intros Hh H1 H2. destruct (chunk_size_bounds size H1 H2) as (N1 & N2 & N3).
  destruct (wp_run _ _ _ (malloc_spec size h cs Hh H1 N1 N3)) as (r & h' & E & HQ).
  exists r, h'. split; [done|].
  destruct HQ as [(-> & -> & Hall)|(c1 & s & c2 & m' & -> & Hs & Hb & -> & -> & Hh' & Hk)];
    [done|].
  pose proof (region_mid _ _ _ _ _ _ _ (rep_region _ _ _ _ _ _ (hr_rep _ _ Hh))) as [_ B].
  cbv zeta in B. split_and!.
  - split; [unfold NULL; lia|]. intros Hall.
    specialize (Hall (mm_heapstart h + 8 + total c1, s)). simpl in Hall.
    assert (s < chunk_size size); [|lia]. apply Hall.
    rewrite free_nodes_app. apply elem_of_app. right. by left.
  - unfold NULL. lia.
  - intros _. by exists c1, s, c2.
Qed.

(** [mm_free] of an allocated block merges it with the free chunks next to
    it, on either side, and keeps the data of all other blocks. *)
Theorem free_coalesces h c1 s c2 :
  hrep h (c1 ++ (s, true) :: c2) →
  ∃ h', mm_free (mm_heapstart h + 8 + total c1 + 8) h = Ok (tt, h') ∧
    hrep h' (release c1 s c2) ∧
    data_kept (mm_heapstart h) (c1 ++ (s, false) :: c2) (mem h) (mem h') ∧
    (coalesced (c1 ++ (s, true) :: c2) → coalesced (release c1 s c2)).
Proof.
  intros Hh. destruct (wp_run _ _ _ (free_spec h c1 s c2 Hh)) as ([] & h' & E & m' & -> & Hh' & Hk).
  exists (set_mem m' h). split_and!; [done..|]. apply coalesced_release.
Qed.

Lemma malloc_best_fit_witness :
  ∃ h r h', hrep h [(496, false)] ∧ mm_malloc 20 h = Ok (r, h') ∧
    (r = NULL ↔ ∀ p, p ∈ [(mm_heapstart h + 8, 496)] → p.2 < 32).
Proof.
  destruct fresh_heap as (h & _ & Hh). exists h.
  destruct (malloc_best_fit 20 h [(496, false)] Hh) as (r & h' & E & H & _).
  - discriminate.
  - reflexivity.
  - exists r, h'. split; [exact Hh|]. split; [exact E|exact H].
Defined.

(** One allocated block on a fresh heap. *)
Lemma one_block : ∃ h, hrep h [(32, true); (464, false)].
Proof.
  destruct fresh_heap as (h & _ & Hh).
  destruct (wp_run _ _ _ (malloc_spec 20 h _ Hh ltac:(lia) ltac:(discriminate) ltac:(by exists 4)))
    as (r & h' & E & [(_ & _ & Hall)|(c1 & s & c2 & m' & Ecs & _ & _ & _ & -> & Hh' & _)]).
  - specialize (Hall (mm_heapstart h + 8, 496) ltac:(by left)). by vm_compute in Hall.
  - exists (set_mem m' h). destruct c1 as [|? [|]]; simplify_eq/=. exact Hh'.
Qed.

Lemma free_coalesces_witness :
  ∃ h h', hrep h [(32, true); (464, false)] ∧
    mm_free (mm_heapstart h + 8 + 0 + 8) h = Ok (tt, h') ∧ hrep h' [(496, false)].
Proof.
  destruct one_block as (h & Hh). exists h.
  destruct (free_coalesces h [] 32 [(464, false)] Hh) as (h' & E & Hh' & _).
  exists h'. split; [exact Hh|]. split; [exact E|exact Hh'].
Defined.

(** ** Statistics *)

Definition used_total (cs : list chunk) : Z := total (filter (λ c, c.2 = true) cs).
Definition free_total (cs : list chunk) : Z := total (filter (λ c, c.2 = false) cs).
Definition free_count (cs : list chunk) : Z := Z.of_nat (length (filter (λ c, c.2 = false) cs)).
Definition free_max (cs : list chunk) : Z :=
  foldr (λ c n, Z.max c.1 n) 0 (filter (λ c, c.2 = false) cs).

(** The counters after chunks [cs]. *)
Definition counted (i : mallinfo) (cs : list chunk) : mallinfo :=
  mkmallinfo (arena i) (ordblks i + free_count cs) (Z.max (mxordblk i) (free_max cs))
    (uordblks i + used_total cs) (fordblks i + free_total cs).

Lemma totals_sum cs : used_total cs + free_total cs = total cs.
Proof.
  unfold used_total, free_total. induction cs as [|[s []] cs IH]; [done|..];
    rewrite !filter_cons; simpl; lia.
Qed.

Definition sized (cs : list chunk) : Prop := Forall (λ c, 0 < c.1 < MM_ALLOC_BIT) cs.

Lemma sized_bounds cs : sized cs →
  0 ≤ used_total cs ∧ 0 ≤ free_total cs ∧ 0 ≤ free_max cs ≤ free_total cs ∧
  free_count cs ≤ free_total cs.
Proof.
  unfold used_total, free_total, free_max, free_count.
  induction 1 as [|[s []] cs Hc H IH]; [done|..]; rewrite !filter_cons; simpl in *; lia.
Qed.

Lemma visit_nodes_spec m h cs n a p i :
  span m a p cs → sized cs → 0 < a → 0 ≤ p < MM_ALLOC_BIT → a + total cs = mm_heapend h →
  mm_heapend h < 2 ^ 32 → (length cs < n)%nat →
  0 ≤ uordblks i → 0 ≤ fordblks i → 0 ≤ ordblks i → 0 ≤ mxordblk i →
  uordblks i + total cs < 2 ^ 31 → fordblks i + total cs < 2 ^ 31 → ordblks i + total cs < 2 ^ 31 →
  wp (visit_nodes n a i) (λ r s, s = set_mem m h ∧ r = (mm_heapend h, counted i cs)) (set_mem m h).
Proof.
  intros Hs Hg. revert n a p i Hs. induction Hg as [|[s u] cs Hc Hg IH];
    intros n a p i Hs Ha Hp He Hmax Hn I1 I2 I3 I4 B1 B2 B3;
    (destruct n as [|n]; [simpl in Hn; lia|]); cbn [visit_nodes];
    rewrite wp_bind, wp_gets; change (mm_heapend (set_mem m h)) with (mm_heapend h).
  { simpl in He. rewrite (proj2 (Z.ltb_ge a _)) by lia. rewrite wp_ret. split; [done|].
    rewrite <- He, Z.add_0_r. f_equal. unfold counted, used_total, free_total, free_count, free_max.
    simpl. destruct i; simpl in *. f_equal; lia. }
  destruct Hs as (E1 & E2 & Hs). simpl in *. destruct (sized_bounds cs Hg) as (S1 & S2 & S3 & S4).
  pose proof (totals_sum cs) as St. assert (MM_ALLOC_BIT < 2 ^ 32) as HB by done.
  rewrite (proj2 (Z.ltb_lt a _)) by lia. unfold node_size, preceding.
  rewrite wp_bind, (wp_load _ s) by done. rewrite wp_bind, (wp_load _ (tag p u)) by (done || lia).
  rewrite tag_test by done. destruct u; cbn [negb].
  - rewrite wp_bind, wp_ret, !u32_id by lia.
    eapply wp_mono; [eapply IH; [exact Hs|cbn [uordblks fordblks ordblks mxordblk]; lia..]|].
    intros r st [-> ->]. split; [done|]. f_equal. unfold counted, used_total, free_total, free_count, free_max.
    rewrite !filter_cons. simpl. f_equal. lia.
  - rewrite wp_bind, wp_bind, wp_incr by lia. rewrite wp_ret, !u32_id by lia.
    eapply wp_mono; [eapply IH; [exact Hs|cbn [uordblks fordblks ordblks mxordblk]; try lia..]|].
    { destruct (mxordblk i <? s); lia. }
    intros r st [-> ->]. split; [done|]. f_equal. unfold counted, used_total, free_total, free_count, free_max.
    rewrite !filter_cons. simpl. destruct (Z.ltb_spec (mxordblk i) s); f_equal; lia.
Qed.

Lemma starts_nodup a cs : good cs → NoDup (starts a cs).
Proof.
  intros Hg. revert a. induction Hg as [|c cs [Hc _] Hg IH]; intros a; simpl; constructor; [|apply IH].
  intros Hx%starts_range; [lia|done].
Qed.

Lemma span_dom m a p cs x : span m a p cs → x ∈ starts a cs → is_Some (m !! x).
Proof.
  revert a p. induction cs as [|c cs IH]; intros a p; simpl; [by intros _ ?%elem_of_nil|].
  intros (E & _ & Hs) [->|Hx]%elem_of_cons; [by rewrite E|by eapply IH].
Qed.

Lemma starts_length a cs : length (starts a cs) = length cs.
Proof. revert a. induction cs as [|c cs IH]; intros a; simpl; [done|]. by rewrite IH. Qed.

Lemma region_fuel m base cs e h :
  region m base cs e → (S (length cs) < fuel (set_mem m h))%nat.
Proof.
  intros [H1 H2 H3 H4 H5 (H6 & H7 & H8) _]. unfold fuel. simpl. apply Nat.lt_succ_r.
  pose proof (total_nonneg _ H4).
  assert (NoDup (base :: starts (base + 8) cs)) as Hd.
  { constructor; [|by apply starts_nodup]. intros Hx%starts_range; [lia|done]. }
  rewrite <- (starts_length (base + 8)), <- size_dom. change (S (length (starts (base + 8) cs)))
    with (length (base :: starts (base + 8) cs)).
  rewrite <- (size_list_to_set (C := gset Z) _ Hd). apply subseteq_size.
  intros x Hx%elem_of_list_to_set. apply elem_of_dom.
  apply elem_of_cons in Hx as [->|Hx]; [by destruct H5 as [-> _]|by eapply span_dom].
Qed.

Lemma hrep_sized h cs : hrep h cs → sized cs ∧ total cs + 16 < 2 ^ 31.
Proof.
  intros Hh. pose proof (rep_region _ _ _ _ _ _ (hr_rep _ _ Hh)) as Hr.
  split; [|by destruct (rg_max _ _ _ _ Hr)]. apply Forall_forall. intros c Hc.
  pose proof (proj1 (Forall_forall _ _) (rg_good _ _ _ _ Hr) c Hc) as [H4c _].
  apply list_elem_of_split in Hc as (c1 & c2 & ->).
  pose proof (rg_max _ _ _ _ Hr) as [_ H3]. rewrite total_app in H3. simpl in H3.
  pose proof (rg_good _ _ _ _ Hr) as [Hg1 [_ Hg2]%Forall_cons]%Forall_app.
  pose proof (total_nonneg _ Hg1). pose proof (total_nonneg _ Hg2). lia.
Qed.

Lemma mallinfo_walk {A} h cs (K : Z * mallinfo → M heap A) Q :
  hrep h cs →
  wp (K (mm_heapend h,
       mkmallinfo 0 (free_count cs) (free_max cs) (8 + used_total cs) (free_total cs))) Q h →
  wp (mm_takesemaphore ;;; n <-- gets fuel ;; start <-- gets mm_heapstart ;;
      r <-- visit_nodes n start (mkmallinfo 0 0 0 0 0) ;; mm_givesemaphore ;;; K r)%cmd Q h.
Proof.
  intros Hh HK. pose proof (rep_region _ _ _ _ _ _ (hr_rep _ _ Hh)) as Hr.
  pose proof Hr as [H1 H2 H3 H4 H5 (H6 & _ & _) _]. pose proof (total_nonneg _ H4) as Ht.
  assert (sized ((8, true) :: cs)) as Hs by (constructor; [done|by apply (hrep_sized h)]).
  rewrite wp_bind, (wp_take_lock _ _ _ Hh), wp_bind, wp_gets, wp_bind, wp_gets, wp_bind.
  change (mm_heapstart (set_mem (mem h) (locked h))) with (mm_heapstart h).
  pose proof (region_fuel _ _ _ _ (locked h) Hr) as Hf.
  assert (MM_ALLOC_BIT = 2 ^ 31) as HB by done.
  eapply wp_mono; [apply (visit_nodes_spec (mem h) (locked h) ((8, true) :: cs) _ (mm_heapstart h) 0)|].
  - simpl. destruct H5 as [E1 E2]. done.
  - exact Hs.
  - lia.
  - lia.
  - simpl. lia.
  - simpl. lia.
  - exact Hf.
  - done.
  - done.
  - done.
  - done.
  - simpl. lia.
  - simpl. lia.
  - simpl. lia.
  - intros r s [-> ->]. rewrite wp_bind, (wp_give_lock _ _ _ _ Hh), set_mem_id.
    change (mm_heapend (locked h)) with (mm_heapend h).
    replace (counted _ _) with (mkmallinfo 0 (free_count cs) (free_max cs)
      (8 + used_total cs) (free_total cs)); [exact HK|].
    unfold counted, used_total, free_total, free_count, free_max. rewrite !filter_cons. simpl.
    apply Forall_cons in Hs as [_ Hs]. destruct (sized_bounds cs Hs) as (_ & _ & S3 & _).
    unfold free_max in S3. f_equal. lia.
Qed.

(** The walk as an equation, for what follows it. *)
Lemma mallinfo_walk_eq {A} h cs (K : Z * mallinfo → M heap A) :
  hrep h cs →
  (mm_takesemaphore ;;; n <-- gets fuel ;; start <-- gets mm_heapstart ;;
   r <-- visit_nodes n start (mkmallinfo 0 0 0 0 0) ;; mm_givesemaphore ;;; K r)%cmd h =
  K (mm_heapend h,
     mkmallinfo 0 (free_count cs) (free_max cs) (8 + used_total cs) (free_total cs)) h.
Proof.
  intros Hh.
  destruct (wp_run _ _ _ (mallinfo_walk h cs ret (λ r s, r = (mm_heapend h,
    mkmallinfo 0 (free_count cs) (free_max cs) (8 + used_total cs) (free_total cs)) ∧ s = h) Hh
    ltac:(rewrite wp_ret; done))) as (r & s & E & -> & ->).
  unfold bind, gets, ret, res_bind in *. repeat case_match; by simplify_eq.
Qed.

(** [mm_mallinfo] reports the heap as it is: the size of the arena, the
    number of free chunks and the largest, the bytes in allocated chunks (the
    two end nodes included) and the bytes in free chunks; both assertions
    hold and the heap is not changed. *)
Theorem mallinfo_totals h cs :
  hrep h cs → mm_heapsize h = total cs + 16 →
  mm_mallinfo h = Ok (mkmallinfo (total cs + 16) (free_count cs) (free_max cs)
                        (16 + used_total cs) (free_total cs), h).
Proof.
  intros Hh Hsize. destruct (hrep_sized h cs Hh) as [Hs Hmax].
  destruct (sized_bounds cs Hs) as (S1 & S2 & S3 & S4). pose proof (totals_sum cs).
  assert (wp mm_mallinfo (λ i h', h' = h ∧ i = mkmallinfo (total cs + 16) (free_count cs)
    (free_max cs) (16 + used_total cs) (free_total cs)) h) as W.
  { unfold mm_mallinfo. apply (mallinfo_walk h cs _ _ Hh). cbn [fst snd uordblks fordblks].
    rewrite wp_bind, wp_gets, wp_bind, wp_assert by apply Z.eqb_refl.
    rewrite wp_bind, wp_gets, wp_bind. change SIZEOF_MM_ALLOCNODE with 8.
    rewrite !u32_id by (rewrite ?u32_id; lia).
    rewrite wp_assert by (apply Z.eqb_eq; lia). rewrite wp_ret. split; [done|].
    rewrite Hsize. cbn [ordblks mxordblk]. rewrite !i32_small by lia. f_equal. lia. }
  by destruct (wp_run _ _ _ W) as (i & h' & E & -> & ->).
Qed.

Lemma mallinfo_totals_witness :
  ∃ h, hrep h [(496, false)] ∧ mm_mallinfo h = Ok (mkmallinfo 512 1 496 16 496, h).
Proof.
  destruct fresh_heap as (h & E & Hh). exists h. split; [exact Hh|].
  apply (mallinfo_totals h [(496, false)] Hh).
  assert (mm_heapsize h = 512) as ->; [|reflexivity].
  assert (match mm_initialize 8192 512 h0 with Ok (_, h) => mm_heapsize h = 512 | _ => False end) as H
    by (vm_compute; reflexivity).
  rewrite E in H. exact H.
Defined.

(** ** Sizes near the end of the address space *)

(** C37: [mm_malloc] does not check that adding the header to the size
    overflows: a request for almost 4 GB succeeds on any heap that has a free
    chunk and returns a block of less than 24 bytes. *)
Theorem malloc_wraps size h cs :
  hrep h cs → 2 ^ 32 - 8 < size < 2 ^ 32 → free_nodes (mm_heapstart h + 8) cs ≠ [] →
  ∃ r h' c1 s c2, mm_malloc size h = Ok (r, h') ∧
    r = mm_heapstart h + 8 + total c1 + 8 ∧ hrep h' (c1 ++ (s, true) :: c2) ∧ s - 8 < 24.
Proof.
  intros Hh Hs Hf.
  assert (chunk_size size = 16) as Ec.
  { unfold chunk_size. change SIZEOF_MM_ALLOCNODE with 8.
    assert (u32 (size + 8) = size + 8 - 2 ^ 32) as ->.
    { unfold u32, wrap. symmetry. apply (Z.mod_unique _ _ 1); lia. }
    rewrite align_up_eq by lia. Z.div_mod_to_equations. lia. }
  destruct (wp_run _ _ _ (malloc_spec size h cs Hh ltac:(lia) ltac:(rewrite Ec; lia)
    ltac:(rewrite Ec; by exists 2))) as (r & h' & E & HQ). rewrite Ec in HQ.
  destruct HQ as [(_ & _ & Hall)|(c1 & s & c2 & m' & -> & Hs1 & Hb & -> & -> & Hh' & Hk)].
  - destruct (free_nodes (mm_heapstart h + 8) cs) as [|[x k] F] eqn:EF; [done|].
    assert ((x, k) ∈ free_nodes (mm_heapstart h + 8) cs) as Hx by (rewrite EF; by left).
    specialize (Hall (x, k) ltac:(by left)). simpl in Hall.
    destruct (free_nodes_split _ _ _ _ Hx) as (c1 & c2 & -> & _).
    pose proof (rg_good _ _ _ _ (rep_region _ _ _ _ _ _ (hr_rep _ _ Hh)))
      as [_ [[Hg _] _]%Forall_cons]%Forall_app. simpl in Hg. lia.
  - unfold carve in Hh'. destruct (16 <=? s - 16) eqn:C; zify_bools; simpl in Hh'.
    + exists (mm_heapstart h + 8 + total c1 + 8), (set_mem m' h), c1, 16, ((s - 16, false) :: c2).
      split_and!; [exact E|done|exact Hh'|done].
    + exists (mm_heapstart h + 8 + total c1 + 8), (set_mem m' h), c1, s, c2.
      split_and!; [exact E|done|exact Hh'|lia].
Qed.

Lemma malloc_wraps_witness :
  ∃ h r h' c1 s c2, hrep h [(496, false)] ∧ mm_malloc (2 ^ 32 - 1) h = Ok (r, h') ∧
    r = mm_heapstart h + 8 + total c1 + 8 ∧ hrep h' (c1 ++ (s, true) :: c2) ∧ s - 8 < 24.
Proof.
  destruct fresh_heap as (h & _ & Hh). exists h.
  destruct (malloc_wraps (2 ^ 32 - 1) h [(496, false)] Hh) as (r & h' & c1 & s & c2 & H).
  - split; reflexivity.
  - discriminate.
  - exists r, h', c1, s, c2. split; [exact Hh|exact H].
Defined.

(** For a request of [2 ^ 32 - 8] bytes the size wraps to zero and the
    search stops at the first node of the list: on a fresh heap [mm_malloc]
    takes a hook out of the free list and returns a pointer into the
    [mm_nodelist] array of the heap structure itself. *)
Lemma malloc_returns_hook :
  match (mm_initialize 8192 512 ;;; mm_malloc (2 ^ 32 - 8))%cmd h0 with
  | Ok (r, h) => r = hook 1 h + SIZEOF_MM_ALLOCNODE ∧ mem h !! (hook 0 h + 8) = Some (hook 2 h)
  | Undef _ => False
  end.
Proof. vm_compute. split; reflexivity. Qed.

(** ** Growing the heap *)

Lemma rep_extend m nl base cs e F n :
  rep m nl base cs e F → 16 ≤ n → (8 | n) → e + n + 8 ≤ 2 ^ 32 →
  total cs + n + 16 < MM_ALLOC_BIT → hooks_apart nl base (e + n) →
  (∀ a, e + 8 ≤ a < e + n + 8 → (4 | a) → is_Some (m !! a)) →
  let m' := <[e + n + 4 := tag n true]> (<[e + n := 8]> (<[e := n]> m)) in
  rep m' nl base (cs ++ [(n, true)]) (e + n) F ∧ data_kept base cs m m'.
Proof.
  intros Hr Hn Hd Hmax Htot Hap Hram m'. pose proof Hr as [[H1 H2 H3 H4 H5 H6 H7] Ha (fl & L1 & L2) HF].
  pose proof (total_nonneg _ H4). destruct H6 as (S1 & S2 & S3).
  replace (base + 8 + total cs) with e in S2, S3 by lia.
  split; [split; [split|done| |]|].
  - done.
  - rewrite total_app. simpl. lia.
  - rewrite total_app. simpl. lia.
  - apply Forall_app. split; [done|]. by constructor.
  - subst m'. look. done.
  - apply layout_app. split.
    + eapply span_frame; [exact S1|]. intros x Hx. destruct (starts_range _ _ _ H4 Hx). subst m'.
      by rewrite !lookup_insert_ne by lia.
    + unfold layout. simpl. replace (base + 8 + total cs) with e by lia.
      rewrite Z.add_0_r. subst m'. look. done.
  - intros a Ha' H4a. subst m'. rewrite !lookup_insert_is_Some'. do 3 right.
    destruct (Z.lt_ge_cases a (e + 8)); [apply H7; [lia|done]|apply Hram; [lia|done]].
  - exists fl. split; [|done]. eapply flist_frame; [exact L1|]. intros x Hx.
    assert (x + 16 ≤ e ∨ e + n + 8 ≤ x) as Hx'.
    { rewrite L2, fmap_app in Hx. apply elem_of_app in Hx as [Hx|Hx].
      - pose proof (hook_range _ _ _ _ Hap Hx). lia.
      - apply list_elem_of_fmap in Hx as (p & -> & Hp%HF%free_nodes_starts).
        destruct (starts_range _ _ _ H4 Hp). lia. }
    subst m'. by rewrite !lookup_insert_ne by lia.
  - intros p Hp%HF. rewrite free_nodes_app. apply elem_of_app. by left.
  - intros w Hw%payload_range; [|done]. subst m'. by rewrite !lookup_insert_ne by lia.
Qed.

Lemma extend_spec h cs n Q :
  let e := mm_heapend h in
  hrep h cs → 16 ≤ n → (16 | e + 8) → (16 | n) → e + n + 8 < 2 ^ 32 →
  total cs + n + 16 < MM_ALLOC_BIT → hooks_apart (mm_nodelist h) (mm_heapstart h) (e + n) →
  (∀ a, e + 8 ≤ a < e + n + 8 → (4 | a) → is_Some (mem h !! a)) →
  (∀ m', hrep (set_mem m' (set_heapend (e + n) h)) (release cs n []) →
    data_kept (mm_heapstart h) cs (mem h) m' → Q tt (set_mem m' (set_heapend (e + n) h))) →
  wp (mm_extend (e + 8) n 0) Q h.
Proof.
  intros e Hh Hn De Dn Hmax Htot Hap Hram HQ. pose proof (hr_rep _ _ Hh) as Hr. fold e in Hr.
  pose proof (rep_region _ _ _ _ _ _ Hr) as [H1 H2 H3 H4 H5 (_ & E8 & E12) H7].
  pose proof (total_nonneg _ H4). replace (mm_heapstart h + 8 + total cs) with e in E8, E12 by lia.
  destruct De as [d De], Dn as [dn Dn].
  assert (8 | n) as D8 by (exists (2 * dn); lia).
  destruct (rep_extend _ _ _ _ _ _ n Hr Hn D8 ltac:(lia) Htot Hap Hram) as [Hr' Hk'].
  unfold mm_extend. change SIZEOF_MM_ALLOCNODE with 8.
  rewrite wp_bind, wp_assert by (apply negb_true_iff, Z.eqb_neq; unfold NULL; lia).
  rewrite wp_bind, wp_assert by (apply andb_true_iff; split; [apply Z.leb_le; change MIN_EXTEND with 16; lia|done]).
  rewrite (u32_id (e + 8 + n)) by lia.
  rewrite wp_bind, wp_assert by (apply Z.eqb_eq; rewrite align_up_eq by lia; Z.div_mod_to_equations; lia).
  rewrite wp_bind, wp_assert by (apply Z.eqb_eq; rewrite align_down_eq by lia; Z.div_mod_to_equations; lia).
  rewrite wp_bind, (wp_take_lock _ _ _ Hh), wp_bind, wp_gets.
  change (mm_heapend (set_mem (mem h) (locked h))) with e. rewrite (u32_id (e + 8)) by lia.
  rewrite wp_bind, wp_assert by apply Z.eqb_refl. unfold set_size, set_preceding, preceding, node_size.
  destruct (endsz_bound 8 cs) as [B1 B2]; [lia|done|].
  rewrite wp_bind, wp_store by (by rewrite E8 || lia).
  rewrite wp_bind, (wp_load _ (tag (endsz 8 cs) true)) by ((look; done) || lia).
  rewrite tag_test by lia. rewrite wp_bind, wp_assert by done.
  replace (e + 8 + n - 8) with (e + n) by lia. rewrite (u32_id (e + n)) by lia.
  rewrite wp_bind, wp_store;
    [|lia|look; apply Hram; [lia|]; exists (4 * d + 4 * dn - 2); lia].
  rewrite wp_bind, (wp_load _ n) by ((look; done) || lia).
  rewrite wp_bind, wp_store;
    [|lia|look; apply Hram; [lia|]; exists (4 * d + 4 * dn - 1); lia].
  rewrite lor_bit by lia.
  set (m' := <[e + n + 4 := tag n true]> _) in *.
  set (h2 := set_heapend (e + n) h).
  rewrite wp_bind, wp_modify, wp_bind.
  change (set_heapend (e + n) (set_mem m' (locked h))) with (set_mem m' (locked h2)).
  assert (unlocked h2) as Hu by exact (hr_lock _ _ Hh). rewrite (wp_give_unlocked _ h2 m' Hu).
  assert (hrep (set_mem m' h2) (cs ++ [(n, true)])) as Hh2.
  { split; [exact Hu|]. simpl. rewrite free_nodes_app. simpl. rewrite app_nil_r. exact Hr'. }
  replace (e + 8) with (mm_heapstart (set_mem m' h2) + 8 + total cs + 8) by (simpl; lia).
  eapply wp_mono; [apply (free_spec _ cs n [] Hh2)|].
  intros [] h3 (m3 & -> & Hh3 & Hk3). apply (HQ m3); [exact Hh3|].
  intros w Hw. simpl in Hk3. rewrite Hk3; [by apply Hk'|]. apply payload_app. by left.
Qed.

(** [mm_extend] adds the memory behind the region to the heap: the new
    space is free, merged with a free chunk at the old end, and all data is
    kept. *)
Theorem extend_heap h cs n :
  hrep h cs → 16 ≤ n → (16 | mm_heapend h + 8) → (16 | n) → mm_heapend h + n + 8 < 2 ^ 32 →
  total cs + n + 16 < MM_ALLOC_BIT →
  hooks_apart (mm_nodelist h) (mm_heapstart h) (mm_heapend h + n) →
  (∀ a, mm_heapend h + 8 ≤ a < mm_heapend h + n + 8 → (4 | a) → is_Some (mem h !! a)) →
  ∃ h', mm_extend (mm_heapend h + 8) n 0 h = Ok (tt, h') ∧ hrep h' (release cs n []) ∧
    mm_heapend h' = mm_heapend h + n ∧ data_kept (mm_heapstart h) cs (mem h) (mem h').
Proof.
  intros Hh Hn De Dn Hmax Htot Hap Hram.
  assert (wp (mm_extend (mm_heapend h + 8) n 0) (λ _ h', hrep h' (release cs n []) ∧
    mm_heapend h' = mm_heapend h + n ∧ data_kept (mm_heapstart h) cs (mem h) (mem h')) h) as W.
  { eapply extend_spec; [done..|]. intros m' Hh' Hk. by split_and!. }
  destruct (wp_run _ _ _ W) as ([] & h' & E & HQ). by exists h'.
Qed.

(** [mm_extend] does not add the new memory to [mm_heapsize]: after it the
    sums of [mm_mallinfo] exceed the recorded size and its assertion fails. *)
Theorem extend_breaks_mallinfo h cs n :
  hrep h cs → mm_heapsize h = total cs + 16 → 16 ≤ n → (16 | mm_heapend h + 8) → (16 | n) →
  mm_heapend h + n + 8 < 2 ^ 32 → total cs + n + 16 < MM_ALLOC_BIT →
  hooks_apart (mm_nodelist h) (mm_heapstart h) (mm_heapend h + n) →
  (∀ a, mm_heapend h + 8 ≤ a < mm_heapend h + n + 8 → (4 | a) → is_Some (mem h !! a)) →
  (mm_extend (mm_heapend h + 8) n 0 ;;; mm_mallinfo)%cmd h = Undef AssertFail.
Proof.
  intros Hh Hsize Hn De Dn Hmax Htot Hap Hram.
  assert (wp (mm_extend (mm_heapend h + 8) n 0) (λ _ h', hrep h' (release cs n []) ∧
    mm_heapsize h' = mm_heapsize h) h) as W.
  { eapply extend_spec; [done..|]. intros m' Hh' Hk. by split. }
  destruct (wp_run _ _ _ W) as ([] & h' & E & Hh' & Hsz).
  unfold bind at 1. rewrite E. simpl.
  assert (total (release cs n []) = total cs + n) as Ht by (rewrite total_release; simpl; lia).
  destruct (hrep_sized _ _ Hh') as [Hs Hm]. destruct (sized_bounds _ Hs) as (S1 & S2 & S3 & S4).
  pose proof (totals_sum (release cs n [])).
  unfold mm_mallinfo. rewrite (mallinfo_walk_eq h' _ _ Hh'). cbn [fst snd uordblks fordblks].
  unfold bind, gets, ret, res_bind. rewrite Z.eqb_refl. simpl. change SIZEOF_MM_ALLOCNODE with 8.
  rewrite !u32_id by (rewrite ?u32_id; lia).
  by rewrite (proj2 (Z.eqb_neq _ _)) by lia.
Qed.

(** The heap of 480 bytes with 32 more bytes of memory behind it. *)
Lemma short_heap :
  ∃ h, hrep h [(464, false)] ∧ mm_heapsize h = 480 ∧ mm_heapstart h = 8192 ∧ mm_heapend h = 8664 ∧
    mm_nodelist h = 4096 ∧ (∀ a, 8672 ≤ a < 8704 → (4 | a) → is_Some (mem h !! a)).
Proof.
  destruct (wp_run _ _ _ (initialize_spec h0 8192 480 ltac:(by exists 1024) ltac:(discriminate)
    h0_hooks ltac:(intros a Ha; apply h0_region; change (8192 ≤ a < 8672) in Ha; lia)
    ltac:(reflexivity) ltac:(discriminate) ltac:(reflexivity)
    ltac:(reflexivity) ltac:(discriminate) ltac:(reflexivity)
    ltac:(split; [reflexivity|split; [discriminate|left; discriminate]]) ltac:(reflexivity)))
    as ([] & h & E & H & H1 & H2 & H3).
  exists h. split; [exact H|]. split; [exact H3|]. split; [exact H1|]. split; [exact H2|].
  assert (match mm_initialize 8192 480 h0 with
    | Ok (_, h) => mm_nodelist h = 4096 ∧
        forallb (λ k, bool_decide (is_Some (mem h !! (8672 + 4 * k)))) (seqZ 0 8) = true
    | _ => False end) as Hc by (vm_compute; split; reflexivity).
  rewrite E in Hc. destruct Hc as [Hn Hc]. split; [exact Hn|]. intros a Ha [d Hd].
  rewrite forallb_forall in Hc. specialize (Hc (d - 2168)).
  apply bool_decide_eq_true in Hc; [by replace (8672 + 4 * (d - 2168)) with a in Hc by lia|].
  apply list_elem_of_In, elem_of_seqZ. lia.
Qed.

Lemma extend_heap_witness :
  ∃ h h', hrep h [(464, false)] ∧ mm_extend (mm_heapend h + 8) 32 0 h = Ok (tt, h') ∧
    hrep h' [(496, false)].
Proof.
  destruct short_heap as (h & Hh & Hs & H1 & H2 & H3 & Hram). exists h.
  destruct (extend_heap h [(464, false)] 32 Hh) as (h' & E & Hh' & _).
  - discriminate.
  - rewrite H2. by exists 542.
  - by exists 2.
  - rewrite H2. reflexivity.
  - reflexivity.
  - rewrite H1, H2, H3. split; [reflexivity|]. split; [discriminate|]. left. discriminate.
  - rewrite H2. exact Hram.
  - exists h'. split; [exact Hh|]. split; [exact E|exact Hh'].
Defined.

Lemma extend_breaks_mallinfo_witness :
  ∃ h, hrep h [(464, false)] ∧
    (mm_extend (mm_heapend h + 8) 32 0 ;;; mm_mallinfo)%cmd h = Undef AssertFail.
Proof.
  destruct short_heap as (h & Hh & Hs & H1 & H2 & H3 & Hram). exists h. split; [exact Hh|].
  apply (extend_breaks_mallinfo h [(464, false)] 32 Hh).
  - exact Hs.
  - discriminate.
  - rewrite H2. by exists 542.
  - by exists 2.
  - rewrite H2. reflexivity.
  - reflexivity.
  - rewrite H1, H2, H3. split; [reflexivity|]. split; [discriminate|]. left. discriminate.
  - rewrite H2. exact Hram.
Defined.

End HeapOps.
