(* ===== verification/Realloc.v ===== *)
(** * Cutting chunks

    [mm_shrinkchunk] and [mm_memalign] on the list of chunks: a block is cut
    at its end, and at its front to the wanted alignment. *)

From S2P Require Import Prelude Queue Heap HeapRep Alloc HeapInit HeapClient HeapOps.

Module Realloc.
Import Heap HeapRep Alloc HeapInit HeapClient HeapOps.

(** ** Shrinking *)

(** The chunks after the chunk of size [s] between [c1] and [c2] is cut to
    [n] bytes. *)
Definition shrink (c1 : list chunk) (s : Z) (c2 : list chunk) (n : Z) : list chunk :=
  match c2 with
  | (t, false) :: c2' => c1 ++ (n, true) :: (t + s - n, false) :: c2'
  | _ => if n + 16 <=? s then c1 ++ (n, true) :: (s - n, false) :: c2 else c1 ++ (s, true) :: c2
  end.

(** A chunk is cut from [cm] to [n] bytes: the rest, of [r] bytes, goes to the
    free list. *)
Lemma cut_spec m m2 nl base c1 cm n r c2 e Q h :
  let x := base + 8 + total c1 in
  mm_nodelist h = nl → rep m nl base (c1 ++ cm ++ c2) e (others base c1 (total cm) c2) →
  16 ≤ n → 16 ≤ r → (8 | n) → (8 | r) → n + r = total cm →
  within m m2 x (total cm) →
  m2 !! x = Some n → m2 !! (x + 4) = Some (tag (endsz 8 c1) true) →
  m2 !! (x + n) = Some r → m2 !! (x + n + 4) = Some n →
  m2 !! (x + total cm + 4) = Some (tag r (hd_used c2)) →
  (∀ w, x + 8 ≤ w < x + n → m2 !! w = m !! w) →
  (∀ m', rep m' nl base (c1 ++ (n, true) :: (r, false) :: c2) e
      (free_nodes (base + 8) (c1 ++ (n, true) :: (r, false) :: c2)) →
    data_kept base (c1 ++ (n, true) :: (r, false) :: c2) m m' → Q tt (set_mem m' h)) →
  wp (mm_addfreechunk (x + n)) Q (set_mem m2 h).
Proof.
  intros x Hnl Hr Hn Hr16 Dn Dr Hsum Hw E1 E2 E3 E4 E5 Hdata HQ.
  destruct (rep_edit m m2 nl base c1 cm [(n, true); (r, false)] c2 e (others base c1 (total cm) c2))
    as [Hr2 Hk2]; simpl; fold x; try done; try lia.
  { constructor; [done|constructor; done]. }
  simpl in Hr2.
  assert (c1 ++ (n, true) :: (r, false) :: c2 = (c1 ++ [(n, true)]) ++ (r, false) :: c2) as Ec
    by by rewrite <- app_assoc.
  replace (x + n) with (base + 8 + total (c1 ++ [(n, true)])) by (rewrite total_app; simpl; lia).
  rewrite Ec in Hr2, HQ.
  apply (give_back_spec _ nl base _ r c2 e); [done| |].
  { eapply rep_perm; [|exact Hr2]. unfold others. rewrite free_nodes_app, total_app. simpl.
    rewrite app_nil_r. by replace (base + 8 + (total c1 + (n + 0)) + r) with (x + total cm) by lia. }
  intros m' Hr' Hk'. apply HQ; [done|]. intros w Hw'. rewrite Hk' by done.
  rewrite <- Ec in Hw'. apply payload_app in Hw' as [Hw1|[[_ Hw1]|[[? _]|Hw1]]]; simpl in *.
  - apply Hk2. by left.
  - apply Hdata. lia.
  - done.
  - apply Hk2. right. replace (base + 8 + total c1 + n + r) with (x + total cm) in Hw1 by lia. done.
Qed.

Lemma shrink_spec m nl base c1 s c2 e n Q h :
  let x := base + 8 + total c1 in
  mm_nodelist h = nl →
  rep m nl base (c1 ++ (s, true) :: c2) e (free_nodes (base + 8) (c1 ++ (s, true) :: c2)) →
  16 ≤ n < s → (8 | n) →
  (∀ m', rep m' nl base (shrink c1 s c2 n) e (free_nodes (base + 8) (shrink c1 s c2 n)) →
    data_kept base (shrink c1 s c2 n) m m' → Q tt (set_mem m' h)) →
  wp (mm_shrinkchunk x n) Q (set_mem m h).
Proof.
  intros x Hnl Hr Hn Dn HQ. pose proof (rep_region _ _ _ _ _ _ Hr) as Hreg.
  pose proof (region_mid _ _ _ _ _ _ _ Hreg) as [(E1 & E2 & E3) B].
  cbv zeta in E1, E2, E3, B. fold x in E1, E2, E3, B.
  assert (MM_ALLOC_BIT < 2 ^ 32) as HB by done.
  destruct B as (B1 & B2 & B3 & B4 & B5 & B6 & B7 & B8 & B9 & B10).
  unfold mm_shrinkchunk. exec.
  rewrite wp_bind, (wp_load _ s) by (done || lia). rewrite (u32_id (x + s)) by lia.
  rewrite wp_bind, (wp_load _ (tag s (hd_used c2))) by (done || lia). rewrite tag_test by lia.
  change SIZEOF_MM_FREENODE with 16.
  destruct (hd_used c2) eqn:Hu; cbn [negb].
  - (* the next chunk is in use *)
    rewrite (u32_id (n + 16)) by lia. apply (proj2 (wp_when _ _ _ _)).
    assert (shrink c1 s c2 n =
      if n + 16 <=? s then c1 ++ (n, true) :: (s - n, false) :: c2 else c1 ++ (s, true) :: c2) as Es.
    { destruct c2 as [|[t []] c2]; try done. }
    rewrite Es in HQ. clear Es. destruct (n + 16 <=? s) eqn:C; zify_bools; [|by apply HQ].
    rewrite (u32_id (x + n)), (u32_id (s - n)) by lia.
    assert (is_Some (m !! (x + n))) by (eapply rep_ram; [exact Hr|lia|div4]).
    assert (is_Some (m !! (x + n + 4))) by (eapply rep_ram; [exact Hr|lia|div4]).
    rewrite wp_bind, wp_store by (done || lia).
    rewrite wp_bind, wp_store by ((look; done) || lia).
    rewrite wp_bind, wp_store by ((look; by rewrite E1) || lia).
    rewrite wp_bind, (wp_load _ (s - n)) by ((look; done) || lia).
    rewrite wp_bind, wp_store by ((look; by rewrite E3) || lia). rewrite lor_bit by lia.
    eapply (cut_spec m _ nl base c1 [(s, true)] n (s - n) c2 e); simpl; fold x; rewrite ?Z.add_0_r;
      try done; try lia.
    + eapply rep_perm; [|exact Hr]. unfold others. by rewrite free_nodes_app.
    + by apply Z.divide_sub_r.
    + repeat apply within_insert; try lia. apply within_refl.
    + by look.
    + by look.
    + by look.
    + by look.
    + rewrite Hu. by look.
    + intros w Hw. by look.
  - (* it is free *)
    destruct c2 as [|[t v] c2]; [done|]. simpl in Hu. subst v.
    pose proof (region_pair _ _ _ _ _ _ _ _ _ Hreg) as [(_ & _ & E4 & _) B'].
    cbv zeta in E4, B'. fold x in E4, B'. destruct B' as (C1 & C2 & C3 & C4 & C5 & C6 & C7 & C8 & C9 & C10 & C11 & C12).
    rewrite wp_bind, (wp_load _ t) by (done || lia). rewrite (u32_id (x + s + t)) by lia.
    rewrite wp_bind. eapply (wp_rep_unlink _ _ _ _ _ (x + s) t (others base c1 (s + t) c2)).
    { eapply rep_perm; [|exact Hr]. rewrite free_nodes_app. unfold others. simpl. fold x.
      rewrite <- Permutation_middle, Z.add_assoc. done. }
    intros m1 Hr1 Hk1. pose proof (rep_region _ _ _ _ _ _ Hr1) as Hreg1.
    pose proof (region_pair _ _ _ _ _ _ _ _ _ Hreg1) as [(F1 & F2 & F3 & _ & F5) _].
    cbv zeta in F1, F2, F3, F5. fold x in F1, F2, F3, F5.
    assert (is_Some (m1 !! (x + n))) by (eapply rep_ram; [exact Hr1|lia|div4]).
    assert (is_Some (m1 !! (x + n + 4))) by (eapply rep_ram; [exact Hr1|lia|div4]).
    rewrite (u32_id (x + n)) by lia.
    rewrite wp_bind, (wp_load _ t) by (done || lia). rewrite wp_bind, (wp_load _ s) by (done || lia).
    rewrite (u32_id (t + s - n)) by lia.
    rewrite wp_bind, wp_store by (done || lia).
    rewrite wp_bind, wp_store by ((look; done) || lia).
    rewrite wp_bind, wp_store by ((look; by rewrite F1) || lia).
    rewrite wp_bind, (wp_load _ (t + s - n)) by ((look; done) || lia).
    rewrite wp_bind, (wp_load _ (tag t (hd_used c2))) by ((look; done) || lia).
    rewrite wp_bind, wp_store by ((look; by rewrite F5) || lia). rewrite retag by lia.
    simpl in HQ.
    eapply (cut_spec m1 _ nl base c1 [(s, true); (t, false)] n (t + s - n) c2 e); simpl; fold x;
      rewrite ?Z.add_0_r, ?Z.add_assoc; try done; try lia.
    + apply Z.divide_sub_r; [by apply Z.divide_add_r|done].
    + repeat apply within_insert; try lia. apply within_refl.
    + by look.
    + by look.
    + by look.
    + by look.
    + by look.
    + intros w Hw. by look.
    + intros m' Hr' Hk'. apply HQ; [done|]. intros w Hw. rewrite Hk' by done. apply Hk1.
      rewrite !payload_app in *. simpl in *. fold x in Hw |- *.
      replace (x + n + (t + s - n)) with (x + s + t) in Hw by lia. naive_solver lia.
Qed.

(** ** Aligned allocation *)

(** The first multiple of [al] from [a] on. *)
Definition round_up (al a : Z) : Z := al * ((a + al - 1) / al).

Lemma round_up_bounds al a : 0 < al → a ≤ round_up al a < a + al.
Proof. intros H. unfold round_up. Z.div_mod_to_equations. nia. Qed.

Lemma mask_round_up k a : 0 ≤ k → 0 ≤ a → a + 2 ^ k - 1 < 2 ^ 32 →
  Z.land (u32 (a + (2 ^ k - 1))) (Z.lnot (2 ^ k - 1)) = round_up (2 ^ k) a.
Proof.
  intros Hk Ha Hmax. assert (0 < 2 ^ k) by (apply Z.pow_pos_nonneg; lia).
  rewrite u32_id by lia. replace (2 ^ k - 1) with (Z.ones k) at 2 by (rewrite Z.ones_equiv; lia).
  rewrite <- Z.ldiff_land, Z.ldiff_ones_r by lia.
  rewrite Z.shiftl_mul_pow2, Z.shiftr_div_pow2 by lia. unfold round_up.
  rewrite Z.mul_comm. do 2 f_equal. lia.
Qed.

(** The aligned address used: the first one that leaves room for a free node. *)
Definition aligned_at (al raw : Z) : Z :=
  let a := round_up al raw in
  if (a =? raw) || (16 <=? a - raw) then a else a + al.

Lemma split_front_spec m nl base c1 k c2 e al Q h :
  let x := base + 8 + total c1 in
  let a := aligned_at al (x + 8) in
  mm_nodelist h = nl →
  rep m nl base (c1 ++ (k, true) :: c2) e (free_nodes (base + 8) (c1 ++ (k, true) :: c2)) →
  16 < al → (8 | al) → a ≠ x + 8 → a + 16 ≤ x + 8 + k → x + 8 + 2 * al < 2 ^ 32 →
  (∀ m', let d := a - (x + 8) in
    rep m' nl base (c1 ++ (d, false) :: (k - d, true) :: c2) e
      (free_nodes (base + 8) (c1 ++ (d, false) :: (k - d, true) :: c2)) →
    16 ≤ d → (8 | d) → data_kept base (c1 ++ (k, false) :: c2) m m' →
    Q (a, a - 8, k - d - 8) (set_mem m' h)) →
  wp (split_front al (x + 8) x (round_up al (x + 8))) Q (set_mem m h).
Proof.
  intros x a Hnl Hr Hal Dal Hne Hfit Hmax HQ. pose proof (rep_region _ _ _ _ _ _ Hr) as Hreg.
  pose proof (region_mid _ _ _ _ _ _ _ Hreg) as [(E1 & E2 & E3) B].
  cbv zeta in E1, E2, E3, B. fold x in E1, E2, E3, B.
  assert (MM_ALLOC_BIT < 2 ^ 32) as HB by done.
  destruct B as (B1 & B2 & B3 & B4 & B5 & B6 & B7 & B8 & B9 & B10).
  pose proof (round_up_bounds al (x + 8) ltac:(lia)) as Hru. set (r := round_up al (x + 8)) in *.
  assert (8 | r) as Dr by (subst r; unfold round_up; by apply Z.divide_mul_l).
  assert (8 | x + 8) as Dx by (apply Z.divide_add_r; [done|by exists 1]).
  assert (r = x + 8 ∨ x + 16 ≤ r) as Hr8 by (destruct Dr as [p ?], Dx as [q ?]; lia).
  assert (a = if r - (x + 8) <? 16 then r + al else r) as Ea.
  { subst a. unfold aligned_at in *. fold r in Hne |- *.
    destruct (Z.eqb_spec r (x + 8)); simpl in *; [done|].
    destruct (Z.ltb_spec (r - (x + 8)) 16), (Z.leb_spec 16 (r - (x + 8))); lia. }
  assert (16 ≤ a - (x + 8)) as Hd.
  { destruct (Z.ltb_spec (r - (x + 8)) 16); [|lia].
    destruct Hr8 as [Hr8|Hr8]; [|lia]. exfalso. apply Hne. unfold a, aligned_at. fold r.
    by rewrite (proj2 (Z.eqb_eq r _) Hr8). }
  assert (8 | a) as Da by (rewrite Ea; destruct (_ <? 16); [by apply Z.divide_add_r|done]).
  set (d := a - (x + 8)) in *. assert (8 | d) as Dd by by apply Z.divide_sub_r.
  assert (r ≠ x + 8) as Hrne.
  { intros Hr8'. apply Hne. unfold a, aligned_at. fold r. by rewrite (proj2 (Z.eqb_eq r _) Hr8'). }
  unfold split_front. exec. change SIZEOF_MM_ALLOCNODE with 8. change SIZEOF_MM_FREENODE with 16.
  rewrite wp_bind, (wp_load _ k) by (done || lia). rewrite (u32_id (x + k)) by lia.
  rewrite (u32_id (x + 8 + 8)) by lia.
  rewrite wp_bind, wp_assert by (apply Z.leb_le; lia).
  rewrite (u32_id (r - 8)), (u32_id (r - 8 - x)) by lia. replace (r - 8 - x) with (r - (x + 8)) by lia.
  assert ((if r - (x + 8) <? 16 then u32 (r + al) else r) = a) as ->.
  { rewrite Ea. destruct (_ <? 16); [apply u32_id; lia|done]. }
  rewrite (u32_id (a - 8)) by lia. replace (a - 8 - x) with d by lia. rewrite (u32_id d) by lia.
  replace (a - 8) with (x + d) by lia. replace (x + k - (x + d)) with (k - d) by lia.
  rewrite (u32_id (k - d)) by lia.
  assert (is_Some (m !! (x + d))) by (eapply rep_ram; [exact Hr|lia|div4]).
  assert (is_Some (m !! (x + d + 4))) by (eapply rep_ram; [exact Hr|lia|div4]).
  rewrite wp_bind, wp_store by (done || lia).
  rewrite wp_bind, wp_store by ((look; done) || lia). rewrite lor_bit by lia.
  rewrite wp_bind, wp_store by ((look; by rewrite E1) || lia).
  rewrite wp_bind, (wp_load _ (tag (endsz 8 c1) true)) by ((look; done) || lia).
  rewrite wp_bind, wp_store by ((look; by rewrite E2) || lia). rewrite tag_clear by lia.
  rewrite wp_bind, (wp_load _ (k - d)) by ((look; done) || lia).
  rewrite wp_bind, (wp_load _ (tag k (hd_used c2))) by ((look; done) || lia).
  rewrite wp_bind, wp_store by ((look; by rewrite E3) || lia). rewrite retag by lia.
  rewrite wp_bind, (wp_load _ (k - d)) by ((look; done) || lia).
  rewrite (u32_id (k - d - 8)) by lia.
  set (m2 := <[x + k + 4 := _]> _).
  destruct (rep_edit m m2 nl base c1 [(k, true)] [(d, false); (k - d, true)] c2 e
    (others base c1 k c2)) as [Hr2 Hk2]; subst m2; simpl; fold x; rewrite ?Z.add_0_r; try done; try lia.
  { eapply rep_perm; [|exact Hr]. unfold others. by rewrite free_nodes_app. }
  { constructor; [done|constructor; [|done]]. simpl. split; [lia|by apply Z.divide_sub_r]. }
  { look. done. }
  { look. done. }
  { repeat apply within_insert; try lia. apply within_refl. }
  simpl in Hr2, Hk2. fold x in Hk2. rewrite Z.add_0_r in Hk2.
  rewrite wp_bind. apply (give_back_spec _ nl base c1 d ((k - d, true) :: c2) e); [done| |].
  { eapply rep_perm; [|exact Hr2]. unfold others. simpl. fold x.
    by replace (x + d + (k - d)) with (x + k) by lia. }
  intros m3 Hr3 Hk3. rewrite wp_ret. replace (x + d) with (a - 8) by lia. apply HQ; [done..|].
  intros w Hw. apply payload_app in Hw. simpl in Hw. fold x in Hw.
  rewrite Hk3; [apply Hk2; naive_solver|].
  apply payload_app. simpl. fold x. replace (x + d + (k - d)) with (x + k) by lia. naive_solver.
Qed.

Lemma carve_head n s a c1 c2 w : n ≤ s →
  ∃ k rest, carve n s = (k, true) :: rest ∧ n ≤ k ∧
    (payload a (c1 ++ (s, false) :: c2) w → payload a (c1 ++ (k, false) :: rest ++ c2) w).
Proof.
  intros Hn. unfold carve. destruct (16 <=? s - n).
  - exists n, [(s - n, false)]. split_and!; [done..|]. rewrite !payload_app. simpl.
    replace (a + total c1 + n + (s - n)) with (a + total c1 + s) by lia. naive_solver.
  - exists s, []. split_and!; [done..|]. rewrite !payload_app. simpl. naive_solver.
Qed.

Lemma shrink_head c1 s c2 n : n ≤ s → ∃ k rest, shrink c1 s c2 n = c1 ++ (k, true) :: rest ∧ n ≤ k.
Proof.
  intros Hn. unfold shrink. destruct c2 as [|[t []] c2]; try (destruct (n + 16 <=? s));
    (eexists _, _; split; [reflexivity|lia]).
Qed.

Lemma shrink_payload a c1 s c2 n w :
  payload a (c1 ++ (s, false) :: c2) w → payload a (shrink c1 s c2 n) w.
Proof.
  rewrite payload_app. simpl. unfold shrink. intros Hw.
  destruct c2 as [|[t []] c2];
    [destruct (n + 16 <=? s)|destruct (n + 16 <=? s)|]; rewrite payload_app; simpl in *.
  - naive_solver.
  - naive_solver.
  - replace (a + total c1 + n + (s - n)) with (a + total c1 + s) by lia. naive_solver.
  - naive_solver.
  - replace (a + total c1 + n + (t + s - n)) with (a + total c1 + s + t) by lia. naive_solver.
Qed.

(** The part of [mm_memalign] after the allocation, on the chunk of size [k]. *)
Lemma trim_spec h c1 k c2 al size Q :
  let x := mm_heapstart h + 8 + total c1 in
  let a := aligned_at al (x + 8) in
  hrep h (c1 ++ (k, true) :: c2) → 16 < al → (8 | al) → 16 ≤ size → (8 | size) →
  size + 2 * al + 8 ≤ k →
  (∀ h' c1' n rest, hrep h' (c1' ++ (n, true) :: rest) →
    a = mm_heapstart h + 8 + total c1' + 8 → size + 8 ≤ n →
    data_kept (mm_heapstart h) (c1 ++ (k, false) :: c2) (mem h) (mem h') →
    mm_heapstart h' = mm_heapstart h → Q a h') →
  wp (mm_takesemaphore ;;;
      r <-- (if negb (round_up al (x + 8) =? x + 8)
             then split_front al (x + 8) x (round_up al (x + 8))
             else ret (round_up al (x + 8), x, size + 2 * al)) ;;
      let '(alignedchunk, node, allocsize) := r in
      when (size <? allocsize)
        (mm_shrinkchunk node (u32 (size + SIZEOF_MM_ALLOCNODE))) ;;;
      mm_givesemaphore ;;;
      ret alignedchunk)%cmd Q h.
Proof.
  intros x a Hh Hal Dal Hsz Dsz Hk HQ. pose proof (hr_rep _ _ Hh) as Hr.
  pose proof (region_mid _ _ _ _ _ _ _ (rep_region _ _ _ _ _ _ Hr)) as [_ B].
  cbv zeta in B. fold x in B. assert (MM_ALLOC_BIT < 2 ^ 32) as HB by done.
  pose proof (round_up_bounds al (x + 8) ltac:(lia)) as Hru. change SIZEOF_MM_ALLOCNODE with 8.
  assert (8 | size + 8) as Ds8 by (apply Z.divide_add_r; [done|by exists 1]).
  rewrite wp_bind, (wp_take_lock _ _ _ Hh), wp_bind.
  assert (a = round_up al (x + 8) ∨ a = round_up al (x + 8) + al) as Ha.
  { subst a. unfold aligned_at. destruct (_ || _); tauto. }
  destruct (Z.eqb_spec (round_up al (x + 8)) (x + 8)) as [Er|Er]; cbn [negb].
  - assert (a = x + 8) as Ea by (subst a; unfold aligned_at; rewrite Er, Z.eqb_refl; done).
    rewrite wp_ret, Er, wp_bind. apply (proj2 (wp_when _ _ _ _)).
    rewrite (proj2 (Z.ltb_lt _ _)), (u32_id (size + 8)) by lia.
    apply (shrink_spec _ _ _ _ _ _ _ _ _ (locked h) eq_refl Hr); [lia|done|]. intros m' Hr' Hk'.
    rewrite wp_bind, (wp_give_lock _ _ _ _ Hh), wp_ret, <- Ea.
    destruct (shrink_head c1 k c2 (size + 8)) as (n & rest & Es & Hn); [lia|].
    apply (HQ _ c1 n rest); [|done|done| |done].
    + rewrite <- Es. by eapply hrep_set.
    + intros w Hw. apply Hk'. by apply shrink_payload.
  - assert (a ≠ x + 8) as Hane.
    { destruct Ha as [->| ->]; [done|lia]. }
    apply (split_front_spec _ _ _ _ _ _ _ _ _ (locked h) eq_refl Hr); [done|done|exact Hane|fold x a; lia|fold x; lia|].
    fold x a.
    intros m1 d Hr1 Hd Dd Hk1. fold a in d. rewrite wp_bind. apply (proj2 (wp_when _ _ _ _)).
    rewrite (proj2 (Z.ltb_lt _ _)), (u32_id (size + 8)) by lia.
    assert (c1 ++ (d, false) :: (k - d, true) :: c2 = (c1 ++ [(d, false)]) ++ (k - d, true) :: c2) as Ec
      by by rewrite <- app_assoc.
    fold x a d in Hr1. rewrite Ec in Hr1.
    assert (a - 8 = mm_heapstart h + 8 + total (c1 ++ [(d, false)])) as Ea
      by (rewrite total_app; simpl; lia).
    rewrite Ea.
    apply (shrink_spec _ _ _ _ _ _ _ _ _ (locked h) eq_refl Hr1); [lia|done|]. intros m' Hr' Hk'.
    rewrite wp_bind, (wp_give_lock _ _ _ _ Hh), wp_ret.
    destruct (shrink_head (c1 ++ [(d, false)]) (k - d) c2 (size + 8)) as (n & rest & Es & Hn); [lia|].
    apply (HQ _ (c1 ++ [(d, false)]) n rest); [|lia|done| |done].
    + rewrite <- Es. by eapply hrep_set.
    + intros w Hw. simpl. change (mm_heapstart (locked h)) with (mm_heapstart h) in *.
      rewrite Hk'; [by apply Hk1|]. apply shrink_payload. rewrite <- app_assoc. simpl.
      apply payload_join. by replace (d + (k - d)) with k by lia.
Qed.

(** [mm_memalign] returns the null pointer without changing the heap, or a
    block aligned to the given power of two that holds the size; the data of
    every other block is kept. *)
Theorem memalign_aligned k size h cs :
  hrep h cs → 5 ≤ k < 31 → 1 ≤ size → size + 2 * 2 ^ k + 38 < 2 ^ 32 →
  ∃ r h', mm_memalign (2 ^ k) size h = Ok (r, h') ∧
    (r = NULL ∧ h' = h ∨
     (2 ^ k | r) ∧ ∃ c1 n c2, hrep h' (c1 ++ (n, true) :: c2) ∧
       r = mm_heapstart h + 8 + total c1 + 8 ∧ size + 8 ≤ n ∧
       data_kept (mm_heapstart h) cs (mem h) (mem h')).
Proof.
  intros Hh Hk Hs Hmax.
  assert (32 ≤ 2 ^ k) as Hal by (change 32 with (2 ^ 5); apply Z.pow_le_mono_r; lia).
  assert (8 | 2 ^ k) as Dal by (exists (2 ^ (k - 3)); change 8 with (2 ^ 3); rewrite <- Z.pow_add_r by lia; f_equal; lia).
  set (z := 16 * ((size + 15) / 16)).
  assert (size ≤ z ≤ size + 15) as Hz by (subst z; Z.div_mod_to_equations; lia).
  assert (16 ≤ z) as Hz16 by (subst z; Z.div_mod_to_equations; lia).
  destruct (chunk_size_bounds (z + 2 * 2 ^ k)) as (N1 & N2 & N3); [lia..|].
  assert (wp (mm_memalign (2 ^ k) size) (λ r h', r = NULL ∧ h' = h ∨
     (2 ^ k | r) ∧ ∃ c1 n c2, hrep h' (c1 ++ (n, true) :: c2) ∧
       r = mm_heapstart h + 8 + total c1 + 8 ∧ size + 8 ≤ n ∧
       data_kept (mm_heapstart h) cs (mem h) (mem h')) h) as W.
  { unfold mm_memalign. rewrite (proj2 (Z.leb_gt _ MM_MIN_CHUNK)) by (change MM_MIN_CHUNK with 16; lia).
    rewrite align_up_eq by lia. fold z. rewrite (u32_id (z + 2 * 2 ^ k)) by lia.
    rewrite wp_bind. eapply wp_mono; [by apply (malloc_spec _ _ _ Hh); [lia|..]|].
    intros r h1 [(-> & -> & _)|(c1 & s & c2 & m1 & -> & Hn & _ & -> & -> & Hh1 & Hk1)].
    { rewrite Z.eqb_refl, wp_ret. by left. }
    pose proof (region_mid _ _ _ _ _ _ _ (rep_region _ _ _ _ _ _ (hr_rep _ _ Hh))) as [_ B].
    cbv zeta in B. set (x := mm_heapstart h + 8 + total c1) in *.
    rewrite (proj2 (Z.eqb_neq _ 0)) by lia. change SIZEOF_MM_ALLOCNODE with 8.
    replace (x + 8 - 8) with x by lia. rewrite (u32_id x) by lia.
    rewrite (u32_id (2 ^ k - 1)) by lia. rewrite mask_round_up by lia.
    destruct (carve_head (chunk_size (z + 2 * 2 ^ k)) s (mm_heapstart h + 8) c1 c2 0 Hn)
      as (kk & rest & Ec & Hkk & _).
    rewrite Ec in Hh1. simpl in Hh1.
    apply (trim_spec (set_mem m1 h) c1 kk (rest ++ c2) (2 ^ k) z); try done; try lia.
    { exists (2 * ((size + 15) / 16)). lia. }
    intros h' c1' n rest' Hh' Ea Hn' Hk' _. right. simpl in Ea, Hk'. split.
    - unfold aligned_at, round_up. destruct (_ || _); [apply Z.divide_factor_l|].
      apply Z.divide_add_r; [apply Z.divide_factor_l|done].
    - exists c1', n, rest'. split_and!; [exact Hh'|exact Ea|lia|]. intros w Hw.
      rewrite Hk'; [by apply Hk1|].
      destruct (carve_head (chunk_size (z + 2 * 2 ^ k)) s (mm_heapstart h + 8) c1 c2 w Hn)
        as (kk' & rest'' & Ec' & _ & Hp). rewrite Ec in Ec'. simplify_eq. by apply Hp. }
  destruct (wp_run _ _ _ W) as (r & h' & E & HQ). by exists r, h'.
Qed.

Lemma memalign_aligned_witness :
  ∃ h r h', hrep h [(496, false)] ∧ mm_memalign (2 ^ 6) 40 h = Ok (r, h') ∧
    (r = NULL ∧ h' = h ∨
     (2 ^ 6 | r) ∧ ∃ c1 n c2, hrep h' (c1 ++ (n, true) :: c2) ∧
       r = mm_heapstart h + 8 + total c1 + 8 ∧ 40 + 8 ≤ n ∧
       data_kept (mm_heapstart h) [(496, false)] (mem h) (mem h')).
Proof.
  destruct fresh_heap as (h & _ & Hh). exists h.
  destruct (memalign_aligned 6 40 h [(496, false)] Hh) as (r & h' & E & H).
  - split; [discriminate|reflexivity].
  - discriminate.
  - reflexivity.
  - exists r, h'. split; [exact Hh|]. split; [exact E|exact H].
Defined.

End Realloc.
