(* ===== verification/Calloc.v ===== *)
(** * Cleared blocks

    [mm_zalloc] and [mm_calloc]: the block they return holds zero bytes. *)

From S2P Require Import Prelude Queue Heap HeapRep Alloc HeapBytes HeapInit HeapClient HeapOps Realloc.

Module Calloc.
Import Heap HeapRep Alloc HeapBytes HeapInit HeapClient HeapOps Realloc.

(** A new block at [r] with [size] zero bytes; the chunks were [cs] before. *)
Definition cleared_block (h : heap) (cs : list chunk) (size r : Z) (h' : heap) : Prop :=
  ∃ c1 k c2, hrep h' (c1 ++ (k, true) :: c2) ∧ mm_heapstart h' = mm_heapstart h ∧
    r = mm_heapstart h + 8 + total c1 + 8 ∧ size + 8 ≤ k ∧
    used_nodes (mm_heapstart h + 8) (c1 ++ (k, true) :: c2) ≡ₚ
      (r - 8, k) :: used_nodes (mm_heapstart h + 8) cs ∧
    (∀ a, r ≤ a < r + size → byte_at (mem h') a = Some 0) ∧
    data_kept (mm_heapstart h) cs (mem h) (mem h').

Lemma used_carve_head a c1 n s c2 : n ≤ s →
  ∃ k rest, carve n s = (k, true) :: rest ∧ n ≤ k ∧
    used_nodes a (c1 ++ (k, true) :: rest ++ c2) ≡ₚ
      (a + total c1, k) :: used_nodes a (c1 ++ (s, false) :: c2).
Proof.
  intros Hn. unfold carve. destruct (16 <=? s - n).
  - exists n, [(s - n, false)]. split_and!; [done..|]. rewrite !used_nodes_app. simpl.
    rewrite <- Permutation_middle.
    by replace (a + total c1 + n + (s - n)) with (a + total c1 + s) by lia.
  - exists s, []. split_and!; [done..|]. rewrite !used_nodes_app. simpl. by rewrite <- Permutation_middle.
Qed.

Lemma zalloc_spec size h cs :
  hrep h cs → 1 ≤ size → size + 23 < 2 ^ 32 →
  wp (mm_zalloc size) (λ r h', r = NULL ∧ h' = h ∨ cleared_block h cs size r h') h.
Proof.
  intros Hh H1 Hmax. destruct (chunk_size_bounds size) as (N1 & N2 & N3); [lia..|].
  unfold mm_zalloc. rewrite wp_bind. eapply wp_mono; [by apply (malloc_spec _ _ _ Hh)|].
  intros r h1 [(-> & -> & _)|(c1 & s & c2 & m & -> & Hs & _ & -> & -> & Hh1 & Hk1)].
  { rewrite Z.eqb_refl, wp_bind. cbn [negb when]. rewrite !wp_ret. by left. }
  set (base := mm_heapstart h) in *.
  destruct (used_carve_head (base + 8) c1 (chunk_size size) s c2 Hs) as (k & rest & Ec & Hk & Hu).
  rewrite Ec in Hh1. simpl in Hh1. pose proof (hr_rep _ _ Hh1) as Hr. simpl in Hr. fold base in Hr.
  pose proof (region_mid _ _ _ _ _ _ _ (rep_region _ _ _ _ _ _ Hr)) as [_ B]. cbv zeta in B.
  set (r := base + 8 + total c1 + 8). assert (r mod 4 = 0) as Hr4.
  { destruct B as (_ & _ & _ & _ & [d Dx] & _). subst r. rewrite Dx. Z.div_mod_to_equations. lia. }
  rewrite (proj2 (Z.eqb_neq _ NULL)) by (unfold NULL; lia). cbn [negb]. rewrite wp_bind.
  apply (proj2 (wp_when _ _ _ _)). unfold memset.
  eapply wp_mono; [apply fill_bytes_spec; [lia|lia|]|].
  { intros a Ha. eapply rep_ram; [exact Hr|lia]. }
  rewrite Z2Nat.id by lia. intros _ h2 (m2 & -> & Z1 & _ & Z3 & Z4). rewrite wp_ret. right.
  destruct (rep_inside m m2 _ _ _ _ _ _ Hr) as [Hr2 Hk2]; [done| |].
  { intros a Ha. fold base in Ha. apply Z3. lia. }
  exists c1, k, (rest ++ c2). split_and!; [by eapply hrep_set|done|done|lia| |done|].
  - fold base. by replace (r - 8) with (base + 8 + total c1) by lia.
  - fold base. intros w Hw. simpl. rewrite Hk2; [by apply Hk1|].
    destruct (carve_head (chunk_size size) s (base + 8) c1 c2 w Hs) as (k' & rest' & Ec' & _ & Hp).
    rewrite Ec in Ec'. simplify_eq. by apply Hp.
Qed.

(** [mm_calloc] returns null without changing the heap, or a block for
    [n * elem_size] bytes, all of them zero, provided that the product fits
    in 32 bits; all other blocks stay where they are, with their data. *)
Theorem calloc_zeroed n elem_size h cs :
  hrep h cs → 0 ≤ n → 0 ≤ elem_size → n * elem_size + 23 < 2 ^ 32 →
  ∃ r h', mm_calloc n elem_size h = Ok (r, h') ∧
    (r = NULL ∧ h' = h ∨ cleared_block h cs (n * elem_size) r h').
Proof.
  intros Hh Hn He Hmax. unfold mm_calloc.
  destruct (Z.ltb_spec 0 n), (Z.ltb_spec 0 elem_size); cbn [andb];
    try (eexists _, _; split; [reflexivity|by left]).
  rewrite u32_id by nia.
  destruct (wp_run _ _ _ (zalloc_spec (n * elem_size) h cs Hh ltac:(nia) Hmax)) as (r & h' & E & HQ).
  by exists r, h'.
Qed.

Lemma calloc_zeroed_witness :
  ∃ h r h', hrep h [(496, false)] ∧ mm_calloc 3 5 h = Ok (r, h') ∧
    (r = NULL ∧ h' = h ∨ cleared_block h [(496, false)] 15 r h').
Proof.
  destruct fresh_heap as (h & _ & Hh). exists h.
  destruct (calloc_zeroed 3 5 h [(496, false)] Hh) as (r & h' & E & H).
  - discriminate.
  - discriminate.
  - reflexivity.
  - exists r, h'. split; [exact Hh|]. split; [exact E|exact H].
Defined.

(** [mm_calloc] does not check its product: a request for 268435457
    elements of 16 bytes, 4 GB and 16 bytes, gets a block of 16 bytes. *)
Theorem calloc_wraps :
  match (mm_initialize 8192 512 ;;; r <-- mm_calloc 268435457 16 ;; s <-- node_size (r - 8) ;; ret (r, s))%cmd h0 with
  | Ok ((r, s), _) => r ≠ NULL ∧ s = 32
  | Undef _ => False
  end.
Proof. vm_compute. split; [discriminate|reflexivity]. Qed.

End Calloc.
