(* ===== verification/Resize.v ===== *)
(** * Growing a block

    [mm_realloc] on the list of chunks: a block shrinks in place, grows into
    the free chunks before and after it, or moves; the words of the block go
    with it. *)

From S2P Require Import Prelude Queue Heap HeapRep Alloc HeapBytes HeapInit HeapClient HeapOps Realloc.

Module Resize.
Import Heap HeapRep Alloc HeapBytes HeapInit HeapClient HeapOps Realloc.

(** ** Memory is neither made nor lost *)

Class SameRam {A} (c : M heap A) : Prop :=
  same_ram : ∀ h a h', c h = Ok (a, h') → dom (mem h') = dom (mem h).

#[export] Instance same_ram_ret {A} (a : A) : SameRam (ret a).
Proof. by intros h b h' [= _ <-]. Qed.

#[export] Instance same_ram_gets {A} (f : heap → A) : SameRam (gets f).
Proof. by intros h b h' [= _ <-]. Qed.

#[export] Instance same_ram_fail {A} u : SameRam (A := A) (fail_ub u).
Proof. by intros h b h' [=]. Qed.

#[export] Instance same_ram_bind {A B} (c : M heap B) (k : B → M heap A) :
  SameRam c → (∀ b, SameRam (k b)) → SameRam (bind c k).
Proof.
  intros Hc Hk h a h'. unfold bind. destruct (c h) as [[b h1]|] eqn:E; [|done].
  intros E'. rewrite (Hk _ _ _ _ E'). by eapply Hc.
Qed.

#[export] Instance same_ram_if {A} (b : bool) (c d : M heap A) :
  SameRam c → SameRam d → SameRam (if b then c else d).
Proof. by destruct b. Qed.

#[export] Instance same_ram_when b c : SameRam c → SameRam (when b c).
Proof. intros H. apply same_ram_if; [done|apply _]. Qed.

#[export] Instance same_ram_assert b : SameRam (assert_ b).
Proof. unfold assert_. apply _. Qed.

#[export] Instance same_ram_load a : SameRam (load a).
Proof. intros h v h'. unfold load. destruct (_ =? _); [done|]. by destruct (mem h !! a); intros [= _ <-]. Qed.

#[export] Instance same_ram_store a v : SameRam (store a v).
Proof.
  intros h u h'. unfold store, load, bind, modify. destruct (_ =? _); [done|].
  destruct (mem h !! a) eqn:E; intros [= _ <-]. simpl.
  apply dom_insert_lookup_L. by rewrite E.
Qed.

#[export] Instance same_ram_unlink x : SameRam (unlink x).
Proof. unfold unlink, blink, flink, set_flink, set_blink. apply _. Qed.

#[export] Instance same_ram_find_place n sz p q : SameRam (find_place n sz p q).
Proof. revert p q. induction n as [|n IH]; intros p q; simpl; unfold node_size, flink; apply _. Qed.

#[export] Instance same_ram_addfreechunk x : SameRam (mm_addfreechunk x).
Proof. unfold mm_addfreechunk, node_size, flink, set_flink, set_blink. apply _. Qed.

Lemma wp_same_ram {A} (c : M heap A) Q h : SameRam c → wp c Q h →
  wp c (λ a h', Q a h' ∧ ∀ x, is_Some (mem h !! x) → is_Some (mem h' !! x)) h.
Proof.
  intros Hc. unfold wp. destruct (c h) as [[a h']|] eqn:E; [|done]. intros HQ. split; [done|].
  intros x. rewrite <- !elem_of_dom. by rewrite (Hc _ _ _ E).
Qed.

(** ** Growing into the next chunk *)

(** A block of [s] bytes that takes [n] bytes from the [t] bytes behind it. *)
Definition grow_next (s t n : Z) : list chunk :=
  if n <? t then [(s + n, true); (t - n, false)] else [(s + n, true)].

Lemma extend_next_spec m nl base c1 s t c2 e n Q h :
  let x := base + 8 + total c1 in
  mm_nodelist h = nl →
  rep m nl base (c1 ++ (s, true) :: (t, false) :: c2) e
    (free_nodes (base + 8) (c1 ++ (s, true) :: (t, false) :: c2)) →
  16 ≤ n → (8 | n) → n = t ∨ n + 16 ≤ t →
  (∀ m', rep m' nl base (c1 ++ grow_next s t n ++ c2) e
      (free_nodes (base + 8) (c1 ++ grow_next s t n ++ c2)) →
    data_kept base (c1 ++ (s, true) :: (t, false) :: c2) m m' → Q tt (set_mem m' h)) →
  wp (extend_next x s (x + s) t n) Q (set_mem m h).
Proof.
  intros x Hnl Hr Hn Dn Hnt HQ. pose proof (rep_region _ _ _ _ _ _ Hr) as Hreg.
  pose proof (region_pair _ _ _ _ _ _ _ _ _ Hreg) as [_ B]. cbv zeta in B. fold x in B.
  destruct B as (B1 & B2 & B3 & B4 & B5 & B6 & B7 & B8 & B).
  assert (MM_ALLOC_BIT < 2 ^ 32) as HB by done.
  unfold extend_next. exec. rewrite (u32_id (x + s + t)) by lia.
  rewrite wp_bind. eapply (wp_rep_unlink _ _ _ _ _ (x + s) t (others base c1 (s + t) c2)).
  { eapply rep_perm; [|exact Hr]. unfold others. rewrite free_nodes_app. simpl. fold x.
    rewrite <- Permutation_middle, Z.add_assoc. done. }
  intros m1 Hr1 Hk1.
  pose proof (region_pair _ _ _ _ _ _ _ _ _ (rep_region _ _ _ _ _ _ Hr1)) as [(E1 & E2 & E3 & E4 & E5) _].
  cbv zeta in E1, E2, E3, E4, E5. fold x in E1, E2, E3, E4, E5.
  assert (is_Some (m1 !! (x + (s + n)))) by (eapply rep_ram; [exact Hr1|lia|div4]).
  assert (is_Some (m1 !! (x + (s + n) + 4))) by (eapply rep_ram; [exact Hr1|lia|div4]).
  rewrite wp_bind, wp_store by (by rewrite E1 || lia). rewrite (u32_id (s + n)) by lia.
  rewrite wp_bind, (wp_load _ (s + n)) by ((look; done) || lia). rewrite (u32_id (x + (s + n))) by lia.
  assert (total [(s, true); (t, false)] = s + t) as Et by (simpl; lia).
  unfold grow_next in *. destruct (Z.ltb_spec n t) as [Hlt|Hge].
  - rewrite wp_bind, wp_store by ((look; done) || lia). rewrite (u32_id (t - n)) by lia.
    rewrite wp_bind, (wp_load _ (s + n)) by ((look; done) || lia).
    rewrite wp_bind, wp_store by ((look; done) || lia).
    rewrite wp_bind, (wp_load _ (t - n)) by ((look; done) || lia).
    rewrite wp_bind, (wp_load _ (tag t (hd_used c2))) by ((look; done) || lia).
    rewrite wp_bind, wp_store by ((look; by rewrite E5) || lia). rewrite retag by lia.
    apply (cut_spec m1 _ nl base c1 [(s, true); (t, false)] (s + n) (t - n) c2 e);
      rewrite ?Et; fold x; try done; try lia; try (look; done).
    + by apply Z.divide_add_r.
    + by apply Z.divide_sub_r.
    + repeat apply within_insert; try lia. apply within_refl.
    + rewrite !Z.add_assoc. look. done.
    + intros w Hw. look. done.
    + intros m' Hr' Hk'. apply HQ; [done|]. intros w Hw. rewrite Hk'; [by apply Hk1|].
      apply payload_app in Hw. apply payload_app. simpl in *.
      replace (base + 8 + total c1 + (s + n) + (t - n)) with (base + 8 + total c1 + s + t) by lia.
      naive_solver lia.
  - rewrite wp_bind, (wp_load _ (s + n)) by ((look; done) || lia).
    rewrite wp_bind, (wp_load _ (tag t (hd_used c2))) by ((look; done) || lia).
    rewrite wp_store by ((look; by rewrite E5) || lia). rewrite retag by lia.
    set (m2 := <[x + s + t + 4 := _]> _).
    destruct (rep_edit m1 m2 nl base c1 [(s, true); (t, false)] [(s + n, true)] c2 e
      (others base c1 (s + t) c2)) as [Hr2 Hk2]; subst m2; rewrite ?Et; simpl; fold x; try done; try lia.
    { constructor; [|done]. simpl. split; [lia|by apply Z.divide_add_r]. }
    { look. done. }
    { rewrite !Z.add_assoc. look. done. }
    { repeat apply within_insert; try lia. apply within_refl. }
    apply HQ.
    + eapply rep_perm; [|exact Hr2]. unfold others. rewrite free_nodes_app. simpl. fold x.
      by replace (x + (s + t)) with (x + (s + n)) by lia.
    + intros w Hw. pose proof Hw as Hw'. apply payload_app in Hw'. simpl in Hw'. fold x in Hw'.
      rewrite Et in Hk2. fold x in Hk2. rewrite Z.add_assoc in Hk2.
      destruct Hw' as [Hw'|[[_ Hw']|[[? _]|Hw']]]; [| |done|].
      * rewrite Hk2 by tauto. by apply Hk1.
      * look. by apply Hk1.
      * rewrite Hk2 by tauto. by apply Hk1.
Qed.

(** ** Growing into the previous chunk *)

(** A copy into the block at [y] changes no header. *)
Lemma rep_copied m m' nl base c1 k c2 e p q n :
  let y := base + 8 + total c1 in
  rep m nl base (c1 ++ (k, true) :: c2) e (free_nodes (base + 8) (c1 ++ (k, true) :: c2)) →
  copied m m' p q n → y + 8 ≤ p → p + n ≤ y + k →
  rep m' nl base (c1 ++ (k, true) :: c2) e (free_nodes (base + 8) (c1 ++ (k, true) :: c2)) ∧
  data_kept base (c1 ++ (k, false) :: c2) m m'.
Proof.
  intros y Hr (_ & C2 & C3) Hp Hn. apply rep_inside; [done|done|]. intros a Ha. apply C2. fold y in Ha. lia.
Qed.

Definition grow_prev (t s n : Z) : list chunk :=
  if n <? t then [(t - n, false); (s + n, true)] else [(s + n, true)].

(** What is left of the chunks before the block. *)
Definition front (c1 : list chunk) (t n : Z) : list chunk :=
  if n <? t then c1 ++ [(t - n, false)] else c1.

Lemma grow_prev_front t s n c1 c2 :
  c1 ++ grow_prev t s n ++ c2 = front c1 t n ++ (s + n, true) :: c2.
Proof. unfold grow_prev, front. destruct (n <? t); [by rewrite <- app_assoc|done]. Qed.

Lemma front_total t n c1 : n ≤ t → total (front c1 t n) = total c1 + t - n.
Proof.
  intros Hn. unfold front. destruct (Z.ltb_spec n t) as [Hlt|Hge]; [|lia].
  rewrite total_app. simpl. lia.
Qed.

Lemma front_payload a t s n c1 c2 w : n ≤ t →
  payload a (c1 ++ (t + s, false) :: c2) w → payload a (front c1 t n ++ (s + n, false) :: c2) w.
Proof.
  intros Hn. unfold front. destruct (Z.ltb_spec n t) as [Hlt|Hge].
  - rewrite <- app_assoc. simpl. intros Hw. apply payload_join.
    by replace (t - n + (s + n)) with (t + s) by lia.
  - by replace (s + n) with (t + s) by lia.
Qed.

(** The headers [extend_prev] writes: of two chunks, when it takes a part of the
    chunk before, and of one when it takes all of it. *)
Lemma regrow_part m nl base c1 t s c2 e n h :
  let y := base + 8 + total c1 in
  let cs := c1 ++ (t - n, false) :: (s + n, true) :: c2 in
  mm_nodelist h = nl →
  rep m nl base (c1 ++ (t, false) :: (s, true) :: c2) e (others base c1 (t + s) c2) →
  16 ≤ n → (8 | n) → n + 16 ≤ t →
  wp (ps <-- load y ;; store y (u32 (ps - n)) ;;; store (y + t - n) (u32 (s + n)) ;;;
      ps <-- load y ;; store (y + t - n + 4) (Z.lor ps MM_ALLOC_BIT) ;;;
      z <-- load (y + t - n) ;; p <-- load (y + t + s + 4) ;;
      store (y + t + s + 4) (Z.lor z (Z.land p MM_ALLOC_BIT)) ;;;
      mm_addfreechunk y)%cmd
    (λ _ h', ∃ m', h' = set_mem m' h ∧ rep m' nl base cs e (free_nodes (base + 8) cs) ∧
      data_kept base (c1 ++ (t, false) :: (s, true) :: c2) m m') (set_mem m h).
Proof.
  intros y cs Hnl Hr Hn Dn Hnt.
  pose proof (region_pair _ _ _ _ _ _ _ _ _ (rep_region _ _ _ _ _ _ Hr)) as [(E1 & E2 & E3 & E4 & E5) B].
  cbv zeta in E1, E2, E3, E4, E5, B. fold y in E1, E2, E3, E4, E5, B.
  destruct B as (B1 & B2 & B3 & B4 & B5 & B6 & B7 & B8 & B).
  assert (MM_ALLOC_BIT < 2 ^ 32) as HB by done.
  assert (total [(t, false); (s, true)] = t + s) as Et by (simpl; lia).
  assert (is_Some (m !! (y + t - n))) by (eapply rep_ram; [exact Hr|lia|div4]).
  assert (is_Some (m !! (y + t - n + 4))) by (eapply rep_ram; [exact Hr|lia|div4]).
  rewrite wp_bind, (wp_load _ t) by (done || lia). rewrite (u32_id (t - n)) by lia.
  rewrite wp_bind, wp_store by (by rewrite E1 || lia). rewrite (u32_id (s + n)) by lia.
  rewrite wp_bind, wp_store by ((look; done) || lia).
  rewrite wp_bind, (wp_load _ (t - n)) by ((look; done) || lia).
  rewrite wp_bind, wp_store by ((look; done) || lia). rewrite lor_bit by lia.
  rewrite wp_bind, (wp_load _ (s + n)) by ((look; done) || lia).
  rewrite wp_bind, (wp_load _ (tag s (hd_used c2))) by ((look; done) || lia).
  rewrite wp_bind, wp_store by ((look; by rewrite E5) || lia). rewrite retag by lia.
  set (m2 := <[y + t + s + 4 := _]> _).
  destruct (rep_edit m m2 nl base c1 [(t, false); (s, true)] [(t - n, false); (s + n, true)] c2 e
    (others base c1 (t + s) c2)) as [Hr2 Hk2]; subst m2; rewrite ?Et; simpl; fold y; try done; try lia.
  { constructor; [|constructor; [|done]]; simpl.
    - split; [lia|by apply Z.divide_sub_r].
    - split; [lia|by apply Z.divide_add_r]. }
  { replace (y + (t - n)) with (y + t - n) by lia. look. done. }
  { rewrite !Z.add_assoc. look. done. }
  { repeat apply within_insert; try lia. apply within_refl. }
  rewrite Et in Hk2. fold y in Hk2. rewrite Z.add_assoc in Hk2.
  apply (give_back_spec _ nl base c1 (t - n) ((s + n, true) :: c2) e); [done| |].
  { eapply rep_perm; [|exact Hr2]. unfold others. simpl. fold y.
    by replace (y + (t - n) + (s + n)) with (y + (t + s)) by lia. }
  intros m' Hr' Hk'. exists m'. split; [done|]. split; [done|]. intros w Hw. pose proof Hw as Hw'.
  apply payload_app in Hw. simpl in Hw. fold y in Hw. rewrite Hk'.
  - destruct Hw as [Hw|[[? _]|[[_ Hw]|Hw]]]; [|done| |]; [by apply Hk2; left| |by apply Hk2; right].
    by look.
  - apply payload_app. simpl. fold y.
    replace (y + (t - n) + (s + n)) with (y + t + s) by lia. naive_solver lia.
Qed.

Lemma regrow_whole m nl base c1 t s c2 e h :
  let y := base + 8 + total c1 in
  let cs := c1 ++ (t + s, true) :: c2 in
  rep m nl base (c1 ++ (t, false) :: (s, true) :: c2) e (others base c1 (t + s) c2) →
  wp (z <-- load y ;; store y (u32 (z + s)) ;;;
      p <-- load (y + 4) ;; store (y + 4) (Z.lor p MM_ALLOC_BIT) ;;;
      z <-- load y ;; p <-- load (y + t + s + 4) ;;
      store (y + t + s + 4) (Z.lor z (Z.land p MM_ALLOC_BIT)))%cmd
    (λ _ h', ∃ m', h' = set_mem m' h ∧ rep m' nl base cs e (free_nodes (base + 8) cs) ∧
      data_kept base (c1 ++ (t, false) :: (s, true) :: c2) m m') (set_mem m h).
Proof.
  intros y cs Hr.
  pose proof (region_pair _ _ _ _ _ _ _ _ _ (rep_region _ _ _ _ _ _ Hr)) as [(E1 & E2 & E3 & E4 & E5) B].
  cbv zeta in E1, E2, E3, E4, E5, B. fold y in E1, E2, E3, E4, E5, B.
  destruct B as (B1 & B2 & B3 & B4 & B5 & B6 & B7 & B8 & B).
  assert (MM_ALLOC_BIT < 2 ^ 32) as HB by done.
  assert (total [(t, false); (s, true)] = t + s) as Et by (simpl; lia).
  rewrite wp_bind, (wp_load _ t) by (done || lia). rewrite (u32_id (t + s)) by lia.
  rewrite wp_bind, wp_store by (by rewrite E1 || lia).
  rewrite wp_bind, (wp_load _ (tag (endsz 8 c1) false)) by ((look; done) || lia).
  rewrite wp_bind, wp_store by ((look; by rewrite E2) || lia). rewrite tag_set by lia.
  rewrite wp_bind, (wp_load _ (t + s)) by ((look; done) || lia).
  rewrite wp_bind, (wp_load _ (tag s (hd_used c2))) by ((look; done) || lia).
  rewrite wp_store by ((look; by rewrite E5) || lia). rewrite retag by lia.
  set (m2 := <[y + t + s + 4 := _]> _).
  destruct (rep_edit m m2 nl base c1 [(t, false); (s, true)] [(t + s, true)] c2 e
    (others base c1 (t + s) c2)) as [Hr2 Hk2]; subst m2; rewrite ?Et; simpl; fold y; try done; try lia.
  { constructor; [|done]; simpl. split; [lia|by apply Z.divide_add_r]. }
  { look. done. }
  { rewrite !Z.add_assoc. look. done. }
  { repeat apply within_insert; try lia. apply within_refl. }
  rewrite Et in Hk2. fold y in Hk2. rewrite Z.add_assoc in Hk2. 
  eexists. split; [done|]. split.
  - eapply rep_perm; [|exact Hr2]. unfold others, cs. rewrite free_nodes_app. done.
  - intros w Hw. apply payload_app in Hw. simpl in Hw. fold y in Hw.
    destruct Hw as [Hw|[[? _]|[[_ Hw]|Hw]]]; [|done| |]; [by apply Hk2; left| |by apply Hk2; right].
    by look.
Qed.

Lemma regrow_spec m nl base c1 t s c2 e n h :
  let y := base + 8 + total c1 in
  mm_nodelist h = nl →
  rep m nl base (c1 ++ (t, false) :: (s, true) :: c2) e (others base c1 (t + s) c2) →
  16 ≤ n → (8 | n) → n = t ∨ n + 16 ≤ t →
  wp (if n <? t
       then ps <-- load y ;; store y (u32 (ps - n)) ;;; store (y + t - n) (u32 (s + n)) ;;;
            ps <-- load y ;; store (y + t - n + 4) (Z.lor ps MM_ALLOC_BIT) ;;;
            z <-- load (y + t - n) ;; p <-- load (y + t + s + 4) ;;
            store (y + t + s + 4) (Z.lor z (Z.land p MM_ALLOC_BIT)) ;;;
            mm_addfreechunk y
       else z <-- load (y + t - n) ;; store (y + t - n) (u32 (z + s)) ;;;
            p <-- load (y + t - n + 4) ;; store (y + t - n + 4) (Z.lor p MM_ALLOC_BIT) ;;;
            z <-- load (y + t - n) ;; p <-- load (y + t + s + 4) ;;
            store (y + t + s + 4) (Z.lor z (Z.land p MM_ALLOC_BIT)))%cmd
    (λ _ h', ∃ m', h' = set_mem m' h ∧
      rep m' nl base (c1 ++ grow_prev t s n ++ c2) e
        (free_nodes (base + 8) (c1 ++ grow_prev t s n ++ c2)) ∧
      data_kept base (c1 ++ (t, false) :: (s, true) :: c2) m m') (set_mem m h).
Proof.
  intros y Hnl Hr Hn Dn Hnt.
  unfold grow_prev. destruct (Z.ltb_spec n t) as [Hlt|Hge].
  - apply regrow_part; [done..|lia].
  - assert (n = t) as -> by lia. replace (y + t - t) with y by lia. rewrite (Z.add_comm s t).
    by apply regrow_whole.
Qed.

Lemma extend_prev_spec m nl base c1 t s c2 e n Q h :
  let y := base + 8 + total c1 in
  mm_nodelist h = nl →
  rep m nl base (c1 ++ (t, false) :: (s, true) :: c2) e
    (free_nodes (base + 8) (c1 ++ (t, false) :: (s, true) :: c2)) →
  16 ≤ n → (8 | n) → n = t ∨ n + 16 ≤ t →
  y + t + s + n ≤ 2 ^ 32 →
  (∀ a, e + 8 ≤ a < y + t + s + n → (4 | a) → is_Some (m !! a)) →
  (∀ m', rep m' nl base (c1 ++ grow_prev t s n ++ c2) e
      (free_nodes (base + 8) (c1 ++ grow_prev t s n ++ c2)) →
    data_kept base (c1 ++ (t + s, false) :: c2) m m' →
    (∀ w v, y + t + 8 ≤ w < y + t + s → (4 | w) → m !! w = Some v → m' !! (w - n) = Some (u32 v)) →
    Q (y + t - n, s + n) (set_mem m' h)) →
  wp (extend_prev (y + t) s y (y + t + s) t n (y + t + 8)) Q (set_mem m h).
Proof.
  intros y Hnl Hr Hn Dn Hnt Hmax Hram HQ. pose proof (rep_region _ _ _ _ _ _ Hr) as Hreg.
  pose proof (region_pair _ _ _ _ _ _ _ _ _ Hreg) as [_ B]. cbv zeta in B. fold y in B.
  destruct B as (B1 & B2 & B3 & B4 & B5 & B6 & B7 & B8 & B).
  assert (MM_ALLOC_BIT < 2 ^ 32) as HB by done.
  assert (∀ a, base ≤ a < y + t + s + n → (4 | a) → is_Some (m !! a)) as Hram'.
  { intros a Ha H4. destruct (decide (a < e + 8)).
    - eapply rep_ram; [exact Hr|lia|done].
    - apply Hram; [lia|done]. }
  unfold extend_prev. exec. rewrite (u32_id (y + t - n)) by lia.
  rewrite wp_bind. eapply wp_mono with (Q := λ _ h', (∃ m', h' = set_mem m' h ∧
    rep m' nl base (c1 ++ (t, false) :: (s, true) :: c2) e (others base c1 (t + s) c2) ∧
    data_kept base (c1 ++ (t, false) :: (s, true) :: c2) m m') ∧ _).
  { apply wp_same_ram; [apply _|].
    eapply (wp_rep_unlink _ _ _ _ _ y t (others base c1 (t + s) c2)); [|by eauto].
    eapply rep_perm; [|exact Hr]. unfold others. rewrite free_nodes_app. simpl. fold y.
    rewrite <- Permutation_middle, Z.add_assoc. done. }
  intros _ h1 [(m1 & -> & Hr1 & Hk1) D1]. rewrite wp_bind. eapply wp_mono.
  { apply wp_same_ram; [apply _|]. by apply (regrow_spec _ _ _ _ _ _ _ _ _ _ Hnl Hr1). }
  intros _ h2 [(m2 & -> & Hr2 & Hk2) D2]. fold y in Hr2. simpl in D1, D2.
  rewrite grow_prev_front in Hr2, HQ. pose proof (front_total t n c1 ltac:(lia)) as Tc.
  pose proof (region_mid _ _ _ _ _ _ _ (rep_region _ _ _ _ _ _ Hr2)) as [(E1 & _ & _) _].
  cbv zeta in E1. rewrite Tc in E1. replace (base + 8 + (total c1 + t - n)) with (y + t - n) in E1 by lia.
  rewrite wp_bind, (wp_load _ (s + n)) by (done || lia). change SIZEOF_MM_ALLOCNODE with 8.
  rewrite (u32_id (y + t - n + 8)), (u32_id (s + n - 8)) by lia.
  assert (∃ k, s + n - 8 = 4 * Z.of_nat k) as [k Ek].
  { destruct B6 as [b1 ->], B7 as [b2 ->], Dn as [b3 ->]. exists (Z.to_nat (2 * b2 + 2 * b3 - 2)). lia. }
  unfold memcpy. replace (Z.to_nat (s + n - 8)) with (4 * k)%nat by lia. rewrite wp_bind.
  assert (4 | y + t - n + 8) as F1 by div4. assert (4 | y + t + 8) as F2 by div4.
  assert (∀ a, base ≤ a < y + t + s + n → (4 | a) → is_Some (m2 !! a)) as Hram2.
  { intros a Ha H4. by apply D2, D1, Hram'. }
  eapply wp_mono; [apply copy_words_spec; try done; try lia; intros a Ha H4; apply Hram2; lia || done|].
  intros _ h' (m' & -> & C). rewrite wp_ret, <- Ek in *.
  destruct (rep_copied _ m' _ _ _ _ _ _ (y + t - n + 8) (y + t + 8) (s + n - 8) Hr2) as [Hr3 Hk3];
    [done|lia|lia|].
  apply HQ; [done| |].
  - intros w Hw. rewrite Hk3 by (apply front_payload; [lia|done]).
    assert (payload (base + 8) (c1 ++ (t, false) :: (s, true) :: c2) w) as Hw'.
    { apply payload_app in Hw. apply payload_app. simpl in *. rewrite Z.add_assoc in Hw. naive_solver. }
    by rewrite Hk2, Hk1.
  - intros w v Hw H4 E. replace (w - n) with (w - (y + t + 8) + (y + t - n + 8)) by lia.
    apply (proj1 C); [lia|done|]. rewrite Hk2, Hk1; [done|..]; apply payload_app; simpl; fold y; naive_solver lia.
Qed.

(** ** How much to take *)

(** Chunks of whole granules. *)
Definition granular (cs : list chunk) : Prop := Forall (λ c, (16 | c.1)) cs.

Lemma granule_gap n t : (16 | n) → (16 | t) → n ≤ t → n = t ∨ n + 16 ≤ t.
Proof. intros [a ->] [b ->] ?. lia. Qed.

Lemma take_sizes_spec d p n :
  (16 | d) → (16 | p) → (16 | n) → 0 < d → 0 ≤ p → 0 ≤ n → d ≤ p + n → d < 2 ^ 32 →
  let t := take_sizes d p n in
  t.1 + t.2 = d ∧ 0 ≤ t.1 ≤ p ∧ 0 ≤ t.2 ≤ n ∧ (16 | t.1) ∧ (16 | t.2).
Proof.
  intros Dd Dp Dn Hd Hp Hn Hsum Hmax. unfold take_sizes.
  assert (16 | d - p) by by apply Z.divide_sub_r. assert (16 | d - n) by by apply Z.divide_sub_r.
  assert (16 | 0) by apply Z.divide_0_r.
  destruct (Z.ltb_spec 0 p), (Z.leb_spec p n), (Z.ltb_spec n 1), (Z.ltb_spec 0 n),
    (Z.eqb_spec d 0), (Z.ltb_spec p d), (Z.ltb_spec n d); simpl; try lia;
    rewrite ?u32_id by lia; split_and!; done || lia.
Qed.

(** The size of the free chunk behind or before a block, and 0 otherwise. *)
Definition next_free (c2 : list chunk) : Z :=
  match c2 with (t, false) :: _ => t | _ => 0 end.
Definition prev_free (c1 : list chunk) : Z :=
  match last c1 with Some (t, false) => t | _ => 0 end.

Lemma next_size_spec m base c1 s c2 e Q h :
  region m base (c1 ++ (s, true) :: c2) e →
  wp (free_size (base + 8 + total c1 + s)) Q (set_mem m h) = Q (next_free c2) (set_mem m h).
Proof.
  intros Hreg. pose proof (region_mid _ _ _ _ _ _ _ Hreg) as [(E1 & E2 & E3) B].
  cbv zeta in E1, E2, E3, B. unfold free_size. exec.
  rewrite wp_bind, (wp_load _ (tag s (hd_used c2))) by (done || lia). rewrite tag_test by lia.
  destruct c2 as [|[t []] c2]; [done..|]. simpl.
  pose proof (region_pair _ _ _ _ _ _ _ _ _ Hreg) as [(_ & _ & E4 & _) _].
  by rewrite (wp_load _ t) by (done || lia).
Qed.

Lemma prev_size_spec m base c1 s c2 e Q h :
  let x := base + 8 + total c1 in
  region m base (c1 ++ (s, true) :: c2) e →
  wp (free_size (u32 (x - endsz 8 c1))) Q (set_mem m h) = Q (prev_free c1) (set_mem m h).
Proof.
  intros x Hreg. pose proof (region_mid _ _ _ _ _ _ _ Hreg) as [_ B]. cbv zeta in B.
  fold x in B. unfold free_size, prev_free. exec.
  destruct c1 as [|[t v] c1 _] using rev_ind.
  - destruct (rg_start _ _ _ _ Hreg) as [_ E4]. simpl in *. replace (x - 8) with base by lia.
    rewrite (u32_id base) by lia. by rewrite wp_bind, (wp_load _ MM_ALLOC_BIT) by (done || lia).
  - assert (x = base + 8 + total c1 + t) as Hx by (subst x; rewrite total_app; simpl; lia).
    assert (endsz 8 (c1 ++ [(t, v)]) = t) as -> by (unfold endsz; by rewrite foldl_app).
    rewrite <- app_assoc in Hreg. simpl in Hreg.
    pose proof (region_pair _ _ _ _ _ _ _ _ _ Hreg) as [(E3 & E4 & _) B']. cbv zeta in E3, E4, B'.
    rewrite Hx. replace (_ + t - t) with (base + 8 + total c1) by lia. rewrite u32_id by lia.
    rewrite wp_bind, (wp_load _ (tag (endsz 8 c1) v)) by (done || lia).
    rewrite tag_test by lia. rewrite last_snoc. destruct v; simpl; [done|].
    by rewrite (wp_load _ t) by (done || lia).
Qed.

Lemma payload_used a cs w :
  payload a cs w ↔ ∃ p, p ∈ used_nodes a cs ∧ p.1 + 8 ≤ w < p.1 + p.2.
Proof.
  split; [|intros ([x k] & Hp & Hw); by eapply used_payload].
  revert a. induction cs as [|[s u] cs IH]; intros a; simpl; [done|].
  intros [[-> Hw]|Hw]; [exists (a, s); split; [by left|done]|].
  destruct (IH _ Hw) as (p & Hp & Hr). exists p. split; [|done]. apply elem_of_app. by right.
Qed.

(** ** The two steps of growing *)

Definition is_words (m : gmap Z Z) (lo hi : Z) : Prop :=
  ∀ w v, lo ≤ w < hi → (4 | w) → m !! w = Some v → 0 ≤ v < 2 ^ 32.

Lemma prev_free_cases c1 : prev_free c1 = 0 ∨
  ∃ c0 t, c1 = c0 ++ [(t, false)] ∧ prev_free c1 = t ∧ end_used c1 = false.
Proof.
  unfold prev_free, end_used. destruct c1 as [|[t v] c1 _] using rev_ind; [by left|].
  rewrite last_snoc. destruct v; [by left|]. right. by exists c1, t.
Qed.

Lemma take_prev_spec m nl base c1 s c2 e n h :
  let x := base + 8 + total c1 in
  mm_nodelist h = nl →
  rep m nl base (c1 ++ (s, true) :: c2) e (free_nodes (base + 8) (c1 ++ (s, true) :: c2)) →
  granular c1 → (16 | n) → 0 ≤ n ≤ prev_free c1 →
  n = 0 ∨ x + s + n ≤ 2 ^ 32 ∧ (∀ a, e + 8 ≤ a < x + s + n → (4 | a) → is_Some (m !! a)) →
  is_words m (x + 8) (x + s) →
  wp (if negb (n =? 0)
      then extend_prev x s (u32 (x - endsz 8 c1)) (x + s) (prev_free c1) n (x + 8)
      else ret (x, s))
    (λ ns h', ∃ m' c0, h' = set_mem m' h ∧ ns = (x - n, s + n) ∧
      rep m' nl base (c0 ++ (s + n, true) :: c2) e (free_nodes (base + 8) (c0 ++ (s + n, true) :: c2)) ∧
      total c0 = total c1 - n ∧ granular c0 ∧ used_nodes (base + 8) c0 = used_nodes (base + 8) c1 ∧
      data_kept base (c1 ++ (s, false) :: c2) m m' ∧
      ∀ w, x + 8 ≤ w < x + s → (4 | w) → m' !! (w - n) = m !! w) (set_mem m h).
Proof.
  intros x Hnl Hr Hg Dn Hn Hread Hwords. destruct (Z.eqb_spec n 0) as [->|Hne]; cbn [negb].
  { rewrite wp_ret. exists m, c1. rewrite Z.sub_0_r, !Z.add_0_r.
    split_and!; try done; [lia|]. intros w _ _. by rewrite Z.sub_0_r. }
  destruct Hread as [?|[Hmax Hram]]; [done|].
  destruct (prev_free_cases c1) as [?|(c0 & t & -> & Et & _)]; [lia|]. rewrite Et in *.
  assert (x = base + 8 + total c0 + t) as Hx by (subst x; rewrite total_app; simpl; lia).
  assert (endsz 8 (c0 ++ [(t, false)]) = t) as -> by (unfold endsz; by rewrite foldl_app).
  apply Forall_app in Hg as [Hg0 [Dt _]%Forall_cons]. simpl in Dt.
  rewrite <- app_assoc in Hr. simpl in Hr.
  pose proof (region_pair _ _ _ _ _ _ _ _ _ (rep_region _ _ _ _ _ _ Hr)) as [_ B]. cbv zeta in B.
  destruct B as (B1 & B2 & B3 & B4 & B5 & B6 & B7 & B8 & B).
  assert (8 | n) as Dn8 by (eapply Z.divide_trans; [|exact Dn]; by exists 2).
  clearbody x. subst x. replace (_ + t - t) with (base + 8 + total c0) by lia.
  rewrite (u32_id (base + 8 + total c0)) by lia.
  apply (extend_prev_spec _ nl base c0 t s c2 e n); [done|done| |done|apply granule_gap; [done|done|lia]|done|done|].
  { destruct Dn as [k ->]. lia. }
  intros m' Hr' Hk' Hm'. rewrite grow_prev_front in Hr'. exists m', (front c0 t n).
  split_and!; [done|done|done|rewrite total_app, front_total; simpl; lia| | | |].
  - unfold front. destruct (n <? t); [|done]. apply Forall_app. split; [done|].
    constructor; [by apply Z.divide_sub_r|done].
  - unfold front. destruct (n <? t); rewrite ?used_nodes_app; simpl; by rewrite ?app_nil_r.
  - intros w Hw. apply Hk'. rewrite <- app_assoc in Hw. simpl in Hw. by apply payload_join.
  - intros w Hw H4. destruct (rep_ram _ _ _ _ _ _ w Hr) as [v E]; [lia|done|].
    rewrite (Hm' w v), E by done. f_equal. apply u32_id. by eapply Hwords.
Qed.

(** What is left of the chunks behind the block. *)
Definition back (c2 : list chunk) (n : Z) : list chunk :=
  match c2 with
  | (t, false) :: c2' => if n =? 0 then c2 else if n <? t then (t - n, false) :: c2' else c2'
  | _ => c2
  end.

Lemma back_used a c2 n : 0 ≤ n ≤ next_free c2 → used_nodes (a + n) (back c2 n) = used_nodes a c2.
Proof.
  intros Hn. destruct c2 as [|[t []] c2]; simpl in *; [done|by replace (a + n) with a by lia|].
  destruct (Z.eqb_spec n 0) as [->|]; [by rewrite Z.add_0_r|].
  destruct (Z.ltb_spec n t); simpl; f_equal; lia.
Qed.

Lemma back_granular c2 n : (16 | n) → granular c2 → granular (back c2 n).
Proof.
  intros Dn Hg. destruct c2 as [|[t []] c2]; [done..|]. apply Forall_cons in Hg as [Dt Hg]. simpl in *.
  destruct (n =? 0); [by constructor|]. destruct (n <? t); [|done].
  constructor; [by apply Z.divide_sub_r|done].
Qed.

Lemma take_next_spec m nl base c1 s c2 e n h :
  let x := base + 8 + total c1 in
  mm_nodelist h = nl →
  rep m nl base (c1 ++ (s, true) :: c2) e (free_nodes (base + 8) (c1 ++ (s, true) :: c2)) →
  granular c2 → (16 | n) → 0 ≤ n ≤ next_free c2 →
  wp (when (negb (n =? 0)) (extend_next x s (x + s) (next_free c2) n))
    (λ _ h', ∃ m', h' = set_mem m' h ∧
      rep m' nl base (c1 ++ (s + n, true) :: back c2 n) e
        (free_nodes (base + 8) (c1 ++ (s + n, true) :: back c2 n)) ∧
      data_kept base (c1 ++ (s, true) :: c2) m m') (set_mem m h).
Proof.
  intros x Hnl Hr Hg Dn Hn. apply (proj2 (wp_when _ _ _ _)).
  destruct (Z.eqb_spec n 0) as [->|Hne]; cbn [negb].
  { exists m. rewrite Z.add_0_r. split; [done|]. split; [|done].
    by destruct c2 as [|[t []] c2]. }
  destruct c2 as [|[t []] c2]; simpl in Hn; [lia..|]. apply Forall_cons in Hg as [Dt Hg]. simpl in Dt.
  assert (8 | n) as Dn8 by (eapply Z.divide_trans; [|exact Dn]; by exists 2).
  apply (extend_next_spec _ nl base c1 s t c2 e n); [done|done| |done|apply granule_gap; [done|done|lia]|].
  { destruct Dn as [k ->]. lia. }
  intros m' Hr' Hk'. exists m'. split; [done|]. split; [|done].
  unfold grow_next in Hr'. simpl. rewrite (proj2 (Z.eqb_neq n 0)) by done. by destruct (n <? t).
Qed.

(** ** Moving *)

Lemma granular_release c1 s c2 : granular (c1 ++ (s, true) :: c2) → granular (release c1 s c2).
Proof.
  intros [H1 [Hs H2]%Forall_cons]%Forall_app. simpl in Hs. unfold release.
  assert ((16 | (absorb_next s c2).1) ∧ granular (absorb_next s c2).2) as [Hn Hg].
  { destruct c2 as [|[t []] c2]; [done..|]. apply Forall_cons in H2 as [? ?]. simpl.
    split; [by apply Z.divide_add_r|done]. }
  unfold absorb_prev. destruct c1 as [|[t v] c1 _] using rev_ind; [by constructor|].
  rewrite last_snoc. apply Forall_app in H1 as [H1 Ht]. destruct v; simpl.
  - apply Forall_app. split; [by apply Forall_app|by constructor].
  - rewrite removelast_last. apply Forall_cons in Ht as [Ht _]. simpl in Ht.
    apply Forall_app. split; [done|]. constructor; [by apply Z.divide_add_r|done].
Qed.

Lemma granular_carve n s : (16 | n) → (16 | s) → granular (carve n s).
Proof.
  intros Hn Hs. unfold carve. destruct (16 <=? s - n); repeat constructor; [done|simpl|done].
  by apply Z.divide_sub_r.
Qed.

(** A free chunk of size [k] and a block of size [s] in the same list. *)
Lemma carve_around a c1 s c2 d1 k d2 n :
  c1 ++ (s, true) :: c2 = d1 ++ (k, false) :: d2 → n ≤ k →
  ∃ c1' c2' kk, d1 ++ carve n k ++ d2 = c1' ++ (s, true) :: c2' ∧ total c1' = total c1 ∧ n ≤ kk ∧
    used_nodes a (c1' ++ (s, false) :: c2') ≡ₚ
      (a + total d1, kk) :: used_nodes a (c1 ++ (s, false) :: c2).
Proof.
  intros E Hn. apply app_eq_inv in E as [(mid & -> & E)|(mid & -> & E)];
    destruct mid as [|c mid]; simpl in E; try discriminate; injection E as <- ->.
  - exists (d1 ++ carve n k ++ mid), c2.
    destruct (used_carve a d1 n k mid Hn) as (kk & Hkk & Hp).
    exists kk. rewrite <- !app_assoc. split_and!; [done|rewrite !total_app, carve_total; simpl; lia|done|].
    assert (∀ l, d1 ++ l ++ mid ++ (s, false) :: c2 = (d1 ++ l ++ mid) ++ (s, false) :: c2) as Ea
      by (intros l; by rewrite <- !app_assoc).
    rewrite Ea, (app_assoc d1 ((k, false) :: mid)), !(used_nodes_app _ _ ((s, false) :: c2)), Hp.
    rewrite !total_app, carve_total. done.
  - rewrite <- app_assoc. exists c1, (mid ++ carve n k ++ d2).
    destruct (used_carve (a + total c1 + s) mid n k d2 Hn) as (kk & Hkk & Hp).
    exists kk. split_and!; [done|done|done|]. rewrite !used_nodes_app, total_app. simpl.
    rewrite Hp. rewrite <- Permutation_middle.
    by replace (a + total c1 + s + total mid) with (a + (total c1 + (s + total mid))) by lia.
Qed.

(** The block of [s] bytes at [x] became the block for [size] bytes at [r];
    the other blocks, [rest], are where they were. *)
Definition resized (h : heap) (rest : list chunk) (x s size r : Z) (h' : heap) : Prop :=
  ∃ cs n, hrep h' cs ∧ granular cs ∧ mm_heapstart h' = mm_heapstart h ∧ size + 8 ≤ n ∧
    used_nodes (mm_heapstart h + 8) cs ≡ₚ (r - 8, n) :: used_nodes (mm_heapstart h + 8) rest ∧
    data_kept (mm_heapstart h) rest (mem h) (mem h') ∧
    ∀ off, 0 ≤ off < Z.min (s - 8) size → (4 | off) → mem h' !! (r + off) = mem h !! (x + 8 + off).

Lemma payload_rest a c1 s c2 w : payload a (c1 ++ (s, false) :: c2) w → payload a (c1 ++ (s, true) :: c2) w.
Proof. rewrite !payload_app. simpl. naive_solver. Qed.

Lemma chunks_apart c1 s c2 d1 k d2 : good (c1 ++ (s, true) :: c2) →
  c1 ++ (s, true) :: c2 = d1 ++ (k, false) :: d2 →
  total d1 + k ≤ total c1 ∨ total c1 + s ≤ total d1.
Proof.
  intros [Hg1 [_ Hg2]%Forall_cons]%Forall_app E.
  apply app_eq_inv in E as [(mid & -> & E)|(mid & -> & E)];
    destruct mid as [|c mid]; simpl in E; try discriminate; injection E as <- ->;
    rewrite !total_app; simpl.
  - apply Forall_app in Hg1 as [_ [_ Hg1]%Forall_cons]. pose proof (total_nonneg _ Hg1). lia.
  - apply Forall_app in Hg2 as [Hg2 _]. pose proof (total_nonneg _ Hg2). lia.
Qed.

(** Copy and release, once the new block is allocated. *)
Lemma copy_free_spec h m c1 s c2 d1 k d2 sz size :
  let base := mm_heapstart h in
  let x := base + 8 + total c1 in
  let r := base + 8 + total d1 + 8 in
  hrep h (c1 ++ (s, true) :: c2) → granular (c1 ++ (s, true) :: c2) →
  is_words (mem h) (x + 8) (x + s) →
  c1 ++ (s, true) :: c2 = d1 ++ (k, false) :: d2 → (16 | sz) → s < sz → size + 8 ≤ sz → sz + 16 ≤ k →
  hrep (set_mem m h) (d1 ++ carve (sz + 16) k ++ d2) →
  data_kept base (c1 ++ (s, true) :: c2) (mem h) m →
  wp (memcpy r (x + 8) s ;;; mm_free (x + 8))%cmd
    (λ _, resized h (c1 ++ (s, false) :: c2) x s size r) (set_mem m h).
Proof.
  intros base x r Hh Hg Hwords Ecs Dsz Hs Hsz Hk Hh1 Hk1.
  pose proof (region_mid _ _ _ _ _ _ _ (rep_region _ _ _ _ _ _ (hr_rep _ _ Hh))) as [_ B].
  cbv zeta in B. fold base x in B. destruct B as (B1 & B2 & B3 & B4 & B5 & B).
  pose proof (hr_rep _ _ Hh) as Hr. rewrite Ecs in Hr.
  pose proof (region_mid _ _ _ _ _ _ _ (rep_region _ _ _ _ _ _ Hr)) as [_ C].
  cbv zeta in C. fold base in C. destruct C as (C1 & C2 & C3 & C4 & C5 & C).
  assert (base + 8 + total d1 + k ≤ x ∨ x + s ≤ base + 8 + total d1) as Hdis.
  { pose proof (rg_good _ _ _ _ (rep_region _ _ _ _ _ _ (hr_rep _ _ Hh))) as Hgd.
    pose proof (chunks_apart _ _ _ _ _ _ Hgd Ecs). lia. }
  destruct (carve_head (sz + 16) k (base + 8) d1 d2 0) as (kk & rest & Ec & Hkk & _); [lia|].
  pose proof (hr_rep _ _ Hh1) as Hr1. rewrite Ec in Hr1. simpl in Hr1. fold base in Hr1.
  assert (MM_ALLOC_BIT < 2 ^ 32) as HB by done.
  assert (∃ i, s = 4 * Z.of_nat i) as [i Ei].
  { destruct B4 as [b ->]. exists (Z.to_nat (2 * b)). lia. }
  assert (4 | r) by (subst r; div4). assert (4 | x + 8) by div4.
  rewrite wp_bind. unfold memcpy. replace (Z.to_nat s) with (4 * i)%nat by lia.
  eapply wp_mono.
  { apply copy_words_spec; try done; try lia; intros a Ha H4;
      (eapply rep_ram; [exact Hr1|simpl; lia|done]). }
  intros _ h2 (m2 & -> & Hc). rewrite <- Ei in Hc.
  destruct (rep_copied _ m2 _ _ _ _ _ _ r (x + 8) s Hr1) as [Hr2 Hk2]; [done|lia|lia|].
  destruct (carve_around (base + 8) _ _ _ _ _ _ _ Ecs Hk) as (c1' & c2' & n & El & Tc & Hn & Hu).
  assert (hrep (set_mem m2 h) (c1' ++ (s, true) :: c2')) as Hh2.
  { rewrite <- El, Ec. by eapply hrep_set. }
  eapply wp_mono; [pose proof (free_spec _ _ _ _ Hh2) as W; simpl in W; fold base in W;
    rewrite Tc in W; exact W|].
  intros _ h3 (m3 & -> & Hh3 & Hk3).
  assert (∀ w, payload (base + 8) (c1 ++ (s, false) :: c2) w ∨ r ≤ w < r + s →
    payload (base + 8) (c1' ++ (s, false) :: c2') w) as Hp3.
  { intros w. rewrite !payload_used. setoid_rewrite Hu. intros [(p & Hp & Hw)|Hw].
    - exists p. split; [by right|done].
    - eexists. split; [by left|]. simpl. lia. }
  exists (release c1' s c2'), n. split_and!; [done| |done|lia| | |].
  - apply granular_release. rewrite <- El.
    rewrite Ecs in Hg. apply Forall_app in Hg as [? [? ?]%Forall_cons].
    apply Forall_app. split; [done|]. apply Forall_app. split; [|done].
    apply granular_carve; [|done]. apply Z.divide_add_r; [done|by exists 1].
  - fold base. replace (r - 8) with (base + 8 + total d1) by lia. rewrite <- Hu.
    rewrite used_release, used_nodes_app. done.
  - fold base. intros w Hw. simpl. rewrite Hk3 by (apply Hp3; by left). simpl.
    pose proof (payload_rest _ _ _ _ _ Hw) as Hw'. rewrite Hk2; [by apply Hk1|].
    rewrite Ecs in Hw'.
    destruct (carve_head (sz + 16) k (base + 8) d1 d2 w) as (kk' & rest' & Ec' & _ & Hp); [lia|].
    rewrite Ec in Ec'. simplify_eq. by apply Hp.
  - intros off Hoff H4. simpl. rewrite Hk3 by (apply Hp3; right; lia). simpl.
    assert (payload (base + 8) (c1 ++ (s, true) :: c2) (x + 8 + off)) as Hw.
    { apply payload_app. right. left. split; [done|]. simpl. lia. }
    assert (4 | x + 8 + off) by by apply Z.divide_add_r.
    destruct (rep_ram _ _ _ _ _ _ (x + 8 + off) (hr_rep _ _ Hh)) as [v E]; [lia|done|].
    replace (r + off) with (x + 8 + off - (x + 8) + r) by lia. rewrite E.
    rewrite (proj1 Hc _ v); [|lia|done|by rewrite Hk1]. f_equal. apply u32_id. eapply Hwords; [|done|done]. lia.
Qed.

Lemma chunk_size_granule size : 1 ≤ size → size + 23 < 2 ^ 32 → (16 | chunk_size size).
Proof.
  intros H1 H2. unfold chunk_size. change SIZEOF_MM_ALLOCNODE with 8.
  rewrite u32_id, align_up_eq by lia. apply Z.divide_factor_l.
Qed.

Lemma move_spec h c1 s c2 size :
  let x := mm_heapstart h + 8 + total c1 in
  let sz := chunk_size size in
  hrep h (c1 ++ (s, true) :: c2) → granular (c1 ++ (s, true) :: c2) →
  is_words (mem h) (x + 8) (x + s) → 1 ≤ size → size + 46 < 2 ^ 32 → s < sz →
  wp (realloc_move (x + 8) s sz) (λ r h',
    r = NULL ∧ h' = h ∧
      (∀ p, p ∈ free_nodes (mm_heapstart h + 8) (c1 ++ (s, true) :: c2) → p.2 < size + 46) ∨
    resized h (c1 ++ (s, false) :: c2) x s size r h') (set_mem (mem h) (locked h)).
Proof.
  intros x sz Hh Hg Hwords H1 Hmax Hs.
  destruct (chunk_size_bounds size) as (N1 & N2 & N3); [lia..|]. fold sz in N1, N2, N3.
  assert (16 | sz) as Dsz by (apply chunk_size_granule; lia).
  assert (chunk_size sz = sz + 16) as Esz.
  { unfold chunk_size. change SIZEOF_MM_ALLOCNODE with 8. rewrite u32_id, align_up_eq by lia.
    destruct Dsz as [b ->]. Z.div_mod_to_equations. lia. }
  unfold realloc_move. rewrite wp_bind, (wp_give_lock _ _ _ _ Hh), set_mem_id, wp_bind.
  eapply wp_mono; [apply (malloc_spec _ _ _ Hh); rewrite ?Esz; [lia|lia|apply Z.divide_add_r; [done|by exists 2]]|].
  rewrite Esz. intros r h1 [(-> & -> & Hnone)|(d1 & k & d2 & m & Ecs & Hk & _ & -> & -> & Hh1 & Hk1)].
  - rewrite Z.eqb_refl, wp_bind. cbn [negb when]. rewrite !wp_ret. left. split_and!; try done.
    intros p Hp. specialize (Hnone p Hp). lia.
  - pose proof (hr_rep _ _ Hh) as Hr. rewrite Ecs in Hr.
    pose proof (region_mid _ _ _ _ _ _ _ (rep_region _ _ _ _ _ _ Hr)) as [_ C]. cbv zeta in C.
    rewrite (proj2 (Z.eqb_neq _ NULL)) by (unfold NULL; lia). cbn [negb]. rewrite wp_bind.
    apply (proj2 (wp_when _ _ _ _)).
    eapply wp_mono; [apply (copy_free_spec h m c1 s c2 d1 k d2 sz size); done || lia|].
    intros u h' H. rewrite wp_ret. by right.
Qed.

Lemma prev_free_bounds c1 : good c1 → granular c1 →
  0 ≤ prev_free c1 ≤ total c1 ∧ (16 | prev_free c1).
Proof.
  intros Hg Hd. pose proof (total_nonneg _ Hg).
  destruct (prev_free_cases c1) as [->|(c0 & t & -> & -> & _)]; [split; [lia|apply Z.divide_0_r]|].
  apply Forall_app in Hg as [Hg [[? _] _]%Forall_cons], Hd as [_ [? _]%Forall_cons].
  pose proof (total_nonneg _ Hg). rewrite total_app. simpl in *. split; [lia|done].
Qed.

Lemma next_free_bounds c2 : good c2 → granular c2 → 0 ≤ next_free c2 ∧ (16 | next_free c2).
Proof.
  intros Hg Hd. destruct c2 as [|[t []] c2]; simpl; [split; [lia|apply Z.divide_0_r]..|].
  apply Forall_cons in Hg as [[? _] _], Hd as [? _]. simpl in *. split; [lia|done].
Qed.

Lemma prev_used_none c1 : end_used c1 = true → prev_free c1 = 0.
Proof. intros H. destruct (prev_free_cases c1) as [->|(c0 & t & _ & _ & H')]; [done|congruence]. Qed.

(** Growing in place. *)
Lemma grow_spec h c1 s c2 size :
  let x := mm_heapstart h + 8 + total c1 in
  let sz := chunk_size size in
  let p := prev_free c1 in
  let q := next_free c2 in
  let take := take_sizes (sz - s) p q in
  hrep h (c1 ++ (s, true) :: c2) → granular (c1 ++ (s, true) :: c2) →
  is_words (mem h) (x + 8) (x + s) → 1 ≤ size → size + 46 < 2 ^ 32 →
  s < sz ≤ q + p + s →
  end_used c1 = true ∨ mm_heapend h + total c1 ≤ 2 ^ 32 ∧
    (∀ a, mm_heapend h + 8 ≤ a < mm_heapend h + total c1 → (4 | a) → is_Some (mem h !! a)) →
  wp (ns <-- (if negb (take.1 =? 0)
              then extend_prev x s (u32 (x - endsz 8 c1)) (x + s) p take.1 (x + 8)
              else ret (x, s)) ;;
      when (negb (take.2 =? 0)) (extend_next ns.1 ns.2 (x + s) q take.2) ;;;
      mm_givesemaphore ;;;
      ret (if negb (take.1 =? 0) then u32 (ns.1 + SIZEOF_MM_ALLOCNODE) else x + 8))%cmd
    (λ r h', resized h (c1 ++ (s, false) :: c2) x s size r h') (set_mem (mem h) (locked h)).
Proof.
  intros x sz p q take Hh Hg Hwords H1 Hmax Hsz Hread.
  pose proof (hr_rep _ _ Hh) as Hr.
  pose proof (region_mid _ _ _ _ _ _ _ (rep_region _ _ _ _ _ _ Hr)) as [_ B]. cbv zeta in B. fold x in B.
  assert (MM_ALLOC_BIT < 2 ^ 32) as HB by done.
  pose proof Hg as [Hg1 [Hgs Hg2]%Forall_cons]%Forall_app. simpl in Hgs.
  pose proof (rg_good _ _ _ _ (rep_region _ _ _ _ _ _ Hr)) as [G1 [_ G2]%Forall_cons]%Forall_app.
  destruct (prev_free_bounds c1 G1 Hg1) as [P1 P2], (next_free_bounds c2 G2 Hg2) as [Q1 Q2].
  destruct (chunk_size_bounds size) as (_ & N2 & _); [lia..|]. fold sz in N2. fold p in P1, P2. fold q in Q1, Q2.
  assert (16 | sz - s) as Dd by (apply Z.divide_sub_r; [apply chunk_size_granule; lia|done]).
  destruct (take_sizes_spec (sz - s) p q) as (T1 & T2 & T3 & T4 & T5); [done || lia..|].
  fold take in T1, T2, T3, T4, T5.
  rewrite wp_bind. eapply wp_mono.
  { apply (take_prev_spec _ _ _ _ _ _ _ take.1 (locked h) eq_refl Hr); try done.
    destruct Hread as [Hp%prev_used_none|[? Hram]]; [left; subst p; lia|right]. fold x. split; [lia|].
    intros a Ha. apply Hram. lia. }
  fold x. intros ns h1 (m1 & c0 & -> & -> & Hr1 & Tc & Hg0 & Hu0 & Hk1 & Hm1).
  rewrite wp_bind. cbn [fst snd].
  assert (x - take.1 = mm_heapstart h + 8 + total c0) as Ex by lia.
  pose proof (region_mid _ _ _ _ _ _ _ (rep_region _ _ _ _ _ _ Hr1)) as [_ B1]. cbv zeta in B1.
  replace (x + s) with (x - take.1 + (s + take.1)) by lia. rewrite Ex. eapply wp_mono.
  { by apply (take_next_spec _ _ _ _ _ _ _ take.2 (locked h) eq_refl Hr1). }
  intros _ h2 (m2 & -> & Hr2 & Hk2). rewrite wp_bind, (wp_give_lock _ _ _ _ Hh), wp_ret.
  change SIZEOF_MM_ALLOCNODE with 8.
  assert ((if negb (take.1 =? 0) then u32 (mm_heapstart h + 8 + total c0 + 8) else x + 8) = x - take.1 + 8) as ->.
  { destruct (Z.eqb_spec take.1 0); cbn [negb]; [lia|]. rewrite u32_id; lia. }
  eexists _, (s + take.1 + take.2). split_and!; [by eapply hrep_set| |done|lia| | |].
  - apply Forall_app. split; [done|]. constructor; [|by apply back_granular]. simpl.
    by repeat apply Z.divide_add_r.
  - rewrite !used_nodes_app, Hu0. simpl. rewrite <- Permutation_middle, <- Ex.
    replace (x - take.1 + 8 - 8) with (x - take.1) by lia. f_equiv. f_equiv.
    replace (x - take.1 + (s + take.1 + take.2)) with (x + s + take.2) by lia.
    by rewrite back_used.
  - intros w Hw. simpl. rewrite Hk2; [by apply Hk1|].
    apply payload_rest. rewrite payload_used in *. rewrite used_nodes_app in *. rewrite Hu0.
    simpl in *. rewrite <- Ex. by replace (x - take.1 + (s + take.1)) with (x + s) by lia.
  - intros off Hoff H4. simpl. rewrite Hk2.
    + replace (x - take.1 + 8 + off) with (x + 8 + off - take.1) by lia. apply Hm1; [lia|].
      apply Z.divide_add_r; [destruct B as (_ & _ & _ & _ & Dx & _); div4|done].
    + apply payload_app. right. left. simpl. split; [done|]. lia.
Qed.

(** ** The operation *)

Lemma granular_shrink c1 s c2 n :
  (16 | n) → granular (c1 ++ (s, true) :: c2) → granular (shrink c1 s c2 n).
Proof.
  intros Dn [H1 [Hs H2]%Forall_cons]%Forall_app. simpl in Hs. unfold shrink.
  assert (16 | s - n) by by apply Z.divide_sub_r.
  destruct c2 as [|[t []] c2]; [destruct (_ <=? _)..|]; (apply Forall_app; split; [done|]);
    repeat first [done | apply Forall_cons_2].
  - apply Forall_cons in H2 as [Ht H2]. simpl in *.
    replace (t + s - n) with (t + (s - n)) by lia. by apply Z.divide_add_r.
  - by apply Forall_cons in H2 as [Ht H2].
Qed.

Lemma used_shrink a c1 s c2 n : n ≤ s →
  ∃ k, n ≤ k ∧ used_nodes a (shrink c1 s c2 n) ≡ₚ
    (a + total c1, k) :: used_nodes a (c1 ++ (s, false) :: c2).
Proof.
  intros Hn. unfold shrink.
  destruct c2 as [|[t []] c2]; [destruct (n + 16 <=? s)..|];
    [exists n|exists s|exists n|exists s|exists n]; (split; [lia|]);
    rewrite !used_nodes_app; simpl; rewrite <- Permutation_middle; try reflexivity.
  - by replace (a + total c1 + n + (s - n)) with (a + total c1 + s) by lia.
  - by replace (a + total c1 + n + (t + s - n)) with (a + total c1 + s + t) by lia.
Qed.

(** The part that leaves the block where it is. *)
Lemma shrink_in_place_spec h c1 s c2 size :
  let x := mm_heapstart h + 8 + total c1 in
  let sz := chunk_size size in
  hrep h (c1 ++ (s, true) :: c2) → granular (c1 ++ (s, true) :: c2) →
  1 ≤ size → size + 46 < 2 ^ 32 → sz ≤ s →
  wp (when (sz <? s) (mm_shrinkchunk x sz) ;;; mm_givesemaphore ;;; ret (x + 8))%cmd
    (λ r h', resized h (c1 ++ (s, false) :: c2) x s size r h') (set_mem (mem h) (locked h)).
Proof.
  intros x sz Hh Hg H1 Hmax Hs. pose proof (hr_rep _ _ Hh) as Hr.
  destruct (chunk_size_bounds size) as (N1 & N2 & N3); [lia..|]. fold sz in N1, N2, N3.
  assert (16 | sz) as Dsz by (apply chunk_size_granule; lia).
  rewrite wp_bind. apply (proj2 (wp_when _ _ _ _)). destruct (Z.ltb_spec sz s) as [Hlt|Hge].
  - apply (shrink_spec _ _ _ _ _ _ _ _ _ (locked h) eq_refl Hr); [lia|done|]. intros m' Hr' Hk'.
    rewrite wp_bind, (wp_give_lock _ _ _ _ Hh), wp_ret.
    destruct (used_shrink (mm_heapstart h + 8) c1 s c2 sz Hs) as (k & Hk & Hu).
    eexists (shrink c1 s c2 sz), k. split_and!; [by eapply hrep_set|by apply granular_shrink|done|lia| | |].
    + by replace (x + 8 - 8) with x by lia.
    + intros w Hw. apply Hk'. by apply shrink_payload.
    + intros off Hoff H4. apply Hk'. rewrite payload_used. setoid_rewrite Hu.
      eexists. split; [by left|]. simpl. lia.
  - rewrite wp_bind, (wp_give_lock _ _ _ _ Hh), wp_ret, set_mem_id.
    exists (c1 ++ (s, true) :: c2), s. split_and!; try done; [lia|].
    rewrite !used_nodes_app. simpl. replace (x + 8 - 8) with x by lia. by rewrite <- Permutation_middle.
Qed.

Lemma neighbours_bound m base c1 s c2 e :
  region m base (c1 ++ (s, true) :: c2) e → granular (c1 ++ (s, true) :: c2) →
  0 ≤ next_free c2 + prev_free c1 + s < MM_ALLOC_BIT.
Proof.
  intros Hreg [Hg1 [_ Hg2]%Forall_cons]%Forall_app.
  pose proof (region_mid _ _ _ _ _ _ _ Hreg) as [_ B]. cbv zeta in B.
  pose proof (rg_good _ _ _ _ Hreg) as [G1 [_ G2]%Forall_cons]%Forall_app.
  destruct (prev_free_bounds c1 G1 Hg1), (next_free_bounds c2 G2 Hg2).
  assert (next_free c2 ≤ total c2); [|lia].
  pose proof (total_nonneg _ G2). destruct c2 as [|[t []] c2]; simpl in *; [lia..|].
  apply Forall_cons in G2 as [_ G2]. pose proof (total_nonneg _ G2). lia.
Qed.

(** C17: [mm_realloc] on a block returns null and
    changes nothing when no free chunk is large enough, or a block that holds
    [size] bytes: the words of the old block are in it, up to the smaller of
    the two sizes, and all other blocks stay where they are, with their data.

    This holds under four conditions.  All chunks are whole granules of 16 bytes, that is,
    no block comes from [mm_memalign] (which can break the call: [memalign_breaks_realloc]); the block
    holds 32-bit words; [size] is at least 1 and not within 46 bytes of 4 GB; and, if the chunk before the
    block is free, as many bytes behind the heap as there are before the block can be read:
    the call copies too much, see [realloc_reads_past_end]. *)
Theorem realloc_resizes h c1 s c2 size :
  let x := mm_heapstart h + 8 + total c1 in
  hrep h (c1 ++ (s, true) :: c2) → granular (c1 ++ (s, true) :: c2) →
  is_words (mem h) (x + 8) (x + s) → 1 ≤ size → size + 46 < 2 ^ 32 →
  end_used c1 = true ∨ mm_heapend h + total c1 ≤ 2 ^ 32 ∧
    (∀ a, mm_heapend h + 8 ≤ a < mm_heapend h + total c1 → (4 | a) → is_Some (mem h !! a)) →
  ∃ r h', mm_realloc (x + 8) size h = Ok (r, h') ∧
    (r = NULL ∧ h' = h ∧
       (∀ p, p ∈ free_nodes (mm_heapstart h + 8) (c1 ++ (s, true) :: c2) → p.2 < size + 46) ∨
     resized h (c1 ++ (s, false) :: c2) x s size r h').
Proof.
  intros x Hh Hg Hwords H1 Hmax Hread. pose proof (hr_rep _ _ Hh) as Hr.
  pose proof (rep_region _ _ _ _ _ _ Hr) as Hreg.
  pose proof (region_mid _ _ _ _ _ _ _ Hreg) as [(E1 & E2 & _) B]. cbv zeta in E1, E2, B. fold x in E1, E2, B.
  assert (MM_ALLOC_BIT < 2 ^ 32) as HB by done.
  match goal with |- ∃ r h', _ ∧ @?P r h' => assert (wp (mm_realloc (x + 8) size) P h) as W end.
  { unfold mm_realloc. rewrite (proj2 (Z.eqb_neq _ NULL)) by (unfold NULL; lia).
    rewrite (proj2 (Z.ltb_ge size 1)) by lia. change SIZEOF_MM_ALLOCNODE with 8.
    replace (x + 8 - 8) with x by lia. rewrite (u32_id x) by lia. set (sz := chunk_size size).
    rewrite wp_bind, (wp_take_lock _ _ _ Hh). exec. rewrite wp_bind, (wp_load _ s) by (done || lia).
    destruct (Z.leb_spec sz s) as [Hle|Hgt].
    { eapply wp_mono; [by apply shrink_in_place_spec|]. intros r h' H. by right. }
    rewrite (u32_id (x + s)) by lia. subst x. rewrite wp_bind, (next_size_spec _ _ _ _ c2 (mm_heapend h)) by done.
    set (x := mm_heapstart h + 8 + total c1) in *.
    rewrite wp_bind, (wp_load _ (tag (endsz 8 c1) true)) by (done || lia). rewrite tag_clear by lia.
    unfold x at 1. rewrite wp_bind, (prev_size_spec _ _ c1 s c2 (mm_heapend h)) by done. fold x.
    destruct (chunk_size_bounds size) as (N1 & N2 & N3); [lia..|]. fold sz in N1, N2, N3.
    rewrite (u32_id (sz - s)) by lia.
    rewrite u32_id by (pose proof (neighbours_bound _ _ _ _ _ _ Hreg Hg); lia).
    destruct (Z.leb_spec sz (next_free c2 + prev_free c1 + s)) as [Hfit|Hno].
    - eapply wp_mono; [apply (grow_spec h c1 s c2 size); done || lia|]. intros r h' H. by right.
    - apply move_spec; done || lia. }
  destruct (wp_run _ _ _ W) as (r & h' & E & HQ). by exists r, h'.
Qed.

(** A block of 120 bytes at the end of the heap, after a free chunk of 112. *)
Definition free_before : M heap unit :=
  (mm_initialize 8192 256 ;;; p <-- mm_malloc 100 ;; q <-- mm_malloc 116 ;; mm_free p)%cmd.

Lemma wp_free_before : wp free_before (λ _ h, hrep h [(112, false); (128, true)]) h0.
Proof.
  unfold free_before. rewrite wp_bind. eapply wp_mono.
  { apply (initialize_spec h0 8192 256); try done; [by exists 1024|exact h0_hooks| |].
    - intros a Ha. apply h0_region. change (8192 ≤ a < 8448) in Ha. lia.
    - split; [done|]. split; [done|]. by left. }
  intros [] h (Hh & _ & _ & _). change (hrep h [(240, false)]) in Hh. rewrite wp_bind.
  eapply wp_mono; [apply (malloc_spec 100 h _ Hh); [done|done|by exists 14]|].
  intros p h1 [(_ & _ & Hall)|(c1 & s & c2 & m1 & Ecs & _ & _ & -> & -> & H1 & _)].
  { specialize (Hall (mm_heapstart h + 8, 240) ltac:(by left)). by vm_compute in Hall. }
  destruct c1 as [|? [|]]; simplify_eq/=. change (hrep (set_mem m1 h) [(112, true); (128, false)]) in H1.
  rewrite wp_bind. eapply wp_mono; [apply (malloc_spec 116 _ _ H1); [done|done|by exists 16]|].
  intros q h2 [(_ & _ & Hall)|(c1 & s & c2 & m2 & Ecs & _ & _ & -> & -> & H2 & _)].
  { specialize (Hall (mm_heapstart h + 8 + 112, 128) ltac:(by left)). by vm_compute in Hall. }
  destruct c1 as [|[] [|? [|]]]; simplify_eq/=. change (hrep (set_mem m2 (set_mem m1 h)) ([] ++ (112, true) :: [(128, true)])) in H2.
  eapply wp_mono; [apply (free_spec _ [] 112 _ H2)|]. intros [] h3 (m3 & -> & H3 & _). exact H3.
Qed.

(** The words from address [a] on. *)
Fixpoint words_ok (m : gmap Z Z) (n : nat) (a : Z) : bool :=
  match n with
  | O => true
  | S n => match m !! a with Some v => (0 <=? v) && (v <? 2 ^ 32) | None => false end && words_ok m n (a + 4)
  end.

Lemma words_ok_spec m n a w : words_ok m n a = true → a ≤ w < a + 4 * Z.of_nat n → (4 | w - a) →
  ∃ v, m !! w = Some v ∧ 0 ≤ v < 2 ^ 32.
Proof.
  revert a. induction n as [|n IH]; intros a E Hw Hd; [lia|]. cbn [words_ok] in E. apply andb_true_iff in E as [Ea E].
  destruct (decide (w = a)) as [->|Hn].
  - destruct (m !! a) as [v|]; [|done]. exists v. split; [done|lia].
  - apply (IH (a + 4)); [done| |]; destruct Hd as [d Hd]; [lia|]. exists (d - 1). lia.
Qed.

Lemma run_free_before : ∃ h, hrep h [(112, false); (128, true)] ∧ mm_heapstart h = 8192 ∧ mm_heapend h = 8440 ∧
  words_ok (mem h) 30 8320 = true ∧ words_ok (mem h) 30 8448 = true ∧
  match mm_realloc 8320 200 h with Ok (r, _) => r = 8240 | Undef _ => False end.
Proof.
  destruct (wp_run _ _ _ wp_free_before) as ([] & h & E & Hh). exists h. split; [done|].
  assert (match free_before h0 with
    | Ok (_, h) => mm_heapstart h = 8192 ∧ mm_heapend h = 8440 ∧
        words_ok (mem h) 30 8320 = true ∧ words_ok (mem h) 30 8448 = true ∧
        match mm_realloc 8320 200 h with Ok (r, _) => r = 8240 | Undef _ => False end
    | Undef _ => False
    end) as H by (vm_compute; by split_and!).
  by rewrite E in H.
Qed.

(** The block grows into the free chunk before it. *)
Lemma realloc_resizes_witness :
  ∃ h h', hrep h [(112, false); (128, true)] ∧ mm_realloc 8320 200 h = Ok (8240, h') ∧
    resized h [(112, false); (128, false)] 8312 128 200 8240 h'.
Proof.
  destruct run_free_before as (h & Hh & Es & Ee & Hw & Hb & Er). exists h.
  destruct (realloc_resizes h [(112, false)] 128 [] 200 Hh) as (r & h' & E & H).
  - repeat apply Forall_cons_2; [by exists 7|by exists 8|apply Forall_nil_2].
  - rewrite Es. intros w v Hr Hd Ev. destruct (words_ok_spec _ _ _ w Hw) as (v' & Ev' & Hv); [exact Hr| |].
    + apply Z.divide_sub_r; [exact Hd|by exists 2080].
    + rewrite Ev in Ev'. injection Ev' as ->. exact Hv.
  - discriminate.
  - reflexivity.
  - right. rewrite Ee. split; [discriminate|]. intros a Ha Hd. change (8440 + 8 ≤ a < 8440 + 112) in Ha.
    destruct (words_ok_spec _ _ _ a Hb) as (v & Ev & _); [lia| |by exists v].
    apply Z.divide_sub_r; [exact Hd|by exists 2112].
  - rewrite Es in E, H. change (8192 + 8 + total [(112, false)]) with 8312 in E, H. change (8312 + 8) with 8320 in E.
    rewrite E in Er. subst r. exists h'. split; [exact Hh|]. split; [exact E|].
    destruct H as [[Hn _]|H]; [discriminate Hn|exact H].
Defined.

(** ** Where blocks and granules do not fit *)

(** when a block grows into the chunk before it, [mm_realloc] copies as
    many bytes as the new block holds, which is more than the old one holds:
    for the last block of the heap it reads memory behind the heap. *)
Theorem realloc_reads_past_end :
  (mm_initialize 8192 512 ;;; p <-- mm_malloc 100 ;; q <-- mm_malloc 372 ;; mm_free p ;;;
   mm_realloc q 400)%cmd h0 = Undef OutOfBounds.
Proof. vm_compute. reflexivity. Qed.

(** [mm_memalign] makes chunks that are not whole granules; when such a
    block grows, [mm_realloc] leaves a free chunk of 8 bytes before it, writes
    its links over the header of the block, and copies as many bytes as the
    link says. *)
Theorem memalign_breaks_realloc :
  (mm_initialize 8192 512 ;;; p <-- mm_memalign 64 40 ;; mm_realloc p 80)%cmd h0 = Undef OutOfBounds.
Proof. vm_compute. reflexivity. Qed.

(** [mm_memalign] of no bytes returns a block of 8 bytes, too small to be
    a free chunk: when it is released between two blocks in use, its links
    overwrite the size of the next block, 440 before, with a pointer. *)
Theorem memalign_zero_overwrites :
  match (mm_initialize 8192 512 ;;; p <-- mm_memalign 64 0 ;; q <-- mm_malloc 424 ;;
         _ <-- mm_malloc 40 ;; s <-- node_size (q - 8) ;; mm_free p ;;;
         t <-- node_size (q - 8) ;; ret (s, t))%cmd h0 with
  | Ok ((s, t), h) => s = 440 ∧ t = hook 1 h
  | Undef _ => False
  end.
Proof. vm_compute. split; reflexivity. Qed.

End Resize.
