(* ===== verification/Sched.v ===== *)
(** * The scheduler

    Models [sched/sched] and the context switches of [arch/arm/src/armv7-m]:
    the task lists and the operations that move a task between them, the
    preemption lock, priorities and time slices.

    A task is the address of its TCB.  The list links of the TCBs are in the
    store that the queue operations of Queue.v use; the other fields are those
    of [struct tcb_s] that the scheduler and the semaphores use.  The contents
    of a register context are one opaque integer: [regs] is what is in the
    registers (or in the frame that an interrupt saved), [xcp] what is in the
    save area of a TCB, and [current_regs] points to the context that the
    interrupt returns to.

    A function that gives the processor away ends, in the model, where the
    other task goes on; it returns [true].  What is left of the caller is a
    definition of its own, run when the task is scheduled again. *)

From stdpp Require Import functions.
From S2P Require Import Prelude Queue.

Module Sched.
Import Dq.
#[local] Open Scope cmd_scope.

Definition OK : Z := 0.
Definition ERROR : Z := -1.
Definition EINTR : Z := 4.
Definition EAGAIN : Z := 11.
Definition EINVAL : Z := 22.
Definition ETIMEDOUT : Z := 110.
Definition SCHED_PRIORITY_MIN : Z := 1.
Definition SCHED_PRIORITY_MAX : Z := 255.
Definition MAX_LOCK_COUNT : Z := 127.
Definition TCB_FLAG_ROUND_ROBIN : Z := 16.
(** [MSEC2TICK(CONFIG_RR_INTERVAL)], with 200 ms slices and 10 ms ticks. *)
Definition RR_TICKS : Z := Z.quot (200 + Z.quot 10 2) 10.

Inductive tstate : Type :=
| TSTATE_TASK_INVALID
| TSTATE_TASK_PENDING
| TSTATE_TASK_READYTORUN
| TSTATE_TASK_RUNNING
| TSTATE_TASK_INACTIVE
| TSTATE_WAIT_SEM
| TSTATE_WAIT_SIG
| TSTATE_WAIT_MQNOTEMPTY
| TSTATE_WAIT_MQNOTFULL.

#[export] Instance tstate_eq_dec : EqDecision tstate.
Proof. solve_decision. Defined.

(** The order of the enumeration, which the range checks rely on. *)
Definition tstate_num (st : tstate) : Z :=
  match st with
  | TSTATE_TASK_INVALID => 0 | TSTATE_TASK_PENDING => 1 | TSTATE_TASK_READYTORUN => 2
  | TSTATE_TASK_RUNNING => 3 | TSTATE_TASK_INACTIVE => 4 | TSTATE_WAIT_SEM => 5
  | TSTATE_WAIT_SIG => 6 | TSTATE_WAIT_MQNOTEMPTY => 7 | TSTATE_WAIT_MQNOTFULL => 8
  end.

Definition in_ready_states (st : tstate) : bool :=
  (tstate_num TSTATE_TASK_READYTORUN <=? tstate_num st)
    && (tstate_num st <=? tstate_num TSTATE_TASK_RUNNING).
Definition in_blocked_states (st : tstate) : bool :=
  (tstate_num TSTATE_TASK_INACTIVE <=? tstate_num st)
    && (tstate_num st <=? tstate_num TSTATE_WAIT_MQNOTFULL).

(** The task lists. *)
Inductive tasklist : Type :=
| g_readytorun
| g_pendingtasks
| g_waitingforsemaphore
| g_waitingforsignal
| g_waitingformqnotempty
| g_waitingformqnotfull
| g_inactivetasks.

#[export] Instance tasklist_eq_dec : EqDecision tasklist.
Proof. solve_decision. Defined.

(** [g_tasklisttable]: the list of each state, and whether it is ordered by
    priority. *)
Definition g_tasklisttable (st : tstate) : option tasklist * bool :=
  match st with
  | TSTATE_TASK_INVALID => (None, false)
  | TSTATE_TASK_PENDING => (Some g_pendingtasks, true)
  | TSTATE_TASK_READYTORUN => (Some g_readytorun, true)
  | TSTATE_TASK_RUNNING => (Some g_readytorun, true)
  | TSTATE_TASK_INACTIVE => (Some g_inactivetasks, false)
  | TSTATE_WAIT_SEM => (Some g_waitingforsemaphore, true)
  | TSTATE_WAIT_SIG => (Some g_waitingforsignal, false)
  | TSTATE_WAIT_MQNOTEMPTY => (Some g_waitingformqnotempty, true)
  | TSTATE_WAIT_MQNOTFULL => (Some g_waitingformqnotfull, true)
  end.

(** [struct tcb_s] without the list links. *)
Record tcb_s : Type := mktcb {
  sched_priority : Z;
  task_state : tstate;
  flags : Z;
  lockcount : Z;
  timeslice : Z;
  waitsem : Z;
  pterrno : Z;
  xcp : Z
}.

Definition set_sched_priority v t := mktcb v (task_state t) (flags t) (lockcount t) (timeslice t) (waitsem t) (pterrno t) (xcp t).
Definition set_task_state v t := mktcb (sched_priority t) v (flags t) (lockcount t) (timeslice t) (waitsem t) (pterrno t) (xcp t).
Definition set_lockcount v t := mktcb (sched_priority t) (task_state t) (flags t) v (timeslice t) (waitsem t) (pterrno t) (xcp t).
Definition set_timeslice v t := mktcb (sched_priority t) (task_state t) (flags t) (lockcount t) v (waitsem t) (pterrno t) (xcp t).
Definition set_waitsem v t := mktcb (sched_priority t) (task_state t) (flags t) (lockcount t) (timeslice t) v (pterrno t) (xcp t).
Definition set_pterrno v t := mktcb (sched_priority t) (task_state t) (flags t) (lockcount t) (timeslice t) (waitsem t) v (xcp t).
Definition set_xcp v t := mktcb (sched_priority t) (task_state t) (flags t) (lockcount t) (timeslice t) (waitsem t) (pterrno t) v.

(** The kernel: TCBs, lists, the counts of the semaphores and the processor's
    context. *)
Record kernel : Type := mkkernel {
  links : Dq.links;
  tcbs : gmap Z tcb_s;
  lists : tasklist → queue;
  sems : gmap Z Z;
  regs : Z;
  current_regs : Z;
  g_irqerrno : Z
}.

Definition upd_links v k := mkkernel v (tcbs k) (lists k) (sems k) (regs k) (current_regs k) (g_irqerrno k).
Definition upd_tcbs v k := mkkernel (links k) v (lists k) (sems k) (regs k) (current_regs k) (g_irqerrno k).
Definition upd_lists v k := mkkernel (links k) (tcbs k) v (sems k) (regs k) (current_regs k) (g_irqerrno k).
Definition upd_sems v k := mkkernel (links k) (tcbs k) (lists k) v (regs k) (current_regs k) (g_irqerrno k).
Definition upd_regs v k := mkkernel (links k) (tcbs k) (lists k) (sems k) v (current_regs k) (g_irqerrno k).
Definition upd_current_regs v k := mkkernel (links k) (tcbs k) (lists k) (sems k) (regs k) v (g_irqerrno k).
Definition upd_irqerrno v k := mkkernel (links k) (tcbs k) (lists k) (sems k) (regs k) (current_regs k) v.

(** ** Access *)

Definition on_links {A} (m : M Dq.links A) : M kernel A := λ k,
  res_bind (m (links k)) (λ '(a, v), Ok (a, upd_links v k)).
Definition on_tcbs {A} (m : M (gmap Z tcb_s) A) : M kernel A := λ k,
  res_bind (m (tcbs k)) (λ '(a, v), Ok (a, upd_tcbs v k)).

Definition get (t : Z) : M kernel tcb_s := on_tcbs (deref t).
Definition set (t : Z) (f : tcb_s → tcb_s) : M kernel unit := on_tcbs (assign t f).
Definition get_links (t : Z) : M kernel links_of := on_links (deref t).
Definition set_link (t : Z) (f : links_of → links_of) : M kernel unit := on_links (assign t f).
Definition head_of (l : tasklist) : M kernel Z := gets (λ k, head (lists k l)).
Definition tail_of (l : tasklist) : M kernel Z := gets (λ k, tail (lists k l)).
Definition set_queue (l : tasklist) (q : queue) : M kernel unit :=
  modify (λ k, upd_lists (<[l := q]> (lists k)) k).
Definition set_head (l : tasklist) (p : Z) : M kernel unit :=
  q <-- gets (λ k, lists k l) ;; set_queue l (mkqueue p (tail q)).
Definition set_tail (l : tasklist) (p : Z) : M kernel unit :=
  q <-- gets (λ k, lists k l) ;; set_queue l (mkqueue (head q) p).
Definition queue_op (f : queue → M Dq.links queue) (l : tasklist) : M kernel unit :=
  q <-- gets (λ k, lists k l) ;; q <-- on_links (f q) ;; set_queue l q.

(** The list of a state; there is none for an invalid task. *)
Definition list_of (st : tstate) : M kernel tasklist :=
  match fst (g_tasklisttable st) with
  | Some l => ret l
  | None => fail_ub NullDeref
  end.

Definition up_interrupt_context : M kernel bool := gets (λ k, negb (current_regs k =? NULL)).

(** [*get_errno_ptr()]: the [errno] of the running task, or another location
    in an interrupt handler and while the tasks are being switched. *)
Definition errno_location : M kernel (option Z) :=
  irq <-- up_interrupt_context ;;
  rtcb <-- head_of g_readytorun ;;
  if (irq : bool) || (rtcb =? NULL) then ret None
  else
    t <-- get rtcb ;;
    ret (if bool_decide (task_state t = TSTATE_TASK_RUNNING) then Some rtcb else None).
Definition set_errno (e : Z) : M kernel unit :=
  p <-- errno_location ;;
  match p with Some t => set t (set_pterrno e) | None => modify (upd_irqerrno e) end.
Definition get_errno : M kernel Z :=
  p <-- errno_location ;;
  match p with Some t => v <-- get t ;; ret (pterrno v) | None => gets g_irqerrno end.

(** ** Contexts *)

(** Where [current_regs] points while an interrupt returns to the task it
    interrupted: the frame on the stack, which is no TCB. *)
Definition FRAME : Z := -1.

Definition context_at (p : Z) : M kernel Z :=
  if p =? FRAME then gets regs else t <-- get p ;; ret (xcp t).
Definition up_savestate (t : Z) : M kernel unit :=
  p <-- gets current_regs ;; c <-- context_at p ;; set t (set_xcp c).
Definition up_restorestate (t : Z) : M kernel unit := modify (upd_current_regs t).
Definition up_switchcontext (save restore : Z) : M kernel unit :=
  assert_ (negb (save =? NULL) && negb (restore =? NULL)) ;;;
  c <-- gets regs ;; set save (set_xcp c) ;;;
  t <-- get restore ;; modify (upd_regs (xcp t)).

(** The end of every operation that may switch: in a handler the context to
    return to is replaced, otherwise the contexts are exchanged. *)
Definition switch_from (rtcb : Z) : M kernel unit :=
  irq <-- up_interrupt_context ;;
  if (irq : bool) then
    up_savestate rtcb ;;;
    rtcb <-- head_of g_readytorun ;;
    get rtcb ;;; up_restorestate rtcb
  else
    nexttcb <-- head_of g_readytorun ;;
    up_switchcontext rtcb nexttcb.

(** The two halves of [up_doirq] around the handler, with the exception return
    that loads the context it yields. *)
Definition irq_enter : M kernel unit := modify (upd_current_regs FRAME).
Definition irq_exit : M kernel unit :=
  p <-- gets current_regs ;; c <-- context_at p ;;
  modify (upd_regs c) ;;; modify (upd_current_regs NULL).

(** ** The lists *)

(** The first task from [next] on whose priority is lower. *)
Fixpoint skip_higher (fuel : nat) (prio next : Z) : M kernel Z :=
  if next =? NULL then ret next
  else
    t <-- get next ;;
    if prio <=? sched_priority t then
      v <-- get_links next ;;
      match fuel with
      | O => fail_ub NoFuel
      | S fuel => skip_higher fuel prio (flink v)
      end
    else ret next.

Definition sched_addprioritized (tcb : Z) (list : tasklist) : M kernel bool :=
  t <-- get tcb ;;
  let prio := sched_priority t in
  assert_ (SCHED_PRIORITY_MIN <=? prio) ;;;
  h <-- head_of list ;;
  n <-- gets (λ k, size (links k)) ;;
  next <-- skip_higher n prio h ;;
  if next =? NULL then
    prev <-- tail_of list ;;
    if prev =? NULL then
      set_link tcb (set_flink NULL) ;;;
      set_link tcb (set_blink NULL) ;;;
      set_head list tcb ;;;
      set_tail list tcb ;;;
      ret true
    else
      set_link tcb (set_flink NULL) ;;;
      set_link tcb (set_blink prev) ;;;
      set_link prev (set_flink tcb) ;;;
      set_tail list tcb ;;;
      ret false
  else
    v <-- get_links next ;;
    let prev := blink v in
    if prev =? NULL then
      set_link tcb (set_flink next) ;;;
      set_link tcb (set_blink NULL) ;;;
      set_link next (set_blink tcb) ;;;
      set_head list tcb ;;;
      ret true
    else
      set_link tcb (set_flink next) ;;;
      set_link tcb (set_blink prev) ;;;
      set_link prev (set_flink tcb) ;;;
      set_link next (set_blink tcb) ;;;
      ret false.

Definition sched_addreadytorun (btcb : Z) : M kernel bool :=
  rtcb <-- head_of g_readytorun ;;
  r <-- get rtcb ;;
  b <-- get btcb ;;
  if negb (lockcount r =? 0) && (sched_priority r <? sched_priority b) then
    sched_addprioritized btcb g_pendingtasks ;;;
    set btcb (set_task_state TSTATE_TASK_PENDING) ;;;
    ret false
  else
    first <-- sched_addprioritized btcb g_readytorun ;;
    if (first : bool) then
      r <-- get rtcb ;;
      v <-- get_links btcb ;;
      assert_ ((lockcount r =? 0) && negb (flink v =? NULL)) ;;;
      set btcb (set_task_state TSTATE_TASK_RUNNING) ;;;
      v <-- get_links btcb ;;
      set (flink v) (set_task_state TSTATE_TASK_READYTORUN) ;;;
      ret true
    else
      set btcb (set_task_state TSTATE_TASK_READYTORUN) ;;;
      ret false.

Definition sched_removereadytorun (rtcb : Z) : M kernel bool :=
  v <-- get_links rtcb ;;
  let r := blink v =? NULL in
  when r
    (let ntcb := flink v in
     assert_ (negb (ntcb =? NULL)) ;;;
     set ntcb (set_task_state TSTATE_TASK_RUNNING)) ;;;
  queue_op (dq_rem rtcb) g_readytorun ;;;
  set rtcb (set_task_state TSTATE_TASK_INVALID) ;;;
  ret r.

Definition sched_addblocked (btcb : Z) (st : tstate) : M kernel unit :=
  assert_ (in_blocked_states st) ;;;
  l <-- list_of st ;;
  (if snd (g_tasklisttable st) then sched_addprioritized btcb l ;;; ret tt
   else queue_op (dq_addlast btcb) l) ;;;
  set btcb (set_task_state st).

Definition sched_removeblocked (btcb : Z) : M kernel unit :=
  t <-- get btcb ;;
  assert_ (in_blocked_states (task_state t)) ;;;
  l <-- list_of (task_state t) ;;
  queue_op (dq_rem btcb) l ;;;
  set btcb (set_task_state TSTATE_TASK_INVALID).

(** The loop of [sched_mergepending]; the search for the place of a pending
    task goes on from the task placed before it. *)
Fixpoint merge_loop (fuel : nat) (pndtcb rtrtcb : Z) (r : bool) : M kernel bool :=
  if pndtcb =? NULL then ret r
  else
    v <-- get_links pndtcb ;;
    let pndnext := flink v in
    p <-- get pndtcb ;;
    n <-- gets (λ k, size (links k)) ;;
    rtrtcb <-- skip_higher n (sched_priority p) rtrtcb ;;
    assert_ (negb (rtrtcb =? NULL)) ;;;
    v <-- get_links rtrtcb ;;
    let rtrprev := blink v in
    r <-- (if rtrprev =? NULL then
             set_link pndtcb (set_flink rtrtcb) ;;;
             set_link pndtcb (set_blink NULL) ;;;
             set_link rtrtcb (set_blink pndtcb) ;;;
             set_head g_readytorun pndtcb ;;;
             set rtrtcb (set_task_state TSTATE_TASK_READYTORUN) ;;;
             set pndtcb (set_task_state TSTATE_TASK_RUNNING) ;;;
             ret true
           else
             set_link pndtcb (set_flink rtrtcb) ;;;
             set_link pndtcb (set_blink rtrprev) ;;;
             set_link rtrprev (set_flink pndtcb) ;;;
             set_link rtrtcb (set_blink pndtcb) ;;;
             set pndtcb (set_task_state TSTATE_TASK_READYTORUN) ;;;
             ret r) ;;
    match fuel with
    | O => fail_ub NoFuel
    | S fuel => merge_loop fuel pndnext pndtcb r
    end.

Definition sched_mergepending : M kernel bool :=
  rtrtcb <-- head_of g_readytorun ;;
  pndtcb <-- head_of g_pendingtasks ;;
  n <-- gets (λ k, size (links k)) ;;
  r <-- merge_loop n pndtcb rtrtcb false ;;
  set_head g_pendingtasks NULL ;;;
  set_tail g_pendingtasks NULL ;;;
  ret r.

(** ** Blocking, unblocking and reprioritizing a task *)

Definition up_block_task (tcb : Z) (st : tstate) : M kernel bool :=
  rtcb <-- head_of g_readytorun ;;
  t <-- get tcb ;;
  assert_ (in_ready_states (task_state t)) ;;;
  switch_needed <-- sched_removereadytorun tcb ;;
  sched_addblocked tcb st ;;;
  p <-- head_of g_pendingtasks ;;
  switch_needed <--
    (if negb (p =? NULL) then m <-- sched_mergepending ;; ret (switch_needed || m)
     else ret switch_needed) ;;
  when switch_needed (switch_from rtcb) ;;;
  ret switch_needed.

Definition up_unblock_task (tcb : Z) : M kernel bool :=
  rtcb <-- head_of g_readytorun ;;
  t <-- get tcb ;;
  assert_ (in_blocked_states (task_state t)) ;;;
  sched_removeblocked tcb ;;;
  set tcb (set_timeslice RR_TICKS) ;;;
  changed <-- sched_addreadytorun tcb ;;
  when changed (switch_from rtcb) ;;;
  ret changed.

Definition up_reprioritize_rtr (tcb priority : Z) : M kernel bool :=
  t <-- get tcb ;;
  if negb (in_ready_states (task_state t)) || (priority <? SCHED_PRIORITY_MIN) then
    fail_ub AssertFail
  else
    rtcb <-- head_of g_readytorun ;;
    removed <-- sched_removereadytorun tcb ;;
    set tcb (set_sched_priority priority) ;;;
    added <-- sched_addreadytorun tcb ;;
    let switch_needed := xorb removed added in
    when switch_needed
      (p <-- head_of g_pendingtasks ;;
       (if negb (p =? NULL) then sched_mergepending ;;; ret tt else ret tt) ;;;
       switch_from rtcb) ;;;
    ret switch_needed.

Definition up_release_pending : M kernel bool :=
  rtcb <-- head_of g_readytorun ;;
  changed <-- sched_mergepending ;;
  when changed (switch_from rtcb) ;;;
  ret changed.

(** ** The calls of a task *)

Definition sched_lock : M kernel Z :=
  rtcb <-- head_of g_readytorun ;;
  irq <-- up_interrupt_context ;;
  when (negb (rtcb =? NULL) && negb irq)
    (t <-- get rtcb ;;
     assert_ (lockcount t <? MAX_LOCK_COUNT) ;;;
     set rtcb (set_lockcount (i16 (lockcount t + 1)))) ;;;
  ret OK.

(** The end of [sched_unlock], after the pending tasks were released: a task
    whose slice has expired gets a new one when it is not running any more. *)
Definition unlock_slice (rtcb : Z) : M kernel unit :=
  t <-- get rtcb ;;
  when (negb (Z.land (flags t) TCB_FLAG_ROUND_ROBIN =? 0) && (timeslice t =? 0))
    (h <-- head_of g_readytorun ;;
     when (negb (rtcb =? h)) (set rtcb (set_timeslice RR_TICKS))).

(** [Some OK], or [None] when another task runs and [unlock_slice] is left. *)
Definition sched_unlock : M kernel (option Z) :=
  rtcb <-- head_of g_readytorun ;;
  irq <-- up_interrupt_context ;;
  if negb (rtcb =? NULL) && negb irq then
    t <-- get rtcb ;;
    when (negb (lockcount t =? 0)) (set rtcb (set_lockcount (i16 (lockcount t - 1)))) ;;;
    t <-- get rtcb ;;
    if lockcount t <=? 0 then
      set rtcb (set_lockcount 0) ;;;
      p <-- head_of g_pendingtasks ;;
      switched <-- (if negb (p =? NULL) then up_release_pending else ret false) ;;
      if (switched : bool) then ret None else unlock_slice rtcb ;;; ret (Some OK)
    else ret (Some OK)
  else ret (Some OK).

Definition sched_lockcount : M kernel Z :=
  rtcb <-- head_of g_readytorun ;; t <-- get rtcb ;; ret (lockcount t).
Definition sched_self : M kernel Z := head_of g_readytorun.

Definition sched_setpriority (tcb prio : Z) : M kernel Z :=
  rtcb <-- head_of g_readytorun ;;
  if (prio <? SCHED_PRIORITY_MIN) || (SCHED_PRIORITY_MAX <? prio) then
    set_errno EINVAL ;;; ret ERROR
  else
    t <-- get tcb ;;
    let st := task_state t in
    (match st with
     | TSTATE_TASK_RUNNING =>
         v <-- get_links tcb ;;
         n <-- get (flink v) ;;
         if prio <=? sched_priority n then up_reprioritize_rtr tcb (u8 prio) ;;; ret tt
         else set tcb (set_sched_priority (u8 prio))
     | TSTATE_TASK_READYTORUN =>
         r <-- get rtcb ;;
         if sched_priority r <? prio then up_reprioritize_rtr tcb (u8 prio) ;;; ret tt
         else
           b <-- sched_removereadytorun tcb ;;
           assert_ (negb b) ;;;
           set tcb (set_sched_priority (u8 prio)) ;;;
           b <-- sched_addreadytorun tcb ;;
           assert_ (negb b)
     | _ =>
         if snd (g_tasklisttable st) then
           l <-- list_of st ;;
           queue_op (dq_rem tcb) l ;;;
           set tcb (set_sched_priority (u8 prio)) ;;;
           sched_addprioritized tcb l ;;; ret tt
         else set tcb (set_sched_priority (u8 prio))
     end) ;;;
    ret OK.

Definition sched_yield : M kernel Z :=
  rtcb <-- head_of g_readytorun ;;
  t <-- get rtcb ;;
  sched_setpriority rtcb (sched_priority t).

Definition sched_process_timeslice : M kernel unit :=
  rtcb <-- head_of g_readytorun ;;
  t <-- get rtcb ;;
  when (negb (Z.land (flags t) TCB_FLAG_ROUND_ROBIN =? 0))
    (if timeslice t <=? 1 then
       when (lockcount t =? 0)
         (set rtcb (set_timeslice RR_TICKS) ;;;
          v <-- get_links rtcb ;;
          when (negb (flink v =? NULL))
            (n <-- get (flink v) ;;
             when (sched_priority t <=? sched_priority n)
               (up_reprioritize_rtr rtcb (sched_priority t) ;;; ret tt)))
     else set rtcb (set_timeslice (timeslice t - 1))).

End Sched.
