(* ===== verification/SchedRep.v ===== *)
(** * What the scheduler's data stand for

    The abstract scheduler has a list of tasks in place of each queue, one
    record of attributes for each task, and no task states, links or saved
    registers: the state of a task is the list it is in, and its context
    belongs to it whether it is in the registers or not.  [rep] relates the two;
    its parameter [cpu] is the task whose context is loaded, which is the head of
    the ready-to-run list except in the middle of a switch. *)

From stdpp Require Import functions.
From S2P Require Import Prelude Queue Sched.

Module SchedRep.
Import Dq.
Export Sched.
#[local] Open Scope cmd_scope.

(** ** The abstract scheduler *)

Record task : Type := mktask {
  prio : Z; rr : Z; lock : Z; slice : Z; wsem : Z; err : Z; ctx : Z
}.

Definition with_prio v a := mktask v (rr a) (lock a) (slice a) (wsem a) (err a) (ctx a).
Definition with_lock v a := mktask (prio a) (rr a) v (slice a) (wsem a) (err a) (ctx a).
Definition with_slice v a := mktask (prio a) (rr a) (lock a) v (wsem a) (err a) (ctx a).
Definition with_wsem v a := mktask (prio a) (rr a) (lock a) (slice a) v (err a) (ctx a).
Definition with_err v a := mktask (prio a) (rr a) (lock a) (slice a) (wsem a) v (ctx a).

Record abs : Type := mkabs {
  queued : tasklist → list Z;
  task_of : gmap Z task;
  count : gmap Z Z;
  irq : bool;
  irqerr : Z
}.

Definition upd_queued v A := mkabs v (task_of A) (count A) (irq A) (irqerr A).
Definition upd_tasks v A := mkabs (queued A) v (count A) (irq A) (irqerr A).
Definition upd_count v A := mkabs (queued A) (task_of A) v (irq A) (irqerr A).
Definition upd_irq v A := mkabs (queued A) (task_of A) (count A) v (irqerr A).
Definition upd_irqerr v A := mkabs (queued A) (task_of A) (count A) (irq A) v.

Definition ready (A : abs) : list Z := queued A g_readytorun.
Definition pending (A : abs) : list Z := queued A g_pendingtasks.
Definition running (A : abs) : Z := default NULL (ready A !! 0%nat).
Definition prio_of (A : abs) (t : Z) : Z := default 0 (prio <$> task_of A !! t).
Definition lock_of (A : abs) (t : Z) : Z := default 0 (lock <$> task_of A !! t).
Definition change (t : Z) (f : task → task) (A : abs) : abs := upd_tasks (alter f t (task_of A)) A.
Definition put (l : tasklist) (q : list Z) (A : abs) : abs := upd_queued (<[l := q]> (queued A)) A.

(** Into a list ordered by priority, behind the tasks of the same priority. *)
Fixpoint enqueue (p : Z → Z) (t : Z) (l : list Z) : list Z :=
  match l with
  | [] => [t]
  | x :: l => if p t <=? p x then x :: enqueue p t l else t :: x :: l
  end.

Definition enter (t : Z) (l : tasklist) (A : abs) : abs :=
  put l (enqueue (prio_of A) t (queued A l)) A.
Definition enter_last (t : Z) (l : tasklist) (A : abs) : abs := put l (queued A l ++ [t]) A.
Definition leave (t : Z) (l : tasklist) (A : abs) : abs := put l (filter (t ≠.) (queued A l)) A.

(** ** The state of a task *)

Definition all_lists : list tasklist :=
  [g_readytorun; g_pendingtasks; g_waitingforsemaphore; g_waitingforsignal;
   g_waitingformqnotempty; g_waitingformqnotfull; g_inactivetasks].

Definition wait_state (l : tasklist) : tstate :=
  match l with
  | g_readytorun => TSTATE_TASK_READYTORUN
  | g_pendingtasks => TSTATE_TASK_PENDING
  | g_waitingforsemaphore => TSTATE_WAIT_SEM
  | g_waitingforsignal => TSTATE_WAIT_SIG
  | g_waitingformqnotempty => TSTATE_WAIT_MQNOTEMPTY
  | g_waitingformqnotfull => TSTATE_WAIT_MQNOTFULL
  | g_inactivetasks => TSTATE_TASK_INACTIVE
  end.

Definition list_with (Q : tasklist → list Z) (t : Z) : option tasklist :=
  snd <$> list_find (λ l, t ∈ Q l) all_lists.

Definition state_of (Q : tasklist → list Z) (t : Z) : tstate :=
  match list_with Q t with
  | None => TSTATE_TASK_INVALID
  | Some l => if bool_decide (Q g_readytorun !! 0%nat = Some t) then TSTATE_TASK_RUNNING
              else wait_state l
  end.

(** No task is in two lists. *)
Definition disjoint_lists (Q : tasklist → list Z) : Prop :=
  ∀ l l' t, t ∈ Q l → t ∈ Q l' → l = l'.

Lemma all_lists_complete l : l ∈ all_lists.
Proof. destruct l; set_solver. Qed.

Lemma list_with_Some Q t l : disjoint_lists Q → t ∈ Q l → list_with Q t = Some l.
Proof.
  intros Hd Hl. unfold list_with. destruct (list_find _ _) as [[i l']|] eqn:E.
  - apply list_find_Some in E as (_ & E & _). simpl. f_equal. by eapply Hd.
  - apply list_find_None in E. rewrite Forall_forall in E. by destruct (E l (all_lists_complete l)).
Qed.

Lemma list_with_None Q t : (∀ l, t ∉ Q l) → list_with Q t = None.
Proof.
  intros H. unfold list_with. destruct (list_find _ _) as [[i l']|] eqn:E; [|done].
  apply list_find_Some in E as (_ & E & _). by destruct (H l').
Qed.

Lemma list_with_ext Q Q' t : (∀ l, t ∈ Q l ↔ t ∈ Q' l) → list_with Q t = list_with Q' t.
Proof. intros H. unfold list_with. f_equal. apply list_find_ext. done. Qed.

Lemma state_of_ext Q Q' t :
  (∀ l, t ∈ Q l ↔ t ∈ Q' l) → (Q g_readytorun !! 0%nat = Some t ↔ Q' g_readytorun !! 0%nat = Some t) →
  state_of Q t = state_of Q' t.
Proof.
  intros H H0. unfold state_of. rewrite (list_with_ext Q Q') by done.
  destruct (list_with Q' t); [|done]. by rewrite (bool_decide_ext _ _ H0).
Qed.

Lemma state_of_none Q t : (∀ l, t ∉ Q l) → state_of Q t = TSTATE_TASK_INVALID.
Proof. intros. unfold state_of. by rewrite list_with_None. Qed.

Lemma state_of_wait Q t l :
  disjoint_lists Q → t ∈ Q l → Q g_readytorun !! 0%nat ≠ Some t → state_of Q t = wait_state l.
Proof.
  intros Hd Hl H0. unfold state_of. rewrite (list_with_Some Q t l) by done.
  by rewrite bool_decide_false.
Qed.

Lemma state_of_running Q t :
  disjoint_lists Q → Q g_readytorun !! 0%nat = Some t → state_of Q t = TSTATE_TASK_RUNNING.
Proof.
  intros Hd H0. unfold state_of. rewrite (list_with_Some Q t g_readytorun), bool_decide_true; try done.
  by eapply list_elem_of_lookup_2.
Qed.

(** A blocked task is in the list of its state. *)
Lemma state_of_blocked Q t :
  disjoint_lists Q → in_blocked_states (state_of Q t) = true →
  ∃ l, t ∈ Q l ∧ state_of Q t = wait_state l ∧ fst (g_tasklisttable (state_of Q t)) = Some l
    ∧ l ≠ g_readytorun ∧ l ≠ g_pendingtasks.
Proof.
  intros Hd. unfold state_of, list_with. destruct (list_find _ _) as [[i l]|] eqn:E; [|done].
  apply list_find_Some in E as (_ & E & _). simpl. case_bool_decide; [done|].
  intros Hb. exists l. by destruct l.
Qed.

(** ** The representation *)

Definition as_tcb (st : tstate) (x : Z) (a : task) : tcb_s :=
  mktcb (prio a) st (rr a) (lock a) (slice a) (wsem a) (err a) x.

(** The context of task [t], whose save area holds [x]: the one loaded is in
    the registers, unless an interrupt has already switched to its save area. *)
Definition context_ok (cpu rg cur t x : Z) (a : task) : Prop :=
  if bool_decide (t = cpu ∧ cur ≠ cpu) then rg = ctx a else x = ctx a.

Definition queues_ok (m : Dq.links) (qs : tasklist → queue) (Q : tasklist → list Z) : Prop :=
  disjoint_lists Q ∧ ∀ l, dq_rep m (qs l) (Q l).

Definition tasks_ok (cpu rg cur : Z) (Q : tasklist → list Z) (T : gmap Z tcb_s) (N : gmap Z task) : Prop :=
  dom T = dom N ∧
  ∀ t a, N !! t = Some a → 0 < t ∧
    ∃ x, T !! t = Some (as_tcb (state_of Q t) x a) ∧ context_ok cpu rg cur t x a.

Record rep (cpu : Z) (k : kernel) (A : abs) : Prop := mkrep {
  rep_queues : queues_ok (links k) (lists k) (queued A);
  rep_tasks : tasks_ok cpu (regs k) (current_regs k) (queued A) (tcbs k) (task_of A);
  rep_links : dom (links k) = dom (tcbs k);
  rep_sems : sems k = count A;
  rep_irq : irq A = negb (current_regs k =? NULL);
  rep_cur : current_regs k = NULL ∨ current_regs k = FRAME ∨ current_regs k = cpu;
  rep_cpu : is_Some (task_of A !! cpu);
  rep_errno : g_irqerrno k = irqerr A
}.

(** *** Rules of the accesses *)

Section Access.
Context (k : kernel).

Lemma wp_on_links {A} (m : M Dq.links A) Q :
  wp (on_links m) Q k = wp m (λ a v, Q a (upd_links v k)) (links k).
Proof. unfold wp, on_links. by destruct (m (links k)) as [[a v]|]. Qed.

Lemma wp_on_tcbs {A} (m : M (gmap Z tcb_s) A) Q :
  wp (on_tcbs m) Q k = wp m (λ a v, Q a (upd_tcbs v k)) (tcbs k).
Proof. unfold wp, on_tcbs. by destruct (m (tcbs k)) as [[a v]|]. Qed.

Lemma wp_get_tcb t v Q : t ≠ NULL → tcbs k !! t = Some v → wp (get t) Q k = Q v k.
Proof. intros Ht E. unfold get. rewrite wp_on_tcbs, (wp_deref t v) by done. by destruct k. Qed.

Lemma wp_set_tcb t v f Q :
  t ≠ NULL → tcbs k !! t = Some v → wp (set t f) Q k = Q tt (upd_tcbs (<[t := f v]> (tcbs k)) k).
Proof. intros Ht E. unfold set. by rewrite wp_on_tcbs, (wp_assign t v). Qed.

Lemma wp_get_links t v Q : t ≠ NULL → links k !! t = Some v → wp (get_links t) Q k = Q v k.
Proof. intros Ht E. unfold get_links. rewrite wp_on_links, (wp_deref t v) by done. by destruct k. Qed.

Lemma wp_set_link t v f Q :
  t ≠ NULL → links k !! t = Some v →
  wp (set_link t f) Q k = Q tt (upd_links (<[t := f v]> (links k)) k).
Proof. intros Ht E. unfold set_link. by rewrite wp_on_links, (wp_assign t v). Qed.

Lemma wp_head_of l Q : wp (head_of l) Q k = Q (head (lists k l)) k.
Proof. done. Qed.

Lemma wp_tail_of l Q : wp (tail_of l) Q k = Q (tail (lists k l)) k.
Proof. done. Qed.

End Access.

(** *** Facts of a represented state *)

Section Facts.
Context {cpu : Z} {k : kernel} {A : abs} (R : rep cpu k A).

Lemma rep_task t a : task_of A !! t = Some a →
  t ≠ NULL ∧ ∃ x, tcbs k !! t = Some (as_tcb (state_of (queued A) t) x a)
    ∧ context_ok cpu (regs k) (current_regs k) t x a.
Proof. intros E. destruct (proj2 (rep_tasks _ _ _ R) t a E) as (? & x & ? & ?). unfold NULL. eauto with lia. Qed.

Lemma rep_member l t : t ∈ queued A l → ∃ a, task_of A !! t = Some a.
Proof.
  intros Ht. destruct (rep_queues _ _ _ R) as [_ H]. destruct (H l) as [_ Hs].
  destruct (seg_node _ _ _ _ _ _ _ t Hs Ht) as [v Hv].
  assert (t ∈ dom (task_of A)) as [a ?]%elem_of_dom; [|eauto].
  rewrite <- (proj1 (rep_tasks _ _ _ R)), <- (rep_links _ _ _ R). by apply elem_of_dom.
Qed.

Lemma rep_linked t a : task_of A !! t = Some a → ∃ v, links k !! t = Some v.
Proof.
  intros E. assert (t ∈ dom (links k)) as [v ?]%elem_of_dom; [|eauto].
  rewrite (rep_links _ _ _ R), (proj1 (rep_tasks _ _ _ R)). by apply elem_of_dom.
Qed.

Lemma rep_head l : head (lists k l) = default NULL (queued A l !! 0%nat).
Proof. destruct (rep_queues _ _ _ R) as [_ H]. destruct (H l) as [_ Hs]. by apply seg_head in Hs. Qed.

Lemma rep_running : head (lists k g_readytorun) = running A.
Proof. apply rep_head. Qed.

Lemma rep_nodup l : NoDup (queued A l).
Proof. destruct (rep_queues _ _ _ R) as [_ H]. by destruct (H l). Qed.

Lemma rep_disjoint : disjoint_lists (queued A).
Proof. by destruct (rep_queues _ _ _ R). Qed.

End Facts.

Lemma prio_of_task A t a : task_of A !! t = Some a → prio_of A t = prio a.
Proof. unfold prio_of. by intros ->. Qed.

Lemma lock_of_task A t a : task_of A !! t = Some a → lock_of A t = lock a.
Proof. unfold lock_of. by intros ->. Qed.

(** *** Retagging

    An operation that only moves tasks between lists changes the states of the
    TCBs as the lists say. *)

Lemma tasks_retag cpu rg cur Q Q' T T' N :
  tasks_ok cpu rg cur Q T N →
  (∀ t, T' !! t = (λ v, set_task_state (state_of Q' t) v) <$> T !! t) →
  tasks_ok cpu rg cur Q' T' N.
Proof.
  intros [D H] HT. split.
  - rewrite <- D. apply set_eq. intros t. rewrite !elem_of_dom, HT. by rewrite fmap_is_Some.
  - intros t a Ea. destruct (H t a Ea) as (Hp & x & Ex & Hc). split; [done|].
    exists x. rewrite HT, Ex. done.
Qed.

(** The states that a move leaves alone. *)
Lemma retag_same cpu rg cur Q T N t v :
  tasks_ok cpu rg cur Q T N → T !! t = Some v → set_task_state (state_of Q t) v = v.
Proof.
  intros [D H] Ev. assert (t ∈ dom N) as [a Ea]%elem_of_dom by (rewrite <- D; by apply elem_of_dom).
  destruct (H t a Ea) as (_ & x & Ex & _). rewrite Ev in Ex. injection Ex as ->. done.
Qed.

(** ** Ordered lists *)

Section Enqueue.
Context (p : Z → Z).
Implicit Types (t : Z) (l : list Z).

Lemma enqueue_split t l :
  ∃ l1 l2, l = l1 ++ l2 ∧ enqueue p t l = l1 ++ t :: l2 ∧ Forall (λ y, p t ≤ p y) l1
    ∧ (∀ y, l2 !! 0%nat = Some y → p y < p t).
Proof.
  induction l as [|x l (l1 & l2 & -> & E & H1 & H2)]; simpl.
  { exists [], []. by repeat constructor. }
  destruct (Z.leb_spec (p t) (p x)) as [Hx|Hx].
  - exists (x :: l1), l2. rewrite E. split_and!; [done|done|by constructor|done].
  - exists [], (x :: l1 ++ l2). split_and!; [done|done|by constructor|]. intros y [= <-]. done.
Qed.

Lemma enqueue_perm t l : enqueue p t l ≡ₚ t :: l.
Proof. destruct (enqueue_split t l) as (l1 & l2 & -> & -> & _). by rewrite Permutation_middle. Qed.

Lemma elem_of_enqueue t l x : x ∈ enqueue p t l ↔ x = t ∨ x ∈ l.
Proof. by rewrite enqueue_perm, elem_of_cons. Qed.

Lemma enqueue_app t l1 l2 :
  Forall (λ y, p t ≤ p y) l1 → enqueue p t (l1 ++ l2) = l1 ++ enqueue p t l2.
Proof.
  induction 1 as [|y l1 Hy _ IH]; [done|]. simpl. by rewrite (proj2 (Z.leb_le _ _) Hy), IH.
Qed.

Definition ordered l : Prop := StronglySorted (λ x y, p y ≤ p x) l.

Lemma enqueue_ordered t l : ordered l → ordered (enqueue p t l).
Proof.
  unfold ordered. induction 1 as [|x l Hs IH Hx]; simpl; [by repeat constructor|].
  destruct (Z.leb_spec (p t) (p x)).
  - constructor; [done|]. rewrite Forall_forall in Hx |- *. intros y [->|Hy]%elem_of_enqueue; auto.
  - constructor; [by constructor|]. constructor; [lia|].
    rewrite Forall_forall in Hx |- *. intros y Hy. specialize (Hx y Hy). lia.
Qed.

Lemma enqueue_head t x l :
  enqueue p t (x :: l) !! 0%nat = Some (if p t <=? p x then x else t).
Proof. simpl. by destruct (p t <=? p x). Qed.

End Enqueue.

(** ** Insertion into an ordered list *)

(** [k'] differs from [k] in the links and in one list. *)
Definition relinked (l : tasklist) (k k' : kernel) : Prop :=
  tcbs k' = tcbs k ∧ sems k' = sems k ∧ regs k' = regs k ∧ current_regs k' = current_regs k ∧
  g_irqerrno k' = g_irqerrno k ∧ ∀ l', l' ≠ l → lists k' l' = lists k l'.

Definition priorities (p : Z → Z) (k : kernel) (l : list Z) : Prop :=
  ∀ x, x ∈ l → ∃ v, tcbs k !! x = Some v ∧ sched_priority v = p x.

Lemma skip_higher_spec p k fuel pr b h l1 l2 e :
  seg fits (links k) b h (l1 ++ l2) e NULL → priorities p k (l1 ++ l2) →
  Forall (λ y, pr ≤ p y) l1 → (∀ y, l2 !! 0%nat = Some y → p y < pr) → (length l1 ≤ fuel)%nat →
  wp (skip_higher fuel pr h) (λ r k', k' = k ∧ r = default NULL (l2 !! 0%nat)) k.
Proof.
  revert fuel b h. induction l1 as [|x l1 IH]; intros fuel b h Hs Hp H1 H2 Hf.
  - destruct l2 as [|y l2]; simpl in Hs.
    + destruct Hs as [-> _]. by destruct fuel.
    + destruct Hs as (-> & Hy & _). specialize (H2 y eq_refl).
      destruct (Hp y) as (v & Ev & Epv); [set_solver|].
      assert (wp (skip_higher fuel pr y) (λ r k', k' = k ∧ r = y) k); [|done].
      unfold skip_higher. destruct fuel; fold skip_higher; rewrite (proj2 (Z.eqb_neq y NULL)), wp_bind, (wp_get_tcb _ y v) by done;
        (rewrite (proj2 (Z.leb_gt pr (sched_priority v))) by lia); done.
  - simpl in Hs. destruct Hs as (-> & Hx & nx & v & Ev & -> & Hs).
    apply Forall_cons in H1 as [Hpx H1].
    destruct (Hp x) as (w & Ew & Epw); [set_solver|].
    destruct fuel as [|fuel]; simpl in Hf; [lia|].
    simpl. rewrite (proj2 (Z.eqb_neq x NULL)), wp_bind, (wp_get_tcb _ x w) by done.
    rewrite (proj2 (Z.leb_le pr (sched_priority w))) by lia.
    erewrite wp_bind, wp_get_links by done. simpl.
    eapply IH; try done; [|lia]. intros y Hy. apply Hp. set_solver.
Qed.

Ltac link_step :=
  first
    [ rewrite wp_bind
    | rewrite wp_ret
    | rewrite wp_gets
    | rewrite wp_modify
    | rewrite wp_head_of
    | rewrite wp_tail_of
    | progress unfold set_head, set_tail, set_queue
    | erewrite wp_set_link; [|done|simpl; by simplify_map_eq]
    | erewrite wp_get_links; [|done|simpl; by simplify_map_eq] ].

(** A task linked in between [c] and [r]. *)
Lemma splice m m' q q' l1 l2 c r t :
  dq_rep m q (l1 ++ l2) → t ∉ l1 ++ l2 → t ≠ NULL →
  seg fits m NULL (head q) l1 c r → seg fits m c r l2 (tail q) NULL →
  m' !! t = Some (mklinks r c) →
  (c ≠ NULL → m' !! c = set_flink t <$> m !! c) →
  (r ≠ NULL → m' !! r = set_blink t <$> m !! r) →
  (∀ x, x ≠ t → x ≠ c → x ≠ r → m' !! x = m !! x) →
  q' = mkqueue (if c =? NULL then t else head q) (if r =? NULL then t else tail q) →
  dq_rep m' q' (l1 ++ t :: l2) ∧ (c =? NULL) = bool_decide ((l1 ++ t :: l2) !! 0%nat = Some t).
Proof.
  intros [Hd Hs] Ht Hn S1 S2 Et Ec Er Ex ->. split.
  - eapply link_rep; try done. apply NoDup_app in Hd as (Hd1 & Hd2 & Hd3).
    apply NoDup_app. split_and!; [done|set_solver|]. apply NoDup_cons_2; [set_solver|done].
  - destruct (meet _ _ _ _ _ _ _ S1 S2) as ([M1 M2] & _). destruct l1 as [|x l1]; simpl.
    + by rewrite M2, bool_decide_true.
    + rewrite bool_decide_false; [|set_solver]. apply Z.eqb_neq. intros E. by apply M1 in E.
Qed.

Ltac ksimpl :=
  cbn [upd_links upd_tcbs upd_lists upd_sems upd_regs upd_current_regs upd_irqerrno
       links tcbs lists sems regs current_regs g_irqerrno] in *.

Ltac list_simpl :=
  repeat first [rewrite fn_lookup_insert | rewrite fn_lookup_insert_ne by done].

(** The end of a case: the links and the list are as [splice] says. *)
Ltac spliced k l l1 l2 c r t :=
  repeat (link_step; ksimpl);
  let Hsp := fresh in let Hb := fresh in
  match goal with
  | |- relinked l k ?k' ∧ _ =>
      destruct (splice (links k) (links k') (lists k l) (lists k' l) l1 l2 c r t) as [Hsp Hb];
      ksimpl; [done|done|done|done|done|dq_lookup|dq_lookup|dq_lookup|dq_lookup| |]
  end;
  [list_simpl; simpl; try rewrite (proj2 (Z.eqb_neq c NULL)) by done;
   try rewrite (proj2 (Z.eqb_neq r NULL)) by done; try done|
   split_and!; [|done|repeat (apply only_insert; [|set_solver|eauto]); done|rewrite <- Hb; symmetry; first [done|by apply Z.eqb_neq]];
   split_and!; try done; intros; ksimpl; by list_simpl].

Lemma addprioritized_spec p k l L t :
  dq_rep (links k) (lists k l) L → priorities p k (t :: L) →
  t ∉ L → t ≠ NULL → is_Some (links k !! t) → SCHED_PRIORITY_MIN ≤ p t →
  wp (sched_addprioritized t l)
    (λ b k', relinked l k k' ∧ dq_rep (links k') (lists k' l) (enqueue p t L)
      ∧ only (t :: L) (links k) (links k') ∧ b = bool_decide (enqueue p t L !! 0%nat = Some t)) k.
Proof.
  intros Hr Hp Ht Hn [v Ev] Hmin. destruct (Hp t) as (w & Ew & Ep); [set_solver|].
  destruct (enqueue_split p t L) as (l1 & l2 & -> & El & H1 & H2). rewrite El.
  unfold sched_addprioritized. rewrite wp_bind, (wp_get_tcb _ t w), Ep by done.
  rewrite wp_bind, wp_assert by by apply Z.leb_le. do 4 link_step. rewrite wp_bind.
  destruct Hr as [Hd Hs]. eapply wp_mono.
  { eapply (skip_higher_spec p); [exact Hs| |done|done|].
    - intros x Hx. apply Hp. set_solver.
    - etrans; [|eapply (seg_length fits); [exact Hd|exact Hs]]. rewrite length_app. lia. }
  intros next k' [-> ->].
  destruct (dq_cut _ _ _ _ (conj Hd Hs)) as (c & r & S1 & S2 & Ec & Er & Fc & Fr).
  rewrite <- Er. destruct (meet _ _ _ _ _ _ _ S1 S2) as (Mc & Mr & Ic & Ir).
  assert (c ≠ NULL → c ∈ l1) as Jc by naive_solver.
  assert (r ≠ NULL → r ∈ l2) as Jr by naive_solver.
  assert (c ≠ NULL → c ≠ t ∧ c ≠ r) as Kc.
  { intros Nc. split; [set_solver|]. intros ->. apply NoDup_app in Hd as (_ & Hd & _). naive_solver. }
  assert (r ≠ NULL → r ≠ t) as Kr by set_solver.
  assert (only (t :: l1 ++ l2) (links k) (links k)) as Ho by done.
  assert (is_Some (links k !! t)) as Hv by eauto.
  destruct (Z.eqb_spec r NULL) as [->|Nr]; [|destruct (Fr Nr) as [n En]; specialize (Kr Nr); specialize (Jr Nr)].
  - assert (l2 = []) as -> by naive_solver. destruct S2 as [_ Et].
    do 2 link_step. rewrite Et. destruct (Z.eqb_spec c NULL) as [->|Nc].
    + spliced k l l1 (@nil Z) NULL NULL t.
    + destruct (Fc Nc) as [b Eb]. destruct (Kc Nc) as [Hct _]. specialize (Jc Nc).
      spliced k l l1 (@nil Z) c NULL t.
  - rewrite wp_bind. erewrite wp_get_links by done. cbn [blink].
    destruct (Z.eqb_spec c NULL) as [->|Nc].
    + spliced k l l1 l2 NULL r t.
    + destruct (Fc Nc) as [b Eb]. destruct (Kc Nc) as [Hct Hcr]. specialize (Jc Nc).
      spliced k l l1 l2 c r t. by destruct (lists k l).
Qed.

(** ** Moving a task

    One lemma for each way to change a list: the other lists are not touched,
    and the states of the TCBs follow the lists. *)

Lemma queues_move m m' qs qs' Q l q ns :
  queues_ok m qs Q → only ns m m' → (∀ l', l' ≠ l → qs' l' = qs l') → dq_rep m' (qs' l) q →
  (∀ x l', x ∈ ns ∨ x ∈ q → x ∈ Q l' → l' = l) →
  queues_ok m' qs' (<[l := q]> Q).
Proof.
  intros [Hd H] [Hns _] Hl Hq Hx. split.
  - intros l1 l2 x. destruct (decide (l = l1)) as [<-|N1], (decide (l = l2)) as [<-|N2];
      rewrite ?fn_lookup_insert, ?fn_lookup_insert_ne by done; [done|naive_solver..|apply Hd].
  - intros l'. destruct (decide (l = l')) as [<-|N]; [by rewrite fn_lookup_insert|].
    rewrite fn_lookup_insert_ne, Hl by done. destruct (H l') as [Hn Hs]. split; [done|].
    eapply seg_frame; [exact Hs|]. intros x Hx'. apply Hns. intros Hx''. destruct N. symmetry. eauto.
Qed.

Lemma retag_one cpu rg cur Q Q' T N t st v :
  tasks_ok cpu rg cur Q T N → T !! t = Some v → state_of Q' t = st →
  (∀ u, u ≠ t → state_of Q' u = state_of Q u) →
  tasks_ok cpu rg cur Q' (<[t := set_task_state st v]> T) N.
Proof.
  intros HT Ev Et Hu. eapply tasks_retag; [exact HT|]. intros u.
  destruct (decide (u = t)) as [->|Nu]; simplify_map_eq; [done|].
  destruct (T !! u) eqn:E; [|done]. simpl. rewrite Hu by done. f_equal.
  symmetry. by eapply retag_same.
Qed.

Lemma retag_two cpu rg cur Q Q' T N t st v t' st' v' :
  tasks_ok cpu rg cur Q T N → T !! t = Some v → T !! t' = Some v' → t ≠ t' →
  state_of Q' t = st → state_of Q' t' = st' →
  (∀ u, u ≠ t → u ≠ t' → state_of Q' u = state_of Q u) →
  tasks_ok cpu rg cur Q' (<[t := set_task_state st v]> (<[t' := set_task_state st' v']> T)) N.
Proof.
  intros HT Ev Ev' Ne Et Et' Hu. eapply tasks_retag; [exact HT|]. intros u.
  destruct (decide (u = t)) as [->|Nu]; simplify_map_eq; [done|].
  destruct (decide (u = t')) as [->|Nu']; simplify_map_eq; [done|].
  destruct (T !! u) eqn:E; [|done]. simpl. rewrite Hu by done. f_equal.
  symmetry. by eapply retag_same.
Qed.

(** Another state that represents the same tasks, except for their lists. *)
Lemma rep_lists cpu k k' A Q' :
  rep cpu k A → queues_ok (links k') (lists k') Q' →
  tasks_ok cpu (regs k') (current_regs k') Q' (tcbs k') (task_of A) →
  dom (links k') = dom (links k) → sems k' = sems k → regs k' = regs k →
  current_regs k' = current_regs k → g_irqerrno k' = g_irqerrno k →
  rep cpu k' (upd_queued Q' A).
Proof.
  intros R HQ HT HL Hs Hr Hc He. destruct R as [Q T L S I C P E]. split; simpl; try done; try congruence.
  rewrite HL, L. destruct T as [-> _]. by destruct HT as [-> _].
Qed.

Lemma wp_queue_op f l (Q : unit → kernel → Prop) k :
  wp (f (lists k l)) (λ q m, Q tt (upd_lists (<[l := q]> (lists k)) (upd_links m k))) (links k) →
  wp (queue_op f l) Q k.
Proof. intros H. unfold queue_op, set_queue. by rewrite wp_bind, wp_gets, wp_bind, wp_on_links. Qed.

Lemma insert_list_elem (Q : tasklist → list Z) l q (x : Z) :
  (x ∈ q ↔ x ∈ Q l) → ∀ l', x ∈ (<[l := q]> Q) l' ↔ x ∈ Q l'.
Proof.
  intros H l'. destruct (decide (l = l')) as [<-|N];
    by rewrite ?fn_lookup_insert, ?fn_lookup_insert_ne by done.
Qed.

(** [t] is out of every list when it has left the one it was in. *)
Lemma left_out (Q : tasklist → list Z) l q t :
  disjoint_lists Q → t ∈ Q l → t ∉ q → ∀ l', t ∉ (<[l := q]> Q) l'.
Proof.
  intros Hd Ht Hq l'. destruct (decide (l = l')) as [<-|N];
    rewrite ?fn_lookup_insert, ?fn_lookup_insert_ne by done; [done|]. intros H. by apply N, (Hd _ _ t).
Qed.

Ltac tasks_step :=
  first
    [ rewrite wp_bind | rewrite wp_ret | rewrite wp_gets | rewrite wp_modify
    | rewrite wp_head_of | rewrite wp_tail_of
    | erewrite wp_set_tcb; [|done|simpl; by simplify_map_eq]
    | erewrite wp_get_tcb; [|done|simpl; by simplify_map_eq] ].

(** Nothing but the links and the lists has changed. *)
Definition moved (k k' : kernel) : Prop :=
  dom (links k') = dom (links k) ∧ tcbs k' = tcbs k ∧ sems k' = sems k ∧ regs k' = regs k
  ∧ current_regs k' = current_regs k ∧ g_irqerrno k' = g_irqerrno k.

Lemma rem_queue cpu k A t l l1 l2 :
  rep cpu k A → queued A l = l1 ++ t :: l2 →
  ∀ k0, links k0 = links k → lists k0 = lists k →
  wp (queue_op (dq_rem t) l) (λ _ k',
    queues_ok (links k') (lists k') (<[l := l1 ++ l2]> (queued A)) ∧ moved k0 k') k0.
Proof.
  intros R El k0 E1 E2. pose proof (proj2 (rep_queues _ _ _ R) l) as Hq. rewrite El in Hq.
  apply wp_queue_op. rewrite E1, E2. eapply wp_mono; [by apply dq_rem_spec|].
  intros q m [Hq' Ho]. split; [ksimpl|split_and!; try done; ksimpl; rewrite E1; apply Ho].
  eapply queues_move; [exact (rep_queues _ _ _ R)|exact Ho| | |].
  - intros l' Nl. by list_simpl.
  - by list_simpl.
  - intros y l' Hy Hl'. eapply (rep_disjoint R); [done|]. rewrite El. set_solver.
Qed.

Lemma removereadytorun_spec cpu k A t l1 l2 :
  rep cpu k A → ready A = l1 ++ t :: l2 → (l1 = [] → l2 ≠ []) →
  wp (sched_removereadytorun t)
    (λ b k', b = bool_decide (l1 = []) ∧ rep cpu k' (leave t g_readytorun A)) k.
Proof.
  intros R El Hne. pose proof (proj2 (rep_queues _ _ _ R) g_readytorun) as Hq.
  unfold ready in El. pose proof (rep_nodup R g_readytorun) as Hnd. rewrite El in Hq, Hnd.
  destruct (dq_cut_node _ _ _ _ _ Hq) as (Hn & c & r & En & S1 & S2 & Ec & Er & Fc & Fr).
  destruct (rep_member R g_readytorun t) as [a Ea]; [rewrite El; set_solver|].
  destruct (rep_task R t a Ea) as (_ & x & Ex & _).
  assert (¬ (t ∈ l1) ∧ ¬ (t ∈ l2)) as [Nt1 Nt2].
  { apply NoDup_app in Hnd as (_ & Hd & [Hd' _]%NoDup_cons). set_solver. }
  assert (bool_decide (l1 = []) = (c =? NULL)) as Eb.
  { symmetry. destruct l1 as [|y l1' _] using rev_ind; [by subst|].
    rewrite bool_decide_false by by destruct l1'. rewrite last_snoc in Ec. simpl in Ec. subst c.
    apply Z.eqb_neq. intros ->. apply seg_nonnull in S1. set_solver. }
  pose proof (rem_queue cpu k A t g_readytorun l1 l2 R El) as Hrem.
  pose proof (rep_disjoint R) as Hdis.
  unfold sched_removereadytorun, leave, put. rewrite El, Sq.filter_ne_once by done.
  rewrite wp_bind. erewrite wp_get_links by done. cbn [blink flink]. rewrite <- Eb, wp_bind.
  destruct l1 as [|y l1].
  - rewrite bool_decide_true by done. destruct l2 as [|z l2]; [by destruct Hne|].
    simpl in Er. subst r.
    destruct (rep_member R g_readytorun z) as [az Eaz]; [rewrite El; set_solver|].
    destruct (rep_task R z az Eaz) as (Nz & xz & Exz & _).
    assert (z ≠ t) as Nzt by set_solver.
    cbn [when]. rewrite wp_bind, wp_assert by (by apply negb_true_iff, Z.eqb_neq).
    tasks_step. rewrite wp_bind. eapply wp_mono; [by apply Hrem|].
    intros _ k' (HQ & HD & HT & HS & HR & HC & HE). ksimpl.
    rewrite wp_bind. erewrite wp_set_tcb; [|done|rewrite HT; by simplify_map_eq]. tasks_step.
    split; [done|]. eapply rep_lists; ksimpl; try done.
    rewrite HR, HC, HT. eapply retag_two; [exact (rep_tasks _ _ _ R)|done..| | |].
    + apply state_of_none. eapply left_out; [done|rewrite El; set_solver|set_solver].
    + apply state_of_running; [apply HQ|]. by list_simpl.
    + intros u Nu Nu'. apply state_of_ext.
      * apply insert_list_elem. rewrite El. set_solver.
      * list_simpl. rewrite El. simpl. naive_solver.
  - rewrite bool_decide_false by done. cbn [when]. rewrite wp_ret.
    rewrite wp_bind. eapply wp_mono; [by apply Hrem|].
    intros _ k' (HQ & HD & HT & HS & HR & HC & HE).
    rewrite wp_bind. erewrite wp_set_tcb; [|done|by rewrite HT]. tasks_step.
    split; [done|]. eapply rep_lists; ksimpl; try done.
    rewrite HR, HC, HT. eapply retag_one; [exact (rep_tasks _ _ _ R)|done|..].
    + apply state_of_none. eapply left_out; [done|rewrite El; set_solver|set_solver].
    + intros u Nu. apply state_of_ext.
      * apply insert_list_elem. rewrite El. set_solver.
      * list_simpl. by rewrite El.
Qed.

Lemma add_queue cpu k A t a l :
  rep cpu k A → task_of A !! t = Some a → SCHED_PRIORITY_MIN ≤ prio a → (∀ l', t ∉ queued A l') →
  wp (sched_addprioritized t l) (λ b k',
    queues_ok (links k') (lists k') (queued (enter t l A)) ∧ moved k k'
    ∧ b = bool_decide (queued (enter t l A) l !! 0%nat = Some t)) k.
Proof.
  intros R Ea Hp Hout. destruct (rep_task R t a Ea) as (Nt & x & Ex & _).
  eapply wp_mono.
  { apply (addprioritized_spec (prio_of A) k l (queued A l)); [apply (rep_queues _ _ _ R)| |done|done| |].
    - assert (∀ u b, task_of A !! u = Some b → ∃ v, tcbs k !! u = Some v ∧ sched_priority v = prio_of A u) as H.
      { intros u b Eb. destruct (rep_task R u b Eb) as (_ & y & Ey & _). rewrite Ey.
        eexists; split; [done|]. by rewrite (prio_of_task A u b). }
      intros u [->|Hu]%elem_of_cons; [eauto|]. destruct (rep_member R l u Hu) as [b Eb]. eauto.
    - destruct (rep_linked R t a Ea) as [v ->]. eauto.
    - by rewrite (prio_of_task A t a). }
  intros b k' ((HT & HS & HR & HC & HE & HL) & Hq & Ho & ->). split_and!; try done.
  - eapply queues_move; [exact (rep_queues _ _ _ R)|exact Ho|done|done|].
    intros y l' Hy Hl'. eapply (rep_disjoint R); [done|].
    assert (y = t ∨ y ∈ queued A l) as [->|?]; [|by destruct (Hout l')|done].
    destruct Hy as [Hy|Hy]; [set_solver|by apply elem_of_enqueue in Hy].
  - split_and!; try done. apply Ho.
  - unfold enter. simpl. by rewrite fn_lookup_insert.
Qed.

(** *** [sched_addreadytorun] *)

(** Whether the preemption lock keeps [t] from running. *)
Definition delayed (t : Z) (A : abs) : bool :=
  negb (lock_of A (running A) =? 0) && (prio_of A (running A) <? prio_of A t).
Definition make_ready (t : Z) (A : abs) : abs :=
  if delayed t A then enter t g_pendingtasks A else enter t g_readytorun A.

(** A task that enters a list, other than as the first of the ready ones. *)
Lemma state_of_enter A t l u :
  disjoint_lists (queued (enter t l A)) → (∀ l', t ∉ queued A l') →
  (l = g_readytorun → ready A ≠ [] ∧ queued (enter t l A) l !! 0%nat ≠ Some t) →
  state_of (queued (enter t l A)) u = if decide (u = t) then wait_state l else state_of (queued A) u.
Proof.
  intros Hd Hout Hf. assert (queued (enter t l A) g_readytorun !! 0%nat = ready A !! 0%nat) as E0.
  { unfold enter. simpl. destruct (decide (l = g_readytorun)) as [->|N]; list_simpl; [|done].
    destruct (Hf eq_refl) as [Hne H0]. unfold ready in *. simpl in H0. rewrite fn_lookup_insert in H0.
    destruct (queued A g_readytorun) as [|h q]; [done|]. rewrite enqueue_head in H0 |- *.
    simpl. destruct (_ <=? _); [done|]. by destruct H0. }
  destruct (decide (u = t)) as [->|N].
  - apply state_of_wait; [done| |].
    + unfold enter. simpl. rewrite fn_lookup_insert. apply elem_of_enqueue. by left.
    + rewrite E0. intros E. apply list_elem_of_lookup_2 in E. by destruct (Hout g_readytorun).
  - apply state_of_ext; [|by rewrite E0]. apply insert_list_elem. rewrite elem_of_enqueue. naive_solver.
Qed.

(** The end of a move: the state of the task that entered the list, and of the
    one that was running when it is the first of the ready ones. *)
Lemma rep_enter cpu k k' A t v l :
  rep cpu k A → queues_ok (links k') (lists k') (queued (enter t l A)) → moved k k' →
  (∀ l', t ∉ queued A l') → tcbs k !! t = Some v →
  (l = g_readytorun → ready A ≠ [] ∧ queued (enter t l A) l !! 0%nat ≠ Some t) →
  rep cpu (upd_tcbs (<[t := set_task_state (wait_state l) v]> (tcbs k')) k') (enter t l A).
Proof.
  intros R HQ (HD & HT & HS & HR & HC & HE) Hout Ev Hl. eapply rep_lists; ksimpl; try done.
  rewrite HR, HC, HT. eapply retag_one; [exact (rep_tasks _ _ _ R)|done|..].
  - rewrite (state_of_enter A t l) by (done || apply HQ). by rewrite decide_True.
  - intros u Nu. rewrite (state_of_enter A t l) by (done || apply HQ). by rewrite decide_False.
Qed.

Lemma rep_enter_first cpu k k' A t v h w q :
  rep cpu k A → queues_ok (links k') (lists k') (queued (enter t g_readytorun A)) → moved k k' →
  tcbs k !! t = Some v → tcbs k !! h = Some w → h ≠ t →
  ready A = h :: q → ready (enter t g_readytorun A) = t :: h :: q →
  rep cpu (upd_tcbs (<[h := set_task_state TSTATE_TASK_READYTORUN w]>
      (<[t := set_task_state TSTATE_TASK_RUNNING v]> (tcbs k'))) k') (enter t g_readytorun A).
Proof.
  intros R HQ (HD & HT & HS & HR & HC & HE) Ev Ew Nht Er El. eapply rep_lists; ksimpl; try done.
  rewrite HR, HC, HT. unfold ready in Er, El.
  eapply (retag_two _ _ _ (queued A)); [exact (rep_tasks _ _ _ R)|done|done|done|..].
  - apply (state_of_wait (queued (enter t g_readytorun A)) h g_readytorun); [apply HQ| |];
      rewrite El; [set_solver|]. simpl. congruence.
  - apply (state_of_running (queued (enter t g_readytorun A))); [apply HQ|]. by rewrite El.
  - intros u Nu Nu'. apply (state_of_ext (queued (enter t g_readytorun A))).
    + apply insert_list_elem. rewrite elem_of_enqueue. naive_solver.
    + rewrite El, Er. simpl. naive_solver.
Qed.

Lemma addreadytorun_spec cpu k A t a :
  rep cpu k A → task_of A !! t = Some a → SCHED_PRIORITY_MIN ≤ prio a → (∀ l', t ∉ queued A l') →
  ready A ≠ [] →
  wp (sched_addreadytorun t)
    (λ b k', b = bool_decide (running (make_ready t A) = t) ∧ rep cpu k' (make_ready t A)) k.
Proof.
  intros R Ea Hp Hout Hne. destruct (rep_task R t a Ea) as (Nt & x & Ex & _).
  destruct (ready A) as [|h q] eqn:Er; [done|].
  assert (running A = h) as Eh by (unfold running; by rewrite Er).
  destruct (rep_member R g_readytorun h) as [b Eb]; [unfold ready in Er; rewrite Er; set_solver|].
  destruct (rep_task R h b Eb) as (Nh & y & Ey & _).
  assert (h ≠ t) as Nht. { intros ->. apply (Hout g_readytorun). unfold ready in Er. rewrite Er. set_solver. }
  pose proof (prio_of_task A h b Eb) as Ph. pose proof (prio_of_task A t a Ea) as Pt.
  unfold sched_addreadytorun. rewrite wp_bind, wp_head_of, (rep_running R), Eh.
  do 4 tasks_step. unfold make_ready, delayed. rewrite Eh, (lock_of_task A h b), Ph, Pt by done.
  cbn [lockcount sched_priority as_tcb].
  assert (ready (enter t g_readytorun A) = enqueue (prio_of A) t (h :: q)) as Een.
  { unfold enter, ready. simpl. rewrite fn_lookup_insert. unfold ready in Er. by rewrite Er. }
  destruct (negb (lock b =? 0) && (prio b <? prio a)) eqn:Ec;
    rewrite wp_bind; (eapply wp_mono; [by eapply add_queue|]); intros bb k' (HQ & Hm & Ebb);
    pose proof Hm as (_ & HT & _).
  - rewrite wp_bind. erewrite wp_set_tcb; [|done|by rewrite HT]. tasks_step. split.
    + symmetry. apply bool_decide_eq_false. unfold running, ready. simpl. list_simpl.
      unfold ready in Er. by rewrite Er.
    + by apply (rep_enter cpu k k' A t _ g_pendingtasks).
  - change (queued (enter t g_readytorun A) g_readytorun) with (ready (enter t g_readytorun A)) in Ebb.
    unfold running. rewrite Een in Ebb |- *. rewrite enqueue_head, Ph, Pt in Ebb |- *. simpl. subst bb.
    destruct (Z.leb_spec (prio a) (prio b)) as [Hab|Hab].
    + rewrite !bool_decide_false by congruence.
      rewrite wp_bind. erewrite wp_set_tcb; [|done|by rewrite HT]. tasks_step. split; [done|].
      apply (rep_enter cpu k k' A t _ g_readytorun); try done. intros _. split; [congruence|].
      change (ready (enter t g_readytorun A) !! 0%nat ≠ Some t).
      rewrite Een, enqueue_head, Ph, Pt, (proj2 (Z.leb_le _ _)) by done. congruence.
    + rewrite !bool_decide_true by done.
      assert (enqueue (prio_of A) t (h :: q) = t :: h :: q) as Een'.
      { simpl. by rewrite Ph, Pt, (proj2 (Z.leb_gt _ _)). }
      rewrite Een' in Een.
      assert (lock b = 0) as Elock.
      { apply andb_false_iff in Ec as [Ec|Ec]; zify_bools; [done|lia]. }
      pose proof (proj2 HQ g_readytorun) as Hq. change (dq_rep (links k') (lists k' g_readytorun) (ready (enter t g_readytorun A))) in Hq. rewrite Een in Hq.
      destruct (dq_cut_node _ _ [] _ _ Hq) as (_ & c & r & Elt & _ & _ & _ & Er' & _).
      simpl in Er'. subst r.
      rewrite wp_bind. erewrite wp_get_tcb; [|done|by rewrite HT]. cbn [lockcount as_tcb].
      rewrite wp_bind. erewrite wp_get_links by done. cbn [flink].
      rewrite wp_bind, wp_assert; [|by rewrite Elock, (proj2 (Z.eqb_neq h NULL))].
      rewrite wp_bind. erewrite wp_set_tcb; [|done|by rewrite HT].
      rewrite wp_bind. erewrite wp_get_links by done. cbn [flink].
      rewrite wp_bind. erewrite wp_set_tcb; [|done|ksimpl; rewrite HT, lookup_insert_ne by done; exact Ey].
      tasks_step. split; [done|]. exact (rep_enter_first cpu k k' A t _ h _ q R HQ Hm Ex Ey Nht Er Een).
Qed.

(** *** Blocked tasks *)

Definition prioritized (l : tasklist) : bool := snd (g_tasklisttable (wait_state l)).

(** The list of a blocked state. *)
Definition blocked_list (l : tasklist) : bool := in_blocked_states (wait_state l).

Definition enter_blocked (t : Z) (l : tasklist) (A : abs) : abs :=
  if prioritized l then enter t l A else enter_last t l A.

Lemma state_of_enter_last A t l u :
  disjoint_lists (queued (enter_last t l A)) → (∀ l', t ∉ queued A l') → l ≠ g_readytorun →
  state_of (queued (enter_last t l A)) u = if decide (u = t) then wait_state l else state_of (queued A) u.
Proof.
  intros Hd Hout Hl. assert (queued (enter_last t l A) g_readytorun = queued A g_readytorun) as E0.
  { unfold enter_last. simpl. by list_simpl. }
  destruct (decide (u = t)) as [->|N].
  - apply state_of_wait; [done| |].
    + unfold enter_last. simpl. rewrite fn_lookup_insert. set_solver.
    + rewrite E0. intros E. apply list_elem_of_lookup_2 in E. by destruct (Hout g_readytorun).
  - apply state_of_ext; [|by rewrite E0]. apply insert_list_elem. set_solver.
Qed.

Lemma addlast_queue cpu k A t a l :
  rep cpu k A → task_of A !! t = Some a → (∀ l', t ∉ queued A l') →
  wp (queue_op (dq_addlast t) l) (λ _ k',
    queues_ok (links k') (lists k') (queued (enter_last t l A)) ∧ moved k k') k.
Proof.
  intros R Ea Hout. destruct (rep_task R t a Ea) as (Nt & _).
  apply wp_queue_op. eapply wp_mono.
  { apply dq_addlast_spec; [apply (rep_queues _ _ _ R)|apply Hout|done|].
    destruct (rep_linked R t a Ea) as [v ->]. eauto. }
  intros q m [Hq Ho]. split; [ksimpl|split_and!; try done; apply Ho].
  eapply queues_move; [exact (rep_queues _ _ _ R)|exact Ho| | |].
  - intros l' Nl. by list_simpl.
  - by list_simpl.
  - intros y l' Hy Hl'. eapply (rep_disjoint R); [done|].
    assert (y = t ∨ y ∈ queued A l) as [->|?] by set_solver; [by destruct (Hout l')|done].
Qed.

Lemma addblocked_spec cpu k A t a l :
  rep cpu k A → task_of A !! t = Some a → SCHED_PRIORITY_MIN ≤ prio a → (∀ l', t ∉ queued A l') →
  blocked_list l = true →
  wp (sched_addblocked t (wait_state l)) (λ _ k', rep cpu k' (enter_blocked t l A)) k.
Proof.
  intros R Ea Hp Hout Hl. destruct (rep_task R t a Ea) as (Nt & x & Ex & _).
  assert (l ≠ g_readytorun) as Nl by by intros ->.
  unfold sched_addblocked, enter_blocked, prioritized. rewrite wp_bind, wp_assert by done.
  assert (fst (g_tasklisttable (wait_state l)) = Some l) as El by by destruct l.
  unfold list_of. rewrite El, wp_bind, wp_ret, wp_bind.
  destruct (snd (g_tasklisttable (wait_state l))).
  - rewrite wp_bind. eapply wp_mono; [by eapply add_queue|].
    intros bb k' (HQ & Hm & _). pose proof Hm as (_ & HT & _). rewrite wp_ret.
    erewrite wp_set_tcb; [|done|by rewrite HT]. by apply (rep_enter cpu k k').
  - eapply wp_mono; [by eapply addlast_queue|].
    intros bb k' (HQ & Hm). destruct Hm as (HD & HT & HS & HR & HC & HE).
    erewrite wp_set_tcb; [|done|by rewrite HT]. eapply rep_lists; ksimpl; try done.
    rewrite HR, HC, HT. eapply retag_one; [exact (rep_tasks _ _ _ R)|done|..].
    + rewrite (state_of_enter_last A t l) by (done || apply HQ). by rewrite decide_True.
    + intros u Nu. rewrite (state_of_enter_last A t l) by (done || apply HQ). by rewrite decide_False.
Qed.

Lemma removeblocked_spec cpu k A t l :
  rep cpu k A → t ∈ queued A l → blocked_list l = true →
  wp (sched_removeblocked t) (λ _ k', rep cpu k' (leave t l A)) k.
Proof.
  intros R Ht Hl. destruct (rep_member R l t Ht) as [a Ea].
  destruct (rep_task R t a Ea) as (Nt & x & Ex & _).
  assert (l ≠ g_readytorun) as Nl by by intros ->. pose proof (rep_disjoint R) as Hd.
  assert (state_of (queued A) t = wait_state l) as Est.
  { apply state_of_wait; [done|done|]. intros E%list_elem_of_lookup_2. by apply Nl, (Hd _ _ t). }
  apply list_elem_of_split in Ht as (l1 & l2 & El).
  pose proof (rep_nodup R l) as Hnd. rewrite El in Hnd.
  unfold sched_removeblocked, leave, put. rewrite El, Sq.filter_ne_once by done.
  rewrite wp_bind. erewrite wp_get_tcb by done. cbn [task_state as_tcb]. rewrite Est.
  rewrite wp_bind, wp_assert by done.
  assert (fst (g_tasklisttable (wait_state l)) = Some l) as Ef by by destruct l.
  unfold list_of. rewrite Ef, wp_bind, wp_ret, wp_bind.
  eapply wp_mono; [by apply (rem_queue cpu k A t l l1 l2)|].
  intros _ k' (HQ & HD & HT & HS & HR & HC & HE).
  erewrite wp_set_tcb; [|done|by rewrite HT]. eapply rep_lists; ksimpl; try done.
  rewrite HR, HC, HT. eapply retag_one; [exact (rep_tasks _ _ _ R)|done|..].
  - apply state_of_none. eapply left_out; [done|rewrite El; set_solver|].
    apply NoDup_app in Hnd as (_ & H1 & [H2 _]%NoDup_cons). set_solver.
  - intros u Nu. apply state_of_ext; [|by list_simpl]. apply insert_list_elem. rewrite El. set_solver.
Qed.

(** *** [sched_mergepending] *)

Definition merge (A : abs) : abs :=
  put g_pendingtasks []
    (put g_readytorun (foldl (λ q t, enqueue (prio_of A) t q) (ready A) (pending A)) A).

(** One task from the pending list to the ready one. *)
Definition merge_one (t : Z) (P : list Z) (A : abs) : abs :=
  put g_pendingtasks P (put g_readytorun (enqueue (prio_of A) t (ready A)) A).

(** In the middle of the merge: the tasks that are left are a chain from
    [pnd] on, and the other lists are whole. *)
Record merging (cpu : Z) (k : kernel) (A : abs) (pnd : Z) : Prop := mkmerging {
  mg_disjoint : disjoint_lists (queued A);
  mg_queues : ∀ l, l ≠ g_pendingtasks → dq_rep (links k) (lists k l) (queued A l);
  mg_rest : NoDup (pending A) ∧ ∃ b e, seg fits (links k) b pnd (pending A) e NULL;
  mg_tasks : tasks_ok cpu (regs k) (current_regs k) (queued A) (tcbs k) (task_of A);
  mg_links : dom (links k) = dom (tcbs k)
}.

Lemma rep_merging cpu k A :
  rep cpu k A → merging cpu k A (head (lists k g_pendingtasks)).
Proof.
  intros R. destruct (rep_queues _ _ _ R) as [Hd Hq]. split; [done|by intros l _|..].
  - destruct (Hq g_pendingtasks) as [Hn Hs]. split; [done|]. by exists NULL, (tail (lists k g_pendingtasks)).
  - apply (rep_tasks _ _ _ R).
  - apply (rep_links _ _ _ R).
Qed.

Lemma merging_task cpu k A pnd l t :
  merging cpu k A pnd → t ∈ queued A l →
  t ≠ NULL ∧ ∃ a x, task_of A !! t = Some a ∧ tcbs k !! t = Some (as_tcb (state_of (queued A) t) x a).
Proof.
  intros [Hd Hq [_ (b & e & Hs)] [D HT] HL] Ht.
  assert (is_Some (links k !! t)) as Hv%elem_of_dom.
  { destruct (decide (l = g_pendingtasks)) as [->|N]; [by eapply seg_node|].
    destruct (Hq l N) as [_ Hs']. by eapply seg_node. }
  rewrite HL, D in Hv. apply elem_of_dom in Hv as [a Ea].
  destruct (HT t a Ea) as (H0 & x & Ex & _). split; [unfold NULL; lia|]. eauto.
Qed.

Lemma merging_priorities cpu k A pnd l :
  merging cpu k A pnd → priorities (prio_of A) k (queued A l).
Proof.
  intros Hm t Ht. destruct (merging_task _ _ _ _ _ _ Hm Ht) as (_ & a & x & Ea & Ex).
  eexists. split; [exact Ex|]. by rewrite (prio_of_task A t a).
Qed.

(** What the loop body has done to the links. *)
Lemma merge_one_queues cpu k A t P l1 l2 c y m' qs' b e :
  merging cpu k A t → pending A = t :: P → ready A = l1 ++ y :: l2 →
  enqueue (prio_of A) t (ready A) = l1 ++ t :: y :: l2 →
  seg fits (links k) b t (t :: P) e NULL →
  c = default NULL (last l1) →
  m' !! t = Some (mklinks y c) →
  (c ≠ NULL → m' !! c = set_flink t <$> links k !! c) →
  m' !! y = set_blink t <$> links k !! y →
  (∀ x, x ≠ t → x ≠ c → x ≠ y → m' !! x = links k !! x) →
  qs' g_readytorun = mkqueue (if c =? NULL then t else head (lists k g_readytorun)) (tail (lists k g_readytorun)) →
  (∀ l, l ≠ g_readytorun → qs' l = lists k l) →
  disjoint_lists (queued (merge_one t P A))
  ∧ (∀ l, l ≠ g_pendingtasks → dq_rep m' (qs' l) (queued (merge_one t P A) l))
  ∧ NoDup P ∧ ∃ nx, links k !! t = Some (mklinks nx b) ∧ seg fits m' t nx P e NULL.
Proof.
  intros Hm EP ER Een Hs Ec Et Fc Fy Fx Eq Eqs.
  destruct Hm as [Hd Hq [Hn _] HT HL]. unfold pending, ready in *. rewrite EP in Hn.
  apply NoDup_cons in Hn as [HtP HnP].
  pose proof (Hq g_readytorun ltac:(done)) as Hr. rewrite ER in Hr.
  destruct (dq_cut _ _ _ _ Hr) as (c' & r & S1 & S2 & Ec' & Er & _).
  simpl in Er. subst r. assert (c' = c) as -> by congruence.
  assert (t ∉ l1 ++ y :: l2) as Htr.
  { rewrite <- ER. intros H. assert (g_readytorun = g_pendingtasks); [|done].
    apply (Hd _ _ t); [done|]. rewrite EP. set_solver. }
  assert (y ≠ NULL) as Ny. { pose proof (proj2 Hr) as Hs'. apply seg_nonnull in Hs'. set_solver. }
  assert (t ≠ NULL) as Nt by (apply seg_nonnull in Hs; set_solver).
  assert (c ≠ NULL → c ∈ queued A g_readytorun) as Jc.
  { intros Nc. rewrite ER. destruct (last l1) as [z|] eqn:El; simpl in Ec; [|done].
    apply last_Some_elem_of in El. set_solver. }
  assert (y ∈ queued A g_readytorun) as Jy by (rewrite ER; set_solver).
  assert (∀ x l, l ≠ g_readytorun → x ∈ queued A l → x ≠ t → m' !! x = links k !! x) as Fother.
  { intros x l Nl Hx Nx. apply Fx; [done| |].
    - intros ->. destruct (decide (c = NULL)) as [->|Nc]; [|apply Nl, (Hd _ _ c); auto].
      destruct (decide (l = g_pendingtasks)) as [->|Np].
      + rewrite EP in Hx. apply seg_nonnull in Hs. done.
      + destruct (Hq l Np) as [_ Hs']. apply seg_nonnull in Hs'. done.
    - intros ->. apply Nl, (Hd _ _ y); auto. }
  assert (queued (merge_one t P A) g_pendingtasks = P) as EP' by done.
  assert (queued (merge_one t P A) g_readytorun = l1 ++ t :: y :: l2) as ER'.
  { rewrite <- Een. done. }
  assert (∀ l, l ≠ g_pendingtasks → l ≠ g_readytorun → queued (merge_one t P A) l = queued A l) as EO.
  { intros l N1 N2. unfold merge_one, put. simpl. by list_simpl. }
  split_and!; [| |done|].
  - assert (∀ l x, x ∈ queued (merge_one t P A) l →
      if decide (x = t) then l = g_readytorun else x ∈ queued A l) as Hin.
    { intros l x Hx. destruct (decide (l = g_pendingtasks)) as [->|N1];
        [|destruct (decide (l = g_readytorun)) as [->|N2]].
      - rewrite EP' in Hx. destruct (decide (x = t)) as [->|]; [done|]. rewrite EP. set_solver.
      - rewrite ER' in Hx. destruct (decide (x = t)) as [->|]; [done|]. rewrite ER. set_solver.
      - rewrite EO in Hx by done. destruct (decide (x = t)) as [->|]; [|done].
        destruct N1. apply (Hd _ _ t); [done|]. rewrite EP. set_solver. }
    intros l l' x Hx%Hin Hx'%Hin. destruct (decide (x = t)); [congruence|by apply (Hd _ _ x)].
  - intros l N1. destruct (decide (l = g_readytorun)) as [->|N2].
    + rewrite ER'. eapply (splice (links k)); try done. rewrite Eq.
      by rewrite (proj2 (Z.eqb_neq y NULL)).
    + rewrite EO, Eqs by done. destruct (Hq l N1) as [Hn' Hs']. split; [done|].
      eapply seg_frame; [exact Hs'|]. intros x Hx. apply (Fother x l); [done|done|].
      intros ->. apply N1, (Hd _ _ t); [done|]. rewrite EP. set_solver.
  - simpl in Hs. destruct Hs as (_ & _ & nx & v & Ev & -> & Hs). exists nx. split; [done|].
    eapply seg_frame; [exact Hs|]. intros x Hx. apply (Fother x g_pendingtasks); [done| |set_solver].
    rewrite EP. set_solver.
Qed.

Definition steady (k k' : kernel) : Prop :=
  sems k' = sems k ∧ regs k' = regs k ∧ current_regs k' = current_regs k ∧ g_irqerrno k' = g_irqerrno k
  ∧ dom (links k') = dom (links k) ∧ ∀ l, l ≠ g_readytorun → lists k' l = lists k l.

Ltac merge_links :=
  repeat first
    [ rewrite wp_bind
    | rewrite wp_ret
    | rewrite wp_gets
    | rewrite wp_modify
    | progress unfold set_head, set_tail, set_queue
    | erewrite wp_set_link; [|done|ksimpl; by simplify_map_eq]
    | erewrite wp_set_tcb; [|done|ksimpl; by simplify_map_eq]
    | progress ksimpl ].

(** The states after one step. *)
Lemma merge_one_tasks cpu rg cur A t P T v :
  tasks_ok cpu rg cur (queued A) T (task_of A) → disjoint_lists (queued (merge_one t P A)) →
  pending A = t :: P → t ∉ P → T !! t = Some v → ready A ≠ [] → t ∉ ready A →
  ready (merge_one t P A) !! 0%nat = ready A !! 0%nat →
  tasks_ok cpu rg cur (queued (merge_one t P A))
    (<[t := set_task_state TSTATE_TASK_READYTORUN v]> T) (task_of A).
Proof.
  intros HT Hd EP HtP Ev Hne HtR E0. eapply retag_one; [done|done|..].
  - apply (state_of_wait _ t g_readytorun); [done|apply elem_of_enqueue; by left|].
    change (ready (merge_one t P A) !! 0%nat ≠ Some t). rewrite E0. intros E.
    by apply list_elem_of_lookup_2 in E.
  - intros u Nu. apply state_of_ext.
    + intros l. unfold merge_one, put. simpl. unfold ready, pending in *.
      destruct (decide (l = g_pendingtasks)) as [->|N1]; list_simpl; [rewrite EP; set_solver|].
      destruct (decide (l = g_readytorun)) as [->|N2]; list_simpl; [|done].
      rewrite elem_of_enqueue. naive_solver.
    + change (ready (merge_one t P A) !! 0%nat = Some u ↔ ready A !! 0%nat = Some u). by rewrite E0.
Qed.

Lemma merge_one_tasks_first cpu rg cur A t P T v y w q :
  tasks_ok cpu rg cur (queued A) T (task_of A) → disjoint_lists (queued (merge_one t P A)) →
  pending A = t :: P → t ∉ P → T !! t = Some v → T !! y = Some w → ready A = y :: q → t ∉ ready A →
  ready (merge_one t P A) = t :: y :: q →
  tasks_ok cpu rg cur (queued (merge_one t P A))
    (<[t := set_task_state TSTATE_TASK_RUNNING v]> (<[y := set_task_state TSTATE_TASK_READYTORUN w]> T))
    (task_of A).
Proof.
  intros HT Hd EP HtP Ev Ew ER HtR ER'. assert (t ≠ y) as Nty by (rewrite ER in HtR; set_solver).
  unfold ready in ER, ER', HtR. eapply retag_two; [done..| | |].
  - apply state_of_running; [done|]. by rewrite ER'.
  - apply (state_of_wait _ y g_readytorun); [done|rewrite ER'; set_solver|rewrite ER'; simpl; congruence].
  - intros u Nu Nu'. apply state_of_ext.
    + intros l. destruct (decide (l = g_pendingtasks)) as [->|N1];
        [|destruct (decide (l = g_readytorun)) as [->|N2]].
      * unfold pending in EP. rewrite EP. simpl. set_solver.
      * rewrite ER', ER. set_solver.
      * unfold merge_one, put. simpl. by list_simpl.
    + rewrite ER', ER. simpl. naive_solver.
Qed.

Ltac dom_inserts :=
  repeat (rewrite dom_insert_lookup_L; [|simpl; by simplify_map_eq]); try done.

(** The insertion of the pending task [t] before the ready task [y]. *)
Section Insert.
Context (cpu : Z) (k : kernel) (A : abs) (t y : Z) (P l1 l2 : list Z) (nx b e : Z).
Context (Hm : merging cpu k A t) (EP : pending A = t :: P) (ER : ready A = l1 ++ y :: l2)
  (Een : enqueue (prio_of A) t (ready A) = l1 ++ t :: y :: l2)
  (Hs : seg fits (links k) b t (t :: P) e NULL) (Ev : links k !! t = Some (mklinks nx b)).

Let inserted (k' : kernel) : Prop := merging cpu k' (merge_one t P A) nx ∧ steady k k'.

Lemma insert_fresh : ¬ (t ∈ ready A) ∧ ¬ (t ∈ P).
Proof.
  destruct (mg_rest _ _ _ _ Hm) as [HnP _]. rewrite EP in HnP. apply NoDup_cons in HnP as [HtP _].
  split; [|done]. intros H. assert (g_readytorun = g_pendingtasks); [|done].
  apply (mg_disjoint _ _ _ _ Hm _ _ t); [done|]. change (t ∈ pending A). rewrite EP. left.
Qed.

Lemma insert_distinct u : u ∈ ready A → u ≠ t.
Proof. intros H ->. by apply (proj1 insert_fresh). Qed.

Lemma insert_member : y ∈ ready A.
Proof. rewrite ER. apply elem_of_app. right. left. Qed.

Lemma insert_queues m' qs' c :
  c = default NULL (last l1) → m' !! t = Some (mklinks y c) →
  (c ≠ NULL → m' !! c = set_flink t <$> links k !! c) → m' !! y = set_blink t <$> links k !! y →
  (∀ x, x ≠ t → x ≠ c → x ≠ y → m' !! x = links k !! x) →
  qs' g_readytorun = mkqueue (if c =? NULL then t else head (lists k g_readytorun)) (tail (lists k g_readytorun)) →
  (∀ l, l ≠ g_readytorun → qs' l = lists k l) →
  disjoint_lists (queued (merge_one t P A))
  ∧ (∀ l, l ≠ g_pendingtasks → dq_rep m' (qs' l) (queued (merge_one t P A) l))
  ∧ NoDup P ∧ ∃ b' e', seg fits m' b' nx P e' NULL.
Proof.
  intros Ec Et Fc Fy Fx Eq Eqs.
  destruct (merge_one_queues cpu k A t P l1 l2 c y m' qs' b e) as (D & Q & N & nx' & E' & S); try done.
  rewrite Ev in E'. injection E' as <-. eauto 10.
Qed.

Lemma insert_first ly (Q : bool → kernel → Prop) :
  l1 = [] → links k !! y = Some ly → (∀ k', inserted k' → Q true k') →
  wp (set_link t (set_flink y) ;;;
      set_link t (set_blink NULL) ;;;
      set_link y (set_blink t) ;;;
      set_head g_readytorun t ;;;
      set y (set_task_state TSTATE_TASK_READYTORUN) ;;;
      set t (set_task_state TSTATE_TASK_RUNNING) ;;;
      ret true) Q k.
Proof.
  intros E1 Ey HQ. destruct insert_fresh as [HtR HtP].
  pose proof (insert_distinct y insert_member) as Nyt.
  destruct (merging_task _ _ _ _ g_pendingtasks t Hm) as (Nt & a & x & Ea & Ex).
  { change (t ∈ pending A). rewrite EP. left. }
  destruct (merging_task _ _ _ _ g_readytorun y Hm insert_member) as (Ny & ay & xy & Eay & Exy).
  pose proof (insert_queues) as HI. rewrite E1 in *. rewrite app_nil_l in ER, Een.
  merge_links. apply HQ. match goal with |- inserted ?k1 => set (k' := k1) end.
  destruct (HI (links k') (lists k') NULL) as (D' & Q' & N' & b' & e' & S'); try done; try (simpl; dq_lookup);
    [by intros; simpl; list_simpl|].
  split; [split; try done; [eauto| |]|].
  - exact (merge_one_tasks_first cpu _ _ A t P _ _ y _ l2 (mg_tasks _ _ _ _ Hm) D' EP HtP Ex Exy ER HtR Een).
  - simpl. dom_inserts. apply (mg_links _ _ _ _ Hm).
  - split_and!; try done; [simpl; dom_inserts|]. intros l Nl. simpl. by list_simpl.
Qed.

Lemma insert_behind r c ly lc (Q : bool → kernel → Prop) :
  c = default NULL (last l1) → c ≠ NULL → links k !! y = Some ly → links k !! c = Some lc → c ≠ y →
  (∀ k', inserted k' → Q r k') →
  wp (set_link t (set_flink y) ;;;
      set_link t (set_blink c) ;;;
      set_link c (set_flink t) ;;;
      set_link y (set_blink t) ;;;
      set t (set_task_state TSTATE_TASK_READYTORUN) ;;;
      ret r) Q k.
Proof.
  intros Ec Nc Ey Elc Ncy HQ. destruct insert_fresh as [HtR HtP].
  pose proof (insert_distinct y insert_member) as Nyt.
  assert (c ∈ l1) as Ic.
  { destruct (last l1) as [u|] eqn:Eu; simpl in Ec; [|done]. subst u. by apply last_Some_elem_of in Eu. }
  assert (c ≠ t) as Nct by (apply insert_distinct; rewrite ER; apply elem_of_app; by left).
  destruct (merging_task _ _ _ _ g_pendingtasks t Hm) as (Nt & a & x & Ea & Ex).
  { change (t ∈ pending A). rewrite EP. left. }
  destruct (merging_task _ _ _ _ g_readytorun y Hm insert_member) as (Ny & _).
  merge_links. apply HQ. match goal with |- inserted ?k1 => set (k' := k1) end.
  destruct (insert_queues (links k') (lists k') c) as (D' & Q' & N' & b' & e' & S'); try done; try (simpl; dq_lookup);
    [simpl; rewrite (proj2 (Z.eqb_neq _ _) Nc); by destruct (lists k g_readytorun)|].
  assert (∀ q, (l1 ++ q) !! 0%nat = l1 !! 0%nat) as E0 by (intros q; by destruct l1; [apply elem_of_nil in Ic|]).
  split; [split; try done; [eauto| |]|].
  - apply (merge_one_tasks cpu _ _ A t P _ _ (mg_tasks _ _ _ _ Hm) D' EP HtP Ex); [|done|].
    + rewrite ER. by destruct l1.
    + change (ready (merge_one t P A)) with (enqueue (prio_of A) t (ready A)). by rewrite Een, ER, !E0.
  - simpl. dom_inserts. apply (mg_links _ _ _ _ Hm).
  - split_and!; try done. simpl. dom_inserts.
Qed.

End Insert.

Lemma merge_step cpu k A t P l1 l2 fuel r Q :
  merging cpu k A t → pending A = t :: P → ready A = l1 ++ l2 →
  Forall (λ y, prio_of A t ≤ prio_of A y) l1 → (∃ y, y ∈ l2 ∧ prio_of A y < prio_of A t) →
  (∀ k' nx, merging cpu k' (merge_one t P A) nx → steady k k' →
     wp (merge_loop fuel nx t (r || bool_decide (ready (merge_one t P A) !! 0%nat = Some t))) Q k') →
  wp (merge_loop (S fuel) t (default NULL (l2 !! 0%nat)) r) Q k.
Proof.
  intros Hm EP ER H1 (z & Hz & Hpz) HQ.
  destruct (merging_task _ _ _ _ g_pendingtasks t Hm) as (Nt & a & x & Ea & Ex);
    [change (t ∈ pending A); rewrite EP; left|].
  destruct (mg_rest _ _ _ _ Hm) as [_ (b & e & Hs)]. rewrite EP in Hs.
  pose proof (mg_queues _ _ _ _ Hm g_readytorun ltac:(done)) as Hr.
  change (queued A g_readytorun) with (ready A) in Hr.
  pose proof (merging_priorities _ _ _ _ g_readytorun Hm) as Hpr.
  change (queued A g_readytorun) with (ready A) in Hpr.
  destruct (enqueue_split (prio_of A) t l2) as (m1 & m2 & -> & Een & Hm1 & Hm2).
  destruct m2 as [|y m2].
  { rewrite app_nil_r, Forall_forall in *. specialize (Hm1 z Hz). simpl in Hm1. lia. }
  pose proof Hs as (_ & _ & nx & v & Ev & Ev' & _). unfold fits in Ev'. subst v.
  simpl merge_loop. rewrite (proj2 (Z.eqb_neq t NULL)) by done.
  rewrite wp_bind. erewrite wp_get_links by done. cbn [flink].
  rewrite wp_bind. erewrite wp_get_tcb by done. cbn [sched_priority as_tcb].
  rewrite wp_bind, wp_gets, wp_bind. rewrite ER in Hr, Hpr.
  destruct (dq_cut _ _ _ _ Hr) as (c0 & r0 & S1 & S2 & Ec0 & Er0 & _). rewrite <- Er0.
  eapply wp_mono.
  { eapply (skip_higher_spec (prio_of A)); [exact S2| | | |].
    - intros u Hu. apply Hpr, elem_of_app. by right.
    - rewrite (prio_of_task A t a) in Hm1 by done. exact Hm1.
    - intros u [= <-]. rewrite <- (prio_of_task A t a) by done. by apply Hm2.
    - etrans; [|eapply (seg_length fits); [apply Hr|apply Hr]]. rewrite !length_app. lia. }
  intros ? ? [-> ->]. change (default NULL ((y :: m2) !! 0%nat)) with y.
  assert (enqueue (prio_of A) t (ready A) = (l1 ++ m1) ++ t :: y :: m2) as Een'.
  { rewrite ER, enqueue_app, Een, <- app_assoc; done. }
  rewrite app_assoc in Hr, ER. clear Een Hm1 Hm2 H1 Hpr S1 S2 Ec0 Er0 c0 r0 Hz.
  destruct (dq_cut_node _ _ _ _ _ Hr) as (Ny & c & r1 & Ey & S1 & _ & Ec & _ & Fc & _).
  rewrite wp_bind, wp_assert by (by apply negb_true_iff, Z.eqb_neq).
  rewrite wp_bind. erewrite wp_get_links by done. cbn [blink].
  change (ready (merge_one t P A)) with (enqueue (prio_of A) t (ready A)) in HQ. rewrite wp_bind. destruct (Z.eqb_spec c NULL) as [->|Nc].
  - assert (l1 ++ m1 = []) as E12.
    { destruct (last (l1 ++ m1)) as [u|] eqn:Eu; [|by apply last_None].
      simpl in Ec. subst u. apply seg_nonnull in S1. by apply last_Some_elem_of in Eu. }
    eapply (insert_first cpu k A t y P _ m2 nx b e Hm EP ER Een' Hs Ev); [done..|]. intros k' [Hm' Hst].
    specialize (HQ k' nx Hm' Hst). rewrite Een', E12, bool_decide_true, orb_true_r in HQ by done. exact HQ.
  - destruct (Fc Nc) as (Hcy & Hcr & bb & Ebb).
    eapply (insert_behind cpu k A t y P _ m2 nx b e Hm EP ER Een' Hs Ev r c); [done..|]. intros k' [Hm' Hst].
    specialize (HQ k' nx Hm' Hst). rewrite Een', bool_decide_false, orb_false_r in HQ; [exact HQ|].
    destruct (l1 ++ m1) as [|u q] eqn:E12; [simpl in Ec; done|]. intros [= ->].
    apply (insert_distinct cpu k A t P Hm EP t); [|done]. rewrite ER. left.
Qed.

(** *** Equal abstract states

    The lists are a function of the list's name, so states are compared name by
    name. *)

#[export] Instance abs_equiv : Equiv abs := λ A B,
  (∀ l, queued A l = queued B l) ∧ task_of A = task_of B ∧ count A = count B
  ∧ irq A = irq B ∧ irqerr A = irqerr B.

#[export] Instance abs_equivalence : Equivalence (≡@{abs}).
Proof.
  split.
  - intros A. by split_and!.
  - intros A B (H & ? & ? & ? & ?). by split_and!.
  - intros A B C (H & ? & ? & ? & ?) (H' & ? & ? & ? & ?). split_and!; congruence.
Qed.

#[export] Instance queued_proper : Proper ((≡@{abs}) ==> (=) ==> (=)) queued.
Proof. intros A B (H & _) l _ <-. apply H. Qed.
#[export] Instance task_of_proper : Proper ((≡@{abs}) ==> (=)) task_of.
Proof. by intros A B (_ & H & _). Qed.
#[export] Instance running_proper : Proper ((≡@{abs}) ==> (=)) running.
Proof. intros A B (H & _). unfold running, ready. by rewrite H. Qed.
#[export] Instance ready_proper : Proper ((≡@{abs}) ==> (=)) ready.
Proof. intros A B (H & _). apply H. Qed.
#[export] Instance pending_proper : Proper ((≡@{abs}) ==> (=)) pending.
Proof. intros A B (H & _). apply H. Qed.

Lemma state_of_proper (Q Q' : tasklist → list Z) t : (∀ l, Q l = Q' l) → state_of Q t = state_of Q' t.
Proof. intros H. apply state_of_ext; intros; by rewrite H. Qed.

Lemma tasks_ok_proper cpu rg cur Q Q' T N :
  (∀ l, Q l = Q' l) → tasks_ok cpu rg cur Q T N → tasks_ok cpu rg cur Q' T N.
Proof.
  intros H [D HT]. split; [done|]. intros t a Ea. destruct (HT t a Ea) as (? & x & Ex & ?).
  split; [done|]. exists x. by rewrite <- (state_of_proper Q Q').
Qed.

Lemma disjoint_proper Q Q' : (∀ l, Q l = Q' l) → disjoint_lists Q → disjoint_lists Q'.
Proof. intros H Hd l l' t. rewrite <- !H. apply Hd. Qed.

Lemma merging_proper cpu k A B pnd : A ≡ B → merging cpu k A pnd → merging cpu k B pnd.
Proof.
  intros (H & HT & _) [Hd Hq Hr Ht HL]. split; try done.
  - by eapply disjoint_proper.
  - intros l. rewrite <- H. apply Hq.
  - unfold pending. by rewrite <- H.
  - rewrite <- HT. by eapply tasks_ok_proper.
Qed.

#[export] Instance rep_proper cpu k : Proper ((≡@{abs}) ==> iff) (rep cpu k).
Proof.
  assert (∀ A B, A ≡ B → rep cpu k A → rep cpu k B) as H.
  { intros A B (H & HT & HC & HI & HE) [[Hd Hq] Ht HL HS Hi Hc Hp He]. split; try congruence.
    - split; [by eapply disjoint_proper|]. intros l. by rewrite <- H.
    - rewrite <- HT. by eapply tasks_ok_proper. }
  intros A B E. split; [by apply H|]. apply H. by symmetry.
Qed.

(** *** The whole merge *)

Lemma foldl_enqueue_head p P h q :
  Forall (λ t, p t ≤ p h) P → foldl (λ q t, enqueue p t q) (h :: q) P !! 0%nat = Some h.
Proof.
  intros HP. revert q. induction HP as [|t P Ht _ IH]; intros q; [done|].
  simpl. rewrite (proj2 (Z.leb_le _ _) Ht). apply IH.
Qed.

Lemma ready_merge A :
  ready (merge A) = foldl (λ q t, enqueue (prio_of A) t q) (ready A) (pending A).
Proof. done. Qed.

Lemma merge_merge_one A t P : pending A = t :: P → merge (merge_one t P A) ≡ merge A.
Proof.
  intros EP. split_and!; try done. intros l. unfold merge, pending in *. simpl. list_simpl. rewrite EP.
  destruct (decide (l = g_pendingtasks)) as [->|N1]; list_simpl; [done|].
  destruct (decide (l = g_readytorun)) as [->|N2]; list_simpl; done.
Qed.

Lemma steady_trans k1 k2 k3 : steady k1 k2 → steady k2 k3 → steady k1 k3.
Proof.
  intros (? & ? & ? & ? & ? & H) (? & ? & ? & ? & ? & H'). split_and!; try congruence.
  intros l Hl. rewrite H' by done. auto.
Qed.

Lemma merge_loop_spec cpu P k A pnd l1 l2 r fuel :
  merging cpu k A pnd → pending A = P → ready A = l1 ++ l2 →
  (∀ t, t ∈ P → Forall (λ y, prio_of A t ≤ prio_of A y) l1) → ordered (prio_of A) P →
  (∃ z, z ∈ l2 ∧ ∀ t, t ∈ P → prio_of A z < prio_of A t) → (length P ≤ fuel)%nat →
  wp (merge_loop fuel pnd (default NULL (l2 !! 0%nat)) r)
    (λ b k', merging cpu k' (merge A) NULL ∧ steady k k'
      ∧ b = r || bool_decide (ready (merge A) !! 0%nat ≠ ready A !! 0%nat)) k.
Proof.
  revert k A pnd l1 l2 r fuel. induction P as [|t P IH];
    intros k A pnd l1 l2 r fuel Hm EP ER H1 Ho (z & Hz & Hpz) Hf.
  - destruct (mg_rest _ _ _ _ Hm) as [_ (b & e & Hs)]. rewrite EP in Hs. destruct Hs as [-> _].
    assert (A ≡ merge A) as E.
    { split_and!; try done. intros l. unfold merge, pending in *. simpl. list_simpl. rewrite EP.
      destruct (decide (l = g_pendingtasks)) as [->|N1]; list_simpl; [done|].
      destruct (decide (l = g_readytorun)) as [->|N2]; by list_simpl. }
    assert (wp (ret r) (λ b k', merging cpu k' (merge A) NULL ∧ steady k k'
      ∧ b = r || bool_decide (ready (merge A) !! 0%nat ≠ ready A !! 0%nat)) k); [|by destruct fuel].
    rewrite wp_ret. split_and!; [by eapply merging_proper|done|].
    assert (ready (merge A) = ready A) as -> by by rewrite <- E.
    rewrite bool_decide_false, orb_false_r; [done|]. naive_solver.
  - destruct fuel as [|fuel]; simpl in Hf; [lia|].
    pose proof (mg_rest _ _ _ _ Hm) as [HnP (b & e & Hs)]. rewrite EP in Hs, HnP.
    pose proof Hs as (-> & _). apply NoDup_cons in HnP as [HtP _].
    apply StronglySorted_inv in Ho as [Ho Ht].
    eapply merge_step; [done..|apply H1; set_solver|exists z; split; [done|]; apply Hpz; set_solver|].
    intros k' nx Hm' Hst.
    destruct (enqueue_split (prio_of A) t l2) as (m1 & m2 & E2 & Een & Hm1 & Hm2).
    assert (ready (merge_one t P A) = (l1 ++ m1) ++ t :: m2) as ER'.
    { change (enqueue (prio_of A) t (ready A) = (l1 ++ m1) ++ t :: m2).
      rewrite ER, enqueue_app, Een by (apply H1; set_solver). by rewrite app_assoc. }
    eapply wp_mono.
    { eapply (IH k' (merge_one t P A) nx (l1 ++ m1) (t :: m2)); [done|done|done| |done| |lia].
      - intros u Hu. rewrite Forall_forall in Ht. specialize (Ht u Hu). apply Forall_app. split.
        + apply H1. set_solver.
        + eapply Forall_impl; [exact Hm1|]. intros y Hy. simpl in *.
          change (prio_of A u ≤ prio_of A y). lia.
      - exists z. split; [|intros u Hu; apply Hpz; set_solver].
        rewrite E2 in Hz. apply elem_of_app in Hz as [Hz|Hz]; [|set_solver].
        rewrite Forall_forall in Hm1. specialize (Hm1 z Hz). specialize (Hpz t). simpl in Hm1.
        assert (prio_of A z < prio_of A t) by (apply Hpz; set_solver). lia. }
    intros b0 k'' (Hm'' & Hst' & ->).
    assert (ready (merge (merge_one t P A)) = ready (merge A)) as -> by by rewrite merge_merge_one.
    split_and!; [|by eapply steady_trans|].
    { eapply merging_proper; [by apply merge_merge_one|done]. }
    rewrite <- orb_assoc. f_equal.
    assert (t ∉ ready A) as HtR.
    { intros H. assert (g_readytorun = g_pendingtasks); [|done].
      apply (mg_disjoint _ _ _ _ Hm _ _ t); [done|]. change (t ∈ pending A). rewrite EP. set_solver. }
    assert (ready A = (l1 ++ m1) ++ m2) as ERA by (rewrite ER, E2; by rewrite app_assoc).
    rewrite ER'. destruct (l1 ++ m1) as [|h q] eqn:E12.
    + rewrite bool_decide_true, orb_true_l by done. symmetry. apply bool_decide_eq_true.
      assert (ready (merge A) !! 0%nat = Some t) as ->.
      { rewrite <- (merge_merge_one A t P EP). rewrite ready_merge, ER'.
        by apply foldl_enqueue_head. }
      intros E. symmetry in E. by apply list_elem_of_lookup_2 in E.
    + rewrite ERA. rewrite bool_decide_false; [done|]. intros [= ->]. apply HtR. rewrite ERA. set_solver.
Qed.

Lemma mergepending_spec cpu k A :
  rep cpu k A → ordered (prio_of A) (pending A) →
  (∃ z, z ∈ ready A ∧ ∀ t, t ∈ pending A → prio_of A z < prio_of A t) →
  wp sched_mergepending
    (λ b k', b = bool_decide (running (merge A) ≠ running A) ∧ rep cpu k' (merge A)) k.
Proof.
  intros R Ho Hz. unfold sched_mergepending.
  rewrite wp_bind, wp_head_of, (rep_running R), wp_bind, wp_head_of, wp_bind, wp_gets, wp_bind.
  eapply wp_mono.
  { eapply (merge_loop_spec cpu (pending A) k A _ [] (ready A)); [by apply rep_merging|done|done| |done|done|].
    - by intros; constructor.
    - destruct (proj2 (rep_queues _ _ _ R) g_pendingtasks) as [Hn Hs].
      eapply (seg_length fits); [exact Hn|exact Hs]. }
  intros b k' (Hm & (HS & HR & HC & HE & HD & HL) & ->). unfold set_head, set_tail, set_queue.
  repeat link_step. split.
  { rewrite orb_false_l. destruct Hz as (z & Hz & Hpz). apply bool_decide_ext. unfold running.
    assert (∃ h, ready (merge A) !! 0%nat = Some h) as [h ->].
    { destruct (ready (merge A)) eqn:E; [|eauto].
      assert (z ∈ ready (merge A)) as Hz'; [|rewrite E in Hz'; set_solver].
      rewrite ready_merge. clear -Hz. revert Hz. generalize (ready A).
      induction (pending A) as [|t P IH]; intros q Hq; [done|]. simpl. apply IH, elem_of_enqueue. by right. }
    destruct (ready A); [set_solver|]. simpl. naive_solver. }
  destruct Hm as [Md Mq [Mn _] Mt ML]. ksimpl. split; ksimpl; try done.
  - split; [done|]. intros l. destruct (decide (l = g_pendingtasks)) as [->|N]; list_simpl; [|by apply Mq].
    apply dq_rep_empty.
  - rewrite HS. apply R.
  - rewrite HC. apply R.
  - rewrite HC. apply R.
  - apply R.
  - rewrite HE. apply R.
Qed.

(** ** Fields and contexts *)

(** A field that is no part of the context. *)
Lemma rep_set cpu k A t a f g v :
  rep cpu k A → task_of A !! t = Some a → tcbs k !! t = Some v →
  (∀ st x, f (as_tcb st x a) = as_tcb st x (g a)) → ctx (g a) = ctx a →
  rep cpu (upd_tcbs (<[t := f v]> (tcbs k)) k) (change t g A).
Proof.
  intros R Ea Ev Hf Hc. destruct (rep_task R t a Ea) as (Nt & x & Ex & Hx).
  rewrite Ev in Ex. injection Ex as ->. destruct R as [Q [D T] L S I C P E].
  split; ksimpl; try done; unfold change; simpl.
  - split; [by rewrite dom_insert_lookup_L, D, dom_alter_L|].
    intros u b Hb. destruct (decide (u = t)) as [->|N].
    + rewrite lookup_alter_eq, Ea in Hb. injection Hb as <-. destruct (T t a Ea) as (H0 & _).
      split; [done|]. exists x. rewrite lookup_insert_eq, Hf. split; [done|].
      unfold context_ok in *. by rewrite Hc.
    + rewrite lookup_alter_ne in Hb by done. rewrite lookup_insert_ne by done. eauto.
  - by rewrite dom_insert_lookup_L.
  - destruct P as [b Eb]. destruct (decide (cpu = t)) as [->|N].
    + rewrite lookup_alter_eq, Eb. eauto.
    + rewrite lookup_alter_ne, Eb by done. eauto.
Qed.

Lemma wp_rep_set cpu k A t a f g (Q : unit → kernel → Prop) :
  rep cpu k A → task_of A !! t = Some a →
  (∀ st x, f (as_tcb st x a) = as_tcb st x (g a)) → ctx (g a) = ctx a →
  (∀ k', rep cpu k' (change t g A) → Q tt k') → wp (set t f) Q k.
Proof.
  intros R Ea Hf Hc HQ. destruct (rep_task R t a Ea) as (Nt & x & Ex & _).
  erewrite wp_set_tcb by done. apply HQ. by eapply rep_set.
Qed.

(** Contexts change places, nothing else changes. *)
Lemma rep_contexts cpu cpu' k A T rg cur :
  rep cpu k A → is_Some (task_of A !! cpu') → dom T = dom (tcbs k) →
  (∀ t a x, task_of A !! t = Some a → tcbs k !! t = Some (as_tcb (state_of (queued A) t) x a) →
     ∃ x', T !! t = Some (as_tcb (state_of (queued A) t) x' a) ∧ context_ok cpu' rg cur t x' a) →
  (cur =? NULL) = (current_regs k =? NULL) → cur = NULL ∨ cur = FRAME ∨ cur = cpu' →
  rep cpu' (upd_current_regs cur (upd_regs rg (upd_tcbs T k))) A.
Proof.
  intros R Hcpu HD HT Hcur Hcases. destruct R as [Q [D T0] L S I C P E].
  split; ksimpl; try done.
  - split; [congruence|]. intros t a Ea. destruct (T0 t a Ea) as (H0 & x & Ex & _). split; [done|]. eauto.
  - congruence.
  - by rewrite I, Hcur.
Qed.

Lemma switch_from_spec cpu k A :
  rep cpu k A → ready A ≠ [] → wp (switch_from cpu) (λ _ k', rep (running A) k' A) k.
Proof.
  intros R Hne. destruct (ready A) as [|h q] eqn:Er; [done|].
  assert (running A = h) as Eh by (unfold running; by rewrite Er). rewrite Eh.
  destruct (rep_cpu _ _ _ R) as [a Ea]. destruct (rep_task R cpu a Ea) as (Nc & x & Ex & Hx).
  destruct (rep_member R g_readytorun h) as [b Eb]; [unfold ready in Er; rewrite Er; set_solver|].
  destruct (rep_task R h b Eb) as (Nh & y & Ey & Hy).
  assert (cpu ≠ FRAME ∧ h ≠ FRAME) as [Ncf Nhf].
  { destruct (proj2 (rep_tasks _ _ _ R) cpu a Ea) as [? _], (proj2 (rep_tasks _ _ _ R) h b Eb) as [? _].
    unfold FRAME. lia. }
  assert (∀ t d z, t ≠ cpu → task_of A !! t = Some d →
    tcbs k !! t = Some (as_tcb (state_of (queued A) t) z d) → z = ctx d) as Hoth.
  { intros t d z Nt Ed Ez. destruct (rep_task R t d Ed) as (_ & z' & Ez' & Hz').
    rewrite Ez in Ez'. injection Ez' as <-. unfold context_ok in Hz'. rewrite bool_decide_false in Hz'; naive_solver. }
  unfold switch_from. rewrite wp_bind. unfold up_interrupt_context. rewrite wp_gets.
  destruct (Z.eqb_spec (current_regs k) NULL) as [Ec|Nc'].
  - simpl negb. cbv iota. rewrite wp_bind, wp_head_of, (rep_running R), Eh.
    unfold up_switchcontext.
    rewrite wp_bind, wp_assert by (by rewrite (proj2 (Z.eqb_neq _ _) Nc), (proj2 (Z.eqb_neq _ _) Nh)).
    assert (regs k = ctx a) as Hrg.
    { unfold context_ok in Hx. rewrite bool_decide_true in Hx; [done|]. split; [done|congruence]. }
    rewrite wp_bind, wp_gets, wp_bind. erewrite wp_set_tcb by done. rewrite wp_bind.
    erewrite (wp_get_tcb _ h (if decide (h = cpu) then set_xcp (regs k) (as_tcb (state_of (queued A) cpu) x a)
      else as_tcb (state_of (queued A) h) y b)); [|done|].
    2:{ ksimpl. destruct (decide (h = cpu)) as [->|N]; by simplify_map_eq. }
    rewrite wp_modify. ksimpl.
    pose proof (rep_contexts cpu h k A (<[cpu := set_xcp (regs k) (as_tcb (state_of (queued A) cpu) x a)]> (tcbs k))
      (ctx b) NULL R) as HR.
    assert (xcp (if decide (h = cpu) then set_xcp (regs k) (as_tcb (state_of (queued A) cpu) x a)
      else as_tcb (state_of (queued A) h) y b) = ctx b) as ->.
    { destruct (decide (h = cpu)) as [->|N]; [simpl; congruence|]. simpl. by eapply Hoth. }
    replace k with (upd_current_regs NULL k) at 3 by (by rewrite <- Ec; destruct k). apply HR.
    + eauto.
    + by rewrite dom_insert_lookup_L.
    + intros t d z Ed Ez. unfold context_ok. destruct (decide (t = cpu)) as [->|N].
      * rewrite Ea in Ed. injection Ed as <-. exists (regs k). simplify_map_eq. split; [done|].
        case_bool_decide; [|done]. naive_solver congruence.
      * exists z. rewrite lookup_insert_ne by done. split; [done|]. pose proof (Hoth t d z N Ed Ez).
        case_bool_decide; [|done]. naive_solver congruence.
    + by rewrite Ec.
    + by left.
  - simpl negb. cbv iota. rewrite wp_bind. unfold up_savestate, context_at.
    assert (wp (p <-- gets current_regs ;;
                c <-- (if p =? FRAME then gets regs else t <-- get p ;; ret (xcp t)) ;;
                set cpu (set_xcp c))
      (λ _ k', k' = upd_tcbs (<[cpu := as_tcb (state_of (queued A) cpu) (ctx a) a]> (tcbs k)) k) k) as Hsave.
    { rewrite wp_bind, wp_gets, wp_bind. destruct (rep_cur _ _ _ R) as [?|[Ef|Ecp]]; [done|..].
      - rewrite Ef. simpl. rewrite wp_gets. erewrite wp_set_tcb by done. do 3 f_equal. simpl.
        unfold context_ok in Hx. rewrite bool_decide_true in Hx; [by rewrite Hx|naive_solver congruence].
      - rewrite Ecp, (proj2 (Z.eqb_neq _ _) Ncf), wp_bind. erewrite wp_get_tcb by done.
        rewrite wp_ret. erewrite wp_set_tcb by done. do 3 f_equal. simpl.
        unfold context_ok in Hx. rewrite bool_decide_false in Hx; [by rewrite Hx|naive_solver congruence]. }
    eapply wp_mono; [exact Hsave|]. intros _ k' ->. ksimpl.
    rewrite wp_bind, wp_head_of. ksimpl. rewrite (rep_running R), Eh, wp_bind.
    erewrite (wp_get_tcb _ h (as_tcb (state_of (queued A) h) (if decide (h = cpu) then ctx a else y) b)); [|done|].
    2:{ ksimpl. destruct (decide (h = cpu)) as [->|N]; simplify_map_eq; [congruence|done]. }
    unfold up_restorestate. rewrite wp_modify. ksimpl.
    pose proof (rep_contexts cpu h k A (<[cpu := as_tcb (state_of (queued A) cpu) (ctx a) a]> (tcbs k))
      (regs k) h R) as HR.
    replace k with (upd_regs (regs k) k) at 3 by (by destruct k). apply HR.
    + eauto.
    + by rewrite dom_insert_lookup_L.
    + intros t d z Ed Ez. unfold context_ok. rewrite bool_decide_false by naive_solver.
      destruct (decide (t = cpu)) as [->|N].
      * rewrite Ea in Ed. injection Ed as <-. exists (ctx a). by simplify_map_eq.
      * exists z. rewrite lookup_insert_ne by done. split; [done|]. by eapply Hoth.
    + rewrite (proj2 (Z.eqb_neq _ _) Nc'). by apply Z.eqb_neq.
    + by right; right.
Qed.

(** ** Interrupts and [errno] *)

Lemma irq_enter_spec cpu k A :
  rep cpu k A → irq A = false → wp irq_enter (λ _ k', rep cpu k' (upd_irq true A)) k.
Proof.
  intros R Hi. unfold irq_enter. rewrite wp_modify. pose proof R as [Q [D T] L S I C P E].
  rewrite Hi in I. symmetry in I. apply negb_false_iff, Z.eqb_eq in I.
  split; ksimpl; simpl; try done; [|by right; left].
  split; [done|]. intros t a Ea. destruct (T t a Ea) as (H0 & x & Ex & Hx). split; [done|].
  exists x. split; [done|]. unfold context_ok in *.
  rewrite (bool_decide_ext _ (t = cpu ∧ current_regs k ≠ cpu)); [done|].
  rewrite I. unfold NULL, FRAME. split; intros [-> _]; (split; [done|lia]).
Qed.

Lemma irq_exit_spec cpu k A :
  rep cpu k A → irq A = true → wp irq_exit (λ _ k', rep cpu k' (upd_irq false A)) k.
Proof.
  intros R Hi. destruct (rep_cpu _ _ _ R) as [a Ea]. destruct (rep_task R cpu a Ea) as (Nc & x & Ex & Hx).
  destruct (proj2 (rep_tasks _ _ _ R) cpu a Ea) as [H0 _].
  pose proof R as [Q [D T] L S I C P E]. rewrite Hi in I. symmetry in I.
  apply negb_true_iff, Z.eqb_neq in I.
  unfold irq_exit, context_at. rewrite wp_bind, wp_gets, wp_bind.
  assert (wp (if current_regs k =? FRAME then gets regs else t <-- get (current_regs k) ;; ret (xcp t))
    (λ c k', c = ctx a ∧ k' = k) k) as Hc.
  { destruct C as [?|[Ef|Ecp]]; [done|..].
    - rewrite Ef. simpl. rewrite wp_gets. split; [|done]. unfold context_ok in Hx.
      rewrite bool_decide_true in Hx; [done|]. unfold FRAME in *. split; [done|lia].
    - rewrite Ecp, (proj2 (Z.eqb_neq _ _)) by (unfold FRAME; lia). rewrite wp_bind.
      erewrite wp_get_tcb by done. rewrite wp_ret. split; [|done]. unfold context_ok in Hx.
      rewrite bool_decide_false in Hx; [done|]. naive_solver. }
  eapply wp_mono; [exact Hc|]. intros c k' [-> ->]. rewrite wp_bind, !wp_modify. ksimpl.
  split; ksimpl; simpl; try done; [|by left].
  split; [done|]. intros t b Eb. destruct (T t b Eb) as (H1 & y & Ey & Hy). split; [done|].
  exists y. split; [done|]. unfold context_ok in *. destruct (decide (t = cpu)) as [->|N].
  - rewrite Ea in Eb. injection Eb as <-.
    rewrite bool_decide_true; [done|]. unfold NULL. split; [done|lia].
  - rewrite bool_decide_false in Hy by naive_solver. by rewrite bool_decide_false by naive_solver.
Qed.

Definition set_err (e : Z) (A : abs) : abs :=
  if irq A then upd_irqerr e A else change (running A) (with_err e) A.
Definition get_err (A : abs) : Z :=
  if irq A then irqerr A else default 0 (err <$> task_of A !! running A).

Lemma errno_location_spec cpu k A :
  rep cpu k A → ready A ≠ [] →
  wp errno_location (λ p k', k' = k ∧ p = if irq A then None else Some (running A)) k.
Proof.
  intros R Hne. unfold errno_location, up_interrupt_context.
  rewrite wp_bind, wp_gets, <- (rep_irq _ _ _ R), wp_bind, wp_head_of, (rep_running R).
  destruct (irq A); [done|]. simpl.
  destruct (ready A) as [|h q] eqn:Er; [done|].
  assert (running A = h) as -> by (unfold running; by rewrite Er).
  destruct (rep_member R g_readytorun h) as [b Eb]; [unfold ready in Er; rewrite Er; set_solver|].
  destruct (rep_task R h b Eb) as (Nh & y & Ey & Hy).
  rewrite (proj2 (Z.eqb_neq _ _) Nh), wp_bind. erewrite wp_get_tcb by done. rewrite wp_ret. split; [done|].
  simpl. rewrite state_of_running, bool_decide_true; [done|done|apply (rep_disjoint R)|].
  unfold ready in Er. by rewrite Er.
Qed.

Lemma set_errno_spec cpu k A e :
  rep cpu k A → ready A ≠ [] → wp (set_errno e) (λ _ k', rep cpu k' (set_err e A)) k.
Proof.
  intros R Hne. unfold set_errno, set_err. rewrite wp_bind.
  eapply wp_mono; [by eapply errno_location_spec|]. intros p k' [-> ->].
  destruct (irq A) eqn:Hi.
  - rewrite wp_modify. destruct R as [Q T L S I C P E]. split; ksimpl; simpl; done.
  - destruct (ready A) as [|h q] eqn:Er; [done|].
    assert (running A = h) as -> by (unfold running; by rewrite Er).
    destruct (rep_member R g_readytorun h) as [b Eb]; [unfold ready in Er; rewrite Er; set_solver|].
    eapply (wp_rep_set _ _ _ _ _ _ (with_err e)); done.
Qed.

Lemma get_errno_spec cpu k A :
  rep cpu k A → ready A ≠ [] → wp get_errno (λ e k', k' = k ∧ e = get_err A) k.
Proof.
  intros R Hne. unfold get_errno, get_err. rewrite wp_bind.
  eapply wp_mono; [by eapply errno_location_spec|]. intros p k' [-> ->].
  destruct (irq A); [rewrite wp_gets; split; [done|apply R]|].
  destruct (ready A) as [|h q] eqn:Er; [done|].
  assert (running A = h) as -> by (unfold running; by rewrite Er).
  destruct (rep_member R g_readytorun h) as [b Eb]; [unfold ready in Er; rewrite Er; set_solver|].
  destruct (rep_task R h b Eb) as (Nh & y & Ey & Hy).
  rewrite wp_bind. erewrite wp_get_tcb by done. rewrite wp_ret, Eb. done.
Qed.

End SchedRep.
