(* ===== verification/SchedSpec.v ===== *)
(** * What the scheduler's operations do

    The operations of Sched.v as functions on the lists of SchedRep.v, the
    invariant of the scheduler, and the proofs that the code implements the
    former and keeps the latter: the ready tasks are ordered by priority with
    the idle task last, a task waits in the pending list only behind a
    preemption lock, and the processor has the context of the first ready
    task. *)

From stdpp Require Import functions.
From S2P Require Import Prelude Queue Sched SchedRep.

Module SchedSpec.
Export SchedRep.
#[local] Open Scope cmd_scope.

(** ** The operations *)

(** [running A] goes to the list [l] of blocked tasks. *)
Definition block (l : tasklist) (A : abs) : abs :=
  merge (enter_blocked (running A) l (leave (running A) g_readytorun A)).

(** [t] comes back from the list [l] with a new time slice. *)
Definition unblock (t : Z) (l : tasklist) (A : abs) : abs :=
  make_ready t (change t (with_slice RR_TICKS) (leave t l A)).

(** A ready task gets another priority; the tasks that a lock kept waiting run
    when the processor changes hands. *)
Definition reprio_ready (t p : Z) (A : abs) : abs :=
  make_ready t (change t (with_prio p) (leave t g_readytorun A)).
Definition reprio (t p : Z) (A : abs) : abs :=
  let B := reprio_ready t p A in
  if bool_decide (running B = running A) then B else merge B.

(** The preemption lock. *)
Definition lock_call (A : abs) : abs :=
  if irq A then A else change (running A) (λ a, with_lock (lock a + 1) a) A.
Definition release (a : task) : task := with_lock (if lock a =? 0 then 0 else lock a - 1) a.
Definition unlock_call (A : abs) : abs :=
  if irq A then A
  else
    let B := change (running A) release A in
    if lock_of B (running A) =? 0 then merge B else B.

(** The task behind the running one. *)
Definition next_ready (A : abs) : option Z := ready A !! 1%nat.

(** A task that waits in an ordered list moves to its new place there. *)
Definition requeue (t p : Z) (l : tasklist) (A : abs) : abs :=
  enter t l (change t (with_prio p) (leave t l A)).

Definition setprio (t p : Z) (A : abs) : abs :=
  if bool_decide (t ∈ ready A) then
    if bool_decide (t = running A) then
      match next_ready A with
      | Some n => if p <=? prio_of A n then reprio t p A else change t (with_prio p) A
      | None => A
      end
    else if prio_of A (running A) <? p then reprio t p A else reprio_ready t p A
  else
    match list_with (queued A) t with
    | Some l =>
        if prioritized l then requeue t p l A
        else change t (with_prio p) A
    | None => A
    end.

(** The timer tick of a round-robin task. *)
Definition slice_tick (A : abs) : abs :=
  let t := running A in
  match task_of A !! t with
  | Some a =>
      if Z.land (rr a) TCB_FLAG_ROUND_ROBIN =? 0 then A
      else if slice a <=? 1 then
        if lock a =? 0 then
          let B := change t (with_slice RR_TICKS) A in
          match next_ready A with
          | Some n => if prio a <=? prio_of A n then reprio t (prio a) B else B
          | None => B
          end
        else A
      else change t (with_slice (slice a - 1)) A
  | None => A
  end.

(** ** The invariant *)

Section Invariant.
Context (idle : Z).

Record wf (A : abs) : Prop := mkwf {
  wf_idle : ∃ q, ready A = q ++ [idle];
  wf_ordered : ∀ l, prioritized l = true → ordered (prio_of A) (queued A l);
  wf_prio : ∀ t a, task_of A !! t = Some a →
    if decide (t = idle) then prio a = 0 else SCHED_PRIORITY_MIN ≤ prio a ≤ SCHED_PRIORITY_MAX;
  wf_lock : ∀ t a, task_of A !! t = Some a → 0 ≤ lock a ≤ MAX_LOCK_COUNT;
  wf_pending : lock_of A (running A) = 0 → pending A = []
}.

(** Without the last clause, which does not hold in the middle of an
    operation. *)
Record wf0 (A : abs) : Prop := mkwf0 {
  wf0_idle : ∃ q, ready A = q ++ [idle];
  wf0_ordered : ∀ l, prioritized l = true → ordered (prio_of A) (queued A l);
  wf0_prio : ∀ t a, task_of A !! t = Some a →
    if decide (t = idle) then prio a = 0 else SCHED_PRIORITY_MIN ≤ prio a ≤ SCHED_PRIORITY_MAX;
  wf0_lock : ∀ t a, task_of A !! t = Some a → 0 ≤ lock a ≤ MAX_LOCK_COUNT
}.

Lemma wf_wf0 A : wf A → wf0 A.
Proof. by intros []. Qed.

Lemma wf0_wf A : wf0 A → (lock_of A (running A) = 0 → pending A = []) → wf A.
Proof. by intros []. Qed.

Lemma wf0_ready A : wf0 A → ready A ≠ [].
Proof. intros [[q ->] _ _ _]. by destruct q. Qed.

(** A running task other than the idle task has one behind it. *)
Lemma wf0_running A :
  wf0 A → ∃ q, ready A = running A :: q ∧ (running A ≠ idle → q ≠ []) ∧ idle ∈ ready A.
Proof.
  intros [[q Eq] _ _ _]. unfold running. rewrite Eq. destruct q as [|h q]; simpl.
  - exists []. split_and!; [done|done|set_solver].
  - exists (q ++ [idle]). split_and!; [done| |set_solver]. intros _. by destruct q.
Qed.

(** *** Ordered lists under the changes *)

Lemma ordered_ext p p' l : (∀ x, x ∈ l → p x = p' x) → ordered p l → ordered p' l.
Proof.
  intros H. unfold ordered. induction 1 as [|x l Hs IH Hx]; [constructor|]. constructor.
  - apply IH. set_solver.
  - rewrite Forall_forall in Hx |- *. intros y Hy. rewrite <- !H by set_solver. auto.
Qed.

Lemma ordered_filter p t l : ordered p l → ordered p (filter (t ≠.) l).
Proof.
  unfold ordered. induction 1 as [|x l Hs IH Hx]; [constructor|]. rewrite filter_cons.
  case_decide; [|done]. constructor; [done|]. rewrite Forall_forall in Hx |- *.
  intros y [_ Hy]%list_elem_of_filter. auto.
Qed.

Lemma enqueue_last p t q : p idle < p t → ∃ q', enqueue p t (q ++ [idle]) = q' ++ [idle].
Proof.
  intros H. induction q as [|x q [q' IH]]; simpl.
  - rewrite (proj2 (Z.leb_gt _ _)) by lia. by exists [t].
  - destruct (p t <=? p x); [|by exists (t :: x :: q)]. rewrite IH. by exists (x :: q').
Qed.

Lemma foldl_enqueue_last p P q :
  (∀ t, t ∈ P → p idle < p t) →
  ∃ q', foldl (λ q t, enqueue p t q) (q ++ [idle]) P = q' ++ [idle].
Proof.
  revert q. induction P as [|t P IH]; intros q H; [by exists q|]. simpl.
  destruct (enqueue_last p t q) as [q' ->]; [set_solver|]. apply IH. set_solver.
Qed.

Lemma foldl_enqueue_ordered p P q :
  ordered p q → ordered p (foldl (λ q t, enqueue p t q) q P).
Proof. revert q. induction P as [|t P IH]; intros q Hq; [done|]. by apply IH, enqueue_ordered. Qed.

Lemma foldl_enqueue_elem p P q x :
  x ∈ foldl (λ q t, enqueue p t q) q P ↔ x ∈ q ∨ x ∈ P.
Proof.
  revert q. induction P as [|t P IH]; intros q; simpl; [set_solver|].
  rewrite IH, elem_of_enqueue. set_solver.
Qed.

(** *** The steps of the operations keep [wf0] *)

Lemma wf0_enter A t a l :
  wf0 A → task_of A !! t = Some a → t ≠ idle → wf0 (enter t l A).
Proof.
  intros [[q Eq] Ho Hp Hk] Ea Nt. unfold enter. split; simpl; try done.
  - unfold ready in *. simpl. destruct (decide (l = g_readytorun)) as [->|N]; list_simpl; [|eauto].
    rewrite Eq. apply enqueue_last. pose proof (Hp t a Ea) as H. rewrite decide_False in H by done.
    rewrite (prio_of_task A t a) by done. unfold prio_of. destruct (task_of A !! idle) as [b|] eqn:Eb; simpl.
    + pose proof (Hp idle b Eb) as H'. rewrite decide_True in H' by done. unfold SCHED_PRIORITY_MIN in *. lia.
    + unfold SCHED_PRIORITY_MIN in *. lia.
  - intros l' Hl'. destruct (decide (l = l')) as [<-|N]; list_simpl; [|by apply Ho].
    by apply enqueue_ordered, Ho.
Qed.

Lemma wf0_enter_last A t l : wf0 A → prioritized l = false → wf0 (enter_last t l A).
Proof.
  intros [Hi Ho Hp Hk] Hl. unfold enter_last. split; simpl; try done.
  - unfold ready in *. simpl. destruct (decide (l = g_readytorun)) as [->|N]; [done|by list_simpl].
  - intros l' Hl'. destruct (decide (l = l')) as [<-|N]; [congruence|list_simpl; by apply Ho].
Qed.

Lemma wf0_leave A t l : wf0 A → t ≠ idle → wf0 (leave t l A).
Proof.
  intros [[q Eq] Ho Hp Hk] Nt. unfold leave. split; simpl; try done.
  - unfold ready in *. simpl. destruct (decide (l = g_readytorun)) as [->|N]; list_simpl; [|eauto].
    rewrite Eq, filter_app, (filter_cons_True _ idle) by done. eauto.
  - intros l' Hl'. destruct (decide (l = l')) as [<-|N]; list_simpl; [|by apply Ho].
    by apply ordered_filter, Ho.
Qed.

Lemma lookup_change A t f u :
  task_of (change t f A) !! u = if decide (u = t) then f <$> task_of A !! u else task_of A !! u.
Proof.
  unfold change. simpl. destruct (decide (u = t)) as [->|N];
    by rewrite ?lookup_alter_eq, ?lookup_alter_ne by done.
Qed.

(** A change of fields that are neither priority nor lock. *)
Lemma prio_of_change A t f u : (∀ a, prio (f a) = prio a) → prio_of (change t f A) u = prio_of A u.
Proof.
  intros H. unfold prio_of. rewrite lookup_change. destruct (decide (u = t)); [|done].
  destruct (task_of A !! u); [|done]. simpl. by rewrite H.
Qed.

Lemma lock_of_change A t f u : (∀ a, lock (f a) = lock a) → lock_of (change t f A) u = lock_of A u.
Proof.
  intros H. unfold lock_of. rewrite lookup_change. destruct (decide (u = t)); [|done].
  destruct (task_of A !! u); [|done]. simpl. by rewrite H.
Qed.

Lemma wf0_change A t f :
  wf0 A → (∀ a, prio (f a) = prio a) → (∀ a, task_of A !! t = Some a → 0 ≤ lock (f a) ≤ MAX_LOCK_COUNT) →
  wf0 (change t f A).
Proof.
  intros [Hi Ho Hp Hk] Hf Hl. split; [done|..].
  - intros l Hl'. eapply ordered_ext; [|by apply (Ho l)]. intros x _. by rewrite prio_of_change.
  - intros u b. rewrite lookup_change. destruct (decide (u = t)) as [->|N]; [|by apply Hp].
    intros (a & Ea & ->)%fmap_Some. rewrite Hf. by apply Hp.
  - intros u b. rewrite lookup_change. destruct (decide (u = t)) as [->|N]; [|by apply Hk].
    intros (a & Ea & ->)%fmap_Some. auto.
Qed.

(** A new priority for a task that is in no ordered list. *)
Lemma wf0_change_prio A t p :
  wf0 A → t ≠ idle → (∀ l, prioritized l = true → t ∉ queued A l) →
  SCHED_PRIORITY_MIN ≤ p ≤ SCHED_PRIORITY_MAX → wf0 (change t (with_prio p) A).
Proof.
  intros [Hi Ho Hp Hk] Nt Hout Hr. split; [done|..].
  - intros l Hl'. eapply ordered_ext; [|by apply (Ho l)]. intros x Hx. unfold prio_of.
    rewrite lookup_change, decide_False; [done|]. intros ->. by apply (Hout l).
  - intros u b. rewrite lookup_change. destruct (decide (u = t)) as [->|N]; [|by apply Hp].
    intros (a & Ea & ->)%fmap_Some. by rewrite decide_False.
  - intros u b. rewrite lookup_change. destruct (decide (u = t)) as [->|N]; [|by apply Hk].
    intros (a & Ea & ->)%fmap_Some. simpl. eauto.
Qed.

Lemma idle_below A t a :
  wf0 A → task_of A !! t = Some a → t ≠ idle → prio_of A idle < prio_of A t.
Proof.
  intros [_ _ Hp _] Ea Nt. pose proof (Hp t a Ea) as H. rewrite decide_False in H by done.
  rewrite (prio_of_task A t a) by done. unfold prio_of.
  destruct (task_of A !! idle) as [b|] eqn:Eb; simpl; unfold SCHED_PRIORITY_MIN in *; [|lia].
  pose proof (Hp idle b Eb) as H'. rewrite decide_True in H' by done. lia.
Qed.

Lemma wf0_merge A :
  wf0 A → (∀ t, t ∈ pending A → t ≠ idle ∧ is_Some (task_of A !! t)) → wf0 (merge A).
Proof.
  intros Hwf HP. pose proof Hwf as [[q Eq] Ho Hp Hk]. split; [|..|done|done].
  - rewrite ready_merge, Eq. apply foldl_enqueue_last. intros t Ht.
    destruct (HP t Ht) as [Nt [a Ea]]. by eapply idle_below.
  - intros l Hl. destruct (decide (l = g_pendingtasks)) as [->|N1]; [constructor|].
    destruct (decide (l = g_readytorun)) as [->|N2].
    + change (ordered (prio_of A) (ready (merge A))). rewrite ready_merge.
      by apply foldl_enqueue_ordered, (Ho g_readytorun).
    + unfold merge, put. simpl. list_simpl. by apply Ho.
Qed.

Lemma wf0_make_ready A t a :
  wf0 A → task_of A !! t = Some a → t ≠ idle → wf0 (make_ready t A).
Proof. intros. unfold make_ready. destruct (delayed t A); by eapply wf0_enter. Qed.

(** ** The code implements the operations *)

Definition good (k : kernel) (A : abs) : Prop := rep (running A) k A ∧ wf A.

Lemma pending_tasks cpu k A t :
  rep cpu k A → wf0 A → t ∈ pending A → t ≠ idle ∧ ∃ a, task_of A !! t = Some a.
Proof.
  intros R Hwf Ht. split; [|by eapply (rep_member R g_pendingtasks)].
  intros ->. destruct (wf0_running A Hwf) as (q & _ & _ & Hi).
  assert (g_readytorun = g_pendingtasks); [|done]. by apply (rep_disjoint R _ _ idle).
Qed.

Lemma merge_empty A : pending A = [] → merge A ≡ A.
Proof.
  intros EP. split_and!; try done. intros l. unfold merge, pending in *. simpl. list_simpl. rewrite EP.
  destruct (decide (l = g_pendingtasks)) as [->|N1]; list_simpl; [done|].
  destruct (decide (l = g_readytorun)) as [->|N2]; by list_simpl.
Qed.

Lemma rep_merge_wf0 cpu k A : rep cpu k A → wf0 A → wf0 (merge A).
Proof.
  intros R Hwf. apply wf0_merge; [done|]. intros t Ht.
  destruct (pending_tasks _ _ _ _ R Hwf Ht) as (? & a & ->). eauto.
Qed.

Lemma pending_above cpu k A :
  rep cpu k A → wf0 A → ∃ z, z ∈ ready A ∧ ∀ t, t ∈ pending A → prio_of A z < prio_of A t.
Proof.
  intros R Hwf. exists idle. split; [by destruct (wf0_running A Hwf) as (? & _ & _ & ?)|].
  intros u Hu. destruct (pending_tasks _ _ _ _ R Hwf Hu) as (Nu & c & Ec). by eapply idle_below.
Qed.

(** The merge that every switch makes before it. *)
Lemma merge_spec cpu k A b :
  rep cpu k A → wf0 A →
  wp (p <-- head_of g_pendingtasks ;;
      if negb (p =? NULL) then m <-- sched_mergepending ;; ret (b || m) else ret b)
    (λ b' k', b' = b || bool_decide (running (merge A) ≠ running A) ∧ rep cpu k' (merge A)) k.
Proof.
  intros R Hwf. rewrite wp_bind, wp_head_of, (rep_head R).
  change (queued A g_pendingtasks) with (pending A).
  destruct (pending A) as [|t P] eqn:EP; simpl.
  - rewrite wp_ret. assert (running (merge A) = running A) as -> by by rewrite merge_empty.
    rewrite bool_decide_false, orb_false_r by naive_solver. split; [done|]. by rewrite merge_empty.
  - destruct (pending_tasks _ _ _ t R Hwf) as (Nt & a & Ea); [rewrite EP; set_solver|].
    destruct (rep_task R t a Ea) as (Hn & _). rewrite (proj2 (Z.eqb_neq _ _) Hn). simpl.
    rewrite wp_bind. eapply wp_mono.
    { apply mergepending_spec; [done|by apply (wf0_ordered _ Hwf g_pendingtasks)|by eapply pending_above]. }
    intros m k' [-> R']. by rewrite wp_ret.
Qed.

Lemma merge_spec' cpu k A :
  rep cpu k A → wf0 A →
  wp (p <-- head_of g_pendingtasks ;;
      (if negb (p =? NULL) then sched_mergepending ;;; ret tt else ret tt))
    (λ _ k', rep cpu k' (merge A)) k.
Proof.
  intros R Hwf. pose proof (merge_spec cpu k A false R Hwf) as H. rewrite wp_bind in H. rewrite wp_bind.
  eapply wp_mono; [exact H|]. clear. cbv beta. intros p k' H. destruct (negb (p =? NULL)).
  - rewrite wp_bind in H. rewrite wp_bind. eapply wp_mono; [exact H|]. intros m k'' H'. by destruct H'.
  - by destruct H.
Qed.

Lemma leave_out A t l : disjoint_lists (queued A) → t ∈ queued A l → ∀ l', t ∉ queued (leave t l A) l'.
Proof.
  intros Hd Ht. apply left_out; [done|done|]. rewrite list_elem_of_filter. naive_solver.
Qed.

Lemma pending_merge A : pending (merge A) = [].
Proof. done. Qed.

(** The running task blocks. *)
Lemma wf0_enter_blocked A t a l :
  wf0 A → task_of A !! t = Some a → t ≠ idle → wf0 (enter_blocked t l A).
Proof.
  intros. unfold enter_blocked. destruct (prioritized l) eqn:E; [by eapply wf0_enter|by apply wf0_enter_last].
Qed.

Lemma up_block_task_spec k A l :
  good k A → running A ≠ idle → blocked_list l = true →
  wp (up_block_task (running A) (wait_state l)) (λ b k', b = true ∧ good k' (block l A)) k.
Proof.
  intros [R Hwf] Nr Hl. pose proof (wf_wf0 _ Hwf) as Hwf0.
  destruct (wf0_running A Hwf0) as (q & Eq & Hq & Hi). set (t := running A) in *.
  destruct (rep_member R g_readytorun t) as [a Ea]; [change (t ∈ ready A); rewrite Eq; set_solver|].
  destruct (rep_task R t a Ea) as (Nt & x & Ex & _).
  unfold up_block_task. rewrite wp_bind, wp_head_of, (rep_running R). fold t.
  rewrite wp_bind. erewrite wp_get_tcb by done. cbn [task_state as_tcb].
  rewrite state_of_running; [|apply (rep_disjoint R)|change (ready A !! 0%nat = Some t); by rewrite Eq].
  rewrite wp_bind, wp_assert, wp_bind by done.
  eapply wp_mono; [by eapply (removereadytorun_spec _ _ _ t [] q); auto|].
  intros b k1 [-> R1]. rewrite wp_bind.
  pose proof (wf0_leave A t g_readytorun Hwf0 Nr) as W1.
  assert (∀ l', t ∉ queued (leave t g_readytorun A) l') as Hout.
  { apply leave_out; [apply (rep_disjoint R)|]. change (t ∈ ready A). rewrite Eq. set_solver. }
  pose proof (wf0_prio _ Hwf0 t a Ea) as Hpr. rewrite decide_False in Hpr by done.
  eapply wp_mono; [eapply (addblocked_spec _ _ _ t a l); [done|done|lia|done|done]|].
  intros [] k2 R2. pose proof (wf0_enter_blocked _ t a l W1 Ea Nr) as W2.
  pose proof (merge_spec _ _ _ true R2 W2) as Hmg. rewrite wp_bind in Hmg. rewrite wp_bind.
  eapply wp_mono; [exact Hmg|]. intros p k3 H3. cbv beta in H3. rewrite bool_decide_true by done.
  rewrite wp_bind. eapply wp_mono; [exact H3|]. intros sw k4 [-> R4]. simpl. rewrite wp_bind.
  pose proof (rep_merge_wf0 _ _ _ R2 W2) as W4.
  eapply wp_mono; [by apply switch_from_spec, (wf0_ready _ W4)|].
  intros [] k5 R5. rewrite wp_ret. split; [done|]. split; [exact R5|]. by apply wf0_wf.
Qed.

(** *** A task made ready *)

Lemma running_enter_other A t l : l ≠ g_readytorun → running (enter t l A) = running A.
Proof. intros N. unfold running, ready, enter. simpl. by list_simpl. Qed.

Lemma running_enter A t :
  ready A ≠ [] →
  running (enter t g_readytorun A) = if prio_of A t <=? prio_of A (running A) then running A else t.
Proof.
  intros Hne. unfold running, ready, enter in *. simpl. list_simpl.
  destruct (queued A g_readytorun) as [|h q]; [done|]. rewrite enqueue_head. simpl.
  by destruct (_ <=? _).
Qed.

(** The first ready task stays, or it is not locked and [t] runs. *)
Lemma make_ready_running A t :
  ready A ≠ [] → ¬ (t ∈ ready A) →
  (running (make_ready t A) = running A ∧ t ≠ running A
   ∧ (lock_of A (running A) = 0 → pending (make_ready t A) = pending A))
  ∨ (running (make_ready t A) = t ∧ t ≠ running A ∧ lock_of A (running A) = 0
     ∧ pending (make_ready t A) = pending A).
Proof.
  intros Hne Ht. assert (t ≠ running A) as Nt.
  { intros ->. apply Ht. unfold running. destruct (ready A); [done|]. set_solver. }
  unfold make_ready. destruct (delayed t A) eqn:Ed; unfold delayed in Ed.
  - left. rewrite running_enter_other by done. split_and!; [done|done|]. zify_bools. done.
  - rewrite running_enter by done. apply andb_false_iff in Ed.
    destruct (Z.leb_spec (prio_of A t) (prio_of A (running A))).
    + left. split_and!; [done|done|]. intros _. unfold pending, enter. simpl. by list_simpl.
    + right. split_and!; [done|done| |unfold pending, enter; simpl; by list_simpl].
      destruct Ed as [Ed|Ed]; zify_bools; [done|lia].
Qed.

Lemma task_of_make_ready A t : task_of (make_ready t A) = task_of A.
Proof. unfold make_ready. by destruct (delayed t A). Qed.

Lemma lock_of_make_ready A t u : lock_of (make_ready t A) u = lock_of A u.
Proof. unfold lock_of. by rewrite task_of_make_ready. Qed.

Lemma wf_make_ready A t a :
  wf A → task_of A !! t = Some a → t ≠ idle → ¬ (t ∈ ready A) → wf (make_ready t A).
Proof.
  intros Hwf Ea Nt Ht. pose proof (wf_wf0 _ Hwf) as W0. apply wf0_wf; [by eapply wf0_make_ready|].
  destruct (make_ready_running A t (wf0_ready _ W0) Ht) as [(-> & _ & HP)|(_ & _ & Hl & ->)].
  - rewrite lock_of_make_ready. intros Hl. rewrite HP by done. by apply (wf_pending _ Hwf).
  - intros _. by apply (wf_pending _ Hwf).
Qed.

Lemma wf_leave A t l : wf A → t ≠ idle → l ≠ g_readytorun → wf (leave t l A).
Proof.
  intros Hwf Nt Nl. apply wf0_wf; [apply wf0_leave; [by apply wf_wf0|done]|].
  assert (running (leave t l A) = running A) as -> by (unfold running, ready, leave; simpl; by list_simpl).
  intros Hk. unfold pending, leave. simpl. destruct (decide (l = g_pendingtasks)) as [->|N]; list_simpl;
    [change (queued A g_pendingtasks) with (pending A)|change (queued A g_pendingtasks) with (pending A)];
    by rewrite (wf_pending _ Hwf).
Qed.

Lemma wf_change A t f :
  wf A → (∀ a, prio (f a) = prio a) → (∀ a, lock (f a) = lock a) → wf (change t f A).
Proof.
  intros Hwf Hp Hk. apply wf0_wf.
  - apply wf0_change; [by apply wf_wf0|done|]. intros a Ea. rewrite Hk. by eapply (wf_lock _ Hwf).
  - rewrite lock_of_change by done. apply (wf_pending _ Hwf).
Qed.

Lemma up_unblock_task_spec k A t l :
  good k A → t ∈ queued A l → blocked_list l = true →
  wp (up_unblock_task t)
    (λ b k', b = bool_decide (running (unblock t l A) ≠ running A) ∧ good k' (unblock t l A)) k.
Proof.
  intros [R Hwf] Ht Hl. pose proof (wf_wf0 _ Hwf) as W.
  destruct (wf0_running A W) as (q & Eq & _ & Hi).
  assert (l ≠ g_readytorun) as Nl by by intros ->. pose proof (rep_disjoint R) as Hd.
  assert (t ≠ idle) as Nt. { intros ->. by apply Nl, (Hd _ _ idle). }
  destruct (rep_member R l t Ht) as [a Ea]. destruct (rep_task R t a Ea) as (Hn & x & Ex & _).
  assert (state_of (queued A) t = wait_state l) as Est.
  { apply state_of_wait; [done|done|]. intros E%list_elem_of_lookup_2. by apply Nl, (Hd _ _ t). }
  unfold up_unblock_task. rewrite wp_bind, wp_head_of, (rep_running R).
  rewrite wp_bind. erewrite wp_get_tcb by done. cbn [task_state as_tcb]. rewrite Est.
  rewrite wp_bind, wp_assert, wp_bind by done.
  eapply wp_mono; [by eapply (removeblocked_spec _ _ _ t l)|]. intros [] k1 R1. rewrite wp_bind.
  eapply (wp_rep_set _ _ _ t a _ (with_slice RR_TICKS)); [done..|]. intros k2 R2.
  set (B := change t (with_slice RR_TICKS) (leave t l A)) in *.
  assert (wf B) as WB by (apply wf_change; [by apply wf_leave|done|done]).
  assert (running B = running A) as EB by (unfold running, ready, B; simpl; by list_simpl).
  assert (∀ l', t ∉ queued B l') as Hout by by apply leave_out.
  assert (task_of B !! t = Some (with_slice RR_TICKS a)) as EaB.
  { unfold B. rewrite lookup_change, decide_True by done. simpl. by rewrite Ea. }
  pose proof (wf_prio _ Hwf t a Ea) as Hpr. rewrite decide_False in Hpr by done.
  pose proof (wf0_ready _ (wf_wf0 _ WB)) as Hne.
  rewrite wp_bind. eapply wp_mono; [eapply addreadytorun_spec; [done|done|simpl; lia|done|done]|].
  intros b k3 [-> R3]. change (make_ready t B) with (unblock t l A) in *.
  assert (wf (unblock t l A)) as WU by (eapply wf_make_ready; [done|done|done|apply Hout]).
  rewrite wp_bind.
  assert (bool_decide (running (unblock t l A) = t) = bool_decide (running (unblock t l A) ≠ running A)) as ->.
  { apply bool_decide_ext.
    destruct (make_ready_running B t Hne (Hout g_readytorun)) as [(E & N & _)|(E & N & _)];
      change (running (unblock t l A)) with (running (make_ready t B)); rewrite E; naive_solver congruence. }
  apply (proj2 (wp_when _ _ _ _)). case_bool_decide as Hc.
  - eapply wp_mono; [by apply switch_from_spec, (wf0_ready _ (wf_wf0 _ WU))|].
    intros [] k4 R4. rewrite wp_ret. done.
  - rewrite wp_ret. split; [done|]. split; [|done].
    assert (running (unblock t l A) = running A) as -> by by destruct (decide (running (unblock t l A) = running A)).
    done.
Qed.

(** *** A new priority for a ready task *)

Lemma pending_leave_ready A t : pending (leave t g_readytorun A) = pending A.
Proof. done. Qed.

Lemma lock_of_leave A t l u : lock_of (leave t l A) u = lock_of A u.
Proof. done. Qed.

Section Reprio.
Context (k : kernel) (A : abs) (t p : Z) (a : task).
Context (R : rep (running A) k A) (Hwf : wf A) (Ea : task_of A !! t = Some a).
Context (Ht : t ∈ ready A) (Nt : t ≠ idle) (Hp : SCHED_PRIORITY_MIN ≤ p ≤ SCHED_PRIORITY_MAX).

Let B0 := change t (with_prio p) (leave t g_readytorun A).

Lemma reprio_out l : t ∉ queued B0 l.
Proof. by apply (leave_out A t g_readytorun (rep_disjoint R)). Qed.

Lemma reprio_wf0 : wf0 B0.
Proof.
  apply wf0_change_prio; [apply wf0_leave; [by apply wf_wf0|done]|done| |done].
  intros l _. apply reprio_out.
Qed.

Lemma reprio_task : task_of B0 !! t = Some (with_prio p a).
Proof. unfold B0. rewrite lookup_change, decide_True by done. simpl. by rewrite Ea. Qed.

Lemma reprio_lock u : lock_of B0 u = lock_of A u.
Proof. unfold B0. by rewrite lock_of_change. Qed.

(** Either the first ready task is the same one, and the lock still explains the
    pending tasks, or the processor changes hands. *)
Lemma reprio_ready_wf :
  wf0 (reprio_ready t p A) ∧
  (running (reprio_ready t p A) = running A → wf (reprio_ready t p A)).
Proof.
  pose proof reprio_wf0 as W0.
  assert (wf0 (reprio_ready t p A)) as W1 by (eapply wf0_make_ready; [done|exact reprio_task|done]).
  split; [done|]. intros Er. apply wf0_wf; [done|]. unfold reprio_ready in *. fold B0 in Er |- *.
  rewrite Er, lock_of_make_ready, reprio_lock. intros Hl.
  pose proof (wf_pending _ Hwf Hl) as HP.
  destruct (make_ready_running B0 t (wf0_ready _ W0) (reprio_out g_readytorun))
    as [(E & N & H)|(E & N & H & ->)]; [|exact HP].
  rewrite H; [exact HP|]. rewrite reprio_lock. by rewrite <- E, Er.
Qed.

Lemma reprio_wf : wf (reprio t p A).
Proof.
  unfold reprio. destruct reprio_ready_wf as [W0 W]. case_bool_decide; [auto|].
  apply wf0_wf; [|done]. apply wf0_merge; [done|]. intros u Hu.
  assert (u = t ∨ u ∈ pending A) as [->|Hu'].
  { revert Hu. unfold reprio_ready, make_ready. destruct (delayed _ _); unfold pending, enter; simpl; list_simpl.
    - rewrite elem_of_enqueue. tauto.
    - tauto. }
  - split; [done|]. unfold reprio_ready. rewrite task_of_make_ready. fold B0. rewrite reprio_task. eauto.
  - destruct (pending_tasks _ _ _ _ R (wf_wf0 _ Hwf) Hu') as (Nu & c & Ec). split; [done|].
    unfold reprio_ready. rewrite task_of_make_ready, lookup_change.
    simpl. rewrite Ec. by destruct (decide (u = t)).
Qed.

(** The exclusive or of the two changes of the list's head. *)
Lemma reprio_switch :
  xorb (bool_decide (t = running A)) (bool_decide (running (reprio_ready t p A) = t))
  = bool_decide (running (reprio_ready t p A) ≠ running A).
Proof.
  destruct (decide (t = running A)) as [E|N].
  - rewrite (bool_decide_true (t = running A)) by done. rewrite xorb_true_l.
    rewrite <- E. by case_bool_decide; case_bool_decide.
  - rewrite (bool_decide_false (t = running A)) by done. rewrite xorb_false_l.
    assert (running B0 = running A) as EB.
    { unfold B0, running, ready, leave. simpl. list_simpl.
      destruct (wf0_running A (wf_wf0 _ Hwf)) as (q & Eq & _). unfold ready in Eq. rewrite Eq.
      by rewrite filter_cons_True. }
    apply bool_decide_ext. unfold reprio_ready. fold B0.
    destruct (make_ready_running B0 t (wf0_ready _ reprio_wf0) (reprio_out g_readytorun))
      as [(E & N' & _)|(E & N' & _)]; rewrite E, ?EB; naive_solver congruence.
Qed.

(** The two steps that move the task. *)
Lemma reprio_ready_spec :
  wp (removed <-- sched_removereadytorun t ;; set t (set_sched_priority p) ;;;
      added <-- sched_addreadytorun t ;; ret (removed, added))
    (λ '(removed, added) k', removed = bool_decide (t = running A)
       ∧ added = bool_decide (running (reprio_ready t p A) = t)
       ∧ rep (running A) k' (reprio_ready t p A)) k.
Proof.
  destruct (wf0_running A (wf_wf0 _ Hwf)) as (q & Eq & Hq & _).
  destruct (list_elem_of_split _ _ Ht) as (l1 & l2 & El). rewrite wp_bind.
  assert (bool_decide (l1 = []) = bool_decide (t = running A)) as Eb.
  { apply bool_decide_ext. unfold running. rewrite El. pose proof (rep_nodup R g_readytorun) as Hn.
    change (NoDup (ready A)) in Hn. rewrite El in Hn. destruct l1 as [|y l1]; simpl; [done|].
    split; [done|]. intros ->. apply NoDup_cons in Hn as [Hn _]. set_solver. }
  eapply wp_mono.
  { apply (removereadytorun_spec (running A) k A t l1 l2); [done|done|]. intros -> ->. simpl in El.
    rewrite Eq in El. injection El as E ->. apply Hq; [by rewrite E|done]. }
  intros b k1 [-> R1]. rewrite wp_bind.
  eapply (wp_rep_set _ _ _ t a _ (with_prio p)); [done..|]. intros k2 R2. rewrite wp_bind.
  eapply wp_mono.
  { eapply (addreadytorun_spec _ _ _ t (with_prio p a)); [exact R2|exact reprio_task|simpl; lia|exact reprio_out|].
    exact (wf0_ready _ reprio_wf0). }
  intros b k3 [-> R3]. rewrite wp_ret. by rewrite Eb.
Qed.

End Reprio.

Lemma state_of_ready k cpu A t :
  rep cpu k A → t ∈ ready A → in_ready_states (state_of (queued A) t) = true.
Proof.
  intros R Ht. pose proof (rep_disjoint R) as Hd. destruct (decide (ready A !! 0%nat = Some t)) as [E|N].
  - by rewrite state_of_running.
  - by rewrite (state_of_wait _ t g_readytorun).
Qed.

Lemma up_reprioritize_rtr_spec k A t p :
  good k A → t ∈ ready A → t ≠ idle → SCHED_PRIORITY_MIN ≤ p ≤ SCHED_PRIORITY_MAX →
  wp (up_reprioritize_rtr t p)
    (λ b k', b = bool_decide (running (reprio_ready t p A) ≠ running A) ∧ good k' (reprio t p A)) k.
Proof.
  intros [R Hwf] Ht Nt Hp. destruct (rep_member R g_readytorun t Ht) as [a Ea].
  destruct (rep_task R t a Ea) as (Hn & x & Ex & _).
  pose proof (reprio_ready_spec k A t p a R Hwf Ea Ht Nt Hp) as Hmove.
  pose proof (reprio_ready_wf k A t p a R Hwf Ea Ht Nt Hp) as [W0 W].
  pose proof (reprio_wf k A t p a R Hwf Ea Ht Nt Hp) as WF.
  pose proof (reprio_switch k A t p R Hwf Ht Nt Hp) as Hsw.
  unfold up_reprioritize_rtr. rewrite wp_bind. erewrite wp_get_tcb by done. cbn [task_state as_tcb].
  rewrite (state_of_ready k _ A t R Ht), (proj2 (Z.ltb_ge _ _)) by lia. simpl.
  rewrite wp_bind, wp_head_of, (rep_running R).
  rewrite wp_bind in Hmove. rewrite wp_bind. eapply wp_mono; [exact Hmove|]. cbv beta. intros r k1 H1.
  rewrite wp_bind in H1. rewrite wp_bind. eapply wp_mono; [exact H1|]. cbv beta. intros [] k2 H2.
  rewrite wp_bind in H2. rewrite wp_bind. eapply wp_mono; [exact H2|]. intros b k3 (-> & -> & R3).
  clear Hmove H1 H2. rewrite Hsw. unfold reprio in *. rewrite wp_bind. apply (proj2 (wp_when _ _ _ _)).
  destruct (decide (running (reprio_ready t p A) = running A)) as [E|Hc].
  - rewrite (bool_decide_false (_ ≠ _)), (bool_decide_true (_ = _)) by (done || by intros []).
    rewrite wp_ret. split; [done|]. split; [by rewrite E|auto].
  - rewrite (bool_decide_true (_ ≠ _)), (bool_decide_false (_ = _)) by done.
    rewrite (bool_decide_false (_ = _)) in WF by done. rewrite wp_bind.
    pose proof (merge_spec' _ _ _ R3 W0) as Hm. rewrite wp_bind in Hm.
    eapply wp_mono; [exact Hm|]. cbv beta. intros h k4 H4.
    rewrite wp_bind. eapply wp_mono; [exact H4|]. intros [] k5 R5.
    pose proof (rep_merge_wf0 _ _ _ R3 W0) as Wm.
    eapply wp_mono; [by apply switch_from_spec, (wf0_ready _ Wm)|].
    intros [] k6 R6. rewrite wp_ret. done.
Qed.

(** *** Pending tasks released *)

Lemma up_release_pending_spec k A cpu :
  rep cpu k A → wf0 A → cpu = running A →
  wp up_release_pending
    (λ b k', b = bool_decide (running (merge A) ≠ running A) ∧ good k' (merge A)) k.
Proof.
  intros R W ->. unfold up_release_pending. rewrite wp_bind, wp_head_of, (rep_running R), wp_bind.
  eapply wp_mono.
  { apply mergepending_spec; [done|by apply (wf0_ordered _ W g_pendingtasks)|].
    exists idle. split; [by destruct (wf0_running A W) as (? & _ & _ & ?)|].
    intros u Hu. destruct (pending_tasks _ _ _ _ R W Hu) as (Nu & c & Ec). by eapply idle_below. }
  intros b k1 [-> R1]. pose proof (rep_merge_wf0 _ _ _ R W) as Wm.
  assert (wf (merge A)) as WM by by apply wf0_wf.
  rewrite wp_bind. apply (proj2 (wp_when _ _ _ _)). case_bool_decide as Hc.
  - eapply wp_mono; [by apply switch_from_spec, (wf0_ready _ Wm)|]. intros [] k2 R2. by rewrite wp_ret.
  - rewrite wp_ret. split; [done|]. split; [|done].
    destruct (decide (running (merge A) = running A)) as [->|]; done.
Qed.

(** *** The preemption lock *)

Lemma good_running k A :
  good k A → ∃ a x, task_of A !! running A = Some a ∧ running A ≠ NULL
    ∧ tcbs k !! running A = Some (as_tcb TSTATE_TASK_RUNNING x a).
Proof.
  intros [R Hwf]. destruct (wf0_running A (wf_wf0 _ Hwf)) as (q & Eq & _).
  destruct (rep_member R g_readytorun (running A)) as [a Ea]; [change (running A ∈ ready A); rewrite Eq; set_solver|].
  destruct (rep_task R _ a Ea) as (Hn & x & Ex & _). exists a, x. split_and!; [done|done|].
  rewrite Ex, state_of_running; [done|apply (rep_disjoint R)|]. change (ready A !! 0%nat = Some (running A)).
  by rewrite Eq.
Qed.

Lemma running_change A t f : running (change t f A) = running A.
Proof. done. Qed.

Lemma sched_lock_spec k A :
  good k A → (irq A = false → lock_of A (running A) < MAX_LOCK_COUNT) →
  wp sched_lock (λ r k', r = OK ∧ good k' (lock_call A)) k.
Proof.
  intros G Hk. destruct (good_running k A G) as (a & x & Ea & Hn & Ex). destruct G as [R Hwf].
  unfold sched_lock, up_interrupt_context.
  rewrite wp_bind, wp_head_of, (rep_running R), wp_bind, wp_gets, <- (rep_irq _ _ _ R).
  rewrite (proj2 (Z.eqb_neq _ _) Hn), wp_bind. unfold lock_call. destruct (irq A) eqn:Hi.
  { apply (proj2 (wp_when _ _ _ _)). simpl. by rewrite wp_ret. }
  simpl. specialize (Hk eq_refl). rewrite (lock_of_task A _ a) in Hk by done.
  pose proof (wf_lock _ Hwf _ a Ea) as Hl. unfold MAX_LOCK_COUNT in *.
  rewrite wp_bind. erewrite wp_get_tcb by done. cbn [lockcount as_tcb].
  rewrite wp_bind, wp_assert by (by apply Z.ltb_lt). rewrite i16_small by lia.
  eapply (wp_rep_set _ _ _ _ a _ (λ a, with_lock (lock a + 1) a)); [done..|].
  intros k' R'. rewrite wp_ret. split; [done|]. split; [done|]. apply wf0_wf.
  - apply wf0_change; [by apply wf_wf0|done|]. intros b Eb. rewrite Ea in Eb. injection Eb as <-. simpl.
    unfold MAX_LOCK_COUNT. lia.
  - rewrite running_change. unfold lock_of. rewrite lookup_change, decide_True, Ea by done. simpl. lia.
Qed.

(** The end of [sched_unlock] finds the caller running and does nothing. *)
Lemma unlock_slice_spec k A (Q : unit → kernel → Prop) :
  good k A → Q tt k → wp (unlock_slice (running A)) Q k.
Proof.
  intros G HQ. destruct (good_running k A G) as (a & x & Ea & Hn & Ex). destruct G as [R Hwf].
  unfold unlock_slice. rewrite wp_bind. erewrite wp_get_tcb by done.
  apply (proj2 (wp_when _ _ _ _)). destruct (_ && _); [|done].
  rewrite wp_bind, wp_head_of, (rep_running R), Z.eqb_refl. done.
Qed.

Lemma release_spec k B :
  rep (running B) k B → wf0 B →
  wp (p <-- head_of g_pendingtasks ;; if negb (p =? NULL) then up_release_pending else ret false)
    (λ b k', b = bool_decide (running (merge B) ≠ running B) ∧ good k' (merge B)) k.
Proof.
  intros R W. rewrite wp_bind, wp_head_of, (rep_head R). change (queued B g_pendingtasks) with (pending B).
  destruct (pending B) as [|t P] eqn:EP; simpl.
  - assert (running (merge B) = running B) as ERB by by rewrite merge_empty.
    rewrite wp_ret, ERB, bool_decide_false by (by intros []). split; [done|]. split.
    + rewrite ERB. by rewrite merge_empty.
    + apply wf0_wf; [by eapply rep_merge_wf0|done].
  - destruct (pending_tasks _ _ _ t R W) as (_ & c & Ec); [rewrite EP; set_solver|].
    destruct (rep_task R t c Ec) as (Ht & _). rewrite (proj2 (Z.eqb_neq _ _) Ht). simpl.
    by eapply up_release_pending_spec.
Qed.

Lemma sched_unlock_spec k A :
  good k A →
  wp sched_unlock
    (λ r k', r = (if bool_decide (running (unlock_call A) = running A) then Some OK else None)
      ∧ good k' (unlock_call A)) k.
Proof.
  intros G. destruct (good_running k A G) as (a & x & Ea & Hn & Ex). destruct G as [R Hwf].
  unfold sched_unlock, up_interrupt_context.
  rewrite wp_bind, wp_head_of, (rep_running R), wp_bind, wp_gets, <- (rep_irq _ _ _ R).
  rewrite (proj2 (Z.eqb_neq _ _) Hn). unfold unlock_call. destruct (irq A) eqn:Hi; simpl.
  { rewrite wp_ret, bool_decide_true by done. done. }
  pose proof (wf_lock _ Hwf _ a Ea) as Hl. unfold MAX_LOCK_COUNT in *.
  rewrite wp_bind. erewrite wp_get_tcb by done. cbn [lockcount as_tcb]. rewrite wp_bind.
  set (B := change (running A) release A).
  assert (task_of B !! running A = Some (release a)) as EB.
  { unfold B. by rewrite lookup_change, decide_True, Ea. }
  assert (wp (when (negb (lock a =? 0)) (set (running A) (set_lockcount (i16 (lock a - 1)))))
    (λ _ k', rep (running A) k' B) k) as Hset.
  { apply (proj2 (wp_when _ _ _ _)). destruct (Z.eqb_spec (lock a) 0) as [E0|N0]; simpl.
    - assert (B ≡ A) as ->; [|done]. split_and!; try done. unfold B, change. simpl.
      apply alter_id. intros b Eb. rewrite Ea in Eb. injection Eb as <-. unfold release. rewrite E0.
      simpl. rewrite <- E0. by destruct a.
    - rewrite i16_small by lia. eapply (wp_rep_set _ _ _ _ a _ release); [done..| |done|auto].
      intros st y. unfold release. by rewrite (proj2 (Z.eqb_neq _ _) N0). }
  eapply wp_mono; [exact Hset|]. intros [] k1 R1.
  destruct (rep_task R1 _ _ EB) as (_ & y & Ey & _).
  rewrite wp_bind. erewrite wp_get_tcb by done. cbn [lockcount as_tcb].
  assert (wf0 B) as WB.
  { apply wf0_change; [by apply wf_wf0|done|]. intros b Eb. rewrite Ea in Eb. injection Eb as <-. simpl.
    unfold MAX_LOCK_COUNT. destruct (Z.eqb_spec (lock a) 0); lia. }
  rewrite (lock_of_task B _ _ EB).
  destruct (Z.eqb_spec (lock (release a)) 0) as [E0|N0].
  - rewrite (proj2 (Z.leb_le _ _)) by lia. rewrite wp_bind.
    eapply (wp_rep_set _ _ _ _ (release a) _ id); [done|done| |done|].
    { intros st z. rewrite <- E0. done. }
    intros k2 R2. assert (change (running A) id B ≡ B) as EBB.
    { split_and!; try done. unfold change. simpl. by apply alter_id. }
    rewrite EBB in R2. pose proof (release_spec k2 B R2 WB) as Hrel.
    rewrite wp_bind in Hrel. rewrite wp_bind. eapply wp_mono; [exact Hrel|]. cbv beta. intros p k3' H3.
    rewrite wp_bind. change (running B) with (running A) in H3.
    eapply wp_mono; [exact H3|]. intros b k3 [-> G3].
    destruct (decide (running (merge B) = running A)) as [Er|Nr].
    + rewrite bool_decide_false by (by intros []). rewrite (bool_decide_true (_ = _)) by done. rewrite wp_bind.
      rewrite <- Er. apply (unlock_slice_spec k3 (merge B)); [done|]. by rewrite wp_ret.
    + rewrite bool_decide_true by done. rewrite (bool_decide_false (_ = _)) by done. by rewrite wp_ret.
  - rewrite (proj2 (Z.leb_gt _ _)) by (revert N0; unfold release; simpl; destruct (Z.eqb_spec (lock a) 0); lia).
    rewrite wp_ret, bool_decide_true by done. split; [done|]. split; [done|]. apply wf0_wf; [done|].
    unfold B at 2. rewrite running_change, (lock_of_task B _ _ EB). done.
Qed.

(** *** Priorities *)

(** A ready task that does not get ahead of the running one. *)
Lemma reprio_ready_behind k A t p :
  good k A → t ∈ ready A → t ≠ idle → t ≠ running A → SCHED_PRIORITY_MIN ≤ p ≤ SCHED_PRIORITY_MAX →
  p ≤ prio_of A (running A) → running (reprio_ready t p A) = running A.
Proof.
  intros [R Hwf] Ht Nt Nr Hp Hle. destruct (rep_member R g_readytorun t Ht) as [a Ea].
  pose proof (reprio_wf0 k A t p R Hwf Ht Nt Hp) as W0.
  set (B := change t (with_prio p) (leave t g_readytorun A)) in *.
  assert (running B = running A) as EB.
  { unfold B, running, ready, leave. simpl. list_simpl.
    destruct (wf0_running A (wf_wf0 _ Hwf)) as (q & Eq & _). unfold ready in Eq. rewrite Eq.
    by rewrite filter_cons_True. }
  assert (prio_of B t = p) as Et.
  { apply (prio_of_task B t (with_prio p a)). by apply (reprio_task A t p a). }
  assert (prio_of B (running A) = prio_of A (running A)) as Er.
  { unfold prio_of, B. rewrite lookup_change, decide_False by done. done. }
  unfold reprio_ready, make_ready, delayed. fold B. rewrite EB, Et, Er, (proj2 (Z.ltb_ge _ _)) by done.
  rewrite andb_false_r, running_enter, EB, Et, Er by apply (wf0_ready _ W0).
  by rewrite (proj2 (Z.leb_le _ _)).
Qed.

(** The running task keeps the processor above the next one. *)
Lemma wf_raise_running k A p :
  good k A → running A ≠ idle → SCHED_PRIORITY_MIN ≤ p ≤ SCHED_PRIORITY_MAX →
  (∀ n, next_ready A = Some n → prio_of A n < p) → wf (change (running A) (with_prio p) A).
Proof.
  intros [R Hwf] Nr Hp Hn. pose proof Hwf as [Hi Ho Hpr Hl HP].
  destruct (wf0_running A (wf_wf0 _ Hwf)) as (q & Eq & _).
  set (t := running A) in *. pose proof (rep_nodup R g_readytorun) as Hd. change (NoDup (ready A)) in Hd.
  rewrite Eq in Hd. apply NoDup_cons in Hd as [Hd _].
  assert (∀ u, u ≠ t → prio_of (change t (with_prio p) A) u = prio_of A u) as Hoth.
  { intros u Nu. unfold prio_of. by rewrite lookup_change, decide_False. }
  destruct (rep_member R g_readytorun t) as [a Ea]; [change (t ∈ ready A); rewrite Eq; set_solver|].
  apply wf0_wf; [split; [done|..]|].
  - intros l Hl'. destruct (decide (l = g_readytorun)) as [->|N].
    + change (ordered (prio_of (change t (with_prio p) A)) (ready A)). pose proof (Ho g_readytorun eq_refl) as Hor.
      change (ordered (prio_of A) (ready A)) in Hor. rewrite Eq in Hor |- *.
      apply StronglySorted_inv in Hor as [Hs _]. constructor.
      * eapply ordered_ext; [|exact Hs]. intros x Hx. symmetry. apply Hoth. set_solver.
      * assert (prio_of (change t (with_prio p) A) t = p) as ->.
        { unfold prio_of. by rewrite lookup_change, decide_True, Ea. }
        destruct q as [|n q]; [constructor|]. apply StronglySorted_inv in Hs as [_ Hs].
        assert (prio_of A n < p) by (apply Hn; unfold next_ready; by rewrite Eq).
        assert (n ≠ t) by set_solver. constructor; [rewrite Hoth; lia|].
        rewrite Forall_forall in Hs |- *. intros y Hy. rewrite Hoth by set_solver. specialize (Hs y Hy). lia.
    + eapply ordered_ext; [|by apply (Ho l)]. intros x Hx. symmetry. apply Hoth. intros ->.
      apply N, (rep_disjoint R _ _ t); [done|]. change (t ∈ ready A). rewrite Eq. set_solver.
  - intros u b. rewrite lookup_change. destruct (decide (u = t)) as [->|N]; [|by apply Hpr].
    intros (c & Ec & ->)%fmap_Some. by rewrite decide_False.
  - intros u b. rewrite lookup_change. destruct (decide (u = t)) as [->|N]; [|by apply Hl].
    intros (c & Ec & ->)%fmap_Some. simpl. eauto.
  - rewrite lock_of_change by done. exact HP.
Qed.

(** A task that waits in an ordered list; its state does not change. *)
Lemma requeue_wf k A t l p :
  good k A → t ∈ queued A l → l ≠ g_readytorun → SCHED_PRIORITY_MIN ≤ p ≤ SCHED_PRIORITY_MAX →
  wf (requeue t p l A).
Proof.
  intros [R Hwf] Ht Nl Hp. pose proof (rep_disjoint R) as Hd. pose proof (wf_wf0 _ Hwf) as W.
  destruct (rep_member R l t Ht) as [a Ea].
  assert (t ≠ idle) as Nt.
  { intros ->. destruct (wf0_running A W) as (_ & _ & _ & Hi). by apply Nl, (Hd _ _ idle). }
  apply wf0_wf.
  - eapply wf0_enter; [|rewrite lookup_change, decide_True by done; simpl; by rewrite Ea|done].
    apply wf0_change_prio; [by apply wf0_leave|done| |done]. intros l' _. by apply leave_out.
  - assert (running (requeue t p l A) = running A) as ->.
    { unfold requeue. rewrite running_enter_other, running_change by done.
      unfold running, ready, leave. simpl. by list_simpl. }
    assert (lock_of (requeue t p l A) (running A) = lock_of A (running A)) as ->.
    { unfold requeue. by apply (lock_of_change (leave t l A)). }
    intros Hk. pose proof (wf_pending _ Hwf Hk) as HP.
    assert (l ≠ g_pendingtasks). { intros ->. change (t ∈ pending A) in Ht. rewrite HP in Ht. set_solver. }
    rewrite <- HP. unfold requeue, pending, enter. simpl. by list_simpl.
Qed.

Lemma requeue_spec k A t l p :
  good k A → t ∈ queued A l → l ≠ g_readytorun → SCHED_PRIORITY_MIN ≤ p ≤ SCHED_PRIORITY_MAX →
  wp (queue_op (Dq.dq_rem t) l ;;; set t (set_sched_priority p) ;;; sched_addprioritized t l ;;; ret tt)
    (λ _ k', good k' (requeue t p l A)) k.
Proof.
  intros G Ht Nl Hp. pose proof (requeue_wf k A t l p G Ht Nl Hp) as WF. destruct G as [R Hwf].
  destruct (rep_member R l t Ht) as [a Ea]. destruct (rep_task R t a Ea) as (Hn & x & Ex & Hx).
  destruct (list_elem_of_split _ _ Ht) as (l1 & l2 & El).
  pose proof (rep_nodup R l) as Hnd. rewrite El in Hnd.
  set (B := change t (with_prio p) (leave t l A)).
  assert (queued B l = l1 ++ l2) as EB.
  { unfold B, leave. simpl. rewrite fn_lookup_insert, El. by apply Sq.filter_ne_once. }
  assert (t ∉ l1 ++ l2) as Hout by (rewrite <- EB; apply (leave_out A t l (rep_disjoint R) Ht)).
  rewrite wp_bind. eapply wp_mono; [by apply (rem_queue _ k A t l l1 l2 R El k)|].
  intros [] k1 (HQ & HD & HT & HS & HR & HC & HE). rewrite wp_bind. erewrite wp_set_tcb; [|done|by rewrite HT].
  pose proof (rep_set _ _ _ t a (set_sched_priority p) (with_prio p) _ R Ea Ex) as R'.
  specialize (R' ltac:(done) ltac:(done)). rewrite wp_bind.
  assert (∀ u b, task_of A !! u = Some b → u ≠ t →
    prio_of B u = prio_of A u ∧ prio_of A u = prio b) as Hpu.
  { intros u b Eb Nu. split; [|by apply prio_of_task]. unfold prio_of, B. by rewrite lookup_change, decide_False. }
  assert (prio_of B t = p) as Ept by (unfold prio_of, B; rewrite lookup_change, decide_True by done; simpl; by rewrite Ea).
  eapply wp_mono.
  { apply (addprioritized_spec (prio_of B) _ l (l1 ++ l2) t); ksimpl; [| |done|done| |lia].
    - pose proof (proj2 HQ l) as H. by rewrite fn_lookup_insert in H.
    - intros u Hu. ksimpl. rewrite HT. apply elem_of_cons in Hu as [->|Hu].
      { eexists. rewrite lookup_insert_eq. split; [done|]. by rewrite Ept. }
      assert (u ≠ t) by (intros ->; done). rewrite lookup_insert_ne by done.
      destruct (rep_member R l u) as [b Eb]; [rewrite El; set_solver|].
      destruct (rep_task R u b Eb) as (_ & z & Ez & _). eexists. split; [exact Ez|].
      destruct (Hpu u b Eb) as [-> ->]; done.
    - apply elem_of_dom. rewrite HD, (rep_links _ _ _ R). apply elem_of_dom. eauto. }
  intros bb k2 ((KT & KS & KR & KC & KE & KL) & Hq & Ho & _). rewrite wp_ret. ksimpl.
  set (Q' := <[l := enqueue (prio_of B) t (l1 ++ l2)]> (queued A)).
  assert (requeue t p l A ≡ upd_queued Q' (change t (with_prio p) A)) as Eqv.
  { split_and!; try done. intros l'.
    change (queued (requeue t p l A) l') with ((<[l := enqueue (prio_of B) t (queued B l)]> (queued B)) l').
    rewrite EB. unfold Q'. cbn [queued upd_queued].
    destruct (decide (l = l')) as [<-|N]; list_simpl; [done|]. unfold B, leave. simpl. by list_simpl. }
  split; [|done]. assert (running (requeue t p l A) = running A) as ->.
  { rewrite Eqv. unfold running, ready, Q'. simpl. by list_simpl. }
  rewrite Eqv. eapply rep_lists; [exact R'|..]; ksimpl; try congruence.
  - pose proof (queues_move (links k1) (links k2) (lists k1) (lists k2) _ l _ _ HQ Ho KL Hq) as H.
    destruct H as [H1 H2].
    { intros y l' Hy Hl'. destruct (decide (l = l')) as [<-|N]; [done|]. rewrite fn_lookup_insert_ne in Hl' by done.
      assert (y ∈ queued A l) as Hyl; [|by apply (rep_disjoint R _ _ y)].
      rewrite El. destruct Hy as [Hy|Hy]; [set_solver|]. apply elem_of_enqueue in Hy. set_solver. }
    split; [eapply disjoint_proper; [|exact H1]|intros l'; specialize (H2 l'); revert H2];
      unfold Q'; [intros l'|]; destruct (decide (l = l')) as [<-|N]; by list_simpl.
  - rewrite KT, HT, KR, HR, KC, HC. eapply tasks_retag; [apply (rep_tasks _ _ _ R')|]. ksimpl.
    intros u. destruct (<[t:=_]> (tcbs k) !! u) as [v|] eqn:Ev; [|done]. simpl. f_equal. symmetry.
    assert (state_of Q' u = state_of (queued A) u) as ->.
    { apply state_of_ext; [|unfold Q'; by list_simpl]. apply insert_list_elem.
      rewrite elem_of_enqueue, El. set_solver. }
    by eapply retag_same; [apply (rep_tasks _ _ _ R')|].
  - rewrite (proj2 Ho). congruence.
Qed.

Lemma wf_upd_irqerr A e : wf A → wf (upd_irqerr e A).
Proof. by intros []. Qed.

Lemma good_set_errno k A e : good k A → wp (set_errno e) (λ _ k', good k' (set_err e A)) k.
Proof.
  intros [R Hwf]. eapply wp_mono; [apply set_errno_spec; [done|apply wf0_ready, wf_wf0, Hwf]|].
  intros [] k' R'. unfold set_err in *. destruct (irq A); (split; [done|]).
  - by apply wf_upd_irqerr.
  - by apply wf_change.
Qed.

Lemma good_set k A t a f g (Q : unit → kernel → Prop) :
  good k A → task_of A !! t = Some a → (∀ st x, f (as_tcb st x a) = as_tcb st x (g a)) → ctx (g a) = ctx a →
  wf (change t g A) → (∀ k', good k' (change t g A) → Q tt k') → wp (set t f) Q k.
Proof. intros [R Hwf] Ea Hf Hc Hw HQ. eapply wp_rep_set; [done..|]. intros k' R'. by apply HQ. Qed.

(** The second ready task, in the links. *)
Lemma good_next k A n :
  good k A → next_ready A = Some n →
  ∃ v b x, links k !! running A = Some v ∧ Dq.flink v = n ∧ n ≠ NULL
    ∧ task_of A !! n = Some b ∧ tcbs k !! n = Some (as_tcb (state_of (queued A) n) x b).
Proof.
  intros [R Hwf] En. unfold next_ready in En.
  destruct (ready A) as [|t [|n' q]] eqn:Er; try done. injection En as ->.
  assert (running A = t) as -> by (unfold running; by rewrite Er).
  pose proof (proj2 (rep_queues _ _ _ R) g_readytorun) as Hq. unfold ready in Er. rewrite Er in Hq.
  destruct (Dq.dq_cut_node _ _ [] _ _ Hq) as (_ & c & r & Elt & _ & _ & _ & Er' & _). simpl in Er'. subst r.
  destruct (rep_member R g_readytorun n) as [b Eb]; [rewrite Er; set_solver|].
  destruct (rep_task R n b Eb) as (Hn & x & Ex & _). eauto 10.
Qed.

Lemma good_next_none k A :
  good k A → next_ready A = None → ∃ v, links k !! running A = Some v ∧ Dq.flink v = NULL.
Proof.
  intros [R Hwf] En. unfold next_ready in En. destruct (wf0_running A (wf_wf0 _ Hwf)) as (q & Eq & _).
  rewrite Eq in En. destruct q; [|done].
  pose proof (proj2 (rep_queues _ _ _ R) g_readytorun) as Hq. unfold ready in Eq. rewrite Eq in Hq.
  destruct (Dq.dq_cut_node _ _ [] _ _ Hq) as (_ & c & r & Elt & _ & _ & _ & Er' & _). simpl in Er'. subst r. eauto.
Qed.

Lemma setpriority_running k A p a (Q : unit → kernel → Prop) n :
  good k A → running A ≠ idle → SCHED_PRIORITY_MIN ≤ p ≤ SCHED_PRIORITY_MAX →
  task_of A !! running A = Some a → next_ready A = Some n →
  (∀ k', good k' (if p <=? prio_of A n then reprio (running A) p A else change (running A) (with_prio p) A) → Q tt k') →
  wp (v <-- get_links (running A) ;; n <-- get (Dq.flink v) ;;
      if p <=? sched_priority n then up_reprioritize_rtr (running A) p ;;; ret tt
      else set (running A) (set_sched_priority p)) Q k.
Proof.
  intros G Nr Hp Ea En HQ. destruct (good_next k A n G En) as (v & b & x & Ev & Ef & Hn & Eb & Ex).
  destruct (good_running k A G) as (_ & _ & _ & Hr & _).
  rewrite wp_bind, (wp_get_links _ _ v), wp_bind, Ef by done. erewrite wp_get_tcb by done.
  cbn [sched_priority as_tcb]. rewrite (prio_of_task A n b) in HQ by done.
  destruct (Z.leb_spec p (prio b)) as [Hle|Hlt].
  - rewrite wp_bind. eapply wp_mono.
    { apply up_reprioritize_rtr_spec; [done| |done|done].
      destruct (wf0_running A (wf_wf0 _ (proj2 G))) as (q & Eq & _). rewrite Eq. set_solver. }
    intros bb k' [_ G']. rewrite wp_ret. by apply HQ.
  - eapply (good_set k A _ a _ (with_prio p)); [done..| |done].
    eapply wf_raise_running; [done|done|done|]. intros n' En'. rewrite En in En'. injection En' as <-.
    by rewrite (prio_of_task A n b).
Qed.

Lemma setpriority_ready k A t p a (Q : unit → kernel → Prop) :
  good k A → t ∈ ready A → t ≠ idle → t ≠ running A → SCHED_PRIORITY_MIN ≤ p ≤ SCHED_PRIORITY_MAX →
  task_of A !! t = Some a →
  (∀ k', good k' (if prio_of A (running A) <? p then reprio t p A else reprio_ready t p A) → Q tt k') →
  wp (r <-- get (running A) ;;
      if sched_priority r <? p then up_reprioritize_rtr t p ;;; ret tt
      else
        b <-- sched_removereadytorun t ;; assert_ (negb b) ;;;
        set t (set_sched_priority p) ;;;
        b <-- sched_addreadytorun t ;; assert_ (negb b)) Q k.
Proof.
  intros G Ht Nt Nr Hp Ea HQ. destruct (good_running k A G) as (ar & x & Ear & Hr & Exr).
  rewrite wp_bind. erewrite wp_get_tcb by done. cbn [sched_priority as_tcb].
  rewrite (prio_of_task A _ ar) in HQ by done. destruct (Z.ltb_spec (prio ar) p) as [Hlt|Hle].
  - rewrite wp_bind. eapply wp_mono; [by apply up_reprioritize_rtr_spec|].
    intros bb k' [_ G']. rewrite wp_ret. by apply HQ.
  - assert (running (reprio_ready t p A) = running A) as Erun.
    { eapply reprio_ready_behind; try done. by rewrite (prio_of_task A _ ar). }
    pose proof (reprio_ready_wf k A t p a (proj1 G) (proj2 G) Ea Ht Nt Hp) as [_ W].
    pose proof (reprio_ready_spec k A t p a (proj1 G) (proj2 G) Ea Ht Nt Hp) as Hmove.
    rewrite wp_bind in Hmove. rewrite wp_bind. eapply wp_mono; [exact Hmove|]. cbv beta. intros r k1 H1.
    rewrite wp_bind in H1. destruct (negb r) eqn:Er.
    + rewrite wp_bind, wp_assert, wp_bind by done. eapply wp_mono; [exact H1|]. cbv beta. intros [] k2 H2.
      rewrite wp_bind in H2. rewrite wp_bind. eapply wp_mono; [exact H2|]. intros b k3 (_ & -> & R3).
      rewrite Erun, bool_decide_false in * by congruence. rewrite wp_assert by done. apply HQ. split; [by rewrite Erun|auto].
    + exfalso. apply wp_run in H1 as ([] & k2 & _ & H2). rewrite wp_bind in H2.
      apply wp_run in H2 as (b & k3 & _ & (-> & _)). by rewrite bool_decide_false in Er.
Qed.

Lemma setpriority_spec k A t p :
  good k A → t ≠ idle → is_Some (list_with (queued A) t) → SCHED_PRIORITY_MIN ≤ p ≤ SCHED_PRIORITY_MAX →
  wp (sched_setpriority t p) (λ r k', r = OK ∧ good k' (setprio t p A)) k.
Proof.
  intros G Nt [l El] Hp. pose proof G as [R Hwf]. pose proof (rep_disjoint R) as Hd.
  assert (t ∈ queued A l) as Ht.
  { unfold list_with in El. apply fmap_Some in El as ([i l'] & E & ->). apply list_find_Some in E. naive_solver. }
  destruct (rep_member R l t Ht) as [a Ea]. destruct (rep_task R t a Ea) as (Hn & x & Ex & _).
  destruct (wf0_running A (wf_wf0 _ Hwf)) as (q & Eq & Hq & Hi).
  unfold sched_setpriority, setprio. rewrite wp_bind, wp_head_of, (rep_running R).
  rewrite (proj2 (Z.ltb_ge _ _)), (proj2 (Z.ltb_ge _ _)) by lia. cbn [orb].
  assert (u8 p = p) as -> by (apply u8_small; unfold SCHED_PRIORITY_MIN, SCHED_PRIORITY_MAX in *; lia).
  rewrite wp_bind. erewrite wp_get_tcb by done. cbn [task_state as_tcb]. rewrite wp_bind.
  destruct (decide (t = running A)) as [E|Nr].
  - assert (t ∈ ready A) as Htr by (rewrite Eq, E; set_solver).
    rewrite (bool_decide_true (t ∈ ready A)), (bool_decide_true (t = running A)) by done.
    rewrite state_of_running; [|done|change (ready A !! 0%nat = Some t); by rewrite Eq, E].
    subst t. destruct q as [|n q]; [by destruct Hq|].
    assert (next_ready A = Some n) as En by (unfold next_ready; by rewrite Eq).
    rewrite En. eapply setpriority_running; [done..|]. intros k' G'. by rewrite wp_ret.
  - assert (state_of (queued A) t = wait_state l) as Est.
    { apply state_of_wait; [done|done|]. change (ready A !! 0%nat ≠ Some t). rewrite Eq. simpl. congruence. }
    rewrite Est. destruct (decide (l = g_readytorun)) as [->|Nl].
    + rewrite (bool_decide_true (t ∈ ready A)), (bool_decide_false (t = running A)) by done.
      cbn [wait_state]. eapply setpriority_ready; [done..|]. intros k' G'. by rewrite wp_ret.
    + rewrite (bool_decide_false (t ∈ ready A)) by (intros Htr; by apply Nl, (Hd _ _ t)). rewrite El.
      assert (∀ Q : unit → kernel → Prop, (∀ k', good k' (requeue t p l A) → Q tt k') →
        wp (queue_op (Dq.dq_rem t) l ;;; set t (set_sched_priority p) ;;; sched_addprioritized t l ;;; ret tt) Q k) as Hre.
      { intros Q HQ. eapply wp_mono; [by apply requeue_spec|]. intros [] k' G'. by apply HQ. }
      assert (∀ Q : unit → kernel → Prop, prioritized l = false → (∀ k', good k' (change t (with_prio p) A) → Q tt k') →
        wp (set t (set_sched_priority p)) Q k) as Hset.
      { intros Q Hl HQ. eapply (good_set k A t a _ (with_prio p)); [done..| |done].
        pose proof (wf0_change_prio A t p (wf_wf0 _ Hwf) Nt) as W. apply wf0_wf.
        - apply W; [|done]. intros l' Hl' Ht'. assert (l' = l) as -> by by apply (Hd _ _ t). congruence.
        - rewrite lock_of_change by done. apply (wf_pending _ Hwf). }
      destruct l; cbn [wait_state prioritized snd g_tasklisttable]; unfold list_of;
        cbn [fst snd g_tasklisttable]; try done;
        first [rewrite wp_bind, wp_ret; apply Hre; intros k' G'; by rewrite wp_ret
              |apply Hset; [done|]; intros k' G'; by rewrite wp_ret].
Qed.

Lemma setpriority_invalid k A t p :
  good k A → ¬ (SCHED_PRIORITY_MIN ≤ p ≤ SCHED_PRIORITY_MAX) →
  wp (sched_setpriority t p) (λ r k', r = ERROR ∧ good k' (set_err EINVAL A)) k.
Proof.
  intros G Hp. unfold sched_setpriority. rewrite wp_bind, wp_head_of.
  rewrite (proj2 (orb_true_iff _ _)) by (rewrite !Z.ltb_lt; lia).
  rewrite wp_bind. eapply wp_mono; [by apply good_set_errno|]. intros [] k' G'. by rewrite wp_ret.
Qed.

Lemma list_with_ready A t : disjoint_lists (queued A) → t ∈ ready A → is_Some (list_with (queued A) t).
Proof. intros Hd Ht. rewrite (list_with_Some _ t g_readytorun) by done. eauto. Qed.

Lemma sched_yield_spec k A :
  good k A → running A ≠ idle →
  wp sched_yield (λ r k', r = OK ∧ good k' (setprio (running A) (prio_of A (running A)) A)) k.
Proof.
  intros G Nr. destruct (good_running k A G) as (a & x & Ea & Hn & Ex). pose proof G as [R Hwf].
  unfold sched_yield. rewrite wp_bind, wp_head_of, (rep_running R), wp_bind. erewrite wp_get_tcb by done.
  cbn [sched_priority as_tcb]. rewrite <- (prio_of_task A _ a) by done.
  apply setpriority_spec; [done|done| |].
  - apply list_with_ready; [apply (rep_disjoint R)|].
    destruct (wf0_running A (wf_wf0 _ Hwf)) as (q & Eq & _). rewrite Eq. set_solver.
  - rewrite (prio_of_task A _ a) by done. pose proof (wf_prio _ Hwf _ a Ea) as H. by rewrite decide_False in H.
Qed.

(** *** Time slices *)

Lemma next_not_idle k A n : good k A → next_ready A = Some n → running A ≠ idle.
Proof.
  intros [R Hwf] En Er. destruct (wf_idle _ Hwf) as [q Eq]. pose proof (rep_nodup R g_readytorun) as Hd.
  change (NoDup (ready A)) in Hd. unfold running, next_ready in *. rewrite Eq in *.
  destruct q as [|h q]; [done|]. simpl in Er. subst h. apply NoDup_cons in Hd as [Hd _]. set_solver.
Qed.

Lemma timeslice_spec k A :
  good k A → wp sched_process_timeslice (λ _ k', good k' (slice_tick A)) k.
Proof.
  intros G. destruct (good_running k A G) as (a & x & Ea & Hn & Ex). pose proof G as [R Hwf].
  unfold sched_process_timeslice, slice_tick. rewrite Ea, wp_bind, wp_head_of, (rep_running R), wp_bind.
  erewrite wp_get_tcb by done. cbn [flags timeslice lockcount sched_priority as_tcb].
  apply (proj2 (wp_when _ _ _ _)). destruct (Z.land (rr a) TCB_FLAG_ROUND_ROBIN =? 0); [done|]. simpl.
  destruct (slice a <=? 1).
  - apply (proj2 (wp_when _ _ _ _)). destruct (lock a =? 0) eqn:El; [|done].
    rewrite wp_bind. eapply (good_set k A _ a _ (with_slice RR_TICKS)); [done..|by apply wf_change|].
    intros k1 G1. rewrite wp_bind.
    set (B := change (running A) (with_slice RR_TICKS) A) in *.
    change (running A) with (running B). change (next_ready A) with (next_ready B).
    destruct (next_ready B) as [n|] eqn:En.
    + destruct (good_next k1 B n G1 En) as (v & b & y & Ev & Ef & Hnn & Eb & Ey).
      rewrite (wp_get_links _ _ v), Ef by done. rewrite (proj2 (Z.eqb_neq _ _) Hnn). simpl.
      rewrite wp_bind. erewrite wp_get_tcb by done. cbn [sched_priority as_tcb].
      assert (prio_of A n = prio b) as ->.
      { rewrite <- (prio_of_change A (running A) (with_slice RR_TICKS)) by done. by apply prio_of_task. }
      apply (proj2 (wp_when _ _ _ _)). destruct (prio a <=? prio b); [|done].
      rewrite wp_bind. eapply wp_mono.
      { apply up_reprioritize_rtr_spec; [done| | |].
        - destruct (wf0_running B (wf_wf0 _ (proj2 G1))) as (q & Eq & _). rewrite Eq. set_solver.
        - by eapply next_not_idle.
        - pose proof (wf_prio _ Hwf _ a Ea) as H. rewrite decide_False in H; [done|].
          by apply (next_not_idle k1 B n G1). }
      intros bb k2 [_ G2]. by rewrite wp_ret.
    + destruct (good_next_none k1 B G1 En) as (v & Ev & Ef).
      rewrite (wp_get_links _ _ v), Ef by done. done.
  - by eapply (good_set k A _ a _ (with_slice (slice a - 1))); [..|apply wf_change|].
Qed.

End Invariant.

End SchedSpec.
