(* ===== verification/Sem.v ===== *)
(** * Semaphores

    Models [sched/semaphore] and [libc/semaphore], without priority
    inheritance, as the configuration has it: a semaphore is its count, and the
    tasks that wait are in one list for all semaphores, ordered by priority.

    The count is what is available, or minus the number of tasks that wait. *)

From stdpp Require Import functions.
From S2P Require Import Prelude Queue Sched SchedRep SchedSpec.

Module Sem.
Export SchedSpec.
#[local] Open Scope cmd_scope.

Definition SEM_VALUE_MAX : Z := 0x7fff.

(** ** The code *)

Definition on_sems {A} (m : M (gmap Z Z) A) : M kernel A := λ k,
  res_bind (m (sems k)) (λ '(a, v), Ok (a, upd_sems v k)).
Definition get_semcount (sem : Z) : M kernel Z := on_sems (deref sem).
Definition set_semcount (sem v : Z) : M kernel unit := on_sems (assign sem (λ _, v)).

Definition sem_init (sem value : Z) : M kernel Z :=
  if negb (sem =? NULL) && (value <=? SEM_VALUE_MAX) then
    set_semcount sem (i16 value) ;;; ret OK
  else set_errno EINVAL ;;; ret ERROR.

Definition sem_destroy (sem : Z) : M kernel Z :=
  if negb (sem =? NULL) then
    c <-- get_semcount sem ;;
    when (0 <=? c) (set_semcount sem 1) ;;;
    ret OK
  else set_errno EINVAL ;;; ret ERROR.

(** The result, and what is stored through [sval]. *)
Definition sem_getvalue (sem sval : Z) : M kernel (Z * option Z) :=
  if negb (sem =? NULL) && negb (sval =? NULL) then
    c <-- get_semcount sem ;; ret (OK, Some c)
  else set_errno EINVAL ;;; ret (ERROR, None).

(** The result, or [None] when the caller is blocked: then [sem_wait_resume]
    is left for it. *)
Definition sem_wait (sem : Z) : M kernel (option Z) :=
  rtcb <-- head_of g_readytorun ;;
  irq <-- up_interrupt_context ;;
  assert_ (negb irq) ;;;
  set_errno EINVAL ;;;
  if negb (sem =? NULL) then
    c <-- get_semcount sem ;;
    if 0 <? c then
      set_semcount sem (i16 (c - 1)) ;;;
      set rtcb (set_waitsem NULL) ;;;
      ret (Some OK)
    else
      t <-- get rtcb ;;
      assert_ (waitsem t =? NULL) ;;;
      set_semcount sem (i16 (c - 1)) ;;;
      set rtcb (set_waitsem sem) ;;;
      set_errno 0 ;;;
      up_block_task rtcb TSTATE_WAIT_SEM ;;;
      ret None
  else ret (Some ERROR).

Definition sem_wait_resume : M kernel Z :=
  e <-- get_errno ;;
  ret (if negb (e =? EINTR) && negb (e =? ETIMEDOUT) then OK else ERROR).

Definition sem_trywait (sem : Z) : M kernel Z :=
  rtcb <-- head_of g_readytorun ;;
  irq <-- up_interrupt_context ;;
  assert_ (negb irq) ;;;
  set_errno EINVAL ;;;
  if negb (sem =? NULL) then
    set_errno EAGAIN ;;;
    c <-- get_semcount sem ;;
    if 0 <? c then
      set_semcount sem (i16 (c - 1)) ;;;
      set rtcb (set_waitsem NULL) ;;;
      ret OK
    else ret ERROR
  else ret ERROR.

(** The first task of the list that waits for [sem]. *)
Fixpoint find_waiter (fuel : nat) (stcb sem : Z) : M kernel Z :=
  if stcb =? NULL then ret stcb
  else
    t <-- get stcb ;;
    if negb (waitsem t =? sem) then
      v <-- get_links stcb ;;
      match fuel with
      | O => fail_ub NoFuel
      | S fuel => find_waiter fuel (Dq.flink v) sem
      end
    else ret stcb.

Definition sem_post (sem : Z) : M kernel Z :=
  if negb (sem =? NULL) then
    c <-- get_semcount sem ;;
    assert_ (c <? SEM_VALUE_MAX) ;;;
    set_semcount sem (i16 (c + 1)) ;;;
    c <-- get_semcount sem ;;
    when (c <=? 0)
      (h <-- head_of g_waitingforsemaphore ;;
       n <-- gets (λ k, size (links k)) ;;
       stcb <-- find_waiter n h sem ;;
       when (negb (stcb =? NULL))
         (set stcb (set_waitsem NULL) ;;; up_unblock_task stcb ;;; ret tt)) ;;;
    ret OK
  else ret ERROR.

(** A signal or a timeout ends the wait of a task. *)
Definition sem_waitirq (wtcb errcode : Z) : M kernel unit :=
  t <-- get wtcb ;;
  when (bool_decide (task_state t = TSTATE_WAIT_SEM))
    (let sem := waitsem t in
     assert_ (negb (sem =? NULL)) ;;;
     c <-- get_semcount sem ;;
     assert_ (c <? 0) ;;;
     set_semcount sem (i16 (c + 1)) ;;;
     set wtcb (set_waitsem NULL) ;;;
     set wtcb (set_pterrno errcode) ;;;
     up_unblock_task wtcb ;;; ret tt).

(** A task that is deleted gives back the count its wait has taken. *)
Definition sem_recover (tcb : Z) : M kernel unit :=
  t <-- get tcb ;;
  when (bool_decide (task_state t = TSTATE_WAIT_SEM))
    (let sem := waitsem t in
     assert_ (negb (sem =? NULL)) ;;;
     c <-- get_semcount sem ;;
     assert_ (c <? 0) ;;;
     set_semcount sem (i16 (c + 1)) ;;;
     set tcb (set_waitsem NULL)).

(** ** What the operations do *)

Definition waiting (A : abs) : list Z := queued A g_waitingforsemaphore.
Definition wsem_of (A : abs) (t : Z) : Z := default NULL (wsem <$> task_of A !! t).
Definition waiters (s : Z) (A : abs) : list Z := filter (λ t, wsem_of A t = s) (waiting A).
Definition count_of (A : abs) (s : Z) : Z := default 0 (count A !! s).
Definition set_count (s v : Z) (A : abs) : abs := upd_count (<[s := v]> (count A)) A.

Definition take_sem (s : Z) (A : abs) : abs :=
  change (running A) (with_wsem NULL) (set_count s (count_of A s - 1) A).

(** The running task waits for [s]. *)
Definition wait (s : Z) (A : abs) : abs :=
  block g_waitingforsemaphore
    (change (running A) (with_err 0)
      (change (running A) (with_wsem s) (set_count s (count_of A s - 1) A))).

Definition sem_wait_call (s : Z) (A : abs) : option Z * abs :=
  let B := set_err EINVAL A in
  if 0 <? count_of A s then (Some OK, take_sem s B) else (None, wait s B).

Definition sem_trywait_call (s : Z) (A : abs) : Z * abs :=
  let B := set_err EAGAIN (set_err EINVAL A) in
  if 0 <? count_of A s then (OK, take_sem s B) else (ERROR, B).

(** [t] does not wait any more. *)
Definition wake (t : Z) (A : abs) : abs :=
  unblock t g_waitingforsemaphore (change t (with_wsem NULL) A).

Definition sem_post_call (s : Z) (A : abs) : abs :=
  let B := set_count s (count_of A s + 1) A in
  if count_of A s <? 0 then
    match waiters s A with
    | t :: _ => wake t B
    | [] => B
    end
  else B.

Definition sem_cancel_call (t e : Z) (A : abs) : abs :=
  let s := wsem_of A t in
  unblock t g_waitingforsemaphore
    (change t (with_err e) (change t (with_wsem NULL) (set_count s (count_of A s + 1) A))).

(** ** The invariant

    The tasks that wait are as many as a negative count says, and a task has a
    semaphore to wait for only while it is in the list.  A table of process
    identifiers with 16 entries bounds the number of tasks. *)

Definition CONFIG_MAX_TASKS : nat := 16.

Record sem_ok (A : abs) : Prop := mksem_ok {
  so_count : ∀ s c, count A !! s = Some c →
    s ≠ NULL ∧ c ≤ SEM_VALUE_MAX ∧ length (waiters s A) = Z.to_nat (- c);
  so_wait : ∀ t a, task_of A !! t = Some a → wsem a ≠ NULL → t ∈ waiting A ∧ is_Some (count A !! wsem a);
  so_size : (size (task_of A) ≤ CONFIG_MAX_TASKS)%nat
}.

(** *** What the scheduler does not change

    A view of a task that its priority, lock and time slice are no part of. *)

Class Unscheduled {V} (v : task → V) : Prop := mkunscheduled {
  un_prio : ∀ p a, v (with_prio p a) = v a;
  un_lock : ∀ n a, v (with_lock n a) = v a;
  un_slice : ∀ n a, v (with_slice n a) = v a
}.

#[export] Instance wsem_unscheduled : Unscheduled wsem.
Proof. done. Qed.
#[export] Instance ctx_unscheduled : Unscheduled ctx.
Proof. done. Qed.
#[export] Instance err_unscheduled : Unscheduled err.
Proof. done. Qed.

(** The same tasks wait, and the view of all tasks is the same. *)
Record sem_same {V} (v : task → V) (A B : abs) : Prop := mksame {
  ss_waiting : waiting B ≡ₚ waiting A;
  ss_view : ∀ t, v <$> task_of B !! t = v <$> task_of A !! t;
  ss_count : count B = count A
}.

Section Same.
Context {V : Type} (v : task → V) `{!Unscheduled v}.
#[local] Abbreviation same := (sem_same v).

#[export] Instance sem_same_preorder : PreOrder same.
Proof.
  split; [by intros A|]. intros A B C [W1 S1 C1] [W2 S2 C2].
  split; [by rewrite W2|intros; by rewrite S2|congruence].
Qed.

Lemma same_dom A B : same A B → dom (task_of B) = dom (task_of A).
Proof.
  intros H. apply set_eq. intros t. rewrite !elem_of_dom, <- (fmap_is_Some v), (ss_view _ _ _ H).
  by rewrite fmap_is_Some.
Qed.

Lemma same_change A t f : (∀ a, v (f a) = v a) → same A (change t f A).
Proof.
  intros Hf. split; [done| |done]. intros u. rewrite lookup_change. destruct (decide (u = t)); [|done].
  destruct (task_of A !! u); [|done]. simpl. by rewrite Hf.
Qed.

Lemma same_put A l q : (l = g_waitingforsemaphore → q ≡ₚ waiting A) → same A (put l q A).
Proof.
  intros H. split; [|done|done]. unfold put, waiting in *. simpl.
  destruct (decide (l = g_waitingforsemaphore)) as [->|N]; list_simpl; auto.
Qed.

Lemma same_prio A t p : same A (change t (with_prio p) A).
Proof. apply same_change, un_prio. Qed.
Lemma same_slice A t n : same A (change t (with_slice n) A).
Proof. apply same_change, un_slice. Qed.

Lemma same_make_ready A t : same A (make_ready t A).
Proof. unfold make_ready, enter. destruct (delayed t A); by apply same_put. Qed.

Lemma same_merge A : same A (merge A).
Proof. unfold merge. etrans; [|by apply same_put]. by apply same_put. Qed.

Lemma same_reprio_ready A t p : same A (reprio_ready t p A).
Proof.
  unfold reprio_ready. etrans; [|apply same_make_ready]. etrans; [|apply same_prio]. by apply same_put.
Qed.

Lemma same_reprio A t p : same A (reprio t p A).
Proof.
  unfold reprio. case_bool_decide; [apply same_reprio_ready|]. etrans; [apply same_reprio_ready|apply same_merge].
Qed.

Lemma same_lock A : same A (lock_call A).
Proof. unfold lock_call. destruct (irq A); [done|]. apply same_change. intros a. apply un_lock. Qed.

Lemma same_unlock A : same A (unlock_call A).
Proof.
  assert (same A (change (running A) release A)) by (apply same_change; intros a; apply un_lock).
  unfold unlock_call. destruct (irq A); [done|]. simpl.
  destruct (_ =? 0); [etrans; [|apply same_merge]|]; done.
Qed.

Lemma filter_reinsert (p : Z → Z) t (l : list Z) : NoDup l → t ∈ l → enqueue p t (filter (t ≠.) l) ≡ₚ l.
Proof.
  intros Hn Ht. rewrite enqueue_perm. destruct (list_elem_of_split _ _ Ht) as (l1 & l2 & ->).
  rewrite Sq.filter_ne_once by done. by rewrite Permutation_middle.
Qed.

Lemma same_setprio A t p : NoDup (waiting A) → same A (setprio t p A).
Proof.
  intros Hn. unfold setprio. repeat case_bool_decide.
  - destruct (next_ready A); [|done]. destruct (_ <=? _); [apply same_reprio|apply same_prio].
  - destruct (_ <? _); [apply same_reprio|apply same_reprio_ready].
  - destruct (list_with (queued A) t) as [l|] eqn:El; [|done].
    destruct (prioritized l); [|apply same_prio].
    assert (t ∈ queued A l) as Ht.
    { unfold list_with in El. apply fmap_Some in El as ([i l'] & E & ->). apply list_find_Some in E. naive_solver. }
    etrans; [apply (same_prio A t p)|].
    split; [|done|done]. unfold requeue, enter, waiting, leave. simpl.
    destruct (decide (l = g_waitingforsemaphore)) as [->|N]; list_simpl; [|done]. by apply filter_reinsert.
Qed.

Lemma same_slice_tick A : same A (slice_tick A).
Proof.
  unfold slice_tick. destruct (task_of A !! running A) as [a|]; [|done].
  destruct (_ =? 0); [done|]. destruct (_ <=? 1); [|apply same_slice].
  destruct (lock a =? 0); [|done].
  destruct (next_ready A) as [n|]; [|apply same_slice].
  destruct (_ <=? _); [etrans; [|apply same_reprio]|]; apply same_slice.
Qed.

Lemma same_set_err A e : (∀ a, v (with_err e a) = v a) → same A (set_err e A).
Proof. intros H. unfold set_err. destruct (irq A); [done|by apply same_change]. Qed.

End Same.

Lemma same_wsem_of A B t : sem_same wsem A B → wsem_of B t = wsem_of A t.
Proof. intros H. unfold wsem_of. by rewrite (ss_view _ _ _ H). Qed.

Lemma same_waiters A B s : sem_same wsem A B → waiters s B ≡ₚ waiters s A.
Proof.
  intros H. unfold waiters. rewrite (ss_waiting _ _ _ H).
  erewrite list_filter_iff; [done|]. intros t. simpl. by rewrite (same_wsem_of A B).
Qed.

Lemma sem_ok_same A B : sem_same wsem A B → sem_ok A → sem_ok B.
Proof.
  intros H [Hc Hw Hs]. split.
  - intros s c. rewrite (ss_count _ _ _ H). intros Ec. destruct (Hc s c Ec) as (? & ? & El).
    split_and!; [done|done|]. rewrite <- El. by apply Permutation_length, same_waiters.
  - intros t b Eb Nb. pose proof (ss_view _ _ _ H t) as E. rewrite Eb in E. symmetry in E.
    apply fmap_Some in E as (a & Ea & Ew). rewrite (ss_waiting _ _ _ H), (ss_count _ _ _ H). rewrite Ew in *. eauto.
  - rewrite <- !size_dom in *. by rewrite (same_dom wsem A B).
Qed.

(** *** Waiting and waking *)

Lemma wsem_of_task A t a : task_of A !! t = Some a → wsem_of A t = wsem a.
Proof. unfold wsem_of. by intros ->. Qed.

Lemma wsem_of_change A t f u :
  wsem_of (change t f A) u = if decide (u = t) then default NULL (wsem ∘ f <$> task_of A !! u) else wsem_of A u.
Proof.
  unfold wsem_of. rewrite lookup_change. destruct (decide (u = t)); [|done]. by destruct (task_of A !! u).
Qed.

Lemma filter_wsem_ext (A B : abs) (s : Z) (l : list Z) :
  (∀ t, t ∈ l → wsem_of B t = wsem_of A t) →
  filter (λ t, wsem_of B t = s) l = filter (λ t, wsem_of A t = s) l.
Proof.
  intros H. induction l as [|x l IH]; [done|]. rewrite !filter_cons, IH by set_solver.
  rewrite (H x) by set_solver. done.
Qed.

(** A task starts to wait. *)
Lemma sem_ok_enter A B t a s c :
  sem_ok A → task_of A !! t = Some a → ¬ (t ∈ waiting A) → count A !! s = Some c → c ≤ 0 →
  waiting B ≡ₚ t :: waiting A → count B = <[s := c - 1]> (count A) → s ≠ NULL →
  (∀ u, wsem <$> task_of B !! u = if decide (u = t) then Some s else wsem <$> task_of A !! u) →
  sem_ok B.
Proof.
  intros [Hc Hw Hs] Ea Nt Ec Hle EW EC Ns ES.
  assert (∀ u, wsem_of B u = if decide (u = t) then s else wsem_of A u) as Hws.
  { intros u. unfold wsem_of. rewrite ES. by destruct (decide (u = t)). }
  assert (∀ s', length (waiters s' B)
    = ((if decide (s' = s) then 1 else 0) + length (waiters s' A))%nat) as Hlen.
  { intros s'. assert (wsem_of B t = s) as Et by by rewrite Hws, decide_True.
    unfold waiters. rewrite EW, filter_cons, Et.
    rewrite (filter_wsem_ext A B) by (intros u Hu; rewrite Hws, decide_False; [done|congruence]).
    repeat case_decide; simplify_eq; done. }
  split.
  - intros s' c'. rewrite EC, Hlen. intros E. destruct (decide (s' = s)) as [->|N].
    + rewrite lookup_insert_eq in E. injection E as <-. destruct (Hc s c Ec) as (? & ? & ->).
      split_and!; [done|lia|lia].
    + rewrite lookup_insert_ne in E by done. by apply Hc.
  - intros u b Eb Nb. pose proof (ES u) as E. rewrite Eb in E. rewrite EW, EC.
    destruct (decide (u = t)) as [->|Nu].
    + injection E as ->. split; [set_solver|]. rewrite lookup_insert_eq. eauto.
    + symmetry in E. apply fmap_Some in E as (a' & Ea' & Ew). rewrite Ew in *.
      destruct (Hw u a' Ea' Nb) as [? Hs']. split; [set_solver|].
      destruct (decide (wsem a' = s)) as [->|Ns']; [rewrite lookup_insert_eq; eauto|by rewrite lookup_insert_ne].
  - assert (dom (task_of B) = dom (task_of A)) as ED; [|rewrite <- !size_dom in *; by rewrite ED].
    apply set_eq. intros u. rewrite !elem_of_dom, <- (fmap_is_Some wsem), ES.
    destruct (decide (u = t)) as [->|Nu]; [rewrite Ea; split; eauto|by rewrite fmap_is_Some].
Qed.

(** A task stops waiting. *)
Lemma sem_ok_leave A B t s c :
  sem_ok A → NoDup (waiting A) → t ∈ waiting A → wsem_of A t = s → count A !! s = Some c → c < 0 →
  waiting B ≡ₚ filter (t ≠.) (waiting A) → count B = <[s := c + 1]> (count A) →
  (∀ u, wsem <$> task_of B !! u = if decide (u = t) then Some NULL else wsem <$> task_of A !! u) →
  is_Some (task_of A !! t) → sem_ok B.
Proof.
  intros [Hc Hw Hs] Hn Ht Es Ec Hlt EW EC ES Hsome. destruct (Hc s c Ec) as (Ns & Hmax & Hl).
  assert (∀ u, u ≠ t → wsem_of B u = wsem_of A u) as Hws.
  { intros u Nu. unfold wsem_of. by rewrite ES, decide_False. }
  assert (∀ s', length (waiters s' A)
    = ((if decide (s' = s) then 1 else 0) + length (waiters s' B))%nat) as Hlen.
  { intros s'. unfold waiters. rewrite EW.
    destruct (list_elem_of_split _ _ Ht) as (l1 & l2 & El). rewrite El in Hn |- *.
    rewrite Sq.filter_ne_once by done. rewrite <- (Permutation_middle l1 l2 t), filter_cons.
    rewrite (filter_wsem_ext A B).
    2:{ intros u Hu. apply Hws. intros ->. apply NoDup_app in Hn as (_ & H1 & [H2 _]%NoDup_cons). set_solver. }
    rewrite Es. repeat case_decide; simplify_eq; done. }
  split.
  - intros s' c'. rewrite EC. intros E. specialize (Hlen s'). destruct (decide (s' = s)) as [->|N].
    + rewrite lookup_insert_eq in E. injection E as <-. unfold SEM_VALUE_MAX in *.
      split_and!; [done|lia|lia].
    + rewrite lookup_insert_ne in E by done. destruct (Hc s' c' E) as (? & ? & ?). split_and!; [done|done|lia].
  - intros u b Eb Nb. pose proof (ES u) as E. rewrite Eb in E. rewrite EW, EC.
    destruct (decide (u = t)) as [->|Nu]; [by injection E as E; rewrite E in Nb|].
    symmetry in E. apply fmap_Some in E as (a' & Ea' & Ew). rewrite Ew in *.
    destruct (Hw u a' Ea' Nb) as [? Hs']. split; [apply list_elem_of_filter; split; [congruence|done]|].
    destruct (decide (wsem a' = s)) as [->|Ns']; [rewrite lookup_insert_eq; eauto|by rewrite lookup_insert_ne].
  - assert (dom (task_of B) = dom (task_of A)) as ED; [|rewrite <- !size_dom in *; by rewrite ED].
    apply set_eq. intros u. rewrite !elem_of_dom, <- (fmap_is_Some wsem), ES.
    destruct (decide (u = t)) as [->|Nu]; [split; eauto|by rewrite fmap_is_Some].
Qed.

(** A count that nobody waits for. *)
Lemma sem_ok_count A s c :
  sem_ok A → is_Some (count A !! s) → 0 ≤ c ≤ SEM_VALUE_MAX → 0 ≤ count_of A s → sem_ok (set_count s c A).
Proof.
  intros [Hc Hw Hs] [c0 Ec0] Hcb H0. unfold count_of in H0. rewrite Ec0 in H0. simpl in H0.
  split; [| |done].
  - intros s' c'. simpl. change (waiters s' (set_count s c A)) with (waiters s' A).
    destruct (decide (s' = s)) as [->|N].
    + rewrite lookup_insert_eq. intros [= <-]. destruct (Hc s c0 Ec0) as (? & ? & ->). split_and!; [done|lia|lia].
    + rewrite lookup_insert_ne by done. apply Hc.
  - intros t a Ea Na. destruct (Hw t a Ea Na) as [? H']. split; [done|]. simpl.
    destruct (decide (wsem a = s)) as [->|Ns']; [rewrite lookup_insert_eq; eauto|by rewrite lookup_insert_ne].
Qed.

(** ** The code implements the operations *)

Section Operations.
Context (idle : Z).

Definition kernel_ok (k : kernel) (A : abs) : Prop := good idle k A ∧ sem_ok A.

Lemma wp_on_sems {B} (m : M (gmap Z Z) B) Q k :
  wp (on_sems m) Q k = wp m (λ a v, Q a (upd_sems v k)) (sems k).
Proof. unfold wp, on_sems. by destruct (m (sems k)) as [[a v]|]. Qed.

Lemma get_semcount_spec k A cpu s c (Q : Z → kernel → Prop) :
  rep cpu k A → count A !! s = Some c → s ≠ NULL → Q c k → wp (get_semcount s) Q k.
Proof.
  intros R Ec Ns HQ. unfold get_semcount. rewrite wp_on_sems, (wp_deref s c), <- ?(rep_sems _ _ _ R).
  - by destruct k.
  - done.
  - by rewrite (rep_sems _ _ _ R).
Qed.

Lemma set_semcount_spec k A s v (Q : unit → kernel → Prop) :
  good idle k A → is_Some (count A !! s) → s ≠ NULL →
  (∀ k', good idle k' (set_count s v A) → Q tt k') → wp (set_semcount s v) Q k.
Proof.
  intros [R Hwf] [c Ec] Ns HQ. unfold set_semcount. rewrite wp_on_sems.
  rewrite (wp_assign s c); [|done|by rewrite (rep_sems _ _ _ R)]. apply HQ. split; [|by destruct Hwf].
  destruct R as [R1 R2 R3 R4 R5 R6 R7 R8]. split; ksimpl; try done. simpl. by rewrite R4.
Qed.

Lemma waiting_tasks k A t : good idle k A → t ∈ waiting A → is_Some (task_of A !! t).
Proof. intros [R _] Ht. destruct (rep_member R g_waitingforsemaphore t Ht) as [a ->]. eauto. Qed.

Lemma waiting_nodup k A : good idle k A → NoDup (waiting A).
Proof. intros [R _]. apply (rep_nodup R g_waitingforsemaphore). Qed.

Lemma count_lower k A s c : kernel_ok k A → count A !! s = Some c → - 16 ≤ c.
Proof.
  intros [G [Hc _ Hs]] Ec. destruct (Hc s c Ec) as (_ & _ & Hl). destruct (Z.le_gt_cases (-16) c); [done|].
  assert (length (waiters s A) ≤ size (task_of A))%nat; [|unfold CONFIG_MAX_TASKS in *; lia].
  rewrite <- size_dom. assert (NoDup (waiters s A)) as Hn by (apply NoDup_filter; by eapply waiting_nodup).
  rewrite <- (size_list_to_set (C := gset Z) (waiters s A) Hn). apply subseteq_size. intros t.
  rewrite elem_of_list_to_set, elem_of_dom. intros [_ Ht]%list_elem_of_filter. by eapply waiting_tasks.
Qed.

Lemma running_wsem k A a : kernel_ok k A → task_of A !! running A = Some a → wsem a = NULL.
Proof.
  intros [[R Hwf] [_ Hw _]] Ea. destruct (decide (wsem a = NULL)) as [|N]; [done|].
  destruct (Hw _ a Ea N) as [H _]. assert (g_readytorun = g_waitingforsemaphore); [|done].
  apply (rep_disjoint R _ _ (running A)); [|done].
  destruct (wf0_running idle A (wf_wf0 _ _ Hwf)) as (q & Eq & _). change (running A ∈ ready A). rewrite Eq. set_solver.
Qed.

Lemma kernel_ok_same k A B : sem_same wsem A B → sem_ok A → good idle k B → kernel_ok k B.
Proof. intros HS Hs G. split; [done|]. by eapply sem_ok_same. Qed.

Lemma good_wsem k A t a v (Q : unit → kernel → Prop) :
  good idle k A → task_of A !! t = Some a →
  (∀ k', good idle k' (change t (with_wsem v) A) → Q tt k') → wp (set t (set_waitsem v)) Q k.
Proof. intros G Ea HQ. eapply (good_set idle k A t a _ (with_wsem v)); [done..| |done]. apply wf_change; [apply G|done|done]. Qed.

(** *** Taking a count *)

Lemma count_of_set_err A e s : count_of (set_err e A) s = count_of A s.
Proof. unfold set_err. by destruct (irq A). Qed.

Lemma count_set_err A e : count (set_err e A) = count A.
Proof. unfold set_err. by destruct (irq A). Qed.

Lemma running_set_err A e : running (set_err e A) = running A.
Proof. unfold set_err. by destruct (irq A). Qed.

Lemma irq_set_err A e : irq (set_err e A) = irq A.
Proof. unfold set_err. destruct (irq A) eqn:E; by simpl. Qed.

Lemma set_errno_ok k A e : kernel_ok k A → wp (set_errno e) (λ _ k', kernel_ok k' (set_err e A)) k.
Proof.
  intros [G Hs]. eapply wp_mono; [by apply good_set_errno|]. intros [] k' G'.
  by eapply kernel_ok_same; [apply (same_set_err wsem)|..].
Qed.

Lemma take_sem_spec k A s c (Q : unit → kernel → Prop) :
  kernel_ok k A → count A !! s = Some c → 0 < c →
  (∀ k', kernel_ok k' (take_sem s A) → Q tt k') →
  wp (set_semcount s (i16 (c - 1)) ;;; set (running A) (set_waitsem NULL)) Q k.
Proof.
  intros K Ec Hc HQ. pose proof K as [G Hs]. destruct (so_count _ Hs s c Ec) as (Ns & Hm & _).
  unfold SEM_VALUE_MAX in Hm. assert (count_of A s = c) as Eco by (unfold count_of; by rewrite Ec).
  rewrite wp_bind, i16_small by lia. eapply set_semcount_spec; [done|eauto|done|]. intros k1 G1.
  destruct (good_running idle k A G) as (a & x & Ea & _).
  eapply good_wsem; [exact G1|exact Ea|]. intros k2 G2. apply HQ. unfold take_sem. rewrite Eco.
  split; [done|]. apply (sem_ok_same (set_count s (c - 1) A)).
  - split; [done| |done]. intros u. rewrite lookup_change. destruct (decide (u = running A)) as [->|]; [|done].
    change (task_of (set_count s (c - 1) A)) with (task_of A). rewrite Ea. simpl. by rewrite (running_wsem k A a).
  - apply sem_ok_count; [done|eauto|unfold SEM_VALUE_MAX; lia|lia].
Qed.

(** *** Waiting *)

Lemma wait_spec k A s c :
  kernel_ok k A → irq A = false → running A ≠ idle → count A !! s = Some c → c ≤ 0 →
  wp (t <-- get (running A) ;;
      assert_ (waitsem t =? NULL) ;;;
      set_semcount s (i16 (c - 1)) ;;;
      set (running A) (set_waitsem s) ;;;
      set_errno 0 ;;;
      up_block_task (running A) TSTATE_WAIT_SEM ;;;
      ret None)
    (λ (r : option Z) k', r = None ∧ kernel_ok k' (wait s A)) k.
Proof.
  intros K Hi Nr Ec Hc. pose proof K as [G Hs]. destruct (so_count _ Hs s c Ec) as (Ns & Hm & _).
  pose proof (count_lower k A s c K Ec) as Hlow.
  assert (count_of A s = c) as Eco by (unfold count_of; by rewrite Ec).
  destruct (good_running idle k A G) as (a & x & Ea & Hn & Ex).
  pose proof (running_wsem k A a K Ea) as Ew.
  rewrite wp_bind. erewrite wp_get_tcb by done. cbn [waitsem as_tcb].
  rewrite wp_bind, wp_assert, wp_bind by (by rewrite Ew). rewrite i16_small by lia.
  eapply set_semcount_spec; [done|eauto|done|]. intros k1 G1. rewrite wp_bind.
  eapply good_wsem; [exact G1|exact Ea|]. intros k2 G2. rewrite wp_bind.
  eapply wp_mono; [by eapply good_set_errno|]. intros [] k3 G3.
  set (B := change (running A) (with_wsem s) (set_count s (c - 1) A)) in *.
  assert (set_err 0 B = change (running A) (with_err 0) B) as EB.
  { unfold set_err. change (irq B) with (irq A). by rewrite Hi. }
  rewrite EB in G3. set (C := change (running A) (with_err 0) B) in *.
  rewrite wp_bind. eapply wp_mono.
  { apply (up_block_task_spec idle k3 C g_waitingforsemaphore); [done|done|done]. }
  intros b k4 [_ G4]. rewrite wp_ret. split; [done|].
  assert (wait s A = block g_waitingforsemaphore C) as -> by (unfold wait; by rewrite Eco).
  split; [done|]. unfold block. eapply sem_ok_same; [apply (same_merge wsem)|].
  eapply (sem_ok_enter A _ (running A) a s c); try done.
  - intros H. assert (g_readytorun = g_waitingforsemaphore); [|done].
    apply (rep_disjoint (proj1 G) _ _ (running A)); [|done].
    destruct (wf0_running idle A (wf_wf0 _ _ (proj2 G))) as (q & Eq & _). change (running A ∈ ready A). rewrite Eq. set_solver.
  - unfold enter_blocked. simpl. unfold waiting, enter. simpl. list_simpl. by rewrite enqueue_perm.
  - intros u. change (task_of (enter_blocked _ _ _)) with (task_of C). unfold C, B. rewrite !lookup_change.
    destruct (decide (u = running A)) as [->|Nu]; [|done]. simpl. by rewrite Ea.
Qed.

Lemma sem_wait_spec k A s :
  kernel_ok k A → irq A = false → running A ≠ idle → is_Some (count A !! s) →
  wp (sem_wait s)
    (λ r k', r = fst (sem_wait_call s A) ∧ kernel_ok k' (snd (sem_wait_call s A))) k.
Proof.
  intros K Hi Nr [c Ec]. pose proof K as [[R Hwf] Hs]. destruct (so_count _ Hs s c Ec) as (Ns & Hm & _).
  unfold sem_wait, up_interrupt_context, sem_wait_call.
  rewrite wp_bind, wp_head_of, (rep_running R), wp_bind, wp_gets, <- (rep_irq _ _ _ R), Hi.
  rewrite wp_bind, wp_assert, wp_bind by done.
  eapply wp_mono; [by apply set_errno_ok|]. intros [] k1 K1. set (B := set_err EINVAL A) in *.
  rewrite (proj2 (Z.eqb_neq _ _) Ns). simpl. rewrite wp_bind.
  assert (count B !! s = Some c) as EcB by (unfold B; by rewrite ?count_set_err).
  assert (running B = running A) as Er by apply running_set_err.
  eapply get_semcount_spec; [exact (proj1 (proj1 K1))|done|done|].
  assert (count_of A s = c) as -> by (unfold count_of; by rewrite Ec).
  destruct (Z.ltb_spec 0 c) as [H0|H0]; rewrite <- Er.
  - pose proof (take_sem_spec k1 B s c (λ _ k', kernel_ok k' (take_sem s B)) K1 EcB H0) as Ht.
    specialize (Ht (λ k' H, H)). rewrite wp_bind in Ht. rewrite wp_bind.
    eapply wp_mono; [exact Ht|]. cbv beta. intros [] k2 H2. rewrite wp_bind.
    eapply wp_mono; [exact H2|]. intros [] k3 K3. rewrite wp_ret. done.
  - eapply wp_mono; [apply (wait_spec k1 B s c); [done|by unfold B; rewrite irq_set_err|by rewrite Er|done|lia]|].
    intros r k2 [-> K2]. done.
Qed.

Lemma sem_trywait_spec k A s :
  kernel_ok k A → irq A = false → is_Some (count A !! s) →
  wp (sem_trywait s)
    (λ r k', r = fst (sem_trywait_call s A) ∧ kernel_ok k' (snd (sem_trywait_call s A))) k.
Proof.
  intros K Hi [c Ec]. pose proof K as [[R Hwf] Hs]. destruct (so_count _ Hs s c Ec) as (Ns & Hm & _).
  unfold sem_trywait, up_interrupt_context, sem_trywait_call.
  rewrite wp_bind, wp_head_of, (rep_running R), wp_bind, wp_gets, <- (rep_irq _ _ _ R), Hi.
  rewrite wp_bind, wp_assert, wp_bind by done.
  eapply wp_mono; [by apply set_errno_ok|]. intros [] k1 K1.
  rewrite (proj2 (Z.eqb_neq _ _) Ns). simpl. rewrite wp_bind.
  eapply wp_mono; [by apply set_errno_ok|]. intros [] k2 K2.
  set (B := set_err EAGAIN (set_err EINVAL A)) in *.
  assert (count B !! s = Some c) as EcB by (unfold B; by rewrite ?count_set_err).
  assert (running B = running A) as Er by (unfold B; by rewrite !running_set_err).
  rewrite wp_bind. eapply get_semcount_spec; [exact (proj1 (proj1 K2))|done|done|].
  assert (count_of A s = c) as -> by (unfold count_of; by rewrite Ec).
  destruct (Z.ltb_spec 0 c) as [H0|H0]; [|by rewrite wp_ret]. rewrite <- Er.
  pose proof (take_sem_spec k2 B s c (λ _ k', kernel_ok k' (take_sem s B)) K2 EcB H0) as Ht.
  specialize (Ht (λ k' H, H)). rewrite wp_bind in Ht. rewrite wp_bind.
  eapply wp_mono; [exact Ht|]. cbv beta. intros [] k3 H3. rewrite wp_bind.
  eapply wp_mono; [exact H3|]. intros [] k4 K4. rewrite wp_ret. done.
Qed.

(** *** Waking *)

Lemma find_waiter_spec k A cpu fuel s b h l e :
  rep cpu k A → seg Dq.fits (links k) b h l e NULL → (∀ t, t ∈ l → is_Some (task_of A !! t)) →
  (length l ≤ fuel)%nat →
  wp (find_waiter fuel h s)
    (λ r k', k' = k ∧ r = default NULL (filter (λ t, wsem_of A t = s) l !! 0%nat)) k.
Proof.
  intros R. revert fuel b h. induction l as [|x l IH]; intros fuel b h Hs Ht Hf.
  { destruct Hs as [-> _]. by destruct fuel. }
  simpl in Hs. destruct Hs as (-> & Hx & nx & v & Ev & -> & Hs).
  destruct (Ht x) as [a Ea]; [set_solver|]. destruct (rep_task R x a Ea) as (_ & y & Ey & _).
  destruct fuel as [|fuel]; simpl in Hf; [lia|]. simpl find_waiter.
  rewrite (proj2 (Z.eqb_neq _ _) Hx), wp_bind. erewrite wp_get_tcb by done. cbn [waitsem as_tcb].
  rewrite filter_cons, (wsem_of_task A x a) by done. destruct (Z.eqb_spec (wsem a) s) as [E|N].
  - rewrite decide_True by done. done.
  - rewrite decide_False by done. simpl negb. cbv iota. rewrite wp_bind. erewrite wp_get_links by done.
    apply (IH fuel x); [done|intros t Ht'; apply Ht; set_solver|lia].
Qed.

(** A task that waits is made ready, and the count it has taken is given back
    or handed to it. *)
Lemma wake_ok k A B t s c :
  kernel_ok k A → t ∈ waiting A → wsem_of A t = s → count A !! s = Some c → c < 0 →
  waiting B = filter (t ≠.) (waiting A) → count B = <[s := c + 1]> (count A) →
  (∀ u, wsem <$> task_of B !! u = if decide (u = t) then Some NULL else wsem <$> task_of A !! u) →
  sem_ok B.
Proof.
  intros [G Hs] Ht Es Ec Hc EW EC ES.
  eapply (sem_ok_leave A B t s c); try done; [by eapply waiting_nodup|by rewrite EW|by eapply waiting_tasks].
Qed.

Lemma wsem_fmap_change A t a f u v :
  task_of A !! t = Some a → wsem (f a) = v →
  wsem <$> task_of (change t f A) !! u = if decide (u = t) then Some v else wsem <$> task_of A !! u.
Proof.
  intros Ea Hf. rewrite lookup_change. destruct (decide (u = t)) as [->|]; [|done]. rewrite Ea. simpl. by rewrite Hf.
Qed.

Lemma task_of_unblock A t l u :
  wsem <$> task_of (unblock t l A) !! u = wsem <$> task_of A !! u.
Proof.
  unfold unblock. rewrite task_of_make_ready, lookup_change. destruct (decide (u = t)); [|done].
  simpl. by destruct (task_of A !! u).
Qed.

Lemma waiting_unblock A t :
  waiting (unblock t g_waitingforsemaphore A) = filter (t ≠.) (waiting A).
Proof.
  unfold unblock, make_ready, waiting. destruct (delayed _ _); unfold enter, leave; simpl; by list_simpl.
Qed.

Lemma count_unblock A t l : count (unblock t l A) = count A.
Proof. unfold unblock, make_ready. by destruct (delayed _ _). Qed.

Lemma sem_post_spec k A s :
  kernel_ok k A → is_Some (count A !! s) → count_of A s < SEM_VALUE_MAX →
  wp (sem_post s) (λ r k', r = OK ∧ kernel_ok k' (sem_post_call s A)) k.
Proof.
  intros K [c Ec] Hmax. pose proof K as [G Hs]. destruct (so_count _ Hs s c Ec) as (Ns & Hm & Hl).
  pose proof (count_lower k A s c K Ec) as Hlow.
  assert (count_of A s = c) as Eco by (unfold count_of; by rewrite Ec).
  unfold sem_post, sem_post_call. rewrite Eco in *. unfold SEM_VALUE_MAX in *.
  rewrite (proj2 (Z.eqb_neq _ _) Ns). simpl negb. cbv iota. rewrite wp_bind.
  eapply get_semcount_spec; [exact (proj1 G)|done|done|].
  rewrite wp_bind, wp_assert, wp_bind by by apply Z.ltb_lt. rewrite i16_small by lia.
  eapply set_semcount_spec; [done|eauto|done|]. intros k1 G1. rewrite wp_bind.
  set (B := set_count s (c + 1) A) in *.
  eapply (get_semcount_spec k1 B); [exact (proj1 G1)|simpl; by rewrite lookup_insert_eq|done|].
  rewrite wp_bind. apply (proj2 (wp_when _ _ _ _)).
  destruct (Z.leb_spec (c + 1) 0) as [Hle|Hgt].
  - rewrite (proj2 (Z.ltb_lt c 0)) by lia.
    destruct (waiters s A) as [|t ts] eqn:EW; [simpl in Hl; lia|].
    assert (t ∈ waiters s A) as [Et Ht]%list_elem_of_filter by (rewrite EW; set_solver).
    destruct (waiting_tasks k A t G Ht) as [a Ea].
    rewrite wp_bind, wp_head_of, wp_bind, wp_gets, wp_bind.
    destruct (proj2 (rep_queues _ _ _ (proj1 G1)) g_waitingforsemaphore) as [Hn Hseg].
    eapply wp_mono.
    { eapply (find_waiter_spec k1 B _ _ s _ _ (waiting A)); [exact (proj1 G1)|exact Hseg| |].
      - intros u Hu. by eapply waiting_tasks.
      - eapply (seg_length Dq.fits); [exact Hn|exact Hseg]. }
    intros r k' [-> ->]. change (filter (λ u, wsem_of B u = s) (waiting A)) with (waiters s A). rewrite EW. simpl.
    destruct (rep_task (proj1 G) t a Ea) as (Nt & _). rewrite (proj2 (Z.eqb_neq _ _) Nt). simpl.
    rewrite wp_bind. eapply good_wsem; [exact G1|exact Ea|]. intros k2 G2. rewrite wp_bind.
    eapply wp_mono; [by eapply (up_unblock_task_spec idle k2 _ t g_waitingforsemaphore)|].
    intros b k3 [_ G3]. rewrite !wp_ret. split; [done|]. split; [done|].
    eapply (wake_ok k A _ t s c); [done|done|done|done|lia| | |].
    + exact (waiting_unblock (change t (with_wsem NULL) B) t).
    + exact (count_unblock (change t (with_wsem NULL) B) t _).
    + intros u. unfold wake. rewrite task_of_unblock. by eapply (wsem_fmap_change B).
  - rewrite (proj2 (Z.ltb_ge c 0)) by lia. rewrite wp_ret. split; [done|]. split; [done|].
    apply sem_ok_count; [done|eauto|unfold SEM_VALUE_MAX; lia|rewrite Eco; lia].
Qed.

(** *** A wait that is cancelled *)

Lemma waitirq_state k A t a :
  good idle k A → task_of A !! t = Some a →
  bool_decide (state_of (queued A) t = TSTATE_WAIT_SEM) = bool_decide (t ∈ waiting A).
Proof.
  intros [R Hwf] Ea. pose proof (rep_disjoint R) as Hd. apply bool_decide_ext. split.
  - intros E. destruct (state_of_blocked (queued A) t Hd) as (l & Hl & E' & _); [by rewrite E|].
    rewrite E in E'. by destruct l.
  - intros Ht. rewrite (state_of_wait _ t g_waitingforsemaphore); [done|done|done|].
    intros E%list_elem_of_lookup_2. assert (g_readytorun = g_waitingforsemaphore); [|done]. by apply (Hd _ _ t).
Qed.

(** A semaphore that a task waits for has a negative count. *)
Lemma waited_count k A t a :
  kernel_ok k A → task_of A !! t = Some a → wsem a ≠ NULL →
  ∃ c, count A !! wsem a = Some c ∧ c < 0 ∧ - 16 ≤ c.
Proof.
  intros K Ea Hw. pose proof K as [G Hs]. destruct (so_wait _ Hs t a Ea Hw) as [Ht [c Ec]].
  destruct (so_count _ Hs _ c Ec) as (Ns & Hm & Hl). exists c. split_and!; [done| |by eapply count_lower].
  destruct (Z.lt_ge_cases c 0); [done|]. assert (t ∈ waiters (wsem a) A) as Hin.
  { apply list_elem_of_filter. split; [by apply wsem_of_task|done]. }
  destruct (waiters (wsem a) A); [set_solver|simpl in Hl; lia].
Qed.

Lemma sem_waitirq_spec k A t e :
  kernel_ok k A → is_Some (task_of A !! t) → (t ∈ waiting A → wsem_of A t ≠ NULL) →
  wp (sem_waitirq t e)
    (λ _ k', kernel_ok k' (if bool_decide (t ∈ waiting A) then sem_cancel_call t e A else A)) k.
Proof.
  intros K [a Ea] Hw. pose proof K as [G Hs]. destruct (rep_task (proj1 G) t a Ea) as (Nt & x & Ex & _).
  unfold sem_waitirq. rewrite wp_bind. erewrite wp_get_tcb by done. cbn [task_state waitsem as_tcb].
  rewrite (waitirq_state k A t a G Ea). apply (proj2 (wp_when _ _ _ _)).
  case_bool_decide as Ht; [|done]. specialize (Hw Ht). unfold sem_cancel_call.
  rewrite (wsem_of_task A t a) in Hw |- * by done. set (s := wsem a) in *.
  destruct (waited_count k A t a K Ea Hw) as (c & Ec & Hc & Hlow). fold s in Ec.
  assert (count_of A s = c) as -> by (unfold count_of; by rewrite Ec).
  rewrite wp_bind, wp_assert, wp_bind by (by apply negb_true_iff, Z.eqb_neq).
  eapply get_semcount_spec; [exact (proj1 G)|done|done|].
  rewrite wp_bind, wp_assert, wp_bind by by apply Z.ltb_lt. rewrite i16_small by lia.
  eapply set_semcount_spec; [done|eauto|done|]. intros k1 G1. rewrite wp_bind.
  eapply good_wsem; [exact G1|exact Ea|]. intros k2 G2. rewrite wp_bind.
  set (B := change t (with_wsem NULL) (set_count s (c + 1) A)) in *.
  assert (task_of B !! t = Some (with_wsem NULL a)) as EB.
  { unfold B. rewrite lookup_change, decide_True by done. simpl. by rewrite Ea. }
  eapply (good_set idle k2 B t _ _ (with_err e)); [exact G2|exact EB|done|done|apply wf_change; [apply G2|done|done]|].
  intros k3 G3. rewrite wp_bind.
  eapply wp_mono; [by eapply (up_unblock_task_spec idle k3 _ t g_waitingforsemaphore)|].
  intros b k4 [_ G4]. rewrite wp_ret. split; [done|].
  eapply (wake_ok k A _ t s c); [done|done|by apply wsem_of_task|done|done| | |].
  { exact (waiting_unblock (change t (with_err e) B) t). }
  { exact (count_unblock (change t (with_err e) B) t _). }
  intros u. rewrite task_of_unblock,  (wsem_fmap_change B t _ _ u NULL EB) by done.
  destruct (decide (u = t)) as [->|Nu]; [done|]. unfold B. rewrite lookup_change, decide_False by done. done.
Qed.

(** The same without making the task ready: it stays in the list, for the code
    that deletes it. *)
Definition sem_recover_call (t : Z) (A : abs) : abs :=
  let s := wsem_of A t in change t (with_wsem NULL) (set_count s (count_of A s + 1) A).

Lemma sem_ok_recover k A t a c :
  kernel_ok k A → task_of A !! t = Some a → wsem a ≠ NULL → count A !! wsem a = Some c → c < 0 →
  sem_ok (change t (with_wsem NULL) (set_count (wsem a) (c + 1) A)).
Proof.
  intros [G Hs] Ea Hw Ec Hc. set (s := wsem a) in *.
  set (B := change t (with_wsem NULL) (set_count s (c + 1) A)).
  destruct (so_wait _ Hs t a Ea Hw) as [Ht _]. pose proof (waiting_nodup k A G) as Hn.
  destruct (so_count _ Hs s c Ec) as (Ns & Hm & Hl).
  assert (∀ u, wsem <$> task_of B !! u = if decide (u = t) then Some NULL else wsem <$> task_of A !! u) as ES.
  { intros u. unfold B. by apply (wsem_fmap_change (set_count s (c + 1) A) t a). }
  assert (sem_ok (put g_waitingforsemaphore (filter (t ≠.) (waiting A)) B)) as [Hc' Hw' Hs'].
  { by eapply (sem_ok_leave A _ t s c); eauto; apply wsem_of_task. }
  split; [| |done].
  - intros s' c' E. destruct (Hc' s' c' E) as (Ns' & ? & El). split_and!; [done|done|]. rewrite <- El.
    unfold waiters. change (waiting (put g_waitingforsemaphore (filter (t ≠.) (waiting A)) B)) with (filter (t ≠.) (waiting A)).
    change (waiting B) with (waiting A). destruct (list_elem_of_split _ _ Ht) as (l1 & l2 & Eq).
    rewrite Eq in Hn |- *. rewrite Sq.filter_ne_once by done.
    rewrite <- (Permutation_middle l1 l2 t), filter_cons, decide_False; [done|].
    unfold wsem_of. rewrite ES, decide_True by done. simpl. congruence.
  - intros u b Eb Nb. destruct (Hw' u b Eb Nb) as [H1 H2]. split; [|done].
    change (u ∈ filter (t ≠.) (waiting A)) in H1. by apply list_elem_of_filter in H1 as [_ ?].
Qed.

Lemma sem_recover_spec k A t :
  kernel_ok k A → is_Some (task_of A !! t) → (t ∈ waiting A → wsem_of A t ≠ NULL) →
  wp (sem_recover t)
    (λ _ k', kernel_ok k' (if bool_decide (t ∈ waiting A) then sem_recover_call t A else A)) k.
Proof.
  intros K [a Ea] Hw. pose proof K as [G Hs]. destruct (rep_task (proj1 G) t a Ea) as (Nt & x & Ex & _).
  unfold sem_recover. rewrite wp_bind. erewrite wp_get_tcb by done. cbn [task_state waitsem as_tcb].
  rewrite (waitirq_state k A t a G Ea). apply (proj2 (wp_when _ _ _ _)).
  case_bool_decide as Ht; [|done]. specialize (Hw Ht). unfold sem_recover_call.
  rewrite (wsem_of_task A t a) in Hw |- * by done.
  destruct (waited_count k A t a K Ea Hw) as (c & Ec & Hc & Hlow).
  assert (count_of A (wsem a) = c) as -> by (unfold count_of; by rewrite Ec).
  rewrite wp_bind, wp_assert, wp_bind by (by apply negb_true_iff, Z.eqb_neq).
  eapply get_semcount_spec; [exact (proj1 G)|done|done|].
  rewrite wp_bind, wp_assert, wp_bind by by apply Z.ltb_lt. rewrite i16_small by lia.
  eapply set_semcount_spec; [done|eauto|done|]. intros k1 G1.
  eapply good_wsem; [exact G1|exact Ea|]. intros k2 G2. split; [done|]. by apply (sem_ok_recover k).
Qed.

(** *** Creation and inspection *)

Lemma sem_init_spec k A s v :
  kernel_ok k A → is_Some (count A !! s) → 0 ≤ count_of A s → 0 ≤ v ≤ SEM_VALUE_MAX →
  wp (sem_init s v) (λ r k', r = OK ∧ kernel_ok k' (set_count s v A)) k.
Proof.
  intros [G Hs] [c Ec] H0 Hv. destruct (so_count _ Hs s c Ec) as (Ns & _).
  unfold sem_init. rewrite (proj2 (Z.eqb_neq _ _) Ns), (proj2 (Z.leb_le _ _)) by lia. simpl.
  unfold SEM_VALUE_MAX in Hv. rewrite wp_bind, i16_small by lia. eapply set_semcount_spec; [done|eauto|done|].
  intros k' G'. rewrite wp_ret. split; [done|]. split; [done|]. apply sem_ok_count; [done|eauto|done|done].
Qed.

Lemma sem_init_invalid k A s v :
  kernel_ok k A → s = NULL ∨ SEM_VALUE_MAX < v →
  wp (sem_init s v) (λ r k', r = ERROR ∧ kernel_ok k' (set_err EINVAL A)) k.
Proof.
  intros K Hv. unfold sem_init.
  assert (negb (s =? NULL) && (v <=? SEM_VALUE_MAX) = false) as ->.
  { destruct Hv as [->|Hv]; [done|]. rewrite (proj2 (Z.leb_gt _ _)) by done. apply andb_false_r. }
  rewrite wp_bind. eapply wp_mono; [by apply set_errno_ok|]. intros [] k' K'. by rewrite wp_ret.
Qed.

Lemma sem_destroy_spec k A s :
  kernel_ok k A → is_Some (count A !! s) →
  wp (sem_destroy s)
    (λ r k', r = OK ∧ kernel_ok k' (if count_of A s <? 0 then A else set_count s 1 A)) k.
Proof.
  intros K [c Ec]. pose proof K as [G Hs]. destruct (so_count _ Hs s c Ec) as (Ns & _).
  assert (count_of A s = c) as Eco by (unfold count_of; by rewrite Ec).
  unfold sem_destroy. rewrite (proj2 (Z.eqb_neq _ _) Ns), Eco. simpl. rewrite wp_bind.
  eapply get_semcount_spec; [exact (proj1 G)|done|done|]. rewrite wp_bind.
  apply (proj2 (wp_when _ _ _ _)). destruct (Z.leb_spec 0 c) as [H0|H0].
  - rewrite (proj2 (Z.ltb_ge _ _)) by lia. eapply set_semcount_spec; [done|eauto|done|].
    intros k' G'. rewrite wp_ret. split; [done|]. split; [done|].
    apply sem_ok_count; [done|eauto|unfold SEM_VALUE_MAX; lia|lia].
  - rewrite (proj2 (Z.ltb_lt _ _)) by lia. by rewrite wp_ret.
Qed.

Lemma sem_getvalue_spec k A s sval :
  kernel_ok k A → is_Some (count A !! s) → sval ≠ NULL →
  wp (sem_getvalue s sval) (λ r k', r = (OK, Some (count_of A s)) ∧ k' = k) k.
Proof.
  intros [G Hs] [c Ec] Nv. destruct (so_count _ Hs s c Ec) as (Ns & _).
  unfold sem_getvalue. rewrite (proj2 (Z.eqb_neq _ _) Ns), (proj2 (Z.eqb_neq _ _) Nv). simpl. rewrite wp_bind.
  eapply get_semcount_spec; [exact (proj1 G)|done|done|]. rewrite wp_ret. unfold count_of. by rewrite Ec.
Qed.

Lemma sem_wait_resume_spec k A :
  kernel_ok k A →
  wp sem_wait_resume
    (λ r k', k' = k ∧ r = if bool_decide (get_err A = EINTR ∨ get_err A = ETIMEDOUT) then ERROR else OK) k.
Proof.
  intros [[R Hwf] _]. unfold sem_wait_resume. rewrite wp_bind.
  eapply wp_mono; [eapply get_errno_spec; [done|eapply wf0_ready, wf_wf0, Hwf]|].
  intros e k' [-> ->]. rewrite wp_ret. split; [done|].
  destruct (Z.eqb_spec (get_err A) EINTR), (Z.eqb_spec (get_err A) ETIMEDOUT); simpl;
    case_bool_decide; naive_solver.
Qed.

End Operations.

End Sem.
