(* ===== verification/Kernel.v ===== *)
(** * Tasks and interrupts on the kernel

    The scheduler and the semaphores as the tasks and the interrupt handlers use
    them: an event is a call of the running task, the return of the running task
    from a call in which it was switched away, or an interrupt whose handlers
    post semaphores, end waits and account for a tick.  The events of a run are
    any sequence that can happen; what they do to the abstract scheduler is
    [spec_event], which also says what can happen. *)

From stdpp Require Import functions.
From S2P Require Import Prelude Queue Sched SchedRep SchedSpec Sem.

Module Kernel.
Export Sem.
#[local] Open Scope cmd_scope.

(** ** Runs of the code *)

(** What is left of a call of a task that was switched away. *)
Inductive rest : Type :=
| InWait (sem : Z)
| InUnlock.

#[export] Instance rest_eq_dec : EqDecision rest.
Proof. solve_decision. Defined.

Record sys : Type := mksys { kern : kernel; rests : gmap Z rest }.

Inductive handler : Type :=
| HPost (sem : Z)
| HCancel (tcb errcode : Z)
| HSlice.

Inductive event : Type :=
| Lock
| Unlock
| Yield
| SetPriority (tcb prio : Z)
| Wait (sem : Z)
| TryWait (sem : Z)
| Post (sem : Z)
| Resume
| Interrupt (hs : list handler).

Definition on_kern {A} (m : M kernel A) : M sys A := λ s,
  res_bind (m (kern s)) (λ '(a, k), Ok (a, mksys k (rests s))).
Definition set_rest (t : Z) (r : option rest) : M sys unit :=
  modify (λ s, mksys (kern s) (match r with Some r => <[t := r]> (rests s) | None => delete t (rests s) end)).

Definition run_handler (h : handler) : M kernel unit :=
  match h with
  | HPost s => sem_post s ;;; ret tt
  | HCancel t e => sem_waitirq t e
  | HSlice => sched_process_timeslice
  end.
Fixpoint run_handlers (hs : list handler) : M kernel unit :=
  match hs with
  | [] => ret tt
  | h :: hs => run_handler h ;;; run_handlers hs
  end.

(** The result of the call, when it returns. *)
Definition run_event (e : event) : M sys (option Z) :=
  t <-- on_kern sched_self ;;
  match e with
  | Lock => r <-- on_kern sched_lock ;; ret (Some r)
  | Unlock =>
      r <-- on_kern sched_unlock ;;
      match r with Some r => ret (Some r) | None => set_rest t (Some InUnlock) ;;; ret None end
  | Yield => r <-- on_kern sched_yield ;; ret (Some r)
  | SetPriority u p => r <-- on_kern (sched_setpriority u p) ;; ret (Some r)
  | Wait s =>
      r <-- on_kern (sem_wait s) ;;
      match r with Some r => ret (Some r) | None => set_rest t (Some (InWait s)) ;;; ret None end
  | TryWait s => r <-- on_kern (sem_trywait s) ;; ret (Some r)
  | Post s => r <-- on_kern (sem_post s) ;; ret (Some r)
  | Resume =>
      r <-- gets (λ s, rests s !! t) ;;
      match r with
      | Some (InWait _) => r <-- on_kern sem_wait_resume ;; set_rest t None ;;; ret (Some r)
      | Some InUnlock => on_kern (unlock_slice t) ;;; set_rest t None ;;; ret (Some OK)
      | None => ret None
      end
  | Interrupt hs =>
      on_kern (irq_enter ;;; run_handlers hs ;;; irq_exit) ;;; ret None
  end.

Fixpoint run_events (es : list event) : M sys (list (option Z)) :=
  match es with
  | [] => ret []
  | e :: es => r <-- run_event e ;; rs <-- run_events es ;; ret (r :: rs)
  end.

(** ** What they do *)

Record asys : Type := mkasys { abst : abs; arests : gmap Z rest }.

Definition err_of (A : abs) (t : Z) : Z := default 0 (err <$> task_of A !! t).
Definition cancelled (A : abs) (t : Z) : bool :=
  bool_decide (err_of A t = EINTR ∨ err_of A t = ETIMEDOUT).

(** A semaphore that can be posted. *)
Definition postable (s : Z) (A : abs) : bool :=
  bool_decide (is_Some (count A !! s)) && (count_of A s <? SEM_VALUE_MAX).

Definition spec_handler (h : handler) (A : abs) : option abs :=
  match h with
  | HPost s => if postable s A then Some (sem_post_call s A) else None
  | HCancel t e =>
      if bool_decide (is_Some (task_of A !! t)) && bool_decide (e = EINTR ∨ e = ETIMEDOUT) then
        Some (if bool_decide (t ∈ waiting A) then sem_cancel_call t e A else A)
      else None
  | HSlice => Some (slice_tick A)
  end.
Fixpoint spec_handlers (hs : list handler) (A : abs) : option abs :=
  match hs with
  | [] => Some A
  | h :: hs => spec_handler h A ≫= spec_handlers hs
  end.

Section Spec.
Context (idle : Z).

Definition valid_prio (p : Z) : bool := (SCHED_PRIORITY_MIN <=? p) && (p <=? SCHED_PRIORITY_MAX).

(** [None] is an event that cannot happen, or that stops the system on an
    assertion: a lock count that would overflow, a count that would. *)
Definition spec_event (e : event) (a : asys) : option (option Z * asys) :=
  let A := abst a in
  let t := running A in
  match e, arests a !! t with
  | Lock, None =>
      if lock_of A t <? MAX_LOCK_COUNT then Some (Some OK, mkasys (lock_call A) (arests a)) else None
  | Unlock, None =>
      let B := unlock_call A in
      if bool_decide (running B = t) then Some (Some OK, mkasys B (arests a))
      else Some (None, mkasys B (<[t := InUnlock]> (arests a)))
  | Yield, None =>
      if bool_decide (t = idle) then None
      else Some (Some OK, mkasys (setprio t (prio_of A t) A) (arests a))
  | SetPriority u p, None =>
      if valid_prio p then
        if bool_decide (u ≠ idle ∧ is_Some (list_with (queued A) u)) then
          Some (Some OK, mkasys (setprio u p A) (arests a))
        else None
      else Some (Some ERROR, mkasys (set_err EINVAL A) (arests a))
  | Wait s, None =>
      if bool_decide (is_Some (count A !! s) ∧ t ≠ idle) then
        let '(r, B) := sem_wait_call s A in
        match r with
        | Some r => Some (Some r, mkasys B (arests a))
        | None => Some (None, mkasys B (<[t := InWait s]> (arests a)))
        end
      else None
  | TryWait s, None =>
      if bool_decide (is_Some (count A !! s)) then
        Some (Some (fst (sem_trywait_call s A)), mkasys (snd (sem_trywait_call s A)) (arests a))
      else None
  | Post s, None =>
      if postable s A then Some (Some OK, mkasys (sem_post_call s A) (arests a)) else None
  | Resume, Some (InWait _) =>
      Some (Some (if cancelled A t then ERROR else OK), mkasys A (delete t (arests a)))
  | Resume, Some InUnlock => Some (Some OK, mkasys A (delete t (arests a)))
  | Interrupt hs, _ =>
      B ← spec_handlers hs (upd_irq true A);
      Some (None, mkasys (upd_irq false B) (arests a))
  | _, _ => None
  end.

Fixpoint spec_events (es : list event) (a : asys) : option (list (option Z) * asys) :=
  match es with
  | [] => Some ([], a)
  | e :: es =>
      '(r, a1) ← spec_event e a;
      '(rs, a2) ← spec_events es a1;
      Some (r :: rs, a2)
  end.

(** ** The invariant of a run *)

(** A task that waits is in the call that says so, and not cancelled. *)
Definition calls_ok (A : abs) (rs : gmap Z rest) : Prop :=
  ∀ t, t ∈ waiting A →
    wsem_of A t ≠ NULL ∧ rs !! t = Some (InWait (wsem_of A t)) ∧ cancelled A t = false.

Record sys_ok (s : sys) (a : asys) : Prop := mksys_ok {
  sk_kernel : kernel_ok idle (kern s) (abst a);
  sk_rests : rests s = arests a;
  sk_calls : calls_ok (abst a) (arests a);
  sk_irq : irq (abst a) = false
}.

(** *** What an operation may change for it to stay

    The tasks that wait after it waited before it, and their calls, semaphores
    and error numbers are the same. *)
Lemma calls_ok_mono A B rs rs' :
  calls_ok A rs →
  (∀ t, t ∈ waiting B → t ∈ waiting A ∧ wsem_of B t = wsem_of A t ∧ err_of B t = err_of A t ∧ rs' !! t = rs !! t) →
  calls_ok B rs'.
Proof.
  intros H HB t Ht. destruct (HB t Ht) as (HtA & Ew & Ee & Er). destruct (H t HtA) as (? & ? & ?).
  unfold cancelled in *. rewrite Ew, Ee, Er. done.
Qed.

Definition wait_view (a : task) : Z * Z := (wsem a, err a).

#[local] Instance wait_view_unscheduled : Unscheduled wait_view.
Proof. done. Qed.

Lemma view_fields A B t :
  wait_view <$> task_of B !! t = wait_view <$> task_of A !! t →
  wsem_of B t = wsem_of A t ∧ err_of B t = err_of A t.
Proof.
  unfold wsem_of, err_of. destruct (task_of A !! t), (task_of B !! t); simpl; try done.
  unfold wait_view. by intros [= -> ->].
Qed.

Lemma calls_ok_same A B rs : sem_same wait_view A B → calls_ok A rs → calls_ok B rs.
Proof.
  intros [W V _] H. eapply calls_ok_mono; [done|]. intros t Ht. rewrite W in Ht.
  by destruct (view_fields A B t (V t)).
Qed.

Lemma same_wsem A B : sem_same wait_view A B → sem_same wsem A B.
Proof.
  intros [W V C]. split; [done| |done]. intros t. specialize (V t).
  destruct (task_of A !! t), (task_of B !! t); unfold wait_view in *; simpl in *; congruence.
Qed.

Lemma running_not_waiting k A : kernel_ok idle k A → ¬ (running A ∈ waiting A).
Proof.
  intros [[R Hwf] _] H. assert (g_readytorun = g_waitingforsemaphore); [|done].
  apply (rep_disjoint R _ _ (running A)); [|done].
  destruct (wf0_running idle A (wf_wf0 _ _ Hwf)) as (q & Eq & _). change (running A ∈ ready A). rewrite Eq. set_solver.
Qed.

(** A change of the running task alone. *)
Lemma calls_ok_running k A B rs rs' :
  kernel_ok idle k A → calls_ok A rs →
  (∀ t, t ∈ waiting B → t ∈ waiting A) →
  (∀ t, t ≠ running A → wait_view <$> task_of B !! t = wait_view <$> task_of A !! t ∧ rs' !! t = rs !! t) →
  calls_ok B rs'.
Proof.
  intros K H HW HV. eapply calls_ok_mono; [done|]. intros t Ht. pose proof (HW t Ht) as HtA.
  destruct (HV t) as [V E]; [intros ->; by eapply running_not_waiting|].
  by destruct (view_fields A B t V).
Qed.

(** ** The code does what the events say *)

Lemma wp_on_kern {B} (m : M kernel B) Q s :
  wp (on_kern m) Q s = wp m (λ b k, Q b (mksys k (rests s))) (kern s).
Proof. unfold wp, on_kern. by destruct (m (kern s)) as [[b k]|]. Qed.

Lemma kernel_ok_view k A B :
  sem_same wait_view A B → kernel_ok idle (k : kernel) A → ∀ k', good idle k' B → kernel_ok idle k' B.
Proof. intros HS K k' G. eapply (kernel_ok_same idle k' A); [by apply same_wsem|apply K|done]. Qed.

(** Views of the operations that are not the scheduler's. *)
Lemma view_set_err A e u :
  u ≠ running A → task_of (set_err e A) !! u = task_of A !! u.
Proof. intros N. unfold set_err. destruct (irq A); [done|]. by rewrite lookup_change, decide_False. Qed.

Lemma waiting_set_err A e : waiting (set_err e A) = waiting A.
Proof. unfold set_err. by destruct (irq A). Qed.

Lemma task_of_merge A : task_of (merge A) = task_of A.
Proof. done. Qed.

Lemma task_of_wait s A u : u ≠ running A → task_of (wait s A) !! u = task_of A !! u.
Proof.
  intros N. unfold wait, block. rewrite task_of_merge.
  change (task_of (enter_blocked _ _ ?X)) with (task_of X). unfold leave, put. cbn [task_of upd_queued].
  by rewrite !lookup_change, !decide_False.
Qed.

Lemma task_of_wait_running s A a :
  task_of A !! running A = Some a → task_of (wait s A) !! running A = Some (with_err 0 (with_wsem s a)).
Proof.
  intros Ea. unfold wait, block. rewrite task_of_merge.
  change (task_of (enter_blocked _ _ ?X)) with (task_of X). unfold leave, put. cbn [task_of upd_queued].
  rewrite !lookup_change, !decide_True by done. unfold set_count. simpl. by rewrite Ea.
Qed.

Lemma waiting_wait s A : waiting (wait s A) ≡ₚ running A :: waiting A.
Proof.
  unfold wait, block. rewrite (ss_waiting wsem _ _ (same_merge wsem _)).
  unfold enter_blocked. simpl. unfold waiting, enter. simpl. list_simpl. by rewrite enqueue_perm.
Qed.

(** *** The calls *)

Lemma irq_make_ready t A : irq (make_ready t A) = irq A.
Proof. unfold make_ready. by destruct (delayed t A). Qed.
Lemma irq_reprio_ready t p A : irq (reprio_ready t p A) = irq A.
Proof. unfold reprio_ready. by rewrite irq_make_ready. Qed.
Lemma irq_reprio t p A : irq (reprio t p A) = irq A.
Proof. unfold reprio. case_bool_decide; apply irq_reprio_ready. Qed.
Lemma irq_setprio t p A : irq (setprio t p A) = irq A.
Proof. unfold setprio. repeat case_match; rewrite ?irq_reprio, ?irq_reprio_ready; done. Qed.
Lemma irq_lock A : irq (lock_call A) = irq A.
Proof. unfold lock_call. by destruct (irq A) eqn:E. Qed.
Lemma irq_unlock A : irq (unlock_call A) = irq A.
Proof. unfold unlock_call. destruct (irq A) eqn:E; simpl; [done|]. by destruct (_ =? 0). Qed.
Lemma irq_slice_tick A : irq (slice_tick A) = irq A.
Proof. unfold slice_tick. repeat case_match; rewrite ?irq_reprio; done. Qed.
Lemma irq_unblock t l A : irq (unblock t l A) = irq A.
Proof. unfold unblock. by rewrite irq_make_ready. Qed.

Lemma sys_same s a B k' :
  sys_ok s a → sem_same wait_view (abst a) B → irq B = irq (abst a) → good idle k' B →
  sys_ok (mksys k' (rests s)) (mkasys B (arests a)).
Proof.
  intros [K E C I] HS EI G. split; simpl; [by eapply kernel_ok_view|done|by eapply calls_ok_same|congruence].
Qed.

Lemma self_spec s a (Q : Z → sys → Prop) : sys_ok s a → Q (running (abst a)) s → wp (on_kern sched_self) Q s.
Proof.
  intros [[[R _] _] _ _ _] HQ. rewrite wp_on_kern. unfold sched_self. rewrite wp_head_of, (rep_running R).
  by destruct s.
Qed.

Ltac start_event S :=
  unfold run_event; rewrite wp_bind; apply (self_spec _ _ _ S); cbv beta iota.

Definition implements (e : event) : Prop := ∀ s a r a',
  sys_ok s a → spec_event e a = Some (r, a') → wp (run_event e) (λ r' s', r' = r ∧ sys_ok s' a') s.

(** A call of the scheduler that returns to its caller. *)
Lemma plain_call {V} (f : V → option Z) (m : M kernel V) s a r B :
  sys_ok s a → wp m (λ v k', f v = r ∧ good idle k' B) (kern s) →
  sem_same wait_view (abst a) B → irq B = irq (abst a) →
  wp (v <-- on_kern m ;; ret (f v)) (λ r' s', r' = r ∧ sys_ok s' (mkasys B (arests a))) s.
Proof.
  intros S H HS HI. rewrite wp_bind, wp_on_kern. eapply wp_mono; [exact H|]. intros v k' [Ef G].
  rewrite wp_ret. split; [done|]. by apply sys_same.
Qed.

Lemma sys_nodup s a : sys_ok s a → NoDup (waiting (abst a)).
Proof. intros S. eapply waiting_nodup, (sk_kernel _ _ S). Qed.

Lemma lock_implements : implements Lock.
Proof.
  intros s a r a' S E. simpl in E. destruct (arests a !! _); [done|].
  destruct (Z.ltb_spec (lock_of (abst a) (running (abst a))) MAX_LOCK_COUNT) as [H|]; [|done].
  injection E as <- <-. start_event S.
  apply (plain_call Some); [done| |by apply same_lock|apply irq_lock].
  eapply wp_mono; [apply sched_lock_spec; [apply (sk_kernel _ _ S)|done]|]. by intros r k' [-> G].
Qed.

Lemma yield_implements : implements Yield.
Proof.
  intros s a r a' S E. simpl in E. destruct (arests a !! _); [done|].
  case_bool_decide as H; [done|]. injection E as <- <-. start_event S.
  apply (plain_call Some); [done| |by eapply same_setprio, sys_nodup|apply irq_setprio].
  eapply wp_mono; [apply (sched_yield_spec idle); [apply (sk_kernel _ _ S)|done]|]. by intros r k' [-> G].
Qed.

Lemma valid_prio_iff p : valid_prio p = true ↔ SCHED_PRIORITY_MIN ≤ p ≤ SCHED_PRIORITY_MAX.
Proof. unfold valid_prio. rewrite andb_true_iff, !Z.leb_le. done. Qed.

(** A change of the running task's error number. *)
Lemma calls_ok_set_err k A rs e : kernel_ok idle k A → calls_ok A rs → calls_ok (set_err e A) rs.
Proof.
  intros K C. eapply calls_ok_running; [done|done|by rewrite waiting_set_err|].
  intros t N. by rewrite view_set_err.
Qed.

Lemma setpriority_implements u p : implements (SetPriority u p).
Proof.
  intros s a r a' S E. simpl in E. destruct (arests a !! _); [done|].
  start_event S. destruct (valid_prio p) eqn:Ep.
  - case_bool_decide as H; [|done]. destruct H as [Nu Hu]. injection E as <- <-.
    apply (plain_call Some); [done| |by eapply same_setprio, sys_nodup|apply irq_setprio].
    eapply wp_mono; [apply (setpriority_spec idle); [apply (sk_kernel _ _ S)|done|done|by apply valid_prio_iff]|].
    by intros r k' [-> G].
  - injection E as <- <-. rewrite wp_bind, wp_on_kern. eapply wp_mono.
    { apply (setpriority_invalid idle); [apply (sk_kernel _ _ S)|]. rewrite <- valid_prio_iff. by rewrite Ep. }
    intros r k' [-> G]. rewrite wp_ret. split; [done|]. destruct S as [K Er C I]. split; simpl; [|done| |].
    + eapply kernel_ok_same; [by apply (same_set_err wsem)|apply K|done].
    + by eapply calls_ok_set_err.
    + by rewrite irq_set_err.
Qed.

(** The rest of the running task's call. *)
Lemma calls_ok_rest k A B rs r :
  kernel_ok idle k A → sem_same wait_view A B → calls_ok A rs → calls_ok B (<[running A := r]> rs).
Proof.
  intros K [W V _] C. eapply calls_ok_running; [done|done|by setoid_rewrite W|].
  intros t N. by rewrite V, lookup_insert_ne.
Qed.

Lemma unlock_implements : implements Unlock.
Proof.
  intros s a r a' S E. simpl in E. destruct (arests a !! _); [done|]. start_event S.
  pose proof S as [K Er C I]. rewrite wp_bind, wp_on_kern.
  eapply wp_mono; [apply (sched_unlock_spec idle), K|]. intros r' k' [-> G].
  case_bool_decide as H; injection E as <- <-.
  - rewrite wp_ret. split; [done|]. apply sys_same; [done|by apply same_unlock|apply irq_unlock|done].
  - rewrite wp_bind. unfold set_rest. rewrite wp_modify, wp_ret. split; [done|]. split; simpl; [|by rewrite Er| |].
    + eapply kernel_ok_same; [by apply (same_unlock wsem)|apply K|done].
    + eapply calls_ok_rest; [done|by apply same_unlock|done].
    + by rewrite irq_unlock.
Qed.

Lemma calls_ok_take k A rs s : kernel_ok idle k A → calls_ok A rs → calls_ok (take_sem s A) rs.
Proof.
  intros K C. eapply calls_ok_running; [done|done|done|].
  intros t N. unfold take_sem. by rewrite lookup_change, decide_False.
Qed.

Lemma calls_ok_wait k A rs s :
  kernel_ok idle k A → s ≠ NULL → calls_ok A rs → calls_ok (wait s A) (<[running A := InWait s]> rs).
Proof.
  intros K Ns C t Ht. rewrite waiting_wait in Ht. destruct (decide (t = running A)) as [->|N].
  - destruct (good_running idle k A (proj1 K)) as (a & _ & Ea & _).
    pose proof (task_of_wait_running s A a Ea) as E.
    rewrite (wsem_of_task _ _ _ E). simpl. split_and!; [done|by rewrite lookup_insert_eq|].
    unfold cancelled, err_of. by rewrite E.
  - assert (t ∈ waiting A) as HtA by set_solver. destruct (C t HtA) as (? & ? & ?).
    unfold cancelled, wsem_of, err_of in *. rewrite task_of_wait, lookup_insert_ne by done. done.
Qed.

Lemma set_err_ok k A e : kernel_ok idle k A → ∃ k', kernel_ok idle k' (set_err e A).
Proof. intros K. destruct (wp_run _ _ _ (set_errno_ok idle k A e K)) as ([] & k' & _ & K'). eauto. Qed.

Lemma wait_implements sem : implements (Wait sem).
Proof.
  intros s a r a' S E. simpl in E. destruct (arests a !! _) eqn:En; [done|]. start_event S.
  pose proof S as [K Er C I]. case_bool_decide as H; [|done]. destruct H as [[c Ec] Ni].
  rewrite wp_bind, wp_on_kern.
  eapply wp_mono; [by apply (sem_wait_spec idle (kern s) (abst a)); [..|eauto]|]. intros r' k' [-> K'].
  destruct (set_err_ok _ _ EINVAL K) as [k1 K1]. pose proof (calls_ok_set_err _ _ _ EINVAL K C) as C1.
  unfold sem_wait_call in *. destruct (0 <? count_of (abst a) sem); simpl in *; injection E as <- <-.
  - rewrite wp_ret. split; [done|]. split; simpl; [done|done|by eapply calls_ok_take|].
    by rewrite irq_set_err.
  - rewrite wp_bind. unfold set_rest. rewrite wp_modify, wp_ret. split; [done|].
    rewrite <- (running_set_err (abst a) EINVAL) in *. split; simpl; [done|by rewrite Er| |].
    + eapply calls_ok_wait; [done| |done]. by apply (so_count _ (proj2 K) sem c).
    + by rewrite irq_set_err.
Qed.

Lemma trywait_implements sem : implements (TryWait sem).
Proof.
  intros s a r a' S E. simpl in E. destruct (arests a !! _) eqn:En; [done|]. start_event S.
  pose proof S as [K Er C I]. case_bool_decide as H; [|done]. injection E as <- <-.
  rewrite wp_bind, wp_on_kern. eapply wp_mono; [by apply (sem_trywait_spec idle (kern s) (abst a))|].
  intros r' k' [-> K']. rewrite wp_ret. split; [done|].
  destruct (set_err_ok _ _ EINVAL K) as [k1 K1]. destruct (set_err_ok _ _ EAGAIN K1) as [k2 K2].
  pose proof (calls_ok_set_err _ _ _ EAGAIN K1 (calls_ok_set_err _ _ _ EINVAL K C)) as C2.
  unfold sem_trywait_call in *. destruct (0 <? count_of (abst a) sem); simpl in *;
    split; simpl; try done; rewrite ?irq_set_err; try done. by eapply calls_ok_take.
Qed.

(** A task that is woken: nothing changes for those that still wait. *)
Lemma calls_ok_unblock A B t f rs :
  waiting B = waiting A → (∀ u, u ≠ t → task_of B !! u = task_of A !! u) → calls_ok A rs →
  calls_ok (unblock t g_waitingforsemaphore (change t f B)) rs.
Proof.
  intros EW ET C. eapply calls_ok_mono; [done|]. intros u Hu. rewrite waiting_unblock in Hu.
  apply list_elem_of_filter in Hu as [N Hu]. change (u ∈ waiting B) in Hu. rewrite EW in Hu. split; [done|].
  unfold wsem_of, err_of, unblock. rewrite !task_of_make_ready, !lookup_change, !decide_False by congruence.
  unfold leave, put. cbn [task_of upd_queued]. rewrite lookup_change, decide_False, ET by congruence. done.
Qed.

Lemma calls_ok_post A rs s : calls_ok A rs → calls_ok (sem_post_call s A) rs.
Proof.
  intros C. unfold sem_post_call. destruct (_ <? 0); [|done]. destruct (waiters s A) as [|t q]; [done|].
  by apply (calls_ok_unblock A).
Qed.

Lemma calls_ok_cancel A rs t e : calls_ok A rs → calls_ok (sem_cancel_call t e A) rs.
Proof.
  intros C. unfold sem_cancel_call. apply (calls_ok_unblock A); [done| |done].
  intros u N. by rewrite lookup_change, decide_False.
Qed.

Lemma postable_iff s A : postable s A = true ↔ is_Some (count A !! s) ∧ count_of A s < SEM_VALUE_MAX.
Proof. unfold postable. by rewrite andb_true_iff, bool_decide_eq_true, Z.ltb_lt. Qed.

Lemma irq_post s A : irq (sem_post_call s A) = irq A.
Proof.
  unfold sem_post_call. destruct (_ <? 0); [|done]. destruct (waiters s A); [done|].
  unfold wake. by rewrite irq_unblock.
Qed.

Lemma post_implements sem : implements (Post sem).
Proof.
  intros s a r a' S E. simpl in E. destruct (arests a !! _) eqn:En; [done|]. start_event S.
  pose proof S as [K Er C I]. destruct (postable sem (abst a)) eqn:Hp; [|done]. injection E as <- <-.
  apply postable_iff in Hp as [Hc Hm]. rewrite wp_bind, wp_on_kern.
  eapply wp_mono; [by apply (sem_post_spec idle (kern s) (abst a))|]. intros r' k' [-> K']. rewrite wp_ret.
  split; [done|]. split; simpl; [done|done|by apply calls_ok_post|by rewrite irq_post].
Qed.

Lemma calls_ok_delete k A rs : kernel_ok idle k A → calls_ok A rs → calls_ok A (delete (running A) rs).
Proof.
  intros K C. eapply calls_ok_running; [done|done|done|]. intros t N. by rewrite lookup_delete_ne.
Qed.

Lemma resume_implements : implements Resume.
Proof.
  intros s a r a' S E. simpl in E. pose proof S as [K Er C I]. start_event S.
  rewrite wp_bind, wp_gets, Er. unfold set_rest.
  pose proof (calls_ok_delete _ _ _ K C) as C'.
  destruct (arests a !! running (abst a)) as [[sem|]|] eqn:En; [..|done]; injection E as <- <-.
  - rewrite wp_bind, wp_on_kern. eapply wp_mono; [apply (sem_wait_resume_spec idle (kern s) (abst a) K)|].
    intros r k' [-> ->]. rewrite wp_bind, wp_modify, wp_ret. split.
    + unfold cancelled, get_err, err_of. by rewrite I.
    + split; simpl; [done|by rewrite Er|done|done].
  - rewrite wp_bind, wp_on_kern. eapply (unlock_slice_spec idle); [apply K|].
    rewrite wp_bind, wp_modify, wp_ret. split; [done|]. split; simpl; [done|by rewrite Er|done|done].
Qed.

(** *** Interrupts *)

Record irq_ok (k : kernel) (A : abs) (rs : gmap Z rest) : Prop := mkirq_ok {
  iq_kernel : kernel_ok idle k A;
  iq_calls : calls_ok A rs;
  iq_irq : irq A = true
}.

Lemma slice_tick_ok k A : kernel_ok idle k A → wp sched_process_timeslice (λ _ k', kernel_ok idle k' (slice_tick A)) k.
Proof.
  intros K. eapply wp_mono; [apply (timeslice_spec idle), K|]. intros [] k' G.
  eapply kernel_ok_same; [by apply (same_slice_tick wsem)|apply K|done].
Qed.

Lemma irq_cancel t e A : irq (sem_cancel_call t e A) = irq A.
Proof. unfold sem_cancel_call. by rewrite irq_unblock. Qed.

Lemma handler_spec h k A B rs :
  irq_ok k A rs → spec_handler h A = Some B → wp (run_handler h) (λ _ k', irq_ok k' B rs) k.
Proof.
  intros [K C I] E. destruct h as [sem|t e|]; simpl in E.
  - destruct (postable sem A) eqn:Hp; [|done]. injection E as <-. apply postable_iff in Hp as [Hc Hm].
    unfold run_handler. rewrite wp_bind. eapply wp_mono; [by apply (sem_post_spec idle k A)|].
    intros r k' [_ K']. rewrite wp_ret. split; [done|by apply calls_ok_post|by rewrite irq_post].
  - destruct (bool_decide (is_Some (task_of A !! t))) eqn:Ht; [|done]. apply bool_decide_eq_true in Ht.
    destruct (bool_decide (e = EINTR ∨ e = ETIMEDOUT)); [|done]. simpl in E. injection E as <-.
    eapply wp_mono; [apply (sem_waitirq_spec idle k A t e); [done|done|intros Hw; apply (C t Hw)]|].
    intros [] k' K'. case_bool_decide; [|done].
    split; [done|by apply calls_ok_cancel|by rewrite irq_cancel].
  - injection E as <-. eapply wp_mono; [by apply slice_tick_ok|]. intros [] k' K'.
    split; [done|by eapply calls_ok_same; [apply (same_slice_tick wait_view)|]|by rewrite irq_slice_tick].
Qed.

Lemma handlers_spec hs k A B rs :
  irq_ok k A rs → spec_handlers hs A = Some B → wp (run_handlers hs) (λ _ k', irq_ok k' B rs) k.
Proof.
  revert k A. induction hs as [|h hs IH]; intros k A HI E; simpl in E.
  - injection E as <-. done.
  - apply bind_Some in E as (A1 & E1 & E2). simpl. rewrite wp_bind.
    eapply wp_mono; [by eapply handler_spec|]. intros [] k' H1. by apply (IH k' A1).
Qed.

(** A flag that only interrupts use. *)
Lemma kernel_ok_irq k A v k' :
  kernel_ok idle k A → rep (running A) k' (upd_irq v A) → kernel_ok idle k' (upd_irq v A).
Proof.
  intros [[R Hwf] Hs] R'. split; [split; [done|by destruct Hwf]|]. destruct Hs as [H1 H2 H3]. by split.
Qed.

Lemma interrupt_implements hs : implements (Interrupt hs).
Proof.
  intros s a r a' S E. pose proof S as [K Er C I].
  assert (∃ B, spec_handlers hs (upd_irq true (abst a)) = Some B ∧ r = None
    ∧ a' = mkasys (upd_irq false B) (arests a)) as (B & EB & -> & ->).
  { simpl in E. apply bind_Some in E as (B & EB & E). injection E as <- <-. eauto. }
  start_event S. rewrite wp_bind, wp_on_kern, wp_bind.
  eapply wp_mono; [by apply irq_enter_spec; [apply (proj1 K)|]|]. intros [] k1 R1. rewrite wp_bind.
  eapply wp_mono.
  { eapply (handlers_spec hs k1 _ B (arests a)); [|done]. split; [by eapply kernel_ok_irq|done|done]. }
  intros [] k2 [K2 C2 I2]. eapply wp_mono; [by apply irq_exit_spec; [apply (proj1 K2)|]|]. intros [] k3 R3.
  rewrite wp_ret. split; [done|]. split; simpl; [by eapply kernel_ok_irq|done|done|done].
Qed.

Lemma event_implements e : implements e.
Proof.
  destruct e; [apply lock_implements|apply unlock_implements|apply yield_implements
    |apply setpriority_implements|apply wait_implements|apply trywait_implements|apply post_implements
    |apply resume_implements|apply interrupt_implements].
Qed.

Lemma events_implement es s a rs a' :
  sys_ok s a → spec_events es a = Some (rs, a') →
  wp (run_events es) (λ rs' s', rs' = rs ∧ sys_ok s' a') s.
Proof.
  revert s a rs. induction es as [|e es IH]; intros s a rs S E; simpl in E.
  - injection E as <- <-. done.
  - apply bind_Some in E as ([r a1] & E1 & E). apply bind_Some in E as ([rs1 a2] & E2 & E).
    injection E as <- <-. simpl. rewrite wp_bind.
    eapply wp_mono; [by eapply event_implements|]. intros r' s1 [-> S1]. rewrite wp_bind.
    eapply wp_mono; [by eapply IH|]. intros rs' s2 [-> S2]. by rewrite wp_ret.
Qed.

(** *** Calls that stop the system

    A call that the task may make, or an interrupt that may come, has no outcome
    in [spec_event] only when it would raise a count above its maximum: the
    code's assertion stops it.  [legal_event] is the rest of the conditions of
    [spec_event]. *)

Definition legal_handler (h : handler) (A : abs) : bool :=
  match h with
  | HPost s => bool_decide (is_Some (count A !! s))
  | _ => bool_decide (is_Some (spec_handler h A))
  end.
Fixpoint legal_handlers (hs : list handler) (A : abs) : bool :=
  match hs with
  | [] => true
  | h :: hs => legal_handler h A && match spec_handler h A with Some B => legal_handlers hs B | None => true end
  end.
Definition legal_event (e : event) (a : asys) : bool :=
  let A := abst a in
  match e, arests a !! running A with
  | Lock, None => true
  | Post s, None => bool_decide (is_Some (count A !! s))
  | Interrupt hs, _ => legal_handlers hs (upd_irq true A)
  | _, _ => bool_decide (is_Some (spec_event e a))
  end.
Fixpoint legal_events (es : list event) (a : asys) : bool :=
  match es with
  | [] => true
  | e :: es => legal_event e a && match spec_event e a with Some (_, a1) => legal_events es a1 | None => true end
  end.

Lemma sem_post_full x k A : kernel_ok idle k A → is_Some (count A !! x) → SEM_VALUE_MAX ≤ count_of A x →
  sem_post x k = Undef AssertFail.
Proof.
  intros [[R _] Hs] [c Ec] Hc. destruct (so_count _ Hs x c Ec) as (Nx & _). unfold count_of in Hc. rewrite Ec in Hc. simpl in Hc.
  unfold sem_post, get_semcount, on_sems, deref, bind. simpl. rewrite (proj2 (Z.eqb_neq _ _) Nx). simpl.
  rewrite (rep_sems _ _ _ R), Ec. simpl. unfold assert_. by rewrite (proj2 (Z.ltb_ge _ _)).
Qed.

Lemma sched_lock_full k A : kernel_ok idle k A → irq A = false → MAX_LOCK_COUNT ≤ lock_of A (running A) →
  sched_lock k = Undef AssertFail.
Proof.
  intros [[R Hwf] _] I Hl. destruct (good_running idle k A (conj R Hwf)) as (b & _ & Eb & Hn & _).
  destruct (rep_task R _ b Eb) as (_ & z & Ez & _). pose proof (rep_running R) as Er. pose proof (rep_irq _ _ _ R) as Ei.
  unfold lock_of in Hl. rewrite Eb in Hl. simpl in Hl.
  unfold sched_lock, head_of, up_interrupt_context, gets, bind, when, get, deref. simpl. unfold head_of, gets in Er. simpl in Er.
  rewrite Er, (proj2 (Z.eqb_neq _ _) Hn), <- Ei, I. simpl.
  unfold on_tcbs. rewrite Ez. simpl. unfold assert_. by rewrite (proj2 (Z.ltb_ge _ _)).
Qed.

Lemma handlers_stop hs k A rs : irq_ok k A rs → legal_handlers hs A = true → spec_handlers hs A = None →
  run_handlers hs k = Undef AssertFail.
Proof.
  revert k A. induction hs as [|h hs IH]; intros k A HI HL E; simpl in E; [done|]. simpl in HL.
  apply andb_true_iff in HL as [H1 H2]. unfold run_handlers; fold run_handlers. unfold bind.
  destruct (spec_handler h A) as [B|] eqn:EB.
  - destruct (wp_run _ _ _ (handler_spec h k A B rs HI EB)) as ([] & k' & -> & HI'). simpl. by eapply IH.
  - destruct h as [x|t e|]; [|by unfold legal_handler in H1; rewrite EB in H1..]. simpl in H1, EB. apply bool_decide_eq_true in H1.
    assert (SEM_VALUE_MAX ≤ count_of A x) as Hc.
    { apply Z.nlt_ge. intros Hlt. assert (postable x A = true) as Hp by (by apply postable_iff). by rewrite Hp in EB. }
    simpl. unfold bind. by rewrite (sem_post_full x k A (iq_kernel _ _ _ HI) H1 Hc).
Qed.

Lemma interrupt_stops hs s a : sys_ok s a → legal_handlers hs (upd_irq true (abst a)) = true →
  spec_event (Interrupt hs) a = None → (on_kern (irq_enter ;;; run_handlers hs ;;; irq_exit) ;;; ret (@None Z)) s = Undef AssertFail.
Proof.
  intros S HL E. pose proof S as [K Er C I]. simpl in E. apply bind_None in E as [E|(B & _ & E)]; [|done].
  unfold bind at 1. unfold on_kern. unfold bind at 1.
  destruct (wp_run _ _ _ (irq_enter_spec _ (kern s) (abst a) (proj1 (proj1 K)) I)) as ([] & k1 & -> & R1). simpl.
  unfold bind at 1. rewrite (handlers_stop hs k1 (upd_irq true (abst a)) (arests a)); [done| |done|done].
  split; [by eapply kernel_ok_irq|done|done].
Qed.

Lemma event_stops e s a : sys_ok s a → legal_event e a = true → spec_event e a = None → run_event e s = Undef AssertFail.
Proof.
  intros S HL E. pose proof S as [K Er C I].
  assert (∀ {B} (f : Z → M sys B), (t <-- on_kern sched_self ;; f t) s = f (running (abst a)) s) as Hself.
  { intros B f. destruct (wp_run _ _ _ (self_spec s a (λ t s', t = running (abst a) ∧ s' = s) S ltac:(done))) as (t & s' & Es & -> & ->).
    unfold bind at 1. by rewrite Es. }
  unfold run_event. rewrite Hself. unfold legal_event in HL.
  destruct e; try (destruct (arests a !! running (abst a)) eqn:En;
    first [by rewrite E in HL | by simpl in HL; rewrite ?En in *; rewrite E in HL | idtac]).
  - simpl in E. rewrite En in E. destruct (Z.ltb_spec (lock_of (abst a) (running (abst a))) MAX_LOCK_COUNT); [done|].
    unfold bind, on_kern. by rewrite (sched_lock_full _ _ K I).
  - simpl in E. rewrite En in E. apply bool_decide_eq_true in HL.
    assert (SEM_VALUE_MAX ≤ count_of (abst a) sem) as Hc.
    { apply Z.nlt_ge. intros Hlt. assert (postable sem (abst a) = true) as Hp by (by apply postable_iff). by rewrite Hp in E. }
    unfold bind, on_kern. by rewrite (sem_post_full _ _ _ K HL Hc).
  - by eapply interrupt_stops.
  - by eapply interrupt_stops.
Qed.

(** A run of legal events goes on, or stops on an assertion. *)
Lemma events_legal es s a : sys_ok s a → legal_events es a = true →
  match run_events es s with
  | Ok (rs, s') => ∃ a', spec_events es a = Some (rs, a') ∧ sys_ok s' a'
  | Undef u => u = AssertFail ∧ spec_events es a = None
  end.
Proof.
  revert s a. induction es as [|e es IH]; intros s a S HL; simpl; [eauto|].
  simpl in HL. apply andb_true_iff in HL as [H1 H2]. unfold bind at 1.
  destruct (spec_event e a) as [[r a1]|] eqn:E.
  - destruct (wp_run _ _ _ (event_implements e s a r a1 S E)) as (r' & s1 & -> & -> & S1). simpl.
    specialize (IH s1 a1 S1 H2). unfold bind. destruct (run_events es s1) as [[rs s2]|u]; simpl.
    + destruct IH as (a2 & -> & S2). simpl. eauto.
    + destruct IH as [-> ->]. done.
  - by rewrite (event_stops e s a S H1 E).
Qed.

End Spec.

(** ** What all events keep

    A relation that holds across the changes of lists, of counts and of task
    fields other than the context holds across every run. *)

Class Kept (R : relation abs) : Prop := mkkept {
  kept_preorder :: PreOrder R;
  kept_put : ∀ A l q, R A (put l q A);
  kept_change : ∀ A t f, (∀ a, ctx (f a) = ctx a) → R A (change t f A);
  kept_count : ∀ A s v, R A (set_count s v A);
  kept_irq : ∀ A v, R A (upd_irq v A);
  kept_irqerr : ∀ A v, R A (upd_irqerr v A)
}.

(** The context of every task, and so the tasks, are the same. *)
Definition ctx_kept (A B : abs) : Prop := ∀ t, ctx <$> task_of B !! t = ctx <$> task_of A !! t.

#[export] Instance ctx_kept_kept : Kept ctx_kept.
Proof.
  split; try done.
  - split; [by intros A|]. intros A B C H1 H2 t. by rewrite H2, H1.
  - intros A t f H u. rewrite lookup_change. destruct (decide (u = t)); [|done].
    destruct (task_of A !! u); [|done]. simpl. by rewrite H.
Qed.

(** So are the semaphores. *)
Definition sems_kept (A B : abs) : Prop := ∀ x, is_Some (count A !! x) → is_Some (count B !! x).

#[export] Instance sems_kept_kept : Kept sems_kept.
Proof.
  unfold sems_kept. split; try done.
  - split; [by intros A x|]. intros A B C H1 H2 x H. auto.
  - intros A s v x H. simpl. destruct (decide (s = x)) as [->|N]; [by rewrite lookup_insert_eq|].
    by rewrite lookup_insert_ne.
Qed.

Section Kept.
Context (R : relation abs) `{!Kept R}.

Ltac keep := etrans; [|first [apply kept_put | by apply kept_change | apply kept_count]].

Lemma kept_make_ready A t : R A (make_ready t A).
Proof. unfold make_ready, enter. destruct (delayed t A); apply kept_put. Qed.

Lemma kept_merge A : R A (merge A).
Proof. unfold merge. keep. apply kept_put. Qed.

Lemma kept_reprio_ready A t p : R A (reprio_ready t p A).
Proof. unfold reprio_ready, leave. etrans; [|apply kept_make_ready]. keep. apply kept_put. Qed.

Lemma kept_reprio A t p : R A (reprio t p A).
Proof. unfold reprio. case_bool_decide; [|etrans; [|apply kept_merge]]; apply kept_reprio_ready. Qed.

Lemma kept_requeue A t p l : R A (requeue t p l A).
Proof. unfold requeue, enter, leave. keep. keep. apply kept_put. Qed.

Lemma kept_setprio A t p : R A (setprio t p A).
Proof.
  unfold setprio. repeat case_match;
    first [done | apply kept_reprio | apply kept_reprio_ready | apply kept_requeue | by apply kept_change].
Qed.

Lemma kept_lock A : R A (lock_call A).
Proof. unfold lock_call. destruct (irq A); [done|by apply kept_change]. Qed.

Lemma kept_unlock A : R A (unlock_call A).
Proof.
  unfold unlock_call. destruct (irq A); [done|]. simpl.
  destruct (_ =? 0); [etrans; [|apply kept_merge]|]; by apply kept_change.
Qed.

Lemma kept_slice_tick A : R A (slice_tick A).
Proof.
  unfold slice_tick. repeat case_match; try done; try by apply kept_change.
  etrans; [|apply kept_reprio]. by apply kept_change.
Qed.

Lemma kept_set_err A e : R A (set_err e A).
Proof. unfold set_err. destruct (irq A); [apply kept_irqerr|by apply kept_change]. Qed.

Lemma kept_unblock A t l : R A (unblock t l A).
Proof. unfold unblock, leave. etrans; [|apply kept_make_ready]. keep. apply kept_put. Qed.

Lemma kept_take A s : R A (take_sem s A).
Proof. unfold take_sem. keep. apply kept_count. Qed.

Lemma kept_wait A s : R A (wait s A).
Proof.
  unfold wait, block, enter_blocked, enter, leave. simpl. etrans; [|apply kept_merge].
  do 4 keep. apply kept_count.
Qed.

Lemma kept_post A s : R A (sem_post_call s A).
Proof.
  unfold sem_post_call. destruct (_ <? 0); [|apply kept_count]. destruct (waiters s A); [apply kept_count|].
  unfold wake. etrans; [|apply kept_unblock]. keep. apply kept_count.
Qed.

Lemma kept_cancel A t e : R A (sem_cancel_call t e A).
Proof. unfold sem_cancel_call. etrans; [|apply kept_unblock]. do 2 keep. apply kept_count. Qed.

Lemma kept_handlers hs A B : spec_handlers hs A = Some B → R A B.
Proof.
  revert A. induction hs as [|h hs IH]; intros A E; simpl in E; [by injection E as <-|].
  apply bind_Some in E as (A1 & E1 & E2). etrans; [|by apply IH]. destruct h as [sem|t e|]; simpl in E1.
  - destruct (postable sem A); [|done]. injection E1 as <-. apply kept_post.
  - destruct (_ && _); [|done]. injection E1 as <-. case_bool_decide; [apply kept_cancel|done].
  - injection E1 as <-. apply kept_slice_tick.
Qed.

Lemma kept_event idle e a r a' : spec_event idle e a = Some (r, a') → R (abst a) (abst a').
Proof.
  intros E. destruct e as [| | |u p|s|s|s| |hs]; simpl in E;
    try match type of E with context [arests a !! ?t] => destruct (arests a !! t) as [[]|]; try done end.
  - destruct (_ <? _); [|done]. injection E as <- <-. apply kept_lock.
  - case_bool_decide; injection E as <- <-; apply kept_unlock.
  - case_bool_decide; [done|]. injection E as <- <-. apply kept_setprio.
  - destruct (valid_prio p); [|injection E as <- <-; apply kept_set_err].
    case_bool_decide; [|done]. injection E as <- <-. apply kept_setprio.
  - case_bool_decide; [|done]. unfold sem_wait_call in E. destruct (_ <? _); injection E as <- <-; simpl;
      (etrans; [apply kept_set_err|]); [apply kept_take|apply kept_wait].
  - case_bool_decide; [|done]. injection E as <- <-. unfold sem_trywait_call.
    destruct (_ <? _); simpl; [etrans; [|apply kept_take]|]; etrans; apply kept_set_err.
  - destruct (postable s (abst a)); [|done]. injection E as <- <-. apply kept_post.
  - by injection E as <- <-.
  - by injection E as <- <-.
  - apply bind_Some in E as (B & EB & E). injection E as <- <-. simpl.
    etrans; [|apply kept_irq]. etrans; [apply (kept_irq _ true)|]. by eapply kept_handlers.
Qed.

Lemma kept_events idle es a rs a' : spec_events idle es a = Some (rs, a') → R (abst a) (abst a').
Proof.
  revert a rs. induction es as [|e es IH]; intros a rs E; simpl in E; [by injection E as <- <-|].
  apply bind_Some in E as ([r a1] & E1 & E). apply bind_Some in E as ([rs1 a2] & E2 & E).
  injection E as <- <-. etrans; [by eapply kept_event|by eapply IH].
Qed.

End Kept.
End Kernel.
