(* ===== verification/Runs.v ===== *)
(** * Runs of tasks and interrupts

    What holds of every run of the events of Kernel.v: the counts of the
    semaphores are accounted for, the running task has the highest priority,
    a preemption lock keeps the processor, a context is only ever loaded for
    its own task, and round-robin tasks take turns. *)

From stdpp Require Import functions.
From S2P Require Import Prelude Queue Sched SchedRep SchedSpec Sem Kernel.

Module Runs.
Export Kernel.
#[local] Open Scope cmd_scope.

(** ** The account of a semaphore *)

(** The waits for [s] that have not been ended by a signal or a timeout: the
    caller is in the list, or a post has woken it. *)
Definition in_wait (s : Z) (A : abs) (p : Z * rest) : Prop := snd p = InWait s ∧ cancelled A (fst p) = false.
#[export] Instance in_wait_dec s A p : Decision (in_wait s A p).
Proof. unfold in_wait. apply _. Defined.

Definition granted (s : Z) (A : abs) (rs : gmap Z rest) : Z :=
  Z.of_nat (size (filter (in_wait s A) rs)).

(** The running task, and what is left of its call. *)
Definition current (s : sys) : Z := head (lists (kern s) g_readytorun).
Definition current_rest (s : sys) : option rest := rests s !! current s.

(** The counts taken by calls that returned [OK], and given by posts. *)
Definition taken (x : Z) (o : option rest) (e : event) (r : option Z) : Z :=
  match e with
  | Wait s | TryWait s => if bool_decide (s = x ∧ r = Some OK) then 1 else 0
  | Resume => if bool_decide (o = Some (InWait x) ∧ r = Some OK) then 1 else 0
  | _ => 0
  end.

Definition handler_posts (s : Z) (h : handler) : Z :=
  match h with HPost s' => if bool_decide (s' = s) then 1 else 0 | _ => 0 end.
Definition posted (s : Z) (e : event) : Z :=
  match e with
  | Post s' => if bool_decide (s' = s) then 1 else 0
  | Interrupt hs => foldr Z.add 0 (handler_posts s <$> hs)
  | _ => 0
  end.

Fixpoint takes (x : Z) (es : list event) (s : sys) : Z :=
  match es with
  | [] => 0
  | e :: es =>
      match run_event e s with
      | Ok (r, s1) => taken x (current_rest s) e r + takes x es s1
      | _ => 0
      end
  end.
Definition posts (s : Z) (es : list event) : Z := foldr Z.add 0 (posted s <$> es).

Lemma granted_ext s A B rs :
  (∀ t, is_Some (rs !! t) → cancelled B t = cancelled A t) → granted s B rs = granted s A rs.
Proof.
  intros H. unfold granted. do 2 f_equal. apply map_filter_ext. intros t r E. unfold in_wait. simpl.
  by rewrite H by eauto.
Qed.

Lemma granted_insert s A rs t r :
  rs !! t = None →
  granted s A (<[t := r]> rs) = (if decide (in_wait s A (t, r)) then 1 else 0) + granted s A rs.
Proof.
  intros E. unfold granted. case_decide as H.
  - rewrite map_filter_insert_True, map_size_insert_None by (done || by apply map_lookup_filter_None; left). lia.
  - rewrite map_filter_insert_False, delete_id by done. done.
Qed.

Lemma granted_delete s A rs t r :
  rs !! t = Some r →
  granted s A rs = (if decide (in_wait s A (t, r)) then 1 else 0) + granted s A (delete t rs).
Proof.
  intros E. rewrite <- (insert_delete_id rs t r E) at 1. apply granted_insert. apply lookup_delete_eq.
Qed.

(** One wait is ended by a signal or a timeout. *)
Lemma granted_cancel s A B rs t s' :
  rs !! t = Some (InWait s') → cancelled A t = false → cancelled B t = true →
  (∀ u, u ≠ t → cancelled B u = cancelled A u) →
  granted s A rs = (if decide (s' = s) then 1 else 0) + granted s B rs.
Proof.
  intros E HA HB H. rewrite (granted_delete s A rs t _ E), (granted_delete s B rs t _ E).
  rewrite (decide_False (P := in_wait s B _)) by (intros [_ H']; simpl in H'; congruence).
  rewrite (granted_ext s A B (delete t rs)).
  - rewrite Z.add_0_l. f_equal. repeat case_decide; unfold in_wait in *; simpl in *; naive_solver.
  - intros u [r Er]. apply H. intros ->. by rewrite lookup_delete_eq in Er.
Qed.

(** *** The balance of an event *)

Definition acc (s : Z) (a : asys) : Z := count_of (abst a) s + granted s (abst a) (arests a).

Lemma count_of_set A s s' v : count_of (set_count s' v A) s = if decide (s = s') then v else count_of A s.
Proof.
  unfold count_of. simpl. case_decide as E; [subst; by rewrite lookup_insert_eq|by rewrite lookup_insert_ne].
Qed.

Lemma count_of_eq A B s : count B = count A → count_of B s = count_of A s.
Proof. unfold count_of. by intros ->. Qed.

Lemma err_of_change A t f u :
  (∀ a, err (f a) = err a) → err_of (change t f A) u = err_of A u.
Proof.
  intros H. unfold err_of. rewrite lookup_change. destruct (decide (u = t)); [|done].
  destruct (task_of A !! u); [|done]. simpl. by rewrite H.
Qed.

Lemma cancelled_eq A B t : err_of B t = err_of A t → cancelled B t = cancelled A t.
Proof. unfold cancelled. by intros ->. Qed.

Lemma err_of_same A B t : sem_same err A B → err_of B t = err_of A t.
Proof. intros [_ H _]. unfold err_of. by rewrite H. Qed.

Lemma err_of_set_err A e u : u ≠ running A → err_of (set_err e A) u = err_of A u.
Proof. intros N. unfold err_of. by rewrite view_set_err. Qed.

Lemma err_of_unblock A t l u : err_of (unblock t l A) u = err_of A u.
Proof.
  unfold unblock. rewrite (err_of_same _ _ u (same_make_ready err _ t)), err_of_change by done. done.
Qed.

(** Operations of the scheduler. *)
Lemma acc_same s A B rs : sem_same err A B → acc s (mkasys B rs) = acc s (mkasys A rs).
Proof.
  intros H. unfold acc. simpl. rewrite (count_of_eq A B) by apply H. f_equal. apply granted_ext.
  intros t _. apply cancelled_eq. by apply err_of_same.
Qed.

(** The running task's own error number, when no wait of it is pending. *)
Lemma acc_set_err s A rs e : rs !! running A = None → acc s (mkasys (set_err e A) rs) = acc s (mkasys A rs).
Proof.
  intros E. unfold acc. simpl. rewrite count_of_set_err. f_equal. apply granted_ext.
  intros t [r Er]. apply cancelled_eq, err_of_set_err. intros ->. by rewrite Er in E.
Qed.

Lemma acc_take s s' A rs :
  acc s (mkasys (take_sem s' A) rs) + (if decide (s' = s) then 1 else 0) = acc s (mkasys A rs).
Proof.
  unfold acc, take_sem. simpl. change (count_of (change ?t ?f ?X)) with (count_of X). rewrite count_of_set.
  rewrite (granted_ext s A _ rs).
  - repeat case_decide; subst; try done; lia.
  - intros t _. apply cancelled_eq. by rewrite err_of_change.
Qed.

Lemma acc_wait s s' A rs a :
  task_of A !! running A = Some a → rs !! running A = None →
  acc s (mkasys (wait s' A) (<[running A := InWait s']> rs)) = acc s (mkasys A rs).
Proof.
  intros Ea E. unfold acc. simpl.
  assert (count (wait s' A) = <[s' := count_of A s' - 1]> (count A)) as Ec by done.
  rewrite (count_of_eq (set_count s' (count_of A s' - 1) A)), count_of_set by done.
  rewrite granted_insert by done.
  rewrite (granted_ext s A (wait s' A)).
  2:{ intros t [r Er]. apply cancelled_eq. unfold err_of. rewrite task_of_wait; [done|]. congruence. }
  assert (cancelled (wait s' A) (running A) = false) as Hc.
  { unfold cancelled, err_of. by rewrite (task_of_wait_running s' A a). }
  repeat case_decide; unfold in_wait in *; simpl in *; subst; try lia; naive_solver.
Qed.

Lemma acc_post s s' A rs :
  acc s (mkasys (sem_post_call s' A) rs) = acc s (mkasys A rs) + (if decide (s' = s) then 1 else 0).
Proof.
  unfold acc. simpl.
  assert (∀ t, err_of (sem_post_call s' A) t = err_of A t) as He.
  { intros t. unfold sem_post_call. destruct (_ <? 0); [|done]. destruct (waiters s' A); [done|].
    unfold wake. by rewrite err_of_unblock, err_of_change. }
  assert (count (sem_post_call s' A) = <[s' := count_of A s' + 1]> (count A)) as Ec.
  { unfold sem_post_call. destruct (_ <? 0); [|done]. destruct (waiters s' A); [done|].
    unfold wake. by rewrite count_unblock. }
  rewrite (count_of_eq (set_count s' (count_of A s' + 1) A)), count_of_set by done.
  rewrite (granted_ext s A _ rs) by (intros t _; by apply cancelled_eq).
  repeat case_decide; subst; try done; lia.
Qed.

Lemma acc_cancel s A rs t a e :
  calls_ok A rs → t ∈ waiting A → task_of A !! t = Some a → e = EINTR ∨ e = ETIMEDOUT →
  acc s (mkasys (sem_cancel_call t e A) rs) = acc s (mkasys A rs).
Proof.
  intros C Ht Ea He. destruct (C t Ht) as (_ & Er & Hc). unfold acc. simpl.
  set (s' := wsem_of A t) in *. set (B := sem_cancel_call t e A).
  assert (count B = <[s' := count_of A s' + 1]> (count A)) as Ec.
  { unfold B, sem_cancel_call. by rewrite count_unblock. }
  rewrite (count_of_eq (set_count s' (count_of A s' + 1) A)), count_of_set by done.
  assert (∀ u, err_of B u = if decide (u = t) then e else err_of A u) as HB.
  { intros u. unfold B, sem_cancel_call. rewrite err_of_unblock. unfold err_of. rewrite lookup_change.
    destruct (decide (u = t)) as [->|N]; rewrite lookup_change.
    - rewrite decide_True by done. unfold set_count. simpl. by rewrite Ea.
    - by rewrite decide_False. }
  rewrite (granted_cancel s A B rs t s' Er Hc).
  - repeat case_decide; subst; try done; lia.
  - unfold cancelled. rewrite HB, decide_True by done. by apply bool_decide_true.
  - intros u N. apply cancelled_eq. by rewrite HB, decide_False.
Qed.

Section Runs.
Context (idle : Z).

Lemma acc_handlers s hs k A B rs :
  irq_ok idle k A rs → spec_handlers hs A = Some B →
  acc s (mkasys B rs) = acc s (mkasys A rs) + posted s (Interrupt hs).
Proof.
  revert k A. induction hs as [|h hs IH]; intros k A HI E; simpl in E.
  { injection E as <-. simpl. lia. }
  apply bind_Some in E as (A1 & E1 & E2).
  destruct (wp_run _ _ _ (handler_spec idle h k A A1 rs HI E1)) as ([] & k1 & _ & HI1).
  rewrite (IH k1 A1 HI1 E2). unfold posted. rewrite fmap_cons. cbn [foldr].
  assert (acc s (mkasys A1 rs) = acc s (mkasys A rs) + handler_posts s h) as ->; [|lia].
  clear IH E2 HI1. destruct HI as [K C _]. destruct h as [s'|t e|]; simpl in E1 |- *.
  - destruct (postable s' A); [|done]. injection E1 as <-. rewrite acc_post.
    case_bool_decide; case_decide; done || lia.
  - destruct (bool_decide (is_Some _)) eqn:Ht; [|done]. apply bool_decide_eq_true in Ht as [a Ea].
    destruct (bool_decide (e = EINTR ∨ _)) eqn:He; [|done]. apply bool_decide_eq_true in He.
    injection E1 as <-. case_bool_decide; [|lia]. rewrite (acc_cancel s A rs t a e) by done. lia.
  - injection E1 as <-. rewrite (acc_same s A) by apply (same_slice_tick err). lia.
Qed.

(** A task that is not in a wait. *)
Lemma acc_rest s A rs t : rs !! t = None → acc s (mkasys A (<[t := InUnlock]> rs)) = acc s (mkasys A rs).
Proof.
  intros E. unfold acc. simpl. rewrite granted_insert by done. rewrite decide_False by (intros [? _]; done). lia.
Qed.

Lemma acc_resume s A rs t r :
  rs !! t = Some r →
  acc s (mkasys A (delete t rs)) + (if decide (in_wait s A (t, r)) then 1 else 0) = acc s (mkasys A rs).
Proof. intros E. unfold acc. simpl. rewrite (granted_delete s A rs t r) by done. lia. Qed.

Lemma event_balance x e s a r a' :
  sys_ok idle s a → spec_event idle e a = Some (r, a') →
  acc x a' + taken x (arests a !! running (abst a)) e r = acc x a + posted x e.
Proof.
  intros S E. pose proof S as [K _ C I]. pose proof (sys_nodup idle s a S) as Hn.
  destruct (good_running idle (kern s) (abst a) (proj1 K)) as (b & _ & Eb & _).
  destruct a as [A rs]. cbn [abst arests] in *.
  destruct e as [| | |u p|s'|s'|s'| |hs]; simpl in E |- *;
    try match type of E with context [rs !! ?t] => destruct (rs !! t) as [[sem|]|] eqn:Er; try done end.
  - destruct (_ <? _); [|done]. injection E as <- <-. rewrite (acc_same x A) by apply (same_lock err). lia.
  - case_bool_decide; injection E as <- <-; rewrite ?acc_rest, (acc_same x A) by (done || apply (same_unlock err)); lia.
  - case_bool_decide; [done|]. injection E as <- <-. rewrite (acc_same x A) by by apply (same_setprio err). lia.
  - destruct (valid_prio p); [|injection E as <- <-; rewrite acc_set_err by done; lia].
    case_bool_decide; [|done]. injection E as <- <-. rewrite (acc_same x A) by by apply (same_setprio err). lia.
  - case_bool_decide; [|done]. unfold sem_wait_call in E. destruct (_ <? _); injection E as <- <-; simpl.
    + pose proof (acc_take x s' (set_err EINVAL A) rs) as Ht. rewrite (acc_set_err x A rs EINVAL Er) in Ht.
      destruct (decide (s' = x)); [rewrite bool_decide_true by done|rewrite bool_decide_false by naive_solver]; lia.
    + rewrite <- (running_set_err A EINVAL) in *. rewrite bool_decide_false by naive_solver.
      destruct (set_err_ok idle _ A EINVAL K) as [k1 K1].
      destruct (good_running idle k1 _ (proj1 K1)) as (b' & _ & Eb' & _).
      rewrite (acc_wait x s' _ rs b') by done. rewrite acc_set_err; [lia|]. by rewrite running_set_err in Er.
  - case_bool_decide; [|done]. injection E as <- <-. unfold sem_trywait_call.
    assert (acc x (mkasys (set_err EAGAIN (set_err EINVAL A)) rs) = acc x (mkasys A rs)) as EA.
    { rewrite !acc_set_err; [done|done|by rewrite running_set_err]. }
    destruct (_ <? _); simpl; rewrite <- EA.
    + pose proof (acc_take x s' (set_err EAGAIN (set_err EINVAL A)) rs) as Ht.
      destruct (decide (s' = x)); [rewrite bool_decide_true by done|rewrite bool_decide_false by naive_solver]; lia.
    + rewrite bool_decide_false by (intros [_ ?]; done). lia.
  - destruct (postable s' A); [|done]. injection E as <- <-. rewrite acc_post.
    case_decide; case_bool_decide; done || lia.
  - injection E as <- <-. pose proof (acc_resume x A rs (running A) _ Er) as Ht.
    destruct (decide (in_wait x A (running A, InWait sem))) as [[Es Hc]|N]; simpl in *.
    + rewrite Hc, bool_decide_true by (split; [by rewrite Es|done]). lia.
    + rewrite bool_decide_false; [lia|]. intros [[= ->] Hr]. apply N. split; [done|]. simpl.
      by destruct (cancelled A (running A)).
  - injection E as <- <-. pose proof (acc_resume x A rs (running A) _ Er) as Ht.
    rewrite bool_decide_false by naive_solver. rewrite decide_False in Ht by (intros [? _]; done). lia.
  - apply bind_Some in E as (B & EB & E). injection E as <- <-.
    change (acc x (mkasys (upd_irq false B) rs)) with (acc x (mkasys B rs)).
    change (acc x (mkasys A rs)) with (acc x (mkasys (upd_irq true A) rs)).
    pose proof K as [[R Hwf] Hs].
    destruct (wp_run _ _ _ (irq_enter_spec _ _ _ R I)) as ([] & k1 & _ & R1).
    rewrite (acc_handlers x hs k1 (upd_irq true A) B rs); [simpl; lia| |done].
    split; [by eapply kernel_ok_irq|done|done].
Qed.

Lemma current_running s a : sys_ok idle s a → current s = running (abst a).
Proof. intros S. apply (rep_running (proj1 (proj1 (sk_kernel _ _ _ S)))). Qed.

Lemma run_balance x es s a rs a' :
  sys_ok idle s a → spec_events idle es a = Some (rs, a') →
  acc x a' + takes x es s = acc x a + posts x es.
Proof.
  revert s a rs. induction es as [|e es IH]; intros s a rs S E; simpl in E.
  { injection E as <- <-. unfold posts. simpl. lia. }
  apply bind_Some in E as ([r a1] & E1 & E). apply bind_Some in E as ([rs1 a2] & E2 & E).
  injection E as <- <-. destruct (wp_run _ _ _ (event_implements idle e s a r a1 S E1)) as (r' & s1 & Er & -> & S1).
  pose proof (event_balance x e s a r a1 S E1) as H1. pose proof (IH s1 a1 rs1 S1 E2) as H2.
  unfold posts in *. rewrite fmap_cons. simpl. rewrite Er. unfold current_rest.
  rewrite (current_running s a S), (sk_rests _ _ _ S). lia.
Qed.

(** Those in the list are among those in the call. *)
Lemma granted_waiters x A rs :
  calls_ok A rs → NoDup (waiting A) → Z.of_nat (length (waiters x A)) ≤ granted x A rs.
Proof.
  intros C Hn. unfold granted. rewrite <- (size_dom (D := gset Z)).
  rewrite <- (size_list_to_set (C := gset Z) (waiters x A)) by by apply NoDup_filter.
  apply inj_le, subseteq_size. intros t. rewrite elem_of_list_to_set. intros [Ew Ht]%list_elem_of_filter.
  destruct (C t Ht) as (_ & Er & Hc). apply elem_of_dom. exists (InWait x). apply map_lookup_filter_Some.
  rewrite Ew in Er. done.
Qed.

End Runs.

(** ** A system

    Two round-robin tasks of priority 100, the first of them running, the idle
    task and a semaphore with one count. *)

Definition idle_tcb : Z := 0x100.
Definition main_tcb : Z := 0x200.
Definition server_tcb : Z := 0x300.
Definition a_sem : Z := 0x900.

Definition boot_task (p c : Z) : task := mktask p TCB_FLAG_ROUND_ROBIN 0 RR_TICKS NULL 0 c.
Definition boot_tasks : gmap Z task :=
  {[ idle_tcb := boot_task 0 1; main_tcb := boot_task 100 2; server_tcb := boot_task 100 3 ]}.
Definition boot_abs : asys :=
  mkasys (mkabs (λ l, match l with g_readytorun => [main_tcb; server_tcb; idle_tcb] | _ => [] end)
            boot_tasks {[ a_sem := 1 ]} false 0) ∅.

Definition boot_sys : sys :=
  mksys
    (mkkernel
      {[ main_tcb := Dq.mklinks server_tcb NULL; server_tcb := Dq.mklinks idle_tcb main_tcb;
         idle_tcb := Dq.mklinks NULL server_tcb ]}
      {[ main_tcb := as_tcb TSTATE_TASK_RUNNING 0 (boot_task 100 2);
         server_tcb := as_tcb TSTATE_TASK_READYTORUN 3 (boot_task 100 3);
         idle_tcb := as_tcb TSTATE_TASK_READYTORUN 1 (boot_task 0 1) ]}
      (λ l, match l with g_readytorun => mkqueue main_tcb idle_tcb | _ => empty_queue end)
      {[ a_sem := 1 ]} 2 NULL 0)
    ∅.

Lemma boot_task_inv t a :
  boot_tasks !! t = Some a →
  t = idle_tcb ∧ a = boot_task 0 1 ∨ t = main_tcb ∧ a = boot_task 100 2 ∨ t = server_tcb ∧ a = boot_task 100 3.
Proof. unfold boot_tasks. rewrite !lookup_insert_Some, lookup_singleton_Some. naive_solver. Qed.

Lemma boot_rep : rep main_tcb (kern boot_sys) (abst boot_abs).
Proof.
  split; simpl; try done; [| |by left].
  - split.
    + intros [] [] t H1 H2; set_solver.
    + intros []; try apply Dq.dq_rep_empty. split; [by apply (bool_decide_unpack _)|].
      cbn [seg head tail]. repeat (split_and?; [done..|]; eexists _, _); by split_and!.
  - split; [by apply (bool_decide_unpack _)|].
    intros t a [[-> ->]|[[-> ->]|[-> ->]]]%boot_task_inv; (split; [done|]); by eexists.
Qed.

Lemma boot_sys_ok : sys_ok idle_tcb boot_sys boot_abs.
Proof.
  split; [|done|by intros t ?%elem_of_nil|done]. split; [split; [apply boot_rep|]|].
  - split; simpl; try done.
    + by exists [main_tcb; server_tcb].
    + intros [] _; try constructor; simpl; repeat constructor; done.
    + intros t a [[-> ->]|[[-> ->]|[-> ->]]]%boot_task_inv; simpl; done.
    + intros t a [[-> ->]|[[-> ->]|[-> ->]]]%boot_task_inv; simpl; done.
  - split; simpl.
    + intros x c [<- <-]%lookup_singleton_Some. done.
    + intros t a [[-> ->]|[[-> ->]|[-> ->]]]%boot_task_inv; simpl; done.
    + apply (bool_decide_unpack _). by vm_compute.
Qed.

(** ** Refinement *)

(** C7: Whatever the tasks and the interrupt handlers do, in any order that can
    happen: the scheduler and semaphore code runs to the end without a failed
    assertion, returns what the abstract events return, and leaves lists, TCBs,
    counts and contexts that represent the abstract state. *)
Theorem kernel_refinement idle es s a rs a' :
  sys_ok idle s a → spec_events idle es a = Some (rs, a') →
  ∃ s', run_events es s = Ok (rs, s') ∧ sys_ok idle s' a'.
Proof.
  intros S E. destruct (wp_run _ _ _ (events_implement idle es s a rs a' S E)) as (rs' & s' & Er & -> & S').
  eauto.
Qed.

(** The main task takes the semaphore, is preempted at the end of its time slice
    and the server waits; the main task posts and the server goes on. *)
Definition two_tasks : list event :=
  [Wait a_sem] ++ replicate 20 (Interrupt [HSlice]) ++ [Wait a_sem; Post a_sem]
    ++ replicate 20 (Interrupt [HSlice]) ++ [Resume; Post a_sem].

Definition two_tasks_results : list (option Z) :=
  [Some OK] ++ replicate 20 None ++ [None; Some OK] ++ replicate 20 None ++ [Some OK; Some OK].

(** The state after [es], where they can happen. *)
Definition after (es : list event) (a : asys) : asys :=
  match spec_events idle_tcb es a with Some (_, a') => a' | None => a end.

Lemma after_spec es a rs :
  fst <$> spec_events idle_tcb es a = Some rs → spec_events idle_tcb es a = Some (rs, after es a).
Proof. unfold after. destruct (spec_events idle_tcb es a) as [[rs' a']|]; simpl; congruence. Qed.

Lemma two_tasks_runs :
  spec_events idle_tcb two_tasks boot_abs = Some (two_tasks_results, after two_tasks boot_abs).
Proof. apply after_spec. vm_compute. reflexivity. Qed.

Lemma kernel_refinement_witness : ∃ s',
  run_events two_tasks boot_sys = Ok (two_tasks_results, s') ∧ sys_ok idle_tcb s' (after two_tasks boot_abs).
Proof. exact (kernel_refinement idle_tcb two_tasks boot_sys boot_abs _ _ boot_sys_ok two_tasks_runs). Defined.

(** ** Accounts *)

(** C8: A count of a semaphore is never lost and never made up: in every run the
    counts taken by calls that returned, the count that is left and the waits
    that are still to return add up to the initial count and the posts.  The
    tasks in the waiting list are as many as a negative count says, so calls
    never take more than there is: with an initial count of 1 and a post only
    after a wait, a semaphore is a mutual exclusion. *)
Theorem semaphore_accounting idle x n es s a rs a' :
  sys_ok idle s a → spec_events idle es a = Some (rs, a') →
  rests s = ∅ → sems (kern s) !! x = Some n →
  ∃ s' c, run_events es s = Ok (rs, s') ∧ sems (kern s') !! x = Some c
    ∧ takes x es s + c + granted x (abst a') (rests s') = n + posts x es
    ∧ length (waiters x (abst a')) = Z.to_nat (- c)
    ∧ takes x es s ≤ n + posts x es.
Proof.
  intros S E Hr Hn. destruct (wp_run _ _ _ (events_implement idle es s a rs a' S E)) as (rs' & s' & Er & -> & S').
  pose proof (run_balance idle x es s a rs a' S E) as B. unfold acc in B.
  pose proof (sk_rests _ _ _ S) as Ea. pose proof (sk_rests _ _ _ S') as Ea'. rewrite <- Ea, <- Ea' in B.
  destruct (sk_kernel _ _ _ S) as [[R _] _]. destruct (sk_kernel _ _ _ S') as [[R' _] [Hc _ _]].
  rewrite (rep_sems _ _ _ R) in Hn. unfold count_of in B. rewrite Hn, Hr in B.
  change (granted x (abst a) ∅) with 0 in B. simpl in B.
  assert (is_Some (count (abst a') !! x)) as [c Ec] by (eapply (kept_events sems_kept); eauto).
  destruct (Hc x c Ec) as (_ & _ & Hl). rewrite Ec in B. simpl in B.
  pose proof (granted_waiters x _ _ (sk_calls _ _ _ S') (sys_nodup _ _ _ S')) as Hg. rewrite <- Ea' in Hg.
  exists s', c. rewrite (rep_sems _ _ _ R'). split_and!; [done|done|lia|done|lia].
Qed.

Lemma semaphore_accounting_witness : ∃ s' c,
  sems (kern s') !! a_sem = Some c ∧ 2 + c + granted a_sem (abst (after two_tasks boot_abs)) (rests s') = 1 + 2.
Proof.
  destruct (semaphore_accounting idle_tcb a_sem 1 two_tasks boot_sys boot_abs _ _ boot_sys_ok two_tasks_runs
    eq_refl eq_refl) as (s' & c & _ & Ec & Ht & _).
  exists s', c. split; [exact Ec|].
  assert (takes a_sem two_tasks boot_sys = 2) as E by (vm_compute; reflexivity).
  rewrite E in Ht. exact Ht.
Defined.

(** ** The running task *)

(** One task is in the running state, the first of the ready list; no ready
    task has a higher priority, and a task is kept pending only by a lock that
    the running task holds. *)
Definition dispatch_ok (s : sys) : Prop := ∃ r,
  tcbs (kern s) !! current s = Some r ∧ task_state r = TSTATE_TASK_RUNNING ∧
  ∀ t x, tcbs (kern s) !! t = Some x →
    (task_state x = TSTATE_TASK_RUNNING → t = current s)
    ∧ (task_state x = TSTATE_TASK_READYTORUN → sched_priority x ≤ sched_priority r)
    ∧ (task_state x = TSTATE_TASK_PENDING → 0 < lockcount r).

Lemma state_of_list Q t :
  disjoint_lists Q →
  (state_of Q t = TSTATE_TASK_RUNNING → Q g_readytorun !! 0%nat = Some t)
  ∧ (state_of Q t = TSTATE_TASK_READYTORUN → t ∈ Q g_readytorun)
  ∧ (state_of Q t = TSTATE_TASK_PENDING → t ∈ Q g_pendingtasks).
Proof.
  intros Hd. unfold state_of, list_with. destruct (list_find _ _) as [[i l]|] eqn:E; [|done].
  apply list_find_Some in E as (_ & E & _). simpl. case_bool_decide; [done|]. by destruct l.
Qed.

Lemma dispatched idle s a : sys_ok idle s a → dispatch_ok s.
Proof.
  intros S. pose proof (sk_kernel _ _ _ S) as [[R Hwf] _]. set (A := abst a) in *.
  destruct (good_running idle (kern s) A (conj R Hwf)) as (r & x & Er & Hn & Ex).
  exists (as_tcb TSTATE_TASK_RUNNING x r). rewrite (current_running idle s a S). split; [done|]. split; [done|].
  intros t y Ey. assert (is_Some (task_of A !! t)) as [b Eb].
  { apply elem_of_dom. rewrite <- (proj1 (rep_tasks _ _ _ R)). apply elem_of_dom. eauto. }
  destruct (rep_task R t b Eb) as (_ & z & Ez & _). rewrite Ez in Ey. injection Ey as <-.
  cbn [task_state sched_priority lockcount as_tcb].
  destruct (state_of_list (queued A) t (rep_disjoint R)) as (H1 & H2 & H3). split_and!.
  - intros E. fold A. unfold running, ready. by rewrite (H1 E).
  - intros Ht%H2. destruct (wf0_running idle A (wf_wf0 _ _ Hwf)) as (q & Eq & _).
    pose proof (wf_ordered _ _ Hwf g_readytorun eq_refl) as Ho. change (queued A g_readytorun) with (ready A) in *.
    rewrite Eq in Ho, Ht. apply elem_of_cons in Ht as [->|Ht].
    + fold A in Eb. rewrite Er in Eb. by injection Eb as ->.
    + apply StronglySorted_inv in Ho as [_ Ho]. rewrite Forall_forall in Ho. specialize (Ho t Ht).
      by rewrite (prio_of_task A t b), (prio_of_task A _ r) in Ho by done.
  - intros Ht%H3. pose proof (wf_lock _ _ Hwf _ r Er) as Hl. pose proof (wf_pending _ _ Hwf) as Hp.
    unfold lock_of in Hp. fold A in Er. rewrite Er in Hp. simpl in Hp.
    destruct (decide (lock r = 0)) as [E|]; [|lia]. unfold pending in Hp. rewrite (Hp E) in Ht. set_solver.
Qed.

(** C11: Strict priority scheduling: at the end of every run the processor is
    with a task of the highest priority, unless a preemption lock holds back
    the tasks that are pending. *)
Theorem running_is_highest idle es s a rs a' :
  sys_ok idle s a → spec_events idle es a = Some (rs, a') →
  ∃ s', run_events es s = Ok (rs, s') ∧ dispatch_ok s'.
Proof.
  intros S E. destruct (wp_run _ _ _ (events_implement idle es s a rs a' S E)) as (rs' & s' & Er & -> & S').
  exists s'. split; [done|by eapply dispatched].
Qed.

Lemma running_is_highest_witness : ∃ s', run_events two_tasks boot_sys = Ok (two_tasks_results, s') ∧ dispatch_ok s'.
Proof. exact (running_is_highest idle_tcb two_tasks boot_sys boot_abs _ _ boot_sys_ok two_tasks_runs). Defined.

(** ** Contexts *)

(** The register context of [t]: in the registers, or saved. *)
Definition context_of (s : sys) (t : Z) : option Z :=
  if bool_decide (t = current s) then Some (regs (kern s)) else xcp <$> tcbs (kern s) !! t.

Lemma context_of_ctx idle s a t : sys_ok idle s a → context_of s t = ctx <$> task_of (abst a) !! t.
Proof.
  intros S. pose proof (sk_kernel _ _ _ S) as [[R Hwf] _]. pose proof (sk_irq _ _ _ S) as HI.
  set (A := abst a) in *. destruct (good_running idle (kern s) A (conj R Hwf)) as (r & _ & Er & Hn & _).
  rewrite (rep_irq _ _ _ R), negb_false_iff, Z.eqb_eq in HI.
  unfold context_of. rewrite (current_running idle s a S). fold A.
  destruct (task_of A !! t) as [b|] eqn:Eb.
  - destruct (rep_task R t b Eb) as (_ & z & Ez & Hc). unfold context_ok in Hc. rewrite HI in Hc.
    destruct (decide (t = running A)) as [->|N].
    + rewrite bool_decide_true in Hc by naive_solver. rewrite bool_decide_true by done. simpl. congruence.
    + rewrite bool_decide_false in Hc by naive_solver. rewrite bool_decide_false by done.
      rewrite Ez. simpl. congruence.
  - rewrite bool_decide_false by (intros ->; congruence).
    assert (t ∉ dom (tcbs (kern s))) as Ht.
    { rewrite (proj1 (rep_tasks _ _ _ R)). by apply not_elem_of_dom. }
    apply not_elem_of_dom in Ht. by rewrite Ht.
Qed.

(** C12: Context switches never mix tasks up: whatever sequence of blocking,
    waking, yielding, time slicing and switching from interrupts a run makes,
    every task's register context is at its end what it was, loaded for the
    running task and in the save area of every other. *)
Theorem contexts_isolated idle es s a rs a' :
  sys_ok idle s a → spec_events idle es a = Some (rs, a') →
  ∃ s', run_events es s = Ok (rs, s') ∧ ∀ t, context_of s' t = context_of s t.
Proof.
  intros S E. destruct (wp_run _ _ _ (events_implement idle es s a rs a' S E)) as (rs' & s' & Er & -> & S').
  exists s'. split; [done|]. intros t. rewrite (context_of_ctx idle s' a'), (context_of_ctx idle s a) by done.
  by apply (kept_events ctx_kept idle es a rs a').
Qed.

Lemma contexts_isolated_witness : ∃ s',
  run_events two_tasks boot_sys = Ok (two_tasks_results, s') ∧ ∀ t, context_of s' t = context_of boot_sys t.
Proof. exact (contexts_isolated idle_tcb two_tasks boot_sys boot_abs _ _ boot_sys_ok two_tasks_runs). Defined.

(** ** The preemption lock *)

(** Calls that do not give the processor away by themselves, with the lock held
    throughout: [n] is the lock count. *)
Fixpoint stays_locked (n : Z) (es : list event) : bool :=
  match es with
  | [] => true
  | Lock :: es => stays_locked (n + 1) es
  | Unlock :: es => (1 <? n) && stays_locked (n - 1) es
  | Post _ :: es | TryWait _ :: es | Interrupt _ :: es => stays_locked n es
  | _ => false
  end.

(** [t] runs with lock count [n]. *)
Definition holds_lock (t n : Z) (A : abs) : Prop := running A = t ∧ lock_of A t = n.

Lemma holds_change t n A u f : (∀ a, lock (f a) = lock a) → holds_lock t n A → holds_lock t n (change u f A).
Proof. intros H [E L]. split; [done|]. by rewrite lock_of_change. Qed.

Lemma holds_set_err t n A e : holds_lock t n A → holds_lock t n (set_err e A).
Proof. intros H. unfold set_err. destruct (irq A); [done|by apply holds_change]. Qed.

Lemma holds_unblock t n A u l :
  holds_lock t n A → 0 < n → ready A ≠ [] → ¬ (u ∈ ready A) → l ≠ g_readytorun → holds_lock t n (unblock u l A).
Proof.
  intros [E L] Hn Hr Hu Hl. unfold unblock.
  set (B := change u (with_slice RR_TICKS) (leave u l A)).
  assert (ready B = ready A) as EB by (unfold B, ready, leave; simpl; by list_simpl).
  assert (running B = t) as Et by (unfold running; by rewrite EB).
  assert (lock_of B t = n) as Lt by (unfold B; by rewrite lock_of_change).
  destruct (make_ready_running B u) as [(E' & _)|(_ & _ & E' & _)]; [by rewrite EB..| |].
  - split; [congruence|by rewrite lock_of_make_ready].
  - rewrite Et in E'. lia.
Qed.

Lemma ready_waiting k A idle u : good idle k A → u ∈ waiting A → ¬ (u ∈ ready A).
Proof.
  intros [R _] Hw Hr. assert (g_readytorun = g_waitingforsemaphore); [|done]. by apply (rep_disjoint R _ _ u).
Qed.

Section Locked.
Context (idle t n : Z) (Hn : 0 < n).

Lemma holds_post k A s : kernel_ok idle k A → holds_lock t n A → holds_lock t n (sem_post_call s A).
Proof.
  intros [G _] H. unfold sem_post_call. destruct (_ <? 0); [|done]. destruct (waiters s A) as [|u q] eqn:E; [done|].
  assert (u ∈ waiters s A) as [_ Hu]%list_elem_of_filter by (rewrite E; set_solver).
  apply holds_unblock; [by apply holds_change|done|exact (wf0_ready idle A (wf_wf0 _ _ (proj2 G)))| |done].
  by apply (ready_waiting k A idle).
Qed.

Lemma holds_cancel k A u e :
  kernel_ok idle k A → u ∈ waiting A → holds_lock t n A → holds_lock t n (sem_cancel_call u e A).
Proof.
  intros [G _] Hu H. unfold sem_cancel_call.
  apply holds_unblock; [by do 2 (apply holds_change; [done|])|done|exact (wf0_ready idle A (wf_wf0 _ _ (proj2 G)))| |done].
  by apply (ready_waiting k A idle).
Qed.

Lemma holds_slice_tick A : holds_lock t n A → holds_lock t n (slice_tick A).
Proof.
  intros H. pose proof H as [E L]. unfold slice_tick. rewrite E. unfold lock_of in L.
  destruct (task_of A !! t) as [a|]; [|done]. simpl in L. destruct (_ =? 0); [done|].
  rewrite (proj2 (Z.eqb_neq (lock a) 0)) by lia. destruct (_ <=? 1); [done|by apply holds_change].
Qed.

Lemma holds_handlers hs k A B rs :
  irq_ok idle k A rs → spec_handlers hs A = Some B → holds_lock t n A → holds_lock t n B.
Proof.
  revert k A. induction hs as [|h hs IH]; intros k A HI E H; simpl in E; [by injection E as <-|].
  apply bind_Some in E as (A1 & E1 & E2).
  destruct (wp_run _ _ _ (handler_spec idle h k A A1 rs HI E1)) as ([] & k1 & _ & HI1).
  apply (IH k1 A1 HI1 E2). destruct HI as [K _ _]. destruct h as [x|u e|]; simpl in E1.
  - destruct (postable x A); [|done]. injection E1 as <-. by eapply holds_post.
  - destruct (_ && _); [|done]. injection E1 as <-. case_bool_decide; [by eapply holds_cancel|done].
  - injection E1 as <-. by apply holds_slice_tick.
Qed.

Lemma holds_interrupt hs s a r a' :
  sys_ok idle s a → spec_event idle (Interrupt hs) a = Some (r, a') →
  holds_lock t n (abst a) → holds_lock t n (abst a').
Proof.
  intros S E H. pose proof S as [K _ C I]. simpl in E. apply bind_Some in E as (B & EB & E). injection E as <- <-.
  destruct (wp_run _ _ _ (irq_enter_spec _ _ _ (proj1 (proj1 K)) I)) as ([] & k1 & _ & R1).
  apply (holds_handlers hs k1 (upd_irq true (abst a)) B (arests a)); [|done|done].
  split; [by eapply kernel_ok_irq|done|done].
Qed.

Lemma holds_trywait A s : holds_lock t n A → holds_lock t n (snd (sem_trywait_call s A)).
Proof.
  intros H. unfold sem_trywait_call.
  destruct (_ <? _); simpl; [apply holds_change; [done|]|]; by do 2 apply holds_set_err.
Qed.

End Locked.

Lemma holds_lock_call t n A : irq A = false → is_Some (task_of A !! t) → holds_lock t n A → holds_lock t (n + 1) (lock_call A).
Proof.
  intros I [a Ea] [E L]. unfold lock_call. rewrite I, E. split; [done|]. unfold lock_of in *.
  rewrite lookup_change, decide_True by done. rewrite Ea in *. simpl in *. lia.
Qed.

Lemma holds_unlock_call t n A :
  irq A = false → is_Some (task_of A !! t) → 1 < n → holds_lock t n A → holds_lock t (n - 1) (unlock_call A).
Proof.
  intros I [a Ea] Hn [E L].
  assert (lock_of (change t release A) t = n - 1) as HL.
  { unfold lock_of in *. rewrite lookup_change, decide_True by done. rewrite Ea in *. simpl in *.
    rewrite (proj2 (Z.eqb_neq _ _)) by lia. lia. }
  unfold unlock_call. rewrite I, E, HL. simpl. rewrite (proj2 (Z.eqb_neq _ _)) by lia. done.
Qed.

Lemma lock_run idle t es n s a rs a' :
  sys_ok idle s a → spec_events idle es a = Some (rs, a') → 0 < n → stays_locked n es = true →
  holds_lock t n (abst a) → running (abst a') = t.
Proof.
  revert n s a rs. induction es as [|e es IH]; intros n s a rs S E Hn Hs H; simpl in E.
  { injection E as <- <-. apply H. }
  apply bind_Some in E as ([r a1] & E1 & E). apply bind_Some in E as ([rs1 a2] & E2 & E).
  injection E as <- <-. destruct (wp_run _ _ _ (event_implements idle e s a r a1 S E1)) as (r' & s1 & _ & _ & S1).
  pose proof S as [K _ _ I]. destruct (good_running idle _ _ (proj1 K)) as (b & _ & Eb & _).
  pose proof H as [Er _]. rewrite Er in Eb.
  assert (∃ n1, 0 < n1 ∧ stays_locked n1 es = true ∧ holds_lock t n1 (abst a1)) as (n1 & ? & ? & ?);
    [|by eapply (IH n1)].
  destruct e as [| | |u p|x|x|x| |hs]; simpl in Hs; try done;
    try (simpl in E1; match type of E1 with context [arests a !! ?t] => destruct (arests a !! t); [done|] end).
  - destruct (_ <? _); [|done]. injection E1 as <- <-. exists (n + 1). split_and!; [lia|done|].
    apply holds_lock_call; [done|eauto|done].
  - apply andb_true_iff in Hs as [Hlt%Z.ltb_lt Hs]. exists (n - 1). split_and!; [lia|done|].
    assert (holds_lock t (n - 1) (unlock_call (abst a))) by (apply holds_unlock_call; [done|eauto|done|done]).
    case_bool_decide; by injection E1 as <- <-.
  - case_bool_decide; [|done]. injection E1 as <- <-. exists n. split_and!; [done|done|by apply holds_trywait].
  - destruct (postable x (abst a)); [|done]. injection E1 as <- <-. exists n.
    split_and!; [done|done|by eapply holds_post].
  - exists n. split_and!; [done|done|by apply (holds_interrupt idle t n Hn hs s a r a1)].
Qed.

(** C13: While a task holds the preemption lock, nothing takes the processor from
    it: not the semaphores it posts, not the ones that interrupt handlers post,
    not the end of its time slice, whatever the priorities; nested locks need
    as many unlocks. *)
Theorem lock_keeps_processor idle es s a rs a' c :
  sys_ok idle s a → spec_events idle es a = Some (rs, a') →
  tcbs (kern s) !! current s = Some c → 0 < lockcount c → stays_locked (lockcount c) es = true →
  ∃ s', run_events es s = Ok (rs, s') ∧ current s' = current s.
Proof.
  intros S E Ec Hc Hs. destruct (wp_run _ _ _ (events_implement idle es s a rs a' S E)) as (rs' & s' & Er & -> & S').
  exists s'. split; [done|]. rewrite (current_running idle s' a' S').
  apply (lock_run idle _ es (lockcount c) s a rs a' S E Hc Hs). rewrite (current_running idle s a S) in *.
  destruct (good_running idle _ _ (proj1 (sk_kernel _ _ _ S))) as (b & x & Eb & _ & Ex).
  rewrite Ex in Ec. injection Ec as <-. split; [done|]. unfold lock_of. by rewrite Eb.
Qed.

(** The system after [es]. *)
Definition run_sys (es : list event) (s : sys) : sys :=
  match run_events es s with Ok (_, s') => s' | _ => s end.

Lemma run_sys_ok es s a rs :
  sys_ok idle_tcb s a → fst <$> spec_events idle_tcb es a = Some rs →
  sys_ok idle_tcb (run_sys es s) (after es a).
Proof.
  intros S E%after_spec. destruct (wp_run _ _ _ (events_implement idle_tcb es s a _ _ S E)) as (rs' & s' & Er & _ & S').
  unfold run_sys. by rewrite Er.
Qed.

(** The server waits with a higher priority; the main task has the count and
    locks preemption. *)
Definition to_locked : list event :=
  [Wait a_sem; Yield; Wait a_sem; SetPriority server_tcb 200; Lock].

Lemma lock_keeps_processor_witness : ∃ s',
  run_events [Post a_sem; Interrupt [HSlice; HPost a_sem]; Lock; Unlock] (run_sys to_locked boot_sys)
    = Ok ([Some OK; None; Some OK; Some OK], s')
  ∧ current s' = main_tcb.
Proof.
  set (es := [Post a_sem; Interrupt [HSlice; HPost a_sem]; Lock; Unlock]).
  assert (sys_ok idle_tcb (run_sys to_locked boot_sys) (after to_locked boot_abs)) as S.
  { eapply run_sys_ok; [exact boot_sys_ok|vm_compute; reflexivity]. }
  apply (lock_keeps_processor idle_tcb es _ (after to_locked boot_abs) _ (after es (after to_locked boot_abs))
    (mktcb 100 TSTATE_TASK_RUNNING TCB_FLAG_ROUND_ROBIN 1 RR_TICKS NULL 22 2) S).
  - apply after_spec. vm_compute. reflexivity.
  - vm_compute. reflexivity.
  - vm_compute. reflexivity.
  - vm_compute. reflexivity.
Defined.

End Runs.
