(* ===== verification/Turns.v ===== *)
(** * Turns: time slices, yields and posts

    Who gets the processor next: round-robin tasks of one priority take turns, a
    post goes to the first of the highest-priority waiters, and the merge of the
    pending tasks is an insertion of them one by one.  A yield gives the
    processor away whether preemption is locked or not. *)

From stdpp Require Import functions.
From S2P Require Import Prelude Queue Sched SchedRep SchedSpec Sem Kernel Runs.

Module Turns.
Export Runs.
#[local] Open Scope cmd_scope.

(** ** Time slices *)

(** A timer interrupt. *)
Definition tick (A : abs) : abs := upd_irq false (slice_tick (upd_irq true A)).

Lemma ticks_spec idle m a :
  spec_events idle (replicate m (Interrupt [HSlice])) a
    = Some (replicate m None, mkasys (Nat.iter m tick (abst a)) (arests a)).
Proof.
  revert a. induction m as [|m IH]; intros a; [by destruct a|].
  rewrite Nat.iter_succ_r. simpl. by rewrite IH.
Qed.

Lemma tick_slice A a :
  irq A = false → task_of A !! running A = Some a → Z.land (rr a) TCB_FLAG_ROUND_ROBIN ≠ 0 → 1 < slice a →
  tick A = change (running A) (with_slice (slice a - 1)) A.
Proof.
  intros I Ea Hr Hs. unfold tick, slice_tick.
  change (task_of (upd_irq true A) !! running (upd_irq true A)) with (task_of A !! running A). rewrite Ea.
  rewrite (proj2 (Z.eqb_neq _ _) Hr), (proj2 (Z.leb_gt _ _)) by lia.
  unfold change, upd_irq, upd_tasks. simpl. by rewrite I.
Qed.

(** All of the slice but its last tick. *)
Lemma ticks_slice m A a :
  irq A = false → task_of A !! running A = Some a → Z.land (rr a) TCB_FLAG_ROUND_ROBIN ≠ 0 →
  Z.of_nat m < slice a →
  Nat.iter m tick A = change (running A) (with_slice (slice a - Z.of_nat m)) A.
Proof.
  intros I Ea Hr. induction m as [|m IH]; intros Hs.
  - simpl. rewrite Z.sub_0_r. destruct A as [Q T C i e]. unfold change, upd_tasks. simpl in *. f_equal.
    symmetry. apply alter_id. intros b Eb. rewrite Ea in Eb. injection Eb as <-. by destruct a.
  - simpl. rewrite IH by lia. set (B := change _ _ A).
    assert (task_of B !! running B = Some (with_slice (slice a - Z.of_nat m) a)) as EB.
    { unfold B. rewrite running_change, lookup_change, decide_True by done. by rewrite Ea. }
    rewrite (tick_slice B _ I EB) by (done || simpl; lia). simpl.
    unfold B, change, upd_tasks. simpl. f_equal.
    apply map_eq. intros u. destruct (decide (u = running A)) as [->|N].
    + rewrite !lookup_alter_eq, Ea. simpl. unfold with_slice. simpl. do 2 f_equal. lia.
    + by rewrite !lookup_alter_ne.
Qed.

Lemma enqueue_ext p p' t l : (∀ u, p u = p' u) → enqueue p t l = enqueue p' t l.
Proof. intros H. induction l as [|x l IH]; simpl; [done|]. by rewrite !H, IH. Qed.

Lemma foldl_enqueue_ext p p' P l :
  (∀ u, p u = p' u) → foldl (λ q u, enqueue p u q) l P = foldl (λ q u, enqueue p' u q) l P.
Proof.
  intros H. revert l. induction P as [|u P IH]; intros l; simpl; [done|]. by rewrite (enqueue_ext p p'), IH.
Qed.

(** The last one. *)
Lemma reprio_ready_turn A t n q a :
  ready A = t :: n :: q → NoDup (ready A) → task_of A !! t = Some a → prio a ≤ prio_of A n →
  ready (reprio_ready t (prio a) A) = enqueue (prio_of A) t (n :: q)
  ∧ pending (reprio_ready t (prio a) A) = pending A.
Proof.
  intros Er Hn Ea Hp. unfold reprio_ready.
  set (C := change t (with_prio (prio a)) (leave t g_readytorun A)).
  assert (ready C = n :: q) as EC.
  { unfold C, leave, ready in *. simpl. list_simpl. rewrite Er in *.
    by apply (Sq.filter_ne_once t [] (n :: q)). }
  assert (∀ u, prio_of C u = prio_of A u) as Hprio.
  { intros u. unfold C, prio_of. rewrite lookup_change. destruct (decide (u = t)) as [->|]; [|done].
    unfold leave. simpl. by rewrite Ea. }
  assert (running C = n) as ErC by (unfold running; by rewrite EC).
  assert (delayed t C = false) as Hd.
  { unfold delayed. rewrite ErC, !Hprio, (prio_of_task A t a), (proj2 (Z.ltb_ge _ _)) by done. apply andb_false_r. }
  unfold make_ready. rewrite Hd. split.
  - unfold enter. change (queued C g_readytorun) with (ready C). rewrite EC, (enqueue_ext _ (prio_of A)) by done.
    unfold ready. simpl. by list_simpl.
  - unfold C, enter, leave, pending. simpl. by list_simpl.
Qed.

(** The processor goes to another task. *)
Lemma reprio_turn A t n q a :
  ready A = t :: n :: q → NoDup (ready A) → task_of A !! t = Some a → prio a ≤ prio_of A n →
  ready (reprio t (prio a) A) = foldl (λ l u, enqueue (prio_of A) u l) (enqueue (prio_of A) t (n :: q)) (pending A).
Proof.
  intros Er Hn Ea Hp. destruct (reprio_ready_turn A t n q a Er Hn Ea Hp) as [E1 E2]. unfold reprio.
  assert (running (reprio_ready t (prio a) A) = n) as E3.
  { unfold running. rewrite E1. simpl. by rewrite (prio_of_task A t a), (proj2 (Z.leb_le _ _) Hp) by done. }
  rewrite bool_decide_false.
  2:{ rewrite E3. unfold running. rewrite Er. simpl. intros ->. rewrite Er in Hn. apply NoDup_cons in Hn. set_solver. }
  rewrite ready_merge, E1, E2. generalize (enqueue (prio_of A) t (n :: q)) as l. intros l.
  assert (∀ u, prio_of (reprio_ready t (prio a) A) u = prio_of A u) as Hprio.
  { intros u. unfold reprio_ready, prio_of. rewrite task_of_make_ready, lookup_change.
    destruct (decide (u = t)) as [->|]; [|done]. unfold leave. simpl. by rewrite Ea. }
  by apply foldl_enqueue_ext.
Qed.

Lemma tick_turn A a t n q :
  ready A = t :: n :: q → NoDup (ready A) → pending A = [] → task_of A !! t = Some a →
  Z.land (rr a) TCB_FLAG_ROUND_ROBIN ≠ 0 → slice a ≤ 1 → lock a = 0 → prio a ≤ prio_of A n →
  ready (tick A) = enqueue (prio_of A) t (n :: q).
Proof.
  intros Er Hn HP Ea Hr Hs Hl Hp. assert (running A = t) as Et by (unfold running; by rewrite Er).
  assert (next_ready A = Some n) as En by (unfold next_ready; by rewrite Er).
  unfold tick. change (ready (upd_irq false ?X)) with (ready X). unfold slice_tick.
  change (running (upd_irq true A)) with (running A). change (task_of (upd_irq true A)) with (task_of A).
  rewrite Et, Ea, (proj2 (Z.eqb_neq _ _) Hr), (proj2 (Z.leb_le _ _) Hs), Hl. simpl.
  change (next_ready (upd_irq true A)) with (next_ready A). rewrite En.
  change (prio_of (upd_irq true A) n) with (prio_of A n). rewrite (proj2 (Z.leb_le _ _) Hp).
  set (B := change t (with_slice RR_TICKS) (upd_irq true A)).
  assert (task_of B !! t = Some (with_slice RR_TICKS a)) as EB.
  { unfold B. rewrite lookup_change, decide_True by done. simpl. by rewrite Ea. }
  assert (∀ u, prio_of B u = prio_of A u) as HpB by (intros u; unfold B; by rewrite prio_of_change).
  change (prio a) with (prio (with_slice RR_TICKS a)).
  rewrite (reprio_turn B t n q (with_slice RR_TICKS a)); [|done|done|done|simpl; by rewrite HpB].
  change (pending B) with (pending A). rewrite HP.
  exact (enqueue_ext _ _ t (n :: q) HpB).
Qed.

(** The whole slice: the task goes behind the ready tasks of its priority. *)
Lemma ticks_turn A a t n q :
  irq A = false → ready A = t :: n :: q → NoDup (ready A) → pending A = [] → task_of A !! t = Some a →
  Z.land (rr a) TCB_FLAG_ROUND_ROBIN ≠ 0 → 1 ≤ slice a → lock a = 0 → prio a ≤ prio_of A n →
  ready (Nat.iter (Z.to_nat (slice a)) tick A) = enqueue (prio_of A) t (n :: q).
Proof.
  intros I Er Hn HP Ea Hr Hs Hl Hp. assert (running A = t) as Et by (unfold running; by rewrite Er).
  replace (Z.to_nat (slice a)) with (S (Z.to_nat (slice a - 1))) by lia. simpl Nat.iter.
  rewrite (ticks_slice _ A a) by (rewrite ?Et; done || lia). rewrite Et.
  set (B := change t _ A).
  assert (task_of B !! t = Some (with_slice (slice a - Z.of_nat (Z.to_nat (slice a - 1))) a)) as EB.
  { unfold B. rewrite lookup_change, decide_True by done. by rewrite Ea. }
  assert (∀ u, prio_of B u = prio_of A u) as HpB by (intros u; unfold B; by rewrite prio_of_change).
  rewrite (tick_turn B _ t n q Er Hn HP EB); [|done|simpl; lia|done|simpl; by rewrite HpB].
  by apply enqueue_ext.
Qed.

Lemma enqueue_turn p t l :
  ordered p l →
  ∃ q1 q2, l = q1 ++ q2 ∧ enqueue p t l = q1 ++ t :: q2
    ∧ Forall (λ u, p t ≤ p u) q1 ∧ Forall (λ u, p u < p t) q2.
Proof.
  intros Ho. destruct (enqueue_split p t l) as (q1 & q2 & -> & E & H1 & H2). exists q1, q2.
  split_and!; [done|done|done|]. destruct q2 as [|y q2]; [constructor|]. specialize (H2 y eq_refl).
  apply StronglySorted_app_1_r in Ho. apply StronglySorted_inv in Ho as [_ Ho].
  constructor; [done|]. eapply Forall_impl; [exact Ho|]. simpl. lia.
Qed.

(** C14: Round robin: a task that runs to the end of its time slice, with another
    of its priority ready and preemption not locked, gives the processor to
    that one within as many ticks as are left of the slice, and waits behind
    all ready tasks of its priority and before those of a lower one. *)
Theorem round_robin_turn idle s a t n q c d :
  sys_ok idle s a → ready (abst a) = t :: n :: q →
  tcbs (kern s) !! t = Some c → tcbs (kern s) !! n = Some d →
  sched_priority d = sched_priority c → Z.land (flags c) TCB_FLAG_ROUND_ROBIN ≠ 0 →
  lockcount c = 0 → 1 ≤ timeslice c →
  ∃ s' a' q1 q2,
    run_events (replicate (Z.to_nat (timeslice c)) (Interrupt [HSlice])) s
      = Ok (replicate (Z.to_nat (timeslice c)) None, s')
    ∧ sys_ok idle s' a' ∧ current s' = n
    ∧ n :: q = q1 ++ q2 ∧ ready (abst a') = q1 ++ t :: q2
    ∧ Forall (λ u, sched_priority c ≤ prio_of (abst a) u) q1
    ∧ Forall (λ u, prio_of (abst a) u < sched_priority c) q2.
Proof.
  intros S Er Ec Ed Hp Hr Hl Hs. pose proof S as [[[R Hwf] _] _ _ I]. set (A := abst a) in *.
  destruct (rep_member R g_readytorun t) as [b Eb]; [change (t ∈ ready A); rewrite Er; set_solver|].
  destruct (rep_member R g_readytorun n) as [b' Eb']; [change (n ∈ ready A); rewrite Er; set_solver|].
  destruct (rep_task R t b Eb) as (_ & x & Ex & _). destruct (rep_task R n b' Eb') as (_ & y & Ey & _).
  rewrite Ex in Ec. injection Ec as <-. rewrite Ey in Ed. injection Ed as <-. simpl in Hp, Hr, Hl, Hs |- *.
  pose proof (ticks_spec idle (Z.to_nat (slice b)) a) as E. fold A in E.
  destruct (wp_run _ _ _ (events_implement idle _ s a _ _ S E)) as (rs' & s' & Erun & -> & S').
  assert (pending A = []) as HP.
  { apply (wf_pending _ _ Hwf). change (lock_of A (running A) = 0). unfold running. rewrite Er. unfold lock_of. simpl. by rewrite Eb. }
  pose proof (ticks_turn A b t n q I Er (rep_nodup R g_readytorun) HP Eb Hr Hs Hl) as Ht.
  rewrite (prio_of_task A n b') in Ht by done. specialize (Ht ltac:(lia)).
  assert (ordered (prio_of A) (n :: q)) as Ho.
  { pose proof (wf_ordered _ _ Hwf g_readytorun eq_refl) as Ho. change (queued A g_readytorun) with (ready A) in Ho.
    rewrite Er in Ho. by apply StronglySorted_inv in Ho as [Ho _]. }
  destruct (enqueue_turn (prio_of A) t (n :: q) Ho) as (q1 & q2 & Eq & El & H1 & H2).
  rewrite (prio_of_task A t b Eb) in H1, H2.
  eexists s', _, q1, q2. split; [done|]. split; [exact S'|]. split.
  - rewrite (current_running idle s' _ S'). unfold running. cbn [abst]. rewrite Ht.
    simpl. rewrite (prio_of_task A t b Eb), (prio_of_task A n b' Eb'), (proj2 (Z.leb_le _ _)) by lia. done.
  - split; [done|]. split; [by rewrite <- El|done].
Qed.

Lemma round_robin_turn_witness : ∃ s' a' q1 q2,
  run_events (replicate 20 (Interrupt [HSlice])) boot_sys = Ok (replicate 20 None, s')
  ∧ sys_ok idle_tcb s' a' ∧ current s' = server_tcb
  ∧ [server_tcb; idle_tcb] = q1 ++ q2 ∧ ready (abst a') = q1 ++ main_tcb :: q2
  ∧ Forall (λ u, 100 ≤ prio_of (abst boot_abs) u) q1 ∧ Forall (λ u, prio_of (abst boot_abs) u < 100) q2.
Proof.
  exact (round_robin_turn idle_tcb boot_sys boot_abs main_tcb server_tcb [idle_tcb]
    (as_tcb TSTATE_TASK_RUNNING 0 (boot_task 100 2)) (as_tcb TSTATE_TASK_READYTORUN 3 (boot_task 100 3))
    boot_sys_ok eq_refl eq_refl eq_refl eq_refl ltac:(done) eq_refl ltac:(done)).
Defined.

(** ** Yields *)

Lemma foldl_enqueue_first p x l P :
  ∃ y l', foldl (λ q u, enqueue p u q) (x :: l) P = y :: l' ∧ (y = x ∨ y ∈ P).
Proof.
  revert x l. induction P as [|u P IH]; intros x l; simpl; [eauto|].
  destruct (p u <=? p x); edestruct IH as (y & l' & -> & [->|Hy]); eexists _, _; (split; [done|]); set_solver.
Qed.

(** [sched_yield] gives the processor away although the caller holds the
    preemption lock, which the description of [sched_lock] excludes: with a
    ready task of the same priority, another task runs. *)
Theorem yield_ignores_lock idle s a t n q c d :
  sys_ok idle s a → ready (abst a) = t :: n :: q → t ≠ idle → rests s !! t = None →
  tcbs (kern s) !! t = Some c → tcbs (kern s) !! n = Some d →
  0 < lockcount c → sched_priority d = sched_priority c →
  ∃ s', run_event Yield s = Ok (Some OK, s') ∧ current s = t ∧ current s' ≠ t.
Proof.
  intros S Er Ni Hr Ec Ed _ Hp. pose proof S as [[[R Hwf] _] Ers _ I]. set (A := abst a) in *.
  assert (running A = t) as Et by (unfold running; by rewrite Er).
  destruct (rep_member R g_readytorun t) as [b Eb]; [change (t ∈ ready A); rewrite Er; set_solver|].
  destruct (rep_member R g_readytorun n) as [b' Eb']; [change (n ∈ ready A); rewrite Er; set_solver|].
  destruct (rep_task R t b Eb) as (_ & x & Ex & _). destruct (rep_task R n b' Eb') as (_ & y & Ey & _).
  rewrite Ex in Ec. injection Ec as <-. rewrite Ey in Ed. injection Ed as <-. simpl in Hp.
  assert (spec_event idle Yield a = Some (Some OK, mkasys (setprio t (prio b) A) (arests a))) as E.
  { simpl. fold A. rewrite Et, <- Ers, Hr, bool_decide_false by done. by rewrite (prio_of_task A t b Eb). }
  destruct (wp_run _ _ _ (event_implements idle Yield s a _ _ S E)) as (r' & s' & Erun & -> & S').
  exists s'. split; [done|]. split; [by rewrite (current_running idle s a S)|].
  rewrite (current_running idle s' _ S'). cbn [abst]. unfold setprio.
  rewrite (bool_decide_true (t ∈ ready A)) by (rewrite Er; set_solver). rewrite bool_decide_true by done.
  assert (next_ready A = Some n) as -> by (unfold next_ready; by rewrite Er).
  rewrite (prio_of_task A n b' Eb'), (proj2 (Z.leb_le _ _)) by lia. unfold running.
  pose proof (rep_nodup R g_readytorun) as Hn. change (NoDup (ready A)) in Hn.
  rewrite (reprio_turn A t n q b Er Hn Eb); [|rewrite (prio_of_task A n b' Eb'); lia]. simpl enqueue.
  rewrite (prio_of_task A t b Eb), (prio_of_task A n b' Eb'), (proj2 (Z.leb_le _ _)) by lia.
  destruct (foldl_enqueue_first (prio_of A) n (enqueue (prio_of A) t q) (pending A)) as (z & l' & -> & [->|Hz]); simpl.
  - intros ->. rewrite Er in Hn. apply NoDup_cons in Hn. set_solver.
  - intros ->. assert (g_readytorun = g_pendingtasks); [|done]. apply (rep_disjoint R _ _ t); [|done].
    change (t ∈ ready A). rewrite Er. set_solver.
Qed.

Lemma yield_ignores_lock_witness : ∃ s',
  run_event Yield (run_sys [Lock] boot_sys) = Ok (Some OK, s')
  ∧ current (run_sys [Lock] boot_sys) = main_tcb ∧ current s' ≠ main_tcb.
Proof.
  assert (sys_ok idle_tcb (run_sys [Lock] boot_sys) (after [Lock] boot_abs)) as S.
  { eapply run_sys_ok; [exact boot_sys_ok|vm_compute; reflexivity]. }
  exact (yield_ignores_lock idle_tcb _ (after [Lock] boot_abs) main_tcb server_tcb [idle_tcb]
    (mktcb 100 TSTATE_TASK_RUNNING TCB_FLAG_ROUND_ROBIN 1 RR_TICKS NULL 0 0)
    (as_tcb TSTATE_TASK_READYTORUN 3 (boot_task 100 3))
    S eq_refl ltac:(done) eq_refl eq_refl eq_refl eq_refl eq_refl).
Defined.

(** ** Posts *)

(** The task [t] with TCB [y] waits for [x]. *)
Definition waits_for (x : Z) (s : sys) (t : Z) (y : tcb_s) : Prop :=
  tcbs (kern s) !! t = Some y ∧ task_state y = TSTATE_WAIT_SEM ∧ waitsem y = x.

Definition is_ready (st : tstate) : Prop :=
  st = TSTATE_TASK_RUNNING ∨ st = TSTATE_TASK_READYTORUN ∨ st = TSTATE_TASK_PENDING.

Lemma task_of_tcb idle s a t y :
  sys_ok idle s a → tcbs (kern s) !! t = Some y →
  ∃ b z, task_of (abst a) !! t = Some b ∧ y = as_tcb (state_of (queued (abst a)) t) z b.
Proof.
  intros [[[R _] _] _ _ _] Ey. assert (is_Some (task_of (abst a) !! t)) as [b Eb].
  { apply elem_of_dom. rewrite <- (proj1 (rep_tasks _ _ _ R)). apply elem_of_dom. eauto. }
  destruct (rep_task R t b Eb) as (_ & z & Ez & _). rewrite Ez in Ey. injection Ey as <-. eauto.
Qed.

Lemma waits_for_waiters idle x s a t y :
  sys_ok idle s a → waits_for x s t y → t ∈ waiters x (abst a) ∧ prio_of (abst a) t = sched_priority y.
Proof.
  intros S (Ey & Hst & Hw). destruct (task_of_tcb idle s a t y S Ey) as (b & z & Eb & ->). simpl in *.
  pose proof (waitirq_state idle (kern s) (abst a) t b (proj1 (sk_kernel _ _ _ S)) Eb) as H.
  rewrite (bool_decide_true (state_of _ _ = _) Hst) in H. symmetry in H. apply bool_decide_eq_true in H.
  split; [|by apply prio_of_task]. apply list_elem_of_filter. by rewrite (wsem_of_task _ t b).
Qed.

Lemma waiters_waits_for idle x s a t :
  sys_ok idle s a → t ∈ waiters x (abst a) → ∃ y, waits_for x s t y ∧ sched_priority y = prio_of (abst a) t.
Proof.
  intros S [Hw Ht]%list_elem_of_filter. pose proof S as [[G _] _ _ _].
  destruct (waiting_tasks idle _ _ t G Ht) as [b Eb]. destruct (rep_task (proj1 G) t b Eb) as (_ & z & Ez & _).
  exists (as_tcb (state_of (queued (abst a)) t) z b). split; [|by rewrite (prio_of_task (abst a) t b)].
  split; [done|]. simpl. split; [|by rewrite <- (wsem_of_task (abst a) t b)].
  pose proof (waitirq_state idle (kern s) (abst a) t b G Eb) as H.
  rewrite (bool_decide_true (t ∈ waiting _) Ht) in H. by apply bool_decide_eq_true in H.
Qed.

Lemma ready_state Q t l : disjoint_lists Q → t ∈ Q l → l = g_readytorun ∨ l = g_pendingtasks → is_ready (state_of Q t).
Proof.
  intros Hd Ht Hl. unfold is_ready. destruct (decide (Q g_readytorun !! 0%nat = Some t)) as [E|N].
  - left. by apply state_of_running.
  - right. rewrite (state_of_wait Q t l Hd Ht N). destruct Hl as [-> | ->]; auto.
Qed.

Lemma filter_swap (P P' : Z → Prop) `{!∀ x, Decision (P x), !∀ x, Decision (P' x)} (l : list Z) :
  filter P (filter P' l) = filter P' (filter P l).
Proof. rewrite !list_filter_filter. apply list_filter_iff. naive_solver. Qed.

(** Waking a task leaves the other waiters as they are. *)
Lemma waiters_wake A B t x q :
  waiters x A = t :: q → NoDup (waiting A) → waiting B = waiting A →
  (∀ u, wsem_of B u = wsem_of A u) → waiters x (wake t B) = q.
Proof.
  intros EW Hn EB HB. unfold waiters in *. unfold wake. rewrite waiting_unblock. change (waiting (change t _ B)) with (waiting B).
  rewrite EB, (filter_wsem_ext A).
  - rewrite filter_swap, EW. apply (Sq.filter_ne_once t []).
    rewrite <- EW. simpl. by apply NoDup_filter.
  - intros u [N _]%list_elem_of_filter. unfold wsem_of. rewrite task_of_unblock, lookup_change, decide_False by congruence.
    apply HB.
Qed.

Lemma waiters_ordered idle x A : wf idle A → ordered (prio_of A) (waiters x A).
Proof.
  intros Hwf. pose proof (wf_ordered _ _ Hwf g_waitingforsemaphore eq_refl) as Ho. unfold ordered in *.
  unfold waiters, waiting. clear -Ho. induction Ho as [|v l Hv IH Hall]; [constructor|].
  rewrite filter_cons. case_decide; [|done]. constructor; [done|]. rewrite Forall_forall in Hall |- *.
  intros w [_ Hw]%list_elem_of_filter. auto.
Qed.

Lemma woken_list t A : ∃ l, t ∈ queued (wake t A) l ∧ (l = g_readytorun ∨ l = g_pendingtasks).
Proof.
  unfold wake, unblock, make_ready. destruct (delayed _ _); [exists g_pendingtasks|exists g_readytorun];
    (split; [|by auto]); unfold enter; simpl; list_simpl; apply elem_of_enqueue; by left.
Qed.

Lemma woken_wsem t A b : task_of (wake t A) !! t = Some b → wsem b = NULL.
Proof.
  intros Eb. pose proof (task_of_unblock (change t (with_wsem NULL) A) t g_waitingforsemaphore t) as Hw.
  fold (wake t A) in Hw. rewrite Eb, lookup_change, decide_True in Hw by done.
  destruct (task_of A !! t); simpl in Hw; congruence.
Qed.

(** A post with tasks waiting goes to the one of the highest priority, and
    among equals to the one that is first in the list: that task becomes ready
    and waits for nothing, and every other waiter still waits. *)
Theorem post_wakes_highest idle x s a c :
  sys_ok idle s a → current_rest s = None → sems (kern s) !! x = Some c → c < 0 →
  ∃ s' t y q, run_event (Post x) s = Ok (Some OK, s')
    ∧ waiters x (abst a) = t :: q ∧ waits_for x s t y
    ∧ (∀ u z, waits_for x s u z → sched_priority z ≤ sched_priority y)
    ∧ (∃ y', tcbs (kern s') !! t = Some y' ∧ is_ready (task_state y') ∧ waitsem y' = NULL)
    ∧ (∀ u, u ∈ q → ∃ z, waits_for x s' u z).
Proof.
  intros S Hr Hx Hc. pose proof S as [[[R Hwf] Hs] Ers _ _]. set (A := abst a) in *.
  pose proof (rep_sems _ _ _ R) as ES. rewrite ES in Hx. destruct (so_count _ Hs x c Hx) as (Nx & _ & Hl).
  assert (count_of A x = c) as Ec by (unfold count_of; by rewrite Hx).
  destruct (waiters x A) as [|t q] eqn:EW; [simpl in Hl; lia|].
  set (B := wake t (set_count x (c + 1) A)).
  assert (spec_event idle (Post x) a = Some (Some OK, mkasys B (arests a))) as E.
  { simpl. fold A. unfold current_rest in Hr. rewrite (current_running idle s a S), Ers in Hr. fold A in Hr.
    rewrite Hr, (proj2 (postable_iff x A)) by (split; [eauto|unfold SEM_VALUE_MAX; lia]).
    unfold sem_post_call. rewrite Ec, (proj2 (Z.ltb_lt _ _)), EW by lia. done. }
  destruct (wp_run _ _ _ (event_implements idle (Post x) s a _ _ S E)) as (r' & s' & Erun & -> & S').
  assert (t ∈ waiters x A) as Ht by (rewrite EW; set_solver).
  destruct (waiters_waits_for idle x s a t S Ht) as (y & Hy & Py). fold A in Py.
  exists s', t, y, q. split; [done|]. split; [done|]. split; [done|]. split_and!.
  - intros u z Hu. destruct (waits_for_waiters idle x s a u z S Hu) as [Hu' Pu]. fold A in Hu', Pu.
    rewrite <- Pu, Py. pose proof (waiters_ordered idle x A Hwf) as Ho.
    rewrite EW in Ho, Hu'. apply StronglySorted_inv in Ho as [_ Ho]. rewrite Forall_forall in Ho.
    apply elem_of_cons in Hu' as [->|Hu']; [done|by apply Ho].
  - pose proof S' as [[[R' _] _] _ _ _]. cbn [abst] in R'.
    destruct (woken_list t (set_count x (c + 1) A)) as (l & Hin & Hlr). fold B in Hin.
    destruct (rep_member R' l t Hin) as [b Eb]. destruct (rep_task R' t b Eb) as (_ & z & Ez & _).
    exists (as_tcb (state_of (queued B) t) z b). split; [done|]. simpl. split.
    + eapply ready_state; [apply (rep_disjoint R')|done|done].
    + by apply (woken_wsem t (set_count x (c + 1) A)).
  - intros u Hu. destruct (waiters_waits_for idle x s' _ u S') as (z & Hz & _); [|by exists z]. cbn [abst].
    unfold B. rewrite (waiters_wake A _ t x q); [done|done|by eapply sys_nodup|done|done].
Qed.

(** The server waits for the count that the main task has. *)
Definition to_contended : list event := [Wait a_sem; Yield; Wait a_sem].

Lemma contended_ok : sys_ok idle_tcb (run_sys to_contended boot_sys) (after to_contended boot_abs).
Proof. eapply run_sys_ok; [exact boot_sys_ok|vm_compute; reflexivity]. Qed.

Lemma post_wakes_highest_witness : ∃ s' t q,
  run_event (Post a_sem) (run_sys to_contended boot_sys) = Ok (Some OK, s')
  ∧ waiters a_sem (abst (after to_contended boot_abs)) = t :: q
  ∧ ∃ y', tcbs (kern s') !! t = Some y' ∧ is_ready (task_state y') ∧ waitsem y' = NULL.
Proof.
  destruct (post_wakes_highest idle_tcb a_sem _ (after to_contended boot_abs) (-1) contended_ok)
    as (s' & t & y & q & Er & Ew & _ & _ & Hy & _); [vm_compute; reflexivity..|].
  exists s', t, q. split; [exact Er|]. split; [exact Ew|exact Hy].
Defined.

(** ** The search and the merge *)

(** C38: The search of [sem_post] ends: from the head of the waiting list, with
    any fuel that is not less than the length of that list, it returns the
    first task that waits for the semaphore, or [NULL] when none does, and
    changes nothing. *)
Theorem waiter_search_terminates idle k A x fuel :
  kernel_ok idle k A → (length (waiting A) ≤ fuel)%nat →
  find_waiter fuel (head (lists k g_waitingforsemaphore)) x k
    = Ok (default NULL (waiters x A !! 0%nat), k).
Proof.
  intros [G Hs] Hf. destruct (proj2 (rep_queues _ _ _ (proj1 G)) g_waitingforsemaphore) as [_ Hseg].
  destruct (wp_run _ _ _ (find_waiter_spec k A _ fuel x _ _ (waiting A) _ (proj1 G) Hseg
    (λ t, waiting_tasks idle k A t G) Hf)) as (r & k' & E & -> & ->). done.
Qed.

Lemma waiter_search_terminates_witness :
  let k := kern (run_sys to_contended boot_sys) in
  find_waiter 1 (head (lists k g_waitingforsemaphore)) a_sem k
    = Ok (default NULL (waiters a_sem (abst (after to_contended boot_abs)) !! 0%nat), k).
Proof.
  exact (waiter_search_terminates idle_tcb _ (abst (after to_contended boot_abs)) a_sem 1
    (sk_kernel _ _ _ contended_ok) ltac:(apply (bool_decide_unpack _); vm_compute; reflexivity)).
Defined.

(** C16: The merge of the pending list, which walks both lists once, is the
    insertion of the pending tasks one by one, each behind the ready tasks of
    its priority: the ready list is that of the insertions, the pending list is
    empty, every task is in the state of its list, and the result says whether
    another task has become the first. *)
Theorem mergepending_is_insertion idle k A :
  good idle k A →
  let ready' := foldl (λ q t, enqueue (prio_of A) t q) (ready A) (pending A) in
  ∃ k', sched_mergepending k = Ok (bool_decide (default NULL (ready' !! 0%nat) ≠ running A), k')
    ∧ Dq.dq_rep (links k') (lists k' g_readytorun) ready'
    ∧ Dq.dq_rep (links k') (lists k' g_pendingtasks) []
    ∧ ∀ t, t ∈ ready' → ∃ y, tcbs k' !! t = Some y ∧
        task_state y = if bool_decide (ready' !! 0%nat = Some t) then TSTATE_TASK_RUNNING else TSTATE_TASK_READYTORUN.
Proof.
  intros [R Hwf] ready'. pose proof (wf_wf0 _ _ Hwf) as Hwf0.
  destruct (wp_run _ _ _ (mergepending_spec _ _ _ R (wf0_ordered _ _ Hwf0 g_pendingtasks eq_refl)
    (pending_above idle _ _ _ R Hwf0))) as (b & k' & E & -> & R').
  exists k'. split; [done|]. destruct (rep_queues _ _ _ R') as [Hd Hq]. split; [apply (Hq g_readytorun)|].
  split; [apply (Hq g_pendingtasks)|]. intros t Ht. change (t ∈ queued (merge A) g_readytorun) in Ht.
  destruct (rep_member R' _ t Ht) as [a Ea]. destruct (rep_task R' t a Ea) as (_ & z & Ez & _).
  eexists. split; [exact Ez|]. cbn [task_state as_tcb]. clear E.
  change ready' with (queued (merge A) g_readytorun). case_bool_decide as H0.
  - by apply state_of_running.
  - by apply (state_of_wait _ t g_readytorun).
Qed.

Lemma mergepending_is_insertion_witness :
  let s := run_sys (to_locked ++ [Post a_sem]) boot_sys in
  ∃ k', sched_mergepending (kern s) = Ok (true, k')
    ∧ Dq.dq_rep (links k') (lists k' g_readytorun) [server_tcb; main_tcb; idle_tcb].
Proof.
  assert (sys_ok idle_tcb (run_sys (to_locked ++ [Post a_sem]) boot_sys)
    (after (to_locked ++ [Post a_sem]) boot_abs)) as S.
  { eapply run_sys_ok; [exact boot_sys_ok|vm_compute; reflexivity]. }
  destruct (mergepending_is_insertion idle_tcb _ _ (proj1 (sk_kernel _ _ _ S))) as (k' & E & H & _).
  exists k'. split; [rewrite E; reflexivity|]. vm_compute in H. vm_compute. exact H.
Defined.

(** ** Ranges and errors *)



(** C40: The error paths of the semaphores: without a semaphore every call
    returns [ERROR], with [EINVAL] in [errno] except for [sem_post], which does
    not set it; an initial value above the maximum is refused; a try on an empty
    semaphore is [EAGAIN]; a post at the maximum does not return. *)
Theorem sem_error_paths idle k A x :
  kernel_ok idle k A → irq A = false → is_Some (count A !! x) →
  wp (sem_wait NULL) (λ r k', r = Some ERROR ∧ kernel_ok idle k' (set_err EINVAL A)) k
  ∧ wp (sem_trywait NULL) (λ r k', r = ERROR ∧ kernel_ok idle k' (set_err EINVAL A)) k
  ∧ sem_post NULL k = Ok (ERROR, k)
  ∧ wp (sem_destroy NULL) (λ r k', r = ERROR ∧ kernel_ok idle k' (set_err EINVAL A)) k
  ∧ wp (sem_init x (SEM_VALUE_MAX + 1)) (λ r k', r = ERROR ∧ kernel_ok idle k' (set_err EINVAL A)) k
  ∧ (count_of A x ≤ 0 →
      wp (sem_trywait x) (λ r k', r = ERROR ∧ get_err (set_err EAGAIN (set_err EINVAL A)) = EAGAIN
        ∧ kernel_ok idle k' (set_err EAGAIN (set_err EINVAL A))) k)
  ∧ (count_of A x = SEM_VALUE_MAX → sem_post x k = Undef AssertFail).
Proof.
  intros K I Hx. pose proof K as [[R Hwf] Hs]. split_and!.
  - unfold sem_wait, up_interrupt_context. rewrite wp_bind, wp_head_of, wp_bind, wp_gets, <- (rep_irq _ _ _ R), I.
    rewrite wp_bind, wp_assert, wp_bind by done. eapply wp_mono; [by apply set_errno_ok|]. by intros [] k' K'.
  - unfold sem_trywait, up_interrupt_context. rewrite wp_bind, wp_head_of, wp_bind, wp_gets, <- (rep_irq _ _ _ R), I.
    rewrite wp_bind, wp_assert, wp_bind by done. eapply wp_mono; [by apply set_errno_ok|]. by intros [] k' K'.
  - done.
  - unfold sem_destroy. simpl. rewrite wp_bind. eapply wp_mono; [by apply set_errno_ok|]. intros [] k' K'. by rewrite wp_ret.
  - apply (sem_init_invalid idle); [done|by right].
  - intros Hc. eapply wp_mono; [by apply (sem_trywait_spec idle k A x)|]. intros r k' [-> K'].
    unfold sem_trywait_call in *. rewrite (proj2 (Z.ltb_ge _ _) Hc) in *. simpl in *. split_and!; [done| |done].
    destruct (good_running idle k A (conj R Hwf)) as (b & _ & Eb & _). unfold get_err.
    rewrite !irq_set_err, I, !running_set_err. unfold set_err at 1. rewrite irq_set_err, I, running_set_err.
    rewrite lookup_change, decide_True by done. unfold set_err. rewrite I, lookup_change, decide_True, Eb by done. done.
  - intros Hc. apply (sem_post_full idle x k A K Hx). lia.
Qed.

Lemma sem_error_paths_witness :
  let k := kern (run_sys to_contended boot_sys) in
  sem_post NULL k = Ok (ERROR, k) ∧ ∃ k', sem_trywait a_sem k = Ok (ERROR, k').
Proof.
  destruct (sem_error_paths idle_tcb _ _ a_sem (sk_kernel _ _ _ contended_ok) eq_refl)
    as (_ & _ & Hp & _ & _ & Ht & _); [vm_compute; by eexists|].
  split; [exact Hp|]. destruct (wp_run _ _ _ (Ht ltac:(vm_compute; discriminate))) as (r & k' & E & -> & _).
  exists k'. exact E.
Defined.

End Turns.
