(* ===== verification/Pids.v ===== *)
(** * Process identifiers

    Models [task_assignpid] of [sched/task/task_setup.c], [sched_gettcb],
    [sched_foreach], [sched_releasepid] of [sched/sched] and the initialization
    in [sched/init/os_start.c]: the table [g_pidhash] that finds the task of an
    identifier.

    The table has one entry for each value of the last four bits of an
    identifier.  A new task gets the next identifier whose entry is free;
    identifiers are 16-bit and start at 1 again after the largest. *)

From S2P Require Import Prelude Queue Sched SchedRep SchedSpec Sem Kernel Runs.

Module Pids.
Export Sem.
#[local] Open Scope cmd_scope.

Definition MAX_TASKS_MASK : Z := Z.of_nat CONFIG_MAX_TASKS - 1.
Definition PIDHASH (pid : Z) : Z := Z.land pid MAX_TASKS_MASK.
Definition INVALID_PROCESS_ID : Z := -1.

Record pidhash_s : Type := mkpidhash { tcb : Z; pid : Z }.

(** The table, the scheduler below it, and the field [pid] of the TCBs that
    exist. *)
Record ptable : Type := mkptable {
  kern : kernel;
  g_pidhash : list pidhash_s;
  g_lastpid : Z;
  tcb_pid : gmap Z Z
}.

Definition upd_pidhash x s := mkptable (kern s) x (g_lastpid s) (tcb_pid s).
Definition upd_lastpid x s := mkptable (kern s) (g_pidhash s) x (tcb_pid s).
Definition upd_tcb_pid x s := mkptable (kern s) (g_pidhash s) (g_lastpid s) x.

Definition on_kern {A} (m : M kernel A) : M ptable A := λ s,
  res_bind (m (kern s)) (λ '(a, k), Ok (a, mkptable k (g_pidhash s) (g_lastpid s) (tcb_pid s))).

(** [g_pidhash[ndx]] *)
Definition get_entry (ndx : Z) : M ptable pidhash_s := λ s,
  match (if ndx <? 0 then None else g_pidhash s !! Z.to_nat ndx) with
  | Some e => Ok (e, s)
  | None => Undef OutOfBounds
  end.
Definition set_entry (ndx : Z) (e : pidhash_s) : M ptable unit :=
  get_entry ndx ;;; modify (λ s, upd_pidhash (<[Z.to_nat ndx := e]> (g_pidhash s)) s).

(** [tcb->pid = pid] *)
Definition set_pid (t pid : Z) : M ptable unit := λ s,
  match tcb_pid s !! t with
  | Some _ => Ok (tt, upd_tcb_pid (<[t := pid]> (tcb_pid s)) s)
  | None => Undef OutOfBounds
  end.

(** The loop of [task_assignpid]; whether it found an entry. *)
Fixpoint try_pids (tries : nat) (t : Z) : M ptable bool :=
  match tries with
  | O => ret false
  | S tries =>
      modify (λ s, upd_lastpid (i16 (g_lastpid s + 1)) s) ;;;
      next_pid <-- gets g_lastpid ;;
      next_pid <-- (if next_pid <=? 0 then modify (upd_lastpid 1) ;;; ret 1 else ret next_pid) ;;
      e <-- get_entry (PIDHASH next_pid) ;;
      if tcb e =? NULL then
        set_entry (PIDHASH next_pid) (mkpidhash t next_pid) ;;;
        set_pid t next_pid ;;;
        ret true
      else try_pids tries t
  end.

(** When an interrupt has made a task of higher priority ready in between, the
    unlock switches to it and the caller returns when it runs again. *)
Definition task_assignpid (t : Z) : M ptable Z :=
  on_kern sched_lock ;;;
  b <-- try_pids (CONFIG_MAX_TASKS) t ;;
  on_kern sched_unlock ;;;
  ret (if b : bool then OK else ERROR).

Definition sched_gettcb (p : Z) : M ptable Z :=
  if 0 <=? p then
    e <-- get_entry (PIDHASH p) ;;
    ret (if p =? pid e then tcb e else NULL)
  else ret NULL.

Definition sched_releasepid (p : Z) : M ptable unit :=
  set_entry (PIDHASH p) (mkpidhash NULL INVALID_PROCESS_ID).

(** The part of [sched_releasetcb] that frees the identifier. *)
Definition release_tcb_pid (t : Z) : M ptable unit :=
  p <-- (λ s, match tcb_pid s !! t with Some p => Ok (p, s) | None => Undef OutOfBounds end) ;;
  when (negb (p =? 0)) (sched_releasepid p).

Fixpoint foreach_loop (n : nat) (ndx : Z) (handler : Z → M ptable unit) : M ptable unit :=
  match n with
  | O => ret tt
  | S n =>
      e <-- get_entry ndx ;;
      when (negb (tcb e =? NULL)) (handler (tcb e)) ;;;
      foreach_loop n (ndx + 1) handler
  end.
Definition sched_foreach (handler : Z → M ptable unit) : M ptable unit :=
  foreach_loop (CONFIG_MAX_TASKS) 0 handler.

(** The table that [os_start] sets up: only the idle task. *)
Definition first_pids (k : kernel) (idle : Z) (tcbs : gmap Z Z) : ptable :=
  mkptable k (<[Z.to_nat (PIDHASH 0) := mkpidhash idle 0]>
    (replicate (CONFIG_MAX_TASKS) (mkpidhash NULL INVALID_PROCESS_ID))) 0 (<[idle := 0]> tcbs).

(** ** The tasks in the table *)

Definition used (l : list pidhash_s) : list (Z * Z) :=
  omap (λ e, if tcb e =? NULL then None else Some (pid e, tcb e)) l.
Definition tasks (s : ptable) : gmap Z Z := list_to_map (used (g_pidhash s)).

(** What an entry must be. *)
Definition entry_ok (pids : gmap Z Z) (i : nat) (e : pidhash_s) : Prop :=
  if tcb e =? NULL then pid e = INVALID_PROCESS_ID
  else 0 ≤ pid e ≤ 32767 ∧ PIDHASH (pid e) = Z.of_nat i ∧ pids !! tcb e = Some (pid e).

Record table_ok (s : ptable) : Prop := {
  to_len : length (g_pidhash s) = CONFIG_MAX_TASKS;
  to_last : 0 ≤ g_lastpid s ≤ 32767;
  to_entry : ∀ i e, g_pidhash s !! i = Some e → entry_ok (tcb_pid s) i e;
  to_idle : ∀ e, g_pidhash s !! 0%nat = Some e → tcb e ≠ NULL ∧ pid e = 0
}.

Lemma hash_bound p : 0 ≤ PIDHASH p < 16.
Proof. unfold PIDHASH. change MAX_TASKS_MASK with (Z.ones 4). rewrite Z.land_ones by lia. apply Z.mod_pos_bound. lia. Qed.

Lemma hash_mod p : PIDHASH p = p mod 16.
Proof. unfold PIDHASH. change MAX_TASKS_MASK with (Z.ones 4). by rewrite Z.land_ones by lia. Qed.

Lemma used_elem l p t : (p, t) ∈ used l ↔ t ≠ NULL ∧ mkpidhash t p ∈ l.
Proof.
  unfold used. rewrite list_elem_of_omap. split.
  - intros ([t' p'] & He & E). simpl in E. destruct (Z.eqb_spec t' NULL); simplify_eq. done.
  - intros [Ht He]. exists (mkpidhash t p). split; [done|]. simpl. by rewrite (proj2 (Z.eqb_neq _ _)).
Qed.

Lemma entry_at s i : table_ok s → 0 ≤ i < 16 → ∃ e, g_pidhash s !! Z.to_nat i = Some e.
Proof. intros HO Hi. apply lookup_lt_is_Some_2. rewrite (to_len _ HO). unfold CONFIG_MAX_TASKS. lia. Qed.

Lemma used_nodup s : table_ok s → NoDup (used (g_pidhash s)).*1.
Proof.
  intros HO. pose proof (to_entry _ HO) as HE. revert HE. generalize (tcb_pid s). generalize (g_pidhash s). clear HO.
  intros l pids HE. assert (∀ k, (∀ i e, l !! i = Some e → entry_ok pids (k + i) e) →
    NoDup (used l).*1 ∧ ∀ p t, (p, t) ∈ used l → Z.of_nat k ≤ PIDHASH p) as Hk; [|by apply (Hk 0%nat)].
  clear HE. induction l as [|e l IH]; intros k HE; [split; [constructor|intros p t Hp; by apply elem_of_nil in Hp]|].
  destruct (IH (S k)) as [IH1 IH2].
  { intros i e' E. replace (S k + i)%nat with (k + S i)%nat by lia. by apply HE. }
  assert (∀ p t, (p, t) ∈ used l → Z.of_nat (S k) ≤ PIDHASH p) as IH2' by done.
  pose proof (HE 0%nat e eq_refl) as H0. unfold entry_ok in H0. rewrite Nat.add_0_r in H0. cbn [used omap list_omap].
  destruct (tcb e =? NULL); [split; [done|]; intros p t Hp; specialize (IH2' p t Hp); lia|].
  destruct H0 as (_ & Hh & _). cbn [fmap list_fmap fst]. split.
  - constructor; [|done]. intros ([p t] & Ep & Hp)%list_elem_of_fmap. simpl in Ep. subst p. specialize (IH2' _ _ Hp). lia.
  - intros p t. rewrite elem_of_cons. intros [[= -> ->]|Hp]; [lia|]. specialize (IH2' _ _ Hp). lia.
Qed.

Lemma tasks_lookup s p t : table_ok s → tasks s !! p = Some t ↔ t ≠ NULL ∧ mkpidhash t p ∈ g_pidhash s.
Proof.
  intros HO. unfold tasks. rewrite <- elem_of_list_to_map by by apply used_nodup. apply used_elem.
Qed.

(** The entry of an identifier decides. *)
Lemma tasks_entry s p e : table_ok s → 0 ≤ p → g_pidhash s !! Z.to_nat (PIDHASH p) = Some e →
  tasks s !! p = if (tcb e =? NULL) || negb (pid e =? p) then None else Some (tcb e).
Proof.
  intros HO Hp Ee. pose proof (hash_bound p) as Hb. pose proof (to_entry _ HO _ _ Ee) as Hok. unfold entry_ok in Hok.
  destruct ((tcb e =? NULL) || negb (pid e =? p)) eqn:Eb.
  - apply eq_None_not_Some. intros [t Ht]. apply tasks_lookup in Ht as [Hn [j Ej]%list_elem_of_lookup]; [|done].
    pose proof (to_entry _ HO _ _ Ej) as Hj. unfold entry_ok in Hj. cbn [tcb pid] in Hj.
    rewrite (proj2 (Z.eqb_neq t NULL)) in Hj by done. destruct Hj as (_ & Hj & _).
    rewrite Hj, Nat2Z.id, Ej in Ee. injection Ee as <-. cbn [tcb pid] in Eb.
    rewrite (proj2 (Z.eqb_neq t NULL)), Z.eqb_refl in Eb by done. done.
  - apply orb_false_iff in Eb as [Hn Eq]. apply negb_false_iff, Z.eqb_eq in Eq. apply Z.eqb_neq in Hn.
    apply tasks_lookup; [done|]. split; [done|]. rewrite <- Eq. replace (mkpidhash (tcb e) (pid e)) with e by (by destruct e).
    by eapply list_elem_of_lookup_2.
Qed.

(** ** Rules *)

Lemma wp_on_sched {A} (m : M kernel A) Q s :
  wp (on_kern m) Q s = wp m (λ a k, Q a (mkptable k (g_pidhash s) (g_lastpid s) (tcb_pid s))) (kern s).
Proof. unfold wp, on_kern, res_bind. by destruct (m (kern s)) as [[??]|]. Qed.

Lemma wp_get_entry i e Q s : 0 ≤ i → g_pidhash s !! Z.to_nat i = Some e → wp (get_entry i) Q s = Q e s.
Proof. intros Hi E. unfold wp, get_entry. by rewrite (proj2 (Z.ltb_ge _ _)), E by done. Qed.

Lemma wp_set_entry i e e' Q s : 0 ≤ i → g_pidhash s !! Z.to_nat i = Some e →
  wp (set_entry i e') Q s = Q tt (upd_pidhash (<[Z.to_nat i := e']> (g_pidhash s)) s).
Proof. intros Hi E. unfold set_entry. by rewrite wp_bind, (wp_get_entry i e). Qed.

(** ** Identifiers one after the other *)

(** The identifier after [g]. *)
Definition next_pid (g : Z) : Z := if g =? 32767 then 1 else g + 1.

Lemma next_range g : 0 ≤ g ≤ 32767 → 1 ≤ next_pid g ≤ 32767.
Proof. unfold next_pid. intros Hg. destruct (Z.eqb_spec g 32767); lia. Qed.

Lemma iter_range n g : 0 ≤ g ≤ 32767 → 0 ≤ Nat.iter n next_pid g ≤ 32767.
Proof. intros Hg. induction n as [|n IH]; [done|]. simpl. pose proof (next_range _ IH). lia. Qed.

Lemma iter_next k g : 0 ≤ g ≤ 32767 → Z.of_nat k ≤ 16 →
  Nat.iter k next_pid g = if g + Z.of_nat k <=? 32767 then g + Z.of_nat k else g + Z.of_nat k - 32767.
Proof.
  intros Hg Hk. induction k as [|k IH].
  { cbn [Nat.iter nat_rect]. rewrite Z.add_0_r. destruct (Z.leb_spec g 32767); lia. }
  change (Nat.iter (S k) next_pid g) with (next_pid (Nat.iter k next_pid g)). rewrite IH by lia. unfold next_pid.
  destruct (Z.leb_spec (g + Z.of_nat k) 32767); destruct (Z.leb_spec (g + Z.of_nat (S k)) 32767);
    match goal with |- context [?x =? 32767] => destruct (Z.eqb_spec x 32767) end; lia.
Qed.

(** Sixteen in a row meet every entry but the first, also around the end. *)
Lemma next_covers g h : 0 ≤ g ≤ 32767 → 1 ≤ h < 16 → ∃ k, (k < 16)%nat ∧ PIDHASH (Nat.iter (S k) next_pid g) = h.
Proof.
  intros Hg Hh. set (k0 := (h - g - 1) mod 16). assert (0 ≤ k0 < 16) as Hk0 by (apply Z.mod_pos_bound; lia).
  assert ((g + k0 + 1) mod 16 = h) as Hm.
  { unfold k0. pose proof (Z.div_mod (h - g - 1) 16 ltac:(lia)) as E.
    replace (g + (h - g - 1) mod 16 + 1) with (h + (- ((h - g - 1) / 16)) * 16) by lia.
    rewrite Z.mod_add by lia. apply Z.mod_small. lia. }
  destruct (Z.leb_spec (g + (k0 + 1)) 32767) as [Hw|Hw].
  - exists (Z.to_nat k0). split; [lia|]. rewrite iter_next by lia. rewrite (proj2 (Z.leb_le _ _)) by lia.
    rewrite hash_mod. by replace (g + Z.of_nat (S (Z.to_nat k0))) with (g + k0 + 1) by lia.
  - assert (32768 + h ≤ g + k0 + 1) as Hge.
    { pose proof (Z.div_mod (g + k0 + 1) 16 ltac:(lia)) as E. rewrite Hm in E.
      assert (2048 ≤ (g + k0 + 1) / 16) by (apply Z.div_le_lower_bound; lia). lia. }
    exists (Z.to_nat (32767 - g + h - 1)). split; [lia|]. rewrite iter_next by lia.
    rewrite (proj2 (Z.leb_gt _ _)) by lia. rewrite hash_mod.
    replace (g + Z.of_nat (S (Z.to_nat (32767 - g + h - 1))) - 32767) with h by lia. apply Z.mod_small. lia.
Qed.

(** ** Assigning *)

Definition assigned (t p : Z) s : ptable :=
  mkptable (kern s) (<[Z.to_nat (PIDHASH p) := mkpidhash t p]> (g_pidhash s)) p (<[t := p]> (tcb_pid s)).

Lemma wp_try n t s : table_ok s → t ≠ NULL → is_Some (tcb_pid s !! t) →
  wp (try_pids n t) (λ b s',
    if b : bool then ∃ p e, 1 ≤ p ≤ 32767 ∧ g_pidhash s !! Z.to_nat (PIDHASH p) = Some e ∧ tcb e = NULL ∧ s' = assigned t p s
    else s' = upd_lastpid (Nat.iter n next_pid (g_lastpid s)) s ∧
      ∀ k, (k < n)%nat → ∃ e, g_pidhash s !! Z.to_nat (PIDHASH (Nat.iter (S k) next_pid (g_lastpid s))) = Some e ∧ tcb e ≠ NULL) s.
Proof.
  intros HO Ht Hs. revert s HO Hs. induction n as [|n IH]; intros s HO Hs; cbn [try_pids].
  { rewrite wp_ret. split; [by destruct s|]. lia. }
  pose proof (to_last _ HO) as Hg. rewrite wp_bind, wp_modify, wp_bind, wp_gets, wp_bind.
  set (g := g_lastpid s) in *. set (p := next_pid g). set (s1 := upd_lastpid p s).
  assert (∀ (Q : Z → ptable → Prop), Q p s1 →
    wp (if g_lastpid (upd_lastpid (i16 (g + 1)) s) <=? 0 then modify (upd_lastpid 1) ;;; ret 1
        else ret (g_lastpid (upd_lastpid (i16 (g + 1)) s))) Q (upd_lastpid (i16 (g + 1)) s)) as Hnext.
  { intros Q HQ. cbn [g_lastpid upd_lastpid]. unfold s1, p, next_pid in HQ. destruct (Z.eqb_spec g 32767) as [->|N].
    - change (i16 (32767 + 1) <=? 0) with true. cbv iota. exact HQ.
    - rewrite i16_small by lia. rewrite (proj2 (Z.leb_gt _ _)) by lia. exact HQ. }
  apply Hnext. clear Hnext. pose proof (next_range g Hg) as Hp. fold p in Hp. pose proof (hash_bound p) as Hh.
  destruct (entry_at s (PIDHASH p) HO Hh) as [e Ee]. rewrite wp_bind, (wp_get_entry _ e) by (done || lia).
  destruct (Z.eqb_spec (tcb e) NULL) as [En|En].
  - rewrite wp_bind, (wp_set_entry _ e) by (done || lia). destruct Hs as [q Eq].
    rewrite wp_bind. unfold wp at 1, set_pid. simpl. rewrite Eq, wp_ret. exists p, e. split_and!; try done; lia.
  - assert (table_ok s1) as HO1 by (destruct HO as [? ? ? ?]; split; simpl; done || lia).
    assert (∀ k, Nat.iter (S k) next_pid g = Nat.iter k next_pid p) as Hit by (intros k; apply Nat.iter_succ_r).
    eapply wp_mono; [by apply (IH s1)|]. intros [|] s'; cbv iota; change (g_lastpid s1) with p; change (g_pidhash s1) with (g_pidhash s).
    + intros (q & e' & ? & ? & ? & ->). exists q, e'. done.
    + intros [-> Hall]. rewrite Hit. split; [done|]. intros [|k] Hk; rewrite Hit.
      * exists e. split; [exact Ee|exact En].
      * apply Hall. lia.
Qed.

(** ** What a new entry changes *)

Lemma tasks_neg s q : table_ok s → q < 0 → tasks s !! q = None.
Proof.
  intros HO Hq. apply eq_None_not_Some. intros [t Ht]. apply tasks_lookup in Ht as [Hn [j Ej]%list_elem_of_lookup]; [|done].
  pose proof (to_entry _ HO _ _ Ej) as Hj. unfold entry_ok in Hj. cbn [tcb pid] in Hj.
  rewrite (proj2 (Z.eqb_neq t NULL)) in Hj by done. lia.
Qed.

Lemma tasks_update s s' i e : table_ok s → table_ok s' → 0 ≤ i < 16 → g_pidhash s' = <[Z.to_nat i := e]> (g_pidhash s) →
  ∀ q, 0 ≤ q → tasks s' !! q =
    if PIDHASH q =? i then (if (tcb e =? NULL) || negb (pid e =? q) then None else Some (tcb e)) else tasks s !! q.
Proof.
  intros HO HO' Hi Eh q Hq. pose proof (hash_bound q) as Hb. destruct (Z.eqb_spec (PIDHASH q) i) as [<-|N].
  - apply tasks_entry; [done|done|]. rewrite Eh. apply list_lookup_insert_eq.
    destruct (entry_at s (PIDHASH q) HO Hb) as [e0 E0]. by eapply lookup_lt_Some.
  - destruct (entry_at s (PIDHASH q) HO Hb) as [e0 E0]. rewrite (tasks_entry s q e0), (tasks_entry s' q e0); try done.
    rewrite Eh, list_lookup_insert_ne by lia. done.
Qed.

Lemma tasks_range s p t : table_ok s → tasks s !! p = Some t →
  0 ≤ p ≤ 32767 ∧ t ≠ NULL ∧ tcb_pid s !! t = Some p ∧ g_pidhash s !! Z.to_nat (PIDHASH p) = Some (mkpidhash t p).
Proof.
  intros HO Ht. apply tasks_lookup in Ht as [Hn [j Ej]%list_elem_of_lookup]; [|done].
  pose proof (to_entry _ HO _ _ Ej) as Hj. unfold entry_ok in Hj. cbn [tcb pid] in Hj.
  rewrite (proj2 (Z.eqb_neq t NULL)) in Hj by done. destruct Hj as (? & Hh & ?). rewrite Hh, Nat2Z.id. done.
Qed.

(** An entry other than the first. *)
Lemma hash_first s p e : table_ok s → g_pidhash s !! Z.to_nat (PIDHASH p) = Some e → tcb e = NULL → PIDHASH p ≠ 0.
Proof. intros HO Ee En E0. rewrite E0 in Ee. by destruct (to_idle _ HO e). Qed.

Lemma assigned_ok t p s e : table_ok s → t ≠ NULL → (∀ q, tasks s !! q ≠ Some t) →
  1 ≤ p ≤ 32767 → g_pidhash s !! Z.to_nat (PIDHASH p) = Some e → tcb e = NULL →
  table_ok (assigned t p s) ∧ tasks s !! p = None ∧ tasks (assigned t p s) = <[p := t]> (tasks s).
Proof.
  intros HO Ht Hnew Hp Ee En. pose proof (hash_bound p) as Hb. pose proof (hash_first s p e HO Ee En) as H0.
  assert (tasks s !! p = None) as Hnone by (rewrite (tasks_entry s p e), En by (done || lia); done).
  assert (table_ok (assigned t p s)) as HO'.
  { pose proof HO as [H1 H2 H3 H4]. split; simpl; [by rewrite length_insert|lia| |].
    - intros i e' Ei. rewrite list_lookup_insert in Ei. unfold entry_ok. case_decide as Hd.
      + destruct Hd as [<- _]. injection Ei as <-. cbn [tcb pid]. rewrite (proj2 (Z.eqb_neq t NULL)) by done.
        rewrite lookup_insert_eq. split_and!; [lia|lia|lia|done].
      + specialize (H3 i e' Ei). unfold entry_ok in H3. destruct (Z.eqb_spec (tcb e') NULL) as [|Ne]; [done|].
        rewrite lookup_insert_ne; [done|]. intros Et. apply (Hnew (pid e')), tasks_lookup; [done|].
        rewrite Et. split; [done|]. replace (mkpidhash (tcb e') (pid e')) with e' by (by destruct e').
        by eapply list_elem_of_lookup_2.
    - intros e' E'. rewrite list_lookup_insert_ne in E' by lia. by apply H4. }
  split; [done|]. split; [done|]. apply map_eq. intros q. destruct (Z.lt_ge_cases q 0) as [Hq|Hq].
  { rewrite (tasks_neg _ _ HO' Hq), lookup_insert_ne by lia. symmetry. by apply tasks_neg. }
  rewrite (tasks_update s (assigned t p s) (PIDHASH p) (mkpidhash t p)) by done. cbn [tcb pid].
  rewrite (proj2 (Z.eqb_neq t NULL)) by done. cbn [orb].
  destruct (Z.eqb_spec p q) as [<-|Nq]; cbn [negb].
  - by rewrite Z.eqb_refl, lookup_insert_eq.
  - rewrite lookup_insert_ne by done. destruct (Z.eqb_spec (PIDHASH q) (PIDHASH p)) as [Eq|]; [|done].
    rewrite (tasks_entry s q e), En by (rewrite ?Eq; done). done.
Qed.

Definition released (p : Z) s : ptable :=
  upd_pidhash (<[Z.to_nat (PIDHASH p) := mkpidhash NULL INVALID_PROCESS_ID]> (g_pidhash s)) s.

Lemma released_ok p t s : table_ok s → p ≠ 0 → tasks s !! p = Some t →
  table_ok (released p s) ∧ tasks (released p s) = delete p (tasks s).
Proof.
  intros HO Hp Ht. destruct (tasks_range s p t HO Ht) as (Hr & Hn & _ & Ee). pose proof (hash_bound p) as Hb.
  assert (PIDHASH p ≠ 0) as H0 by (intros E0; rewrite E0 in Ee; by destruct (to_idle _ HO _ Ee)).
  assert (table_ok (released p s)) as HO'.
  { pose proof HO as [H1 H2 H3 H4]. split; simpl; [by rewrite length_insert|done| |].
    - intros i e' Ei. rewrite list_lookup_insert in Ei. case_decide as Hd; [|by apply H3]. by injection Ei as <-.
    - intros e' E'. rewrite list_lookup_insert_ne in E' by lia. by apply H4. }
  split; [done|]. apply map_eq. intros q. destruct (Z.lt_ge_cases q 0) as [Hq|Hq].
  { rewrite (tasks_neg _ _ HO' Hq), lookup_delete_ne by lia. symmetry. by apply tasks_neg. }
  rewrite (tasks_update s (released p s) (PIDHASH p) (mkpidhash NULL INVALID_PROCESS_ID)) by done. cbn [tcb pid].
  destruct (decide (p = q)) as [<-|Nq]; [by rewrite Z.eqb_refl, lookup_delete_eq|].
  rewrite lookup_delete_ne by done. destruct (Z.eqb_spec (PIDHASH q) (PIDHASH p)) as [Eq|]; [|done].
  rewrite (tasks_entry s q (mkpidhash t p)) by (rewrite ?Eq; done). cbn [tcb pid].
  rewrite (proj2 (Z.eqb_neq p q)) by done. simpl. by rewrite orb_true_r.
Qed.

(** ** How many *)

Lemma size_tasks s : table_ok s → size (tasks s) = length (used (g_pidhash s)).
Proof.
  intros HO. apply map_size_list_to_map. by apply used_nodup.
Qed.

Lemma used_length l : (length (used l) ≤ length l)%nat ∧
  (length (used l) = length l ↔ ∀ e, e ∈ l → tcb e ≠ NULL).
Proof.
  induction l as [|e l [IH1 IH2]]; [split; [done|]; split; [intros _ e He; by apply elem_of_nil in He|done]|].
  cbn [used omap list_omap]. fold (used l). destruct (Z.eqb_spec (tcb e) NULL) as [En|En]; simpl.
  - split; [lia|]. split; [lia|]. intros Ha. destruct (Ha e); [by apply elem_of_cons; left|done].
  - split; [lia|]. split.
    + intros El e'. rewrite elem_of_cons. intros [->|He]; [done|]. apply IH2; [lia|done].
    + intros Ha. f_equal. apply IH2. intros e' He. apply Ha, elem_of_cons. by right.
Qed.

Lemma size_full s : table_ok s →
  (size (tasks s) ≤ 16)%nat ∧ (size (tasks s) = 16%nat ↔ ∀ h e, 0 ≤ h < 16 → g_pidhash s !! Z.to_nat h = Some e → tcb e ≠ NULL).
Proof.
  intros HO. rewrite size_tasks by done. destruct (used_length (g_pidhash s)) as [H1 H2]. rewrite (to_len _ HO) in H1, H2.
  change CONFIG_MAX_TASKS with 16%nat in *. split; [done|]. rewrite H2. split.
  - intros Ha h e Hh E. apply Ha. by eapply list_elem_of_lookup_2.
  - intros Ha e [j Ej]%list_elem_of_lookup. apply (Ha (Z.of_nat j)); [|by rewrite Nat2Z.id].
    pose proof (lookup_lt_Some _ _ _ Ej) as Hj. rewrite (to_len _ HO) in Hj. change CONFIG_MAX_TASKS with 16%nat in Hj. lia.
Qed.

(** ** The calls *)

Inductive pid_op : Type :=
| Assign (t : Z)
| Release (t : Z)
| Find (p : Z).

Definition run_op (op : pid_op) : M ptable Z :=
  match op with
  | Assign t => task_assignpid t
  | Release t => release_tcb_pid t ;;; ret OK
  | Find p => sched_gettcb p
  end.

(** What they mean: a map from identifiers to tasks. *)
Definition spec_step (m : gmap Z Z) (op : pid_op) (r : Z) (m' : gmap Z Z) : Prop :=
  match op with
  | Assign t =>
      if bool_decide (size m = CONFIG_MAX_TASKS) then r = ERROR ∧ m' = m
      else r = OK ∧ ∃ p, m !! p = None ∧ 1 ≤ p ≤ 32767 ∧ m' = <[p := t]> m
  | Release t => r = OK ∧
      ((∃ p, m !! p = Some t ∧ m' = delete p m) ∨ m' = m ∧ ∀ p, p ≠ 0 → m !! p ≠ Some t)
  | Find p => m' = m ∧ r = default NULL (m !! p)
  end.

Section Kernel.
Context (idle : Z).

Definition lock_left (k : kernel) : Prop :=
  ∃ A, good idle k A ∧ (irq A = false → lock_of A (running A) < MAX_LOCK_COUNT).

Record pids_ok (s : ptable) : Prop := { ps_table : table_ok s; ps_kernel : lock_left (kern s) }.

(** A new task has a TCB of its own and no identifier yet; a task that is
    released is not the idle task, and has the identifier in its TCB. *)
Definition op_allowed (s : ptable) (op : pid_op) : Prop :=
  match op with
  | Assign t => t ≠ NULL ∧ is_Some (tcb_pid s !! t) ∧ ∀ p, tasks s !! p ≠ Some t
  | Release t => ∃ p, tcb_pid s !! t = Some p ∧ (p ≠ 0 → tasks s !! p = Some t)
  | Find _ => True
  end.

Lemma relock A : wf idle A → (irq A = false → lock_of A (running A) < MAX_LOCK_COUNT) →
  let B := unlock_call (lock_call A) in irq B = false → lock_of B (running B) < MAX_LOCK_COUNT.
Proof.
  intros Hwf HA. cbv zeta. unfold unlock_call, lock_call. destruct (irq A) eqn:Hi; [rewrite Hi; congruence|].
  cbn [irq change upd_tasks]. rewrite Hi. specialize (HA eq_refl). rewrite !running_change.
  set (B := change (running A) release _).
  assert (lock_of B (running A) = lock_of A (running A)) as EB.
  { unfold B, lock_of. rewrite !lookup_change, !decide_True by done. destruct (task_of A !! running A) as [a|] eqn:Ea; [|done].
    simpl. unfold release. cbn [lock with_lock]. pose proof (wf_lock _ _ Hwf _ _ Ea). rewrite (proj2 (Z.eqb_neq (lock a + 1) 0)) by lia. lia. }
  rewrite EB. destruct (Z.eqb_spec (lock_of A (running A)) 0) as [E0|N0]; [|intros _; change (running B) with (running A); by rewrite EB].
  intros _. assert (pending B = []) as EP by exact (wf_pending _ _ Hwf E0).
  assert (running (merge B) = running A) as ER by (by rewrite (merge_empty B EP)).
  rewrite ER. change (lock_of (merge B) (running A)) with (lock_of B (running A)). lia.
Qed.

Lemma table_kern k s : table_ok s → table_ok (mkptable k (g_pidhash s) (g_lastpid s) (tcb_pid s)).
Proof. intros []. by split. Qed.

Lemma wp_assignpid t s : pids_ok s → op_allowed s (Assign t) →
  wp (task_assignpid t) (λ r s', pids_ok s' ∧ spec_step (tasks s) (Assign t) r (tasks s')) s.
Proof.
  intros [HO (A & HG & HA)] (Ht & Hs & Hnew). unfold task_assignpid. rewrite wp_bind, wp_on_sched.
  eapply wp_mono; [by eapply sched_lock_spec|]. intros r k [-> HG1]. cbv beta. rewrite wp_bind.
  set (s1 := mkptable k _ _ _). assert (table_ok s1) as HO1 by by apply table_kern.
  eapply wp_mono; [by apply (wp_try CONFIG_MAX_TASKS t s1)|]. intros b s2 HT. cbv beta. rewrite wp_bind, wp_on_sched.
  assert (kern s2 = k) as -> by (destruct b; [destruct HT as (? & ? & _ & _ & _ & ->)|destruct HT as [-> _]]; done).
  eapply wp_mono; [by eapply sched_unlock_spec|]. intros o k' [_ HG2]. cbv beta. rewrite wp_ret.
  set (s3 := mkptable k' _ _ _).
  assert (lock_left k') as HL by (eexists; split; [exact HG2|]; apply relock; [apply HG|done]).
  destruct (size_full s HO) as [_ HF]. simpl. change (tasks s3) with (tasks s2). destruct b; cbv iota.
  - destruct HT as (p & e & Hp & Ee & En & ->). destruct (assigned_ok t p s1 e) as (HO2 & Hnone & Htasks); try done.
    split; [split; [by apply table_kern|done]|]. rewrite bool_decide_false.
    2: { intros Hsize. by eapply (proj1 HF Hsize (PIDHASH p) e (hash_bound p)). }
    split; [done|]. by exists p.
  - destruct HT as [-> Hall]. split.
    { split; [|done]. apply table_kern. pose proof (iter_range CONFIG_MAX_TASKS _ (to_last _ HO1)).
      destruct HO1 as [? ? ? ?]. by split. }
    rewrite bool_decide_true; [done|]. apply HF. intros h e Hh Ee. destruct (decide (h = 0)) as [->|Nh].
    { by destruct (to_idle _ HO e). }
    destruct (next_covers (g_lastpid s) h (to_last _ HO)) as (i & Hi & Eh); [lia|].
    destruct (Hall i Hi) as (e' & Ee' & Hn). change (g_lastpid s1) with (g_lastpid s) in Ee'. rewrite Eh in Ee'.
    change (g_pidhash s1) with (g_pidhash s) in Ee'. congruence.
Qed.

Lemma wp_gettcb p s : table_ok s → wp (sched_gettcb p) (λ r s', s' = s ∧ r = default NULL (tasks s !! p)) s.
Proof.
  intros HO. unfold sched_gettcb. destruct (Z.leb_spec 0 p) as [Hp|Hp].
  - destruct (entry_at s (PIDHASH p) HO (hash_bound p)) as [e Ee].
    rewrite wp_bind, (wp_get_entry _ e), wp_ret by (done || apply hash_bound). split; [done|].
    rewrite (tasks_entry s p e) by done. destruct (Z.eqb_spec p (pid e)) as [->|N].
    + rewrite Z.eqb_refl, orb_false_r. destruct (Z.eqb_spec (tcb e) NULL); done.
    + rewrite (proj2 (Z.eqb_neq (pid e) p)) by done. by rewrite orb_true_r.
  - rewrite wp_ret. split; [done|]. by rewrite tasks_neg.
Qed.

Lemma wp_release_pid t s : table_ok s → op_allowed s (Release t) →
  wp (release_tcb_pid t) (λ _ s', table_ok s' ∧ kern s' = kern s ∧ spec_step (tasks s) (Release t) OK (tasks s')) s.
Proof.
  intros HO (p & Ep & Hp). unfold release_tcb_pid. rewrite wp_bind. unfold wp at 1. rewrite Ep.
  apply (proj2 (wp_when _ _ _ _)). destruct (Z.eqb_spec p 0) as [->|N]; cbn [negb].
  - split; [done|]. split; [done|]. split; [done|]. right. split; [done|]. intros q Hq Et.
    destruct (tasks_range s q t HO Et) as (_ & _ & Eq & _). congruence.
  - specialize (Hp N). destruct (tasks_range s p t HO Hp) as (_ & _ & _ & Ee).
    unfold sched_releasepid. rewrite (wp_set_entry _ _ _ _ _ (proj1 (hash_bound p)) Ee).
    destruct (released_ok p t s HO N Hp) as [HO' Ht]. fold (released p s). split; [done|]. split; [done|].
    split; [done|]. left. exists p. done.
Qed.

Lemma wp_run_op op s : pids_ok s → op_allowed s op →
  wp (run_op op) (λ r s', pids_ok s' ∧ spec_step (tasks s) op r (tasks s')) s.
Proof.
  intros HP HA. destruct op as [t|t|p]; simpl.
  - by apply wp_assignpid.
  - rewrite wp_bind. eapply wp_mono; [by apply wp_release_pid, HA; apply HP|]. intros [] s' (HO & Ek & HS). rewrite wp_ret.
    split; [split; [done|]; rewrite Ek; apply HP|done].
  - eapply wp_mono; [by apply wp_gettcb, HP|]. intros r s' [-> ->]. done.
Qed.

(** ** Runs *)

Inductive runs (s : ptable) : list (pid_op * Z) → ptable → Prop :=
| runs_nil : runs s [] s
| runs_snoc l op r s1 s2 : runs s l s1 → op_allowed s1 op → run_op op s1 = Ok (r, s2) → runs s (l ++ [(op, r)]) s2.

Inductive spec_runs (m : gmap Z Z) : list (pid_op * Z) → gmap Z Z → Prop :=
| spec_runs_nil : spec_runs m [] m
| spec_runs_snoc l op r m1 m2 : spec_runs m l m1 → spec_step m1 op r m2 → spec_runs m (l ++ [(op, r)]) m2.

(** C15: The table of process identifiers refines a map from identifiers to
    tasks: in any sequence of creations, releases and searches, a new task gets
    an unused identifier between 1 and 32767 unless 16 tasks exist, also after
    the counter has wrapped around; a search finds exactly the task that has the
    identifier; and the next call is defined. *)
Theorem pid_table_refinement s l s' : pids_ok s → runs s l s' →
  spec_runs (tasks s) l (tasks s') ∧ ∀ op, op_allowed s' op → ∃ r s2, run_op op s' = Ok (r, s2).
Proof.
  intros HP HR. assert (spec_runs (tasks s) l (tasks s') ∧ pids_ok s') as [HS HP'].
  { induction HR as [|l op r s1 s2 HR IH HA E]; [split; [constructor|done]|]. destruct IH as [IH HP1].
    destruct (wp_ok_inv _ _ _ _ _ (wp_run_op op s1 HP1 HA) E) as [HP2 HS]. split; [by econstructor|done]. }
  split; [done|]. intros op HA. destruct (wp_run _ _ _ (wp_run_op op s' HP' HA)) as (r & s2 & E & _). eauto.
Qed.

End Kernel.

(** ** Visiting all tasks *)

Fixpoint run_all (handler : Z → M ptable unit) (ts : list Z) : M ptable unit :=
  match ts with
  | [] => ret tt
  | t :: ts => handler t ;;; run_all handler ts
  end.

Lemma bind_ok {S A B} (m : M S A) (k : A → M S B) s a s' : m s = Ok (a, s') → (x <-- m ;; k x) s = k a s'.
Proof. unfold bind. by intros ->. Qed.

(** [sched_foreach] calls the handler once for each task in the table, in the
    order of the entries. *)
Theorem foreach_visits_all handler s : length (g_pidhash s) = CONFIG_MAX_TASKS →
  (∀ t s1 s2, handler t s1 = Ok (tt, s2) → g_pidhash s2 = g_pidhash s1) →
  sched_foreach handler s = run_all handler (used (g_pidhash s)).*2 s.
Proof.
  intros Hlen Hh. unfold sched_foreach. rewrite <- Hlen. change (0 : Z) with (Z.of_nat 0).
  assert (∀ n i s1, g_pidhash s1 = g_pidhash s → (n + i = length (g_pidhash s))%nat →
    foreach_loop n (Z.of_nat i) handler s1 = run_all handler (used (drop i (g_pidhash s))).*2 s1) as Hloop.
  2: { rewrite (Hloop (length (g_pidhash s)) 0%nat s) by (done || lia). by rewrite drop_0. }
  induction n as [|n IH]; intros i s1 Es Hn; [by rewrite drop_ge by lia|].
  destruct (lookup_lt_is_Some_2 (g_pidhash s) i) as [e Ee]; [lia|]. cbn [foreach_loop].
  rewrite (bind_ok _ _ _ e s1).
  2: { unfold get_entry. rewrite (proj2 (Z.ltb_ge _ _)), Nat2Z.id, Es, Ee by lia. done. }
  rewrite (drop_S _ e) by done. cbn [used omap list_omap]. fold (used (drop (S i) (g_pidhash s))).
  replace (Z.of_nat i + 1) with (Z.of_nat (S i)) by lia. destruct (tcb e =? NULL); cbn [negb when].
  - unfold bind at 1, ret at 1. cbn [res_bind]. by apply IH; [|lia].
  - cbn [fmap list_fmap snd run_all]. unfold bind. destruct (handler (tcb e) s1) as [[[] s2]|u] eqn:Eh; [|done].
    simpl. apply IH; [|lia]. rewrite <- Es. by eapply Hh.
Qed.

Lemma spec_runs_one m op r m' : spec_runs m [(op, r)] m' → spec_step m op r m'.
Proof.
  intros HS. inversion HS as [|l op' r' m1 m2 H1 H2 El Em]. subst. apply (app_inj_tail l [] _ (op, r)) in El as [-> [= <- <-]].
  inversion H1 as [|l' op2 r2 m3 m4 H3 H4 El E5]; [done|]. by apply app_nil in El as [_ ?].
Qed.

(** ** Instance: the system after start-up *)

Definition pids0 : ptable :=
  first_pids (Kernel.kern Runs.boot_sys) Runs.idle_tcb {[ Runs.main_tcb := 0; Runs.server_tcb := 0 ]}.

Lemma pids0_ok : pids_ok Runs.idle_tcb pids0.
Proof.
  split.
  - split; [done|done| |].
    + intros i e E. do 16 (destruct i as [|i]; [injection E as <-; by repeat split|]). discriminate E.
    + intros e [= <-]. done.
  - pose proof (Kernel.sk_kernel _ _ _ Runs.boot_sys_ok) as HK. eexists. split; [apply HK|]. intros _. by vm_compute.
Qed.

Lemma pid_table_refinement_witness : ∃ r s' p, runs pids0 [(Assign Runs.main_tcb, r)] s' ∧ r = OK ∧ tasks s' !! p = Some Runs.main_tcb.
Proof.
  assert (op_allowed pids0 (Assign Runs.main_tcb)) as HA.
  { split; [discriminate|]. split; [eexists; reflexivity|]. intros p Hp. apply tasks_lookup in Hp; [|apply pids0_ok].
    destruct Hp as [_ Hp]. vm_compute in Hp. repeat (apply elem_of_cons in Hp as [Hp|Hp]; [discriminate Hp|]). by apply elem_of_nil in Hp. }
  destruct (run_op (Assign Runs.main_tcb) pids0) as [[r s']|] eqn:E; [|vm_compute in E; discriminate E].
  assert (runs pids0 ([] ++ [(Assign Runs.main_tcb, r)]) s') as HR by (eapply runs_snoc; [apply runs_nil|exact HA|exact E]).
  destruct (pid_table_refinement Runs.idle_tcb pids0 _ s' pids0_ok HR) as [HS _].
  apply spec_runs_one in HS as H2. unfold spec_step in H2. rewrite bool_decide_false in H2 by (vm_compute; discriminate).
  destruct H2 as (-> & p & _ & _ & Em2). exists OK, s', p. split; [exact HR|]. split; [reflexivity|].
  rewrite Em2. apply lookup_insert_eq.
Defined.

End Pids.
