(* ===== verification/Timeout.v ===== *)
(** * The end of a semaphore wait by a timer

    Models [sem_timeout] of [sched/semaphore/sem_timedwait.c], the function that
    the watchdog of a timed wait calls: it gets the identifier of the waiting
    task, finds the task in the table of [Pids] and cancels its wait in [Sem]. *)

From S2P Require Import Prelude Queue Sched SchedRep SchedSpec Sem Kernel Runs Pids.

Module Timeout.
Export Pids.
#[local] Open Scope cmd_scope.

Definition ETIMEDOUT : Z := 110.

Definition sem_timeout (pid : Z) : M ptable unit :=
  wtcb <-- sched_gettcb (i16 pid) ;;
  when (negb (wtcb =? NULL))
    (t <-- on_kern (get wtcb) ;;
     when (bool_decide (task_state t = TSTATE_WAIT_SEM)) (on_kern (sem_waitirq wtcb ETIMEDOUT))).

(** What it means: the task with the identifier, if it waits for a semaphore,
    stops waiting with the error [ETIMEDOUT]. *)
Definition timed_out (s : ptable) (pid : Z) (A : abs) : abs :=
  match tasks s !! i16 pid with
  | Some t => if bool_decide (t ∈ waiting A) then sem_cancel_call t ETIMEDOUT A else A
  | None => A
  end.

Section Kernel.
Context (idle : Z).

(** Only the task that the identifier belongs to at the time of the timeout is
    affected; an identifier that is not in use any more, or whose task does not
    wait any more, changes nothing. *)
Theorem sem_timeout_cancels s pid A : table_ok s → kernel_ok idle (kern s) A →
  (∀ p t, tasks s !! p = Some t → is_Some (task_of A !! t)) → (∀ t, t ∈ waiting A → wsem_of A t ≠ NULL) →
  ∃ s', sem_timeout pid s = Ok (tt, s') ∧ kernel_ok idle (kern s') (timed_out s pid A) ∧
    g_pidhash s' = g_pidhash s ∧ g_lastpid s' = g_lastpid s ∧ tcb_pid s' = tcb_pid s.
Proof.
  intros HO HK Hex Hw.
  assert (wp (sem_timeout pid) (λ _ s', kernel_ok idle (kern s') (timed_out s pid A) ∧
    g_pidhash s' = g_pidhash s ∧ g_lastpid s' = g_lastpid s ∧ tcb_pid s' = tcb_pid s) s) as HW.
  2: { destruct (wp_run _ _ _ HW) as ([] & s' & E & H). eauto. }
  unfold sem_timeout, timed_out. rewrite wp_bind. eapply wp_mono; [by apply wp_gettcb|]. intros t s1 [-> ->].
  apply (proj2 (wp_when _ _ _ _)). destruct (tasks s !! i16 pid) as [t|] eqn:Et; simpl; [|done].
  destruct (tasks_range s _ t HO Et) as (_ & Hn & _). rewrite (proj2 (Z.eqb_neq t NULL)) by done. cbn [negb].
  destruct (Hex _ _ Et) as [a Ea]. pose proof HK as [G _]. destruct (rep_task (proj1 G) t a Ea) as (Nt & x & Ex & _).
  rewrite wp_bind, wp_on_sched. erewrite wp_get_tcb by done. apply (proj2 (wp_when _ _ _ _)).
  cbn [task_state as_tcb]. rewrite (waitirq_state idle (kern s) A t a G Ea). case_bool_decide as Hwt; [|by destruct s].
  rewrite wp_on_sched. eapply wp_mono; [by apply (sem_waitirq_spec idle _ A); eauto|].
  intros [] k HK'. rewrite bool_decide_true in HK' by done. done.
Qed.

End Kernel.
End Timeout.
