(* ===== verification/Inode.v ===== *)
(** * The inode tree

    Models [fs/inode] and [fs/driver/fs_registerdriver.c]: the tree of names in
    which drivers are registered.  An inode is linked to its next sibling and
    to its first child; siblings are ordered by name.  Paths are strings, lists
    of character codes without the final NUL; a [char *] into a path is the
    rest of the path from there on.

    Memory for inodes comes from an allocator, through the interface [Kmm]; what
    it promises is [KmmLaws], which the memory manager keeps (KmmHeap.v). *)

From S2P Require Import Prelude Queue.

Module Inode.
#[local] Open Scope cmd_scope.

Definition OK : Z := 0.
Definition ENOENT : Z := 2.
Definition ENOMEM : Z := 12.
Definition EBUSY : Z := 16.
Definition EEXIST : Z := 17.
Definition EINVAL : Z := 22.

(** ** The allocator *)

Class Kmm (H : Type) : Type := {
  kmm_zalloc : Z → M H Z;
  kmm_free : Z → M H unit
}.

(** [kmm_ok h L]: the blocks of [h] that are in use start at the addresses [L]. *)
Class KmmLaws (H : Type) `{Kmm H} : Type := {
  kmm_ok : H → gset Z → Prop;
  kmm_zalloc_spec n h L : kmm_ok h L → 1 ≤ n < 2 ^ 31 →
    wp (kmm_zalloc n) (λ p h', p = NULL ∧ kmm_ok h' L
      ∨ p ≠ NULL ∧ ¬ (p ∈ L) ∧ kmm_ok h' ({[ p ]} ∪ L)) h;
  kmm_free_spec p h L : kmm_ok h L → p ∈ L → p ≠ NULL →
    wp (kmm_free p) (λ _ h', kmm_ok h' (L ∖ {[ p ]})) h
}.

(** ** Data *)

Definition FSNODEFLAG_TYPE_MASK : Z := 7.
Definition FSNODEFLAG_TYPE_DRIVER : Z := 0.
Definition FSNODEFLAG_TYPE_MOUNTPT : Z := 2.
Definition FSNODEFLAG_DELETED : Z := 8.

Record inode : Type := mkinode {
  i_peer : Z;
  i_child : Z;
  i_crefs : Z;
  i_flags : Z;
  i_ops : Z;
  i_private : Z;
  i_name : list Z
}.

Definition set_i_peer v n := mkinode v (i_child n) (i_crefs n) (i_flags n) (i_ops n) (i_private n) (i_name n).
Definition set_i_child v n := mkinode (i_peer n) v (i_crefs n) (i_flags n) (i_ops n) (i_private n) (i_name n).
Definition set_i_crefs v n := mkinode (i_peer n) (i_child n) v (i_flags n) (i_ops n) (i_private n) (i_name n).
Definition set_i_flags v n := mkinode (i_peer n) (i_child n) (i_crefs n) v (i_ops n) (i_private n) (i_name n).
Definition set_i_ops v n := mkinode (i_peer n) (i_child n) (i_crefs n) (i_flags n) v (i_private n) (i_name n).
Definition set_i_private v n := mkinode (i_peer n) (i_child n) (i_crefs n) (i_flags n) (i_ops n) v (i_name n).

Definition FSNODE_SIZE (n : Z) : Z := 24 + n.
Definition INODE_IS_TYPE (n : inode) (t : Z) : bool := Z.land (i_flags n) FSNODEFLAG_TYPE_MASK =? t.
Definition INODE_IS_DRIVER (n : inode) : bool := INODE_IS_TYPE n FSNODEFLAG_TYPE_DRIVER.
Definition INODE_IS_MOUNTPT (n : inode) : bool := INODE_IS_TYPE n FSNODEFLAG_TYPE_MOUNTPT.
Definition INODE_SET_TYPE (t : Z) (n : inode) : inode :=
  set_i_flags (Z.lor (Z.ldiff (i_flags n) FSNODEFLAG_TYPE_MASK) t) n.
Definition INODE_SET_DRIVER : inode → inode := INODE_SET_TYPE FSNODEFLAG_TYPE_DRIVER.

(** The re-entrant lock of the tree. *)
Record inode_sem_s : Type := mkisem { sem : Z; holder : Z; count : Z }.
Definition NO_HOLDER : Z := -1.

Record fsys (H : Type) : Type := mkfsys {
  inodes : gmap Z inode;
  root_inode : Z;
  g_inode_sem : inode_sem_s;
  kmm : H
}.
Arguments mkfsys {H}.
Arguments inodes {H}.
Arguments root_inode {H}.
Arguments g_inode_sem {H}.
Arguments kmm {H}.

Definition upd_inodes {H} v (s : fsys H) := mkfsys v (root_inode s) (g_inode_sem s) (kmm s).
Definition upd_root {H} v (s : fsys H) := mkfsys (inodes s) v (g_inode_sem s) (kmm s).
Definition upd_isem {H} v (s : fsys H) := mkfsys (inodes s) (root_inode s) v (kmm s).
Definition upd_kmm {H} (v : H) (s : fsys H) := mkfsys (inodes s) (root_inode s) (g_inode_sem s) v.

(** ** Names *)

Definition SLASH : Z := 47.

(** At the NUL or at a slash. *)
Definition at_end (name : list Z) : bool :=
  match name with [] => true | c :: _ => c =? SLASH end.

Fixpoint inode_compare (fname nname : list Z) : Z :=
  match nname, fname with
  | [], _ => if at_end fname then 0 else 1
  | _ :: _, [] => -1
  | n :: nname, f :: fname =>
      if f =? SLASH then -1
      else if n <? f then 1
      else if f <? n then -1
      else inode_compare fname nname
  end.

Fixpoint skip_segment (name : list Z) : list Z :=
  if at_end name then name
  else match name with [] => [] | _ :: name => skip_segment name end.
Definition inode_nextname (name : list Z) : list Z := drop 1 (skip_segment name).

Fixpoint inode_namecpy (src : list Z) : list Z :=
  if at_end src then []
  else match src with [] => [] | c :: src => c :: inode_namecpy src end.
Definition inode_namelen (name : list Z) : Z := Z.of_nat (length (inode_namecpy name)).

(** [inode_basename]; the pointer it returns, [None] for NULL. *)
Fixpoint inode_basename (fuel : nat) (name : list Z) : res (option (list Z)) :=
  let name := inode_nextname name in
  match name with
  | [] => Ok None
  | _ => match fuel with O => Undef NoFuel | S fuel => inode_basename fuel name end
  end.

Section Code.
Context {H : Type} `{Kmm H} (getpid : Z).

Definition on_inodes {A} (m : M (gmap Z inode) A) : M (fsys H) A := λ s,
  res_bind (m (inodes s)) (λ '(a, v), Ok (a, upd_inodes v s)).
Definition on_kmm {A} (m : M H A) : M (fsys H) A := λ s,
  res_bind (m (kmm s)) (λ '(a, v), Ok (a, upd_kmm v s)).
Definition get (p : Z) : M (fsys H) inode := on_inodes (deref p).
Definition set (p : Z) (f : inode → inode) : M (fsys H) unit := on_inodes (assign p f).

(** ** The lock *)

Definition inode_semtake : M (fsys H) unit :=
  s <-- gets g_inode_sem ;;
  if getpid =? holder s then
    let c := i16 (count s + 1) in
    modify (upd_isem (mkisem (sem s) (holder s) c)) ;;;
    assert_ (0 <? c)
  else
    (if 0 <? sem s then ret tt else fail_ub Blocked) ;;;
    modify (upd_isem (mkisem (sem s - 1) getpid 1)).

Definition inode_semgive : M (fsys H) unit :=
  s <-- gets g_inode_sem ;;
  assert_ (holder s =? getpid) ;;;
  if 1 <? count s then modify (upd_isem (mkisem (sem s) (holder s) (i16 (count s - 1))))
  else modify (upd_isem (mkisem (sem s + 1) NO_HOLDER 0)).

(** [inode_initialize]: the lock is free and the tree is empty. *)
Definition inode_initialize : M (fsys H) unit := modify (upd_isem (mkisem 1 NO_HOLDER 0)).

(** ** Searching *)

(** What [inode_search] returns: the node, and through its pointers the rest of
    the path, the left neighbour, the parent, and the path relative to the
    node, which is only stored when there is one. *)
Record found : Type := mkfound {
  f_node : Z; f_name : list Z; f_peer : Z; f_parent : Z; f_relpath : option (list Z)
}.

Fixpoint search_loop (fuel : nat) (name : list Z) (node left above : Z) : M (fsys H) found :=
  if node =? NULL then ret (mkfound NULL name left above None)
  else
    n <-- get node ;;
    let result := inode_compare name (i_name n) in
    if result <? 0 then ret (mkfound NULL name left above None)
    else if 0 <? result then
      match fuel with
      | O => fail_ub NoFuel
      | S fuel => search_loop fuel name (i_peer n) node above
      end
    else
      let name := inode_nextname name in
      if bool_decide (name = []) || INODE_IS_MOUNTPT n then ret (mkfound node name left above (Some name))
      else
        match fuel with
        | O => fail_ub NoFuel
        | S fuel => search_loop fuel name (i_child n) NULL node
        end.

Definition inode_search (path : list Z) : M (fsys H) found :=
  root <-- gets root_inode ;;
  n <-- gets (λ s, size (inodes s)) ;;
  search_loop n (drop 1 path) root NULL NULL.

(** A path that names something in the tree. *)
Definition is_absolute (path : list Z) : bool :=
  match path with c :: _ => c =? SLASH | [] => false end.

(** ** Creating *)

Definition inode_alloc (name : list Z) : M (fsys H) Z :=
  node <-- on_kmm (kmm_zalloc (FSNODE_SIZE (inode_namelen name))) ;;
  when (negb (node =? NULL))
    (modify (λ s, upd_inodes (<[node := mkinode NULL NULL 0 0 NULL NULL (inode_namecpy name)]> (inodes s)) s)) ;;;
  ret node.

Definition inode_insert (node peer parent : Z) : M (fsys H) unit :=
  if negb (peer =? NULL) then
    p <-- get peer ;;
    set node (set_i_peer (i_peer p)) ;;;
    set peer (set_i_peer node)
  else if negb (parent =? NULL) then
    p <-- get parent ;;
    set node (set_i_peer (i_child p)) ;;;
    set parent (set_i_child node)
  else
    r <-- gets root_inode ;;
    set node (set_i_peer r) ;;;
    modify (upd_root node).

(** The loop of [inode_reserve]; the result and [*inode]. *)
Fixpoint reserve_loop (fuel : nat) (name : list Z) (left parent : Z) : M (fsys H) (Z * Z) :=
  let next_name := inode_nextname name in
  node <-- inode_alloc name ;;
  if negb (node =? NULL) then
    inode_insert node left parent ;;;
    match next_name with
    | [] => ret (OK, node)
    | _ =>
        match fuel with
        | O => fail_ub NoFuel
        | S fuel => reserve_loop fuel next_name NULL node
        end
    end
  else ret (- ENOMEM, NULL).

Definition inode_reserve (path : list Z) : M (fsys H) (Z * Z) :=
  if negb (is_absolute path) then ret (- EINVAL, NULL)
  else
    f <-- inode_search path ;;
    if negb (f_node f =? NULL) then ret (- EEXIST, NULL)
    else reserve_loop (length path) (f_name f) (f_peer f) (f_parent f).

(** ** Removing *)

Definition release_node (node : Z) : M (fsys H) unit :=
  on_kmm (kmm_free node) ;;; modify (λ s, upd_inodes (delete node (inodes s)) s).

Fixpoint inode_free (fuel : nat) (node : Z) : M (fsys H) unit :=
  when (negb (node =? NULL))
    match fuel with
    | O => fail_ub NoFuel
    | S fuel =>
        n <-- get node ;; inode_free fuel (i_peer n) ;;;
        n <-- get node ;; inode_free fuel (i_child n) ;;;
        release_node node
    end.

(** The node and everything below it. *)
Definition free_subtree (node : Z) : M (fsys H) unit :=
  n <-- get node ;;
  k <-- gets (λ s, size (inodes s)) ;;
  inode_free k (i_child n) ;;;
  release_node node.

Definition inode_unlink (path : list Z) : M (fsys H) Z :=
  if negb (is_absolute path) then ret NULL
  else
    f <-- inode_search path ;;
    let node := f_node f in
    when (negb (node =? NULL))
      (n <-- get node ;;
       (if negb (f_peer f =? NULL) then set (f_peer f) (set_i_peer (i_peer n))
        else if negb (f_parent f =? NULL) then set (f_parent f) (set_i_child (i_peer n))
        else modify (upd_root (i_peer n))) ;;;
       set node (set_i_peer NULL)) ;;;
    ret node.

Definition inode_remove (path : list Z) : M (fsys H) Z :=
  node <-- inode_unlink path ;;
  if negb (node =? NULL) then
    n <-- get node ;;
    if negb (i_crefs n =? 0) then
      set node (λ n, set_i_flags (Z.lor (i_flags n) FSNODEFLAG_DELETED) n) ;;;
      ret (- EBUSY)
    else free_subtree node ;;; ret OK
  else ret (- ENOENT).

(** ** References *)

(** The node and [*relpath]. *)
Definition inode_find (path : list Z) : M (fsys H) (Z * option (list Z)) :=
  if negb (is_absolute path) then ret (NULL, None)
  else
    inode_semtake ;;;
    f <-- inode_search path ;;
    when (negb (f_node f =? NULL)) (set (f_node f) (λ n, set_i_crefs (i16 (i_crefs n + 1)) n)) ;;;
    inode_semgive ;;;
    ret (f_node f, f_relpath f).

Definition inode_addref (node : Z) : M (fsys H) unit :=
  when (negb (node =? NULL))
    (inode_semtake ;;;
     set node (λ n, set_i_crefs (i16 (i_crefs n + 1)) n) ;;;
     inode_semgive).

Definition inode_release (node : Z) : M (fsys H) unit :=
  when (negb (node =? NULL))
    (inode_semtake ;;;
     n <-- get node ;;
     when (negb (i_crefs n =? 0)) (set node (set_i_crefs (i16 (i_crefs n - 1)))) ;;;
     n <-- get node ;;
     if (i_crefs n <=? 0) && negb (Z.land (i_flags n) FSNODEFLAG_DELETED =? 0) then
       inode_semgive ;;; free_subtree node
     else inode_semgive).

(** ** Drivers *)

Definition register_driver (path : list Z) (fops priv : Z) : M (fsys H) Z :=
  inode_semtake ;;;
  x <-- inode_reserve path ;;
  let r := fst x in
  let node := snd x in
  r <-- (if 0 <=? r then
           set node INODE_SET_DRIVER ;;;
           set node (set_i_ops fops) ;;;
           set node (set_i_private priv) ;;;
           ret OK
         else ret r) ;;
  inode_semgive ;;;
  ret r.

Definition unregister_driver (path : list Z) : M (fsys H) Z :=
  inode_semtake ;;;
  r <-- inode_remove path ;;
  inode_semgive ;;;
  ret r.

End Code.
End Inode.
