(* ===== verification/InodeTree.v ===== *)
(** * The inode tree as a tree

    The names of a path, the tree that the inodes represent, and what a search,
    an insertion and a removal do to it.  A [forest] has the shape of the links:
    a node with its children and the siblings to its right. *)

From S2P Require Import Prelude Queue Inode.

Module InodeTree.
Export Inode.
#[local] Open Scope cmd_scope.

(** ** Names *)

Definition name : Type := list Z.

(** Names without a slash, in lexicographic order. *)
Fixpoint name_cmp (x y : name) : comparison :=
  match x, y with
  | [], [] => Eq
  | [], _ :: _ => Lt
  | _ :: _, [] => Gt
  | a :: x, b :: y => match a ?= b with Eq => name_cmp x y | c => c end
  end.

Definition plain (x : name) : Prop := SLASH ∉ x.

Lemma name_cmp_eq x y : name_cmp x y = Eq ↔ x = y.
Proof.
  revert y. induction x as [|a x IH]; intros [|b y]; simpl; try done.
  destruct (Z.compare_spec a b) as [->|Hlt|Hgt].
  - rewrite IH. naive_solver.
  - split; [done|]. intros [= ->]. lia.
  - split; [done|]. intros [= ->]. lia.
Qed.

Lemma name_cmp_refl x : name_cmp x x = Eq.
Proof. by apply name_cmp_eq. Qed.

Lemma name_cmp_opp x y : name_cmp y x = CompOpp (name_cmp x y).
Proof.
  revert y. induction x as [|a x IH]; intros [|b y]; simpl; try done.
  rewrite (Z.compare_antisym a b). destruct (a ?= b); simpl; [apply IH|done|done].
Qed.

Lemma name_cmp_trans x y z : name_cmp x y = Lt → name_cmp y z = Lt → name_cmp x z = Lt.
Proof.
  revert y z. induction x as [|a x IH]; intros [|b y] [|c z]; simpl; try done.
  destruct (Z.compare_spec a b) as [->|H1|H1]; try done;
    destruct (Z.compare_spec b c) as [->|H2|H2]; try done.
  - apply IH.
  - by rewrite (proj2 (Z.compare_lt_iff _ _)) by lia.
  - by rewrite (proj2 (Z.compare_lt_iff _ _)) by lia.
Qed.

Lemma namecpy_plain x : plain (inode_namecpy x).
Proof.
  unfold plain. induction x as [|c x IH]; simpl; [set_solver|].
  destruct (Z.eqb_spec c SLASH); [set_solver|]. rewrite not_elem_of_cons. done.
Qed.

Lemma namecpy_id x : plain x → inode_namecpy x = x.
Proof.
  unfold plain. induction x as [|c x IH]; simpl; [done|]. rewrite not_elem_of_cons. intros [N Hx].
  rewrite (proj2 (Z.eqb_neq _ _)) by done. by rewrite IH.
Qed.

(** The comparison of the code looks at the first name of the path. *)
Lemma inode_compare_spec f n :
  plain n →
  inode_compare f n = match name_cmp (inode_namecpy f) n with Lt => -1 | Eq => 0 | Gt => 1 end.
Proof.
  unfold plain. revert f. induction n as [|b n IH]; intros f Hn.
  - destruct f as [|a f]; simpl; [done|]. by destruct (a =? SLASH).
  - apply not_elem_of_cons in Hn as [Nb Hn]. destruct f as [|a f]; simpl; [done|].
    destruct (Z.eqb_spec a SLASH) as [->|Na]; simpl; [done|]. rewrite IH by done.
    destruct (Z.compare_spec a b) as [->|Hlt|Hgt].
    + by rewrite Z.ltb_irrefl.
    + rewrite (proj2 (Z.ltb_ge _ _)), (proj2 (Z.ltb_lt _ _)) by lia. done.
    + rewrite (proj2 (Z.ltb_lt b a)) by lia. done.
Qed.

(** *** The names of a path

    A slash at the end does not start another name. *)
Fixpoint segs (path : list Z) : list name :=
  match path with
  | [] => [[]]
  | c :: r =>
      if c =? SLASH then match r with [] => [[]] | _ => [] :: segs r end
      else match segs r with s :: ss => (c :: s) :: ss | [] => [[c]] end
  end.

Lemma segs_cons x : ∃ s ss, segs x = s :: ss.
Proof.
  induction x as [|c x (s & ss & E)]; simpl; [eauto|].
  destruct (c =? SLASH); [destruct x; eauto|rewrite E; eauto].
Qed.

(** The names after the first. *)
Definition rest_segs (x : list Z) : list name := match x with [] => [] | _ => segs x end.

Lemma segs_step x : segs x = inode_namecpy x :: rest_segs (inode_nextname x).
Proof.
  unfold inode_nextname. induction x as [|c x IH]; [done|]. cbn [segs skip_segment inode_namecpy at_end].
  destruct (c =? SLASH); [by destruct x|]. rewrite IH. done.
Qed.

Lemma nextname_length x : inode_nextname x ≠ [] → (length (inode_nextname x) < length x)%nat.
Proof.
  unfold inode_nextname. induction x as [|c x IH]; [done|]. cbn [skip_segment at_end].
  destruct (c =? SLASH); simpl; [rewrite drop_0; lia|]. intros H. specialize (IH H). lia.
Qed.

(** The names below the root of an absolute path. *)
Definition path_of (path : list Z) : list name := segs (drop 1 path).

(** ** Trees *)

Record info : Type := mkinfo { crefs : Z; flags : Z; ops : Z; priv : Z; nm : name }.

Definition with_crefs v i := mkinfo v (flags i) (ops i) (priv i) (nm i).
Definition with_flags v i := mkinfo (crefs i) v (ops i) (priv i) (nm i).

Inductive forest : Type :=
| FNil
| FCons (a : Z) (i : info) (c r : forest).

Definition node_of (i : info) (child peer : Z) : inode :=
  mkinode peer child (crefs i) (flags i) (ops i) (priv i) (nm i).

Definition mountpt (i : info) : bool := Z.land (flags i) FSNODEFLAG_TYPE_MASK =? FSNODEFLAG_TYPE_MOUNTPT.

Fixpoint addrs (f : forest) : list Z :=
  match f with FNil => [] | FCons a i c r => a :: addrs c ++ addrs r end.

(** [f] is what the links from [p] lead to. *)
Fixpoint trep (m : gmap Z inode) (p : Z) (f : forest) : Prop :=
  match f with
  | FNil => p = NULL
  | FCons a i c r => p = a ∧ a ≠ NULL ∧ ∃ x y, m !! a = Some (node_of i x y) ∧ trep m x c ∧ trep m y r
  end.

(** Siblings are ordered by name. *)
Definition after (x : name) (f : forest) : Prop :=
  match f with FNil => True | FCons _ i _ _ => name_cmp x (nm i) = Lt end.
Fixpoint sorted (f : forest) : Prop :=
  match f with
  | FNil => True
  | FCons a i c r => plain (nm i) ∧ sorted c ∧ sorted r ∧ after (nm i) r
  end.

Lemma trep_frame m m' p f :
  trep m p f → (∀ a, a ∈ addrs f → m' !! a = m !! a) → trep m' p f.
Proof.
  revert p. induction f as [|a i c IHc r IHr]; intros p; simpl; [done|].
  intros (-> & Ha & x & y & E & Hc & Hr) HF. split_and!; [done|done|]. exists x, y.
  rewrite HF by set_solver. split_and!; [done| |]; [apply IHc|apply IHr]; try done; intros b Hb; apply HF; set_solver.
Qed.

Lemma trep_addrs m p f a : trep m p f → a ∈ addrs f → a ≠ NULL ∧ ∃ n, m !! a = Some n.
Proof.
  revert p. induction f as [|b i c IHc r IHr]; intros p; simpl; [set_solver|].
  intros (-> & Hb & x & y & E & Hc & Hr). rewrite elem_of_cons, elem_of_app. intros [->|[Ha|Ha]]; eauto.
Qed.

(** ** Places in the tree

    The link that a search ends at: the field of a node, or [root_inode]. *)
Inductive pos : Type := Peer (a : Z) | Child (a : Z).
#[global] Instance pos_eq_dec : EqDecision pos.
Proof. solve_decision. Defined.

Definition pos_addr (p : pos) : Z := match p with Peer a | Child a => a end.

(** The search stops at a node of the right name when the path ends there or
    the node is a mountpoint. *)
Definition stops (rest : list name) (i : info) : bool := bool_decide (rest = []) || mountpt i.

(** Where the search for [ss] ends: the last link followed, the nodes from
    there on, and the names that are left. *)
Fixpoint hole (f : forest) (ss : list name) : option pos * forest * list name :=
  match f, ss with
  | FCons a i c r, s :: rest =>
      match name_cmp s (nm i) with
      | Lt => (None, f, ss)
      | Gt => let '(o, f', ss') := hole r ss in (Some (default (Peer a) o), f', ss')
      | Eq => if stops rest i then (None, f, ss)
              else let '(o, f', ss') := hole c rest in (Some (default (Child a) o), f', ss')
      end
  | _, _ => (None, f, ss)
  end.

(** The tree with other nodes at that place. *)
Fixpoint plug (f : forest) (ss : list name) (g : forest) : forest :=
  match f, ss with
  | FCons a i c r, s :: rest =>
      match name_cmp s (nm i) with
      | Lt => g
      | Gt => FCons a i c (plug r ss g)
      | Eq => if stops rest i then g else FCons a i (plug c rest g) r
      end
  | _, _ => g
  end.

(** What the search finds: a node, and the names that it leaves to the node. *)
Fixpoint find (f : forest) (ss : list name) : option (Z * info * list name) :=
  match f, ss with
  | FCons a i c r, s :: rest =>
      match name_cmp s (nm i) with
      | Lt => None
      | Gt => find r ss
      | Eq => if stops rest i then Some (a, i, rest) else find c rest
      end
  | _, _ => None
  end.

Lemma find_hole f ss :
  find f ss = match hole f ss with
              | (_, FCons a i _ _, s :: rest) =>
                  match name_cmp s (nm i) with Eq => Some (a, i, rest) | _ => None end
              | _ => None
              end.
Proof.
  revert ss. induction f as [|a i c IHc r IHr]; intros [|s rest]; simpl; try done.
  destruct (name_cmp s (nm i)) eqn:E; [|by rewrite E|].
  - destruct (stops rest i); [by rewrite E|]. rewrite IHc. by destruct (hole c rest) as [[??]?].
  - rewrite IHr. by destruct (hole r (s :: rest)) as [[??]?].
Qed.

(** The nodes off the place, which plugging keeps. *)
Lemma plug_addrs f ss o f' ss' : hole f ss = (o, f', ss') →
  ∃ l, addrs f ≡ₚ l ++ addrs f' ∧ (∀ g, addrs (plug f ss g) ≡ₚ l ++ addrs g) ∧
    from_option (λ p, pos_addr p ∈ l) True o.
Proof.
  revert ss o f' ss'. induction f as [|a i c IHc r IHr]; intros [|s rest] o f' ss'; simpl.
  1,2,3: intros [= <- <- <-]; exists []; done.
  destruct (name_cmp s (nm i)).
  2: intros [= <- <- <-]; exists []; done.
  - destruct (stops rest i); [intros [= <- <- <-]; exists []; done|].
    destruct (hole c rest) as [[o1 f1] s1] eqn:E. intros [= <- <- <-].
    destruct (IHc _ _ _ _ E) as (l & P1 & P2 & Ho). exists (a :: l ++ addrs r). split_and!.
    + rewrite P1. simpl. constructor. rewrite <- !(assoc_L (++)). apply Permutation_app_head, Permutation_app_comm.
    + intros g. simpl. rewrite P2. constructor. rewrite <- !(assoc_L (++)). apply Permutation_app_head, Permutation_app_comm.
    + destruct o1; simpl in *; set_solver.
  - destruct (hole r (s :: rest)) as [[o1 f1] s1] eqn:E. intros [= <- <- <-].
    destruct (IHr _ _ _ _ E) as (l & P1 & P2 & Ho). exists (a :: addrs c ++ l). split_and!.
    + rewrite P1. simpl. by rewrite <- !(assoc_L (++)).
    + intros g. simpl. rewrite P2. by rewrite <- !(assoc_L (++)).
    + destruct o1; simpl in *; set_solver.
Qed.

(** *** Writing a link *)

Definition set_link (p : pos) (v : Z) (m : gmap Z inode) : gmap Z inode :=
  match p with
  | Peer a => alter (set_i_peer v) a m
  | Child a => alter (set_i_child v) a m
  end.

Lemma set_link_ne p v m a : a ≠ pos_addr p → set_link p v m !! a = m !! a.
Proof. destruct p; simpl; intros; by rewrite lookup_alter_ne. Qed.

Lemma set_link_dom p v m : dom (set_link p v m) = dom m.
Proof. destruct p; simpl; apply dom_alter_L. Qed.

(** The link is overwritten with one to [g]. *)
Lemma plug_trep m p f ss o f' ss' v g :
  trep m p f → NoDup (addrs f) → hole f ss = (o, f', ss') →
  match o with
  | None => plug f ss g = g
  | Some q => trep (set_link q v m) v g → trep (set_link q v m) p (plug f ss g)
  end.
Proof.
  revert p ss o f' ss'. induction f as [|a i c IHc r IHr]; intros p [|s rest] o f' ss'; simpl.
  1,2,3: intros ? ? [= <- <- <-]; done.
  intros (-> & Ha & x & y & E & Hc & Hr). rewrite NoDup_cons, NoDup_app. intros (Na & Nc & Nd & Nr).
  destruct (name_cmp s (nm i)).
  2: intros [= <- <- <-]; done.
  - destruct (stops rest i); [intros [= <- <- <-]; done|].
    destruct (hole c rest) as [[o1 f1] s1] eqn:Eh. intros [= <- <- <-] Hg.
    specialize (IHc _ _ _ _ _ Hc Nc Eh). destruct (plug_addrs _ _ _ _ _ Eh) as (l & P1 & _ & Ho).
    destruct o1 as [q|]; simpl in *.
    + assert (pos_addr q ∈ addrs c) by (rewrite P1; set_solver).
      split_and!; [done|done|]. exists x, y. rewrite set_link_ne by set_solver. split_and!; [done|by apply IHc|].
      eapply trep_frame; [exact Hr|]. intros b Hb. apply set_link_ne. set_solver.
    + split_and!; [done|done|]. exists v, y. rewrite IHc, lookup_alter_eq, E. simpl. split_and!; [done|done|].
      eapply trep_frame; [exact Hr|]. intros b Hb. apply lookup_alter_ne. set_solver.
  - destruct (hole r (s :: rest)) as [[o1 f1] s1] eqn:Eh. intros [= <- <- <-] Hg.
    specialize (IHr _ _ _ _ _ Hr Nr Eh). destruct (plug_addrs _ _ _ _ _ Eh) as (l & P1 & _ & Ho).
    destruct o1 as [q|]; simpl in *.
    + assert (pos_addr q ∈ addrs r) by (rewrite P1; set_solver).
      split_and!; [done|done|]. exists x, y. rewrite set_link_ne by set_solver. split_and!; [done| |by apply IHr].
      eapply trep_frame; [exact Hc|]. intros b Hb. apply set_link_ne. set_solver.
    + split_and!; [done|done|]. exists x, v. rewrite IHr, lookup_alter_eq, E. simpl. split_and!; [done| |done].
      eapply trep_frame; [exact Hc|]. intros b Hb. apply lookup_alter_ne. set_solver.
Qed.

(** What the link at the place points at. *)
Definition link_val (p : pos) (m : gmap Z inode) (v : Z) : Prop :=
  match p with
  | Peer a => ∃ n, m !! a = Some n ∧ i_peer n = v
  | Child a => ∃ n, m !! a = Some n ∧ i_child n = v
  end.

Lemma hole_trep m p f ss o f' ss' :
  trep m p f → hole f ss = (o, f', ss') →
  match o with
  | None => f' = f ∧ ss' = ss
  | Some q => ∃ v, link_val q m v ∧ trep m v f'
  end.
Proof.
  revert p ss o f' ss'. induction f as [|a i c IHc r IHr]; intros p [|s rest] o f' ss'; simpl.
  1,2,3: intros ? [= <- <- <-]; done.
  intros (-> & Ha & x & y & E & Hc & Hr). destruct (name_cmp s (nm i)).
  2: intros [= <- <- <-]; done.
  - destruct (stops rest i); [intros [= <- <- <-]; done|].
    destruct (hole c rest) as [[o1 f1] s1] eqn:Eh. intros [= <- <- <-].
    specialize (IHc _ _ _ _ _ Hc Eh). destruct o1; simpl; [done|]. destruct IHc as [-> _]. eauto.
  - destruct (hole r (s :: rest)) as [[o1 f1] s1] eqn:Eh. intros [= <- <- <-].
    specialize (IHr _ _ _ _ _ Hr Eh). destruct o1; simpl; [done|]. destruct IHr as [-> _]. eauto.
Qed.

Lemma hole_segs f ss o f' ss' : hole f ss = (o, f', ss') → ss ≠ [] → ss' ≠ [].
Proof.
  revert ss o f' ss'. induction f as [|a i c IHc r IHr]; intros [|s rest] o f' ss'; simpl.
  1,2,3: intros [= <- <- <-]; done.
  destruct (name_cmp s (nm i)).
  2: intros [= <- <- <-]; done.
  - unfold stops. destruct (bool_decide_reflect (rest = [])); simpl; [intros [= <- <- <-]; done|].
    destruct (mountpt i); [intros [= <- <- <-]; done|].
    destruct (hole c rest) as [[o1 f1] s1] eqn:Eh. intros [= <- <- <-] _. eauto.
  - destruct (hole r (s :: rest)) as [[o1 f1] s1] eqn:Eh. intros [= <- <- <-] ?. eauto.
Qed.

(** ** A new name *)

Definition fresh (s : name) : info := mkinfo 0 0 NULL NULL s.

Lemma stops_fresh rest s : stops rest (fresh s) = bool_decide (rest = []).
Proof. unfold stops. by rewrite orb_comm. Qed.

(** The first name of [ss] that is missing gets a node. *)
Fixpoint put (f : forest) (ss : list name) (k : Z) : forest :=
  match f, ss with
  | FNil, s :: _ => FCons k (fresh s) FNil FNil
  | FCons a i c r, s :: rest =>
      match name_cmp s (nm i) with
      | Lt => FCons k (fresh s) FNil f
      | Gt => FCons a i c (put r ss k)
      | Eq => if stops rest i then f else FCons a i (put c rest k) r
      end
  | _, [] => f
  end.

(** The path to that node. *)
Fixpoint miss (f : forest) (ss : list name) : list name :=
  match f, ss with
  | FNil, s :: _ => [s]
  | FCons a i c r, s :: rest =>
      match name_cmp s (nm i) with
      | Lt => [s]
      | Gt => miss r ss
      | Eq => s :: miss c rest
      end
  | _, [] => []
  end.

Lemma put_plug f ss k o f' s rest :
  find f ss = None → hole f ss = (o, f', s :: rest) → put f ss k = plug f ss (FCons k (fresh s) FNil f').
Proof.
  revert ss o f' s rest. induction f as [|a i c IHc r IHr]; intros [|t tl] o f' s rest; simpl; try done.
  - by intros _ [= <- <- <- <-].
  - destruct (name_cmp t (nm i)).
    2: by intros _ [= <- <- <- <-].
    + destruct (stops tl i); [done|]. destruct (hole c tl) as [[o1 f1] s1] eqn:Eh.
      intros HN [= <- <- ->]. by rewrite (IHc _ _ _ _ _ HN Eh).
    + destruct (hole r (t :: tl)) as [[o1 f1] s1] eqn:Eh.
      intros HN [= <- <- ->]. by rewrite (IHr _ _ _ _ _ HN Eh).
Qed.

Lemma miss_head f s rest : ∃ l, miss f (s :: rest) = s :: l.
Proof.
  induction f as [|a i c IHc r IHr]; simpl; [eauto|]. destruct (name_cmp s (nm i)); eauto.
Qed.

Lemma miss_nil f ss : miss f ss = [] → ss = [].
Proof. destruct ss as [|s rest]; [done|]. destruct (miss_head f s rest) as [l ->]. done. Qed.

Lemma miss_prefix f ss : miss f ss `prefix_of` ss.
Proof.
  revert ss. induction f as [|a i c IHc r IHr]; intros [|s rest]; simpl; try apply prefix_nil.
  - apply prefix_cons, prefix_nil.
  - destruct (name_cmp s (nm i)); [by apply prefix_cons|apply prefix_cons, prefix_nil|apply IHr].
Qed.

Lemma stops_false rest i : stops rest i = false → rest ≠ [] ∧ mountpt i = false.
Proof. unfold stops. rewrite orb_false_iff, bool_decide_eq_false. done. Qed.

Lemma name_cmp_ne x y c : name_cmp x y = c → c ≠ Eq → x ≠ y.
Proof. intros <- H ->. by rewrite name_cmp_refl in H. Qed.

(** Nothing else changes for a search. *)
Lemma find_put f ss k ss' :
  find f ss = None → ss ≠ [] →
  find (put f ss k) ss' =
    if bool_decide (ss' = miss f ss) then Some (k, fresh (default [] (last ss')), []) else find f ss'.
Proof.
  revert ss ss'. induction f as [|a i c IHc r IHr]; intros [|s rest] ss' HN Hne; try done.
  - simpl. destruct ss' as [|s' rest']; [by rewrite bool_decide_false|].
    destruct (name_cmp s' s) eqn:E.
    + apply name_cmp_eq in E as ->. rewrite stops_fresh. destruct rest'; [by rewrite !bool_decide_true|].
      by rewrite !bool_decide_false.
    + rewrite bool_decide_false; [done|]. intros [= -> ->]. by rewrite name_cmp_refl in E.
    + rewrite bool_decide_false; [done|]. intros [= -> ->]. by rewrite name_cmp_refl in E.
  - simpl in HN |- *. destruct (name_cmp s (nm i)) eqn:Es.
    + destruct (stops rest i) eqn:Est; [done|]. apply stops_false in Est as [Hr Hm].
      destruct ss' as [|s' rest']; [by rewrite bool_decide_false|]. simpl.
      apply name_cmp_eq in Es as ->. destruct (name_cmp s' (nm i)) eqn:E'.
      2,3: rewrite bool_decide_false; [done|]; intros [= -> _]; by rewrite name_cmp_refl in E'.
      apply name_cmp_eq in E' as ->. destruct (stops rest' i) eqn:Est'.
      * rewrite bool_decide_false; [done|]. intros [= ->]. unfold stops in Est'. rewrite Hm, orb_false_r in Est'.
        apply bool_decide_eq_true in Est'. by apply miss_nil in Est'.
      * rewrite (IHc rest rest' HN Hr). apply stops_false in Est' as [Hr' _].
        destruct (decide (rest' = miss c rest)) as [->|N].
        -- rewrite !bool_decide_true by done. destruct (miss c rest); [done|]. done.
        -- rewrite !bool_decide_false by congruence. done.
    + destruct ss' as [|s' rest']; [by rewrite bool_decide_false|]. simpl.
      destruct (name_cmp s' s) eqn:E.
      * apply name_cmp_eq in E as ->. rewrite stops_fresh, Es. destruct rest'; [by rewrite !bool_decide_true|].
        by rewrite !bool_decide_false.
      * rewrite (name_cmp_trans _ _ _ E Es). rewrite bool_decide_false; [done|].
        intros [= -> _]. by rewrite name_cmp_refl in E.
      * rewrite bool_decide_false; [done|]. intros [= -> _]. by rewrite name_cmp_refl in E.
    + destruct ss' as [|s' rest'].
      { destruct (miss_head r s rest) as [l ->]. by rewrite bool_decide_false. }
      cbn [find]. destruct (name_cmp s' (nm i)) eqn:E'.
      1,2: destruct (miss_head r s rest) as [l ->]; rewrite bool_decide_false; [done|]; intros [= -> _]; congruence.
      by rewrite IHr.
Qed.

Lemma miss_hole f ss o f' s rest :
  find f ss = None → hole f ss = (o, f', s :: rest) → miss f ss ++ rest = ss.
Proof.
  revert ss o. induction f as [|a i c IHc r IHr]; intros [|t tl] o; simpl; try done.
  - by intros _ [= <- <- <- <-].
  - destruct (name_cmp t (nm i)).
    2: by intros _ [= <- <- <- <-].
    + destruct (stops tl i); [done|]. destruct (hole c tl) as [[o1 f1] s1] eqn:Eh.
      intros HN [= <- <- ->]. simpl. by rewrite (IHc _ _ HN Eh).
    + destruct (hole r (t :: tl)) as [[o1 f1] s1] eqn:Eh. intros HN [= <- <- ->]. by rewrite (IHr _ _ HN Eh).
Qed.

(** After a new node the search goes on below it. *)
Lemma put_hole f ss k o f' s rest :
  find f ss = None → hole f ss = (o, f', s :: rest) → rest ≠ [] →
  hole (put f ss k) ss = (Some (Child k), FNil, rest).
Proof.
  revert ss o. induction f as [|a i c IHc r IHr]; intros [|t tl] o; simpl; try done.
  - intros _ [= <- <- <- <-] Hr. rewrite name_cmp_refl, stops_fresh, bool_decide_false by done. by destruct tl.
  - destruct (name_cmp t (nm i)) eqn:Et.
    + destruct (stops tl i) eqn:Est; [done|]. destruct (hole c tl) as [[o1 f1] s1] eqn:Eh.
      intros HN [= <- <- ->] Hr. cbn [hole]. rewrite Et, Est. by rewrite (IHc _ _ HN Eh Hr).
    + intros _ [= <- <- <- <-] Hr. cbn [hole]. rewrite name_cmp_refl, stops_fresh, bool_decide_false by done.
      by destruct tl.
    + destruct (hole r (t :: tl)) as [[o1 f1] s1] eqn:Eh.
      intros HN [= <- <- ->] Hr. cbn [hole]. rewrite Et. by rewrite (IHr _ _ HN Eh Hr).
Qed.

Lemma find_put_self f ss k o f' s rest :
  find f ss = None → hole f ss = (o, f', s :: rest) → ss ≠ [] →
  find (put f ss k) ss = match rest with [] => Some (k, fresh (default [] (last ss)), []) | _ => None end.
Proof.
  intros HN HH Hne. rewrite find_put by done. pose proof (miss_hole _ _ _ _ _ _ HN HH) as E.
  destruct rest as [|t tl].
  - rewrite app_nil_r in E. by rewrite bool_decide_true.
  - rewrite bool_decide_false; [done|]. intros E'. rewrite <- E' in E.
    apply (f_equal length) in E. rewrite length_app in E. simpl in E. lia.
Qed.

Lemma find_miss f ss : find f ss = None → ss ≠ [] → find f (miss f ss) = None.
Proof.
  revert ss. induction f as [|a i c IHc r IHr]; intros [|t tl]; simpl; try done.
  destruct (name_cmp t (nm i)) eqn:Et.
  - destruct (stops tl i) eqn:Est; [done|]. intros HN _. apply stops_false in Est as [Ht Hm]. rewrite Et.
    unfold stops. rewrite Hm, orb_false_r, bool_decide_false; [by apply IHc|].
    intros E. by apply miss_nil in E.
  - by rewrite Et.
  - intros HN Hne. specialize (IHr _ HN Hne). destruct (miss_head r t tl) as [l El]. rewrite El in *. by rewrite Et.
Qed.

Lemma after_trans x y f : name_cmp x y = Lt → after y f → after x f.
Proof. destruct f as [|a i c r]; simpl; [done|]. apply name_cmp_trans. Qed.

Lemma name_cmp_gt x y : name_cmp x y = Gt → name_cmp y x = Lt.
Proof. intros E. by rewrite name_cmp_opp, E. Qed.

Lemma put_after f s rest k x : after x f → name_cmp x s = Lt → after x (put f (s :: rest) k).
Proof.
  destruct f as [|a i c r]; simpl; [done|]. intros Ha Hs.
  destruct (name_cmp s (nm i)); [by destruct (stops rest i)|done|done].
Qed.

Lemma put_sorted f ss k : sorted f → Forall plain ss → sorted (put f ss k).
Proof.
  revert ss. induction f as [|a i c IHc r IHr]; intros [|s rest]; simpl; try done.
  - rewrite Forall_cons. naive_solver.
  - intros (Hp & Hc & Hr & Ha) HF. pose proof HF as [Hs Hrest]%Forall_cons.
    destruct (name_cmp s (nm i)) eqn:E.
    + destruct (stops rest i); simpl; [done|]. split_and!; try done. by apply IHc.
    + simpl. done.
    + simpl. split_and!; [done|done|by apply IHr|]. apply put_after; [done|]. by apply name_cmp_gt.
Qed.

Lemma segs_plain x : Forall plain (segs x).
Proof.
  assert (plain []) by (unfold plain; set_solver).
  induction x as [|c x IH]; simpl; [by apply Forall_singleton|].
  destruct (Z.eqb_spec c SLASH) as [->|N].
  - destruct x; [by apply Forall_singleton|]. by constructor.
  - destruct (segs_cons x) as (s & ss & E). rewrite E in *. apply Forall_cons in IH as [Hs Hss].
    constructor; [|done]. unfold plain in *. rewrite not_elem_of_cons. done.
Qed.

(** ** A name removed *)

Fixpoint del (f : forest) (ss : list name) : forest :=
  match f, ss with
  | FCons a i c r, s :: rest =>
      match name_cmp s (nm i) with
      | Lt => f
      | Gt => FCons a i c (del r ss)
      | Eq => if stops rest i then r else FCons a i (del c rest) r
      end
  | _, _ => f
  end.

Lemma del_plug f ss o a i c r rest x :
  find f ss = Some x → hole f ss = (o, FCons a i c r, rest) → del f ss = plug f ss r.
Proof.
  revert ss o. induction f as [|b j d IHd e IHe]; intros [|t tl] o; simpl; try done.
  destruct (name_cmp t (nm j)); [|done|].
  - destruct (stops tl j); [by intros _ [= <- <- <- <- <- <-]|].
    destruct (hole d tl) as [[o1 f1] s1] eqn:Eh. intros HN [= <- -> ->]. by rewrite (IHd _ _ HN Eh).
  - destruct (hole e (t :: tl)) as [[o1 f1] s1] eqn:Eh. intros HN [= <- -> ->]. by rewrite (IHe _ _ HN Eh).
Qed.

(** The path of the node that is found, without what is left to a mountpoint. *)
Definition gone (f : forest) (ss : list name) : list name :=
  match find f ss with Some (_, _, rest) => take (length ss - length rest) ss | None => [] end.

Lemma find_rest f ss a i rest : find f ss = Some (a, i, rest) → (length rest < length ss)%nat.
Proof.
  revert ss. induction f as [|b j d IHd e IHe]; intros [|t tl]; simpl; try done.
  destruct (name_cmp t (nm j)); [|done|].
  - destruct (stops tl j); [intros [= <- <- <-]; lia|]. intros H%IHd. lia.
  - intros H%IHe. done.
Qed.

Lemma find_after f x ss : sorted f → after x f → find f (x :: ss) = None.
Proof. destruct f as [|a i c r]; simpl; [done|]. by intros _ ->. Qed.

Lemma find_before f x s ss : sorted f → after x f → name_cmp s x = Lt → find f (s :: ss) = None.
Proof. intros Hf Ha Hs. apply find_after; [done|]. by eapply after_trans. Qed.

(** The node and what is below it are gone, everything else is there. *)
Lemma find_del f ss a i rest ss' :
  sorted f → find f ss = Some (a, i, rest) →
  find (del f ss) ss' = if bool_decide (gone f ss `prefix_of` ss') then None else find f ss'.
Proof.
  unfold gone. intros Hf HS. rewrite HS. revert ss ss' Hf HS.
  induction f as [|b j d IHd e IHe]; intros [|t tl] ss'; simpl; try done.
  intros (Hp & Hd & He & Ha) HS. destruct (name_cmp t (nm j)) eqn:Et; [|done|].
  - apply name_cmp_eq in Et as ->. destruct (stops tl j) eqn:Est.
    + injection HS as -> -> ->. replace (S (length rest) - length rest)%nat with 1%nat by lia. simpl.
      destruct ss' as [|s' rest']; [by destruct e; rewrite bool_decide_false by apply prefix_nil_not|].
      destruct (name_cmp s' (nm i)) eqn:E'.
      * apply name_cmp_eq in E' as ->. rewrite bool_decide_true by apply prefix_cons, prefix_nil. by apply find_after.
      * rewrite bool_decide_false; [by eapply find_before|]. intros H%prefix_cons_inv_1. by apply (name_cmp_ne _ _ _ E').
      * rewrite bool_decide_false; [done|]. intros H%prefix_cons_inv_1. by apply (name_cmp_ne _ _ _ E').
    + pose proof (find_rest _ _ _ _ _ HS) as Hlt.
      replace (S (length tl) - length rest)%nat with (S (length tl - length rest)) by lia. cbn [take].
      destruct ss' as [|s' rest']; [by rewrite bool_decide_false by apply prefix_nil_not|].
      cbn [find]. destruct (name_cmp s' (nm j)) eqn:E'.
      2,3: rewrite bool_decide_false; [done|]; intros H%prefix_cons_inv_1; by apply (name_cmp_ne _ _ _ E').
      apply name_cmp_eq in E' as ->. destruct (stops rest' j) eqn:Est'.
      * rewrite bool_decide_false; [done|]. intros H%prefix_cons_inv_2. apply stops_false in Est as [_ Hm].
        unfold stops in Est'. rewrite Hm, orb_false_r in Est'. apply bool_decide_eq_true in Est'. subst rest'.
        apply prefix_length in H. rewrite length_take in H. simpl in H. lia.
      * rewrite (IHd tl rest') by done.
        destruct (decide (take (length tl - length rest) tl `prefix_of` rest')) as [H|H].
        -- rewrite !bool_decide_true; [done|by apply prefix_cons|done].
        -- rewrite !bool_decide_false; [done| |done]. by intros ?%prefix_cons_inv_2.
  - cbn [find]. destruct ss' as [|s' rest'].
    { pose proof (find_rest _ _ _ _ _ HS). rewrite bool_decide_false; [done|].
      intros Hx%prefix_length. rewrite length_take in Hx. simpl in *. lia. }
    destruct (name_cmp s' (nm j)) eqn:E'; [| |by apply IHe].
    1,2: rewrite bool_decide_false; [done|]; pose proof (find_rest _ _ _ _ _ HS); simpl in *;
      replace (S (length tl) - length rest)%nat with (S (length tl - length rest)) by lia;
      cbn [take]; intros H1%prefix_cons_inv_1; congruence.
Qed.

Lemma del_after f ss x : sorted f → after x f → after x (del f ss).
Proof.
  destruct f as [|a i c r]; destruct ss as [|s rest]; simpl; try done. intros (Hp & Hc & Hr & Ha) Hx.
  destruct (name_cmp s (nm i)); [|done|done]. destruct (stops rest i); [|done]. by eapply after_trans.
Qed.

Lemma del_sorted f ss : sorted f → sorted (del f ss).
Proof.
  revert ss. induction f as [|a i c IHc r IHr]; intros [|s rest]; simpl; try done.
  intros (Hp & Hc & Hr & Ha). destruct (name_cmp s (nm i)); simpl; [|done|].
  - destruct (stops rest i); simpl; [done|]. split_and!; try done. by apply IHc.
  - split_and!; try done; [by apply IHr|]. by apply del_after.
Qed.

(** ** The names of a tree, in no order

    A node has the name of its parent followed by its own; below a mountpoint
    the tree names nothing. *)
Fixpoint at_path (f : forest) (ss : list name) (b : Z) (j : info) : Prop :=
  match f with
  | FNil => False
  | FCons a i c r =>
      ss = [nm i] ∧ b = a ∧ j = i
      ∨ (∃ rest, ss = nm i :: rest ∧ mountpt i = false ∧ at_path c rest b j)
      ∨ at_path r ss b j
  end.

Lemma at_path_nonempty f ss b j : at_path f ss b j → ss ≠ [].
Proof. induction f as [|a i c IHc r IHr]; simpl; [done|]. naive_solver. Qed.

Lemma at_path_after f x ss b j : sorted f → after x f → at_path f ss b j → ∃ s rest, ss = s :: rest ∧ name_cmp x s = Lt.
Proof.
  induction f as [|a i c IHc r IHr]; simpl; [done|]. intros (Hp & Hc & Hr & Ha) Hx.
  intros [(-> & _)|[(rest & -> & _)|H]]; [eauto|eauto|]. apply IHr; [done| |done]. by eapply after_trans.
Qed.

(** In an ordered tree the search finds every name. *)
Lemma find_at_path f ss b j : sorted f → find f ss = Some (b, j, []) ↔ at_path f ss b j.
Proof.
  revert ss. induction f as [|a i c IHc r IHr]; intros [|s rest] Hf; simpl; try done.
  { split; [done|]. intros [[? _]|[(? & ? & _)|H]]; try done. by apply at_path_nonempty in H. }
  destruct Hf as (Hp & Hc & Hr & Ha). destruct (name_cmp s (nm i)) eqn:E.
  - apply name_cmp_eq in E as ->.
    assert (at_path r (nm i :: rest) b j → False) as Hno.
    { intros (? & ? & [= <- <-] & Hlt)%(at_path_after _ (nm i)); [|done..]. by rewrite name_cmp_refl in Hlt. }
    destruct (stops rest i) eqn:Est.
    + unfold stops in Est. split.
      * intros [= -> -> ->]. by left.
      * intros [([= ->] & -> & ->)|[(rest' & [= <-] & Hm & H)|H]]; [done| |done].
        rewrite Hm, orb_false_r in Est. apply bool_decide_eq_true in Est. by apply at_path_nonempty in H.
    + apply stops_false in Est as [Hne Hm]. rewrite IHc by done. naive_solver.
  - split; [done|]. intros [([= ->] & _)|[(? & [= -> ->] & _)|H]].
    1,2: by rewrite name_cmp_refl in E.
    apply (at_path_after _ (nm i)) in H as (? & ? & [= <- <-] & Hlt); [|done..].
    rewrite name_cmp_opp, Hlt in E. done.
  - rewrite IHr by done. split; [naive_solver|]. intros [([= ->] & _)|[(? & [= -> ->] & _)|H]]; [..|done].
    1,2: by rewrite name_cmp_refl in E.
Qed.

(** ** The data of a node *)

Fixpoint map_at (a : Z) (g : info → info) (f : forest) : forest :=
  match f with
  | FNil => FNil
  | FCons b i c r => FCons b (if b =? a then g i else i) (map_at a g c) (map_at a g r)
  end.

Fixpoint all_info (P : Z → info → Prop) (f : forest) : Prop :=
  match f with FNil => True | FCons a i c r => P a i ∧ all_info P c ∧ all_info P r end.

Lemma map_at_addrs a g f : addrs (map_at a g f) = addrs f.
Proof. induction f as [|b i c IHc r IHr]; simpl; [done|]. by rewrite IHc, IHr. Qed.

Lemma map_at_notin a g f : a ∉ addrs f → map_at a g f = f.
Proof.
  induction f as [|b i c IHc r IHr]; simpl; [done|].
  rewrite not_elem_of_cons, not_elem_of_app. intros (N & ? & ?). rewrite IHc, IHr by done.
  by rewrite (proj2 (Z.eqb_neq b a)) by congruence.
Qed.

(** [h] on an inode is [g] on its data. *)
Lemma map_at_trep m p f a g h :
  (∀ i x y, h (node_of i x y) = node_of (g i) x y) →
  trep m p f → trep (alter h a m) p (map_at a g f).
Proof.
  intros Hh. revert p. induction f as [|b i c IHc r IHr]; intros p; simpl; [done|].
  intros (-> & Hb & x & y & E & Hc & Hr). split_and!; [done|done|]. exists x, y. split_and!; [|by apply IHc|by apply IHr].
  destruct (Z.eqb_spec b a) as [->|N]; [by rewrite lookup_alter_eq, E; simpl; rewrite Hh|].
  by rewrite lookup_alter_ne.
Qed.

Section MapAt.
Context (a : Z) (g : info → info).
Hypothesis g_nm : ∀ i, nm (g i) = nm i.
Hypothesis g_mountpt : ∀ i, mountpt (g i) = mountpt i.

Lemma map_at_sorted f : sorted f → sorted (map_at a g f).
Proof.
  induction f as [|b i c IHc r IHr]; simpl; [done|]. intros (Hp & Hc & Hr & Ha).
  assert (nm (if b =? a then g i else i) = nm i) as -> by (destruct (b =? a); [apply g_nm|done]).
  split_and!; [done|by apply IHc|by apply IHr|]. destruct r as [|b' i' c' r']; simpl in *; [done|].
  destruct (b' =? a); [by rewrite g_nm|done].
Qed.

Lemma find_map_at f ss :
  find (map_at a g f) ss = (λ '(b, i, rest), (b, if b =? a then g i else i, rest)) <$> find f ss.
Proof.
  revert ss. induction f as [|b i c IHc r IHr]; intros [|s rest]; simpl; try done.
  assert (nm (if b =? a then g i else i) = nm i) as -> by (destruct (b =? a); [apply g_nm|done]).
  destruct (name_cmp s (nm i)); [|done|apply IHr].
  assert (stops rest (if b =? a then g i else i) = stops rest i) as ->.
  { unfold stops. destruct (b =? a); [by rewrite g_mountpt|done]. }
  destruct (stops rest i); [done|apply IHc].
Qed.
End MapAt.

Lemma all_info_map_at (P Q : Z → info → Prop) a g f :
  (∀ b i, P b i → Q b (if b =? a then g i else i)) → all_info P f → all_info Q (map_at a g f).
Proof. intros HPQ. induction f as [|b i c IHc r IHr]; simpl; [done|]. naive_solver. Qed.

Lemma all_info_mono (P Q : Z → info → Prop) f : (∀ b i, P b i → Q b i) → all_info P f → all_info Q f.
Proof. intros HPQ. induction f as [|b i c IHc r IHr]; simpl; [done|]. naive_solver. Qed.

Lemma all_info_plug P f ss o f' ss' :
  hole f ss = (o, f', ss') → all_info P f → all_info P f' ∧ ∀ g, all_info P g → all_info P (plug f ss g).
Proof.
  revert ss o f' ss'. induction f as [|a i c IHc r IHr]; intros [|s rest] o f' ss'; simpl.
  1,2,3: intros [= <- <- <-]; done.
  destruct (name_cmp s (nm i)).
  2: intros [= <- <- <-]; done.
  - destruct (stops rest i); [intros [= <- <- <-]; done|].
    destruct (hole c rest) as [[o1 f1] s1] eqn:Eh. intros [= <- <- <-] (Hi & Hc & Hr).
    destruct (IHc _ _ _ _ Eh Hc) as [H1 H2]. split; [done|]. intros g Hg. split_and!; [done|by apply H2|done].
  - destruct (hole r (s :: rest)) as [[o1 f1] s1] eqn:Eh. intros [= <- <- <-] (Hi & Hc & Hr).
    destruct (IHr _ _ _ _ Eh Hr) as [H1 H2]. split; [done|]. intros g Hg. split_and!; [done|done|by apply H2].
Qed.

(** The inode behind a node of the tree. *)
Lemma trep_find m p f ss a i rest :
  trep m p f → find f ss = Some (a, i, rest) → a ∈ addrs f ∧ a ≠ NULL ∧ ∃ x y, m !! a = Some (node_of i x y).
Proof.
  revert p ss. induction f as [|b j d IHd e IHe]; intros p [|t tl]; simpl; try done.
  intros (-> & Hb & x & y & E & Hd & He). rewrite elem_of_cons, elem_of_app.
  destruct (name_cmp t (nm j)); [|done|].
  - destruct (stops tl j); [intros [= <- <- <-]; split_and!; eauto|]. intros HS. destruct (IHd _ _ Hd HS) as (? & ? & ?). split_and!; eauto.
  - intros HS. destruct (IHe _ _ He HS) as (? & ? & ?). split_and!; eauto.
Qed.

Lemma trep_info (P : Z → info → Prop) m p f a : trep m p f → all_info P f → a ∈ addrs f →
  ∃ i x y, m !! a = Some (node_of i x y) ∧ P a i.
Proof.
  revert p. induction f as [|b i c IHc r IHr]; intros p; simpl; [set_solver|].
  intros (-> & Hb & x & y & E & Hc & Hr) (Hi & Pc & Pr). rewrite elem_of_cons, elem_of_app.
  intros [->|[Ha|Ha]]; eauto 10.
Qed.

(** ** Several new names

    What was found is found still; what is new is on the way to [ss], and has
    no operations. *)
Definition grown (f f' : forest) (ss : list name) (ks : list Z) : Prop := ∀ ss',
  match find f ss' with
  | Some x => find f' ss' = Some x
  | None => ∀ x, find f' ss' = Some x →
      ss' `prefix_of` ss ∧ ∃ k, k ∈ ks ∧ x = (k, fresh (default [] (last ss')), [])
  end.

Lemma grown_refl f ss ks : grown f f ss ks.
Proof. intros ss'. by destruct (find f ss'). Qed.

Lemma grown_put f ss k f' ks : find f ss = None → ss ≠ [] →
  grown (put f ss k) f' ss ks → grown f f' ss (k :: ks).
Proof.
  intros HN Hne HG ss'. specialize (HG ss'). rewrite find_put in HG by done.
  destruct (bool_decide_reflect (ss' = miss f ss)) as [E|N].
  - rewrite E in HG |- *. rewrite find_miss by done. rewrite HG. intros x [= <-]. split; [apply miss_prefix|]. exists k. set_solver.
  - destruct (find f ss'); [done|]. intros x Hx. destruct (HG x Hx) as (? & k' & ? & ->). split; [done|].
    exists k'. set_solver.
Qed.

End InodeTree.
