(* ===== verification/InodeSpec.v ===== *)
(** * What the operations do to the inode tree

    [fs_ok s T D L]: the inodes of [s] are the tree [T] and the nodes [D] that
    were removed while they were in use, and the allocator has handed out the
    addresses [L].  Each operation of Inode.v is specified by the tree it leaves;
    the fuel of the loops, the number of inodes or the length of the path, is
    enough in every such state. *)

From S2P Require Import Prelude Queue Inode InodeTree.

Module InodeSpec.
Export InodeTree.
#[local] Open Scope cmd_scope.

(** ** States *)

Definition deleted (i : info) : bool := negb (Z.land (flags i) FSNODEFLAG_DELETED =? 0).

(** A node of the tree. *)
Definition live (i : info) : Prop := 0 ≤ crefs i ≤ 32767 ∧ deleted i = false.

(** A removed node that is still referred to. *)
Definition zombie (m : gmap Z inode) (t : forest) : Prop :=
  match t with
  | FCons a i c FNil => trep m a t ∧ deleted i = true ∧ 0 < crefs i ≤ 32767 ∧ all_info (λ _, live) c
  | _ => False
  end.

Definition all_addrs (T : forest) (D : list forest) : list Z := addrs T ++ (D ≫= addrs).

Section Specs.
Context {H : Type} {kmmI : Kmm H} {kmmL : KmmLaws H} (getpid : Z).

Record fs_ok (s : fsys H) (T : forest) (D : list forest) (L : gset Z) : Prop := {
  ok_tree : trep (inodes s) (root_inode s) T;
  ok_sorted : sorted T;
  ok_live : all_info (λ _, live) T;
  ok_zombies : Forall (zombie (inodes s)) D;
  ok_nodup : NoDup (all_addrs T D);
  ok_dom : dom (inodes s) = list_to_set (all_addrs T D);
  ok_kmm : kmm_ok (kmm s) L;
  ok_sub : dom (inodes s) ⊆ L
}.

(** ** Rules for the commands *)

Lemma wp_iget p n Q (s : fsys H) : p ≠ NULL → inodes s !! p = Some n → wp (get p) Q s = Q n s.
Proof.
  intros Hp E. unfold wp, get, on_inodes, deref. rewrite (proj2 (Z.eqb_neq p NULL) Hp), E. simpl. by destruct s.
Qed.

Lemma wp_iset p n f Q (s : fsys H) :
  p ≠ NULL → inodes s !! p = Some n → wp (set p f) Q s = Q tt (upd_inodes (alter f p (inodes s)) s).
Proof.
  intros Hp E. unfold wp, set, on_inodes, assign, deref, bind, modify, res_bind.
  rewrite (proj2 (Z.eqb_neq p NULL) Hp), E. simpl. f_equal. f_equal.
  apply map_eq. intros q. destruct (decide (q = p)) as [->|N].
  - by rewrite lookup_insert_eq, lookup_alter_eq, E.
  - by rewrite lookup_insert_ne, lookup_alter_ne.
Qed.

Lemma wp_on_kmm {A} (m : M H A) Q (s : fsys H) : wp (on_kmm m) Q s = wp m (λ a h, Q a (upd_kmm h s)) (kmm s).
Proof. unfold wp, on_kmm, res_bind. by destruct (m (kmm s)) as [[??]|]. Qed.

(** ** The lock

    Free, or held by the caller already. *)
Definition lockable (l : inode_sem_s) : Prop :=
  holder l = getpid ∧ 1 ≤ count l < 32767
  ∨ holder l = NO_HOLDER ∧ count l = 0 ∧ 0 < sem l.

Definition taken (l : inode_sem_s) : inode_sem_s :=
  if getpid =? holder l then mkisem (sem l) (holder l) (count l + 1) else mkisem (sem l - 1) getpid 1.

Lemma wp_semtake Q (s : fsys H) : getpid ≠ NO_HOLDER → lockable (g_inode_sem s) →
  wp (inode_semtake getpid) Q s = Q tt (upd_isem (taken (g_inode_sem s)) s).
Proof.
  intros Hpid Hl. unfold inode_semtake, taken. rewrite wp_bind, wp_gets. destruct Hl as [[Hh Hc]|(Hh & Hc & Hs)].
  - rewrite Hh, Z.eqb_refl, wp_bind, wp_modify, i16_small by lia. rewrite wp_assert by (apply Z.ltb_lt; lia). done.
  - rewrite Hh, (proj2 (Z.eqb_neq _ _)) by done. rewrite wp_bind, (proj2 (Z.ltb_lt _ _)) by done. done.
Qed.

Lemma wp_semgive Q (s : fsys H) l : getpid ≠ NO_HOLDER → lockable l → g_inode_sem s = taken l →
  wp (inode_semgive getpid) Q s = Q tt (upd_isem l s).
Proof.
  intros Hpid Hl E. unfold inode_semgive. rewrite wp_bind, wp_gets, wp_bind, E. unfold taken.
  destruct Hl as [[Hh Hc]|(Hh & Hc & Hs)].
  - rewrite Hh, Z.eqb_refl. rewrite wp_assert by (apply Z.eqb_refl). simpl.
    rewrite (proj2 (Z.ltb_lt _ _)) by lia. rewrite wp_modify, i16_small by lia.
    destruct l; simpl in *. subst; repeat f_equal; lia.
  - rewrite Hh, (proj2 (Z.eqb_neq getpid NO_HOLDER)) by done. cbn [holder]. rewrite wp_assert by apply Z.eqb_refl.
    cbn [count]. rewrite (proj2 (Z.ltb_ge 1 1)) by done. rewrite wp_modify. destruct l; simpl in *; subst. repeat f_equal. lia.
Qed.

(** ** Searching *)

Lemma size_inodes s T D L : fs_ok s T D L → size (inodes s) = length (all_addrs T D).
Proof. intros HO. rewrite <- size_dom, (ok_dom _ _ _ _ HO), size_list_to_set; [done|apply HO]. Qed.

Lemma fuel_tree s T D L : fs_ok s T D L → (length (addrs T) ≤ size (inodes s))%nat.
Proof. intros HO. rewrite (size_inodes _ _ _ _ HO). unfold all_addrs. rewrite length_app. lia. Qed.

(** The link that the two pointers of the code stand for. *)
Definition cell_of (left above : Z) : option pos :=
  if negb (left =? NULL) then Some (Peer left)
  else if negb (above =? NULL) then Some (Child above)
  else None.

Definition found_ok (f : forest) (x : list Z) (left above : Z) (r : found) : Prop :=
  (length (f_name r) ≤ length x)%nat ∧
  cell_of (f_peer r) (f_parent r) =
    match (hole f (segs x)).1.1 with Some q => Some q | None => cell_of left above end ∧
  match find f (segs x) with
  | Some (a, i, rest) => f_node r = a ∧ rest_segs (f_name r) = rest ∧ f_relpath r = Some (f_name r)
  | None => f_node r = NULL ∧ segs (f_name r) = (hole f (segs x)).2 ∧ f_relpath r = None
  end.

Lemma nextname_le x : (length (inode_nextname x) ≤ length x)%nat.
Proof.
  destruct (decide (inode_nextname x = [])) as [->|Hx]; [simpl; lia|]. pose proof (nextname_length x Hx). lia.
Qed.

Lemma rest_stops x i : stops (rest_segs x) i = bool_decide (x = []) || mountpt i.
Proof.
  unfold stops. f_equal. apply bool_decide_ext. destruct x; simpl; [done|].
  destruct (segs_cons (z :: x)) as (s & ss & E). simpl in E. rewrite E. done.
Qed.

Lemma search_loop_spec fuel x node left above f (s : fsys H) :
  trep (inodes s) node f → sorted f → (length (addrs f) ≤ fuel)%nat →
  wp (search_loop fuel x node left above) (λ r s', s' = s ∧ found_ok f x left above r) s.
Proof.
  revert fuel x node left above. induction f as [|a i c IHc r IHr]; intros fuel x node left above HT Hs Hf.
  - simpl in HT. subst node. destruct fuel; simpl; rewrite wp_ret; split; try done;
      (destruct (segs_cons x) as (t & tl & E); unfold found_ok; simpl; rewrite E; simpl; done).
  - simpl in HT. destruct HT as (-> & Ha & y & z & E & Hc & Hr). simpl in Hs, Hf. destruct Hs as (Hp & Sc & Sr & _).
    rewrite length_app in Hf. destruct fuel as [|fuel]; [lia|]. cbn [search_loop].
    rewrite (proj2 (Z.eqb_neq a NULL)) by done. rewrite wp_bind, (wp_iget a _ _ _ Ha E). cbv beta zeta.
    rewrite inode_compare_spec by done. unfold found_ok. rewrite segs_step.
    cbn [i_name node_of hole find]. destruct (name_cmp (inode_namecpy x) (nm i)) eqn:En; simpl.
    + rewrite rest_stops. destruct (bool_decide_reflect (inode_nextname x = [])) as [En'|En']; simpl.
      * rewrite wp_ret. split_and!; simpl; auto using nextname_le.
      * change (INODE_IS_MOUNTPT _) with (mountpt i). destruct (mountpt i); simpl.
        -- rewrite wp_ret. split_and!; simpl; auto using nextname_le.
        -- eapply wp_mono; [eapply IHc; [exact Hc|done|lia]|]. intros r0 s' (-> & HL & HC & HF). split; [done|].
           assert (rest_segs (inode_nextname x) = segs (inode_nextname x)) as ->
             by (unfold rest_segs; by destruct (inode_nextname x)).
           destruct (hole c (segs (inode_nextname x))) as [[o f'] ss'] eqn:Eh. simpl in *.
           split_and!; [pose proof (nextname_le x); lia| |done].
           rewrite HC. destruct o; simpl; [done|]. unfold cell_of. simpl. by rewrite (proj2 (Z.eqb_neq a NULL)).
    + rewrite wp_ret. split_and!; simpl; [done|lia|done|done| |done]. by rewrite segs_step.
    + eapply wp_mono; [eapply IHr; [exact Hr|done|lia]|]. intros r0 s' (-> & HL & HC & HF). split; [done|].
      rewrite segs_step in HC, HF.
      destruct (hole r (inode_namecpy x :: rest_segs (inode_nextname x))) as [[o f'] ss'] eqn:Eh. simpl in *.
      split_and!; [done| |done].
      rewrite HC. destruct o; simpl; [done|]. unfold cell_of. by rewrite (proj2 (Z.eqb_neq a NULL)).
Qed.

Lemma wp_search path s T D L : fs_ok s T D L →
  wp (inode_search path) (λ r s', s' = s ∧ found_ok T (drop 1 path) NULL NULL r) s.
Proof.
  intros HO. unfold inode_search. rewrite wp_bind, wp_gets, wp_bind, wp_gets.
  eapply search_loop_spec; [apply HO|apply HO|by eapply fuel_tree].
Qed.

(** ** Changing a link *)

Definition link (o : option pos) (v : Z) (s : fsys H) : fsys H :=
  match o with None => upd_root v s | Some q => upd_inodes (set_link q v (inodes s)) s end.

Definition link_is (o : option pos) (v : Z) (s : fsys H) : Prop :=
  match o with None => v = root_inode s | Some q => link_val q (inodes s) v end.

Lemma relink (s : fsys H) T ss o f' ss' v g :
  trep (inodes s) (root_inode s) T → NoDup (addrs T) → hole T ss = (o, f', ss') →
  trep (inodes (link o v s)) v g → trep (inodes (link o v s)) (root_inode (link o v s)) (plug T ss g).
Proof.
  intros HT HN HH Hg. pose proof (plug_trep _ _ _ _ _ _ _ v g HT HN HH) as HP. destruct o as [q|]; simpl in *.
  - by apply HP.
  - by rewrite HP.
Qed.

Lemma link_frame o v (s : fsys H) a : from_option (λ q, a ≠ pos_addr q) True o →
  inodes (link o v s) !! a = inodes s !! a.
Proof. destruct o; simpl; [apply set_link_ne|done]. Qed.

Lemma link_dom o v (s : fsys H) : dom (inodes (link o v s)) = dom (inodes s).
Proof. destruct o; simpl; [apply set_link_dom|done]. Qed.

Lemma hole_link (s : fsys H) T ss o f' ss' :
  trep (inodes s) (root_inode s) T → hole T ss = (o, f', ss') →
  ∃ v, link_is o v s ∧ trep (inodes s) v f'.
Proof.
  intros HT HH. pose proof (hole_trep _ _ _ _ _ _ _ HT HH) as HP. destruct o as [q|]; simpl; [done|].
  destruct HP as [-> ->]. eauto.
Qed.

(** The place is not one of the nodes that it leads to. *)
Lemma hole_outside T ss o f' ss' a : NoDup (addrs T) → hole T ss = (o, f', ss') → a ∈ addrs f' →
  from_option (λ q, a ≠ pos_addr q) True o.
Proof.
  intros HN HH Ha. destruct (plug_addrs _ _ _ _ _ HH) as (l & P1 & _ & Ho). rewrite P1 in HN.
  apply NoDup_app in HN as (_ & HN & _). destruct o as [q|]; simpl in *; [|done]. intros ->. by apply (HN (pos_addr q)).
Qed.

Lemma hole_inside T ss q f' ss' : hole T ss = (Some q, f', ss') → pos_addr q ∈ addrs T.
Proof.
  intros HH. destruct (plug_addrs _ _ _ _ _ HH) as (l & P1 & _ & Ho). simpl in Ho. rewrite P1, elem_of_app. by left.
Qed.

Lemma wp_insert p left parent (s : fsys H) n v Q :
  p ≠ NULL → inodes s !! p = Some n → link_is (cell_of left parent) v s →
  from_option (λ q, p ≠ pos_addr q) True (cell_of left parent) →
  Q tt (link (cell_of left parent) p (upd_inodes (alter (set_i_peer v) p (inodes s)) s)) →
  wp (inode_insert p left parent) Q s.
Proof.
  intros Hp E Hv Ho HQ. unfold inode_insert. unfold cell_of in *.
  destruct (Z.eqb_spec left NULL) as [->|Nl]; simpl in *.
  - destruct (Z.eqb_spec parent NULL) as [->|Np]; simpl in *.
    + subst v. rewrite wp_bind, wp_gets, wp_bind, (wp_iset p n), wp_modify by done. done.
    + destruct Hv as (m & Em & <-). rewrite wp_bind, (wp_iget parent m), wp_bind, (wp_iset p n) by done.
      rewrite (wp_iset parent m); [done|done|]. simpl. by rewrite lookup_alter_ne.
  - destruct Hv as (m & Em & <-). rewrite wp_bind, (wp_iget left m), wp_bind, (wp_iset p n) by done.
    rewrite (wp_iset left m); [done|done|]. simpl. by rewrite lookup_alter_ne.
Qed.

(** ** Creating *)

Lemma zombie_frame (m m' : gmap Z inode) t : zombie m t → (∀ a, a ∈ addrs t → m' !! a = m !! a) → zombie m' t.
Proof.
  destruct t as [|a i c [|]]; simpl; try done. intros (HT & Hrest) HF. split; [|done].
  by apply (trep_frame m m' a (FCons a i c FNil)) in HT.
Qed.

Lemma zombies_frame (m m' : gmap Z inode) D : Forall (zombie m) D →
  (∀ a, a ∈ D ≫= addrs → m' !! a = m !! a) → Forall (zombie m') D.
Proof.
  rewrite !Forall_forall. intros HF Hm t Ht. eapply zombie_frame; [by apply HF|].
  intros a Ha. apply Hm. apply list_elem_of_bind. eauto.
Qed.

Lemma wp_alloc x s T D L : fs_ok s T D L → Z.of_nat (length x) < 2 ^ 30 →
  wp (inode_alloc x) (λ p s',
    p = NULL ∧ fs_ok s' T D L ∧ g_inode_sem s' = g_inode_sem s ∧ inodes s' = inodes s
    ∨ p ≠ NULL ∧ ¬ (p ∈ L) ∧ ∃ h, kmm_ok h ({[ p ]} ∪ L) ∧
      s' = upd_inodes (<[p := node_of (fresh (inode_namecpy x)) NULL NULL]> (inodes s)) (upd_kmm h s)) s.
Proof.
  intros HO Hx. unfold inode_alloc. rewrite wp_bind, wp_on_kmm. destruct HO as [H1 H2 H3 H4 H5 H6 H7 H8].
  assert (1 ≤ FSNODE_SIZE (inode_namelen x) < 2 ^ 31).
  { unfold FSNODE_SIZE, inode_namelen. assert (length (inode_namecpy x) ≤ length x)%nat; [|lia].
    clear. induction x as [|c x IH]; simpl; [lia|]. destruct (c =? SLASH); simpl; lia. }
  eapply wp_mono; [by apply kmm_zalloc_spec|]. intros p h [[-> Hh]|(Hp & Hn & Hh)]; rewrite wp_bind; cbv beta.
  - apply (proj2 (wp_when _ _ _ _)). simpl. rewrite wp_ret. left. split_and!; done.
  - apply (proj2 (wp_when _ _ _ _)). rewrite (proj2 (Z.eqb_neq p NULL)) by done. simpl. rewrite wp_modify, wp_ret.
    right. eauto.
Qed.

Lemma put_ok s T D L p h ss o f' x rest v :
  fs_ok s T D L → p ≠ NULL → ¬ (p ∈ L) → kmm_ok h ({[ p ]} ∪ L) →
  find T ss = None → Forall plain ss → hole T ss = (o, f', x :: rest) →
  link_is o v s → trep (inodes s) v f' →
  fs_ok (link o p (upd_inodes (<[p := node_of (fresh x) NULL v]> (inodes s)) (upd_kmm h s)))
    (put T ss p) D ({[ p ]} ∪ L).
Proof.
  intros HO Hp HL Hh HN Hss HH Hv Hf'. destruct HO as [H1 H2 H3 H4 H5 H6 H7 H8].
  rewrite (put_plug _ _ p _ _ _ _ HN HH). rewrite <- (put_plug _ _ p _ _ _ _ HN HH).
  assert (p ∉ dom (inodes s)) as Hpd by set_solver. rewrite H6, elem_of_list_to_set in Hpd.
  unfold all_addrs in *. pose proof H5 as (N1 & N2 & N3)%NoDup_app.
  destruct (plug_addrs _ _ _ _ _ HH) as (l & P1 & P2 & Ho).
  set (s1 := upd_inodes (<[p := node_of (fresh x) NULL v]> (inodes s)) (upd_kmm h s)).
  assert (addrs (put T ss p) ≡ₚ p :: addrs T) as HP.
  { rewrite (put_plug _ _ p _ _ _ _ HN HH), P2, P1. simpl. apply Permutation_sym, Permutation_middle. }
  assert (from_option (λ q, p ≠ pos_addr q) True o) as Hop.
  { destruct o as [q|]; simpl; [|done]. intros ->. apply Hpd, elem_of_app. left. rewrite P1. set_solver. }
  assert (trep (inodes s1) (root_inode s1) T) as HT1.
  { eapply trep_frame; [exact H1|]. intros a Ha. apply lookup_insert_ne. set_solver. }
  assert (∀ a, a ∈ addrs f' → inodes (link o p s1) !! a = inodes s !! a) as HF.
  { intros a Ha. rewrite link_frame by (by eapply hole_outside). apply lookup_insert_ne.
    intros ->. apply Hpd, elem_of_app. left. rewrite P1. set_solver. }
  split.
  - rewrite (put_plug _ _ p _ _ _ _ HN HH). eapply relink; [done|done|done|]. simpl. split_and!; [done|done|].
    exists NULL, v. rewrite link_frame by done. split_and!; [apply lookup_insert_eq|done|].
    eapply trep_frame; [exact Hf'|exact HF].
  - by apply put_sorted.
  - rewrite (put_plug _ _ p _ _ _ _ HN HH). destruct (all_info_plug _ _ _ _ _ _ HH H3) as [Ha Hb].
    apply Hb. simpl. done.
  - eapply zombies_frame; [exact H4|]. intros a Ha.
    rewrite link_frame; [apply lookup_insert_ne; set_solver|].
    destruct o as [q|]; simpl; [|done]. intros ->. apply (N2 (pos_addr q)); [|done]. rewrite P1. set_solver.
  - unfold all_addrs. rewrite HP. simpl. constructor; done.
  - rewrite link_dom. unfold all_addrs. rewrite HP. simpl. by rewrite dom_insert_L, H6.
  - destruct o; done.
  - rewrite link_dom. simpl. rewrite dom_insert_L. set_solver.
Qed.

(** The reference counts are kept; new inodes are not referred to. *)
Definition keeps_refs (s s' : fsys H) : Prop :=
  (∀ a n, inodes s !! a = Some n → ∃ n', inodes s' !! a = Some n' ∧ i_crefs n' = i_crefs n) ∧
  (∀ a n', inodes s' !! a = Some n' → inodes s !! a = None → i_crefs n' = 0).

Lemma keeps_refs_refl s : keeps_refs s s.
Proof. split; [eauto|]. intros a n' E1 E2. by rewrite E1 in E2. Qed.

Lemma keeps_refs_trans s1 s2 s3 : keeps_refs s1 s2 → keeps_refs s2 s3 → keeps_refs s1 s3.
Proof.
  intros [A1 A2] [B1 B2]. split.
  - intros a n E. destruct (A1 _ _ E) as (n2 & E2 & C2). destruct (B1 _ _ E2) as (n3 & E3 & C3). exists n3.
    split; [done|congruence].
  - intros a n' E3 E1. destruct (inodes s2 !! a) as [n2|] eqn:E2; [|by eapply B2].
    destruct (B1 _ _ E2) as (n3 & E3' & C3). rewrite E3 in E3'. injection E3' as <-. rewrite C3. by eapply A2.
Qed.

Lemma alter_crefs f a (m : gmap Z inode) b : (∀ n, i_crefs (f n) = i_crefs n) →
  i_crefs <$> (alter f a m !! b) = i_crefs <$> m !! b.
Proof.
  intros Hf. destruct (decide (b = a)) as [->|N]; [|by rewrite lookup_alter_ne].
  rewrite lookup_alter_eq. destruct (m !! a); simpl; [by rewrite Hf|done].
Qed.

Lemma link_crefs o v (s : fsys H) b : i_crefs <$> inodes (link o v s) !! b = i_crefs <$> inodes s !! b.
Proof. destruct o as [[a|a]|]; simpl; [by apply alter_crefs|by apply alter_crefs|done]. Qed.

Lemma same_crefs (s s' : fsys H) : (∀ b, i_crefs <$> inodes s' !! b = i_crefs <$> inodes s !! b) → keeps_refs s s'.
Proof.
  intros HE. split.
  - intros a n E. specialize (HE a). rewrite E in HE. apply fmap_Some in HE as (n' & E' & ->). eauto.
  - intros a n' E' E. specialize (HE a). by rewrite E, E' in HE.
Qed.

(** What [inode_reserve] leaves: the nodes [ks] are new, and the last of them is
    the result unless there was no memory. *)
Definition reserved (s : fsys H) T D L ss (r : Z * Z) (s' : fsys H) : Prop :=
  g_inode_sem s' = g_inode_sem s ∧ keeps_refs s s' ∧
  ∃ T' ks, fs_ok s' T' D (list_to_set ks ∪ L) ∧ grown T T' ss ks ∧ Forall (λ k, ¬ (k ∈ L)) ks ∧
    (r.1 = OK ∧ r.2 ∈ ks ∧ find T' ss = Some (r.2, fresh (default [] (last ss)), [])
     ∨ r = (- ENOMEM, NULL) ∧ find T' ss = None).

Lemma reserved_step (s s1 s2 : fsys H) T D L ss k r :
  g_inode_sem s1 = g_inode_sem s → keeps_refs s s1 → find T ss = None → ss ≠ [] → ¬ (k ∈ L) →
  reserved s1 (put T ss k) D ({[ k ]} ∪ L) ss r s2 → reserved s T D L ss r s2.
Proof.
  intros El Hkr HN Hne Hk (El2 & Hkr2 & T' & ks & HO & HG & Hks & HR).
  split; [congruence|]. split; [by eapply keeps_refs_trans|]. exists T', (k :: ks). split_and!.
  - assert ((list_to_set (k :: ks) ∪ L : gset Z) = list_to_set ks ∪ ({[k]} ∪ L)) as -> by set_solver. done.
  - by apply grown_put.
  - constructor; [done|]. eapply Forall_impl; [exact Hks|]. set_solver.
  - destruct HR as [(? & ? & ?)|?]; [left|by right]. set_solver.
Qed.

(** One round of the loop of [inode_reserve]. *)
Lemma wp_reserve_round x left parent (k : Z → M (fsys H) (Z * Z)) Q s T D L ss f' rest :
  fs_ok s T D L → Forall plain ss → find T ss = None →
  hole T ss = (cell_of left parent, f', inode_namecpy x :: rest) → Z.of_nat (length x) < 2 ^ 30 →
  (∀ s1, fs_ok s1 T D L → g_inode_sem s1 = g_inode_sem s → keeps_refs s s1 → Q (- ENOMEM, NULL) s1) →
  (∀ p s1, p ≠ NULL → ¬ (p ∈ L) → fs_ok s1 (put T ss p) D ({[ p ]} ∪ L) → g_inode_sem s1 = g_inode_sem s →
     keeps_refs s s1 → wp (k p) Q s1) →
  wp (node <-- inode_alloc x ;;
      if negb (node =? NULL) then inode_insert node left parent ;;; k node else ret (- ENOMEM, NULL)) Q s.
Proof.
  intros HO Hss HN HH Hlen HQ Hk. rewrite wp_bind. eapply wp_mono; [by eapply wp_alloc|].
  intros p s1 [(-> & HO1 & El & Ei)|(Hp & HpL & h & Hh & ->)]; cbv beta.
  { apply HQ; [done|done|]. apply same_crefs. intros b. by rewrite Ei. }
  rewrite (proj2 (Z.eqb_neq p NULL)) by done. simpl. rewrite wp_bind.
  destruct (hole_link _ _ _ _ _ _ (ok_tree _ _ _ _ HO) HH) as (v & Hv & Hf').
  pose proof (put_ok _ _ _ _ _ _ _ _ _ _ _ _ HO Hp HpL Hh HN Hss HH Hv Hf') as HO1.
  assert (from_option (λ q, p ≠ pos_addr q) True (cell_of left parent)) as Hop.
  { destruct (cell_of left parent) as [q|] eqn:Eq; simpl; [|done]. intros ->. apply HpL, (ok_sub _ _ _ _ HO).
    rewrite (ok_dom _ _ _ _ HO), elem_of_list_to_set. apply elem_of_app. left. by eapply hole_inside. }
  eapply (wp_insert p _ _ _ _ v); [done|apply lookup_insert_eq| |done|].
  - destruct (cell_of left parent) as [[a|a]|]; simpl in *; [| |done]; destruct Hv as (n & En & Ev); exists n;
      by rewrite lookup_insert_ne.
  - simpl. rewrite alter_insert_eq. apply (Hk p); [done|done|exact HO1|by destruct (cell_of left parent)|].
    assert (inodes s !! p = None) as Ep.
    { apply not_elem_of_dom. intros Hd. by apply HpL, (ok_sub _ _ _ _ HO). }
    set (s1 := upd_inodes _ _). apply (keeps_refs_trans _ s1); [|apply same_crefs; intros b; apply link_crefs].
    split.
    + intros a n Ea. exists n. split; [|done]. simpl. rewrite lookup_insert_ne; [done|]. intros ->. by rewrite Ep in Ea.
    + intros a n' Ea En'. simpl in Ea. destruct (decide (a = p)) as [->|N].
      * rewrite lookup_insert_eq in Ea. by injection Ea as <-.
      * rewrite lookup_insert_ne in Ea by done. by rewrite Ea in En'.
Qed.

Lemma wp_reserve_loop fuel x left parent s T D L ss f' :
  fs_ok s T D L → ss ≠ [] → Forall plain ss → find T ss = None →
  hole T ss = (cell_of left parent, f', segs x) → (length x ≤ fuel)%nat → Z.of_nat (length x) < 2 ^ 30 →
  wp (reserve_loop fuel x left parent) (reserved s T D L ss) s.
Proof.
  revert x left parent s T L f'. induction fuel as [|fuel IH]; intros x left parent s T L f' HO Hne Hss HN HH Hx Hlen;
    rewrite segs_step in HH; pose proof (nextname_length x) as Hnext;
    unfold reserve_loop; fold reserve_loop; cbv zeta; eapply wp_reserve_round; try done.
  1,3: intros s1 HO1 El Hkr; split; [done|]; split; [done|]; exists T, []; split_and!;
        [by rewrite list_to_set_nil, (left_id_L ∅ (∪))|apply grown_refl|constructor|by right].
  all: intros p s1 Hp HpL HO1 El Hkr; pose proof (find_put_self _ _ p _ _ _ _ HN HH Hne) as HS.
  all: destruct (inode_nextname x) as [|c y] eqn:Ex; [|try (simpl in *; specialize (Hnext ltac:(done)); lia)].
  1,2: rewrite wp_ret; split; [done|]; split; [done|]; exists (put T ss p), [p]; split_and!;
    [by rewrite list_to_set_singleton_L|apply grown_put; [done|done|apply grown_refl]|by apply Forall_singleton|];
    left; split_and!; [done|set_solver|exact HS].
  assert (length (c :: y) < length x)%nat by (by apply Hnext).
  eapply wp_mono; [eapply (IH (c :: y) NULL p s1 (put T ss p) ({[ p ]} ∪ L) FNil); try done|].
  - unfold rest_segs in HS. by destruct (segs_cons (c :: y)) as (t & tl & E); rewrite E in HS.
  - unfold cell_of. rewrite Z.eqb_refl, (proj2 (Z.eqb_neq p NULL)) by done. cbn [negb].
    eapply put_hole; [done|exact HH|]. destruct (segs_cons (c :: y)) as (t & tl & E). unfold rest_segs. by rewrite E.
  - lia.
  - lia.
  - intros r s2 HR. by eapply (reserved_step _ s1).
Qed.

Lemma search_found path s T D L Q : fs_ok s T D L →
  (∀ r, found_ok T (drop 1 path) NULL NULL r → Q r s) → wp (inode_search path) Q s.
Proof. intros HO HQ. eapply wp_mono; [by eapply wp_search|]. intros r s' [-> Hr]. by apply HQ. Qed.

Lemma find_addr s T D L ss a i rest : fs_ok s T D L → find T ss = Some (a, i, rest) →
  a ≠ NULL ∧ a ∈ addrs T ∧ ∃ x y, inodes s !! a = Some (node_of i x y).
Proof. intros HO HF. destruct (trep_find _ _ _ _ _ _ _ (ok_tree _ _ _ _ HO) HF) as (? & ? & ?). done. Qed.

Lemma path_of_ne path : path_of path ≠ [].
Proof. unfold path_of. destruct (segs_cons (drop 1 path)) as (t & tl & ->). done. Qed.

Lemma path_of_plain path : Forall plain (path_of path).
Proof. apply segs_plain. Qed.

Lemma wp_reserve path s T D L : fs_ok s T D L → is_absolute path = true → Z.of_nat (length path) < 2 ^ 30 →
  wp (inode_reserve path) (λ r s',
    match find T (path_of path) with
    | Some _ => r = (- EEXIST, NULL) ∧ s' = s
    | None => reserved s T D L (path_of path) r s'
    end) s.
Proof.
  intros HO Ha Hlen. unfold inode_reserve. rewrite Ha. simpl. rewrite wp_bind. eapply search_found; [done|].
  intros r (HL & HC & HF). fold (path_of path) in HC, HF. destruct (find T (path_of path)) as [[[a i] rest]|] eqn:E.
  - destruct HF as (-> & _ & _). destruct (find_addr _ _ _ _ _ _ _ _ HO E) as (Hn & _ & _).
    by rewrite (proj2 (Z.eqb_neq a NULL)).
  - destruct HF as (-> & HS & _). simpl. rewrite length_drop in HL.
    destruct (hole T (path_of path)) as [[o f'] ss'] eqn:Eh. simpl in *.
    eapply (wp_reserve_loop _ _ _ _ _ _ _ _ _ f'); eauto using path_of_ne, path_of_plain; [|lia|lia].
    rewrite Eh, HS, HC. by destruct o.
Qed.

(** ** Freeing *)

Definition freed (l : list Z) (s : fsys H) (L : gset Z) (s' : fsys H) : Prop :=
  root_inode s' = root_inode s ∧ g_inode_sem s' = g_inode_sem s ∧
  (∀ a, inodes s' !! a = if bool_decide (a ∈ l) then None else inodes s !! a) ∧
  kmm_ok (kmm s') (L ∖ list_to_set l).

Lemma freed_nil (s : fsys H) L : kmm_ok (kmm s) L → freed [] s L s.
Proof.
  intros HL. split_and!; [done|done|done|]. rewrite list_to_set_nil.
  assert (L ∖ ∅ = L) as -> by set_solver. done.
Qed.

Lemma freed_app l1 l2 (s s1 s2 : fsys H) L :
  freed l1 s L s1 → freed l2 s1 (L ∖ list_to_set l1) s2 → freed (l1 ++ l2) s L s2.
Proof.
  intros (R1 & G1 & I1 & K1) (R2 & G2 & I2 & K2). split_and!; [congruence|congruence| |].
  - intros a. rewrite I2, I1. repeat case_bool_decide; set_solver.
  - assert (L ∖ list_to_set (l1 ++ l2) = L ∖ list_to_set l1 ∖ list_to_set l2) as -> by set_solver. done.
Qed.

Lemma freed_perm l1 l2 (s s' : fsys H) L : l1 ≡ₚ l2 → freed l1 s L s' → freed l2 s L s'.
Proof.
  intros HP (R & G & I & K). split_and!; [done|done| |].
  - intros a. rewrite I. assert (bool_decide (a ∈ l1) = bool_decide (a ∈ l2)) as ->; [|done].
    apply bool_decide_ext. by rewrite HP.
  - assert ((list_to_set l2 : gset Z) = list_to_set l1) as ->; [|done]. apply list_to_set_perm_L. by symmetry.
Qed.

Lemma wp_release_node p (s : fsys H) L : kmm_ok (kmm s) L → p ∈ L → p ≠ NULL →
  wp (release_node p) (λ _ s', freed [p] s L s') s.
Proof.
  intros HL Hp Hn. unfold release_node. rewrite wp_bind, wp_on_kmm. eapply wp_mono; [by apply kmm_free_spec|].
  intros [] h Hh. rewrite wp_modify. split_and!; [done|done| |by rewrite list_to_set_singleton_L].
  intros a. simpl. destruct (decide (a = p)) as [->|N].
  - rewrite bool_decide_true by set_solver. apply lookup_delete_eq.
  - rewrite bool_decide_false by set_solver. by apply lookup_delete_ne.
Qed.

Lemma freed_trep l (s s' : fsys H) L p f : freed l s L s' → trep (inodes s) p f →
  (∀ a, a ∈ addrs f → a ∉ l) → trep (inodes s') p f.
Proof.
  intros (_ & _ & I & _) HT Hd. eapply trep_frame; [exact HT|]. intros a Ha. rewrite I.
  by rewrite bool_decide_false by (by apply Hd).
Qed.

Lemma wp_inode_free fuel p f (s : fsys H) L :
  trep (inodes s) p f → NoDup (addrs f) → kmm_ok (kmm s) L → (∀ a, a ∈ addrs f → a ∈ L) →
  (length (addrs f) ≤ fuel)%nat → wp (inode_free fuel p) (λ _ s', freed (addrs f) s L s') s.
Proof.
  revert fuel p s L. induction f as [|a i c IHc r IHr]; intros fuel p s L HT HN HL Hsub Hf.
  - simpl in HT. subst p. destruct fuel; simpl; by apply freed_nil.
  - simpl in *. destruct HT as (-> & Ha & x & y & E & Hc & Hr). rewrite length_app in Hf.
    apply NoDup_cons in HN as [Na (Nc & Nd & Nr)%NoDup_app]. destruct fuel as [|fuel]; [lia|]. cbn [inode_free].
    apply (proj2 (wp_when _ _ _ _)). rewrite (proj2 (Z.eqb_neq a NULL)) by done. cbn [negb].
    rewrite wp_bind, (wp_iget a _ _ _ Ha E), wp_bind.
    eapply wp_mono; [eapply (IHr fuel y s L); [done|done|done|set_solver|lia]|]. intros [] s1 F1. cbv beta.
    assert (inodes s1 !! a = Some (node_of i x y)) as E1.
    { destruct F1 as (_ & _ & I1 & _). rewrite I1, bool_decide_false by set_solver. done. }
    rewrite wp_bind, (wp_iget a _ _ _ Ha E1), wp_bind.
    eapply wp_mono; [eapply (IHc fuel x s1 (L ∖ list_to_set (addrs r))); [|done|apply F1|set_solver|lia]|].
    { eapply freed_trep; [exact F1|done|]. intros b Hb1 Hb2. by apply (Nd b). }
    intros [] s2 F2. pose proof (freed_app _ _ _ _ _ _ F1 F2) as F3. cbv beta.
    eapply wp_mono; [eapply (wp_release_node a s2 (L ∖ list_to_set (addrs r ++ addrs c))); [apply F3|set_solver|done]|].
    intros [] s3 F4. eapply freed_perm; [|eapply freed_app; [exact F3|exact F4]].
    rewrite (Permutation_app_comm (addrs r)). symmetry. apply Permutation_cons_append.
Qed.

Lemma wp_free_subtree a i c (s : fsys H) L :
  trep (inodes s) a (FCons a i c FNil) → NoDup (a :: addrs c) → kmm_ok (kmm s) L →
  (∀ b, b ∈ a :: addrs c → b ∈ L) → (length (addrs c) ≤ size (inodes s))%nat →
  wp (free_subtree a) (λ _ s', freed (a :: addrs c) s L s') s.
Proof.
  simpl. intros (_ & Ha & x & y & E & Hc & _) [Na Nc]%NoDup_cons HL Hsub Hf. unfold free_subtree.
  rewrite wp_bind, (wp_iget a _ _ _ Ha E), wp_bind, wp_gets, wp_bind.
  eapply wp_mono; [eapply (wp_inode_free _ x c s L); [done|done|done|set_solver|lia]|]. intros [] s1 F1. cbv beta.
  eapply wp_mono; [eapply (wp_release_node a s1 (L ∖ list_to_set (addrs c))); [apply F1|set_solver|done]|].
  intros [] s2 F2. eapply freed_perm; [|eapply freed_app; [exact F1|exact F2]].
  symmetry. apply Permutation_cons_append.
Qed.

End Specs.
End InodeSpec.
