(* ===== verification/InodeOps.v ===== *)
(** * The operations on inodes

    Unlinking and removing a name, taking and giving references, and the two
    operations of drivers. *)

From S2P Require Import Prelude Queue Inode InodeTree InodeSpec.

Module InodeOps.
Export InodeSpec.
#[local] Open Scope cmd_scope.

Section Specs.
Context {H : Type} {kmmI : Kmm H} {kmmL : KmmLaws H} (getpid : Z).
Implicit Types (s : fsys H) (T : forest) (D : list forest) (L : gset Z).

(** ** Unlinking *)

Lemma find_hole_found T ss a i rest : find T ss = Some (a, i, rest) →
  ∃ o c r x, hole T ss = (o, FCons a i c r, x :: rest).
Proof.
  rewrite find_hole. destruct (hole T ss) as [[o [|b j c r]] [|x tl]]; try done.
  destruct (name_cmp x (nm j)); try done. intros [= -> -> ->]. eauto.
Qed.

(** The state after [inode_unlink]: the node stands alone. *)
Definition unlinked s T D L ss a i c s' : Prop :=
  g_inode_sem s' = g_inode_sem s ∧ kmm s' = kmm s ∧ dom (inodes s') = dom (inodes s) ∧
  (∀ b, i_crefs <$> inodes s' !! b = i_crefs <$> inodes s !! b) ∧
  trep (inodes s') (root_inode s') (del T ss) ∧ Forall (zombie (inodes s')) D ∧
  trep (inodes s') a (FCons a i c FNil) ∧
  addrs T ≡ₚ (a :: addrs c) ++ addrs (del T ss) ∧ all_info (λ _, live) c ∧ all_info (λ _, live) (del T ss).

Lemma unlink_ok s T D L ss o a i c r x rest y n :
  fs_ok s T D L → hole T ss = (o, FCons a i c r, x :: rest) → find T ss = Some (a, i, rest) →
  inodes s !! a = Some n → y = i_peer n →
  unlinked s T D L ss a i c
    (upd_inodes (alter (set_i_peer NULL) a (inodes (link o y s))) (link o y s)).
Proof.
  intros HO HH HF En ->. destruct HO as [H1 H2 H3 H4 H5 H6 H7 H8]. unfold all_addrs in *.
  pose proof H5 as (N1 & N2 & _)%NoDup_app. destruct (hole_link _ _ _ _ _ _ H1 HH) as (v & Hv & HT).
  simpl in HT. destruct HT as (-> & Ha & x1 & y & E & Hc & Hr). assert (n = node_of i x1 y) as -> by congruence.
  simpl. destruct (plug_addrs _ _ _ _ _ HH) as (l & P1 & P2 & Ho). specialize (P2 r).
  pose proof (del_plug _ _ _ _ _ _ _ _ _ HF HH) as Ed. rewrite <- Ed in P2. simpl in P1.
  assert (NoDup (l ++ a :: addrs c ++ addrs r)) as (NL & NX & NR)%NoDup_app by (by rewrite <- P1).
  apply NoDup_cons in NR as [Na (Nc & Nd & Nr)%NoDup_app].
  assert (∀ b, b ∈ a :: addrs c ++ addrs r → from_option (λ q, b ≠ pos_addr q) True o) as Hout.
  { intros b Hb. eapply hole_outside; [exact N1|exact HH|done]. }
  assert (∀ b, b ∈ addrs (del T ss) → b ≠ a) as Hda.
  { intros b Hb ->. rewrite P2, elem_of_app in Hb. destruct Hb as [Hb|Hb]; [apply (NX a); set_solver|set_solver]. }
  assert (trep (inodes (link o y s)) y r) as Hr'.
  { eapply trep_frame; [exact Hr|]. intros b Hb. apply link_frame, Hout. set_solver. }
  destruct (all_info_plug _ _ _ _ _ _ HH H3) as [(_ & Lc & Lr) Lp].
  split_and!; simpl.
  - by destruct o.
  - by destruct o.
  - rewrite dom_alter_L. apply link_dom.
  - intros b. rewrite alter_crefs by done. apply link_crefs.
  - eapply trep_frame; [rewrite Ed; eapply relink; [done|done|exact HH|exact Hr']|].
    intros b Hb. apply lookup_alter_ne. intros <-. by apply (Hda a).
  - eapply zombies_frame; [exact H4|]. intros b Hb. rewrite lookup_alter_ne, link_frame; [done| |].
    + destruct o as [q|]; simpl in *; [|done]. intros ->. apply (N2 (pos_addr q)); [|done]. rewrite P1. set_solver.
    + intros <-. apply (N2 a); [|done]. rewrite P1. set_solver.
  - split_and!; [done|done|]. exists x1, NULL. rewrite lookup_alter_eq, link_frame by (apply Hout; set_solver). rewrite E. split_and!; [done| |done].
    eapply trep_frame; [exact Hc|]. intros b Hb. rewrite lookup_alter_ne by set_solver. apply link_frame, Hout. set_solver.
  - rewrite P1, P2. rewrite (Permutation_app_comm l). simpl. constructor. rewrite <- (assoc_L (++)).
    apply Permutation_app_head, Permutation_app_comm.
  - done.
  - rewrite Ed. by apply Lp.
Qed.

Lemma wp_inode_unlink path s T D L : fs_ok s T D L → is_absolute path = true →
  wp (inode_unlink path) (λ p s',
    match find T (path_of path) with
    | Some (a, i, rest) => p = a ∧ ∃ o c r x, hole T (path_of path) = (o, FCons a i c r, x :: rest) ∧
        unlinked s T D L (path_of path) a i c s'
    | None => p = NULL ∧ s' = s
    end) s.
Proof.
  intros HO Ha. unfold inode_unlink. rewrite Ha. simpl. rewrite wp_bind. eapply search_found; [done|].
  intros r (HL & HC & HF). fold (path_of path) in HC, HF. rewrite wp_bind.
  destruct (find T (path_of path)) as [[[a i] rest]|] eqn:E; apply (proj2 (wp_when _ _ _ _)).
  2: by destruct HF as (-> & _).
  destruct HF as (-> & _ & _). destruct (find_addr _ _ _ _ _ _ _ _ HO E) as (Hn & HaT & x & y & En).
  rewrite (proj2 (Z.eqb_neq a NULL)) by done. cbn [negb]. rewrite wp_bind, (wp_iget a _ _ _ Hn En), wp_bind.
  destruct (find_hole_found _ _ _ _ _ E) as (o & c & r0 & x0 & Eh). rewrite Eh in HC. simpl in HC.
  pose proof (unlink_ok _ _ _ _ _ _ _ _ _ _ _ _ _ _ HO Eh E En eq_refl) as HU. simpl in HU.
  assert (from_option (λ q, a ≠ pos_addr q) True o) as Hout.
  { eapply hole_outside; [|exact Eh|simpl; set_solver]. by destruct (proj1 (NoDup_app _ _) (ok_nodup _ _ _ _ HO)). }
  destruct (hole_link _ _ _ _ _ _ (ok_tree _ _ _ _ HO) Eh) as (v & Hv & _).
  assert (inodes (link o y s) !! a = Some (node_of i x y)) as Ea by (by rewrite link_frame).
  assert (cell_of (f_peer r) (f_parent r) = o) as Ho by (rewrite HC; by destruct o). clear HC HL. subst o.
  unfold cell_of in *. destruct (Z.eqb_spec (f_peer r) NULL) as [->|N1]; simpl in *.
  - destruct (Z.eqb_spec (f_parent r) NULL) as [->|N2]; simpl in *.
    + rewrite wp_modify, (wp_iset a (node_of i x y)), wp_ret by done. eauto 10.
    + destruct Hv as (n & En' & _). rewrite (wp_iset (f_parent r) n), (wp_iset a (node_of i x y)), wp_ret by done. eauto 10.
  - destruct Hv as (n & En' & _). rewrite (wp_iset (f_peer r) n), (wp_iset a (node_of i x y)), wp_ret by done. eauto 10.
Qed.

(** ** Removing *)

Lemma elem_of_all_addrs T D a : a ∈ all_addrs T D ↔ a ∈ addrs T ∨ a ∈ D ≫= addrs.
Proof. apply elem_of_app. Qed.

(** [inode_remove] on a name that exists. *)
Definition removed s T D L ss a i rest r s' : Prop :=
  g_inode_sem s' = g_inode_sem s ∧
  (∀ b n', inodes s' !! b = Some n' → ∃ n, inodes s !! b = Some n ∧ i_crefs n' = i_crefs n) ∧
  ∃ o c e x, hole T ss = (o, FCons a i c e, x :: rest) ∧ addrs T ≡ₚ (a :: addrs c) ++ addrs (del T ss) ∧
  if crefs i =? 0 then r = OK ∧ fs_ok s' (del T ss) D (L ∖ list_to_set (a :: addrs c))
  else r = - EBUSY ∧
    fs_ok s' (del T ss) (FCons a (with_flags (Z.lor (flags i) FSNODEFLAG_DELETED) i) c FNil :: D) L.

Lemma lor_deleted i : deleted (with_flags (Z.lor (flags i) FSNODEFLAG_DELETED) i) = true.
Proof.
  unfold deleted. apply negb_true_iff, Z.eqb_neq. intros E. apply (f_equal (λ z, Z.testbit z 3)) in E. cbn [flags with_flags] in E.
  rewrite Z.land_spec, Z.lor_spec in E. change (Z.testbit FSNODEFLAG_DELETED 3) with true in E.
  by rewrite orb_true_r in E.
Qed.

Lemma find_live f ss a i rest : all_info (λ _, live) f → find f ss = Some (a, i, rest) → live i.
Proof.
  revert ss. induction f as [|b j d IHd e IHe]; intros [|t tl]; simpl; try done. intros (? & ? & ?).
  destruct (name_cmp t (nm j)); [|done|by apply IHe]. destruct (stops tl j); [by intros [= <- <- <-]|by apply IHd].
Qed.

Lemma freed_all l (s s' : fsys H) T D D' L (T0 : forest) :
  freed l s L s' → dom (inodes s) = list_to_set (all_addrs T0 D') →
  all_addrs T0 D' ≡ₚ l ++ all_addrs T D → NoDup (all_addrs T0 D') → dom (inodes s) ⊆ L →
  trep (inodes s) (root_inode s) T → sorted T → all_info (λ _, live) T → Forall (zombie (inodes s)) D →
  fs_ok s' T D (L ∖ list_to_set l).
Proof.
  intros HF Hdom HP HN Hsub HT HS HL HD. pose proof HF as (R & G & I & K).
  rewrite HP in HN. apply NoDup_app in HN as (_ & N2 & N3).
  assert (dom (inodes s') = list_to_set (all_addrs T D)) as Hdom'.
  { apply set_eq. intros a. rewrite elem_of_dom, I, elem_of_list_to_set.
    assert (is_Some (inodes s !! a) ↔ a ∈ l ∨ a ∈ all_addrs T D) as Ha.
    { rewrite <- elem_of_dom, Hdom, elem_of_list_to_set, HP. apply elem_of_app. }
    case_bool_decide; [|tauto]. split; [by intros [? ?]|]. intros Hb. by destruct (N2 a). }
  split; try done.
  - rewrite R. eapply freed_trep; [exact HF|exact HT|]. intros a Ha Hl. apply (N2 a Hl), elem_of_all_addrs. by left.
  - eapply zombies_frame; [exact HD|]. intros a Ha. rewrite I, bool_decide_false; [done|]. intros Hl.
    apply (N2 a Hl), elem_of_all_addrs. by right.
  - rewrite Hdom'. intros a. rewrite elem_of_difference, !elem_of_list_to_set. intros Ha. split.
    + apply Hsub. rewrite Hdom, elem_of_list_to_set, HP, elem_of_app. by right.
    + intros Hl. by destruct (N2 a).
Qed.

Lemma wp_remove path s T D L : fs_ok s T D L → is_absolute path = true →
  wp (inode_remove path) (λ r s',
    match find T (path_of path) with
    | Some (a, i, rest) => removed s T D L (path_of path) a i rest r s'
    | None => r = - ENOENT ∧ s' = s
    end) s.
Proof.
  intros HO Ha. unfold inode_remove. rewrite wp_bind. eapply wp_mono; [by eapply wp_inode_unlink|]. intros p s1.
  destruct (find T (path_of path)) as [[[a i] rest]|] eqn:E.
  2: { intros [-> ->]. done. }
  intros [-> (o & c & e & x0 & Eh & El & Ek & Ed & Ec & HT & HD & Ht & HP & Lc & LT)].
  assert (∀ b n', inodes s1 !! b = Some n' → ∃ n, inodes s !! b = Some n ∧ i_crefs n' = i_crefs n) as Hcr'.
  { intros b n' Eb. specialize (Ec b). rewrite Eb in Ec. symmetry in Ec. apply fmap_Some in Ec as (n & En & ->). eauto. }
  pose proof Ht as (_ & Hn & x & y & En & _).
  rewrite (proj2 (Z.eqb_neq a NULL)) by done. cbn [negb]. rewrite wp_bind, (wp_iget a _ _ _ Hn En). cbn [i_crefs node_of].
  assert (all_addrs T D ≡ₚ (a :: addrs c) ++ all_addrs (del T (path_of path)) D) as HPa.
  { unfold all_addrs. rewrite HP. by rewrite <- (assoc_L (++)). }
  pose proof (find_live _ _ _ _ _ (ok_live _ _ _ _ HO) E) as [Hcr _].
  assert (NoDup ((a :: addrs c) ++ all_addrs (del T (path_of path)) D)) as HND by (rewrite <- HPa; apply HO).
  unfold removed. destruct (Z.eqb_spec (crefs i) 0) as [E0|N0]; cbn [negb].
  - rewrite wp_bind. eapply wp_mono; [eapply (wp_free_subtree a i c s1 L); [done| | | |]|].
    + by apply NoDup_app in HND as (? & _).
    + rewrite Ek. apply HO.
    + intros b Hb. apply (ok_sub _ _ _ _ HO). rewrite (ok_dom _ _ _ _ HO), elem_of_list_to_set, HPa, elem_of_app. by left.
    + rewrite <- size_dom, Ed, size_dom, (size_inodes _ _ _ _ HO), HPa, length_app. simpl. lia.
    + intros [] s2 HF. cbv beta. rewrite wp_ret. split; [destruct HF as (_ & -> & _); done|]. split.
      { intros b n' Eb. destruct HF as (_ & _ & HI & _). rewrite HI in Eb. case_bool_decide; [done|]. by apply Hcr'. }
      exists o, c, e, x0. split_and!; [done|done|done|].
      eapply freed_all; [exact HF|rewrite Ed; apply HO|done|apply HO|rewrite Ed; apply HO|done|apply del_sorted, HO|done|done].
  - rewrite wp_bind, (wp_iset a _ _ _ _ Hn En), wp_ret. split; [done|]. split.
    { intros b n' Eb. simpl in Eb. destruct (decide (b = a)) as [->|N].
      - rewrite lookup_alter_eq, En in Eb. injection Eb as <-. destruct (Hcr' _ _ En) as (n & E1 & E2). by exists n.
      - rewrite lookup_alter_ne in Eb by done. by apply Hcr'. }
    exists o, c, e, x0. split_and!; [done|done|done|].
    apply NoDup_app in HND as (Nt & N2 & N3). pose proof Nt as [Na Nc]%NoDup_cons.
    assert (∀ b, b ∈ all_addrs (del T (path_of path)) D → b ≠ a) as Hne by (intros b Hb ->; apply (N2 a); set_solver).
    assert (all_addrs (del T (path_of path)) (FCons a (with_flags (Z.lor (flags i) FSNODEFLAG_DELETED) i) c FNil :: D)
      ≡ₚ all_addrs T D) as HP2.
    { rewrite HPa. unfold all_addrs. simpl. rewrite app_nil_r. rewrite (Permutation_app_comm (addrs (del _ _))).
      simpl. constructor. rewrite <- (assoc_L (++)). apply Permutation_app_head, Permutation_app_comm. }
    split; simpl.
    + eapply trep_frame; [exact HT|]. intros b Hb. apply lookup_alter_ne. intros <-. apply (Hne a); [|done].
      apply elem_of_all_addrs. by left.
    + apply del_sorted, HO.
    + done.
    + constructor.
      * simpl. split_and!; [done|done| |by apply lor_deleted|lia|lia|done].
        destruct Ht as (_ & _ & x' & y' & En' & Hc & ->). exists x', NULL. rewrite lookup_alter_eq, En'.
        split_and!; [done| |done]. eapply trep_frame; [exact Hc|]. intros b Hb. apply lookup_alter_ne. set_solver.
      * eapply zombies_frame; [exact HD|]. intros b Hb. apply lookup_alter_ne. intros <-. apply (Hne a); [|done].
        apply elem_of_all_addrs. by right.
    + rewrite HP2. apply HO.
    + rewrite dom_alter_L, Ed, HP2. apply HO.
    + rewrite Ek. apply HO.
    + rewrite dom_alter_L, Ed. apply HO.
Qed.

(** ** References *)

(** The reference count of a node is set, wherever the node is. *)
Definition set_crefs (a v : Z) s : fsys H := upd_inodes (alter (set_i_crefs v) a (inodes s)) s.
Definition at_crefs (a v : Z) (f : forest) : forest := map_at a (with_crefs v) f.

Lemma zombie_crefs m a v t : zombie m t → 0 ≤ v ≤ 32767 →
  (∀ n, m !! a = Some n → v = 0 → Z.land (i_flags n) FSNODEFLAG_DELETED = 0) →
  zombie (alter (set_i_crefs v) a m) (at_crefs a v t).
Proof.
  destruct t as [|b i c [|]]; try done. intros (HT & Hd & Hc & HL) Hv Hz.
  split; [by apply (map_at_trep _ _ (FCons b i c FNil))|split; [|split]].
  - by destruct (b =? a).
  - destruct (Z.eqb_spec b a) as [->|N]; simpl; [|done]. destruct HT as (_ & _ & x & y & E & _).
    specialize (Hz _ E). simpl in Hz. unfold deleted in Hd. apply negb_true_iff, Z.eqb_neq in Hd. lia.
  - eapply all_info_map_at; [|exact HL]. intros b' i' [? ?]. by destruct (b' =? a).
Qed.

Lemma bind_at_crefs a v D : (at_crefs a v <$> D) ≫= addrs = D ≫= addrs.
Proof. induction D as [|t D IH]; [done|]. rewrite fmap_cons, !bind_cons, IH. unfold at_crefs. by rewrite map_at_addrs. Qed.

Lemma set_crefs_ok a v s T D L : fs_ok s T D L → 0 ≤ v ≤ 32767 →
  (∀ n, inodes s !! a = Some n → v = 0 → Z.land (i_flags n) FSNODEFLAG_DELETED = 0) →
  fs_ok (set_crefs a v s) (at_crefs a v T) (at_crefs a v <$> D) L.
Proof.
  intros [H1 H2 H3 H4 H5 H6 H7 H8] Hv Hz.
  assert (all_addrs (at_crefs a v T) (at_crefs a v <$> D) = all_addrs T D) as EA.
  { unfold all_addrs. rewrite bind_at_crefs. unfold at_crefs. by rewrite map_at_addrs. }
  split; simpl; rewrite ?EA, ?dom_alter_L; try done.
  - by apply map_at_trep.
  - by apply map_at_sorted.
  - eapply all_info_map_at; [|exact H3]. intros b i [? ?]. by destruct (b =? a).
  - apply Forall_fmap. eapply Forall_impl; [exact H4|]. intros t Ht. by apply zombie_crefs.
Qed.

Lemma alter_ext_at {V} (f g : V → V) a (m : gmap Z V) n : m !! a = Some n → f n = g n → alter f a m = alter g a m.
Proof.
  intros E Hfg. apply map_eq. intros b. destruct (decide (b = a)) as [->|N].
  - rewrite !lookup_alter_eq, E. simpl. by rewrite Hfg.
  - by rewrite !lookup_alter_ne.
Qed.

Lemma alter_id_at {V} (f : V → V) a (m : gmap Z V) n : m !! a = Some n → f n = n → alter f a m = m.
Proof.
  intros E Hfg. apply map_eq. intros b. destruct (decide (b = a)) as [->|N].
  - rewrite !lookup_alter_eq, E. simpl. by rewrite Hfg.
  - by rewrite !lookup_alter_ne.
Qed.

(** Every inode is a node of the tree or of what was removed, with its data. *)
Lemma trep_lookup m p f a : trep m p f → a ∈ addrs f → ∃ i x y, m !! a = Some (node_of i x y).
Proof.
  revert p. induction f as [|b i c IHc r IHr]; intros p; simpl; [set_solver|].
  intros (-> & Hb & x & y & E & Hc & Hr). rewrite elem_of_cons, elem_of_app. intros [->|[Ha|Ha]]; eauto.
Qed.

Lemma ok_not_null s T D L a n : fs_ok s T D L → inodes s !! a = Some n → a ≠ NULL.
Proof.
  intros HO E. apply elem_of_dom_2 in E. rewrite (ok_dom _ _ _ _ HO), elem_of_list_to_set, elem_of_all_addrs in E.
  destruct E as [E|(t & Ht & Hin)%list_elem_of_bind].
  - by destruct (trep_addrs _ _ _ _ (ok_tree _ _ _ _ HO) E).
  - pose proof (proj1 (Forall_forall _ _) (ok_zombies _ _ _ _ HO) _ Hin) as Hz.
    destruct t as [|b i c [|]]; try done. destruct Hz as [HT _]. by destruct (trep_addrs _ _ _ _ HT Ht).
Qed.

Lemma trep_live m p f a n : trep m p f → NoDup (addrs f) → all_info (λ _, live) f → a ∈ addrs f → m !! a = Some n →
  0 ≤ i_crefs n ≤ 32767 ∧ Z.land (i_flags n) FSNODEFLAG_DELETED = 0.
Proof.
  revert p. induction f as [|b i c IHc r IHr]; intros p; simpl; [set_solver|].
  intros (-> & Hb & x & y & E & Hc & Hr) [Nb (Nc & Nd & Nr)%NoDup_app]%NoDup_cons (Hl & Lc & Lr).
  rewrite elem_of_cons, elem_of_app. intros [->|[Ha|Ha]] En; [|by eapply IHc|by eapply IHr].
  rewrite E in En. injection En as <-. simpl. destruct Hl as [? Hd]. split; [done|]. unfold deleted in Hd.
  by apply negb_false_iff, Z.eqb_eq in Hd.
Qed.

Lemma wp_addref a n s T D L Q : getpid ≠ NO_HOLDER → lockable getpid (g_inode_sem s) → fs_ok s T D L →
  inodes s !! a = Some n → 0 ≤ i_crefs n < 32767 →
  Q tt (set_crefs a (i_crefs n + 1) s) → wp (inode_addref getpid a) Q s.
Proof.
  intros Hp Hl HO En Hc HQ. pose proof (ok_not_null _ _ _ _ _ _ HO En) as Ha. unfold inode_addref.
  apply (proj2 (wp_when _ _ _ _)). rewrite (proj2 (Z.eqb_neq a NULL)) by done. cbn [negb].
  rewrite wp_bind, wp_semtake, wp_bind by done. rewrite (wp_iset a n) by done.
  rewrite (wp_semgive _ _ _ (g_inode_sem s)) by done. simpl.
  rewrite (alter_ext_at _ (set_i_crefs (i_crefs n + 1)) _ _ n En) by (by rewrite i16_small by lia). by destruct s.
Qed.

Lemma wp_find path s T D L : getpid ≠ NO_HOLDER → lockable getpid (g_inode_sem s) → fs_ok s T D L →
  is_absolute path = true →
  (∀ a i rest, find T (path_of path) = Some (a, i, rest) → crefs i < 32767) →
  wp (inode_find getpid path) (λ r s',
    match find T (path_of path) with
    | Some (a, i, rest) => ∃ rp, r = (a, Some rp) ∧ rest_segs rp = rest ∧ s' = set_crefs a (crefs i + 1) s
    | None => r = (NULL, None) ∧ s' = s
    end) s.
Proof.
  intros Hp Hl HO Ha Hc. unfold inode_find. rewrite Ha. cbn [negb]. rewrite wp_bind, wp_semtake, wp_bind by done.
  set (s1 := upd_isem _ _). assert (fs_ok s1 T D L) as HO1 by (destruct HO; by split).
  eapply search_found; [done|]. intros r (_ & _ & HF). fold (path_of path) in HF. rewrite wp_bind.
  apply (proj2 (wp_when _ _ _ _)). destruct (find T (path_of path)) as [[[a i] rest]|] eqn:E.
  - destruct HF as (-> & HR & ->). destruct (find_addr _ _ _ _ _ _ _ _ HO1 E) as (Hn & _ & x & y & En).
    rewrite (proj2 (Z.eqb_neq a NULL)) by done. cbn [negb]. rewrite (wp_iset a _ _ _ _ Hn En), wp_bind.
    rewrite (wp_semgive _ _ _ (g_inode_sem s)), wp_ret by done. exists (f_name r). split_and!; [done|done|].
    pose proof (find_live _ _ _ _ _ (ok_live _ _ _ _ HO) E) as [? _]. specialize (Hc _ _ _ eq_refl).
    unfold set_crefs. simpl.
    rewrite (alter_ext_at _ (set_i_crefs (crefs i + 1)) _ _ _ En) by (simpl; by rewrite i16_small by lia). by destruct s.
  - destruct HF as (-> & _ & ->). simpl. rewrite wp_bind, (wp_semgive _ _ _ (g_inode_sem s)), wp_ret by done.
    split; [done|]. by destruct s.
Qed.

(** A reference is given back, and the node stays. *)
Lemma wp_release_keep a n s T D L Q : getpid ≠ NO_HOLDER → lockable getpid (g_inode_sem s) → fs_ok s T D L →
  inodes s !! a = Some n → 0 ≤ i_crefs n ≤ 32767 →
  (1 < i_crefs n ∨ Z.land (i_flags n) FSNODEFLAG_DELETED = 0) →
  Q tt (set_crefs a (Z.max 0 (i_crefs n - 1)) s) → wp (inode_release getpid a) Q s.
Proof.
  intros Hp Hl HO En Hc Hk HQ. pose proof (ok_not_null _ _ _ _ _ _ HO En) as Ha. unfold inode_release.
  apply (proj2 (wp_when _ _ _ _)). rewrite (proj2 (Z.eqb_neq a NULL)) by done. cbn [negb].
  rewrite wp_bind, wp_semtake, wp_bind by done. set (s1 := upd_isem _ _).
  rewrite (wp_iget a n), wp_bind by done. apply (proj2 (wp_when _ _ _ _)).
  set (v := Z.max 0 (i_crefs n - 1)) in *.
  assert (∀ (b : bool), b = negb (i_crefs n =? 0) →
    (if b then alter (set_i_crefs (i16 (i_crefs n - 1))) a (inodes s1) else inodes s1) =
    alter (set_i_crefs v) a (inodes s1)) as Halt.
  { intros b ->. destruct (Z.eqb_spec (i_crefs n) 0) as [E0|N0]; simpl.
    - symmetry. eapply alter_id_at; [exact En|]. assert (v = i_crefs n) as -> by (unfold v; lia). by destruct n.
    - unfold v. rewrite i16_small, Z.max_r by lia. done. }
  specialize (Halt _ eq_refl).
  assert (∀ (Q' : unit → fsys H → Prop), Q' tt (upd_isem (taken getpid (g_inode_sem s)) (set_crefs a v s)) →
    if negb (i_crefs n =? 0) then wp (set a (set_i_crefs (i16 (i_crefs n - 1)))) Q' s1 else Q' tt s1) as Hstep.
  { intros Q' HQ'. revert Halt. destruct (negb (i_crefs n =? 0)); intros Halt.
    - rewrite (wp_iset a n) by done. by rewrite Halt.
    - unfold set_crefs in HQ'. change (inodes s1) with (inodes s) in Halt. rewrite <- Halt in HQ'.
      assert (upd_inodes (inodes s) s = s) as Es by (by destruct s). by rewrite Es in HQ'. }
  apply Hstep. clear Hstep Halt. cbv beta.
  assert (inodes (set_crefs a v s) !! a = Some (set_i_crefs v n)) as En2 by (simpl; by rewrite lookup_alter_eq, En).
  rewrite wp_bind, (wp_iget a (set_i_crefs v n)) by done.
  assert ((i_crefs (set_i_crefs v n) <=? 0) && negb (Z.land (i_flags (set_i_crefs v n)) FSNODEFLAG_DELETED =? 0) = false)
    as ->.
  { simpl. destruct Hk as [Hk| ->]; [|apply andb_false_r]. rewrite (proj2 (Z.leb_gt _ _)) by lia. done. }
  rewrite (wp_semgive _ _ _ (g_inode_sem s)) by done. by destruct s.
Qed.

Lemma all_addrs_zombie T D1 a i c D2 :
  all_addrs T (D1 ++ FCons a i c FNil :: D2) ≡ₚ (a :: addrs c) ++ all_addrs T (D1 ++ D2).
Proof.
  unfold all_addrs. rewrite !bind_app, bind_cons. cbn [addrs]. rewrite app_nil_r.
  rewrite (Permutation_app_comm (D1 ≫= addrs)). rewrite (Permutation_app_comm (D1 ≫= addrs)).
  rewrite <- (assoc_L (++)). rewrite (assoc_L (++) (addrs T) (a :: addrs c)).
  rewrite (Permutation_app_comm (addrs T)). by rewrite <- (assoc_L (++)).
Qed.

(** The last reference to a removed node is given back: the node is freed. *)
Lemma wp_release_last a i c s T D1 D2 L : getpid ≠ NO_HOLDER → lockable getpid (g_inode_sem s) →
  fs_ok s T (D1 ++ FCons a i c FNil :: D2) L → crefs i = 1 →
  wp (inode_release getpid a) (λ _ s',
    g_inode_sem s' = g_inode_sem s ∧ fs_ok s' T (D1 ++ D2) (L ∖ list_to_set (a :: addrs c)) ∧
    freed (a :: addrs c) s L s') s.
Proof.
  intros Hp Hl HO Hc. pose proof HO as [H1 H2 H3 H4 H5 H6 H7 H8].
  apply Forall_app in H4 as [HD1 [HZ HD2]%Forall_cons]. destruct HZ as (HT & Hd & _ & HL).
  pose proof HT as (_ & Ha & x & y & En & Hx & Hy). simpl in Hy. subst y.
  rewrite all_addrs_zombie in H5. apply NoDup_app in H5 as (N1 & N2 & N3). pose proof N1 as [Na Nc]%NoDup_cons.
  unfold inode_release. apply (proj2 (wp_when _ _ _ _)). rewrite (proj2 (Z.eqb_neq a NULL)) by done. cbn [negb].
  rewrite wp_bind, wp_semtake, wp_bind, (wp_iget a (node_of i x NULL)), wp_bind by done.
  apply (proj2 (wp_when _ _ _ _)). cbn [i_crefs node_of]. rewrite Hc. cbn [negb Z.eqb].
  rewrite (wp_iset a (node_of i x NULL)), wp_bind by done.
  erewrite (wp_iget a); [|done|simpl; by rewrite lookup_alter_eq, En]. cbn [i_crefs i_flags set_i_crefs node_of].
  unfold deleted in Hd. rewrite Hd. simpl. rewrite wp_bind, (wp_semgive _ _ _ (g_inode_sem s)) by done.
  set (s1 := upd_isem _ _).
  assert (∀ b, b ≠ a → inodes s1 !! b = inodes s !! b) as Hfr by (intros b Hb; by apply lookup_alter_ne).
  assert (dom (inodes s1) = dom (inodes s)) as Hdom by apply dom_alter_L.
  assert (∀ b, b ∈ all_addrs T (D1 ++ D2) → b ≠ a) as Hne by (intros b Hb ->; apply (N2 a); set_solver).
  eapply wp_mono; [eapply (wp_free_subtree a (with_crefs 0 i) c s1 L)|].
  - split_and!; [done|done|]. exists x, NULL. split_and!; [simpl; by rewrite lookup_alter_eq, En| |done].
    eapply trep_frame; [exact Hx|]. intros b Hb. apply Hfr. set_solver.
  - done.
  - done.
  - intros b Hb. apply H8. rewrite H6, elem_of_list_to_set, all_addrs_zombie. set_solver.
  - rewrite <- size_dom, Hdom, size_dom, (size_inodes _ _ _ _ HO), all_addrs_zombie, length_app. simpl. lia.
  - intros [] s2 HF. pose proof HF as (R & G & I & K). split_and!; [done| |].
    + eapply (freed_all (a :: addrs c) s1 _ _ _ (D1 ++ FCons a i c FNil :: D2) _ T); try done.
      * by rewrite Hdom.
      * apply all_addrs_zombie.
      * apply HO.
      * by rewrite Hdom.
      * eapply trep_frame; [exact H1|]. intros b Hb. apply Hfr, Hne, elem_of_all_addrs. by left.
      * apply Forall_app; split; (eapply zombies_frame; [eassumption|]); intros b Hb; apply Hfr, Hne, elem_of_all_addrs;
          right; rewrite bind_app, elem_of_app; auto.
    + split_and!; [done|done| |done]. intros b. rewrite I. case_bool_decide; [done|]. apply Hfr. set_solver.
Qed.

(** ** Drivers *)

(** The outcome of [register_driver] when there is nothing at the path. *)
Definition registered s T D L ss fops pv (r : Z) s' : Prop :=
  g_inode_sem s' = g_inode_sem s ∧ keeps_refs s s' ∧
  ∃ T' ks, fs_ok s' T' D (list_to_set ks ∪ L) ∧ Forall (λ k, ¬ (k ∈ L)) ks ∧
    (r = OK ∧ (∃ p, p ∈ ks ∧ find T' ss = Some (p, mkinfo 0 0 fops pv (default [] (last ss)), []))
     ∨ r = - ENOMEM ∧ find T' ss = None) ∧
    ∀ ss', ss' ≠ ss → match find T ss' with
      | Some x => find T' ss' = Some x
      | None => ∀ x, find T' ss' = Some x →
          ss' `prefix_of` ss ∧ ∃ k, k ∈ ks ∧ x = (k, fresh (default [] (last ss')), [])
      end.

Lemma find_inj f ss1 ss2 a i1 i2 : NoDup (addrs f) →
  find f ss1 = Some (a, i1, []) → find f ss2 = Some (a, i2, []) → ss1 = ss2.
Proof.
  assert (∀ g ss b j r, find g ss = Some (b, j, r) → b ∈ addrs g) as Hin.
  { induction g as [|b j d IHd e IHe]; intros [|t tl]; simpl; try done. intros b' j' r'.
    destruct (name_cmp t (nm j)); [|done|intros ?%IHe; set_solver].
    destruct (stops tl j); [intros [= <- <- <-]; set_solver|intros ?%IHd; set_solver]. }
  revert ss1 ss2. induction f as [|b j d IHd e IHe]; intros [|s1 r1] [|s2 r2]; simpl; try done.
  intros [Nb (Nd & Nx & Ne)%NoDup_app]%NoDup_cons.
  destruct (name_cmp s1 (nm j)) eqn:E1; [|done|]; destruct (name_cmp s2 (nm j)) eqn:E2; try done.
  - apply name_cmp_eq in E1 as ->. apply name_cmp_eq in E2 as ->.
    destruct (stops r1 j), (stops r2 j); intros F1 F2; simplify_eq; try done.
    + apply Hin in F2. set_solver.
    + apply Hin in F1. set_solver.
    + f_equal. by apply IHd.
  - destruct (stops r1 j); intros F1 F2; apply Hin in F2; simplify_eq; [set_solver|].
    apply Hin in F1. set_solver.
  - destruct (stops r2 j); intros F1 F2; apply Hin in F1; simplify_eq; [set_solver|].
    apply Hin in F2. set_solver.
  - by apply IHe.
Qed.

Definition set_ops (fops pv : Z) (i : info) : info := mkinfo (crefs i) (flags i) fops pv (nm i).

(** The data of the new inode is filled in. *)
Lemma set_ops_ok p fops pv s T D L : fs_ok s T D L → p ∉ D ≫= addrs →
  fs_ok (upd_inodes (alter (λ n, set_i_private pv (set_i_ops fops n)) p (inodes s)) s) (map_at p (set_ops fops pv) T) D L.
Proof.
  intros [H1 H2 H3 H4 H5 H6 H7 H8] Hp. unfold all_addrs in *. split; simpl; unfold all_addrs; rewrite ?map_at_addrs, ?dom_alter_L; try done.
  - by apply map_at_trep.
  - by apply map_at_sorted.
  - eapply all_info_map_at; [|exact H3]. intros b i ?. by destruct (b =? p).
  - eapply zombies_frame; [exact H4|]. intros b Hb. apply lookup_alter_ne. by intros <-.
Qed.

Lemma reserved_registered s s0 T D L ss fops pv p s1 s2 : fs_ok s T D L →
  reserved s0 T D L ss (OK, p) s1 →
  g_inode_sem s2 = g_inode_sem s →
  inodes s2 = alter (λ n, set_i_private pv (set_i_ops fops (INODE_SET_DRIVER n))) p (inodes s1) →
  root_inode s2 = root_inode s1 → kmm s2 = kmm s1 → inodes s0 = inodes s →
  registered s T D L ss fops pv OK s2.
Proof.
  intros HO (_ & Hkr & T' & ks & HO' & HG & Hks & HR) El Ei Er Ek E0. split; [done|]. split.
  { apply (keeps_refs_trans _ s0); [apply same_crefs; intros b; by rewrite E0|].
    apply (keeps_refs_trans _ s1); [done|]. apply same_crefs. intros b. rewrite Ei. by apply alter_crefs. }
  destruct HR as [(_ & Hpk & HS)|[[=] _]]. simpl in *.
  destruct (find_addr _ _ _ _ _ _ _ _ HO' HS) as (Hn & HpT & x & y & En).
  pose proof (ok_nodup _ _ _ _ HO') as (N1 & N2 & _)%NoDup_app.
  pose proof (set_ops_ok p fops pv _ _ _ _ HO' (N2 p HpT)) as HO2.
  exists (map_at p (set_ops fops pv) T'), ks. split_and!; [|done| |].
  - destruct HO2 as [J1 J2 J3 J4 J5 J6 J7 J8]. simpl in *.
    assert (inodes s2 = alter (λ n, set_i_private pv (set_i_ops fops n)) p (inodes s1)) as Ei2.
    { rewrite Ei. by apply (alter_ext_at _ _ _ _ _ En). }
    split; rewrite ?Er, ?Ek, ?Ei2; done.
  - left. split; [done|]. exists p. split; [done|].
    rewrite find_map_at by done. rewrite HS. simpl. by rewrite Z.eqb_refl.
  - intros ss' Hss. rewrite find_map_at by done. specialize (HG ss').
    destruct (find T ss') as [[[b i] rest]|] eqn:Eb.
    + rewrite HG. simpl. destruct (Z.eqb_spec b p) as [->|]; [|done]. exfalso.
      apply (proj1 (Forall_forall _ _) Hks _ Hpk). apply (ok_sub _ _ _ _ HO). rewrite (ok_dom _ _ _ _ HO), elem_of_list_to_set.
      apply elem_of_all_addrs. left. by destruct (find_addr _ _ _ _ _ _ _ _ HO Eb) as (_ & ? & _).
    + intros x'. destruct (find T' ss') as [[[b i] rest]|] eqn:Eb'; [|done]. intros [= <-].
      destruct (HG _ eq_refl) as (Hpre & k & Hk & [= -> -> ->]). split; [done|]. exists k. split; [done|].
      destruct (Z.eqb_spec k p) as [->|]; [|done]. exfalso. apply Hss. by eapply find_inj.
Qed.

Lemma wp_register path fops pv s T D L : getpid ≠ NO_HOLDER → lockable getpid (g_inode_sem s) → fs_ok s T D L →
  is_absolute path = true → Z.of_nat (length path) < 2 ^ 30 →
  wp (register_driver getpid path fops pv) (λ r s',
    match find T (path_of path) with
    | Some _ => r = - EEXIST ∧ s' = s
    | None => registered s T D L (path_of path) fops pv r s'
    end) s.
Proof.
  intros Hp Hl HO Ha Hlen. unfold register_driver. rewrite wp_bind, wp_semtake, wp_bind by done.
  set (s1 := upd_isem _ _). assert (fs_ok s1 T D L) as HO1 by (destruct HO; by split).
  eapply wp_mono; [by eapply wp_reserve|]. intros [r p] s2. cbv beta zeta.
  destruct (find T (path_of path)) as [x|] eqn:E.
  - intros [[= -> ->] ->]. cbn [fst snd]. rewrite wp_bind. simpl.
    rewrite wp_ret, wp_bind, (wp_semgive _ _ _ (g_inode_sem s)), wp_ret by done. split; [done|]. by destruct s.
  - intros HR. pose proof HR as (El & Hkr & T' & ks & HO' & HG & Hks & HX). cbn [fst snd]. rewrite wp_bind.
    destruct HX as [(Er & Hk & HF)|[[= -> ->] HF]].
    + simpl in *. subst r. simpl. destruct (find_addr _ _ _ _ _ _ _ _ HO' HF) as (Hn & _ & x & y & En).
      rewrite wp_bind, (wp_iset p _ _ _ _ Hn En), wp_bind.
      erewrite (wp_iset p); [|done|simpl; by rewrite lookup_alter_eq, En]. rewrite wp_bind.
      erewrite (wp_iset p); [|done|simpl; by rewrite !lookup_alter_eq, En].
      rewrite wp_ret, wp_bind, (wp_semgive _ _ _ (g_inode_sem s)), wp_ret by done.
      eapply (reserved_registered s s1 _ _ _ _ _ _ p s2); [done|done|done| |done|done|done].
      simpl. apply map_eq. intros b. destruct (decide (b = p)) as [->|N]; [by rewrite !lookup_alter_eq, En|by rewrite !lookup_alter_ne].
    + simpl. rewrite wp_ret, wp_bind, (wp_semgive _ _ _ (g_inode_sem s)), wp_ret by done.
      split; [done|]. split.
      { apply (keeps_refs_trans _ s1); [by apply same_crefs|]. apply (keeps_refs_trans _ s2); [done|by apply same_crefs]. }
      exists T', ks. split_and!; [by destruct HO'; split|done|by right|].
      intros ss' _. apply HG.
Qed.

Lemma wp_unregister path s T D L : getpid ≠ NO_HOLDER → lockable getpid (g_inode_sem s) → fs_ok s T D L →
  is_absolute path = true →
  wp (unregister_driver getpid path) (λ r s',
    match find T (path_of path) with
    | Some (a, i, rest) => removed s T D L (path_of path) a i rest r s'
    | None => r = - ENOENT ∧ s' = s
    end) s.
Proof.
  intros Hp Hl HO Ha. unfold unregister_driver. rewrite wp_bind, wp_semtake, wp_bind by done.
  set (s1 := upd_isem _ _). assert (fs_ok s1 T D L) as HO1 by (destruct HO; by split).
  eapply wp_mono; [by eapply wp_remove|]. intros r s2. cbv beta.
  destruct (find T (path_of path)) as [[[a i] rest]|].
  - intros (El & Hb & o & c & e & x & Eh & HP & HR). rewrite wp_bind, (wp_semgive _ _ _ (g_inode_sem s)), wp_ret by done.
    split; [done|]. split; [exact Hb|]. exists o, c, e, x. split_and!; [done|done|].
    destruct (crefs i =? 0); destruct HR as [-> HR]; (split; [done|]); destruct HR; by split.
  - intros [-> ->]. rewrite wp_bind, (wp_semgive _ _ _ (g_inode_sem s)), wp_ret by done. split; [done|]. by destruct s.
Qed.

End Specs.
End InodeOps.
