(* ===== verification/KmmHeap.v ===== *)
(** * The inodes live in the heap

    In a flat build [kmm_zalloc] and [kmm_free] are [mm_zalloc] and [mm_free] on
    the one heap.  The memory manager keeps what the inode tree asks of its
    allocator: the blocks in use are those of the chunks in use. *)

From S2P Require Import Prelude Queue Heap HeapRep Alloc HeapBytes HeapInit HeapClient HeapOps Realloc Calloc Inode.

Module KmmHeap.
Import Heap HeapRep Alloc HeapInit HeapClient Calloc.
Import Inode(Kmm, KmmLaws, kmm_zalloc, kmm_free, kmm_ok).

#[export] Instance heap_kmm : Kmm heap := {
  kmm_zalloc := mm_zalloc;
  kmm_free := mm_free
}.

(** The addresses that [mm_malloc] returned for the chunks in use. *)
Definition blocks (h : heap) (cs : list chunk) : list Z :=
  (λ p, p.1 + 8) <$> used_nodes (mm_heapstart h + 8) cs.

Definition heap_ok (h : heap) (L : gset Z) : Prop := ∃ cs, hrep h cs ∧ L = list_to_set (blocks h cs).

Lemma hrep_good h cs : hrep h cs → good cs.
Proof. intros Hh. apply (rg_good _ _ _ _ (rep_region _ _ _ _ _ _ (hr_rep _ _ Hh))). Qed.

Lemma blocks_nodup h cs : hrep h cs → NoDup (blocks h cs).
Proof.
  intros Hg%hrep_good. apply NoDup_fmap_2_strong; [|by apply used_nodes_nodup].
  intros p q Hp Hq E. destruct (decide (p = q)) as [|N]; [done|].
  assert (∀ r, r ∈ used_nodes (mm_heapstart h + 8) cs → 16 ≤ r.2) as H16.
  { intros [x k] Hr. destruct (used_nodes_split _ _ _ _ Hr) as (c1 & c2 & -> & _).
    apply Forall_app in Hg as [_ [[G _] _]%Forall_cons]. done. }
  pose proof (H16 _ Hp). pose proof (H16 _ Hq). destruct (used_apart _ _ _ _ Hg Hp Hq N); lia.
Qed.

Lemma heap_zalloc n h L : heap_ok h L → 1 ≤ n < 2 ^ 31 →
  wp (kmm_zalloc n) (λ p h', p = NULL ∧ heap_ok h' L ∨ p ≠ NULL ∧ ¬ (p ∈ L) ∧ heap_ok h' ({[ p ]} ∪ L)) h.
Proof.
  intros (cs & Hh & ->) Hn. eapply wp_mono; [by apply (zalloc_spec n h cs); [|lia|lia]|].
  intros p h' [[-> ->]|(c1 & k & c2 & Hh' & Es & -> & _ & HP & _)]; [left; split; [done|by exists cs]|right].
  set (p := mm_heapstart h + 8 + total c1 + 8) in *.
  assert (blocks h' (c1 ++ (k, true) :: c2) ≡ₚ p :: blocks h cs) as HB.
  { unfold blocks. rewrite Es, HP. simpl. by replace (p - 8 + 8) with p by lia. }
  pose proof (blocks_nodup _ _ Hh') as HN. rewrite HB in HN. apply NoDup_cons in HN as [HN _]. split_and!.
  - pose proof (rg_base _ _ _ _ (rep_region _ _ _ _ _ _ (hr_rep _ _ Hh'))) as [Hb _]. rewrite Es in Hb.
    pose proof (hrep_good _ _ Hh') as [Hg _]%Forall_app. pose proof (total_nonneg c1 Hg). unfold NULL. lia.
  - by rewrite elem_of_list_to_set.
  - exists (c1 ++ (k, true) :: c2). split; [done|]. by rewrite HB.
Qed.

Lemma heap_free p h L : heap_ok h L → p ∈ L → p ≠ NULL → wp (kmm_free p) (λ _ h', heap_ok h' (L ∖ {[ p ]})) h.
Proof.
  intros (cs & Hh & ->) Hp _. rewrite elem_of_list_to_set in Hp.
  apply list_elem_of_fmap in Hp as ([x k] & -> & Hx). destruct (used_nodes_split _ _ _ _ Hx) as (c1 & c2 & -> & ->).
  pose proof (blocks_nodup _ _ Hh) as HN. cbn [fst snd].
  eapply wp_mono; [apply (free_spec _ _ _ _ Hh)|]. intros [] h' (m' & -> & Hh' & _).
  exists (release c1 k c2). split; [done|]. unfold blocks in *. simpl. rewrite used_release.
  rewrite used_nodes_app in HN |- *. simpl in *. rewrite fmap_app in HN |- *. rewrite fmap_app. simpl in *.
  set (a := mm_heapstart h + 8 + total c1 + 8) in *. apply NoDup_app in HN as (_ & N1 & [N2 _]%NoDup_cons).
  apply set_eq. intros b. rewrite elem_of_difference, !elem_of_list_to_set, !elem_of_app, elem_of_cons, elem_of_singleton.
  split; [intros [[?|[?|?]] ?]; tauto|]. intros Hb. split; [tauto|]. intros ->. destruct Hb as [Hb|Hb]; [|done].
  apply (N1 _ Hb). set_solver.
Qed.

#[export] Instance heap_kmm_laws : KmmLaws heap := {
  kmm_ok := heap_ok;
  kmm_zalloc_spec := heap_zalloc;
  kmm_free_spec := heap_free
}.

(** The heap that [mm_initialize] leaves has no block in use. *)
Lemma heap_ok_fresh : ∃ h, mm_initialize 8192 512 h0 = Ok (tt, h) ∧ kmm_ok h ∅.
Proof.
  destruct fresh_heap as (h & E & Hh). exists h. split; [exact E|]. exists [(496, false)]. split; [exact Hh|done].
Qed.

End KmmHeap.
