(* ===== verification/Files.v ===== *)
(** * File descriptors

    Models [fs/inode/fs_files.c] and the calls of [fs/vfs] on descriptors:
    [open], [close], [read], [write], [lseek], [ioctl], [dup] and [dup2].

    The state is the inode tree, the descriptors of the running task group
    ([sched_getfiles]), the state of the devices and [errno].  A [struct file *]
    is the index of the entry.  Drivers and mounted file systems are reached
    through their operation tables, the network through its own calls; these are
    parameters of the model (Devices.v puts the drivers of the board there).  An
    operation gets the [struct file] and returns it as it leaves it. *)

From S2P Require Import Prelude Queue Inode.

Module Files.
Export Inode.
#[local] Open Scope cmd_scope.

Definition ERROR : Z := -1.
Definition ENXIO : Z := 6.
Definition EBADF : Z := 9.
Definition EACCES : Z := 13.
Definition EMFILE : Z := 24.
Definition ENOSYS : Z := 38.

Definition CONFIG_NFILE_DESCRIPTORS : Z := 8.
Definition CONFIG_NSOCKET_DESCRIPTORS : Z := 10.

Definition O_RDOK : Z := 1.
Definition O_WROK : Z := 2.
Definition O_RDWR : Z := Z.lor O_RDOK O_WROK.

Definition SEEK_SET : Z := 0.
Definition SEEK_CUR : Z := 1.
Definition SEEK_END : Z := 2.

(** ** Data *)

Record file : Type := mkfile { f_oflags : Z; f_pos : Z; f_inode : Z; f_priv : Z }.

Definition no_file : file := mkfile 0 0 NULL NULL.
Definition set_f_pos v f := mkfile (f_oflags f) v (f_inode f) (f_priv f).

(** The object behind a pointer to a buffer, [None] for a null pointer. *)
Definition buffer : Type := option (list Z).

(** The operations of a driver; a null pointer is [None]. *)
Record file_operations (W : Type) : Type := mkfops {
  op_open : option (file → M W (Z * file));
  op_close : option (file → M W (Z * file));
  op_read : option (file → buffer → Z → M W (Z * buffer * file));
  op_write : option (file → buffer → Z → M W (Z * file));
  op_seek : option (file → Z → Z → M W (Z * file));
  op_ioctl : option (file → Z → Z → M W (Z * file))
}.
Arguments mkfops {W}.
Arguments op_open {W}.
Arguments op_close {W}.
Arguments op_read {W}.
Arguments op_write {W}.
Arguments op_seek {W}.
Arguments op_ioctl {W}.

(** The operations of a mounted file system whose type differs from those of a
    driver: [open] takes the rest of the path, the flags and the mode. *)
Record mountpt_operations (W : Type) : Type := mkmops {
  mop_open : file → option (list Z) → Z → Z → M W (Z * file);
  mop_dup : file → file → M W (Z * (file * file))
}.
Arguments mkmops {W}.
Arguments mop_open {W}.
Arguments mop_dup {W}.

(** What is at the address of an operation table: [u.i_ops] and [u.i_mops] are
    one pointer. *)
Class Drivers (W : Type) : Type := {
  i_fops : Z → file_operations W;
  i_mops : Z → mountpt_operations W
}.

(** Calls on socket descriptors; they set [errno], the second component. *)
Class Sockets (W : Type) : Type := {
  net_close : Z → M (W * Z) Z;
  recv : Z → buffer → Z → M (W * Z) (Z * buffer);
  send : Z → buffer → Z → M (W * Z) Z;
  netdev_ioctl : Z → Z → Z → M (W * Z) Z;
  net_dupsd : Z → Z → M (W * Z) Z;
  net_dupsd2 : Z → Z → M (W * Z) Z;
  net_vfcntl : Z → Z → Z → M (W * Z) Z
}.

Record vfs (H W : Type) : Type := mkvfs {
  fs : fsys H;
  fl_sem : Z;
  fl_files : list file;
  devs : W;
  errno : Z
}.
Arguments mkvfs {H W}.
Arguments fs {H W}.
Arguments fl_sem {H W}.
Arguments fl_files {H W}.
Arguments devs {H W}.
Arguments errno {H W}.

Section Code.
Context {H W : Type} `{Kmm H, Drivers W, Sockets W} (getpid : Z).
Implicit Types (v : vfs H W).

Definition upd_fs x v : vfs H W := mkvfs x (fl_sem v) (fl_files v) (devs v) (errno v).
Definition upd_fsem x v : vfs H W := mkvfs (fs v) x (fl_files v) (devs v) (errno v).
Definition upd_files x v : vfs H W := mkvfs (fs v) (fl_sem v) x (devs v) (errno v).
Definition upd_devs x v : vfs H W := mkvfs (fs v) (fl_sem v) (fl_files v) x (errno v).
Definition upd_errno x v : vfs H W := mkvfs (fs v) (fl_sem v) (fl_files v) (devs v) x.

Definition on_fs {A} (m : M (fsys H) A) : M (vfs H W) A := λ v,
  res_bind (m (fs v)) (λ '(a, x), Ok (a, upd_fs x v)).
Definition on_devs {A} (m : M W A) : M (vfs H W) A := λ v,
  res_bind (m (devs v)) (λ '(a, x), Ok (a, upd_devs x v)).
Definition on_net {A} (m : M (W * Z) A) : M (vfs H W) A := λ v,
  res_bind (m (devs v, errno v)) (λ '(a, x), Ok (a, upd_errno x.2 (upd_devs x.1 v))).

Definition set_errno (e : Z) : M (vfs H W) unit := modify (upd_errno e).
(** [set_errno(e); return ERROR;] *)
Definition fail_with (e : Z) : M (vfs H W) Z := set_errno e ;;; ret ERROR.

(** [list->fl_files[i]] *)
Definition getf (i : Z) : M (vfs H W) file := λ v,
  match (if i <? 0 then None else fl_files v !! Z.to_nat i) with
  | Some f => Ok (f, v)
  | None => Undef OutOfBounds
  end.
Definition setf (i : Z) (g : file → file) : M (vfs H W) unit :=
  f <-- getf i ;; modify (λ v, upd_files (<[Z.to_nat i := g f]> (fl_files v)) v).

(** An operation is called on the entry [i]. *)
Definition call (i : Z) (m : file → M W (Z * file)) : M (vfs H W) Z :=
  f <-- getf i ;;
  x <-- on_devs (m f) ;;
  setf i (λ _, snd x) ;;;
  ret (fst x).

(** ** The descriptor table *)

Definition _files_semtake : M (vfs H W) unit :=
  n <-- gets fl_sem ;;
  if 0 <? n then modify (upd_fsem (n - 1)) else fail_ub Blocked.
Definition _files_semgive : M (vfs H W) unit :=
  n <-- gets fl_sem ;; modify (upd_fsem (n + 1)).

Definition files_initlist : M (vfs H W) unit := modify (upd_fsem 1).

(** The condition [inode->u.i_ops && inode->u.i_ops->op] and the operation. *)
Definition operation {A} (op : file_operations W → option A) (n : inode) : option A :=
  if i_ops n =? NULL then None else op (i_fops (i_ops n)).

Definition _files_close (i : Z) : M (vfs H W) Z :=
  f <-- getf i ;;
  let inode := f_inode f in
  if negb (inode =? NULL) then
    n <-- on_fs (get inode) ;;
    r <-- match operation op_close n with Some m => call i m | None => ret OK end ;;
    on_fs (inode_release getpid inode) ;;;
    setf i (λ f, mkfile 0 0 NULL (f_priv f)) ;;;
    ret r
  else ret OK.

Fixpoint close_all (n : nat) (i : Z) : M (vfs H W) unit :=
  match n with
  | O => ret tt
  | S n => _files_close i ;;; close_all n (i + 1)
  end.
Definition files_releaselist : M (vfs H W) unit := close_all (Z.to_nat CONFIG_NFILE_DESCRIPTORS) 0.

(** The loop of [files_allocate]. *)
Fixpoint allocate_from (fuel : nat) (i inode oflags pos : Z) : M (vfs H W) Z :=
  if i <? CONFIG_NFILE_DESCRIPTORS then
    f <-- getf i ;;
    if f_inode f =? NULL then
      setf i (λ _, mkfile oflags pos inode NULL) ;;;
      _files_semgive ;;;
      ret i
    else
      match fuel with
      | O => fail_ub NoFuel
      | S fuel => allocate_from fuel (i + 1) inode oflags pos
      end
  else _files_semgive ;;; ret ERROR.

Definition files_allocate (inode oflags pos minfd : Z) : M (vfs H W) Z :=
  _files_semtake ;;;
  allocate_from (Z.to_nat (CONFIG_NFILE_DESCRIPTORS - minfd)) minfd inode oflags pos.

Definition files_close (fd : Z) : M (vfs H W) Z :=
  if (fd <? 0) || (CONFIG_NFILE_DESCRIPTORS <=? fd) then ret (- EBADF)
  else
    f <-- getf fd ;;
    if f_inode f =? NULL then ret (- EBADF)
    else
      _files_semtake ;;;
      r <-- _files_close fd ;;
      _files_semgive ;;;
      ret r.

Definition files_release (fd : Z) : M (vfs H W) unit :=
  when ((0 <=? fd) && (fd <? CONFIG_NFILE_DESCRIPTORS))
    (_files_semtake ;;;
     setf fd (λ f, mkfile 0 0 NULL (f_priv f)) ;;;
     _files_semgive).

(** [(unsigned int)fd < CONFIG_NFILE_DESCRIPTORS] *)
Definition is_fd (fd : Z) : bool := u32 fd <? CONFIG_NFILE_DESCRIPTORS.
Definition is_sd (fd : Z) : bool := u32 fd <? CONFIG_NFILE_DESCRIPTORS + CONFIG_NSOCKET_DESCRIPTORS.

(** [None] for a null pointer. *)
Definition fs_getfilep (fd : Z) : M (vfs H W) (option Z) :=
  if negb (is_fd fd) then set_errno EBADF ;;; ret None else ret (Some fd).

(** [file_dup2]; the entries are those of two descriptors. *)
Definition file_dup2 (filep1 filep2 : Z) : M (vfs H W) Z :=
  f1 <-- getf filep1 ;;
  if f_inode f1 =? NULL then fail_with EBADF
  else
    _files_semtake ;;;
    r <-- _files_close filep2 ;;
    if r <? 0 then _files_semgive ;;; fail_with (- r)
    else
      f1 <-- getf filep1 ;;
      let inode := f_inode f1 in
      on_fs (inode_addref getpid inode) ;;;
      f1 <-- getf filep1 ;;
      setf filep2 (λ f, mkfile (f_oflags f1) (f_pos f1) inode (f_priv f)) ;;;
      n <-- on_fs (get inode) ;;
      r <-- match operation op_open n with
            | None => ret r
            | Some m =>
                if INODE_IS_MOUNTPT n then
                  f1 <-- getf filep1 ;;
                  f2 <-- getf filep2 ;;
                  x <-- on_devs (mop_dup (i_mops (i_ops n)) f1 f2) ;;
                  setf filep1 (λ _, fst (snd x)) ;;;
                  setf filep2 (λ _, snd (snd x)) ;;;
                  ret (fst x)
                else call filep2 m
            end ;;
      if r <? 0 then
        f2 <-- getf filep2 ;;
        on_fs (inode_release getpid (f_inode f2)) ;;;
        setf filep2 (λ f, mkfile 0 0 NULL (f_priv f)) ;;;
        _files_semgive ;;;
        fail_with (- r)
      else
        _files_semgive ;;;
        ret OK.

(** ** The calls *)

Definition inode_checkflags (n : inode) (oflags : Z) : Z :=
  let ops := i_fops (i_ops n) in
  if negb (Z.land oflags O_RDOK =? 0) && bool_decide (op_read ops = None)
     || negb (Z.land oflags O_WROK =? 0) && bool_decide (op_write ops = None)
  then - EACCES else OK.

Definition open (path : list Z) (oflags : Z) : M (vfs H W) Z :=
  x <-- on_fs (inode_find getpid path) ;;
  let inode := fst x in
  let relpath := snd x in
  let mode := 0x1b6 in
  if inode =? NULL then fail_with ENOENT
  else
    n <-- on_fs (get inode) ;;
    if negb (INODE_IS_DRIVER n) && negb (INODE_IS_MOUNTPT n) || (i_ops n =? NULL) then
      on_fs (inode_release getpid inode) ;;; fail_with ENXIO
    else
      let r := inode_checkflags n oflags in
      if r <? 0 then on_fs (inode_release getpid inode) ;;; fail_with (- r)
      else
        fd <-- files_allocate inode oflags 0 0 ;;
        if fd <? 0 then on_fs (inode_release getpid inode) ;;; fail_with EMFILE
        else
          filep <-- fs_getfilep fd ;;
          match filep with
          | None => ret ERROR
          | Some filep =>
              n <-- on_fs (get inode) ;;
              r <-- match op_open (i_fops (i_ops n)) with
                    | None => ret OK
                    | Some m =>
                        if INODE_IS_MOUNTPT n
                        then call filep (λ f, mop_open (i_mops (i_ops n)) f relpath oflags mode)
                        else call filep m
                    end ;;
              if r <? 0 then
                files_release fd ;;;
                on_fs (inode_release getpid inode) ;;;
                fail_with (- r)
              else ret fd
          end.

Definition close (fd : Z) : M (vfs H W) Z :=
  if negb (is_fd fd) then
    if is_sd fd then on_net (net_close fd) else fail_with EBADF
  else
    r <-- files_close fd ;;
    if r <? 0 then fail_with (- r) else ret OK.

(** The inode of an open file, [None] when the file is not open. *)
Definition inode_of (f : file) : M (vfs H W) (option inode) :=
  if f_inode f =? NULL then ret None else n <-- on_fs (get (f_inode f)) ;; ret (Some n).

Definition op_of {A} (op : file_operations W → option A) (n : option inode) : option A :=
  match n with Some n => operation op n | None => None end.

(** The result and the buffer afterwards. *)
Definition file_read (filep : Z) (buf : buffer) (nbytes : Z) : M (vfs H W) (Z * buffer) :=
  f <-- getf filep ;;
  x <-- (if Z.land (f_oflags f) O_RDOK =? 0 then ret (- EACCES, buf)
         else
           n <-- inode_of f ;;
           match op_of op_read n with
           | Some m =>
               x <-- on_devs (m f buf nbytes) ;;
               setf filep (λ _, snd x) ;;;
               ret (fst x)
           | None => ret (- EBADF, buf)
           end) ;;
  if fst x <? 0 then r <-- fail_with (- fst x) ;; ret (r, snd x) else ret x.

Definition read (fd : Z) (buf : buffer) (nbytes : Z) : M (vfs H W) (Z * buffer) :=
  if negb (is_fd fd) then on_net (recv fd buf nbytes)
  else
    filep <-- fs_getfilep fd ;;
    match filep with
    | None => ret (ERROR, buf)
    | Some filep => file_read filep buf nbytes
    end.

Definition file_write (filep : Z) (buf : buffer) (nbytes : Z) : M (vfs H W) Z :=
  f <-- getf filep ;;
  if Z.land (f_oflags f) O_WROK =? 0 then fail_with EBADF
  else
    n <-- inode_of f ;;
    match op_of op_write n with
    | None => fail_with EBADF
    | Some m =>
        r <-- call filep (λ f, m f buf nbytes) ;;
        if r <? 0 then fail_with (- r) else ret r
    end.

Definition write (fd : Z) (buf : buffer) (nbytes : Z) : M (vfs H W) Z :=
  if negb (is_fd fd) then on_net (send fd buf nbytes)
  else
    filep <-- fs_getfilep fd ;;
    match filep with
    | None => ret ERROR
    | Some filep => file_write filep buf nbytes
    end.

Definition file_seek (filep offset whence : Z) : M (vfs H W) Z :=
  f <-- getf filep ;;
  n <-- inode_of f ;;
  match op_of op_seek n with
  | Some m =>
      r <-- call filep (λ f, m f offset whence) ;;
      if r <? 0 then fail_with (- r) else f <-- getf filep ;; ret (f_pos f)
  | None =>
      if (whence =? SEEK_CUR) || (whence =? SEEK_SET) then
        offset <-- (if whence =? SEEK_CUR then add_int offset (f_pos f) else ret offset) ;;
        if 0 <=? offset then
          setf filep (set_f_pos offset) ;;;
          f <-- getf filep ;; ret (f_pos f)
        else fail_with EINVAL
      else if whence =? SEEK_END then fail_with ENOSYS
      else fail_with EINVAL
  end.

Definition lseek (fd offset whence : Z) : M (vfs H W) Z :=
  filep <-- fs_getfilep fd ;;
  match filep with
  | None => ret ERROR
  | Some filep => file_seek filep offset whence
  end.

Definition ioctl (fd req arg : Z) : M (vfs H W) Z :=
  if negb (is_fd fd) then
    if is_sd fd then on_net (netdev_ioctl fd req arg) else fail_with EBADF
  else
    filep <-- fs_getfilep fd ;;
    match filep with
    | None => ret ERROR
    | Some filep =>
        f <-- getf filep ;;
        n <-- inode_of f ;;
        match op_of op_ioctl n with
        | Some m =>
            r <-- call filep (λ f, m f req arg) ;;
            if r <? 0 then fail_with (- r) else ret r
        | None => ret OK
        end
    end.

Definition file_dup (filep minfd : Z) : M (vfs H W) Z :=
  f <-- getf filep ;;
  if f_inode f =? NULL then fail_with EBADF
  else
    on_fs (inode_addref getpid (f_inode f)) ;;;
    fd2 <-- files_allocate (f_inode f) (f_oflags f) (f_pos f) minfd ;;
    if fd2 <? 0 then
      set_errno EMFILE ;;;
      on_fs (inode_release getpid (f_inode f)) ;;;
      ret ERROR
    else ret fd2.

Definition fs_dupfd (fd minfd : Z) : M (vfs H W) Z :=
  filep <-- fs_getfilep fd ;;
  match filep with
  | None => ret ERROR
  | Some filep => file_dup filep minfd
  end.

Definition dup (fd : Z) : M (vfs H W) Z :=
  if is_fd fd then fs_dupfd fd 0
  else if is_sd fd then on_net (net_dupsd fd CONFIG_NFILE_DESCRIPTORS)
  else fail_with EBADF.

Definition fs_dupfd2 (fd1 fd2 : Z) : M (vfs H W) Z :=
  filep1 <-- fs_getfilep fd1 ;;
  filep2 <-- fs_getfilep fd2 ;;
  match filep1, filep2 with
  | Some filep1, Some filep2 =>
      f1 <-- getf filep1 ;;
      if f_inode f1 =? NULL then fail_with EBADF
      else if fd1 =? fd2 then ret fd1
      else file_dup2 filep1 filep2
  | _, _ => ret ERROR
  end.

Definition dup2 (fd1 fd2 : Z) : M (vfs H W) Z :=
  if negb (is_fd fd1) then
    if is_sd fd1 then on_net (net_dupsd2 fd1 fd2) else fail_with EBADF
  else fs_dupfd2 fd1 fd2.

End Code.
End Files.
