(* ===== verification/Dirs.v ===== *)
(** * Directories and flags

    Models [mkdir], [rmdir], [unlink] and [fcntl] of [fs/vfs].  The operations
    that a mounted file system or a driver has for these calls are parameters,
    found at the address of the operation table. *)

From S2P Require Import Prelude Queue Inode Files.

Module Dirs.
Export Files.
#[local] Open Scope cmd_scope.

Definition ENOTDIR : Z := 20.
Definition ENOTEMPTY : Z := 39.

Definition FSNODEFLAG_TYPE_BLOCK : Z := 1.
Definition FSNODEFLAG_TYPE_SPECIAL : Z := 4.
Definition INODE_IS_BLOCK (n : inode) : bool := INODE_IS_TYPE n FSNODEFLAG_TYPE_BLOCK.
Definition INODE_IS_SPECIAL (n : inode) : bool := negb (Z.land (i_flags n) FSNODEFLAG_TYPE_SPECIAL =? 0).

(** [FNONBLOCK | FNDELAY | FAPPEND | FSYNC | FASYNC] *)
Definition FFCNTL : Z := Z.lor 0x40 (Z.lor 0x10 0x80).

Definition F_DUPFD : Z := 0.
Definition F_GETFD : Z := 1.
Definition F_GETFL : Z := 2.
Definition F_GETLK : Z := 4.
Definition F_GETOWN : Z := 5.
Definition F_SETFD : Z := 8.
Definition F_SETFL : Z := 9.
Definition F_SETLK : Z := 11.
Definition F_SETLKW : Z := 12.
Definition F_SETOWN : Z := 13.

(** The operations on inodes: [unlink] of a character or a block driver, and
    [mkdir], [rmdir] and [unlink] of a mounted file system. *)
Class DirOps (W : Type) : Type := {
  fop_unlink : Z → option (Z → M W Z);
  bop_unlink : Z → option (Z → M W Z);
  mop_mkdir : Z → option (Z → option (list Z) → Z → M W Z);
  mop_rmdir : Z → option (Z → option (list Z) → M W Z);
  mop_unlink : Z → option (Z → option (list Z) → M W Z)
}.

Section Code.
Context {H W : Type} {kmmI : Kmm H} {drvI : Drivers W} {netI : Sockets W} {dirI : DirOps W} (getpid : Z).

(** [errout_with_inode] *)
Definition fail_release (inode e : Z) : M (vfs H W) Z :=
  on_fs (inode_release getpid inode) ;;; fail_with e.

(** An operation of the mounted file system, then the end of the call. *)
Definition mount_call (inode : Z) (o : option (M W Z)) : M (vfs H W) Z :=
  match o with
  | Some m =>
      r <-- on_devs m ;;
      if r <? 0 then fail_release inode (- r)
      else on_fs (inode_release getpid inode) ;;; ret OK
  | None => fail_release inode ENOSYS
  end.

Definition mkdir (path : list Z) (mode : Z) : M (vfs H W) Z :=
  x <-- on_fs (inode_find getpid path) ;;
  let inode := fst x in
  let relpath := snd x in
  if negb (inode =? NULL) then
    n <-- on_fs (get inode) ;;
    if negb (INODE_IS_MOUNTPT n) || (i_ops n =? NULL) then fail_release inode ENXIO
    else mount_call inode ((λ m, m inode relpath mode) <$> mop_mkdir (i_ops n))
  else
    on_fs (inode_semtake getpid) ;;;
    x <-- on_fs (inode_reserve path) ;;
    on_fs (inode_semgive getpid) ;;;
    if fst x <? 0 then fail_with (- fst x) else ret OK.

Definition rmdir (path : list Z) : M (vfs H W) Z :=
  x <-- on_fs (inode_find getpid path) ;;
  let inode := fst x in
  let relpath := snd x in
  if inode =? NULL then fail_with ENOENT
  else
    n <-- on_fs (get inode) ;;
    if INODE_IS_MOUNTPT n && negb (i_ops n =? NULL) then
      mount_call inode ((λ m, m inode relpath) <$> mop_rmdir (i_ops n))
    else if i_ops n =? NULL then
      if negb (i_child n =? NULL) then fail_release inode ENOTEMPTY
      else
        on_fs (inode_semtake getpid) ;;;
        r <-- on_fs (inode_remove path) ;;
        on_fs (inode_semgive getpid) ;;;
        if (r <? 0) && negb (r =? - EBUSY) then fail_release inode (- r)
        else on_fs (inode_release getpid inode) ;;; ret OK
    else fail_release inode ENOTDIR.

(** The notification of the driver in [unlink]: the driver's result. *)
Definition notify (n : inode) (inode : Z) : M (vfs H W) Z :=
  match (if INODE_IS_DRIVER n then fop_unlink (i_ops n) else None) with
  | Some m => on_devs (m inode)
  | None =>
      match (if INODE_IS_BLOCK n then bop_unlink (i_ops n) else None) with
      | Some m => on_devs (m inode)
      | None => ret OK
      end
  end.

Definition unlink (path : list Z) : M (vfs H W) Z :=
  x <-- on_fs (inode_find getpid path) ;;
  let inode := fst x in
  let relpath := snd x in
  if inode =? NULL then fail_with ENOENT
  else
    n <-- on_fs (get inode) ;;
    if INODE_IS_MOUNTPT n && negb (i_ops n =? NULL) then
      mount_call inode ((λ m, m inode relpath) <$> mop_unlink (i_ops n))
    else if negb (INODE_IS_SPECIAL n) && negb (i_ops n =? NULL) then
      on_fs (inode_semtake getpid) ;;;
      n <-- on_fs (get inode) ;;
      if negb (i_child n =? NULL) then
        on_fs (inode_semgive getpid) ;;; fail_release inode ENOTEMPTY
      else
        r <-- notify n inode ;;
        if r <? 0 then fail_release inode (- r)
        else
          r <-- on_fs (inode_remove path) ;;
          on_fs (inode_semgive getpid) ;;;
          if (r <? 0) && negb (r =? - EBUSY) then fail_release inode (- r)
          else on_fs (inode_release getpid inode) ;;; ret OK
    else fail_release inode ENXIO.

(** [arg] is the third argument, if the command takes one. *)
Definition file_vfcntl (filep cmd arg : Z) : M (vfs H W) Z :=
  f <-- getf filep ;;
  if f_inode f =? NULL then fail_with EBADF
  else if cmd =? F_DUPFD then file_dup getpid filep arg
  else if (cmd =? F_GETFD) || (cmd =? F_SETFD) then fail_with ENOSYS
  else if cmd =? F_GETFL then ret (f_oflags f)
  else if cmd =? F_SETFL then
    setf filep (λ f, mkfile (Z.lor (Z.ldiff (f_oflags f) FFCNTL) (Z.land arg FFCNTL)) (f_pos f) (f_inode f) (f_priv f)) ;;;
    ret OK
  else if (cmd =? F_GETOWN) || (cmd =? F_SETOWN) then fail_with EBADF
  else if (cmd =? F_GETLK) || (cmd =? F_SETLK) || (cmd =? F_SETLKW) then fail_with ENOSYS
  else fail_with EINVAL.

Definition fcntl (fd cmd arg : Z) : M (vfs H W) Z :=
  if is_fd fd then
    filep <-- fs_getfilep fd ;;
    match filep with
    | None => ret ERROR
    | Some filep => file_vfcntl filep cmd arg
    end
  else if is_sd fd then on_net (net_vfcntl fd cmd arg)
  else ret EBADF.

End Code.
End Dirs.
