(* ===== verification/FilesSpec.v ===== *)
(** * Descriptors and references

    The invariant of the descriptor table: an inode has as many references as
    descriptors are open on it, besides those held elsewhere, and a descriptor
    is open on an inode that exists.  A reference that a call holds while it
    runs counts as held elsewhere. *)

From S2P Require Import Prelude Queue Inode InodeTree InodeSpec InodeOps Files.

Module FilesSpec.
Export InodeOps Files.
#[local] Open Scope cmd_scope.

(** ** Counting *)

Definition one (b : bool) : Z := if b then 1 else 0.

Definition refs (a : Z) (l : list file) : Z := foldr (λ f n, one (f_inode f =? a) + n) 0 l.

Lemma refs_bounds a l : 0 ≤ refs a l ≤ Z.of_nat (length l).
Proof. induction l as [|f l IH]; simpl; [lia|]. unfold one. destruct (f_inode f =? a); lia. Qed.

Lemma refs_insert a l i f0 f : l !! i = Some f0 →
  refs a (<[i := f]> l) = refs a l - one (f_inode f0 =? a) + one (f_inode f =? a).
Proof.
  revert i. induction l as [|g l IH]; intros [|i]; simpl; try done.
  - intros [= ->]. lia.
  - intros E. rewrite IH by done. lia.
Qed.

Lemma refs_pos a l f : f ∈ l → f_inode f = a → 1 ≤ refs a l.
Proof.
  induction l as [|g l IH]; [set_solver|]. simpl. rewrite elem_of_cons. pose proof (refs_bounds a l). unfold one.
  intros [->|Hf] E; [by rewrite (proj2 (Z.eqb_eq _ _) E); lia|]. specialize (IH Hf E). destruct (f_inode g =? a); lia.
Qed.

(** One more reference to [a]. *)
Definition bump (a : Z) (ext : Z → Z) : Z → Z := λ b, ext b + one (a =? b).

(** Where a descriptor may go, and where it goes: the first entry that is free. *)
Definition free_entry (l : list file) (minfd : nat) : option nat :=
  (λ x, minfd + x.1)%nat <$> list_find (λ f, f_inode f = NULL) (drop minfd l).

(** What the drivers promise: their operations return, and leave the inode of
    the file alone. *)
Definition valid_buf (buf : buffer) (n : Z) : Prop :=
  0 ≤ n ∧ match buf with Some b => n ≤ Z.of_nat (length b) | None => True end.

Class DriverLaws (W : Type) `{Drivers W} : Type := {
  dev_ok : W → Prop;
  open_law p m f w : op_open (i_fops p) = Some m → dev_ok w →
    wp (m f) (λ x w', dev_ok w' ∧ f_inode x.2 = f_inode f) w;
  mop_open_law p f rp o md w : dev_ok w →
    wp (mop_open (i_mops p) f rp o md) (λ x w', dev_ok w' ∧ f_inode x.2 = f_inode f) w;
  mop_dup_law p f1 f2 w : dev_ok w →
    wp (mop_dup (i_mops p) f1 f2)
      (λ x w', dev_ok w' ∧ f_inode x.2.1 = f_inode f1 ∧ f_inode x.2.2 = f_inode f2) w;
  close_law p m f w : op_close (i_fops p) = Some m → dev_ok w →
    wp (m f) (λ x w', dev_ok w' ∧ f_inode x.2 = f_inode f) w;
  read_law p m f buf n w : op_read (i_fops p) = Some m → valid_buf buf n → dev_ok w →
    wp (m f buf n) (λ x w', dev_ok w' ∧ f_inode x.2 = f_inode f) w;
  write_law p m f buf n w : op_write (i_fops p) = Some m → valid_buf buf n → dev_ok w →
    wp (m f buf n) (λ x w', dev_ok w' ∧ f_inode x.2 = f_inode f) w;
  seek_law p m f o wh w : op_seek (i_fops p) = Some m → dev_ok w →
    wp (m f o wh) (λ x w', dev_ok w' ∧ f_inode x.2 = f_inode f) w;
  ioctl_law p m f req arg w : op_ioctl (i_fops p) = Some m → dev_ok w →
    wp (m f req arg) (λ x w', dev_ok w' ∧ f_inode x.2 = f_inode f) w
}.

(** Nothing below a removed node is in use. *)
Definition idle (f : forest) : Prop := all_info (λ _ i, crefs i = 0) f.
Definition idle_below (t : forest) : Prop := match t with FCons _ _ c _ => idle c | FNil => True end.

Lemma zombie_below m t a n : zombie m t → idle_below t → m !! a = Some n → 0 < i_crefs n → a ∈ addrs t →
  ∃ i c, t = FCons a i c FNil ∧ ¬ (a ∈ addrs c) ∧ i_crefs n = crefs i.
Proof.
  destruct t as [|b i c [|]]; try done. intros (HT & _) Hid En Hn. simpl in *. destruct HT as (_ & _ & x & y & E & Hc & _).
  assert (a ∉ addrs c) as Hac.
  { intros Ha. destruct (trep_info _ _ _ _ _ Hc Hid Ha) as (j & x' & y' & E' & Hj). simplify_eq. simpl in Hn. lia. }
  rewrite app_nil_r, elem_of_cons. intros [->|?]; [|done]. simplify_eq. eauto 10.
Qed.

Lemma idle_at_crefs m a u D n : Forall (zombie m) D → Forall idle_below D → m !! a = Some n →
  0 < i_crefs n ∨ a ∉ (D ≫= addrs) →
  Forall idle_below (at_crefs a u <$> D).
Proof.
  intros HZ HI En Hn. apply Forall_fmap. rewrite Forall_forall in *. intros t Ht. specialize (HZ t Ht). specialize (HI t Ht).
  destruct (decide (a ∈ addrs t)) as [Ha|Ha].
  - destruct Hn as [Hn|Hn]; [|destruct Hn; apply list_elem_of_bind; eauto].
    destruct (zombie_below _ _ _ _ HZ HI En Hn Ha) as (i & c & -> & Hc & _). simpl. by rewrite map_at_notin.
  - unfold at_crefs. simpl. by rewrite map_at_notin.
Qed.

Section Specs.
Context {H W : Type} {kmmI : Kmm H} {kmmL : KmmLaws H} {drvI : Drivers W} {drvL : DriverLaws W} {netI : Sockets W}.
Context (getpid : Z).
Hypothesis pid_ok : getpid ≠ NO_HOLDER.
Implicit Types (v : vfs H W) (T : forest) (D : list forest) (L : gset Z) (ext : Z → Z).

Record vfs_ok v T D L ext : Prop := {
  vo_fs : fs_ok (fs v) T D L;
  vo_lock : lockable getpid (g_inode_sem (fs v));
  vo_len : length (fl_files v) = Z.to_nat CONFIG_NFILE_DESCRIPTORS;
  vo_refs : ∀ a n, inodes (fs v) !! a = Some n → i_crefs n = refs a (fl_files v) + ext a;
  vo_open : ∀ f, f ∈ fl_files v → f_inode f ≠ NULL → is_Some (inodes (fs v) !! f_inode f);
  vo_idle : Forall idle_below D;
  vo_ext : ∀ a, 0 ≤ ext a;
  vo_held : ∀ a, a ≠ NULL → ext a ≠ 0 → is_Some (inodes (fs v) !! a);
  vo_dev : dev_ok (devs v)
}.

(** ** Rules *)

Lemma wp_on_fs {A} (m : M (fsys H) A) Q v : wp (on_fs m) Q v = wp m (λ a x, Q a (upd_fs x v)) (fs v).
Proof. unfold wp, on_fs, res_bind. by destruct (m (fs v)) as [[??]|]. Qed.

Lemma wp_on_devs {A} (m : M W A) Q v : wp (on_devs m) Q v = wp m (λ a x, Q a (upd_devs x v)) (devs v).
Proof. unfold wp, on_devs, res_bind. by destruct (m (devs v)) as [[??]|]. Qed.

Lemma wp_getf i f Q v : 0 ≤ i → fl_files v !! Z.to_nat i = Some f → wp (getf i) Q v = Q f v.
Proof. intros Hi E. unfold wp, getf. by rewrite (proj2 (Z.ltb_ge _ _)), E by done. Qed.

Lemma wp_setf i f g Q v : 0 ≤ i → fl_files v !! Z.to_nat i = Some f →
  wp (setf i g) Q v = Q tt (upd_files (<[Z.to_nat i := g f]> (fl_files v)) v).
Proof. intros Hi E. unfold setf. by rewrite wp_bind, (wp_getf i f). Qed.

Lemma wp_iget_fs a n Q v : a ≠ NULL → inodes (fs v) !! a = Some n → wp (on_fs (get a)) Q v = Q n v.
Proof. intros Ha E. rewrite wp_on_fs, (wp_iget a n) by done. by destruct v. Qed.

Lemma wp_ftake Q v : 0 < fl_sem v → wp _files_semtake Q v = Q tt (upd_fsem (fl_sem v - 1) v).
Proof. intros Hs. unfold _files_semtake. by rewrite wp_bind, wp_gets, (proj2 (Z.ltb_lt _ _)). Qed.

Lemma wp_fgive Q v : wp _files_semgive Q v = Q tt (upd_fsem (fl_sem v + 1) v).
Proof. done. Qed.

Lemma entry v T D L ext fd : vfs_ok v T D L ext → 0 ≤ fd < CONFIG_NFILE_DESCRIPTORS →
  ∃ f, fl_files v !! Z.to_nat fd = Some f.
Proof.
  intros HO Hfd. apply lookup_lt_is_Some_2. rewrite (vo_len _ _ _ _ _ HO). lia.
Qed.

(** ** Entries *)

Lemma set_file_ok v T D L ext ext' i f0 f : vfs_ok v T D L ext → fl_files v !! i = Some f0 →
  (f_inode f ≠ NULL → is_Some (inodes (fs v) !! f_inode f)) →
  (∀ a, a ≠ NULL → ext' a = ext a + one (f_inode f0 =? a) - one (f_inode f =? a)) →
  (∀ a, 0 ≤ ext' a) →
  vfs_ok (upd_files (<[i := f]> (fl_files v)) v) T D L ext'.
Proof.
  intros [H1 H2 H4 H5 H6 H7 H8 H10 H9] E Hf He Hb. split; simpl; try done.
  - by rewrite length_insert.
  - intros a n Ea. rewrite (refs_insert _ _ _ f0) by done. rewrite (H5 _ _ Ea), He; [lia|].
    by eapply ok_not_null.
  - intros g [j Hj]%list_elem_of_lookup Hn. rewrite list_lookup_insert in Hj. case_decide; simplify_eq; [by apply Hf|].
    apply H6; [by eapply list_elem_of_lookup_2|done].
  - intros a Ha Hx. rewrite He in Hx by done. destruct (decide (ext a = 0)) as [E0|N]; [|by apply H10].
    unfold one in Hx. destruct (Z.eqb_spec (f_inode f0) a) as [<-|N].
    + apply H6; [by eapply list_elem_of_lookup_2|done].
    + destruct (Z.eqb_spec (f_inode f) a) as [<-|N']; [by apply Hf|lia].
Qed.

Lemma same_file_ok v T D L ext i f0 f : vfs_ok v T D L ext → fl_files v !! i = Some f0 → f_inode f = f_inode f0 →
  vfs_ok (upd_files (<[i := f]> (fl_files v)) v) T D L ext.
Proof.
  intros HO E Ef. eapply set_file_ok; [done|done| | |apply HO].
  - rewrite Ef. intros Hn. apply (vo_open _ _ _ _ _ HO); [|done]. by eapply list_elem_of_lookup_2.
  - intros a _. rewrite Ef. lia.
Qed.

(** An operation of the device leaves the table as it is, but for the file. *)
Lemma wp_call i m f v T D L ext Q : vfs_ok v T D L ext → 0 ≤ i → fl_files v !! Z.to_nat i = Some f →
  (∀ w, dev_ok w → wp (m f) (λ x w', dev_ok w' ∧ f_inode x.2 = f_inode f) w) →
  (∀ r f' w, f_inode f' = f_inode f → m f (devs v) = Ok ((r, f'), w) →
     vfs_ok (upd_files (<[Z.to_nat i := f']> (fl_files v)) (upd_devs w v)) T D L ext →
     Q r (upd_files (<[Z.to_nat i := f']> (fl_files v)) (upd_devs w v))) →
  wp (call i m) Q v.
Proof.
  intros HO Hi E Hm HQ. unfold call. rewrite wp_bind, (wp_getf i f), wp_bind, wp_on_devs by done.
  destruct (wp_run _ _ _ (Hm _ (vo_dev _ _ _ _ _ HO))) as ([r f'] & w & Em & Hw & Ef). simpl in *.
  eapply wp_ok; [exact Em|]. rewrite wp_bind, (wp_setf i f) by done. rewrite wp_ret. simpl.
  apply HQ; [done|done|]. apply (same_file_ok (upd_devs w v) T D L ext _ f); [|done|done].
  destruct HO; by split.
Qed.

(** ** References *)

(** The reference count of [a] moves with what is held elsewhere. *)
Lemma crefs_ok v T D L ext ext' a n u : vfs_ok v T D L ext → inodes (fs v) !! a = Some n →
  0 < i_crefs n ∨ a ∉ (D ≫= addrs) → 0 ≤ u ≤ 32767 → (u = 0 → Z.land (i_flags n) FSNODEFLAG_DELETED = 0) →
  u = refs a (fl_files v) + ext' a → (∀ b, b ≠ a → ext' b = ext b) → (∀ b, 0 ≤ ext' b) →
  vfs_ok (upd_fs (set_crefs a u (fs v)) v) (at_crefs a u T) (at_crefs a u <$> D) L ext'.
Proof.
  intros HO En Hn Hu Hz Hr He Hp. pose proof HO as [H1 H2 H4 H5 H6 H7 H8 H10 H9]. split; simpl; try done.
  - apply set_crefs_ok; [done|done|]. intros n' En'. rewrite En in En'. injection En' as <-. done.
  - intros b n' Eb. destruct (decide (b = a)) as [->|N].
    + rewrite lookup_alter_eq, En in Eb. injection Eb as <-. done.
    + rewrite lookup_alter_ne in Eb by done. rewrite He by done. by apply H5.
  - intros f Hf Hi. destruct (H6 f Hf Hi) as [x Ex]. destruct (decide (f_inode f = a)) as [->|N].
    + rewrite lookup_alter_eq, En. eauto.
    + rewrite lookup_alter_ne by done. eauto.
  - eapply idle_at_crefs; [apply H1|done|done|done].
  - intros b Hb Hx. destruct (decide (b = a)) as [->|N]; [rewrite lookup_alter_eq, En; eauto|].
    rewrite lookup_alter_ne by done. apply H10; [done|]. by rewrite <- He.
Qed.

Lemma in_use v T D L ext a n : vfs_ok v T D L ext → inodes (fs v) !! a = Some n →
  i_crefs n = refs a (fl_files v) + ext a ∧ 0 ≤ refs a (fl_files v) ≤ 8.
Proof.
  intros HO En. split; [by apply HO|]. pose proof (refs_bounds a (fl_files v)) as Hb.
  rewrite (vo_len _ _ _ _ _ HO) in Hb. change (Z.of_nat (Z.to_nat CONFIG_NFILE_DESCRIPTORS)) with 8 in Hb. done.
Qed.

Lemma crefs_upper (s : fsys H) T D L a n : fs_ok s T D L → inodes s !! a = Some n → i_crefs n ≤ 32767.
Proof.
  intros HO En. pose proof (elem_of_dom_2 _ _ _ En) as Hd.
  rewrite (ok_dom _ _ _ _ HO), elem_of_list_to_set, elem_of_all_addrs in Hd.
  destruct Hd as [Ha|(t & Ha & Ht)%list_elem_of_bind].
  - destruct (trep_info _ _ _ _ _ (ok_tree _ _ _ _ HO) (ok_live _ _ _ _ HO) Ha) as (i & x & y & E & [Hi _]).
    simplify_eq. simpl. lia.
  - pose proof (proj1 (Forall_forall _ _) (ok_zombies _ _ _ _ HO) _ Ht) as Hz.
    destruct t as [|b i c [|]]; try done. destruct Hz as (HT & Hd & Hc & HL). simpl in *. rewrite app_nil_r in Ha.
    destruct HT as (_ & _ & x & y & E & Hx & _). apply elem_of_cons in Ha as [->|Ha].
    + simplify_eq. simpl. lia.
    + destruct (trep_info _ _ _ _ _ Hx HL Ha) as (j & x' & y' & E' & [Hj _]). simplify_eq. simpl. lia.
Qed.

Lemma wp_addref_ref a v T D L ext Q : vfs_ok v T D L ext → is_Some (inodes (fs v) !! a) →
  1 ≤ refs a (fl_files v) → ext a ≤ 32000 →
  (∀ u, vfs_ok (upd_fs (set_crefs a u (fs v)) v) (at_crefs a u T) (at_crefs a u <$> D) L (bump a ext) →
     Q tt (set_crefs a u (fs v))) →
  wp (inode_addref getpid a) Q (fs v).
Proof.
  intros HO [n En] Hr He HQ. destruct (in_use _ _ _ _ _ _ _ HO En) as [Ec Hb]. pose proof (vo_ext _ _ _ _ _ HO a).
  eapply wp_addref; [done|apply HO|apply HO|exact En|lia|]. apply HQ.
  eapply crefs_ok; [done|exact En|left; lia|lia|lia| | |].
  - unfold bump, one. rewrite Z.eqb_refl. lia.
  - intros b N. unfold bump, one. rewrite (proj2 (Z.eqb_neq a b)) by done. lia.
  - intros b. pose proof (vo_ext _ _ _ _ _ HO b). unfold bump, one. destruct (a =? b); lia.
Qed.

Lemma bump_at a ext : bump a ext a = ext a + 1.
Proof. unfold bump, one. by rewrite Z.eqb_refl. Qed.

Lemma bump_ne a b ext : b ≠ a → bump a ext b = ext b.
Proof. intros N. unfold bump, one. rewrite (proj2 (Z.eqb_neq a b)) by done. lia. Qed.

Lemma wp_find_ref path v T D L ext : vfs_ok v T D L ext → is_absolute path = true → (∀ a, ext a ≤ 32000) →
  wp (inode_find getpid path) (λ r x,
    match find T (path_of path) with
    | Some (a, i, rest) =>
        ∃ rp, r = (a, Some rp) ∧ rest_segs rp = rest ∧ x = set_crefs a (crefs i + 1) (fs v) ∧
        vfs_ok (upd_fs x v) (at_crefs a (crefs i + 1) T) (at_crefs a (crefs i + 1) <$> D) L (bump a ext)
    | None => r = (NULL, None) ∧ x = fs v
    end) (fs v).
Proof.
  intros HO Ha He. pose proof (vo_fs _ _ _ _ _ HO) as HF.
  assert (∀ a i rest, find T (path_of path) = Some (a, i, rest) →
    (∃ x y, inodes (fs v) !! a = Some (node_of i x y)) ∧ ¬ (a ∈ D ≫= addrs) ∧
    crefs i = refs a (fl_files v) + ext a ∧ 0 ≤ crefs i ≤ 32008) as Hi.
  { intros a i rest E. destruct (find_addr _ _ _ _ _ _ _ _ HF E) as (_ & HaT & x & y & En).
    destruct (in_use _ _ _ _ _ _ _ HO En) as [Ec Hb]. simpl in Ec. pose proof (vo_ext _ _ _ _ _ HO a). specialize (He a).
    split_and!; [eauto| |done|lia|lia]. intros HD. pose proof (ok_nodup _ _ _ _ HF) as (_ & N & _)%NoDup_app. by apply (N a). }
  eapply wp_mono; [eapply wp_find; [done|apply HO|apply HO|done|]|].
  - intros a i rest E. destruct (Hi _ _ _ E) as (_ & _ & _ & ?). lia.
  - intros r x. destruct (find T (path_of path)) as [[[a i] rest]|]; [|done].
    intros (rp & -> & Hrp & ->). exists rp. split_and!; [done|done|done|].
    destruct (Hi _ _ _ eq_refl) as ((y & z & En) & HD & Ec & Hc).
    eapply crefs_ok; [done|exact En|by right|lia|lia| | |].
    + rewrite bump_at. lia.
    + intros b N. by apply bump_ne.
    + intros b. pose proof (vo_ext _ _ _ _ _ HO b). unfold bump, one. destruct (a =? b); lia.
Qed.

(** A reference held by the call is given back. *)
Lemma wp_release_ref a v T D L ext : vfs_ok v T D L (bump a ext) → is_Some (inodes (fs v) !! a) → (∀ b, 0 ≤ ext b) →
  wp (inode_release getpid a) (λ _ x,
    ∃ u D' L', vfs_ok (upd_fs x v) (at_crefs a u T) D' L' ext) (fs v).
Proof.
  intros HO [n En] He. pose proof (vo_fs _ _ _ _ _ HO) as HF. destruct (in_use _ _ _ _ _ _ _ HO En) as [Ec Hb].
  rewrite bump_at in Ec. pose proof (He a) as Hea. pose proof (crefs_upper _ _ _ _ _ _ HF En) as Hup.
  destruct (decide (1 < i_crefs n ∨ Z.land (i_flags n) FSNODEFLAG_DELETED = 0)) as [Hk|Hk].
  - eapply wp_release_keep; [done|apply HO|done|exact En|lia|done|]. rewrite Z.max_r by lia.
    eexists _, _, _. eapply crefs_ok; [done|exact En|left; lia|lia|lia|lia| |done].
    intros b N. by rewrite bump_ne.
  - pose proof (elem_of_dom_2 _ _ _ En) as Hd. rewrite (ok_dom _ _ _ _ HF), elem_of_list_to_set, elem_of_all_addrs in Hd.
    destruct Hd as [Ha|(t & Ha & Ht)%list_elem_of_bind].
    { exfalso. apply Hk. right.
      destruct (trep_info _ _ _ _ _ (ok_tree _ _ _ _ HF) (ok_live _ _ _ _ HF) Ha) as (i & x & y & E & [_ Hi]).
      simplify_eq. by apply negb_false_iff, Z.eqb_eq in Hi. }
    pose proof (proj1 (Forall_forall _ _) (ok_zombies _ _ _ _ HF) _ Ht) as Hz.
    pose proof (proj1 (Forall_forall _ _) (vo_idle _ _ _ _ _ HO) _ Ht) as Hid.
    destruct (zombie_below _ _ _ _ Hz Hid En ltac:(lia) Ha) as (i & c & -> & Hc & Ei).
    apply list_elem_of_split in Ht as (D1 & D2 & ->).
    assert (a ∉ addrs T) as HaT.
    { intros HaT. pose proof (ok_nodup _ _ _ _ HF) as (_ & N & _)%NoDup_app. apply (N a HaT), list_elem_of_bind.
      eexists. split; [exact Ha|set_solver]. }
    eapply wp_mono; [eapply (wp_release_last _ a i c _ T D1 D2 L); [done|apply HO|done|lia]|].
    intros [] x (El & HF' & HX). exists 0, (D1 ++ D2), (L ∖ list_to_set (a :: addrs c)).
    unfold at_crefs. rewrite map_at_notin by done. destruct HO as [H1 H2 H4 H5 H6 H7 H8 H10 H9].
    destruct Hz as ((_ & _ & y & z & _ & Hy & _) & _).
    split; simpl; [done|by rewrite El|done| | |by apply Forall_app in H7 as [? [? ?]%Forall_cons]; apply Forall_app|done| |done].
    + intros b n' Eb. destruct HX as (_ & _ & HI & _). rewrite HI in Eb. case_bool_decide as Hin; [done|].
      rewrite (H5 _ _ Eb), bump_ne by set_solver. done.
    + intros f Hf Hn. destruct HX as (_ & _ & HI & _). rewrite HI. destruct (H6 f Hf Hn) as [n' En'].
      pose proof (refs_pos _ _ _ Hf eq_refl) as Hp. rewrite bool_decide_false; [eauto|].
      intros [Efa|Hin]%elem_of_cons; [rewrite Efa in *; lia|].
      destruct (trep_info _ _ _ _ _ Hy Hid Hin) as (j & x' & y' & E' & Hj). simplify_eq.
      specialize (H5 _ _ En'). simpl in H5. unfold bump, one in H5. specialize (He (f_inode f)).
      destruct (a =? f_inode f); lia.
    + intros b Hbn Hx. destruct HX as (_ & _ & HI & _). rewrite HI.
      destruct (H10 b Hbn) as [n' En']; [pose proof (He b); unfold bump, one; destruct (a =? b); lia|].
      rewrite bool_decide_false; [eauto|]. intros [->|Hin]%elem_of_cons; [lia|].
      destruct (trep_info _ _ _ _ _ Hy Hid Hin) as (j & x' & y' & E' & Hj). simplify_eq.
      specialize (H5 _ _ En'). simpl in H5. unfold bump, one in H5. pose proof (refs_bounds b (fl_files v)). pose proof (He b).
      destruct (a =? b); lia.
Qed.

(** ** Allocation *)

Lemma free_entry_step l i f : l !! i = Some f →
  free_entry l i = if decide (f_inode f = NULL) then Some i else free_entry l (S i).
Proof.
  intros E. unfold free_entry. rewrite (drop_S l f i) by done. cbn [list_find].
  destruct (decide (f_inode f = NULL)) as [?|N]; simpl; [f_equal; lia|].
  destruct (list_find _ _) as [[j g]|]; simpl; [f_equal; lia|done].
Qed.

Lemma free_entry_Some l i k : free_entry l i = Some k →
  ∃ f, l !! k = Some f ∧ f_inode f = NULL ∧ (i ≤ k < length l)%nat.
Proof.
  unfold free_entry. intros ([j f] & Ej & ->)%fmap_Some. simpl. apply list_find_Some in Ej as (E & Hf & _).
  rewrite lookup_drop in E. exists f. split_and!; [done|done|lia|by eapply lookup_lt_Some].
Qed.

Lemma allocate_from_spec fuel i a oflags pos v Q :
  length (fl_files v) = Z.to_nat CONFIG_NFILE_DESCRIPTORS → (Z.to_nat CONFIG_NFILE_DESCRIPTORS - i ≤ fuel)%nat →
  match free_entry (fl_files v) i with
  | Some k => Q (Z.of_nat k) (upd_fsem (fl_sem v + 1) (upd_files (<[k := mkfile oflags pos a NULL]> (fl_files v)) v))
  | None => Q ERROR (upd_fsem (fl_sem v + 1) v)
  end → wp (allocate_from fuel (Z.of_nat i) a oflags pos) Q v.
Proof.
  intros Hlen. revert i. induction fuel as [|fuel IH]; intros i Hf HQ; cbn [allocate_from];
    (destruct (Z.ltb_spec (Z.of_nat i) CONFIG_NFILE_DESCRIPTORS) as [Hi|Hi];
     [|rewrite wp_bind, wp_fgive, wp_ret; unfold free_entry in HQ; rewrite drop_ge in HQ by lia; exact HQ]).
  { unfold CONFIG_NFILE_DESCRIPTORS in *. lia. }
  destruct (lookup_lt_is_Some_2 (fl_files v) i) as [f E]; [lia|].
  rewrite wp_bind, (wp_getf _ f) by (rewrite ?Nat2Z.id; done || lia).
  rewrite (free_entry_step _ _ _ E) in HQ. destruct (Z.eqb_spec (f_inode f) NULL) as [En|En].
  - rewrite decide_True in HQ by done. rewrite wp_bind, (wp_setf _ f) by (rewrite ?Nat2Z.id; done || lia).
    rewrite wp_bind, wp_fgive, wp_ret, Nat2Z.id. exact HQ.
  - rewrite decide_False in HQ by done. replace (Z.of_nat i + 1) with (Z.of_nat (S i)) by lia. apply IH; [lia|done].
Qed.

Lemma wp_allocate a oflags pos minfd v Q : 0 < fl_sem v →
  length (fl_files v) = Z.to_nat CONFIG_NFILE_DESCRIPTORS →
  match free_entry (fl_files v) minfd with
  | Some k => Q (Z.of_nat k) (upd_files (<[k := mkfile oflags pos a NULL]> (fl_files v)) v)
  | None => Q ERROR v
  end → wp (files_allocate a oflags pos (Z.of_nat minfd)) Q v.
Proof.
  intros Hs Hlen HQ. unfold files_allocate. rewrite wp_bind, wp_ftake by done. apply allocate_from_spec; [done|lia|].
  simpl. replace (fl_sem v - 1 + 1) with (fl_sem v) by lia.
  destruct (free_entry (fl_files v) minfd); [exact HQ|]. by destruct v.
Qed.

(** ** What paths name

    The tree seen through its searches, without the reference counts. *)
Definition naming : Type := list name → option (Z * info * list name).

Definition names (T : forest) : naming := λ ss, (λ '(a, i, rest), (a, with_crefs 0 i, rest)) <$> find T ss.

Lemma names_at_crefs a u T ss : names (at_crefs a u T) ss = names T ss.
Proof.
  unfold names, at_crefs. rewrite find_map_at by done. destruct (find T ss) as [[[b i] rest]|]; simpl; [|done].
  by destruct (b =? a).
Qed.

(** The state during a call: the descriptors are in order, and paths name [N]. *)
Definition vfs_in v (N : naming) ext : Prop := ∃ T D L, vfs_ok v T D L ext ∧ ∀ ss, names T ss = N ss.

(** The state between calls: nobody has locked the table. *)
Definition vfs_at v (N : naming) ext : Prop := 0 < fl_sem v ∧ vfs_in v N ext.

Lemma wp_release_at a v N T D L ext Q : vfs_ok v T D L (bump a ext) → (∀ ss, names T ss = N ss) →
  is_Some (inodes (fs v) !! a) → (∀ b, 0 ≤ ext b) →
  (∀ x, vfs_in (upd_fs x v) N ext → Q tt x) → wp (inode_release getpid a) Q (fs v).
Proof.
  intros HO HN Ha He HQ. eapply wp_mono; [by apply (wp_release_ref a v T D L ext)|].
  intros [] x (u & D' & L' & HO'). apply HQ. eexists _, _, _. split; [exact HO'|]. intros ss. by rewrite names_at_crefs.
Qed.

Lemma in_errno e v N ext : vfs_in v N ext → vfs_in (upd_errno e v) N ext.
Proof. intros (T & D & L & HO & HN). exists T, D, L. split; [destruct HO; by split|done]. Qed.

Lemma in_fsem n v N ext : vfs_in v N ext → vfs_in (upd_fsem n v) N ext.
Proof. intros (T & D & L & HO & HN). exists T, D, L. split; [destruct HO; by split|done]. Qed.

Lemma in_devs w v N ext : dev_ok w → vfs_in v N ext → vfs_in (upd_devs w v) N ext.
Proof. intros Hn (T & D & L & HO & HN). exists T, D, L. split; [destruct HO; by split|done]. Qed.

(** An operation that may be missing. *)
Definition or_ok (o : option (file → M W (Z * file))) : file → M W (Z * file) :=
  match o with Some m => m | None => λ f, ret (OK, f) end.

Lemma wp_call_opt (o : option (file → M W (Z * file))) i f v T D L ext Q :
  vfs_ok v T D L ext → 0 ≤ i → fl_files v !! Z.to_nat i = Some f →
  (∀ m w, o = Some m → dev_ok w → wp (m f) (λ x w', dev_ok w' ∧ f_inode x.2 = f_inode f) w) →
  (∀ r f' w, f_inode f' = f_inode f → or_ok o f (devs v) = Ok ((r, f'), w) →
     vfs_ok (upd_files (<[Z.to_nat i := f']> (fl_files v)) (upd_devs w v)) T D L ext →
     Q r (upd_files (<[Z.to_nat i := f']> (fl_files v)) (upd_devs w v))) →
  wp (match o with Some m => call i m | None => ret OK end) Q v.
Proof.
  intros HO Hi E Hm HQ. destruct o as [m|]; simpl in HQ.
  - eapply wp_call; [done|done|exact E| |done]. intros w Hw. by apply Hm.
  - rewrite wp_ret. specialize (HQ OK f (devs v) eq_refl eq_refl).
    assert (upd_files (<[Z.to_nat i := f]> (fl_files v)) (upd_devs (devs v) v) = v) as Ev.
    { rewrite list_insert_id by done. by destruct v. }
    rewrite Ev in HQ. by apply HQ.
Qed.

End Specs.
End FilesSpec.
