(* ===== verification/FilesOps.v ===== *)
(** * The calls on descriptors

    What [open], [close], [dup], [dup2] and the transfers do, on every branch;
    the descriptor table stays in order through any sequence of calls. *)

From S2P Require Import Prelude Queue Inode InodeTree InodeSpec InodeOps Files FilesSpec.

Module FilesOps.
Export FilesSpec.
#[local] Open Scope cmd_scope.

Section Specs.
Context {H W : Type} {kmmI : Kmm H} {kmmL : KmmLaws H} {drvI : Drivers W} {drvL : DriverLaws W} {netI : Sockets W}.
Context (getpid : Z).
Hypothesis pid_ok : getpid ≠ NO_HOLDER.
Implicit Types (v : vfs H W) (T : forest) (D : list forest) (L : gset Z) (ext : Z → Z).

(** ** Closing an entry *)

Definition closer (n : inode) : file → M W (Z * file) := or_ok (operation op_close n).

(** The entry is free afterwards, whatever the driver says. *)
Definition closed v i (f : file) r v' : Prop :=
  ∃ n f1 w, inodes (fs v) !! f_inode f = Some n ∧ closer n f (devs v) = Ok ((r, f1), w) ∧
    fl_files v' = <[Z.to_nat i := mkfile 0 0 NULL (f_priv f1)]> (fl_files v) ∧
    devs v' = w ∧ fl_sem v' = fl_sem v ∧ errno v' = errno v.

Lemma wp__files_close i f v N ext : vfs_in getpid v N ext → 0 ≤ i → fl_files v !! Z.to_nat i = Some f →
  f_inode f ≠ NULL →
  wp (_files_close getpid i) (λ r v', vfs_in getpid v' N ext ∧ closed v i f r v') v.
Proof.
  intros (T & D & L & HO & HN) Hi E Hf. unfold _files_close.
  rewrite wp_bind, (wp_getf i f) by done. rewrite (proj2 (Z.eqb_neq _ _)) by done. cbn [negb].
  destruct (vo_open _ _ _ _ _ _ HO f) as [n En]; [by eapply list_elem_of_lookup_2|done|].
  rewrite wp_bind, (wp_iget_fs _ n), wp_bind by done.
  eapply wp_call_opt; [exact HO|done|exact E| |].
  { intros m w Em Hw. unfold operation in Em. destruct (i_ops n =? NULL); [done|]. by eapply close_law. }
  intros r f1 w Ef Er HO1. set (v1 := upd_files _ _) in *. cbv beta.
  assert (fl_files v1 !! Z.to_nat i = Some f1) as E1 by (apply list_lookup_insert_eq; by eapply lookup_lt_Some).
  set (f2 := mkfile 0 0 NULL (f_priv f1)).
  assert (vfs_ok getpid (upd_files (<[Z.to_nat i := f2]> (fl_files v1)) v1) T D L (bump (f_inode f) ext)) as HO2.
  { eapply set_file_ok; [exact HO1|exact E1|done| |].
    - intros a Ha. unfold bump. rewrite Ef. change (f_inode f2) with NULL. rewrite (proj2 (Z.eqb_neq NULL a)) by done. unfold one. lia.
    - intros a. pose proof (vo_ext _ _ _ _ _ _ HO a). unfold bump, one. destruct (f_inode f =? a); lia. }
  rewrite wp_bind, wp_on_fs. change (fs v1) with (fs (upd_files (<[Z.to_nat i := f2]> (fl_files v1)) v1)).
  eapply wp_release_at; [done|exact HO2|exact HN|simpl; eauto|apply HO|].
  intros x HX. rewrite wp_bind, (wp_setf i f1), wp_ret by done. split; [exact HX|].
  exists n, f1, w. split_and!; try done. simpl. by rewrite list_insert_insert_eq.
Qed.

(** ** Opening *)

Definition opener (i : info) (rp : option (list Z)) (oflags : Z) : file → M W (Z * file) :=
  match op_open (i_fops (ops i)) with
  | None => λ f, ret (OK, f)
  | Some m => if mountpt i then λ f, mop_open (i_mops (ops i)) f rp oflags 0x1b6 else m
  end.

(** Nothing but [errno] changes. *)
Definition refused v (e : Z) (r : Z) v' : Prop :=
  r = ERROR ∧ errno v' = e ∧ fl_files v' = fl_files v ∧ fl_sem v' = fl_sem v ∧ devs v' = devs v.

(** The outcome of [open] on an inode [a]. *)
Definition open_inode v (a : Z) (i : info) (rest : list name) (oflags r : Z) v' : Prop :=
  let n := node_of i NULL NULL in
  if negb (INODE_IS_DRIVER n) && negb (INODE_IS_MOUNTPT n) || (ops i =? NULL) then refused v ENXIO r v'
  else if inode_checkflags n oflags <? 0 then refused v EACCES r v'
  else match free_entry (fl_files v) 0 with
  | None => refused v EMFILE r v'
  | Some fd =>
      ∃ rp ro f1 w, rest_segs rp = rest ∧
        opener i (Some rp) oflags (mkfile oflags 0 a NULL) (devs v) = Ok ((ro, f1), w) ∧
        devs v' = w ∧ fl_sem v' = fl_sem v ∧ f_inode f1 = a ∧
        if ro <? 0
        then r = ERROR ∧ errno v' = - ro ∧ fl_files v' = <[fd := mkfile 0 0 NULL (f_priv f1)]> (fl_files v)
        else r = Z.of_nat fd ∧ errno v' = errno v ∧ fl_files v' = <[fd := f1]> (fl_files v)
  end.

Definition open_result v (N : naming) (path : list Z) (oflags r : Z) v' : Prop :=
  match (if is_absolute path then N (path_of path) else None) with
  | None => refused v ENOENT r v'
  | Some (a, i, rest) => open_inode v a i rest oflags r v'
  end.

Lemma wp_fail_with e v (Q : Z → vfs H W → Prop) : wp (fail_with e) Q v = Q ERROR (upd_errno e v).
Proof. done. Qed.

Lemma is_fd_small fd : (fd < Z.to_nat CONFIG_NFILE_DESCRIPTORS)%nat → is_fd (Z.of_nat fd) = true.
Proof.
  unfold is_fd, CONFIG_NFILE_DESCRIPTORS. intros Hfd. apply Z.ltb_lt. rewrite u32_small; lia.
Qed.

(** The reference that [open] holds is given back on a failure. *)
Lemma wp_give_back a e v1 N T D L ext (P : Z → vfs H W → Prop) :
  vfs_ok getpid v1 T D L (bump a ext) → (∀ ss, names T ss = N ss) → is_Some (inodes (fs v1) !! a) → (∀ b, 0 ≤ ext b) →
  (∀ v', vfs_in getpid v' N ext → fl_files v' = fl_files v1 → fl_sem v' = fl_sem v1 → devs v' = devs v1 → errno v' = e →
     P ERROR v') →
  wp (on_fs (inode_release getpid a) ;;; fail_with e) P v1.
Proof.
  intros HO HN Ha He HP. rewrite wp_bind, wp_on_fs. eapply wp_release_at; [done|exact HO|exact HN|done|done|].
  intros x HX. rewrite wp_fail_with. apply HP; try done. by apply in_errno.
Qed.

Lemma opener_law i rp oflags f w : dev_ok w →
  wp (opener i rp oflags f) (λ x w', dev_ok w' ∧ f_inode x.2 = f_inode f) w.
Proof.
  intros Hw. unfold opener. destruct (op_open (i_fops (ops i))) as [m|] eqn:E; [|by rewrite wp_ret].
  destruct (mountpt i); [by apply mop_open_law|by eapply open_law].
Qed.

Lemma wp_opener i rp oflags fd f x y v T D L ext (Q : Z → vfs H W → Prop) :
  vfs_ok getpid v T D L ext → 0 ≤ fd → fl_files v !! Z.to_nat fd = Some f →
  (∀ r f' w, f_inode f' = f_inode f → opener i rp oflags f (devs v) = Ok ((r, f'), w) →
     vfs_ok getpid (upd_files (<[Z.to_nat fd := f']> (fl_files v)) (upd_devs w v)) T D L ext →
     Q r (upd_files (<[Z.to_nat fd := f']> (fl_files v)) (upd_devs w v))) →
  wp (match op_open (i_fops (i_ops (node_of i x y))) with
      | None => ret OK
      | Some m =>
          if INODE_IS_MOUNTPT (node_of i x y)
          then call fd (λ f, mop_open (i_mops (i_ops (node_of i x y))) f rp oflags 0x1b6)
          else call fd m
      end) Q v.
Proof.
  intros HO Hfd E HQ. pose proof (λ w, opener_law i rp oflags f w) as HL. change (INODE_IS_MOUNTPT _) with (mountpt i).
  unfold opener in *. cbn [i_ops node_of]. destruct (op_open (i_fops (ops i))) as [m|].
  - destruct (mountpt i); by eapply wp_call.
  - apply (wp_call_opt getpid None fd f v T D L ext Q); done.
Qed.

(** The part of [open] after the checks. *)
Lemma wp_open_entry a i x y rp oflags v1 N T D L ext (P : Z → vfs H W → Prop) :
  vfs_ok getpid v1 T D L (bump a ext) → (∀ ss, names T ss = N ss) → 0 < fl_sem v1 → (∀ b, 0 ≤ ext b) →
  a ≠ NULL → inodes (fs v1) !! a = Some (node_of i x y) →
  (∀ fd ro f1 w v', free_entry (fl_files v1) 0 = Some fd → vfs_at getpid v' N ext →
     opener i rp oflags (mkfile oflags 0 a NULL) (devs v1) = Ok ((ro, f1), w) →
     devs v' = w → fl_sem v' = fl_sem v1 → f_inode f1 = a →
     fl_files v' = <[fd := if ro <? 0 then mkfile 0 0 NULL (f_priv f1) else f1]> (fl_files v1) →
     errno v' = (if ro <? 0 then - ro else errno v1) →
     P (if ro <? 0 then ERROR else Z.of_nat fd) v') →
  (∀ v', free_entry (fl_files v1) 0 = None → vfs_at getpid v' N ext →
     fl_files v' = fl_files v1 → fl_sem v' = fl_sem v1 → devs v' = devs v1 → errno v' = EMFILE → P ERROR v') →
  wp (fd <-- files_allocate a oflags 0 0 ;;
      if fd <? 0 then on_fs (inode_release getpid a) ;;; fail_with EMFILE
      else
        filep <-- fs_getfilep fd ;;
        match filep with
        | None => ret ERROR
        | Some filep =>
            n <-- on_fs (get a) ;;
            r <-- match op_open (i_fops (i_ops n)) with
                  | None => ret OK
                  | Some m =>
                      if INODE_IS_MOUNTPT n
                      then call filep (λ f, mop_open (i_mops (i_ops n)) f rp oflags 0x1b6)
                      else call filep m
                  end ;;
            if r <? 0 then
              files_release fd ;;;
              on_fs (inode_release getpid a) ;;;
              fail_with (- r)
            else ret fd
        end) P v1.
Proof.
  intros HO HN Hs He Ha En Hok Hfull. rewrite wp_bind. change 0 with (Z.of_nat 0) at 2.
  apply wp_allocate; [done|apply HO|]. destruct (free_entry (fl_files v1) 0) as [fd|] eqn:Efd.
  2: { cbn [Z.ltb]. eapply wp_give_back; [exact HO|exact HN|eauto|done|]. intros v' HV' E1 E2 E3 E4.
       apply Hfull; try done. split; [by rewrite E2|done]. }
  destruct (free_entry_Some _ _ _ Efd) as (f0 & E0 & Hf0 & _ & Hfd). rewrite (vo_len _ _ _ _ _ _ HO) in Hfd.
  rewrite (proj2 (Z.ltb_ge _ _)) by lia. unfold fs_getfilep. rewrite is_fd_small by done. cbn [negb].
  set (f := mkfile oflags 0 a NULL) in *. set (v2 := upd_files _ _) in *.
  rewrite wp_bind, wp_ret, wp_bind, (wp_iget_fs a (node_of i x y)), wp_bind by done.
  assert (vfs_ok getpid v2 T D L ext) as HO2.
  { eapply set_file_ok; [exact HO|exact E0|simpl; eauto| |done].
    intros b Hb. unfold bump, one. rewrite Hf0, (proj2 (Z.eqb_neq NULL b)) by done. simpl. destruct (a =? b); lia. }
  assert (fl_files v2 !! Z.to_nat (Z.of_nat fd) = Some f) as E2.
  { rewrite Nat2Z.id. apply list_lookup_insert_eq. by eapply lookup_lt_Some. }
  eapply (wp_opener i rp oflags); [exact HO2|lia|exact E2|].
  intros r f1 w Ef Er HO3. rewrite Nat2Z.id in HO3 |- *. set (v3 := upd_files _ (upd_devs w v2)) in *. cbv beta.
  assert (fl_files v3 = <[fd := f1]> (fl_files v1)) as E3 by (simpl; by rewrite list_insert_insert_eq).
  assert (fl_files v3 !! fd = Some f1) as E3'.
  { rewrite E3. apply list_lookup_insert_eq. by eapply lookup_lt_Some. }
  specialize (Hok fd r f1 w). destruct (r <? 0).
  - unfold files_release. rewrite wp_bind. apply (proj2 (wp_when _ _ _ _)).
    rewrite (proj2 (Z.leb_le _ _)), (proj2 (Z.ltb_lt _ _)) by (unfold CONFIG_NFILE_DESCRIPTORS in *; lia). cbn [andb].
    rewrite wp_bind, wp_ftake, wp_bind, (wp_setf _ f1), wp_fgive by (rewrite ?Nat2Z.id; done || lia).
    rewrite Nat2Z.id. set (v4 := upd_fsem _ _). set (f2 := mkfile 0 0 NULL (f_priv f1)) in *.
    assert (vfs_ok getpid v4 T D L (bump a ext)) as HO4.
    { assert (vfs_ok getpid (upd_files (<[fd := f2]> (fl_files v3)) v3) T D L (bump a ext)) as HX.
      { eapply set_file_ok; [exact HO3|exact E3'|done| |].
        - intros b Hb. unfold bump. rewrite Ef. change (f_inode f2) with NULL.
          rewrite (proj2 (Z.eqb_neq NULL b)) by done. simpl. lia.
        - intros b. pose proof (He b). unfold bump, one. destruct (a =? b); lia. }
      destruct HX; by split. }
    eapply wp_give_back; [exact HO4|exact HN|simpl; eauto|done|]. intros v' HV' G1 G2 G3 G4.
    simpl in G1, G2, G3. apply Hok; try done.
    + split; [rewrite G2; lia|done].
    + rewrite G2. lia.
    + rewrite G1. rewrite !list_insert_insert_eq. done.
  - rewrite wp_ret. apply Hok; try done. split; [done|]. exists T, D, L. done.
Qed.

Lemma checkflags_value n oflags : (inode_checkflags n oflags <? 0) = true → inode_checkflags n oflags = - EACCES.
Proof. unfold inode_checkflags. by destruct (_ || _). Qed.

Lemma wp_open path oflags v N ext : vfs_at getpid v N ext → (∀ a, ext a ≤ 32000) →
  wp (open getpid path oflags) (λ r v', vfs_at getpid v' N ext ∧ open_result v N path oflags r v') v.
Proof.
  intros (Hs & T & D & L & HO & HN) He. unfold open, open_result. rewrite wp_bind, wp_on_fs.
  destruct (is_absolute path) eqn:Ea.
  2: { unfold inode_find. rewrite Ea. cbn [negb]. rewrite wp_ret. simpl. rewrite wp_fail_with.
       split; [|done]. split; [done|]. exists T, D, L. split; [destruct HO; by split|done]. }
  eapply wp_mono; [by eapply wp_find_ref|]. intros r x. rewrite <- HN. unfold names.
  destruct (find T (path_of path)) as [[[a i] rest]|] eqn:Ef; simpl.
  2: { intros [-> ->]. simpl. rewrite wp_fail_with. split; [|done]. split; [done|]. exists T, D, L.
       split; [destruct HO; by split|done]. }
  intros (rp & -> & Hrp & -> & HO1). cbn [fst snd].
  set (u := crefs i + 1) in *. set (v1 := upd_fs _ v) in *.
  destruct (find_addr _ _ _ _ _ _ _ _ (vo_fs _ _ _ _ _ _ HO) Ef) as (Hn & _ & y & z & En).
  rewrite (proj2 (Z.eqb_neq a NULL)) by done.
  assert (inodes (fs v1) !! a = Some (node_of (with_crefs u i) y z)) as En1 by (simpl; by rewrite lookup_alter_eq, En).
  assert (∀ ss, names (at_crefs a u T) ss = N ss) as HN1 by (intros ss; by rewrite names_at_crefs).
  assert (∀ b, 0 ≤ ext b) as Hext by apply HO.
  rewrite wp_bind, (wp_iget_fs a _ _ _ Hn En1). unfold open_inode.
  change (INODE_IS_DRIVER (node_of (with_crefs u i) y z)) with (INODE_IS_DRIVER (node_of (with_crefs 0 i) NULL NULL)).
  change (INODE_IS_MOUNTPT (node_of (with_crefs u i) y z)) with (INODE_IS_MOUNTPT (node_of (with_crefs 0 i) NULL NULL)).
  change (i_ops (node_of (with_crefs u i) y z) =? NULL) with (ops (with_crefs 0 i) =? NULL).
  destruct (_ || (ops (with_crefs 0 i) =? NULL)).
  { eapply wp_give_back; [exact HO1|exact HN1|eauto|done|]. intros v' HV' G1 G2 G3 G4. unfold refused.
    split; [split; [by rewrite G2|done]|done]. }
  cbv zeta. change (inode_checkflags (node_of (with_crefs u i) y z) oflags)
    with (inode_checkflags (node_of (with_crefs 0 i) NULL NULL) oflags).
  destruct (inode_checkflags _ oflags <? 0) eqn:Ec.
  { apply checkflags_value in Ec. rewrite Ec, Z.opp_involutive.
    eapply wp_give_back; [exact HO1|exact HN1|eauto|done|]. intros v' HV' G1 G2 G3 G4. unfold refused.
    split; [split; [by rewrite G2|done]|done]. }
  eapply (wp_open_entry a (with_crefs u i) y z (Some rp) oflags v1); [exact HO1|exact HN1|done|done|done|done| |].
  - intros fd ro f1 w v' Efd HV Er G1 G2 G3 G4 G5. split; [done|]. simpl in Efd. rewrite Efd.
    exists rp, ro, f1, w. split_and!; try done. by destruct (ro <? 0).
  - intros v' Efd HV G1 G2 G3 G4. split; [done|]. simpl in Efd. rewrite Efd. done.
Qed.

(** ** Closing *)

Definition is_open v (fd : Z) : Prop :=
  0 ≤ fd < CONFIG_NFILE_DESCRIPTORS ∧ ∃ f, fl_files v !! Z.to_nat fd = Some f ∧ f_inode f ≠ NULL.

Lemma wp_files_close fd f v N ext : vfs_at getpid v N ext → 0 ≤ fd < CONFIG_NFILE_DESCRIPTORS →
  fl_files v !! Z.to_nat fd = Some f → f_inode f ≠ NULL →
  wp (files_close getpid fd) (λ r v', vfs_at getpid v' N ext ∧ closed v fd f r v') v.
Proof.
  intros [Hs HV] Hfd E Hf. unfold files_close. rewrite (proj2 (Z.ltb_ge _ _)), (proj2 (Z.leb_gt _ _)) by lia. cbn [orb].
  rewrite wp_bind, (wp_getf fd f) by (done || lia). rewrite (proj2 (Z.eqb_neq _ _)) by done.
  rewrite wp_bind, wp_ftake, wp_bind by done.
  eapply wp_mono; [eapply (wp__files_close fd f); [by apply in_fsem|lia|done|done]|].
  intros r v' (HV' & n & f1 & w & En & Er & G1 & G2 & G3 & G4). simpl in *.
  rewrite wp_bind, wp_fgive, wp_ret. split; [split; [simpl; lia|by apply in_fsem]|].
  exists n, f1, w. split_and!; try done. simpl. lia.
Qed.

(** The outcome of [close] on a descriptor: the entry is free afterwards. *)
Definition close_result v fd r v' : Prop :=
  match fl_files v !! Z.to_nat fd with
  | None => refused v EBADF r v'
  | Some f =>
      if f_inode f =? NULL then refused v EBADF r v'
      else ∃ n f1 rc w, inodes (fs v) !! f_inode f = Some n ∧ closer n f (devs v) = Ok ((rc, f1), w) ∧
        fl_files v' = <[Z.to_nat fd := mkfile 0 0 NULL (f_priv f1)]> (fl_files v) ∧ devs v' = w ∧
        r = (if rc <? 0 then ERROR else OK) ∧ errno v' = (if rc <? 0 then - rc else errno v)
  end.

Lemma is_fd_range fd : 0 ≤ fd < CONFIG_NFILE_DESCRIPTORS → is_fd fd = true.
Proof. intros Hfd. rewrite <- (Z2Nat.id fd) by lia. apply is_fd_small. lia. Qed.

Lemma wp_close fd v N ext : vfs_at getpid v N ext → 0 ≤ fd < CONFIG_NFILE_DESCRIPTORS →
  wp (close getpid fd) (λ r v', vfs_at getpid v' N ext ∧ close_result v fd r v') v.
Proof.
  intros HV Hfd. pose proof HV as (Hs & T & D & L & HO & HN). destruct (entry _ _ _ _ _ _ fd HO Hfd) as [f E].
  unfold close, close_result. rewrite is_fd_range by done. cbn [negb]. rewrite wp_bind, E.
  destruct (Z.eqb_spec (f_inode f) NULL) as [Ef|Ef].
  - unfold files_close. rewrite (proj2 (Z.ltb_ge _ _)), (proj2 (Z.leb_gt _ _)) by lia. cbn [orb].
    rewrite wp_bind, (wp_getf fd f) by (done || lia). rewrite Ef, Z.eqb_refl, wp_ret. simpl. rewrite wp_fail_with.
    split; [|done]. split; [done|]. by apply in_errno; exists T, D, L.
  - eapply wp_mono; [by eapply wp_files_close|]. intros rc v' ([Hs' HV'] & n & f1 & w & En & Er & G1 & G2 & G3 & G4).
    destruct (rc <? 0) eqn:Erc.
    + rewrite wp_fail_with. split; [split; [done|by apply in_errno]|]. exists n, f1, rc, w. by rewrite Erc.
    + rewrite wp_ret. split; [done|]. exists n, f1, rc, w. by rewrite Erc.
Qed.

(** ** Transfers *)

(** The operation that a call on an entry reaches. *)
Definition reaches {A} (op : file_operations W → option A) (f : file) v : option A :=
  op_of op (if f_inode f =? NULL then None else inodes (fs v) !! f_inode f).

Lemma wp_inode_of f v T D L ext (Q : option inode → vfs H W → Prop) : vfs_ok getpid v T D L ext → f ∈ fl_files v →
  Q (if f_inode f =? NULL then None else inodes (fs v) !! f_inode f) v → wp (inode_of f) Q v.
Proof.
  intros HO Hf HQ. unfold inode_of. destruct (Z.eqb_spec (f_inode f) NULL) as [Ef|Ef]; [by rewrite wp_ret|].
  destruct (vo_open _ _ _ _ _ _ HO f Hf Ef) as [n En]. rewrite En in HQ.
  rewrite wp_bind, (wp_iget_fs _ n), wp_ret by done. done.
Qed.

Lemma reaches_law {A} (op : file_operations W → option A) f v m : reaches op f v = Some m → ∃ p, op (i_fops p) = Some m.
Proof.
  unfold reaches, op_of, operation. destruct (if f_inode f =? NULL then _ else _) as [n|]; [|done].
  destruct (i_ops n =? NULL); [done|eauto].
Qed.

(** A call ends with the result of the operation, or with its error. *)
Definition transferred v fd (f1 : file) (w : W) (rw r : Z) v' : Prop :=
  fl_files v' = <[Z.to_nat fd := f1]> (fl_files v) ∧ devs v' = w ∧ fs v' = fs v ∧ fl_sem v' = fl_sem v ∧
  r = (if rw <? 0 then ERROR else rw) ∧ errno v' = (if rw <? 0 then - rw else errno v).

Definition write_result v fd buf n r v' : Prop :=
  ∀ f, fl_files v !! Z.to_nat fd = Some f →
  match (if Z.land (f_oflags f) O_WROK =? 0 then None else reaches op_write f v) with
  | None => v' = upd_errno EBADF v ∧ r = ERROR
  | Some m => ∃ rw f1 w, m f buf n (devs v) = Ok ((rw, f1), w) ∧ transferred v fd f1 w rw r v'
  end.

Lemma wp_write fd buf n v N ext : vfs_at getpid v N ext → 0 ≤ fd < CONFIG_NFILE_DESCRIPTORS → valid_buf buf n →
  wp (write fd buf n) (λ r v', vfs_at getpid v' N ext ∧ write_result v fd buf n r v') v.
Proof.
  intros HV Hfd Hb. pose proof HV as (Hs & T & D & L & HO & HN). destruct (entry _ _ _ _ _ _ fd HO Hfd) as [f E].
  unfold write, fs_getfilep, write_result. rewrite is_fd_range by done. cbn [negb].
  rewrite wp_bind, wp_ret. unfold file_write. rewrite wp_bind, (wp_getf fd f) by (done || lia).
  destruct (Z.land (f_oflags f) O_WROK =? 0) eqn:Eo.
  { rewrite wp_fail_with. split; [split; [done|by apply in_errno; exists T, D, L]|]. intros f' E'. simplify_eq. by rewrite Eo. }
  rewrite wp_bind. eapply wp_inode_of; [exact HO|by eapply list_elem_of_lookup_2|]. cbv beta.
  fold (reaches op_write f v). destruct (reaches op_write f v) as [m|] eqn:Em.
  - rewrite wp_bind. destruct (reaches_law _ _ _ _ Em) as [p Ep].
    eapply wp_call; [exact HO|lia|exact E|intros w Hw; by eapply write_law|]. intros rw f1 w Ef Er HO1.
    destruct (rw <? 0) eqn:Erw; [rewrite wp_fail_with|rewrite wp_ret];
      (split; [split; [done|]|]; [try apply in_errno; by exists T, D, L|]);
      intros f' E'; simplify_eq; rewrite Eo, Em; exists rw, f1, w; split; [done| |done|]; unfold transferred; by rewrite Erw.
  - rewrite wp_fail_with. split; [split; [done|by apply in_errno; exists T, D, L]|].
    intros f' E'. simplify_eq. by rewrite Eo, Em.
Qed.

Definition read_result v fd buf n (x : Z * buffer) v' : Prop :=
  ∀ f, fl_files v !! Z.to_nat fd = Some f →
  if Z.land (f_oflags f) O_RDOK =? 0 then v' = upd_errno EACCES v ∧ x = (ERROR, buf)
  else match reaches op_read f v with
  | None => v' = upd_errno EBADF v ∧ x = (ERROR, buf)
  | Some m => ∃ rr f1 w, m f buf n (devs v) = Ok ((rr, x.2, f1), w) ∧ transferred v fd f1 w rr x.1 v'
  end.

Lemma wp_read fd buf n v N ext : vfs_at getpid v N ext → 0 ≤ fd < CONFIG_NFILE_DESCRIPTORS → valid_buf buf n →
  wp (read fd buf n) (λ x v', vfs_at getpid v' N ext ∧ read_result v fd buf n x v') v.
Proof.
  intros HV Hfd Hb. pose proof HV as (Hs & T & D & L & HO & HN). destruct (entry _ _ _ _ _ _ fd HO Hfd) as [f E].
  unfold read, fs_getfilep, read_result. rewrite is_fd_range by done. cbn [negb].
  rewrite wp_bind, wp_ret. unfold file_read. rewrite wp_bind, (wp_getf fd f) by (done || lia). rewrite wp_bind.
  destruct (Z.land (f_oflags f) O_RDOK =? 0) eqn:Eo.
  { rewrite wp_ret. simpl. rewrite wp_bind, wp_fail_with, wp_ret.
    split; [split; [done|by apply in_errno; exists T, D, L]|]. intros f' E'. simplify_eq. by rewrite Eo. }
  rewrite wp_bind. eapply wp_inode_of; [exact HO|by eapply list_elem_of_lookup_2|]. cbv beta.
  fold (reaches op_read f v). destruct (reaches op_read f v) as [m|] eqn:Em.
  2: { rewrite wp_ret. simpl. rewrite wp_bind, wp_fail_with, wp_ret.
       split; [split; [done|by apply in_errno; exists T, D, L]|]. intros f' E'. simplify_eq. by rewrite Eo, Em. }
  destruct (reaches_law _ _ _ _ Em) as [p Ep]. rewrite wp_bind, wp_on_devs.
  destruct (wp_run _ _ _ (read_law p m f buf n (devs v) Ep Hb (vo_dev _ _ _ _ _ _ HO))) as ([[rr b] f1] & w & Er & Hw & Ef).
  simpl in Ef. eapply wp_ok; [exact Er|]. rewrite wp_bind, (wp_setf fd f), wp_ret by (done || lia). cbn [fst snd].
  assert (vfs_in getpid (upd_files (<[Z.to_nat fd := f1]> (fl_files v)) (upd_devs w v)) N ext) as HV1.
  { exists T, D, L. split; [|done]. apply (same_file_ok _ (upd_devs w v) T D L ext _ f); [|done|done]. destruct HO; by split. }
  destruct (rr <? 0) eqn:Err; [rewrite wp_bind, wp_fail_with, wp_ret|rewrite wp_ret];
    (split; [split; [done|try apply in_errno; done]|]);
    intros f' E'; simplify_eq; rewrite Eo, Em; exists rr, f1, w; split; [done| |done|]; unfold transferred; by rewrite Err.
Qed.

(** ** The position *)

Definition seek_target (f : file) (offset whence : Z) : option Z :=
  if whence =? SEEK_CUR then Some (offset + f_pos f) else if whence =? SEEK_SET then Some offset else None.

(** The calls that change an entry and nothing else. *)
Definition seek_result v fd offset whence r v' : Prop :=
  ∀ f, fl_files v !! Z.to_nat fd = Some f →
  match reaches op_seek f v with
  | Some m => ∃ rs f1 w, m f offset whence (devs v) = Ok ((rs, f1), w) ∧
      transferred v fd f1 w (if rs <? 0 then rs else f_pos f1) r v'
  | None =>
      match seek_target f offset whence with
      | Some p => if 0 <=? p then r = p ∧ v' = upd_files (<[Z.to_nat fd := set_f_pos p f]> (fl_files v)) v
                  else r = ERROR ∧ v' = upd_errno EINVAL v
      | None => r = ERROR ∧ v' = upd_errno (if whence =? SEEK_END then ENOSYS else EINVAL) v
      end
  end.

Lemma wp_lseek fd offset whence v N ext : vfs_at getpid v N ext → 0 ≤ fd < CONFIG_NFILE_DESCRIPTORS →
  (∀ f, fl_files v !! Z.to_nat fd = Some f → whence = SEEK_CUR → - 2 ^ 31 ≤ offset + f_pos f < 2 ^ 31) →
  wp (lseek fd offset whence) (λ r v', vfs_at getpid v' N ext ∧
    ((∀ f, fl_files v !! Z.to_nat fd = Some f → reaches op_seek f v = None) → seek_result v fd offset whence r v')) v.
Proof.
  intros HV Hfd Hov. pose proof HV as (Hs & T & D & L & HO & HN). destruct (entry _ _ _ _ _ _ fd HO Hfd) as [f E].
  specialize (Hov f E). unfold lseek, fs_getfilep. rewrite is_fd_range by done. cbn [negb].
  rewrite wp_bind, wp_ret. unfold file_seek. rewrite wp_bind, (wp_getf fd f), wp_bind by (done || lia).
  eapply wp_inode_of; [exact HO|by eapply list_elem_of_lookup_2|]. cbv beta. fold (reaches op_seek f v).
  assert (∀ e, vfs_at getpid (upd_errno e v) N ext) as HVe by (intros e; split; [done|by apply in_errno; exists T, D, L]).
  destruct (reaches op_seek f v) as [m|] eqn:Em.
  - rewrite wp_bind. destruct (reaches_law _ _ _ _ Em) as [p Ep].
    eapply wp_call; [exact HO|lia|exact E|intros w Hw; by eapply seek_law|]. intros rw f1 w Ef Er HO1. cbv beta.
    assert (∀ P, (∀ f, fl_files v !! Z.to_nat fd = Some f → reaches op_seek f v = None) → P) as Hno.
    { intros P HP. specialize (HP f E). congruence. }
    destruct (rw <? 0).
    + rewrite wp_fail_with. split; [split; [done|by apply in_errno; exists T, D, L]|apply Hno].
    + rewrite wp_bind, (wp_getf fd f1), wp_ret; [split; [split; [done|by exists T, D, L]|apply Hno]|lia|].
      apply list_lookup_insert_eq. by eapply lookup_lt_Some.
  - assert (∀ p, seek_target f offset whence = Some p → wp (if 0 <=? p then
        setf fd (set_f_pos p) ;;; f <-- getf fd ;; ret (f_pos f) else fail_with EINVAL)
      (λ r v', vfs_at getpid v' N ext ∧
        ((∀ f, fl_files v !! Z.to_nat fd = Some f → reaches op_seek f v = None) → seek_result v fd offset whence r v')) v) as Hset.
    { intros p Ep. destruct (0 <=? p) eqn:E0.
      - rewrite wp_bind, (wp_setf fd f), wp_bind by (done || lia).
        erewrite (wp_getf fd), wp_ret; [|lia|apply list_lookup_insert_eq; by eapply lookup_lt_Some].
        split; [split; [done|exists T, D, L; split; [by eapply same_file_ok|done]]|].
        intros _ f' E'. simplify_eq. rewrite Em, Ep, E0. done.
      - rewrite wp_fail_with. split; [done|]. intros _ f' E'. simplify_eq. by rewrite Em, Ep, E0. }
    unfold seek_target in Hset. destruct (Z.eqb_spec whence SEEK_CUR) as [Ew|Ew]; cbn [orb].
    + rewrite wp_bind, wp_add by auto. by apply Hset.
    + destruct (Z.eqb_spec whence SEEK_SET) as [Ew'|Ew'].
      * rewrite wp_bind, wp_ret. by apply Hset.
      * destruct (whence =? SEEK_END) eqn:E2; rewrite wp_fail_with; (split; [done|]); intros _ f' E'; simplify_eq;
          rewrite Em; unfold seek_target; rewrite (proj2 (Z.eqb_neq whence _) Ew), (proj2 (Z.eqb_neq whence _) Ew'), E2; done.
Qed.

Definition ioctl_result v fd req arg r v' : Prop :=
  ∀ f, fl_files v !! Z.to_nat fd = Some f →
  match reaches op_ioctl f v with
  | None => r = OK ∧ v' = v
  | Some m => ∃ rw f1 w, m f req arg (devs v) = Ok ((rw, f1), w) ∧ transferred v fd f1 w rw r v'
  end.

Lemma wp_ioctl fd req arg v N ext : vfs_at getpid v N ext → 0 ≤ fd < CONFIG_NFILE_DESCRIPTORS →
  wp (ioctl fd req arg) (λ r v', vfs_at getpid v' N ext ∧ ioctl_result v fd req arg r v') v.
Proof.
  intros HV Hfd. pose proof HV as (Hs & T & D & L & HO & HN). destruct (entry _ _ _ _ _ _ fd HO Hfd) as [f E].
  unfold ioctl, fs_getfilep, ioctl_result. rewrite is_fd_range by done. cbn [negb].
  rewrite wp_bind, wp_ret, wp_bind, (wp_getf fd f), wp_bind by (done || lia).
  eapply wp_inode_of; [exact HO|by eapply list_elem_of_lookup_2|]. cbv beta. fold (reaches op_ioctl f v).
  destruct (reaches op_ioctl f v) as [m|] eqn:Em.
  - rewrite wp_bind. destruct (reaches_law _ _ _ _ Em) as [p Ep].
    eapply wp_call; [exact HO|lia|exact E|intros w Hw; by eapply ioctl_law|]. intros rw f1 w Ef Er HO1.
    destruct (rw <? 0) eqn:Erw; [rewrite wp_fail_with|rewrite wp_ret];
      (split; [split; [done|]|]; [try apply in_errno; by exists T, D, L|]);
      intros f' E'; simplify_eq; rewrite Em; exists rw, f1, w; split; [done| |done|]; unfold transferred; by rewrite Erw.
  - rewrite wp_ret. split; [done|]. intros f' E'. simplify_eq. by rewrite Em.
Qed.

(** ** Duplicates *)

Definition dup_result v fd minfd r v' : Prop :=
  ∀ f, fl_files v !! Z.to_nat fd = Some f →
  if f_inode f =? NULL then refused v EBADF r v'
  else match free_entry (fl_files v) minfd with
  | None => refused v EMFILE r v'
  | Some k => r = Z.of_nat k ∧ errno v' = errno v ∧ devs v' = devs v ∧ fl_sem v' = fl_sem v ∧
      fl_files v' = <[k := mkfile (f_oflags f) (f_pos f) (f_inode f) NULL]> (fl_files v)
  end.

Lemma wp_dupfd fd minfd v N ext : vfs_at getpid v N ext → 0 ≤ fd < CONFIG_NFILE_DESCRIPTORS → (∀ a, ext a ≤ 32000) →
  wp (fs_dupfd getpid fd (Z.of_nat minfd)) (λ r v', vfs_at getpid v' N ext ∧ dup_result v fd minfd r v') v.
Proof.
  intros HV Hfd He. pose proof HV as (Hs & T & D & L & HO & HN). destruct (entry _ _ _ _ _ _ fd HO Hfd) as [f E].
  unfold fs_dupfd, fs_getfilep. rewrite is_fd_range by done. cbn [negb]. rewrite wp_bind, wp_ret.
  unfold file_dup. rewrite wp_bind, (wp_getf fd f) by (done || lia).
  assert (f ∈ fl_files v) as Hf by (by eapply list_elem_of_lookup_2). unfold dup_result.
  destruct (Z.eqb_spec (f_inode f) NULL) as [Ef|Ef].
  { rewrite wp_fail_with. split; [split; [done|by apply in_errno; exists T, D, L]|]. intros f' E'. simplify_eq.
    by rewrite Ef. }
  set (a := f_inode f) in *. pose proof (vo_open _ _ _ _ _ _ HO f Hf Ef) as Ha. fold a in Ha.
  assert (∀ b, 0 ≤ ext b) as Hext by apply HO.
  rewrite wp_bind, wp_on_fs. eapply wp_addref_ref; [done|exact HO|exact Ha|by eapply refs_pos|done|].
  intros u HO1. set (v1 := upd_fs _ v) in *. rewrite wp_bind.
  assert (∀ ss, names (at_crefs a u T) ss = N ss) as HN1 by (intros ss; by rewrite names_at_crefs).
  assert (is_Some (inodes (fs v1) !! a)) as Ha1 by (destruct Ha as [n En]; simpl; rewrite lookup_alter_eq, En; eauto).
  apply wp_allocate; [done|apply HO1|]. change (fl_files v1) with (fl_files v).
  destruct (free_entry (fl_files v) minfd) as [k|] eqn:Ek.
  - rewrite (proj2 (Z.ltb_ge _ _)), wp_ret by lia. destruct (free_entry_Some _ _ _ Ek) as (f0 & E0 & Hf0 & _).
    split; [split; [done|]|].
    + eexists _, _, _. split; [|exact HN1]. eapply (set_file_ok getpid v1 _ _ _ (bump a ext) ext k f0); [exact HO1|exact E0|simpl; eauto| |done].
      intros b Hb. unfold bump, one. rewrite Hf0, (proj2 (Z.eqb_neq NULL b)) by done. simpl. fold a. destruct (a =? b); lia.
    + intros f' E'. simplify_eq. by rewrite (proj2 (Z.eqb_neq _ _)).
  - cbn [Z.ltb]. change (ERROR <? 0) with true. cbv iota. rewrite wp_bind. unfold set_errno. rewrite wp_modify, wp_bind, wp_on_fs.
    eapply (wp_release_at getpid _ a (upd_errno EMFILE v1)); [destruct HO1; by split|exact HN1|done|done|].
    intros x HX. rewrite wp_ret. split; [split; [done|exact HX]|]. intros f' E'. simplify_eq. by rewrite (proj2 (Z.eqb_neq _ _)).
    Unshelve. done.
Qed.

(** Open or not, the entry is free after [_files_close]. *)
Lemma wp_clear i f v N ext : vfs_in getpid v N ext → 0 ≤ i → fl_files v !! Z.to_nat i = Some f →
  wp (_files_close getpid i) (λ r v', vfs_in getpid v' N ext ∧ fl_sem v' = fl_sem v ∧
    ∃ g, f_inode g = NULL ∧ fl_files v' = <[Z.to_nat i := g]> (fl_files v)) v.
Proof.
  intros HV Hi E. destruct (decide (f_inode f = NULL)) as [Ef|Ef].
  - unfold _files_close. rewrite wp_bind, (wp_getf i f) by done. rewrite Ef, Z.eqb_refl. cbn [negb]. rewrite wp_ret.
    split_and!; [done|done|]. exists f. by rewrite list_insert_id.
  - eapply wp_mono; [by eapply wp__files_close|].
    intros r v' (HV' & n & f1 & w & _ & _ & G1 & _ & G3 & _). split_and!; [done|done|]. eexists; split; [|exact G1]; done.
Qed.

(** The outcome of [dup2] on two different descriptors. *)
Definition dup2_result v (k1 k2 : nat) r v' : Prop :=
  (∀ f1, fl_files v !! k1 = Some f1 → f_inode f1 = NULL → r = ERROR ∧ v' = upd_errno EBADF v) ∧
  (∀ f1, fl_files v !! k1 = Some f1 → f_inode f1 ≠ NULL →
    (∃ g1, fl_files v' !! k1 = Some g1 ∧ f_inode g1 = f_inode f1) ∧
    (∃ g2, fl_files v' !! k2 = Some g2 ∧
       (r = OK ∧ f_inode g2 = f_inode f1 ∨ r = ERROR ∧ f_inode g2 = NULL)) ∧
    ∀ j, j ≠ k1 → j ≠ k2 → fl_files v' !! j = fl_files v !! j).

(** The open operation of [dup2]; a mountpoint has its own. *)
Lemma wp_reopen n i1 i2 f1 f2 r0 v T D L ext (Q : Z → vfs H W → Prop) :
  vfs_ok getpid v T D L ext → 0 ≤ i1 → 0 ≤ i2 → i1 ≠ i2 →
  fl_files v !! Z.to_nat i1 = Some f1 → fl_files v !! Z.to_nat i2 = Some f2 →
  (∀ r g1 g2 w, f_inode g1 = f_inode f1 → f_inode g2 = f_inode f2 →
     let v' := upd_files (<[Z.to_nat i2 := g2]> (<[Z.to_nat i1 := g1]> (fl_files v))) (upd_devs w v) in
     vfs_ok getpid v' T D L ext → Q r v') →
  wp (match operation op_open n with
      | None => ret r0
      | Some m =>
          if INODE_IS_MOUNTPT n then
            f1 <-- getf i1 ;;
            f2 <-- getf i2 ;;
            x <-- on_devs (mop_dup (i_mops (i_ops n)) f1 f2) ;;
            setf i1 (λ _, fst (snd x)) ;;;
            setf i2 (λ _, snd (snd x)) ;;;
            ret (fst x)
          else call i2 m
      end) Q v.
Proof.
  intros HO Hi1 Hi2 Hne E1 E2 HQ. assert (Z.to_nat i1 ≠ Z.to_nat i2) as Hne' by lia.
  destruct (operation op_open n) as [m|] eqn:Eo; [destruct (INODE_IS_MOUNTPT n)|].
  - rewrite wp_bind, (wp_getf i1 f1), wp_bind, (wp_getf i2 f2), wp_bind, wp_on_devs by done.
    destruct (wp_run _ _ _ (mop_dup_law (i_ops n) f1 f2 (devs v) (vo_dev _ _ _ _ _ _ HO)))
      as ([r [g1 g2]] & w & Em & Hw & G1 & G2). simpl in G1, G2. eapply wp_ok; [exact Em|].
    rewrite wp_bind, (wp_setf i1 f1) by done.
    assert (<[Z.to_nat i1 := g1]> (fl_files v) !! Z.to_nat i2 = Some f2) as E2' by (by rewrite list_lookup_insert_ne).
    rewrite wp_bind, (wp_setf i2 f2) by done. rewrite wp_ret. cbn [fst snd]. apply HQ; [done|done|].
    apply (same_file_ok _ (upd_files (<[Z.to_nat i1 := g1]> (fl_files v)) (upd_devs w v)) _ _ _ _ _ f2); [|done|done].
    apply (same_file_ok _ (upd_devs w v) _ _ _ _ _ f1); [|done|done]. destruct HO; by split.
  - assert (∃ p, op_open (i_fops p) = Some m) as [p Ep] by (unfold operation in Eo; destruct (i_ops n =? NULL); [done|eauto]).
    eapply wp_call; [exact HO|done|exact E2|intros w Hw; by eapply open_law|]. intros r f' w Ef Er HO'.
    assert (<[Z.to_nat i1 := f1]> (fl_files v) = fl_files v) as Ei by (by apply list_insert_id).
    specialize (HQ r f1 f' w eq_refl Ef). rewrite Ei in HQ. by apply HQ.
  - rewrite wp_ret. assert (<[Z.to_nat i1 := f1]> (fl_files v) = fl_files v) as Ei by (by apply list_insert_id).
    specialize (HQ r0 f1 f2 (devs v) eq_refl eq_refl). rewrite Ei, (list_insert_id (fl_files v) _ f2 E2) in HQ.
    assert (upd_files (fl_files v) (upd_devs (devs v) v) = v) as Ev by (by destruct v). rewrite Ev in HQ. by apply HQ.
Qed.

Lemma wp_file_dup2 i1 i2 f1 f2 v N ext : vfs_at getpid v N ext → 0 ≤ i1 → 0 ≤ i2 → i1 ≠ i2 → (∀ a, ext a ≤ 32000) →
  fl_files v !! Z.to_nat i1 = Some f1 → fl_files v !! Z.to_nat i2 = Some f2 → f_inode f1 ≠ NULL →
  wp (file_dup2 getpid i1 i2) (λ r v', vfs_at getpid v' N ext ∧ dup2_result v (Z.to_nat i1) (Z.to_nat i2) r v') v.
Proof.
  intros [Hs HV] Hi1 Hi2 Hne He E1 E2 Hf. assert (Z.to_nat i1 ≠ Z.to_nat i2) as Hne' by lia.
  unfold file_dup2. rewrite wp_bind, (wp_getf i1 f1) by done. rewrite (proj2 (Z.eqb_neq _ _)) by done.
  rewrite wp_bind, wp_ftake, wp_bind by done.
  eapply wp_mono; [eapply (wp_clear i2 f2); [by apply in_fsem|done|done]|]. intros r v1 (HV1 & Es1 & g & Hg & G1). simpl in Es1, G1.
  assert (fl_files v1 !! Z.to_nat i1 = Some f1) as E1' by (rewrite G1; by rewrite list_lookup_insert_ne).
  assert (fl_files v1 !! Z.to_nat i2 = Some g) as E2' by (rewrite G1; apply list_lookup_insert_eq; by eapply lookup_lt_Some).
  destruct (r <? 0).
  { rewrite wp_bind, wp_fgive, wp_fail_with. split; [split; [simpl; lia|by apply in_errno, in_fsem]|].
    split; [intros f' E' Hf'; simplify_eq|]. intros f' E' Hf'. simplify_eq. simpl. split_and!; [eauto| |].
    - exists g. split; [done|]. by right.
    - intros j J1 J2. rewrite G1. by rewrite list_lookup_insert_ne. }
  rewrite wp_bind, (wp_getf i1 f1), wp_bind, wp_on_fs by done. destruct HV1 as (T & D & L & HO1 & HN1).
  set (a := f_inode f1) in *. assert (f1 ∈ fl_files v1) as Hin by (by eapply list_elem_of_lookup_2).
  pose proof (vo_open _ _ _ _ _ _ HO1 f1 Hin Hf) as Ha. fold a in Ha. assert (∀ b, 0 ≤ ext b) as Hext by apply HO1.
  eapply wp_addref_ref; [done|exact HO1|exact Ha|by eapply refs_pos|done|]. intros u HO2.
  set (v2 := upd_fs _ v1) in *. rewrite wp_bind, (wp_getf i1 f1), wp_bind, (wp_setf i2 g) by done.
  set (h := mkfile (f_oflags f1) (f_pos f1) a (f_priv g)). set (v3 := upd_files _ v2).
  assert (∀ ss, names (at_crefs a u T) ss = N ss) as HN2 by (intros ss; by rewrite names_at_crefs).
  assert (is_Some (inodes (fs v3) !! a)) as [n En] by (destruct Ha as [n En]; simpl; rewrite lookup_alter_eq, En; eauto).
  assert (vfs_ok getpid v3 (at_crefs a u T) (at_crefs a u <$> D) L ext) as HO3.
  { eapply set_file_ok; [exact HO2|exact E2'|simpl; eauto| |done].
    intros b Hb. unfold bump. rewrite Hg, (proj2 (Z.eqb_neq NULL b)) by done. change (f_inode h) with a. simpl. lia. }
  assert (fl_files v3 = <[Z.to_nat i2 := h]> (fl_files v)) as G3 by (simpl; rewrite G1; by rewrite list_insert_insert_eq).
  rewrite wp_bind, (wp_iget_fs a n), wp_bind by done.
  eapply (wp_reopen n i1 i2 f1 h); [exact HO3|done|done|done| | |].
  { rewrite G3. by rewrite list_lookup_insert_ne. }
  { rewrite G3. apply list_lookup_insert_eq. by eapply lookup_lt_Some. }
  intros r' g1 g2 w F1 F2 v4 HO4. change (f_inode h) with a in F2.
  assert (fl_files v4 = <[Z.to_nat i2 := g2]> (<[Z.to_nat i1 := g1]> (fl_files v))) as G4.
  { subst v4. simpl. rewrite G1. rewrite list_insert_insert_eq.
    rewrite (list_insert_insert_ne _ _ _ g1 h) by done. by rewrite list_insert_insert_eq. }
  assert (Z.to_nat i2 < length (fl_files v))%nat as Hl2 by (by eapply lookup_lt_Some).
  assert (Z.to_nat i1 < length (fl_files v))%nat as Hl1 by (by eapply lookup_lt_Some).
  assert (fl_files v4 !! Z.to_nat i2 = Some g2) as E4.
  { rewrite G4. apply list_lookup_insert_eq. by rewrite length_insert. }
  destruct (r' <? 0).
  - rewrite wp_bind, (wp_getf i2 g2) by done. rewrite wp_bind, wp_on_fs, F2.
    set (g3 := mkfile 0 0 NULL (f_priv g2)).
    assert (vfs_ok getpid (upd_files (<[Z.to_nat i2 := g3]> (fl_files v4)) v4) (at_crefs a u T) (at_crefs a u <$> D) L
      (bump a ext)) as HO5.
    { eapply set_file_ok; [exact HO4|exact E4|done| |].
      - intros b Hb. unfold bump. rewrite F2. change (f_inode g3) with NULL.
        rewrite (proj2 (Z.eqb_neq NULL b)) by done. simpl. lia.
      - intros b. specialize (Hext b). unfold bump, one. destruct (a =? b); lia. }
    change (fs v4) with (fs (upd_files (<[Z.to_nat i2 := g3]> (fl_files v4)) v4)).
    eapply wp_release_at; [done|exact HO5|exact HN2|simpl; eauto|done|]. intros x HX.
    rewrite wp_bind, (wp_setf i2 g2), wp_bind, wp_fgive, wp_fail_with by done.
    split; [split; [simpl; lia|by apply in_errno, in_fsem]|].
    split; [intros f' E' Hf'; simplify_eq|]. intros f' E' Hf'. simplify_eq. cbn [fl_files upd_errno upd_fsem upd_files upd_fs].
    rewrite G4, list_insert_insert_eq. split_and!.
    + exists g1. split; [|done]. rewrite list_lookup_insert_ne by done. by apply list_lookup_insert_eq.
    + exists g3. split; [apply list_lookup_insert_eq; by rewrite length_insert|]. by right.
    + intros j J1 J2. by rewrite !list_lookup_insert_ne.
  - rewrite wp_bind, wp_fgive, wp_ret. split; [split; [simpl; lia|by apply in_fsem; eexists _, _, _]|].
    split; [intros f' E' Hf'; simplify_eq|]. intros f' E' Hf'. simplify_eq. cbn [fl_files upd_fsem].
    rewrite G4. split_and!.
    + exists g1. split; [|done]. rewrite list_lookup_insert_ne by done. by apply list_lookup_insert_eq.
    + exists g2. split; [apply list_lookup_insert_eq; by rewrite length_insert|]. by left.
    + intros j J1 J2. by rewrite !list_lookup_insert_ne.
Qed.

Lemma wp_dup2 fd1 fd2 v N ext : vfs_at getpid v N ext → (∀ a, ext a ≤ 32000) →
  0 ≤ fd1 < CONFIG_NFILE_DESCRIPTORS → 0 ≤ fd2 < CONFIG_NFILE_DESCRIPTORS →
  wp (dup2 getpid fd1 fd2) (λ r v', vfs_at getpid v' N ext ∧
    if fd1 =? fd2 then is_open v fd1 → r = fd1 ∧ v' = v
    else dup2_result v (Z.to_nat fd1) (Z.to_nat fd2) r v') v.
Proof.
  intros HV He H1 H2. pose proof HV as (Hs & T & D & L & HO & HN).
  destruct (entry _ _ _ _ _ _ fd1 HO H1) as [f1 E1]. destruct (entry _ _ _ _ _ _ fd2 HO H2) as [f2 E2].
  unfold dup2, fs_dupfd2, fs_getfilep. rewrite !is_fd_range by done. cbn [negb].
  rewrite !wp_bind, wp_ret, wp_bind, wp_ret, wp_bind, (wp_getf fd1 f1) by (done || lia).
  destruct (Z.eqb_spec (f_inode f1) NULL) as [Ef|Ef].
  - rewrite wp_fail_with. split; [split; [done|by apply in_errno; exists T, D, L]|].
    destruct (fd1 =? fd2); [intros (_ & f & E & Hf); simplify_eq|]. split; intros f' E' Hf'; simplify_eq. done.
  - destruct (Z.eqb_spec fd1 fd2) as [|Hne]; [rewrite wp_ret; done|].
    eapply wp_mono; [eapply (wp_file_dup2 fd1 fd2 f1 f2); try done; lia|]. done.
Qed.

End Specs.
End FilesOps.
