(* ===== verification/FilesTree.v ===== *)
(** * The tree under open descriptors

    Drivers are registered and removed while descriptors are open: the table
    stays in order, and what paths name changes as the calls say. *)

From S2P Require Import Prelude Queue Inode InodeTree InodeSpec InodeOps Files FilesSpec FilesOps.

Module FilesTree.
Export FilesOps.
#[local] Open Scope cmd_scope.

Section Specs.
Context {H W : Type} {kmmI : Kmm H} {kmmL : KmmLaws H} {drvI : Drivers W} {drvL : DriverLaws W} {netI : Sockets W}.
Context (getpid : Z).
Hypothesis pid_ok : getpid ≠ NO_HOLDER.
Implicit Types (v : vfs H W) (T : forest) (D : list forest) (L : gset Z) (ext : Z → Z) (N : naming).

(** ** Registering *)

(** The other names are what they were, but for new directories on the way. *)
Definition grown_names N N' (ss : list name) : Prop := ∀ ss', ss' ≠ ss →
  match N ss' with
  | Some x => N' ss' = Some x
  | None => ∀ x, N' ss' = Some x →
      ss' `prefix_of` ss ∧ ∃ k, x = (k, fresh (default [] (last ss')), [])
  end.

(** What paths name after [register_driver]: the path names the driver, and
    the directories on the way to it exist. *)
Definition register_names N N' (ss : list name) (fops pv r : Z) : Prop :=
  match N ss with
  | Some _ => r = - EEXIST ∧ ∀ ss', N' ss' = N ss'
  | None =>
      (r = OK ∧ (∃ p, N' ss = Some (p, mkinfo 0 0 fops pv (default [] (last ss)), []))
       ∨ r = - ENOMEM ∧ N' ss = None) ∧ grown_names N N' ss
  end.

Lemma no_refs v T D L ext a : vfs_ok getpid v T D L ext → a ≠ NULL → inodes (fs v) !! a = None →
  refs a (fl_files v) = 0 ∧ ext a = 0.
Proof.
  intros HO Ha En. split.
  - assert (∀ f, f ∈ fl_files v → f_inode f ≠ a) as Hf.
    { intros f Hf <-. destruct (vo_open _ _ _ _ _ _ HO f Hf Ha) as [n E]. congruence. }
    revert Hf. induction (fl_files v) as [|g l IH]; intros Hf; simpl; [done|]. rewrite IH by set_solver.
    unfold one. rewrite (proj2 (Z.eqb_neq _ _)) by (apply Hf; set_solver). done.
  - destruct (decide (ext a = 0)) as [|N]; [done|]. destruct (vo_held _ _ _ _ _ _ HO a Ha N) as [n E]. congruence.
Qed.

Lemma keeps_ok v T D L ext x T' L' : vfs_ok getpid v T D L ext → keeps_refs (fs v) x → fs_ok x T' D L' →
  g_inode_sem x = g_inode_sem (fs v) → vfs_ok getpid (upd_fs x v) T' D L' ext.
Proof.
  intros HO [K1 K2] HF El. pose proof HO as [H1 H2 H4 H5 H6 H7 H8 H10 H9]. split; simpl; try done.
  - by rewrite El.
  - intros a n En. destruct (inodes (fs v) !! a) as [n0|] eqn:E0.
    + destruct (K1 _ _ E0) as (n' & E' & Ec). rewrite En in E'. injection E' as <-. rewrite Ec. by apply H5.
    + destruct (no_refs _ _ _ _ _ a HO) as [-> ->]; [exact (ok_not_null _ _ _ _ _ _ HF En)|done|]. by apply (K2 a).
  - intros f Hf Hn. destruct (H6 f Hf Hn) as [n E]. destruct (K1 _ _ E) as (n' & E' & _). eauto.
  - intros a Ha Hx. destruct (H10 a Ha Hx) as [n E]. destruct (K1 _ _ E) as (n' & E' & _). eauto.
Qed.

Lemma names_find T ss a i rest : names T ss = Some (a, i, rest) ↔ ∃ j, find T ss = Some (a, j, rest) ∧ i = with_crefs 0 j.
Proof.
  unfold names. rewrite fmap_Some. split.
  - intros ([[b j] r] & E & [= -> -> ->]). eauto.
  - intros (j & E & ->). by eexists.
Qed.

Lemma names_none T ss : names T ss = None ↔ find T ss = None.
Proof. unfold names. by rewrite fmap_None. Qed.

Lemma names_grown T T' ss : (∀ ss', ss' ≠ ss → match find T ss' with
    | Some x => find T' ss' = Some x
    | None => ∀ x, find T' ss' = Some x → ss' `prefix_of` ss ∧ ∃ k, x = (k, fresh (default [] (last ss')), [])
    end) → grown_names (names T) (names T') ss.
Proof.
  intros HG ss' Hss. specialize (HG ss' Hss). unfold names. destruct (find T ss') as [[[a i] rest]|]; simpl; [by rewrite HG|].
  intros x Hx. apply fmap_Some in Hx as (y & Ey & ->). destruct (HG _ Ey) as (Hp & k & ->). split; [done|]. by exists k.
Qed.

Lemma grown_names_ext N1 N2 N' ss : (∀ ss', N1 ss' = N2 ss') → grown_names N1 N' ss → grown_names N2 N' ss.
Proof. intros HN HG ss' Hss. rewrite <- HN. by apply HG. Qed.

Lemma wp_register_at path fops pv v N ext : vfs_at getpid v N ext → is_absolute path = true →
  Z.of_nat (length path) < 2 ^ 30 →
  wp (register_driver getpid path fops pv) (λ r x, ∃ N', vfs_at getpid (upd_fs x v) N' ext ∧
    register_names N N' (path_of path) fops pv r) (fs v).
Proof.
  intros (Hs & T & D & L & HO & HN) Ha Hlen.
  eapply wp_mono; [eapply wp_register; [done|apply HO|apply HO|done|done]|]. intros r x. unfold register_names.
  destruct (find T (path_of path)) as [[[a i] rest]|] eqn:E.
  - intros [-> ->]. exists N. rewrite <- HN. unfold names. rewrite E. simpl. split; [|done].
    split; [done|]. exists T, D, L. split; [destruct HO; by split|done].
  - intros (El & Hk & T' & ks & HF & Hks & HR & HG). rewrite <- HN, (proj2 (names_none _ _) E).
    exists (names T'). split; [split; [done|]; exists T', D, (list_to_set ks ∪ L); split; [by eapply keeps_ok|done]|]. split.
    + destruct HR as [[-> (p & _ & Ep)]|[-> En]]; [left|right]; (split; [done|]).
      * exists p. unfold names. by rewrite Ep.
      * by apply names_none.
    + eapply grown_names_ext; [exact HN|]. apply names_grown. intros ss' Hss. specialize (HG ss' Hss).
      destruct (find T ss'); [done|]. intros x' Hx. destruct (HG _ Hx) as (Hp & k & _ & ->). eauto.
Qed.

(** ** Removing *)

(** Nothing below the path is open. *)
Definition nothing_open_below v (ss : list name) : Prop :=
  ∀ T D L, fs_ok (fs v) T D L → match hole T ss with (_, f, _) => idle_below f end.

(** Under the path nothing is named any more; [rest] is what a mountpoint on the
    path takes for itself. *)
Definition pruned N N' (ss rest : list name) : Prop := ∀ ss',
  N' ss' = if bool_decide (take (length ss - length rest) ss `prefix_of` ss') then None else N ss'.

Lemma names_pruned v T D L ext ss a i rest N : vfs_ok getpid v T D L ext → (∀ ss, names T ss = N ss) →
  find T ss = Some (a, i, rest) → pruned N (names (del T ss)) ss rest.
Proof.
  intros HO HN HF ss'. rewrite <- HN. unfold names.
  rewrite (find_del _ _ _ _ _ _ (ok_sorted _ _ _ _ (vo_fs _ _ _ _ _ _ HO)) HF).
  unfold gone. rewrite HF. by case_bool_decide.
Qed.

Definition unregister_names v ext N N' (ss : list name) (r : Z) : Prop :=
  match N ss with
  | None => r = - ENOENT ∧ ∀ ss', N' ss' = N ss'
  | Some (a, _, rest) =>
      r = (if refs a (fl_files v) + ext a =? 0 then OK else - EBUSY) ∧
      pruned N N' ss rest
  end.

Lemma removed_ok v T D L ext ss a i rest r x : vfs_ok getpid v T D L ext → find T ss = Some (a, i, rest) →
  removed (fs v) T D L ss a i rest r x →
  match hole T ss with (_, f, _) => idle_below f end →
  r = (if refs a (fl_files v) + ext a =? 0 then OK else - EBUSY) ∧
  ∃ D' L', vfs_ok getpid (upd_fs x v) (del T ss) D' L' ext.
Proof.
  intros HO HF (El & Hfrom & o & c & e & y & Eh & HP & HR) Hq. pose proof HO as [H1 H2 H4 H5 H6 H7 H8 H10 H9].
  rewrite Eh in Hq. simpl in Hq.
  destruct (find_addr _ _ _ _ _ _ _ _ H1 HF) as (Ha & _ & x0 & y0 & En). pose proof (H5 _ _ En) as Ei. simpl in Ei.
  destruct (hole_link _ _ _ _ _ _ (ok_tree _ _ _ _ H1) Eh) as (w & _ & _ & _ & x1 & y1 & _ & Hc & _).
  assert (∀ b, b ≠ NULL → is_Some (inodes (fs v) !! b) → 0 < refs b (fl_files v) + ext b → b ∉ addrs c) as Hout.
  { intros b Hb [n Eb] Hpos Hbc. destruct (trep_info _ _ _ _ _ Hc Hq Hbc) as (j & x2 & y2 & E2 & Hj).
    pose proof (H5 _ _ E2) as H5'. simpl in H5'. lia. }
  assert (∀ b, is_Some (inodes x !! b) ↔ b ∈ dom (inodes x)) as Hdom by (intros b; by rewrite elem_of_dom).
  assert (all_addrs T D ≡ₚ (a :: addrs c) ++ all_addrs (del T ss) D) as HPa.
  { unfold all_addrs. rewrite HP. by rewrite <- (assoc_L (++)). }
  assert (∀ D' L', fs_ok x (del T ss) D' L' → Forall idle_below D' →
    (∀ b, b ∈ all_addrs T D → b ∉ addrs c → 0 < refs b (fl_files v) + ext b → b ∈ all_addrs (del T ss) D') →
    vfs_ok getpid (upd_fs x v) (del T ss) D' L' ext) as Hgo.
  { intros D' L' HFx HI Hin.
    assert (∀ b, b ≠ NULL → is_Some (inodes (fs v) !! b) → 0 < refs b (fl_files v) + ext b → is_Some (inodes x !! b)) as Hkeep.
    { intros b Hb Hs Hpos. rewrite Hdom, (ok_dom _ _ _ _ HFx), elem_of_list_to_set. apply Hin; [|by apply Hout|done].
      by rewrite <- elem_of_dom, (ok_dom _ _ _ _ H1), elem_of_list_to_set in Hs. }
    split; simpl; try done.
    - by rewrite El.
    - intros b n' Eb. destruct (Hfrom _ _ Eb) as (n & E & ->). by apply H5.
    - intros f Hf Hn. apply Hkeep; [done|by apply H6|]. pose proof (refs_pos _ _ _ Hf eq_refl). specialize (H8 (f_inode f)). lia.
    - intros b Hb Hx. apply Hkeep; [done|by apply H10|]. pose proof (refs_bounds b (fl_files v)). specialize (H8 b). lia. }
  rewrite Ei in HR. destruct (Z.eqb_spec (refs a (fl_files v) + ext a) 0) as [E0|N0]; destruct HR as [-> HFx]; (split; [done|]);
    eexists _, _; (eapply Hgo; [exact HFx| |]).
  - done.
  - intros b Hb Hbc Hpos. rewrite HPa, elem_of_app, elem_of_cons in Hb. destruct Hb as [[->|?]|?]; [lia|done|done].
  - constructor; [exact Hq|done].
  - intros b Hb Hbc Hpos. rewrite HPa, elem_of_app, elem_of_cons in Hb. unfold all_addrs in *. rewrite elem_of_app, bind_cons.
    cbn [addrs]. rewrite elem_of_app in Hb. set_solver.
Qed.

Lemma wp_unregister_at path v N ext : vfs_at getpid v N ext → is_absolute path = true → nothing_open_below v (path_of path) →
  wp (unregister_driver getpid path) (λ r x, ∃ N', vfs_at getpid (upd_fs x v) N' ext ∧
    unregister_names v ext N N' (path_of path) r) (fs v).
Proof.
  intros (Hs & T & D & L & HO & HN) Ha Hq.
  eapply wp_mono; [eapply wp_unregister; [done|apply HO|apply HO|done]|]. intros r x. unfold unregister_names.
  destruct (find T (path_of path)) as [[[a i] rest]|] eqn:E.
  - intros HR. destruct (removed_ok _ _ _ _ _ _ _ _ _ _ _ HO E HR (Hq _ _ _ (vo_fs _ _ _ _ _ _ HO))) as (-> & D' & L' & HO').
    exists (names (del T (path_of path))). split; [split; [done|by exists (del T (path_of path)), D', L']|].
    rewrite <- HN, (proj2 (names_find _ _ _ _ _) ltac:(by eexists)). split; [done|].
    by eapply names_pruned.
  - intros [-> ->]. exists N. rewrite <- HN, (proj2 (names_none _ _) E). split; [|done].
    split; [done|]. exists T, D, L. split; [destruct HO; by split|done].
Qed.

End Specs.
End FilesTree.
