(* ===== verification/DirsSpec.v ===== *)
(** * What the directory calls do

    [mkdir], [rmdir], [unlink] and [fcntl] on every branch: what paths name
    afterwards, and that descriptors stay in order. *)

From S2P Require Import Prelude Queue Inode InodeTree InodeSpec InodeOps Files FilesSpec FilesOps FilesTree Dirs.

Module DirsSpec.
Export FilesTree Dirs.
#[local] Open Scope cmd_scope.

(** The operations return. *)
Class DirLaws (W : Type) `{DriverLaws W, DirOps W} : Type := {
  fop_unlink_law p m a w : fop_unlink p = Some m → dev_ok w → wp (m a) (λ _ w', dev_ok w') w;
  bop_unlink_law p m a w : bop_unlink p = Some m → dev_ok w → wp (m a) (λ _ w', dev_ok w') w;
  mop_mkdir_law p m a rp mode w : mop_mkdir p = Some m → dev_ok w → wp (m a rp mode) (λ _ w', dev_ok w') w;
  mop_rmdir_law p m a rp w : mop_rmdir p = Some m → dev_ok w → wp (m a rp) (λ _ w', dev_ok w') w;
  mop_unlink_law p m a rp w : mop_unlink p = Some m → dev_ok w → wp (m a rp) (λ _ w', dev_ok w') w
}.

(** ** Children *)

Lemma trep_null m f : trep m NULL f → f = FNil.
Proof. destruct f as [|a i c e]; [done|]. by intros (<- & ? & _). Qed.

(** The names below a node that is no mountpoint are those of its children. *)
Lemma find_below f ss o a i c e x t tl : hole f ss = (o, FCons a i c e, [x]) → find f ss = Some (a, i, []) →
  mountpt i = false → find f (ss ++ t :: tl) = find c (t :: tl).
Proof.
  revert ss o. induction f as [|b j d IHd r IHr]; intros [|s rest] o; simpl; try done.
  destruct (name_cmp s (nm j)); [|done|].
  - destruct (stops rest j) eqn:Es.
    + intros [= _ -> -> -> -> -> ->] _ Hm. cbn [app]. unfold stops. rewrite Hm. done.
    + destruct (stops_false _ _ Es) as [Hr Hj]. destruct (hole d rest) as [[o' f'] ss'] eqn:Eh. intros [= _ -> ->] HF Hm.
      assert (stops (rest ++ t :: tl) j = false) as ->.
      { unfold stops. rewrite Hj, orb_false_r. apply bool_decide_false. by destruct rest. }
      by eapply IHd.
  - destruct (hole r (s :: rest)) as [[o' f'] ss'] eqn:Eh. intros [= _ -> ->] HF Hm.
    change (s :: rest ++ t :: tl) with ((s :: rest) ++ t :: tl). by eapply IHr.
Qed.

Section Specs.
Context {H W : Type} {kmmI : Kmm H} {kmmL : KmmLaws H} {drvI : Drivers W} {drvL : DriverLaws W} {netI : Sockets W}.
Context {dirI : DirOps W} {dirL : DirLaws W}.
Context (getpid : Z).
Hypothesis pid_ok : getpid ≠ NO_HOLDER.
Implicit Types (v : vfs H W) (T : forest) (D : list forest) (L : gset Z) (ext : Z → Z) (N : naming).

(** Where nothing is below a directory, and only there, its inode has no child. *)
Lemma child_named v T D L ext ss a i n : vfs_ok getpid v T D L ext → find T ss = Some (a, i, []) → mountpt i = false →
  inodes (fs v) !! a = Some n → (i_child n = NULL ↔ ∀ t, names T (ss ++ [t]) = None).
Proof.
  intros HO HF Hm En. pose proof (vo_fs _ _ _ _ _ _ HO) as HFs.
  destruct (find_hole_found _ _ _ _ _ HF) as (o & c & e & x & Eh).
  destruct (hole_link _ _ _ _ _ _ (ok_tree _ _ _ _ HFs) Eh) as (w & _ & _ & _ & x1 & y1 & E1 & Hc & _).
  rewrite En in E1. injection E1 as ->. simpl.
  assert (∀ t, find T (ss ++ [t]) = find c [t]) as Hb by (intros t; by eapply find_below).
  split.
  - intros ->. apply trep_null in Hc as ->. intros t. unfold names. by rewrite Hb.
  - intros HN. destruct c as [|b j d r]; [done|]. exfalso. specialize (HN (nm j)). unfold names in HN.
    rewrite Hb in HN. simpl in HN. by rewrite name_cmp_refl in HN.
Qed.

(** ** The inode that a path leads to *)

Definition named N (path : list Z) : option (Z * info * list name) :=
  if is_absolute path then N (path_of path) else None.

(** Only the tree differs. *)
Definition same_but_fs v v' : Prop :=
  fl_files v' = fl_files v ∧ fl_sem v' = fl_sem v ∧ devs v' = devs v ∧ errno v' = errno v.

(** The state after [inode_find], which holds a reference. *)
Definition held v N ext path (a : Z) (i : info) (rest : list name) (rp : list Z) T D L v1 : Prop :=
  vfs_ok getpid v1 T D L (bump a ext) ∧ (∀ ss, names T ss = N ss) ∧ a ≠ NULL ∧ rest_segs rp = rest ∧
  (∃ j x y, find T (path_of path) = Some (a, j, rest) ∧ i = with_crefs 0 j ∧
     inodes (fs v1) !! a = Some (node_of j x y) ∧ i_child <$> inodes (fs v) !! a = Some x) ∧
  same_but_fs v v1 ∧ g_inode_sem (fs v1) = g_inode_sem (fs v) ∧ is_absolute path = true ∧ ∀ b, 0 ≤ ext b.

Lemma wp_inode_at path v N ext (k : Z * option (list Z) → M (vfs H W) Z) Q : vfs_at getpid v N ext → (∀ a, ext a ≤ 32000) →
  match named N path with
  | None => wp (k (NULL, None)) Q v
  | Some (a, i, rest) => ∀ rp T D L v1, held v N ext path a i rest rp T D L v1 → wp (k (a, Some rp)) Q v1
  end → wp (x <-- on_fs (inode_find getpid path) ;; k x) Q v.
Proof.
  intros (Hs & T & D & L & HO & HN) He HQ. rewrite wp_bind, wp_on_fs. unfold named in HQ.
  destruct (is_absolute path) eqn:Ea.
  2: { unfold inode_find. rewrite Ea. cbn [negb]. rewrite wp_ret. by destruct v. }
  eapply wp_mono; [by eapply wp_find_ref|]. intros r x. rewrite <- HN in HQ. unfold names in HQ.
  destruct (find T (path_of path)) as [[[a i] rest]|] eqn:Ef; simpl in HQ.
  2: { intros [-> ->]. by destruct v. }
  intros (rp & -> & Hrp & -> & HO1). apply (HQ rp (at_crefs a (crefs i + 1) T) (at_crefs a (crefs i + 1) <$> D) L).
  destruct (find_addr _ _ _ _ _ _ _ _ (vo_fs _ _ _ _ _ _ HO) Ef) as (Hn & _ & y & z & En).
  split_and!; try done.
  - intros ss. by rewrite names_at_crefs.
  - exists (with_crefs (crefs i + 1) i), y, z. split_and!; [|done| |by rewrite En].
    + unfold at_crefs. rewrite find_map_at by done. rewrite Ef. simpl. by rewrite Z.eqb_refl.
    + simpl. by rewrite lookup_alter_eq, En.
  - apply HO.
Qed.

Lemma held_at v N ext path a i rest rp T D L v1 : held v N ext path a i rest rp T D L v1 → is_Some (inodes (fs v1) !! a).
Proof. intros (_ & _ & _ & _ & (j & x & y & _ & _ & -> & _) & _). eauto. Qed.

(** Ways to end. *)
Lemma wp_fail_release v N ext path a i rest rp T D L v1 e (Q : Z → vfs H W → Prop) :
  held v N ext path a i rest rp T D L v1 → 0 < fl_sem v →
  (∀ v', vfs_at getpid v' N ext → refused v e ERROR v' → Q ERROR v') →
  wp (fail_release getpid a e) Q v1.
Proof.
  intros HH Hs HQ. pose proof HH as (HO & HN & _ & _ & _ & (E1 & E2 & E3 & E4) & _ & _ & Hext).
  eapply wp_give_back; [done|exact HO|exact HN|by eapply held_at|done|].
  intros v' HV G1 G2 G3 G4. apply HQ; [split; [by rewrite G2, E2|done]|]. split_and!; congruence.
Qed.

Definition mount_result v (o : option (M W Z)) (r : Z) v' : Prop :=
  match o with
  | None => refused v ENOSYS r v'
  | Some m => ∃ rm w, m (devs v) = Ok (rm, w) ∧ devs v' = w ∧ fl_files v' = fl_files v ∧ fl_sem v' = fl_sem v ∧
      r = (if rm <? 0 then ERROR else OK) ∧ errno v' = (if rm <? 0 then - rm else errno v)
  end.

Lemma vfs_ok_devs w v T D L ext : dev_ok w → vfs_ok getpid v T D L ext → vfs_ok getpid (upd_devs w v) T D L ext.
Proof. intros Hw HO. destruct HO; by split. Qed.

Lemma wp_mount_call v N ext path a i rest rp T D L v1 o (Q : Z → vfs H W → Prop) :
  held v N ext path a i rest rp T D L v1 → 0 < fl_sem v →
  (∀ m w, o = Some m → dev_ok w → wp m (λ _ w', dev_ok w') w) →
  (∀ r v', vfs_at getpid v' N ext → mount_result v o r v' → Q r v') →
  wp (mount_call getpid a o) Q v1.
Proof.
  intros HH Hs Hm HQ. pose proof HH as (HO & HN & _ & _ & _ & (E1 & E2 & E3 & E4) & _ & _ & Hext).
  pose proof (held_at _ _ _ _ _ _ _ _ _ _ _ _ HH) as Hat. destruct o as [m|]; simpl.
  2: { eapply wp_fail_release; [exact HH|done|]. intros v' HV HR. by apply HQ. }
  rewrite wp_bind, wp_on_devs.
  destruct (wp_run _ _ _ (Hm m _ eq_refl (vo_dev _ _ _ _ _ _ HO))) as (rm & w & Em & Hw).
  eapply wp_ok; [exact Em|]. pose proof (vfs_ok_devs w _ _ _ _ _ Hw HO) as HO2. rewrite E3 in Em. cbv beta.
  specialize (HQ (if rm <? 0 then ERROR else OK)). simpl in HQ. destruct (rm <? 0) eqn:Er.
  - eapply wp_give_back; [done|exact HO2|exact HN|done|done|]. intros v' HV G1 G2 G3 G4.
    apply HQ; [split; [by rewrite G2; simpl; rewrite E2|done]|]. exists rm, w. rewrite Er. simpl in *. split_and!; congruence.
  - rewrite wp_bind, wp_on_fs. eapply wp_release_at; [done|exact HO2|exact HN|done|done|].
    intros x HX. rewrite wp_ret. apply HQ; [split; [simpl; by rewrite E2|exact HX]|].
    exists rm, w. rewrite Er. split_and!; done.
Qed.

(** ** Making a directory *)

Definition mkdir_result v N N' path mode (r : Z) v' : Prop :=
  match named N path with
  | Some (a, i, rest) =>
      (∀ ss, N' ss = N ss) ∧
      if negb (mountpt i) || (ops i =? NULL) then refused v ENXIO r v'
      else ∃ rp, rest_segs rp = rest ∧ mount_result v ((λ m, m a (Some rp) mode) <$> mop_mkdir (ops i)) r v'
  | None =>
      if is_absolute path then
        fl_files v' = fl_files v ∧ fl_sem v' = fl_sem v ∧ devs v' = devs v ∧
        grown_names N N' (path_of path) ∧
        (r = OK ∧ errno v' = errno v ∧ (∃ p, N' (path_of path) = Some (p, fresh (default [] (last (path_of path))), []))
         ∨ r = ERROR ∧ errno v' = ENOMEM ∧ N' (path_of path) = None)
      else (∀ ss, N' ss = N ss) ∧ refused v EINVAL r v'
  end.

(** [inode_reserve] under the lock. *)
Lemma wp_reserve_at path v T D L ext (k : Z * Z → M (vfs H W) Z) Q : vfs_ok getpid v T D L ext →
  is_absolute path = true → Z.of_nat (length path) < 2 ^ 30 → find T (path_of path) = None →
  (∀ r x T' L', vfs_ok getpid (upd_fs x v) T' D L' ext → grown_names (names T) (names T') (path_of path) →
     (r.1 = OK ∧ find T' (path_of path) = Some (r.2, fresh (default [] (last (path_of path))), [])
      ∨ r = (- ENOMEM, NULL) ∧ find T' (path_of path) = None) → wp (k r) Q (upd_fs x v)) →
  wp (on_fs (inode_semtake getpid) ;;; x <-- on_fs (inode_reserve path) ;; on_fs (inode_semgive getpid) ;;; k x) Q v.
Proof.
  intros HO Ha Hlen HN HQ. pose proof (vo_lock _ _ _ _ _ _ HO) as Hl.
  rewrite wp_bind, wp_on_fs, wp_semtake, wp_bind, wp_on_fs by done.
  set (s1 := upd_isem _ _). simpl. assert (fs_ok s1 T D L) as HO1 by (destruct (vo_fs _ _ _ _ _ _ HO); by split).
  eapply wp_mono; [by eapply wp_reserve|]. intros r s2. cbv beta zeta. rewrite HN.
  intros (El & Hkr & T' & ks & HO' & HG & Hks & HR). rewrite wp_bind, wp_on_fs.
  rewrite (wp_semgive _ _ _ (g_inode_sem (fs v))) by done. simpl.
  set (x := upd_isem (g_inode_sem (fs v)) s2).
  change (upd_fs x (upd_fs s2 (upd_fs s1 v))) with (upd_fs x v).
  assert (fs_ok x T' D (list_to_set ks ∪ L)) as HOx by (destruct HO'; by split).
  apply (HQ r x T' (list_to_set ks ∪ L)).
  - eapply keeps_ok; [done|exact HO| |exact HOx|done].
    apply (keeps_refs_trans _ s1); [by apply same_crefs|]. apply (keeps_refs_trans _ s2); [done|by apply same_crefs].
  - apply names_grown. intros ss' _. specialize (HG ss'). destruct (find T ss'); [done|]. intros y Hy.
    destruct (HG y Hy) as (Hp & j & _ & ->). eauto.
  - destruct HR as [(? & _ & ?)|?]; auto.
Qed.

Lemma wp_mkdir path mode v N ext : vfs_at getpid v N ext → (∀ a, ext a ≤ 32000) → Z.of_nat (length path) < 2 ^ 30 →
  wp (mkdir getpid path mode) (λ r v', ∃ N', vfs_at getpid v' N' ext ∧ mkdir_result v N N' path mode r v') v.
Proof.
  intros HV He Hlen. unfold mkdir, mkdir_result. eapply wp_inode_at; [exact HV|done|].
  pose proof HV as (Hs & T & D & L & HO & HN). unfold named. destruct (is_absolute path) eqn:Ea.
  - rewrite <- HN. unfold names. destruct (find T (path_of path)) as [[[a i0] rest]|] eqn:Ef; simpl.
    + set (i := with_crefs 0 i0). intros rp T1 D1 L1 v1 HH. pose proof HH as (_ & _ & Hn & Hrp & (j & x & y & Ej & Ei & En & _) & _).
      cbn [fst snd]. rewrite (proj2 (Z.eqb_neq a NULL)) by done. cbn [negb].
      rewrite wp_bind, (wp_iget_fs a (node_of j x y)) by done. change (INODE_IS_MOUNTPT (node_of j x y)) with (mountpt (with_crefs 0 j)).
      change (i_ops (node_of j x y)) with (ops (with_crefs 0 j)). rewrite <- Ei.
      change (mountpt i0) with (mountpt i). change (ops i0) with (ops i).
      destruct (negb (mountpt i) || (ops i =? NULL)).
      * eapply wp_fail_release; [exact HH|done|]. intros v' HV' HR. exists N. done.
      * eapply wp_mount_call; [exact HH|done| |].
        { intros m w (f & Ef' & ->)%fmap_Some Hw. by eapply mop_mkdir_law. }
        intros r v' HV' HR. exists N. split; [done|]. split; [done|]. exists rp. done.
    + eapply wp_reserve_at; [exact HO|done|done|done|]. intros r x T' L' HO' HG HR.
      assert (grown_names N (names T') (path_of path)) as HG' by (eapply grown_names_ext; [exact HN|done]).
      destruct HR as [[-> Ef']|[-> Ef']]; simpl.
      * rewrite wp_ret. exists (names T'). split; [split; [done|by exists T', D, L']|]. split_and!; try done.
        left. split_and!; try done. exists r.2. unfold names. by rewrite Ef'.
      * rewrite wp_fail_with. exists (names T'). split; [split; [done|by apply in_errno; exists T', D, L']|].
        split_and!; try done. right. split_and!; try done. by apply names_none.
  - simpl. set (s1 := upd_isem (taken getpid (g_inode_sem (fs v))) (fs v)).
    rewrite wp_bind, wp_on_fs, wp_semtake by (done || apply HO). fold s1.
    rewrite wp_bind, wp_on_fs. unfold inode_reserve. rewrite Ea. cbn [negb]. rewrite wp_ret.
    rewrite wp_bind, wp_on_fs. rewrite (wp_semgive _ _ _ (g_inode_sem (fs v))) by (done || apply HO).
    change ((- EINVAL, NULL).1 <? 0) with true. cbv iota. rewrite wp_fail_with. exists N. split; [|done]. split; [done|]. apply in_errno.
    exists T, D, L. split; [|done]. destruct HO as [HF ? ? ? ? ? ? ? ?]. split; try done. destruct HF; by split.
Qed.

(** ** Removing *)

(** [inode_remove] under the lock, on a node without children. *)
Lemma wp_remove_at path v T D L ext a i rest x y (k : Z → M (vfs H W) Z) Q : vfs_ok getpid v T D L ext →
  is_absolute path = true → find T (path_of path) = Some (a, i, rest) →
  inodes (fs v) !! a = Some (node_of i x y) → x = NULL → ext a ≠ 0 →
  (∀ s D' L', vfs_ok getpid (upd_fs s v) (del T (path_of path)) D' L' ext → is_Some (inodes s !! a) →
     wp (k (- EBUSY)) Q (upd_fs s v)) →
  wp (r <-- on_fs (inode_remove path) ;; on_fs (inode_semgive getpid) ;;; k r) Q
    (upd_fs (upd_isem (taken getpid (g_inode_sem (fs v))) (fs v)) v).
Proof.
  intros HO Ha HF En -> Hext HQ. pose proof (vo_lock _ _ _ _ _ _ HO) as Hl.
  pose proof (wp_unregister getpid path (fs v) T D L pid_ok Hl (vo_fs _ _ _ _ _ _ HO) Ha) as HU.
  rewrite HF in HU. unfold unregister_driver in HU. rewrite wp_bind, wp_semtake, wp_bind in HU by done.
  rewrite wp_bind, wp_on_fs. eapply wp_mono; [exact HU|]. intros r s. cbv beta. rewrite wp_bind. intros HS.
  rewrite wp_bind, wp_on_fs. simpl. eapply wp_mono; [exact HS|]. intros [] s'. cbv beta. rewrite wp_ret. intros HR.
  change (upd_fs s' (upd_fs s _)) with (upd_fs s' v).
  destruct (removed_ok getpid pid_ok v T D L ext _ a i rest r s' HO HF HR) as (-> & D' & L' & HO').
  { destruct (find_hole_found _ _ _ _ _ HF) as (o & c & e & z & Eh).
    destruct (hole_link _ _ _ _ _ _ (ok_tree _ _ _ _ (vo_fs _ _ _ _ _ _ HO)) Eh) as (w & _ & _ & _ & x1 & y1 & E1 & Hc & _).
    rewrite Eh. rewrite En in E1. injection E1 as <- <-. by apply trep_null in Hc as ->. }
  pose proof (refs_bounds a (fl_files v)). pose proof (vo_ext _ _ _ _ _ _ HO a).
  rewrite (proj2 (Z.eqb_neq _ 0)) by lia. eapply HQ; [exact HO'|].
  destruct (find_addr _ _ _ _ _ _ _ _ (vo_fs _ _ _ _ _ _ HO) HF) as (Hn & _). by apply (vo_held _ _ _ _ _ _ HO').
Qed.

(** The end of [rmdir] and [unlink], after the removal. *)
Lemma wp_removed a v T D L ext N ss rest (Q : Z → vfs H W → Prop) :
  vfs_ok getpid v (del T ss) D L (bump a ext) → is_Some (inodes (fs v) !! a) → (∀ b, 0 ≤ ext b) → 0 < fl_sem v →
  pruned N (names (del T ss)) ss rest →
  (∀ v' N', vfs_at getpid v' N' ext → pruned N N' ss rest → same_but_fs v v' → Q OK v') →
  wp (if (- EBUSY <? 0) && negb (- EBUSY =? - EBUSY) then fail_release getpid a (- - EBUSY)
      else on_fs (inode_release getpid a) ;;; ret OK) Q v.
Proof.
  intros HO Ha Hext Hs HP HQ. change ((- EBUSY <? 0) && negb (- EBUSY =? - EBUSY)) with false. cbv iota.
  rewrite wp_bind, wp_on_fs. eapply wp_release_at; [done|exact HO|done|done|done|].
  intros x HX. rewrite wp_ret. by apply (HQ _ (names (del T ss))).
Qed.

Definition removal v N N' ss rest (r : Z) v' : Prop :=
  r = OK ∧ errno v' = errno v ∧ fl_files v' = fl_files v ∧ fl_sem v' = fl_sem v ∧ pruned N N' ss rest.

Definition rmdir_result v N N' path (r : Z) v' : Prop :=
  match named N path with
  | None => (∀ ss, N' ss = N ss) ∧ refused v ENOENT r v'
  | Some (a, i, rest) =>
      if mountpt i && negb (ops i =? NULL) then
        (∀ ss, N' ss = N ss) ∧ ∃ rp, rest_segs rp = rest ∧ mount_result v ((λ m, m a (Some rp)) <$> mop_rmdir (ops i)) r v'
      else if ops i =? NULL then
        ∃ n, inodes (fs v) !! a = Some n ∧
        if negb (i_child n =? NULL) then (∀ ss, N' ss = N ss) ∧ refused v ENOTEMPTY r v'
        else removal v N N' (path_of path) rest r v' ∧ devs v' = devs v
      else (∀ ss, N' ss = N ss) ∧ refused v ENOTDIR r v'
  end.

Lemma held_pruned v N ext path a i rest rp T D L v1 : held v N ext path a i rest rp T D L v1 →
  pruned N (names (del T (path_of path))) (path_of path) rest.
Proof.
  intros (HO & HN & _ & _ & (j & x & y & Ej & _) & _). by eapply names_pruned.
Qed.

Lemma wp_rmdir path v N ext : vfs_at getpid v N ext → (∀ a, ext a ≤ 32000) →
  wp (rmdir getpid path) (λ r v', ∃ N', vfs_at getpid v' N' ext ∧ rmdir_result v N N' path r v') v.
Proof.
  intros HV He. unfold rmdir, rmdir_result. eapply wp_inode_at; [exact HV|done|]. pose proof HV as (Hs & HI).
  destruct (named N path) as [[[a i] rest]|] eqn:EN; simpl.
  2: { rewrite wp_fail_with. exists N. split; [|done]. split; [done|by apply in_errno]. }
  intros rp T D L v1 HH. pose proof HH as (HO & _ & Hn & Hrp & (j & x & y & Ej & Ei & En & Ec) & (E1 & E2 & E3 & E4) & El & Ha & Hext).
  rewrite (proj2 (Z.eqb_neq a NULL)) by done.
  rewrite wp_bind, (wp_iget_fs a (node_of j x y)) by done. change (INODE_IS_MOUNTPT (node_of j x y)) with (mountpt (with_crefs 0 j)).
  change (i_ops (node_of j x y)) with (ops (with_crefs 0 j)). rewrite <- Ei.
  destruct (mountpt i && negb (ops i =? NULL)).
  { eapply wp_mount_call; [exact HH|done| |].
    - intros m w (f & Ef' & ->)%fmap_Some Hw. by eapply mop_rmdir_law.
    - intros r v' HV' HR. exists N. split; [done|]. split; [done|]. by exists rp. }
  destruct (ops i =? NULL).
  2: { eapply wp_fail_release; [exact HH|done|]. intros v' HV' HR. by exists N. }
  apply fmap_Some in Ec as (n & En0 & ->). change (i_child (node_of j (i_child n) y)) with (i_child n).
  destruct (Z.eqb_spec (i_child n) NULL) as [Ec|Ec]; cbn [negb].
  2: { eapply wp_fail_release; [exact HH|done|]. intros v' HV' HR. exists N. split; [done|]. exists n.
       rewrite (proj2 (Z.eqb_neq _ _)) by done. done. }
  rewrite wp_bind, wp_on_fs, wp_semtake by (done || apply HO).
  eapply wp_remove_at; [exact HO|done|exact Ej|exact En|done| |].
  { pose proof (Hext a). rewrite bump_at. lia. }
  intros s D' L' HO' Has. eapply wp_removed; [exact HO'|done|done|simpl; lia|by eapply held_pruned|].
  intros v' N' HV' HP (G1 & G2 & G3 & G4). exists N'. split; [done|]. exists n. split; [done|].
  rewrite Ec. cbn [negb Z.eqb NULL]. simpl in *. split_and!; try congruence. split_and!; congruence || done.
Qed.

(** ** Removing a driver's file *)

(** What the driver is told, and what it answers. *)
Definition notified (a : Z) (i : info) : M W Z :=
  let n := node_of i NULL NULL in
  match (if INODE_IS_DRIVER n then fop_unlink (ops i) else None) with
  | Some m => m a
  | None =>
      match (if INODE_IS_BLOCK n then bop_unlink (ops i) else None) with
      | Some m => m a
      | None => ret OK
      end
  end.

Lemma notified_law a i w : dev_ok w → wp (notified a i) (λ _ w', dev_ok w') w.
Proof.
  intros Hw. unfold notified. cbv zeta.
  destruct (if INODE_IS_DRIVER _ then fop_unlink (ops i) else None) as [m|] eqn:E.
  { destruct (INODE_IS_DRIVER _); [by eapply fop_unlink_law|done]. }
  destruct (if INODE_IS_BLOCK _ then bop_unlink (ops i) else None) as [m|] eqn:E'; [|by rewrite wp_ret].
  destruct (INODE_IS_BLOCK _); [by eapply bop_unlink_law|done].
Qed.

Lemma wp_notify a j x y Q v : wp (notified a (with_crefs 0 j)) (λ r w, Q r (upd_devs w v)) (devs v) →
  wp (notify (node_of j x y) a) Q v.
Proof.
  unfold notify, notified. cbv zeta. change (INODE_IS_DRIVER (node_of j x y)) with (INODE_IS_DRIVER (node_of (with_crefs 0 j) NULL NULL)).
  change (INODE_IS_BLOCK (node_of j x y)) with (INODE_IS_BLOCK (node_of (with_crefs 0 j) NULL NULL)).
  change (i_ops (node_of j x y)) with (ops (with_crefs 0 j)).
  destruct (if INODE_IS_DRIVER _ then _ else _) as [m|]; [by rewrite wp_on_devs|].
  destruct (if INODE_IS_BLOCK _ then _ else _) as [m|]; [by rewrite wp_on_devs|]. rewrite !wp_ret. by destruct v.
Qed.

(** The table with the lock [l] of the tree. *)
Definition with_lock (l : inode_sem_s) v : vfs H W := upd_fs (upd_isem l (fs v)) v.

Definition special (i : info) : bool := negb (Z.land (flags i) FSNODEFLAG_TYPE_SPECIAL =? 0).

(** When the driver refuses, the call ends with the lock still taken; in all
    other cases it is back. *)
Definition unlink_result v N ext path (r : Z) v' : Prop :=
  match named N path with
  | None => vfs_at getpid v' N ext ∧ refused v ENOENT r v'
  | Some (a, i, rest) =>
      if mountpt i && negb (ops i =? NULL) then
        vfs_at getpid v' N ext ∧ ∃ rp, rest_segs rp = rest ∧ mount_result v ((λ m, m a (Some rp)) <$> mop_unlink (ops i)) r v'
      else if negb (special i) && negb (ops i =? NULL) then
        ∃ n, inodes (fs v) !! a = Some n ∧
        if negb (i_child n =? NULL) then vfs_at getpid v' N ext ∧ refused v ENOTEMPTY r v'
        else ∃ rn w, notified a i (devs v) = Ok (rn, w) ∧ devs v' = w ∧
          if rn <? 0 then
            vfs_at getpid (with_lock (g_inode_sem (fs v)) v') N ext ∧
            g_inode_sem (fs v') = taken getpid (g_inode_sem (fs v)) ∧
            r = ERROR ∧ errno v' = - rn ∧ fl_files v' = fl_files v ∧ fl_sem v' = fl_sem v
          else ∃ N', vfs_at getpid v' N' ext ∧ removal v N N' (path_of path) rest r v'
      else vfs_at getpid v' N ext ∧ refused v ENXIO r v'
  end.

(** Every driver lets its file go. *)
Definition unlink_accepted v : Prop := ∀ a i rn w, notified a i (devs v) = Ok (rn, w) → 0 ≤ rn.

Lemma with_lock_id l v : g_inode_sem (fs v) = l → with_lock l v = v.
Proof. intros <-. by destruct v as [[]]. Qed.

Lemma unlink_result_at v N ext path r v' : unlink_accepted v → unlink_result v N ext path r v' →
  ∃ N', vfs_at getpid v' N' ext.
Proof.
  intros Hacc HR. unfold unlink_result in HR. destruct (named N path) as [[[a i] rest]|]; [|destruct HR; eauto].
  destruct (mountpt i && negb (ops i =? NULL)); [destruct HR; eauto|].
  destruct (negb (special i) && negb (ops i =? NULL)); [|destruct HR; eauto].
  destruct HR as (n & _ & HR). destruct (negb (i_child n =? NULL)); [destruct HR; eauto|].
  destruct HR as (rn & w & Er & _ & HR). specialize (Hacc _ _ _ _ Er). rewrite (proj2 (Z.ltb_ge _ _)) in HR by done.
  destruct HR as (N' & ? & _). eauto.
Qed.

(** [inode_release] below a lock that is not given back. *)
Lemma wp_release_locked a l v T D L ext N ss j rest e (Q : Z → vfs H W → Prop) :
  vfs_ok getpid v T D L (bump a ext) → (∀ ss, names T ss = N ss) → find T ss = Some (a, j, rest) → (∀ b, 0 ≤ ext b) →
  lockable getpid l →
  (∀ x, vfs_in getpid (upd_fs x v) N ext → g_inode_sem x = g_inode_sem (fs v) →
     Q ERROR (upd_errno e (with_lock l (upd_fs x v)))) →
  wp (fail_release getpid a e) Q (with_lock l v).
Proof.
  intros HO HN HF Hext Hl HQ. unfold fail_release. rewrite wp_bind, wp_on_fs. pose proof (vo_fs _ _ _ _ _ _ HO) as HFs.
  assert (fs_ok (fs (with_lock l v)) T D L) as HO' by (destruct HFs; by split).
  destruct (find_addr _ _ _ _ _ _ _ _ HFs HF) as (_ & _ & x & y & En).
  destruct (in_use _ _ _ _ _ _ _ _ HO En) as [Ec Hb]. rewrite bump_at in Ec. pose proof (Hext a).
  pose proof (crefs_upper _ _ _ _ _ _ HFs En) as Hup.
  destruct (find_live _ _ _ _ _ (ok_live _ _ _ _ HFs) HF) as [_ Hd]. apply negb_false_iff, Z.eqb_eq in Hd.
  eapply (wp_release_keep getpid a (node_of j x y)); [done|done|exact HO'|exact En|lia|by right|].
  rewrite Z.max_r by lia. rewrite wp_fail_with. set (u := i_crefs _ - 1).
  apply (HQ (set_crefs a u (fs v))); [|done]. eexists _, _, _. split.
  - eapply (crefs_ok getpid v T D L (bump a ext) ext a); [exact HO|exact En|left; lia|unfold u; lia|done|unfold u; lia| |done].
    intros b Nb. by rewrite bump_ne.
  - intros ss'. by rewrite names_at_crefs.
Qed.

Lemma wp_unlink_file path v N ext : vfs_at getpid v N ext → (∀ a, ext a ≤ 32000) →
  unlink_accepted v ∨ lockable getpid (taken getpid (g_inode_sem (fs v))) →
  wp (unlink getpid path) (λ r v', unlink_result v N ext path r v') v.
Proof.
  intros HV He Hacc. unfold unlink, unlink_result. eapply wp_inode_at; [exact HV|done|]. pose proof HV as (Hs & HI).
  destruct (named N path) as [[[a i] rest]|] eqn:EN; simpl.
  2: { rewrite wp_fail_with. split; [|done]. split; [done|by apply in_errno]. }
  intros rp T D L v1 HH. pose proof HH as (HO & HN & Hn & Hrp & (j & x & y & Ej & Ei & En & Ec) & (E1 & E2 & E3 & E4) & El & Ha & Hext).
  rewrite (proj2 (Z.eqb_neq a NULL)) by done.
  rewrite wp_bind, (wp_iget_fs a (node_of j x y)) by done. change (INODE_IS_MOUNTPT (node_of j x y)) with (mountpt (with_crefs 0 j)).
  change (INODE_IS_SPECIAL (node_of j x y)) with (special (with_crefs 0 j)).
  change (i_ops (node_of j x y)) with (ops (with_crefs 0 j)). rewrite <- Ei.
  destruct (mountpt i && negb (ops i =? NULL)).
  { eapply wp_mount_call; [exact HH|done| |].
    - intros m w (f & Ef' & ->)%fmap_Some Hw. by eapply mop_unlink_law.
    - intros r v' HV' HR. split; [done|]. by exists rp. }
  destruct (negb (special i) && negb (ops i =? NULL)).
  2: { eapply wp_fail_release; [exact HH|done|]. done. }
  apply fmap_Some in Ec as (n & En0 & ->).
  rewrite wp_bind, wp_on_fs, wp_semtake by (done || apply HO). rewrite wp_bind.
  rewrite (wp_iget_fs a (node_of j (i_child n) y)) by done. change (i_child (node_of j (i_child n) y)) with (i_child n).
  destruct (Z.eqb_spec (i_child n) NULL) as [Ec|Ec]; cbn [negb].
  2: { rewrite wp_bind, wp_on_fs, (wp_semgive _ _ _ (g_inode_sem (fs v1))) by (done || apply HO).
       assert (upd_fs (upd_isem (g_inode_sem (fs v1)) (fs (with_lock (taken getpid (g_inode_sem (fs v1))) v1)))
         (with_lock (taken getpid (g_inode_sem (fs v1))) v1) = v1) as Ev by (by destruct v1 as [[]]).
       unfold with_lock in Ev. rewrite Ev. eapply wp_fail_release; [exact HH|done|].
       intros v' HV' HR. exists n. rewrite (proj2 (Z.eqb_neq _ _)) by done. done. }
  rewrite wp_bind. apply wp_notify. rewrite <- Ei. simpl.
  destruct (wp_run _ _ _ (notified_law a i _ (vo_dev _ _ _ _ _ _ HO))) as (rn & w & Er & Hw).
  eapply wp_ok; [exact Er|]. rewrite E3 in Er. pose proof (vfs_ok_devs w _ _ _ _ _ Hw HO) as HO2. set (v2 := upd_devs w v1) in *.
  set (l := taken getpid (g_inode_sem (fs v1))). 
  change (upd_devs w (upd_fs (upd_isem l (fs v1)) v1)) with (with_lock l v2).
  destruct (Z.ltb_spec rn 0) as [Hrn|Hrn].
  - destruct Hacc as [Hacc|Hl]; [specialize (Hacc _ _ _ _ Er); lia|]. rewrite <- El in Hl.
    eapply wp_release_locked; [exact HO2|exact HN|exact Ej|done|exact Hl|]. intros s HX Es. exists n. split; [done|].
    rewrite Ec. cbn [negb Z.eqb NULL]. exists rn, w. split; [done|]. split; [done|].
    rewrite (proj2 (Z.ltb_lt _ _)) by done. split; [|rewrite <- El; split_and!; done].
    assert (with_lock (g_inode_sem (fs v)) (upd_errno (- rn) (with_lock l (upd_fs s v2))) = upd_errno (- rn) (upd_fs s v2)) as ->.
    { rewrite <- El. change (g_inode_sem (fs v2)) with (g_inode_sem (fs v1)) in Es. rewrite <- Es. by destruct s. }
    split; [simpl; lia|]. by apply in_errno.
  - change (with_lock l v2) with (upd_fs (upd_isem (taken getpid (g_inode_sem (fs v2))) (fs v2)) v2).
    eapply wp_remove_at; [exact HO2|done|exact Ej|exact En|done| |].
    { pose proof (Hext a). rewrite bump_at. lia. }
    intros s D' L' HO' Has. eapply wp_removed; [exact HO'|done|done|simpl; lia|by eapply held_pruned|].
    intros v' N' HV' HP (G1 & G2 & G3 & G4). exists n. split; [done|]. rewrite Ec. cbn [negb Z.eqb NULL].
    exists rn, w. simpl in *. split; [done|]. split; [congruence|]. rewrite (proj2 (Z.ltb_ge _ _)) by done.
    exists N'. split; [done|]. split_and!; congruence || done.
Qed.

(** ** Flags *)

Definition fcntl_result v fd cmd arg (r : Z) v' : Prop :=
  ∀ f, fl_files v !! Z.to_nat fd = Some f →
  if f_inode f =? NULL then refused v EBADF r v'
  else if cmd =? F_DUPFD then dup_result v fd (Z.to_nat arg) r v'
  else if cmd =? F_GETFL then r = f_oflags f ∧ v' = v
  else if cmd =? F_SETFL then r = OK ∧
    v' = upd_files (<[Z.to_nat fd := mkfile (Z.lor (Z.ldiff (f_oflags f) FFCNTL) (Z.land arg FFCNTL)) (f_pos f) (f_inode f) (f_priv f)]> (fl_files v)) v
  else refused v (if (cmd =? F_GETOWN) || (cmd =? F_SETOWN) then EBADF
                  else if (cmd =? F_GETFD) || (cmd =? F_SETFD) || (cmd =? F_GETLK) || (cmd =? F_SETLK) || (cmd =? F_SETLKW) then ENOSYS
                  else EINVAL) r v'.

Lemma refused_at v N ext e : vfs_at getpid v N ext → vfs_at getpid (upd_errno e v) N ext ∧ refused v e ERROR (upd_errno e v).
Proof. intros [Hs HI]. split; [|done]. split; [done|by apply in_errno]. Qed.

Lemma wp_fcntl fd cmd arg v N ext : vfs_at getpid v N ext → 0 ≤ fd < CONFIG_NFILE_DESCRIPTORS → (∀ a, ext a ≤ 32000) →
  (cmd = F_DUPFD → 0 ≤ arg) →
  wp (fcntl getpid fd cmd arg) (λ r v', vfs_at getpid v' N ext ∧ fcntl_result v fd cmd arg r v') v.
Proof.
  intros HV Hfd He Hd. pose proof HV as (Hs & T & D & L & HO & HN). destruct (entry _ _ _ _ _ _ fd HO Hfd) as [f E].
  unfold fcntl, fs_getfilep, fcntl_result. rewrite is_fd_range by done. cbn [negb]. rewrite wp_bind, wp_ret.
  unfold file_vfcntl. rewrite wp_bind, (wp_getf fd f) by (done || lia).
  assert (∀ e, wp (fail_with e) (λ r v', vfs_at getpid v' N ext ∧ ∀ f', fl_files v !! Z.to_nat fd = Some f' → refused v e r v') v) as Hf.
  { intros e. rewrite wp_fail_with. destruct (refused_at v N ext e HV). done. }
  assert (∀ P : file → Z → vfs H W → Prop, ∀ r v', P f r v' → ∀ f', fl_files v !! Z.to_nat fd = Some f' → P f' r v') as Hone.
  { intros P r v' HP f' E'. rewrite E in E'. by injection E' as <-. }
  destruct (f_inode f =? NULL) eqn:Ef.
  { eapply wp_mono; [apply Hf|]. intros r v' [HV' HR]. split; [done|]. intros f' E'. simplify_eq. rewrite Ef. by eapply HR. }
  destruct (Z.eqb_spec cmd F_DUPFD) as [->|N0].
  { specialize (Hd eq_refl). pose proof (wp_dupfd getpid pid_ok fd (Z.to_nat arg) v N ext HV Hfd He) as HW.
    unfold fs_dupfd, fs_getfilep in HW. rewrite is_fd_range in HW by done. cbn [negb] in HW. rewrite wp_bind, wp_ret in HW.
    rewrite Z2Nat.id in HW by done. eapply wp_mono; [exact HW|]. intros r v' [HV' HR]. split; [done|]. intros f' E'. simplify_eq.
    by rewrite Ef. }
  assert (∀ e, e = (if (cmd =? F_GETOWN) || (cmd =? F_SETOWN) then EBADF
                  else if (cmd =? F_GETFD) || (cmd =? F_SETFD) || (cmd =? F_GETLK) || (cmd =? F_SETLK) || (cmd =? F_SETLKW) then ENOSYS
                  else EINVAL) → cmd ≠ F_GETFL → cmd ≠ F_SETFL →
    wp (fail_with e) (λ r v', vfs_at getpid v' N ext ∧ fcntl_result v fd cmd arg r v') v) as Hx.
  { intros e -> N1 N2. eapply wp_mono; [apply Hf|]. intros r v' [HV' HR]. split; [done|]. intros f' E'. simplify_eq. rewrite Ef.
    rewrite !(proj2 (Z.eqb_neq cmd _)) by done. by eapply HR. }
  destruct (Z.eqb_spec cmd F_GETFD) as [->|N1]; [by apply (Hx ENOSYS)|].
  destruct (Z.eqb_spec cmd F_SETFD) as [->|N2]; [by apply (Hx ENOSYS)|]. cbn [orb].
  destruct (Z.eqb_spec cmd F_GETFL) as [->|N3].
  { rewrite wp_ret. split; [done|]. intros f' E'. simplify_eq. rewrite Ef. done. }
  destruct (Z.eqb_spec cmd F_SETFL) as [->|N4].
  { rewrite wp_bind, (wp_setf fd f), wp_ret by (done || lia). split; [|intros f' E'; simplify_eq; rewrite Ef; done].
    split; [done|]. exists T, D, L. split; [|done]. by eapply same_file_ok. }
  unfold fcntl_result in Hx. rewrite (proj2 (Z.eqb_neq cmd F_DUPFD)), (proj2 (Z.eqb_neq cmd F_GETFD)), (proj2 (Z.eqb_neq cmd F_SETFD)),
    (proj2 (Z.eqb_neq cmd F_GETFL)), (proj2 (Z.eqb_neq cmd F_SETFL)) in Hx by done.
  destruct ((cmd =? F_GETOWN) || (cmd =? F_SETOWN)); [by apply Hx|]. cbn [orb] in Hx |- *.
  destruct ((cmd =? F_GETLK) || (cmd =? F_SETLK) || (cmd =? F_SETLKW)); by apply Hx.
Qed.

End Specs.
End DirsSpec.
