(* ===== verification/FilesHist.v ===== *)
(** * Histories of the file system

    Any sequence of calls leaves the tree and the descriptor table in order. *)

From S2P Require Import Prelude Queue Inode InodeTree InodeSpec InodeOps Files FilesSpec FilesOps FilesTree Dirs DirsSpec.

Module FilesHist.
Export FilesTree Dirs DirsSpec.
#[local] Open Scope cmd_scope.

Section Specs.
Context {H W : Type} {kmmI : Kmm H} {kmmL : KmmLaws H} {drvI : Drivers W} {drvL : DriverLaws W} {netI : Sockets W}.
Context {dirI : DirOps W} {dirL : DirLaws W}.
Context (getpid : Z).
Hypothesis pid_ok : getpid ≠ NO_HOLDER.
Implicit Types (v : vfs H W) (ext : Z → Z) (N : naming).

(** ** Sequences of calls *)

Inductive syscall : Type :=
| Open (path : list Z) (oflags : Z)
| Close (fd : Z)
| Read (fd : Z) (buf : buffer) (n : Z)
| Write (fd : Z) (buf : buffer) (n : Z)
| Seek (fd offset whence : Z)
| Ioctl (fd req arg : Z)
| Dup (fd : Z)
| Dup2 (fd1 fd2 : Z)
| Register (path : list Z) (fops pv : Z)
| Unregister (path : list Z)
| Mkdir (path : list Z) (mode : Z)
| Rmdir (path : list Z)
| Unlink (path : list Z)
| Fcntl (fd cmd arg : Z).

Definition run_syscall (c : syscall) : M (vfs H W) Z :=
  match c with
  | Open path oflags => open getpid path oflags
  | Close fd => close getpid fd
  | Read fd buf n => x <-- read fd buf n ;; ret (fst x)
  | Write fd buf n => write fd buf n
  | Seek fd offset whence => lseek fd offset whence
  | Ioctl fd req arg => ioctl fd req arg
  | Dup fd => dup getpid fd
  | Dup2 fd1 fd2 => dup2 getpid fd1 fd2
  | Register path fops pv => on_fs (register_driver getpid path fops pv)
  | Unregister path => on_fs (unregister_driver getpid path)
  | Mkdir path mode => mkdir getpid path mode
  | Rmdir path => rmdir getpid path
  | Unlink path => unlink getpid path
  | Fcntl fd cmd arg => fcntl getpid fd cmd arg
  end.

(** Calls on file descriptors with buffers of the size they say, on positions
    that do not overflow; nothing is unregistered above an open file, and no
    driver refuses to be unlinked. *)
Definition allowed v (c : syscall) : Prop :=
  let fd_ok fd := 0 ≤ fd < CONFIG_NFILE_DESCRIPTORS in
  match c with
  | Open _ _ => True
  | Close fd | Ioctl fd _ _ | Dup fd => fd_ok fd
  | Read fd buf n | Write fd buf n => fd_ok fd ∧ valid_buf buf n
  | Seek fd offset whence => fd_ok fd ∧
      ∀ f, fl_files v !! Z.to_nat fd = Some f → whence = SEEK_CUR → - 2 ^ 31 ≤ offset + f_pos f < 2 ^ 31
  | Dup2 fd1 fd2 => fd_ok fd1 ∧ fd_ok fd2
  | Register path _ _ => is_absolute path = true ∧ Z.of_nat (length path) < 2 ^ 30
  | Unregister path => is_absolute path = true ∧ nothing_open_below v (path_of path)
  | Mkdir path _ => Z.of_nat (length path) < 2 ^ 30
  | Rmdir _ => True
  | Unlink _ => unlink_accepted v
  | Fcntl fd cmd arg => fd_ok fd ∧ (cmd = F_DUPFD → 0 ≤ arg)
  end.

(** The states after some calls. *)
Inductive reach (v0 : vfs H W) : vfs H W → Prop :=
| reach_start : reach v0 v0
| reach_call v c r v' : reach v0 v → allowed v c → run_syscall c v = Ok (r, v') → reach v0 v'.

Lemma run_syscall_ok c v N ext : vfs_at getpid v N ext → (∀ a, ext a ≤ 32000) → allowed v c →
  wp (run_syscall c) (λ _ v', ∃ N', vfs_at getpid v' N' ext) v.
Proof.
  intros HV He. destruct c; simpl; intros HA.
  - eapply wp_mono; [by eapply wp_open|]. intros r v' [? _]. eauto.
  - eapply wp_mono; [by eapply wp_close|]. intros r v' [? _]. eauto.
  - destruct HA. rewrite wp_bind. eapply wp_mono; [by eapply wp_read|]. intros r v' [? _]. rewrite wp_ret. eauto.
  - destruct HA. eapply wp_mono; [by eapply wp_write|]. intros r v' [? _]. eauto.
  - destruct HA. eapply wp_mono; [by eapply wp_lseek|]. intros r v' [? _]. eauto.
  - eapply wp_mono; [by eapply wp_ioctl|]. intros r v' [? _]. eauto.
  - unfold dup. rewrite is_fd_range by done.
    eapply wp_mono; [by eapply (wp_dupfd getpid pid_ok fd 0)|]. intros r v' [? _]. eauto.
  - destruct HA. eapply wp_mono; [by eapply wp_dup2|]. intros r v' [? _]. eauto.
  - destruct HA. rewrite wp_on_fs. eapply wp_mono; [by eapply wp_register_at|]. intros r x (N' & ? & _). eauto.
  - destruct HA. rewrite wp_on_fs. eapply wp_mono; [by eapply wp_unregister_at|]. intros r x (N' & ? & _). eauto.
  - eapply wp_mono; [by eapply wp_mkdir|]. intros r v' (N' & ? & _). eauto.
  - eapply wp_mono; [by eapply wp_rmdir|]. intros r v' (N' & ? & _). eauto.
  - eapply wp_mono; [by eapply (wp_unlink_file getpid pid_ok path v N ext); [| |left]|]. intros r v' HR. by eapply unlink_result_at.
  - destruct HA. eapply wp_mono; [by eapply wp_fcntl|]. intros r v' [? _]. eauto.
Qed.

Lemma reach_ok v0 N ext v : vfs_at getpid v0 N ext → (∀ a, ext a ≤ 32000) → reach v0 v → ∃ N', vfs_at getpid v N' ext.
Proof.
  intros HV He HR. induction HR as [|v c r v' HR [N1 IH] HA E]; [eauto|].
  exact (wp_ok_inv _ _ _ _ _ (run_syscall_ok c v N1 ext IH He HA) E).
Qed.

(** ** A new system *)

Definition booted (h : H) (w : W) : vfs H W :=
  mkvfs (mkfsys ∅ NULL (mkisem 1 NO_HOLDER 0) h) 1 (replicate (Z.to_nat CONFIG_NFILE_DESCRIPTORS) no_file) w 0.

Lemma booted_at h w L : kmm_ok h L → dev_ok w → vfs_at getpid (booted h w) (λ _, None) (λ _, 0).
Proof.
  intros Hh Hw. split; [done|]. exists FNil, [], L. split; [|done]. split; simpl; try done.
  - split; simpl; try done. constructor.
  - right. split_and!; done.
  - intros f Hf Hn. repeat (apply elem_of_cons in Hf as [->|Hf]; [done|]). by apply elem_of_nil in Hf.
Qed.

End Specs.
End FilesHist.
