(* ===== verification/Boot.v ===== *)
(** * The descriptors a task starts with

    Models [sched/group/group_setupidlefiles.c] and
    [sched/group/group_setuptaskfiles.c]: the idle task opens [/dev/console] as
    descriptor 0 and duplicates it to 1 and 2, and a new task gets a duplicate
    of every open descriptor of its parent ([CONFIG_DEV_CONSOLE] is set,
    [CONFIG_FDCLONE_DISABLE] and [CONFIG_FDCLONE_STDIO] are not).

    The driver of the console is the operation table behind the inode; what is
    assumed of it is that its [open] succeeds ([opens]).  Socket descriptors and
    the streams of the C library are left out.  The identifier of the running
    task matters to the lock of the tree only; one identifier stands for the
    idle task and its child. *)

From Stdlib Require Import String Ascii.
From S2P Require Import Prelude Queue Inode InodeTree InodeSpec InodeOps Files FilesSpec FilesOps FilesHist.

Module Boot.
Export FilesHist.
#[local] Open Scope cmd_scope.

Definition ENFILE : Z := 23.

Definition codes (s : string) : list Z := (λ c, Z.of_N (Ascii.N_of_ascii c)) <$> String.list_ascii_of_string s.

Definition console_path : list Z := codes "/dev/console".

Section Code.
Context {H W : Type} `{Kmm H, Drivers W, Sockets W} (getpid : Z).
Implicit Types (v : vfs H W).

(** [group_setupidlefiles]: a new group has an empty table. *)
Definition group_setupidlefiles : M (vfs H W) Z :=
  files_initlist ;;;
  fd <-- open getpid console_path O_RDWR ;;
  if fd =? 0 then
    fs_dupfd2 getpid 0 1 ;;;
    fs_dupfd2 getpid 0 2 ;;;
    ret OK
  else
    (if 0 <? fd then close getpid fd ;;; ret tt else ret tt) ;;;
    ret (- ENFILE).

(** [file_dup2] where [filep1] is an entry of another table: [f1] is what the
    entry holds, and the second result what the call leaves there. *)
Definition file_dup2_from (f1 : file) (filep2 : Z) : M (vfs H W) (Z * file) :=
  if f_inode f1 =? NULL then r <-- fail_with EBADF ;; ret (r, f1)
  else
    _files_semtake ;;;
    r <-- _files_close getpid filep2 ;;
    if r <? 0 then _files_semgive ;;; r <-- fail_with (- r) ;; ret (r, f1)
    else
      let inode := f_inode f1 in
      on_fs (inode_addref getpid inode) ;;;
      setf filep2 (λ f, mkfile (f_oflags f1) (f_pos f1) inode (f_priv f)) ;;;
      n <-- on_fs (get inode) ;;
      x <-- match operation op_open n with
            | None => ret (r, f1)
            | Some m =>
                if INODE_IS_MOUNTPT n then
                  f2 <-- getf filep2 ;;
                  x <-- on_devs (mop_dup (i_mops (i_ops n)) f1 f2) ;;
                  setf filep2 (λ _, snd (snd x)) ;;;
                  ret (fst x, fst (snd x))
                else r <-- call filep2 m ;; ret (r, f1)
            end ;;
      if fst x <? 0 then
        f2 <-- getf filep2 ;;
        on_fs (inode_release getpid (f_inode f2)) ;;;
        setf filep2 (λ f, mkfile 0 0 NULL (f_priv f)) ;;;
        _files_semgive ;;;
        r <-- fail_with (- fst x) ;; ret (r, snd x)
      else
        _files_semgive ;;;
        ret (OK, snd x).

(** The loop of [sched_dupfiles] from entry [i] on; the table is the child's, the
    parent's is an argument and a result. *)
Fixpoint sched_dupfiles (n : nat) (i : Z) (parent : list file) : M (vfs H W) (list file) :=
  match n with
  | O => ret parent
  | S n =>
      match parent !! Z.to_nat i with
      | None => fail_ub OutOfBounds
      | Some f =>
          if f_inode f =? NULL then sched_dupfiles n (i + 1) parent
          else
            x <-- file_dup2_from f i ;;
            sched_dupfiles n (i + 1) (<[Z.to_nat i := snd x]> parent)
      end
  end.

(** [group_setuptaskfiles]: from the state in which the parent runs to the one in
    which the new task does; the result is the parent's table.  [file_dup2] locks
    the list of the running task, the parent, so that the semaphore of the state
    is the parent's until the loop ends; the child's, which [files_initlist]
    sets up, takes its place after it. *)
Definition group_setuptaskfiles : M (vfs H W) (list file) :=
  parent <-- gets fl_files ;;
  modify (upd_files (replicate (Z.to_nat CONFIG_NFILE_DESCRIPTORS) no_file)) ;;;
  parent <-- sched_dupfiles (Z.to_nat CONFIG_NFILE_DESCRIPTORS) 0 parent ;;
  files_initlist ;;;
  ret parent.

End Code.

Section Specs.
Context {H W : Type} {kmmI : Kmm H} {kmmL : KmmLaws H} {drvI : Drivers W} {drvL : DriverLaws W} {netI : Sockets W}.
Context (getpid : Z).
Hypothesis pid_ok : getpid ≠ NO_HOLDER.
Implicit Types (v : vfs H W) (T : forest) (D : list forest) (ext : Z → Z) (N : naming).

(** ** A driver that opens *)

(** [open] succeeds and leaves the file as it is. *)
Definition opens (m : file → M W (Z * file)) : Prop :=
  ∀ f w, dev_ok w → wp (m f) (λ x w', x = (OK, f) ∧ dev_ok w') w.

Definition ready (i : info) : Prop :=
  INODE_IS_DRIVER (node_of i NULL NULL) = true ∧ mountpt i = false ∧ ops i ≠ NULL ∧
  inode_checkflags (W := W) (node_of i NULL NULL) O_RDWR = OK ∧
  ∃ m, op_open (i_fops (W := W) (ops i)) = Some m ∧ opens m.

(** The path names such a driver, with the inode [a]. *)
Definition names_ready N (path : list Z) (a : Z) : Prop :=
  is_absolute path = true ∧ ∃ i, N (path_of path) = Some (a, i, []) ∧ ready i.

(** An entry open on the inode [a]. *)
Definition open_on (a : Z) : file := mkfile O_RDWR 0 a NULL.

Lemma wp_open_ready path a k v N ext : vfs_at getpid v N ext → (∀ b, ext b ≤ 32000) → names_ready N path a →
  free_entry (fl_files v) 0 = Some k →
  wp (open getpid path O_RDWR) (λ r v', vfs_at getpid v' N ext ∧ r = Z.of_nat k ∧
    fl_files v' = <[k := open_on a]> (fl_files v)) v.
Proof.
  intros HV He (Ha & i & Ei & Hd & Hm & Ho & Hc & m & Em & Hopen) Ek.
  pose proof HV as (_ & T & D & L & HO & _).
  eapply wp_mono; [by apply wp_open|]. intros r v' [HV' HR]. split; [done|]. unfold open_result in HR.
  rewrite Ha, Ei in HR. unfold open_inode in HR. rewrite Hd, (proj2 (Z.eqb_neq _ _) Ho), Hc, Ek in HR.
  change (OK <? 0) with false in HR. cbn [negb andb orb] in HR. destruct HR as (rp & ro & f1 & w & _ & Eo & _ & _ & _ & HR).
  unfold opener in Eo. rewrite Em, Hm in Eo.
  destruct (wp_ok_inv _ _ _ _ _ (Hopen (mkfile O_RDWR 0 a NULL) (devs v) (vo_dev _ _ _ _ _ _ HO)) Eo) as [Ex _].
  injection Ex as -> ->.
  change (OK <? 0) with false in HR. destruct HR as (-> & _ & ->). done.
Qed.

(** ** Duplicating an open file into a free entry *)

Lemma wp_close_free i f v (Q : Z → vfs H W → Prop) : 0 ≤ i → fl_files v !! Z.to_nat i = Some f → f_inode f = NULL →
  Q OK v → wp (_files_close getpid i) Q v.
Proof. intros Hi E Hf HQ. unfold _files_close. rewrite wp_bind, (wp_getf i f), Hf by done. done. Qed.

(** The entry is open on the inode; a reference to it is taken. *)
Lemma wp_addref_file a k f h v N ext (Q : unit → fsys H → Prop) :
  vfs_in getpid v N ext → is_Some (inodes (fs v) !! a) → 1 ≤ refs a (fl_files v) + ext a → ext a ≤ 32000 →
  fl_files v !! k = Some f → f_inode f = NULL → f_inode h = a → a ≠ NULL →
  (∀ x, vfs_in getpid (upd_files (<[k := h]> (fl_files v)) (upd_fs x v)) N ext →
    (∀ b n, inodes (fs v) !! b = Some n → ∃ n', inodes x !! b = Some n' ∧ i_ops n' = i_ops n ∧ i_flags n' = i_flags n) →
    Q tt x) →
  wp (inode_addref getpid a) Q (fs v).
Proof.
  intros (T & D & L & HO & HN) [n En] Hr He Ek Hf Hh Ha HQ. destruct (in_use _ _ _ _ _ _ _ _ HO En) as [Ec Hb].
  eapply wp_addref; [done|apply HO|apply HO|exact En|lia|]. apply HQ.
  - exists (at_crefs a (i_crefs n + 1) T), (at_crefs a (i_crefs n + 1) <$> D), L.
    split; [|intros ss; by rewrite names_at_crefs].
    eapply (set_file_ok _ (upd_fs (set_crefs a (i_crefs n + 1) (fs v)) v) _ _ _ (bump a ext)); [|exact Ek| | |apply HO].
    + eapply crefs_ok; [done|exact En|left; lia|lia|lia|rewrite bump_at; lia|intros b Nb; by apply bump_ne|].
      intros b. pose proof (vo_ext _ _ _ _ _ _ HO b). unfold bump, one. destruct (a =? b); lia.
    + intros _. simpl. rewrite Hh, lookup_alter_eq, En. eauto.
    + intros b Nb. rewrite Hf, Hh, (proj2 (Z.eqb_neq NULL b)) by done. unfold bump. simpl. lia.
  - intros b n' En'. simpl. destruct (decide (b = a)) as [->|Nb].
    + rewrite lookup_alter_eq, En'. by eexists.
    + rewrite lookup_alter_ne by done. eauto.
Qed.

(** The nodes behind a name. *)
Lemma named_node N path a i v ext : vfs_in getpid v N ext → N (path_of path) = Some (a, i, []) →
  a ≠ NULL ∧ ∃ n, inodes (fs v) !! a = Some n ∧ i_ops n = ops i ∧
    INODE_IS_MOUNTPT n = mountpt i.
Proof.
  intros (T & D & L & HO & HN) E. rewrite <- HN in E. unfold names in E.
  destruct (find T (path_of path)) as [[[b j] r]|] eqn:Ef; [|done]. injection E as -> <- ->.
  destruct (find_addr _ _ _ _ _ _ _ _ (vo_fs _ _ _ _ _ _ HO) Ef) as (Ha & _ & x & y & En). split; [done|].
  eexists. split; [exact En|]. done.
Qed.

(** What both forms of [file_dup2] do with a driver that opens. *)
Lemma wp_call_ready k m v N ext a (Q : Z → vfs H W → Prop) : vfs_in getpid v N ext → opens m →
  fl_files v !! k = Some (open_on a) →
  (∀ w, vfs_in getpid (upd_devs w v) N ext → Q OK (upd_devs w v)) → wp (call (Z.of_nat k) m) Q v.
Proof.
  intros HV Hm E HQ. pose proof HV as (T & D & L & HO & HN). unfold call.
  rewrite wp_bind, (wp_getf _ (open_on a)), wp_bind, wp_on_devs by (rewrite ?Nat2Z.id; done || lia).
  eapply wp_mono; [apply Hm, HO|]. intros x w [-> Hw]. cbn [fst snd].
  rewrite wp_bind, (wp_setf _ (open_on a)), wp_ret by (rewrite ?Nat2Z.id; done || lia).
  cbn [fl_files upd_devs]. rewrite Nat2Z.id, list_insert_id by done.
  assert (upd_files (fl_files v) (upd_devs w v) = upd_devs w v) as -> by done.
  apply HQ. by apply in_devs.
Qed.

Lemma wp_dup_from path a k f v N ext : vfs_at getpid v N ext → (∀ b, ext b ≤ 32000) → names_ready N path a →
  1 ≤ refs a (fl_files v) + ext a → fl_files v !! k = Some f → f_inode f = NULL → f_priv f = NULL →
  wp (file_dup2_from getpid (open_on a) (Z.of_nat k)) (λ x v', x = (OK, open_on a) ∧ vfs_at getpid v' N ext ∧
    fl_files v' = <[k := open_on a]> (fl_files v)) v.
Proof.
  intros [Hs HV] He (_ & i & Ei & _ & Hmp & Hops & _ & m & Em & Hm) Hr Ek Hf Hp.
  destruct (named_node _ _ _ _ _ _ HV Ei) as (Ha & n & En & Eo & Emp).
  unfold file_dup2_from. cbn [f_inode open_on]. rewrite (proj2 (Z.eqb_neq a NULL)) by done.
  rewrite wp_bind, wp_ftake, wp_bind by done.
  apply (wp_close_free _ f); [lia|by rewrite Nat2Z.id|done|]. change (OK <? 0) with false. cbv iota.
  set (v1 := upd_fsem _ v). rewrite wp_bind, wp_on_fs.
  eapply (wp_addref_file a k f (open_on a)); [by apply in_fsem|eauto|done|done|exact Ek|done|done|done|].
  intros x HX Hn. destruct (Hn _ _ En) as (n' & En' & Eo' & Ef').
  rewrite wp_bind, (wp_setf _ f), Nat2Z.id by (rewrite ?Nat2Z.id; done || lia). rewrite Hp.
  change (mkfile (f_oflags (open_on a)) (f_pos (open_on a)) a NULL) with (open_on a).
  rewrite wp_bind, (wp_iget_fs a n'), wp_bind by done.
  assert (operation op_open n' = Some m) as ->
    by (unfold operation; rewrite Eo', Eo, (proj2 (Z.eqb_neq _ _) Hops); exact Em).
  assert (INODE_IS_MOUNTPT n' = false) as -> by (transitivity (INODE_IS_MOUNTPT n); [unfold INODE_IS_MOUNTPT, INODE_IS_TYPE; by rewrite Ef'|congruence]).
  rewrite wp_bind. eapply (wp_call_ready k m _ N ext a); [exact HX|done| |].
  { apply list_lookup_insert_eq. by eapply lookup_lt_Some. }
  intros w HW. rewrite wp_ret. cbn [fst snd]. change (OK <? 0) with false. cbv iota.
  rewrite wp_bind, wp_fgive, wp_ret. split; [done|]. split; [split; [simpl; lia|by apply in_fsem]|done].
Qed.

(** The same within one table. *)
Lemma wp_dup_ready path a k f v N ext : vfs_at getpid v N ext → (∀ b, ext b ≤ 32000) → names_ready N path a →
  fl_files v !! 0%nat = Some (open_on a) → (0 < k < 8)%nat →
  fl_files v !! k = Some f → f_inode f = NULL → f_priv f = NULL →
  wp (fs_dupfd2 getpid 0 (Z.of_nat k)) (λ r v', r = OK ∧ vfs_at getpid v' N ext ∧
    fl_files v' = <[k := open_on a]> (fl_files v)) v.
Proof.
  intros [Hs HV] He (_ & i & Ei & _ & Hmp & Hops & _ & m & Em & Hm) E0 Hk Ek Hf Hp.
  destruct (named_node _ _ _ _ _ _ HV Ei) as (Ha & n & En & Eo & Emp).
  unfold fs_dupfd2, fs_getfilep. rewrite (is_fd_range 0), is_fd_small by (unfold CONFIG_NFILE_DESCRIPTORS; lia).
  cbn [negb]. rewrite !wp_bind, wp_ret, wp_bind, wp_ret, wp_bind, (wp_getf 0 (open_on a)) by done.
  cbn [f_inode open_on]. rewrite (proj2 (Z.eqb_neq a NULL)), (proj2 (Z.eqb_neq 0 (Z.of_nat k))) by (done || lia).
  unfold file_dup2. rewrite wp_bind, (wp_getf 0 (open_on a)) by done. cbn [f_inode open_on].
  rewrite (proj2 (Z.eqb_neq a NULL)) by done. rewrite wp_bind, wp_ftake, wp_bind by done.
  apply (wp_close_free _ f); [lia|by rewrite Nat2Z.id|done|]. change (OK <? 0) with false. cbv iota.
  set (v1 := upd_fsem _ v). rewrite wp_bind, (wp_getf 0 (open_on a)), wp_bind, wp_on_fs by done.
  assert (1 ≤ refs a (fl_files v) + ext a) as Hr.
  { pose proof HV as (T & D & L & HO & _). pose proof (vo_ext _ _ _ _ _ _ HO a).
    pose proof (refs_pos a (fl_files v) (open_on a)) as Hp1. specialize (Hp1 ltac:(by eapply list_elem_of_lookup_2) eq_refl). lia. }
  eapply (wp_addref_file a k f (open_on a)); [by apply in_fsem|eauto|done|done|exact Ek|done|done|done|].
  intros x HX Hn. destruct (Hn _ _ En) as (n' & En' & Eo' & Ef').
  rewrite wp_bind, (wp_getf 0 (open_on a)) by done.
  rewrite wp_bind, (wp_setf _ f), Nat2Z.id by (rewrite ?Nat2Z.id; done || lia). rewrite Hp.
  change (mkfile (f_oflags (open_on a)) (f_pos (open_on a)) a NULL) with (open_on a).
  rewrite wp_bind, (wp_iget_fs a n'), wp_bind by done.
  assert (operation op_open n' = Some m) as ->
    by (unfold operation; rewrite Eo', Eo, (proj2 (Z.eqb_neq _ _) Hops); exact Em).
  assert (INODE_IS_MOUNTPT n' = false) as -> by (transitivity (INODE_IS_MOUNTPT n); [unfold INODE_IS_MOUNTPT, INODE_IS_TYPE; by rewrite Ef'|congruence]).
  eapply (wp_call_ready k m _ N ext a); [exact HX|done| |].
  { apply list_lookup_insert_eq. by eapply lookup_lt_Some. }
  intros w HW. change (OK <? 0) with false. cbv iota.
  rewrite wp_bind, wp_fgive, wp_ret. split; [done|]. split; [split; [simpl; lia|by apply in_fsem]|done].
Qed.

(** ** The idle task *)

(** The table with three entries open on the console. *)
Definition std_files (a : Z) : list file := replicate 3 (open_on a) ++ replicate 5 no_file.

Lemma wp_setupidle a v N ext : vfs_in getpid v N ext → (∀ b, ext b ≤ 32000) → names_ready N console_path a →
  fl_files v = replicate 8 no_file →
  wp (group_setupidlefiles getpid) (λ r v', r = OK ∧ vfs_at getpid v' N ext ∧ fl_files v' = std_files a) v.
Proof.
  intros HV He Hc EF. unfold group_setupidlefiles, files_initlist. rewrite wp_bind, wp_modify, wp_bind.
  eapply wp_mono; [apply (wp_open_ready console_path a 0 (upd_fsem 1 v) N ext); [|done|done|]|].
  { split; [done|by apply in_fsem]. }
  { cbn [fl_files upd_fsem]. by rewrite EF. }
  intros fd v1 (HV1 & -> & E1). cbn [fl_files upd_fsem] in E1. rewrite EF in E1.
  change (Z.of_nat 0 =? 0) with true. cbv iota. rewrite wp_bind.
  eapply wp_mono; [apply (wp_dup_ready console_path a 1 no_file v1 N ext); first [done|lia|by rewrite E1]|].
  intros r1 v2 (-> & HV2 & E2). rewrite E1 in E2. rewrite wp_bind.
  eapply wp_mono; [apply (wp_dup_ready console_path a 2 no_file v2 N ext); first [done|lia|by rewrite E2]|].
  intros r2 v3 (-> & HV3 & E3). rewrite E2 in E3. rewrite wp_ret. done.
Qed.

(** ** A new task *)

(** Seen from another table, the references of this one are held elsewhere. *)
Definition with_table (l : list file) (ext : Z → Z) : Z → Z := λ b, ext b + refs b l.

Lemma refs_replicate b n : b ≠ NULL → refs b (replicate n no_file) = 0.
Proof.
  intros Hb. induction n as [|n IH]; [done|]. cbn [replicate refs foldr]. fold (refs b (replicate n no_file)).
  rewrite IH. cbn [f_inode no_file]. by rewrite (proj2 (Z.eqb_neq _ _)).
Qed.

Lemma switch_table v N ext : vfs_in getpid v N ext →
  vfs_in getpid (upd_files (replicate (Z.to_nat CONFIG_NFILE_DESCRIPTORS) no_file) v) N (with_table (fl_files v) ext).
Proof.
  intros (T & D & L & HO & HN). exists T, D, L. split; [|done]. pose proof HO as [H1 H2 H4 H5 H6 H7 H8 H10 H9].
  unfold with_table. split; cbn [fs fl_files devs upd_files]; try done.
  - intros b n En. rewrite refs_replicate by (by eapply ok_not_null). rewrite (H5 _ _ En). lia.
  - intros f [-> _]%elem_of_replicate. done.
  - intros b. specialize (H8 b). pose proof (refs_bounds b (fl_files v)). lia.
  - intros b Hb Hx. destruct (decide (ext b = 0)) as [E0|Hn]; [|by apply H10].
    assert (1 ≤ refs b (fl_files v)) as Hr by (pose proof (refs_bounds b (fl_files v)); lia).
    assert (∃ f, f ∈ fl_files v ∧ f_inode f = b) as (f & Hf & <-); [|by apply H6].
    clear -Hr. induction (fl_files v) as [|g l IH]; simpl in Hr; [lia|]. unfold one in Hr.
    destruct (Z.eqb_spec (f_inode g) b) as [<-|Hn]; [exists g; set_solver|].
    destruct IH as (f & ? & ?); [lia|]. exists f. set_solver.
Qed.

Lemma wp_sched_dupfiles path a par n i v N ext : vfs_at getpid v N ext → (∀ b, ext b ≤ 32000) → names_ready N path a →
  (i + n = 8)%nat → length par = 8%nat → Forall (λ f, f = open_on a ∨ f = no_file) par →
  (open_on a ∈ par → 1 ≤ ext a) → fl_files v = take i par ++ replicate n no_file →
  wp (sched_dupfiles getpid n (Z.of_nat i) par) (λ p v', p = par ∧ vfs_at getpid v' N ext ∧ fl_files v' = par) v.
Proof.
  intros HV He Hc Hin Hl HF Ha. revert i v HV Hin. induction n as [|n IH]; intros i v HV Hin EF; simpl.
  - rewrite wp_ret. split_and!; [done|done|]. rewrite EF, app_nil_r. apply take_ge. lia.
  - rewrite Nat2Z.id. destruct (lookup_lt_is_Some_2 par i ltac:(lia)) as [f Ef]. rewrite Ef.
    assert (length (take i par) = i) as Ht by (rewrite length_take; lia).
    assert (take (S i) par = take i par ++ [f]) as Es by (by apply take_S_r).
    replace (Z.of_nat i + 1) with (Z.of_nat (S i)) by lia.
    destruct (proj1 (Forall_lookup _ _) HF i f Ef) as [->| ->].
    + assert (a ≠ NULL) as Hn by (destruct HV as [_ HV]; destruct Hc as (_ & j & Ej & _); by apply (named_node _ _ _ _ _ _ HV Ej)).
      cbn [f_inode open_on]. rewrite (proj2 (Z.eqb_neq a NULL)) by done. rewrite wp_bind.
      assert (fl_files v !! i = Some no_file) as Ei.
      { rewrite EF, lookup_app_r, Ht, Nat.sub_diag by lia. done. }
      eapply wp_mono; [apply (wp_dup_from path a i no_file v N ext); try done|].
      { pose proof (refs_bounds a (fl_files v)). pose proof (Ha (list_elem_of_lookup_2 _ _ _ Ef)). lia. }
      intros x v1 (-> & HV1 & E1). cbn [snd]. rewrite ?Nat2Z.id, list_insert_id by done. apply IH; [done|lia|].
      rewrite E1, EF, Es, insert_app_r_alt, Ht, Nat.sub_diag by lia. simpl. by rewrite <- (assoc_L (++)).
    + change (f_inode no_file =? NULL) with true. cbv iota. apply IH; [done|lia|].
      rewrite EF, Es, <- (assoc_L (++)). done.
Qed.

(** The new task has the three entries of its parent; the parent's references
    are held elsewhere. *)
Lemma wp_setuptask a v N ext : vfs_at getpid v N ext → (∀ b, ext b ≤ 31000) → names_ready N console_path a →
  fl_files v = std_files a →
  wp (group_setuptaskfiles getpid) (λ p v', p = std_files a ∧ vfs_at getpid v' N (with_table (std_files a) ext) ∧
    fl_files v' = std_files a) v.
Proof.
  intros [Hs HV] He Hc EF. unfold group_setuptaskfiles. rewrite wp_bind, wp_gets, wp_bind, wp_modify, wp_bind, EF.
  pose proof (switch_table _ _ _ HV) as HW. rewrite EF in HW.
  eapply wp_mono; [apply (wp_sched_dupfiles console_path a (std_files a) 8 0 _ N (with_table (std_files a) ext))|].
  - split; [exact Hs|exact HW].
  - intros b. specialize (He b). pose proof (refs_bounds b (std_files a)) as Hr.
    change (Z.of_nat (length (std_files a))) with 8 in Hr. unfold with_table. lia.
  - done.
  - done.
  - done.
  - unfold std_files. repeat (constructor; [by (left + right)|]). constructor.
  - intros Hin. pose proof (refs_pos a (std_files a) (open_on a) Hin eq_refl). unfold with_table.
    destruct HV as (T & D & L & HO & _). pose proof (vo_ext _ _ _ _ _ _ HO a). lia.
  - done.
  - intros p v1 (-> & [_ HV1] & E1). unfold files_initlist. rewrite wp_bind, wp_modify, wp_ret.
    split_and!; [done| |done]. split; [done|by apply in_fsem].
Qed.

End Specs.
End Boot.
