(* ===== verification/Devices.v ===== *)
(** * From the program to the pins through the file system

    The drivers of the board behind the file system: [nsh_archinitialize]
    registers them, [dogfeed_main] opens them, and a [write] to a descriptor is
    the write of the driver that Feeder.v works with.

    The serial driver behind [/dev/console], which start-up registers before the
    first task runs, is a parameter ([Console]). *)

From Stdlib Require Import String Ascii.
From stdpp Require Import strings.
From S2P Require Import Prelude Gpio Board Dogfeed Feeder Queue Inode InodeTree InodeSpec InodeOps Files FilesSpec FilesOps FilesHist Boot.

Module Devices.
Import Gpio Board.
Import Dogfeed(dev, Led, Display, Valve, Motor).
Import Feeder(perform, replay, descriptors, mkfds, fd_led, fd_button, fd_display, fd_valve, fd_motor, opened).
Export Boot.
#[local] Open Scope cmd_scope.

(** ** The operation tables *)

Inductive device : Type := Out (d : dev) | Buttons.

(** The addresses of [leds_ops], [display_ops], [valve_ops], [motor_ops] and
    [button_ops]; the linker chooses them, all that matters is that they differ
    and are not null. *)
Definition ops_addr (d : device) : Z :=
  match d with Out Led => 1 | Out Display => 2 | Out Valve => 3 | Out Motor => 4 | Buttons => 5 end.

Definition all_devices : list device := [Out Led; Out Display; Out Valve; Out Motor; Buttons].

(** The address of the serial driver's operations. *)
Definition console_ops : Z := 6.

Definition dev_path (d : device) : list Z :=
  codes match d with
        | Out Led => "/dev/leds"
        | Out Display => "/dev/display"
        | Out Valve => "/dev/valve"
        | Out Motor => "/dev/motor"
        | Buttons => "/dev/buttons"
        end.

(** The serial driver, and what is relied on: it can be read and written, [open]
    succeeds and leaves the file as it is, and every operation leaves the inode
    of the file alone. *)
Class Console (hw : Type) : Type := g_serialops : file_operations hw.

Definition keeps {hw A} (m : file → M hw (A * file)) : Prop := ∀ f w, wp (m f) (λ x _, f_inode x.2 = f_inode f) w.

Class ConsoleLaws (hw : Type) `{Console hw} : Prop := {
  uart_transfers : is_Some (op_read g_serialops) ∧ is_Some (op_write g_serialops);
  uart_open : ∃ m, op_open g_serialops = Some m ∧ ∀ f w, wp (m f) (λ x _, x = (OK, f)) w;
  uart_close m : op_close g_serialops = Some m → keeps m;
  uart_read m buf n : op_read g_serialops = Some m → valid_buf buf n → keeps (λ f, m f buf n);
  uart_write m buf n : op_write g_serialops = Some m → valid_buf buf n → keeps (λ f, m f buf n);
  uart_seek m o wh : op_seek g_serialops = Some m → keeps (λ f, m f o wh);
  uart_ioctl m req arg : op_ioctl g_serialops = Some m → keeps (λ f, m f req arg)
}.

Section Devices.
Context {hw : Type} {gpioI : Stm32Gpio hw} {consoleI : Console hw}.

Definition dev_write (d : device) : buffer → Z → hw → res (Z * hw) :=
  match d with
  | Out Led => leds_write
  | Out Display => display_write
  | Out Valve => valve_write
  | Out Motor => motor_write
  | Buttons => button_write
  end.

Definition dev_read (d : device) (buf : buffer) (n : Z) (h : hw) : res (Z * buffer) :=
  match d with
  | Out Led => leds_read buf n h
  | Out Display => display_read buf n
  | Out Valve => valve_read buf n
  | Out Motor => motor_read buf n
  | Buttons => button_read buf n h
  end.

(** The [open] and [close] of all five drivers: nothing to do. *)
Definition dev_open (f : file) : M hw (Z * file) := ret (OK, f).

Definition board_ops (d : device) : file_operations hw :=
  mkfops (Some dev_open) (Some dev_open)
    (Some (λ f buf n h, res_bind (dev_read d buf n h) (λ '(r, b), Ok ((r, b, f), h))))
    (Some (λ f buf n h, res_bind (dev_write d buf n h) (λ '(r, h), Ok ((r, f), h))))
    None None.

Definition no_ops : file_operations hw := mkfops None None None None None None.

(** No file system is mounted. *)
Definition no_mops : mountpt_operations hw :=
  mkmops (λ f _ _ _, ret (- ENOSYS, f)) (λ f1 f2, ret (- ENOSYS, (f1, f2))).

#[export] Instance board_drivers : Drivers hw := {
  i_fops p := match list_find (λ d, ops_addr d = p) all_devices with
              | Some (_, d) => board_ops d
              | None => if p =? console_ops then g_serialops else no_ops
              end;
  i_mops _ := no_mops
}.

(** No driver of the board has an [unlink]. *)
#[export] Instance board_dirs : DirOps hw := {
  fop_unlink _ := None;
  bop_unlink _ := None;
  mop_mkdir _ := None;
  mop_rmdir _ := None;
  mop_unlink _ := None
}.

Lemma i_fops_addr d : i_fops (ops_addr d) = board_ops d.
Proof. by destruct d as [[]|]. Qed.

Lemma i_fops_console : i_fops console_ops = g_serialops.
Proof. done. Qed.

Lemma i_fops_cases p : (∃ d, i_fops p = board_ops d) ∨ i_fops p = g_serialops ∨ i_fops p = no_ops.
Proof.
  unfold i_fops, board_drivers.
  match goal with |- context [list_find ?P ?l] => destruct (list_find P l) as [[? d]|] end; [left; by exists d|right].
  destruct (p =? console_ops); [by left|by right].
Qed.

(** ** The drivers keep their promises *)

Lemma with_byte_total {A} (buf : buffer) n (bad : A) k : valid_buf buf n → (∀ c, ∃ a, k c = Ok a) →
  ∃ a, with_byte buf n bad k = Ok a.
Proof.
  intros [Hn Hb] Hk. unfold with_byte. destruct buf as [b|]; [|eauto]. destruct (Z.ltb_spec n 1); [eauto|].
  destruct b as [|c b]; [simpl in Hb; lia|]. apply Hk.
Qed.

Context {gpioL : Stm32GpioLaws hw} {consoleL : ConsoleLaws hw}.

Lemma display_total buf n h : valid_buf buf n → ∃ x, display_write buf n h = Ok x.
Proof.
  intros Hb. apply with_byte_total; [done|]. intros c. cbv zeta. destruct (Z.leb_spec 100 (u8 c)); [eauto|].
  pose proof (u8_bound c). destruct (decimal_digits (u8 c)) as (E1 & E2 & H1 & H2); [lia|]. rewrite E1, E2.
  destruct (digit_tables (u8 c / 10) H1) as [(d1 & L1 & _) _]. destruct (digit_tables (u8 c mod 10) H2) as [_ (d2 & L2 & _)].
  rewrite L1, L2. eauto.
Qed.

Lemma dev_write_total d buf n h : valid_buf buf n → ∃ r h', dev_write d buf n h = Ok (r, h').
Proof.
  intros Hb. assert (∃ x, dev_write d buf n h = Ok x) as [[r h'] E]; [|eauto].
  destruct d as [[]|]; simpl; [| by apply display_total| | |eauto];
    (apply with_byte_total; [done|eauto]).
Qed.

Lemma dev_read_total d buf n h : valid_buf buf n → ∃ r b, dev_read d buf n h = Ok (r, b).
Proof.
  intros Hb. assert (∃ x, dev_read d buf n h = Ok x) as [[r b] E]; [|eauto].
  destruct d as [[]|]; simpl; try (apply with_byte_total; [done|eauto]);
    (unfold valve_read, motor_read; destruct buf; [destruct (n <? 1); eauto|eauto]).
Qed.

Lemma keeps_wp {A} (m : file → M hw (A * file)) f w : keeps m →
  wp (m f) (λ x w', True ∧ f_inode x.2 = f_inode f) w.
Proof. intros Hm. eapply wp_mono; [apply Hm|]. by intros x w' ->. Qed.

#[local] Ltac at_driver E := let d := fresh "d" in let Ep := fresh "Ep" in
  match type of E with context [i_fops ?p] =>
    destruct (i_fops_cases p) as [[d Ep]|[Ep|Ep]]; rewrite Ep in E;
      [try discriminate E; injection E as <-| |discriminate E]
  end.

#[export] Instance board_driver_laws : DriverLaws hw.
Proof.
  apply (Build_DriverLaws hw board_drivers (λ _, True)).
  - intros p m f w E _. at_driver E; [done|]. apply keeps_wp. intros g x.
    destruct uart_open as (m' & E' & Hm). rewrite E' in E. injection E as <-.
    eapply wp_mono; [apply Hm|]. by intros y z ->.
  - done.
  - done.
  - intros p m f w E _. at_driver E; [done|]. by apply keeps_wp, uart_close.
  - intros p m f buf n w E Hb _. at_driver E.
    + destruct (dev_read_total d buf n w Hb) as (r & b & Er). unfold wp. by rewrite Er.
    + by apply (keeps_wp (λ f, m f buf n)), uart_read.
  - intros p m f buf n w E Hb _. at_driver E.
    + destruct (dev_write_total d buf n w Hb) as (r & h' & Er). unfold wp. by rewrite Er.
    + by apply (keeps_wp (λ f, m f buf n)), uart_write.
  - intros p m f o wh w E _. at_driver E. by apply (keeps_wp (λ f, m f o wh)), uart_seek.
  - intros p m f req arg w E _. at_driver E. by apply (keeps_wp (λ f, m f req arg)), uart_ioctl.
Defined.

#[export] Instance board_dir_laws : DirLaws hw.
Proof. by apply (Build_DirLaws hw board_drivers board_driver_laws board_dirs). Qed.


(** ** Start-up *)

Section Startup.
Context {H : Type} {kmmI : Kmm H} {kmmL : KmmLaws H} {netI : Sockets hw} (getpid : Z).

(** A driver configures its pins and registers; a failure is only reported. *)
Definition up (f : hw → hw * registration) (ops : Z) : M (vfs H hw) unit :=
  h <-- gets devs ;;
  let x := f h in
  modify (upd_devs x.1) ;;;
  r <-- on_fs (register_driver getpid (codes x.2.1) ops NULL) ;;
  ret tt.

Definition archinitialize : M (vfs H hw) unit :=
  up up_led (ops_addr (Out Led)) ;;;
  up up_display (ops_addr (Out Display)) ;;;
  up up_button (ops_addr Buttons) ;;;
  up up_valve (ops_addr (Out Valve)) ;;;
  up up_motor (ops_addr (Out Motor)).

(** The calls of [open] in [dogfeed_main], up to the first that fails. *)
Definition open_devices : M (vfs H hw) (option descriptors) :=
  fd_led <-- open getpid (dev_path (Out Led)) O_RDWR ;;
  if fd_led <? 0 then ret None else
  fd_button <-- open getpid (dev_path Buttons) O_RDWR ;;
  if fd_button <? 0 then ret None else
  fd_display <-- open getpid (dev_path (Out Display)) O_RDWR ;;
  if fd_display <? 0 then ret None else
  fd_valve <-- open getpid (dev_path (Out Valve)) O_RDWR ;;
  if fd_valve <? 0 then ret None else
  fd_motor <-- open getpid (dev_path (Out Motor)) O_RDWR ;;
  if fd_motor <? 0 then ret None else
  ret (Some (mkfds fd_led fd_button fd_display fd_valve fd_motor)).

Definition fd_of (fds : descriptors) (d : dev) : Z :=
  match d with Led => fd_led fds | Display => fd_display fds | Valve => fd_valve fds | Motor => fd_motor fds end.

(** Writes of one byte, the results ignored. *)
Fixpoint run_writes (fds : descriptors) (es : list (dev * Z)) : M (vfs H hw) unit :=
  match es with
  | [] => ret tt
  | e :: es => r <-- write (fd_of fds e.1) (Some [e.2]) 1 ;; run_writes fds es
  end.

(** ** What the paths name *)

Definition driver_at (d : device) (a : Z) : Z * info * list name :=
  (a, mkinfo 0 0 (ops_addr d) NULL (default [] (last (path_of (dev_path d)))), []).

(** A device path names its driver, or nothing. *)
Definition devices_named (N : naming) : Prop :=
  ∀ d, N (path_of (dev_path d)) = None ∨ ∃ a, N (path_of (dev_path d)) = Some (driver_at d a).

Lemma dev_path_inj d d' : path_of (dev_path d) `prefix_of` path_of (dev_path d') → d = d'.
Proof.
  destruct d as [[]|], d' as [[]|]; intros [l E]; try done; vm_compute in E; discriminate.
Qed.

Lemma register_named N N' d r : devices_named N →
  register_names N N' (path_of (dev_path d)) (ops_addr d) NULL r → devices_named N'.
Proof.
  intros HN HR d'. unfold register_names in HR. destruct (HN d) as [E|[a E]]; rewrite E in HR.
  - destruct HR as [HR HO]. destruct (decide (path_of (dev_path d') = path_of (dev_path d))) as [Ed|Nd].
    + assert (d' = d) as -> by (apply dev_path_inj; by rewrite Ed).
      destruct HR as [[_ [p Ep]]|[_ En]]; [right; by exists p|by left].
    + specialize (HO _ Nd). destruct (HN d') as [E'|[a E']]; rewrite E' in HO; [|by right; exists a].
      destruct (N' (path_of (dev_path d'))) as [x|] eqn:Ex; [|by left].
      destruct (HO x eq_refl) as [Hp _]. apply dev_path_inj in Hp. by subst.
  - destruct HR as [_ HR]. rewrite HR. apply HN.
Qed.

Hypothesis pid_ok : getpid ≠ NO_HOLDER.
Implicit Types (v : vfs H hw) (N : naming) (ext : Z → Z).

Lemma dev_path_ok d : is_absolute (dev_path d) = true ∧ Z.of_nat (length (dev_path d)) < 2 ^ 30.
Proof. by destruct d as [[]|]. Qed.

Lemma wp_up f d v N ext : vfs_at getpid v N ext → devices_named N → (∀ h, codes (f h).2.1 = dev_path d) →
  wp (up f (ops_addr d)) (λ _ v', ∃ N', vfs_at getpid v' N' ext ∧ devices_named N' ∧ devs v' = (f (devs v)).1 ∧
    fl_files v' = fl_files v) v.
Proof.
  intros [Hs HV] HN Hf. unfold up. rewrite wp_bind, wp_gets, wp_bind, wp_modify, wp_bind, Hf, wp_on_fs.
  destruct (dev_path_ok d) as [Ha Hlen].
  eapply wp_mono; [eapply (wp_register_at getpid pid_ok (dev_path d) (ops_addr d) NULL (upd_devs _ v) N ext); [|done|done]|].
  - split; [done|by apply in_devs].
  - intros r x (N' & HV' & HR). rewrite wp_ret. exists N'. split_and!; [done| |done|done]. by eapply register_named.
Qed.

Lemma wp_archinitialize v N ext : vfs_at getpid v N ext → devices_named N →
  wp archinitialize (λ _ v', ∃ N', vfs_at getpid v' N' ext ∧ devices_named N' ∧
    devs v' = (nsh_archinitialize (devs v)).1 ∧ fl_files v' = fl_files v) v.
Proof.
  intros HV HN. unfold archinitialize. rewrite wp_bind.
  eapply wp_mono; [by apply (wp_up up_led (Out Led) v N ext)|]. intros [] v1 (N1 & HV1 & HN1 & D1 & F1). rewrite wp_bind.
  eapply wp_mono; [by apply (wp_up up_display (Out Display) v1 N1 ext)|]. intros [] v2 (N2 & HV2 & HN2 & D2 & F2). rewrite wp_bind.
  eapply wp_mono; [by apply (wp_up up_button Buttons v2 N2 ext)|]. intros [] v3 (N3 & HV3 & HN3 & D3 & F3). rewrite wp_bind.
  eapply wp_mono; [by apply (wp_up up_valve (Out Valve) v3 N3 ext)|]. intros [] v4 (N4 & HV4 & HN4 & D4 & F4).
  eapply wp_mono; [by apply (wp_up up_motor (Out Motor) v4 N4 ext)|]. intros [] v5 (N5 & HV5 & HN5 & D5 & F5).
  exists N5. split_and!; [done|done| |congruence]. rewrite D5, D4, D3, D2, D1. done.
Qed.

(** ** Opening the devices *)

(** The console is registered where the idle task looks for it. *)
Definition console_at (a : Z) : Z * info * list name :=
  (a, mkinfo 0 0 console_ops NULL (default [] (last (path_of console_path))), []).

Lemma console_ready N a : N (path_of console_path) = Some (console_at a) → names_ready N console_path a.
Proof.
  intros E. split; [done|]. eexists. split; [exact E|]. split_and!; try done.
  - unfold inode_checkflags. cbn [i_ops node_of ops]. rewrite i_fops_console.
    destruct uart_transfers as [[mr ->] [mw ->]]. done.
  - cbn [ops]. rewrite i_fops_console. destruct uart_open as (m & Em & Hm). exists m. split; [done|].
    intros f w _. eapply wp_mono; [apply Hm|]. done.
Qed.

(** The first [k] entries are open, the others free. *)
Definition filled (k : nat) v : Prop :=
  ∃ l m, fl_files v = l ++ replicate m no_file ∧ length l = k ∧ (k + m = 8)%nat ∧ Forall (λ f, f_inode f ≠ NULL) l.

Lemma free_entry_filled k v : filled k v → (k < 8)%nat → free_entry (fl_files v) 0 = Some k.
Proof.
  intros (l & m & E & Hk & Hm & Hl) Hlt. destruct m as [|m]; [lia|]. rewrite E. unfold free_entry. rewrite drop_0. simpl.
  assert (list_find (λ f, f_inode f = NULL) (l ++ no_file :: replicate m no_file) = Some (k, no_file)) as ->; [|done].
  apply list_find_Some. split_and!.
  - rewrite lookup_app_r by lia. by rewrite Hk, Nat.sub_diag.
  - done.
  - intros j y Hj Hlt'. rewrite lookup_app_l in Hj by lia. by eapply (Forall_lookup_1 _ _ _ _ Hl).
Qed.

Lemma filled_insert k v v' f : filled k v → (k < 8)%nat → f_inode f ≠ NULL → fl_files v' = <[k := f]> (fl_files v) →
  filled (S k) v'.
Proof.
  intros (l & m & E & Hk & Hm & Hl) Hlt Hf Ev'. destruct m as [|m]; [lia|]. exists (l ++ [f]), m.
  rewrite Ev', E, <- Hk. split_and!; [|by rewrite length_app; simpl; lia|lia|].
  - replace (length l) with (length l + 0)%nat by lia. rewrite insert_app_r. simpl. by rewrite <- (assoc_L (++)).
  - apply Forall_app. split; [done|]. by apply Forall_singleton.
Qed.

(** The descriptor is open on the driver. *)
Definition conn v N (fd : Z) (d : device) : Prop :=
  0 ≤ fd < CONFIG_NFILE_DESCRIPTORS ∧
  ∃ f, fl_files v !! Z.to_nat fd = Some f ∧ f_oflags f = O_RDWR ∧ N (path_of (dev_path d)) = Some (driver_at d (f_inode f)).

Lemma named_inode v N ext ss a i rest : vfs_at getpid v N ext → N ss = Some (a, i, rest) →
  a ≠ NULL ∧ ∃ n, inodes (fs v) !! a = Some n ∧ i_ops n = ops i.
Proof.
  intros (_ & T & D & L & HO & HN) E. rewrite <- HN in E. apply names_find in E as (j & E & ->).
  destruct (find_addr _ _ _ _ _ _ _ _ (vo_fs _ _ _ _ _ _ HO) E) as (Ha & _ & x & y & En). eauto.
Qed.

(** [open] on a registered device takes the next entry. *)
Lemma open_named v N ext d a k r v' : vfs_at getpid v N ext → filled k v → (k < 8)%nat →
  N (path_of (dev_path d)) = Some (driver_at d a) → open_result v N (dev_path d) O_RDWR r v' →
  r = Z.of_nat k ∧ devs v' = devs v ∧ fl_files v' = <[k := mkfile O_RDWR 0 a NULL]> (fl_files v).
Proof.
  intros HV Hk Hlt Ea HR. unfold open_result in HR. rewrite (proj1 (dev_path_ok d)), Ea in HR. unfold driver_at, open_inode in HR.
  cbn [flags ops node_of] in HR.
  change (INODE_IS_DRIVER _) with true in HR. assert ((ops_addr d =? NULL) = false) as Eo by (by destruct d as [[]|]).
  rewrite Eo in HR. cbn [negb andb orb] in HR. unfold inode_checkflags in HR. cbn [i_ops node_of ops] in HR.
  rewrite i_fops_addr, (free_entry_filled k) in HR by done. simpl in HR.
  destruct HR as (rp & ro & f1 & w & _ & Ho & Hd & _ & _ & HR). unfold opener in Ho. cbn [ops] in Ho.
  rewrite i_fops_addr in Ho. cbn in Ho. injection Ho as <- <- <-. simpl in HR. destruct HR as (-> & _ & HF). done.
Qed.

Lemma wp_open_device d k v N ext : vfs_at getpid v N ext → devices_named N → (∀ a, ext a ≤ 32000) → filled k v → (k < 8)%nat →
  wp (open getpid (dev_path d) O_RDWR) (λ r v', vfs_at getpid v' N ext ∧ devs v' = devs v ∧
    if r <? 0 then N (path_of (dev_path d)) = None
    else r = Z.of_nat k ∧ filled (S k) v' ∧ conn v' N r d ∧ (∀ fd d', conn v N fd d' → conn v' N fd d') ∧
      take k (fl_files v') = take k (fl_files v)) v.
Proof.
  intros HV HN He Hk Hlt. eapply wp_mono; [by apply wp_open|]. intros r v' [HV' HR]. split; [done|].
  destruct (HN d) as [E|[a E]].
  - unfold open_result in HR. rewrite (proj1 (dev_path_ok d)), E in HR. destruct HR as (-> & _ & _ & _ & ->). done.
  - destruct (open_named _ _ _ _ _ _ _ _ HV Hk Hlt E HR) as (-> & -> & EF). split; [done|].
    rewrite (proj2 (Z.ltb_ge _ _)) by lia. destruct (named_inode _ _ _ _ _ _ _ HV E) as [Ha _].
    pose proof Hk as (l & m & El & Hl & Hm & HF).
    assert (length (fl_files v) = 8%nat) as Hlen by (rewrite El, length_app, length_replicate; lia).
    split_and!; [done|eapply (filled_insert k v); [done|done| |exact EF]; done| | |].
    + split; [unfold CONFIG_NFILE_DESCRIPTORS; lia|]. eexists. rewrite Nat2Z.id, EF, list_lookup_insert_eq by lia. done.
    + intros fd d' (Hfd & f & Ef & Hfl & Hn). split; [done|]. exists f. split_and!; [|done|done].
      rewrite EF, list_lookup_insert_ne; [done|]. intros Ek. destruct (named_inode _ _ _ _ _ _ _ HV Hn) as [Hf _]. apply Hf.
      rewrite El, <- Ek, lookup_app_r in Ef by lia. apply lookup_replicate in Ef as [-> _]. done.
    + rewrite EF. by apply take_insert_ge.
Qed.

Lemma take_le {A} (j k : nat) (l l' : list A) : (j ≤ k)%nat → take k l = take k l' → take j l = take j l'.
Proof. intros Hjk E. rewrite <- (Nat.min_l j k), <- !take_take by done. by rewrite E. Qed.

(** The five devices are open. *)
Definition connected v N (fds : descriptors) : Prop :=
  (∀ d, conn v N (fd_of fds d) (Out d)) ∧ conn v N (fd_button fds) Buttons.

Lemma wp_open_devices v N ext : vfs_at getpid v N ext → devices_named N → (∀ a, ext a ≤ 32000) → filled 3 v →
  wp open_devices (λ o v', vfs_at getpid v' N ext ∧ devs v' = devs v ∧
    match o with
    | None => ∃ d, N (path_of (dev_path d)) = None
    | Some fds => fds = mkfds 3 4 5 6 7 ∧ connected v' N fds ∧ take 3 (fl_files v') = take 3 (fl_files v)
    end) v.
Proof.
  intros HV HN He Hk. unfold open_devices. rewrite wp_bind.
  eapply wp_mono; [apply (wp_open_device (Out Led) 3 v N ext); first [done|lia]|]. intros r1 v1 (HV1 & D1 & R1). cbv beta.
  destruct (r1 <? 0); [rewrite wp_ret; by eauto|]. destruct R1 as (-> & K1 & C1 & _ & T1). rewrite wp_bind.
  eapply wp_mono; [apply (wp_open_device Buttons 4 v1 N ext); first [done|lia]|]. intros r2 v2 (HV2 & D2 & R2). cbv beta.
  destruct (r2 <? 0); [rewrite wp_ret; split_and!; [done|congruence|eauto]|]. destruct R2 as (-> & K2 & C2 & P2 & T2). rewrite wp_bind.
  eapply wp_mono; [apply (wp_open_device (Out Display) 5 v2 N ext); first [done|lia]|]. intros r3 v3 (HV3 & D3 & R3). cbv beta.
  destruct (r3 <? 0); [rewrite wp_ret; split_and!; [done|congruence|eauto]|]. destruct R3 as (-> & K3 & C3 & P3 & T3). rewrite wp_bind.
  eapply wp_mono; [apply (wp_open_device (Out Valve) 6 v3 N ext); first [done|lia]|]. intros r4 v4 (HV4 & D4 & R4). cbv beta.
  destruct (r4 <? 0); [rewrite wp_ret; split_and!; [done|congruence|eauto]|]. destruct R4 as (-> & K4 & C4 & P4 & T4). rewrite wp_bind.
  eapply wp_mono; [apply (wp_open_device (Out Motor) 7 v4 N ext); first [done|lia]|]. intros r5 v5 (HV5 & D5 & R5). cbv beta.
  destruct (r5 <? 0); [rewrite wp_ret; split_and!; [done|congruence|eauto]|]. destruct R5 as (-> & K5 & C5 & P5 & T5).
  rewrite wp_ret. split_and!; [done|congruence|done| |].
  - split; [intros []|]; simpl; auto 10.
  - rewrite (take_le 3 7 _ _ ltac:(lia) T5), (take_le 3 6 _ _ ltac:(lia) T4), (take_le 3 5 _ _ ltac:(lia) T3).
    by rewrite (take_le 3 4 _ _ ltac:(lia) T2).
Qed.

(** ** Transfers *)

Lemma conn_reaches {A} (op : file_operations hw → option A) v N ext fd d f : vfs_at getpid v N ext →
  fl_files v !! Z.to_nat fd = Some f → N (path_of (dev_path d)) = Some (driver_at d (f_inode f)) →
  reaches op f v = op (board_ops d).
Proof.
  intros HV Ef HN. destruct (named_inode _ _ _ _ _ _ _ HV HN) as (Hn & n & En & Eo).
  unfold reaches. rewrite (proj2 (Z.eqb_neq _ _)), En by done. simpl. unfold operation. rewrite Eo. cbn [ops].
  assert ((ops_addr d =? NULL) = false) as -> by (by destruct d as [[]|]). by rewrite i_fops_addr.
Qed.

Lemma transferred_same v fd f w rw r v' : fl_files v !! Z.to_nat fd = Some f → 0 ≤ rw →
  transferred v fd f w rw r v' → r = rw ∧ v' = upd_devs w v.
Proof.
  intros Ef Hrw (E1 & E2 & E3 & E4 & E5 & E6). rewrite (proj2 (Z.ltb_ge _ _)) in E5, E6 by done.
  rewrite list_insert_id in E1 by done. split; [done|]. destruct v, v'; unfold upd_devs; simpl in *; by subst.
Qed.

(** A write to the descriptor is a write to the device. *)
Lemma conn_write v N ext fd d buf n r h : vfs_at getpid v N ext → conn v N fd d → valid_buf buf n →
  dev_write d buf n (devs v) = Ok (r, h) → 0 ≤ r → write fd buf n v = Ok (r, upd_devs h v).
Proof.
  intros HV (Hfd & f & Ef & Hfl & HN) Hb Ed Hr.
  destruct (wp_run _ _ _ (wp_write getpid fd buf n v N ext HV Hfd Hb)) as (r' & v' & E & _ & HW).
  specialize (HW f Ef). rewrite Hfl, (conn_reaches op_write _ _ _ _ _ _ HV Ef HN) in HW. simpl in HW.
  destruct HW as (rw & f1 & w & Em & HT). rewrite Ed in Em. simpl in Em. injection Em as <- <- <-.
  destruct (transferred_same _ _ _ _ _ _ _ Ef Hr HT) as [-> ->]. done.
Qed.

Lemma conn_read v N ext fd d buf n r b : vfs_at getpid v N ext → conn v N fd d → valid_buf buf n →
  dev_read d buf n (devs v) = Ok (r, b) → 0 ≤ r → read fd buf n v = Ok ((r, b), v).
Proof.
  intros HV (Hfd & f & Ef & Hfl & HN) Hb Ed Hr.
  destruct (wp_run _ _ _ (wp_read getpid fd buf n v N ext HV Hfd Hb)) as ([r' b'] & v' & E & _ & HW).
  specialize (HW f Ef). rewrite Hfl, (conn_reaches op_read _ _ _ _ _ _ HV Ef HN) in HW. simpl in HW.
  destruct HW as (rw & f1 & w & Em & HT). rewrite Ed in Em. simpl in Em. injection Em as <- <- <- <-.
  destruct (transferred_same _ _ _ _ _ _ _ Ef Hr HT) as [-> ->]. rewrite E. by destruct v.
Qed.

Lemma perform_one e (h : hw) : ∃ h', perform e h = Ok (1, h').
Proof.
  destruct e as [[] b]; unfold perform; cbn [fst snd]; [unfold leds_write| |unfold valve_write|unfold motor_write];
    try (simpl; eexists; reflexivity).
  destruct (display_total (Some [b]) 1 h) as [[r h'] E]; [done|]. exists h'. rewrite E. do 2 f_equal.
  unfold display_write, with_byte in E. simpl in E. destruct (100 <=? u8 b); [congruence|].
  repeat case_match; congruence.
Qed.

(** A sequence of writes is the sequence of the drivers' writes. *)
Lemma connected_replay v N ext fds es : vfs_at getpid v N ext → connected v N fds →
  run_writes fds es v = res_bind (replay es (devs v)) (λ h, Ok (tt, upd_devs h v)).
Proof.
  revert v. induction es as [|e es IH]; intros v HV HC; simpl; [by destruct v|].
  destruct (perform_one e (devs v)) as [h Eh]. rewrite Eh. simpl.
  assert (write (fd_of fds e.1) (Some [e.2]) 1 v = Ok (1, upd_devs h v)) as Ew.
  { destruct HC as [HC _]. eapply conn_write; [done|apply HC|done| |done]. by destruct e as [[] b]. }
  unfold bind. rewrite Ew. simpl. rewrite IH; [done| |done]. destruct HV. split; [done|]. by apply in_devs.
Qed.

End Startup.

End Devices.
End Devices.
