(* ===== verification/FsProps.v ===== *)
(** * What the file system promises

    The properties of the inode tree, of descriptors and of the devices behind
    them, with concrete instances over the heap of the memory manager and the
    registers of the board. *)

From Stdlib Require Import String.
From S2P Require Import Prelude Gpio Board Dogfeed Feeder Queue Heap HeapInit HeapClient.
From S2P Require Import Inode InodeTree InodeSpec InodeOps KmmHeap Files FilesSpec FilesOps FilesHist Boot Devices.

Module FsProps.
Import Gpio KmmHeap Devices.
#[local] Open Scope cmd_scope.

(** ** The tree *)

Section Tree.
Context {H : Type} {kmmI : Kmm H} {kmmL : KmmLaws H} (getpid : Z).
Hypothesis pid_ok : getpid ≠ NO_HOLDER.
Implicit Types (s : fsys H) (T : forest) (D : list forest) (L : gset Z).

(** C21: [inode_search] finds exactly the nodes that the tree has under the names of
    the path, in whatever order it keeps them. *)
Theorem search_exact path s T D L b : fs_ok s T D L → b ≠ NULL →
  ∃ r, inode_search path s = Ok (r, s) ∧
    (f_node r = b ∧ f_relpath r = Some [] ↔ ∃ j, at_path T (path_of path) b j).
Proof.
  intros HO Hb. destruct (wp_run _ _ _ (wp_search path s T D L HO)) as (r & s' & E & -> & _ & _ & HF).
  exists r. split; [exact E|]. fold (path_of path) in HF. pose proof (ok_sorted _ _ _ _ HO) as HS.
  destruct (find T (path_of path)) as [[[a i] rest]|] eqn:Ef.
  - destruct HF as (-> & Hrest & ->). split.
    + intros [-> [= Hn]]. rewrite Hn in Hrest. simpl in Hrest. subst rest. exists i. by apply find_at_path.
    + intros [j Hj]. apply find_at_path in Hj; [|done]. rewrite Ef in Hj. injection Hj as -> -> ->. split; [done|].
      destruct (f_name r) as [|c x]; [done|]. exfalso. unfold rest_segs in Hrest.
      destruct (segs_cons (c :: x)) as (t & tl & Et). by rewrite Et in Hrest.
  - destruct HF as (-> & _ & ->). split; [by intros [_ ?]|].
    intros [j Hj]. apply find_at_path in Hj; [|done]. by rewrite Ef in Hj.
Qed.

(** C22: [register_driver] on an absolute path: nothing happens where there is an
    inode already ([-EEXIST]); otherwise the path names a new inode with the
    driver's operations, or memory runs out ([-ENOMEM]).  Every other name stays
    what it was; the only new ones are directories on the way to the path. *)
Theorem register_outcome path fops pv s T D L : lockable getpid (g_inode_sem s) → fs_ok s T D L →
  is_absolute path = true → Z.of_nat (length path) < 2 ^ 30 →
  ∃ r s', register_driver getpid path fops pv s = Ok (r, s') ∧
    match find T (path_of path) with
    | Some _ => r = - EEXIST ∧ s' = s
    | None => registered s T D L (path_of path) fops pv r s'
    end.
Proof. intros Hl HO Ha Hlen. exact (wp_run _ _ _ (wp_register getpid path fops pv s T D L pid_ok Hl HO Ha Hlen)). Qed.

(** What was registered is found: [inode_find] on the path returns the inode, with
    the operations and the data that were registered, and one reference. *)
Theorem register_then_find path fops pv s T D L s' : lockable getpid (g_inode_sem s) → fs_ok s T D L →
  is_absolute path = true → Z.of_nat (length path) < 2 ^ 30 →
  register_driver getpid path fops pv s = Ok (OK, s') →
  ∃ p n s2, inode_find getpid path s' = Ok ((p, Some []), s2) ∧ ¬ (p ∈ L) ∧
    inodes s2 !! p = Some n ∧ i_ops n = fops ∧ i_private n = pv ∧ i_crefs n = 1.
Proof.
  intros Hl HO Ha Hlen E.
  pose proof (wp_ok_inv _ _ _ _ _ (wp_register getpid path fops pv s T D L pid_ok Hl HO Ha Hlen) E) as HR. cbv beta in HR.
  destruct (find T (path_of path)); [by destruct HR|].
  destruct HR as (El & _ & T' & ks & HO' & Hks & [[_ (p & Hp & Ef)]|[? _]] & _); [|done].
  assert (lockable getpid (g_inode_sem s')) as Hl' by (by rewrite El).
  assert (∀ a i rest, find T' (path_of path) = Some (a, i, rest) → crefs i < 32767) as Hc.
  { intros a i rest Ea. rewrite Ef in Ea. by injection Ea as <- <- <-. }
  destruct (wp_run _ _ _ (wp_find getpid path s' T' D _ pid_ok Hl' HO' Ha Hc)) as (r & s2 & E2 & HF).
  rewrite Ef in HF. destruct HF as (rp & -> & Hrp & ->). simpl in E2.
  destruct (find_addr _ _ _ _ _ _ _ _ HO' Ef) as (_ & _ & x & y & En).
  assert (rp = []) as ->.
  { destruct rp as [|c z]; [done|]. unfold rest_segs in Hrp. destruct (segs_cons (c :: z)) as (t & tl & Et). by rewrite Et in Hrp. }
  eexists p, _, _. split; [exact E2|]. split; [by apply (proj1 (Forall_forall _ _) Hks)|].
  simpl. rewrite lookup_alter_eq, En. done.
Qed.

(** C23: [unregister_driver]: nothing under the path names anything any more, all
    other names stay.  An inode that is not in use is freed with everything below
    it; one that is in use is only marked ([-EBUSY]). *)
Theorem unregister_outcome path s T D L : lockable getpid (g_inode_sem s) → fs_ok s T D L → is_absolute path = true →
  ∃ r s', unregister_driver getpid path s = Ok (r, s') ∧
    match find T (path_of path) with
    | Some (a, i, rest) => removed s T D L (path_of path) a i rest r s' ∧
        ∀ ss, find (del T (path_of path)) ss =
          if bool_decide (gone T (path_of path) `prefix_of` ss) then None else find T ss
    | None => r = - ENOENT ∧ s' = s
    end.
Proof.
  intros Hl HO Ha. destruct (wp_run _ _ _ (wp_unregister getpid path s T D L pid_ok Hl HO Ha)) as (r & s' & E & HR).
  exists r, s'. split; [exact E|]. destruct (find T (path_of path)) as [[[a i] rest]|] eqn:Ef; [|done].
  split; [exact HR|]. intros ss. by apply (find_del _ _ a i rest); [apply HO|].
Qed.

(** C25: An inode that was removed while it was in use is freed, with what is below
    it, when its last reference is given back, and not before. *)
Theorem release_outcome a i c s T D1 D2 L : lockable getpid (g_inode_sem s) →
  fs_ok s T (D1 ++ FCons a i c FNil :: D2) L →
  ∃ s', inode_release getpid a s = Ok (tt, s') ∧ g_inode_sem s' = g_inode_sem s ∧
    if crefs i =? 1 then fs_ok s' T (D1 ++ D2) (L ∖ list_to_set (a :: addrs c))
    else fs_ok s' T (at_crefs a (crefs i - 1) <$> D1 ++ FCons a i c FNil :: D2) L.
Proof.
  intros Hl HO. pose proof (ok_zombies _ _ _ _ HO) as [_ [HZ _]%Forall_cons]%Forall_app.
  destruct HZ as (HT & Hd & Hc & _). destruct HT as (_ & Ha & x & y & En & _).
  destruct (Z.eqb_spec (crefs i) 1) as [E1|N1].
  - destruct (wp_run _ _ _ (wp_release_last getpid a i c s T D1 D2 L pid_ok Hl HO E1)) as ([] & s' & E & El & HO' & _).
    exists s'. done.
  - assert (wp (inode_release getpid a) (λ _ s', s' = set_crefs a (crefs i - 1) s) s) as HW.
    { eapply wp_release_keep; [done|done|done|exact En|simpl; lia|left; simpl; lia|]. simpl. by rewrite Z.max_r by lia. }
    destruct (wp_run _ _ _ HW) as ([] & s' & E & ->). eexists. split; [exact E|]. split; [done|].
    assert (at_crefs a (crefs i - 1) T = T) as ET.
    { apply map_at_notin. intros HaT. pose proof (ok_nodup _ _ _ _ HO) as (_ & HN & _)%NoDup_app. apply (HN a HaT).
      apply list_elem_of_bind. exists (FCons a i c FNil). set_solver. }
    rewrite <- ET at 1. apply set_crefs_ok; [exact HO|lia|lia].
Qed.

End Tree.

(** ** Descriptors *)

Section Descriptors.
Context {H W : Type} {kmmI : Kmm H} {kmmL : KmmLaws H} {drvI : Drivers W} {drvL : DriverLaws W} {netI : Sockets W}.
Context {dirI : DirOps W} {dirL : DirLaws W}.
Context (getpid : Z).
Hypothesis pid_ok : getpid ≠ NO_HOLDER.
Implicit Types (v : vfs H W) (ext : Z → Z) (N : naming).

(** C10: Through any sequence of [allowed] calls that open, close and duplicate descriptors,
    transfer data, set flags, register and remove drivers, make and remove
    directories and unlink files, an inode has exactly as many references as there
    are descriptors open on it (besides those held elsewhere), every descriptor is
    open on an inode that exists, and the next allowed call is defined.

    A call is allowed when its descriptors are in the range of the table; a
    buffer is as long as the count says; a position to seek to does not leave 32
    bits; a path to register or to make is shorter than 2^30, and one to register
    or remove is absolute; [F_DUPFD] has an argument that is not negative.  Two
    things are excluded that the program can do and that break the claim: to
    remove a driver while a descriptor is open on something below it, whose
    memory is freed ([removed_under_open_file]), and to unlink where a
    driver refuses it, which never releases the lock of the tree
    ([unlink_keeps_lock]). *)
Theorem descriptors_in_order v0 N ext v : vfs_at getpid v0 N ext → (∀ a, ext a ≤ 32000) → reach getpid v0 v →
  (∀ a n, inodes (fs v) !! a = Some n → i_crefs n = refs a (fl_files v) + ext a) ∧
  (∀ f, f ∈ fl_files v → f_inode f ≠ NULL → is_Some (inodes (fs v) !! f_inode f)) ∧
  (∀ c, allowed v c → ∃ r v', run_syscall getpid c v = Ok (r, v')).
Proof.
  intros HV He HR. destruct (reach_ok getpid pid_ok v0 N ext v HV He HR) as [N' HV']. pose proof HV' as (_ & T & D & L & HO & _).
  split_and!; [apply HO|apply HO|]. intros c HA.
  destruct (wp_run _ _ _ (run_syscall_ok getpid pid_ok c v N' ext HV' He HA)) as (r & v' & E & _). eauto.
Qed.

(** C24: [open]: the path must name a driver or a mountpoint with operations that
    allow the access, and there must be a free descriptor; then the lowest free
    descriptor is open on the inode, unless the driver's [open] fails.  On every
    error the table is as before and the reference has been given back. *)
Theorem open_outcome path oflags v N ext : vfs_at getpid v N ext → (∀ a, ext a ≤ 32000) →
  ∃ r v', open getpid path oflags v = Ok (r, v') ∧ vfs_at getpid v' N ext ∧ open_result v N path oflags r v'.
Proof.
  intros HV He. destruct (wp_run _ _ _ (wp_open getpid pid_ok path oflags v N ext HV He)) as (r & v' & E & HV' & HR). eauto.
Qed.

(** [close] on an open descriptor frees the descriptor and gives its reference
    back, whatever the driver's [close] returns; a descriptor that is not open
    is refused with [EBADF].  Paths name what they named before. *)
Theorem close_outcome fd v N ext : vfs_at getpid v N ext → 0 ≤ fd < CONFIG_NFILE_DESCRIPTORS →
  ∃ r v', close getpid fd v = Ok (r, v') ∧ vfs_at getpid v' N ext ∧ close_result v fd r v'.
Proof.
  intros HV Hfd. destruct (wp_run _ _ _ (wp_close getpid pid_ok fd v N ext HV Hfd)) as (r & v' & E & HV' & HR). eauto.
Qed.

(** C27: A descriptor that [open] returned can be closed, and both calls together
    leave every other descriptor, every reference count of the table and what
    paths name as they were. *)
Theorem open_then_close path oflags v N ext fd v1 : vfs_at getpid v N ext → (∀ a, ext a ≤ 32000) →
  open getpid path oflags v = Ok (fd, v1) → 0 ≤ fd →
  ∃ r v2, close getpid fd v1 = Ok (r, v2) ∧ vfs_at getpid v2 N ext ∧
    (∀ k, k ≠ Z.to_nat fd → fl_files v2 !! k = fl_files v !! k) ∧ ∀ a, a ≠ NULL → refs a (fl_files v2) = refs a (fl_files v).
Proof.
  intros HV He E Hfd. destruct (wp_ok_inv _ _ _ _ _ (wp_open getpid pid_ok path oflags v N ext HV He) E) as [HV1 HR].
  unfold open_result, open_inode in HR.
  destruct (if is_absolute path then N (path_of path) else None) as [[[a i] rest]|]; [|by destruct HR as [-> _]].
  destruct (_ || _); [by destruct HR as [-> _]|]. destruct (_ <? 0); [by destruct HR as [-> _]|].
  destruct (free_entry (fl_files v) 0) as [k|] eqn:Ek; [|by destruct HR as [-> _]].
  destruct HR as (rp & ro & f1 & w & _ & _ & _ & _ & _ & HR). destruct (ro <? 0); [by destruct HR as [-> _]|].
  destruct HR as (-> & _ & EF). destruct (free_entry_Some _ _ _ Ek) as (f0 & E0 & Hf0 & _ & Hk).
  destruct HV as (_ & T & D & L & HO & _). rewrite (vo_len _ _ _ _ _ _ HO) in Hk.
  assert (0 ≤ Z.of_nat k < CONFIG_NFILE_DESCRIPTORS) as Hr by lia.
  destruct (wp_run _ _ _ (wp_close getpid pid_ok (Z.of_nat k) v1 N ext HV1 Hr)) as (r & v2 & E2 & HV2 & HC).
  exists r, v2. split; [exact E2|]. split; [done|].
  unfold close_result in HC. rewrite Nat2Z.id in HC |- *. rewrite EF, list_lookup_insert_eq in HC by (by eapply lookup_lt_Some).
  assert (∃ g, f_inode g = NULL ∧ fl_files v2 = <[k := g]> (fl_files v1)) as (g & Hg & EG).
  { destruct (Z.eqb_spec (f_inode f1) NULL) as [Ef|Ef].
    - destruct HC as (_ & _ & -> & _). exists f1. split; [done|]. rewrite EF, list_insert_insert_eq. done.
    - destruct HC as (n & g1 & rc & w' & _ & _ & -> & _). eexists. split; [|by rewrite EF]. done. }
  rewrite EF, list_insert_insert_eq in EG. rewrite EG. split.
  - intros j Hj. by rewrite list_lookup_insert_ne.
  - intros b Hb. rewrite (refs_insert _ _ _ f0) by done. rewrite Hf0, Hg. lia.
Qed.

(** [dup2] on two different descriptors: afterwards both are open on the inode of
    the first, or the second is closed and the call has failed; no other
    descriptor changes.  A descriptor duplicated to itself stays as it is. *)
Theorem dup2_outcome fd1 fd2 v N ext : vfs_at getpid v N ext → (∀ a, ext a ≤ 32000) →
  0 ≤ fd1 < CONFIG_NFILE_DESCRIPTORS → 0 ≤ fd2 < CONFIG_NFILE_DESCRIPTORS →
  ∃ r v', dup2 getpid fd1 fd2 v = Ok (r, v') ∧ vfs_at getpid v' N ext ∧
    if fd1 =? fd2 then is_open v fd1 → r = fd1 ∧ v' = v else dup2_result v (Z.to_nat fd1) (Z.to_nat fd2) r v'.
Proof.
  intros HV He H1 H2. destruct (wp_run _ _ _ (wp_dup2 getpid pid_ok fd1 fd2 v N ext HV He H1 H2)) as (r & v' & E & HV' & HR). eauto.
Qed.

(** [dup] takes the lowest free descriptor. *)
Theorem dup_outcome fd v N ext : vfs_at getpid v N ext → (∀ a, ext a ≤ 32000) → 0 ≤ fd < CONFIG_NFILE_DESCRIPTORS →
  ∃ r v', dup getpid fd v = Ok (r, v') ∧ vfs_at getpid v' N ext ∧ dup_result v fd 0 r v'.
Proof.
  intros HV He Hfd. unfold dup. rewrite is_fd_range by done.
  destruct (wp_run _ _ _ (wp_dupfd getpid pid_ok fd 0 v N ext HV Hfd He)) as (r & v' & E & HV' & HR). eauto.
Qed.

End Descriptors.

(** ** The devices *)

Section Board.
Context {hw H : Type} {gpioI : Stm32Gpio hw} {gpioL : Stm32GpioLaws hw} {kmmI : Kmm H} {kmmL : KmmLaws H} {netI : Sockets hw}.
Context {consoleI : Console hw} {consoleL : ConsoleLaws hw}.
Context (getpid : Z).
Hypothesis pid_ok : getpid ≠ NO_HOLDER.

(** C6: At start-up the idle task opens [/dev/console], which its driver has registered,
    as descriptor 0 and duplicates it to 1 and 2, and the first task inherits the
    three.  That task, [dogfeed_main], then configures the pins and registers the five drivers, and
    opens them: it gets the descriptors 3 to 7 in this order, unless a device
    path names nothing since its registration failed, and 0 to 2 are still the
    console.  From then on a sequence of writes to the
    descriptors does to the registers what the drivers' writes do, and a read of
    the buttons is the driver's read.

    The file system at the start is any in which the console is registered
    and the device paths name the board's drivers or nothing, with fewer than
    31000 references held to an inode.  The serial driver is a parameter whose
    [open] succeeds. *)
Theorem devices_connected (v : vfs H hw) N ext c : vfs_in getpid v N ext → (∀ a, ext a ≤ 31000) →
  fl_files v = replicate 8 no_file → N (path_of console_path) = Some (console_at c) → devices_named N →
  ∃ v1 v2 v3 N' o v4, group_setupidlefiles getpid v = Ok (OK, v1) ∧
    group_setuptaskfiles getpid v1 = Ok (std_files c, v2) ∧ fl_files v1 = std_files c ∧ fl_files v2 = std_files c ∧
    archinitialize getpid v2 = Ok (tt, v3) ∧ vfs_at getpid v3 N' (with_table (std_files c) ext) ∧
    open_devices getpid v3 = Ok (o, v4) ∧ devs v4 = (Board.nsh_archinitialize (devs v2)).1 ∧
    match o with
    | None => ∃ d, N' (path_of (dev_path d)) = None
    | Some fds => fds = Feeder.mkfds 3 4 5 6 7 ∧ take 3 (fl_files v4) = replicate 3 (open_on c) ∧
        (∀ es, run_writes fds es v4 = res_bind (Feeder.replay es (devs v4)) (λ h', Ok (tt, upd_devs h' v4))) ∧
        ∀ stack, read (Feeder.fd_button fds) (Some [stack]) 1 v4 =
          res_bind (Board.button_read (Some [stack]) 1 (devs v4)) (λ x, Ok (x, v4))
    end.
Proof.
  intros HV He EF Ec HN. pose proof (console_ready N c Ec) as Hc.
  destruct (wp_run _ _ _ (wp_setupidle getpid pid_ok c v N ext HV ltac:(intros b; specialize (He b); lia) Hc EF))
    as (? & v1 & E1 & -> & HV1 & F1).
  destruct (wp_run _ _ _ (wp_setuptask getpid pid_ok c v1 N ext HV1 He Hc F1)) as (? & v2 & E2 & -> & HV2 & F2).
  destruct (wp_run _ _ _ (wp_archinitialize getpid pid_ok v2 N _ HV2 HN)) as ([] & v3 & E3 & N' & HV3 & HN' & Ed & F3).
  assert (c ≠ NULL) as Hn by (destruct (named_inode getpid v1 N _ _ _ _ _ HV1 Ec); done).
  assert (filled 3 v3) as Hk.
  { exists (replicate 3 (open_on c)), 5%nat. rewrite F3, F2. split_and!; [done|done|done|]. by repeat constructor. }
  assert (∀ b, with_table (std_files c) ext b ≤ 32000) as He'.
  { intros b. specialize (He b). pose proof (refs_bounds b (std_files c)) as Hr.
    change (Z.of_nat (length (std_files c))) with 8 in Hr. unfold with_table. lia. }
  destruct (wp_run _ _ _ (wp_open_devices getpid pid_ok v3 N' _ HV3 HN' He' Hk)) as (o & v4 & E4 & HV4 & Ed4 & HR).
  exists v1, v2, v3, N', o, v4. split_and!; try done; [by rewrite Ed4, Ed|]. destruct o as [fds|]; [|done].
  destruct HR as (-> & HC & HT). rewrite F3, F2 in HT. split_and!; [done|exact HT| |].
  - intros es. by eapply connected_replay.
  - intros stack. destruct HC as [_ HC].
    destruct (dev_read_total Buttons (Some [stack]) 1 (devs v4)) as (r & b & Er); [done|].
    assert (r = 1) as -> by (unfold dev_read, Board.button_read, Board.with_byte in Er; simpl in Er; congruence).
    change (dev_read Buttons (Some [stack]) 1 (devs v4)) with (Board.button_read (Some [stack]) 1 (devs v4)) in Er.
    rewrite Er. exact (conn_read getpid v4 N' _ _ Buttons (Some [stack]) 1 1 b HV4 HC ltac:(done) Er ltac:(done)).
Qed.

End Board.

(** ** Instances: the heap of 512 bytes and the registers of the F1 *)

#[export] Instance no_sockets : Sockets F1.regs := {
  net_close _ := ret ERROR;
  recv _ buf _ := ret (ERROR, buf);
  send _ _ _ := ret ERROR;
  netdev_ioctl _ _ _ := ret ERROR;
  net_dupsd _ _ := ret ERROR;
  net_dupsd2 _ _ := ret ERROR;
  net_vfcntl _ _ _ := ret ERROR
}.

(** A console that is always ready: it reads zeros and drops what is written. *)
#[export] Instance null_console : Console F1.regs :=
  mkfops (Some (λ f, ret (OK, f))) (Some (λ f, ret (OK, f))) (Some (λ f buf n, ret (0, buf, f)))
    (Some (λ f buf n, ret (n, f))) None (Some (λ f _ _, ret (- ENOSYS, f))).

#[export] Instance null_console_laws : ConsoleLaws F1.regs.
Proof.
  split; try by intros * [= <-].
  - by split; eexists.
  - by eexists.
Qed.

Definition heap0 : Heap.heap :=
  match Heap.mm_initialize 8192 512 HeapInit.h0 with Ok (_, h) => h | Undef _ => HeapInit.h0 end.

Lemma heap0_ok : kmm_ok heap0 ∅.
Proof. destruct heap_ok_fresh as (h & E & Hh). unfold heap0. by rewrite E. Qed.

Definition v0 : vfs Heap.heap F1.regs := booted heap0 Feeder.bare.
Definition leds_path : list Z := dev_path (Out Dogfeed.Led).

(** The result of a command, when it has one. *)
Definition result {S A} (m : M S A) (s : S) : option A :=
  match m s with Ok (a, _) => Some a | Undef _ => None end.

Lemma v0_at : vfs_at 1 v0 (λ _, None) (λ _, 0).
Proof. apply (booted_at 1 heap0 Feeder.bare ∅); [exact heap0_ok|exact I]. Qed.

Lemma v0_fs : fs_ok (fs v0) FNil [] ∅ ∧ lockable 1 (g_inode_sem (fs v0)).
Proof.
  split; [|right; by split_and!]. split; simpl; try done; [constructor|exact heap0_ok].
Qed.

Lemma result_ok {S A} (m : M S A) s a s' b : m s = Ok (a, s') → result m s = Some b → a = b.
Proof. unfold result. intros ->. by intros [= ->]. Qed.

(** A driver is registered. *)
Lemma leds_registered : ∃ s T L p, register_driver 1 leds_path 7 9 (fs v0) = Ok (OK, s) ∧ fs_ok s T [] L ∧
  lockable 1 (g_inode_sem s) ∧ find T (path_of leds_path) = Some (p, mkinfo 0 0 7 9 (default [] (last (path_of leds_path))), []).
Proof.
  destruct v0_fs as [HO Hl].
  destruct (wp_run _ _ _ (wp_register 1 leds_path 7 9 (fs v0) FNil [] ∅ ltac:(done) Hl HO ltac:(done) ltac:(done)))
    as (r & s & E & HR).
  assert (r = OK) as -> by (apply (result_ok _ _ _ _ _ E); by vm_compute).
  change (find FNil (path_of leds_path)) with (@None (Z * info * list name)) in HR. cbv iota in HR.
  destruct HR as (El & _ & T & ks & HO' & _ & [[_ (p & _ & Ef)]|[Hr _]] & _); [|discriminate Hr].
  exists s, T, (list_to_set ks ∪ ∅), p. split; [exact E|]. split; [exact HO'|]. split; [by rewrite El|exact Ef].
Qed.

(** It is removed while it is in use. *)
Lemma leds_zombie : ∃ (s : fsys Heap.heap) T a i c L, fs_ok s T ([] ++ FCons a i c FNil :: []) L ∧ lockable 1 (g_inode_sem s) ∧ crefs i = 1.
Proof.
  destruct leds_registered as (s & T & L & p & _ & HO & Hl & Ef).
  assert (1 ≠ NO_HOLDER) as Hp by done.
  pose proof (set_crefs_ok p 1 s T [] L HO ltac:(lia) ltac:(lia)) as HO1.
  assert (find (at_crefs p 1 T) (path_of leds_path) =
    Some (p, mkinfo 1 0 7 9 (default [] (last (path_of leds_path))), [])) as Ef1.
  { unfold at_crefs. rewrite find_map_at by done. rewrite Ef. simpl. by rewrite Z.eqb_refl. }
  destruct (wp_run _ _ _ (wp_unregister 1 leds_path (set_crefs p 1 s) _ _ _ Hp Hl HO1 eq_refl)) as (r & s' & E & HR).
  rewrite Ef1 in HR. destruct HR as (El & _ & o & c & e & x & _ & _ & HR). simpl in HR. destruct HR as [_ HR].
  eexists s', _, p, _, c, L. split_and!; [exact HR|by rewrite El|done].
Qed.

Lemma search_exact_witness : ∃ (s : fsys Heap.heap) T b r, b ≠ NULL ∧ inode_search leds_path s = Ok (r, s) ∧
  (f_node r = b ∧ f_relpath r = Some [] ↔ ∃ j, at_path T (path_of leds_path) b j) ∧ ∃ j, at_path T (path_of leds_path) b j.
Proof.
  destruct leds_registered as (s & T & L & p & _ & HO & _ & Ef).
  assert (p ≠ NULL) as Hp by (destruct (find_addr _ _ _ _ _ _ _ _ HO Ef) as [? _]; assumption).
  destruct (search_exact leds_path s T [] L p HO Hp) as (r & E & HI). exists s, T, p, r.
  split; [exact Hp|]. split; [exact E|]. split; [exact HI|]. eexists. apply find_at_path; [apply HO|exact Ef].
Defined.

Lemma register_outcome_witness : ∃ r s', register_driver 1 leds_path 7 9 (fs v0) = Ok (r, s') ∧
  registered (fs v0) FNil [] ∅ (path_of leds_path) 7 9 r s'.
Proof.
  destruct v0_fs as [HO Hl].
  apply (register_outcome 1 ltac:(discriminate) leds_path 7 9 (fs v0) FNil [] ∅ Hl HO eq_refl). reflexivity.
Defined.

Lemma register_then_find_witness : ∃ s' p n s2, register_driver 1 leds_path 7 9 (fs v0) = Ok (OK, s') ∧
  inode_find 1 leds_path s' = Ok ((p, Some []), s2) ∧ inodes s2 !! p = Some n ∧ i_ops n = 7.
Proof.
  destruct v0_fs as [HO Hl]. destruct leds_registered as (s' & _ & _ & _ & E & _).
  destruct (register_then_find 1 ltac:(discriminate) leds_path 7 9 (fs v0) FNil [] ∅ s' Hl HO eq_refl ltac:(reflexivity) E)
    as (p & n & s2 & E2 & _ & En & Eo & _).
  exists s', p, n, s2. split; [exact E|]. split; [exact E2|]. split; [exact En|exact Eo].
Defined.

Lemma unregister_outcome_witness : ∃ (s : fsys Heap.heap) T D L a i rest r s', unregister_driver 1 leds_path s = Ok (r, s') ∧
  removed s T D L (path_of leds_path) a i rest r s'.
Proof.
  destruct leds_registered as (s & T & L & p & _ & HO & Hl & Ef).
  destruct (unregister_outcome 1 ltac:(discriminate) leds_path s T [] L Hl HO eq_refl) as (r & s' & E & HR).
  rewrite Ef in HR. destruct HR as [HR _]. eexists _, _, _, _, _, _, _, _, _. split; [exact E|exact HR].
Defined.

Lemma release_outcome_witness : ∃ (s : fsys Heap.heap) T D a i c L s', crefs i = 1 ∧ inode_release 1 a s = Ok (tt, s') ∧
  fs_ok s' T D (L ∖ list_to_set (a :: addrs c)).
Proof.
  destruct leds_zombie as (s & T & a & i & c & L & HO & Hl & Hc).
  destruct (release_outcome 1 ltac:(discriminate) a i c s T [] [] L Hl HO) as (s' & E & _ & HR).
  rewrite Hc in HR. exists s, T, ([] ++ []), a, i, c, L, s'. split; [exact Hc|]. split; [exact E|exact HR].
Defined.

(** The drivers of the board are registered and one is open. *)
Lemma devices_open : ∃ (v : vfs Heap.heap F1.regs) N f, vfs_at 1 v N (λ _, 0) ∧ fl_files v !! 0%nat = Some f ∧ f_inode f ≠ NULL ∧
  N (path_of leds_path) = Some (driver_at (Out Dogfeed.Led) (f_inode f)) ∧ free_entry (fl_files v) 0 = Some 1%nat.
Proof.
  destruct (wp_run _ _ _ (wp_archinitialize 1 ltac:(done) _ _ _ v0_at ltac:(by left))) as ([] & v1 & E1 & N & HV1 & HN & _ & EF).
  assert (filled 0 v1) as Hk by (exists [], 8%nat; rewrite EF; by split_and!).
  destruct (wp_run _ _ _ (wp_open_device 1 ltac:(done) (Out Dogfeed.Led) 0 v1 N _ HV1 HN ltac:(done) Hk ltac:(lia)))
    as (r & v2 & E2 & HV2 & _ & HR).
  assert (result (archinitialize 1 ;;; open 1 leds_path O_RDWR) v0 = Some 0) as ER by (by vm_compute).
  unfold result, bind in ER. rewrite E1 in ER. simpl in ER. unfold leds_path in ER. rewrite E2 in ER. injection ER as ->.
  change (0 <? 0) with false in HR. destruct HR as (_ & Hk2 & (_ & f & Ef & _ & Hf) & _).
  exists v2, N, f. split_and!; [done|exact Ef| |exact Hf|by apply free_entry_filled; [|lia]].
  by destruct (named_inode 1 v2 N _ _ _ _ _ HV2 Hf).
Qed.

Lemma descriptors_in_order_witness : ∃ v c r v', reach 1 v0 v ∧ allowed v c ∧ run_syscall 1 c v = Ok (r, v').
Proof.
  destruct (run_syscall 1 (Register leds_path 1 0) v0) as [[r v]|] eqn:E; [|vm_compute in E; discriminate].
  assert (reach 1 v0 v) as HR by (eapply reach_call; [apply reach_start| |exact E]; split; reflexivity).
  destruct (descriptors_in_order 1 ltac:(discriminate) v0 _ _ v v0_at ltac:(discriminate) HR) as (_ & _ & HD).
  destruct (HD (Open leds_path O_RDWR) I) as (r' & v' & E'). exists v, (Open leds_path O_RDWR), r', v'.
  split; [exact HR|]. split; [exact I|exact E'].
Defined.

Lemma open_outcome_witness : ∃ (v : vfs Heap.heap F1.regs) N r v', open 1 leds_path O_RDWR v = Ok (r, v') ∧ open_result v N leds_path O_RDWR r v' ∧
  fl_files v !! 0%nat ≠ None.
Proof.
  destruct devices_open as (v & N & f & HV & Ef & Hf & _).
  destruct (open_outcome 1 ltac:(discriminate) leds_path O_RDWR v N _ HV ltac:(discriminate)) as (r & v' & E & _ & HR).
  exists v, N, r, v'. split; [exact E|]. split; [exact HR|]. rewrite Ef. discriminate.
Defined.

Lemma close_outcome_witness : ∃ (v : vfs Heap.heap F1.regs) f r v', fl_files v !! 0%nat = Some f ∧ f_inode f ≠ NULL ∧ close 1 0 v = Ok (r, v') ∧
  close_result v 0 r v'.
Proof.
  destruct devices_open as (v & N & f & HV & Ef & Hf & _).
  destruct (close_outcome 1 ltac:(discriminate) 0 v N _ HV ltac:(split; [discriminate|reflexivity])) as (r & v' & E & _ & HR).
  exists v, f, r, v'. split; [exact Ef|]. split; [exact Hf|]. split; [exact E|exact HR].
Defined.

Lemma dup2_outcome_witness : ∃ (v : vfs Heap.heap F1.regs) r v', dup2 1 0 7 v = Ok (r, v') ∧ dup2_result v 0 7 r v' ∧
  ∃ f, fl_files v !! 0%nat = Some f ∧ f_inode f ≠ NULL.
Proof.
  destruct devices_open as (v & N & f & HV & Ef & Hf & _).
  destruct (dup2_outcome 1 ltac:(discriminate) 0 7 v N _ HV ltac:(discriminate)
    ltac:(split; [discriminate|reflexivity]) ltac:(split; [discriminate|reflexivity])) as (r & v' & E & _ & HR).
  exists v, r, v'. split; [exact E|]. split; [exact HR|]. exists f. split; [exact Ef|exact Hf].
Defined.

(** The console is registered. *)
Lemma console_registered : ∃ (v : vfs Heap.heap F1.regs) N c, vfs_in 1 v N (λ _, 0) ∧ fl_files v = replicate 8 no_file ∧
  N (path_of console_path) = Some (console_at c) ∧ devices_named N ∧
  on_fs (register_driver 1 console_path console_ops NULL) v0 = Ok (OK, v).
Proof.
  destruct (wp_run _ _ _ (wp_register_at 1 ltac:(done) console_path console_ops NULL v0 _ _ v0_at ltac:(done) ltac:(done)))
    as (r & s & E & N & [_ HV] & HR).
  assert (r = OK) as -> by (apply (result_ok _ _ _ _ _ E); by vm_compute).
  unfold register_names in HR. destruct HR as [[[_ [c Ec]]|[Hr _]] HO]; [|discriminate Hr].
  exists (upd_fs s v0), N, c. split_and!; [done|done|exact Ec| |unfold on_fs; by rewrite E].
  intros d. destruct (N (path_of (dev_path d))) as [x|] eqn:Ex; [|by left].
  assert (path_of (dev_path d) ≠ path_of console_path) as Hd by (by destruct d as [[]|]).
  destruct (HO _ Hd _ Ex) as [Hp _]. destruct Hp as [l Hl]. by destruct d as [[]|].
Qed.

Lemma devices_connected_witness : ∃ (v : vfs Heap.heap F1.regs) c v1 v2 v3 v4,
  group_setupidlefiles 1 v = Ok (OK, v1) ∧ group_setuptaskfiles 1 v1 = Ok (std_files c, v2) ∧
  archinitialize 1 v2 = Ok (tt, v3) ∧ open_devices 1 v3 = Ok (Some (Feeder.mkfds 3 4 5 6 7), v4) ∧
  ∀ es, run_writes (Feeder.mkfds 3 4 5 6 7) es v4 = res_bind (Feeder.replay es (devs v4)) (λ h', Ok (tt, upd_devs h' v4)).
Proof.
  destruct console_registered as (v & N & c & HV & EF & Ec & HN & E).
  destruct (devices_connected 1 ltac:(discriminate) v N (λ _, 0) c HV ltac:(discriminate) EF Ec HN)
    as (v1 & v2 & v3 & N' & o & v4 & E1 & E2 & _ & _ & E3 & _ & E4 & _ & HR).
  assert (result (on_fs (register_driver 1 console_path console_ops NULL) ;;; group_setupidlefiles 1 ;;;
    group_setuptaskfiles 1 ;;; archinitialize 1 ;;; open_devices 1) v0 = Some (Some (Feeder.mkfds 3 4 5 6 7))) as ER
    by (vm_compute; reflexivity).
  unfold result, bind in ER. rewrite E in ER. simpl in ER. rewrite E1 in ER. simpl in ER. rewrite E2 in ER. simpl in ER.
  rewrite E3 in ER. simpl in ER. rewrite E4 in ER. injection ER as ->.
  destruct HR as (_ & _ & HW & _). exists v, c, v1, v2, v3, v4. split; [exact E1|]. split; [exact E2|].
  split; [exact E3|]. split; [exact E4|exact HW].
Defined.

Lemma arch_at : ∃ v1 N, archinitialize 1 v0 = Ok (tt, v1) ∧ vfs_at 1 v1 N (λ _, 0).
Proof.
  destruct (wp_run _ _ _ (wp_archinitialize 1 ltac:(done) _ _ _ v0_at ltac:(by left))) as ([] & v1 & E1 & N & HV1 & _).
  exists v1, N. split; [exact E1|exact HV1].
Qed.

Lemma open_then_close_witness : ∃ (v : vfs Heap.heap F1.regs) v1 r v2, open 1 leds_path O_RDWR v = Ok (0, v1) ∧
  close 1 0 v1 = Ok (r, v2) ∧ ∀ a, a ≠ NULL → refs a (fl_files v2) = refs a (fl_files v).
Proof.
  destruct arch_at as (v & N & E & HV).
  assert (result (archinitialize 1 ;;; open 1 leds_path O_RDWR) v0 = Some 0) as ER by (vm_compute; reflexivity).
  unfold result, bind in ER. rewrite E in ER. simpl in ER.
  destruct (open 1 leds_path O_RDWR v) as [[fd v1]|] eqn:E1; [|discriminate ER]. injection ER as ->.
  destruct (open_then_close 1 ltac:(discriminate) leds_path O_RDWR v N _ 0 v1 HV ltac:(discriminate) E1 ltac:(discriminate))
    as (r & v2 & E2 & _ & _ & HR).
  exists v, v1, r, v2. split; [exact E1|]. split; [exact E2|exact HR].
Defined.

(** ** What the calls do that their descriptions do not say *)

(** [inode_basename] returns a null pointer for every path: the loop never
    stores the name that it passes. *)
Theorem basename_null x : inode_basename (List.length x) x = Ok None.
Proof.
  assert (∀ n y, (List.length y ≤ n)%nat → inode_basename n y = Ok None) as Hn; [|by apply Hn].
  induction n as [|n IH]; intros y Hy.
  - destruct y; [done|simpl in Hy; lia].
  - simpl. pose proof (nextname_length y) as HL. destruct (inode_nextname y) as [|c z]; [done|].
    apply IH. specialize (HL ltac:(done)). lia.
Qed.

(** A driver can be registered at the path of the root directory: the tree then
    has an inode without a name. *)
Theorem root_registered :
  result (register_driver 1 (codes "/") 7 9 ;;; r <-- gets root_inode ;; n <-- get r ;; ret (i_name n)) (fs v0) = Some [].
Proof. vm_compute. reflexivity. Qed.

(** [ioctl] and [lseek] succeed on a descriptor that is not open. *)
Theorem closed_descriptor_accepted :
  result (ioctl 3 1 2) v0 = Some OK ∧ result (lseek 3 5 SEEK_SET) v0 = Some 5.
Proof. split; vm_compute; reflexivity. Qed.

(** [dup2] returns 0 instead of the new descriptor. *)
Theorem dup2_returns_zero :
  result (archinitialize 1 ;;; fd <-- open 1 leds_path O_RDWR ;; r <-- dup2 1 fd 5 ;; ret (fd, r)) v0 = Some (0, 0).
Proof. vm_compute. reflexivity. Qed.

(** A directory with an open file below it is removed at once: the file's inode
    is freed while the descriptor still points at it, and the next read goes
    through the freed inode. *)
Theorem removed_under_open_file :
  result (on_fs (register_driver 1 (codes "/a") 1 0) ;;; on_fs (register_driver 1 (codes "/a/b") 1 0) ;;;
    fd <-- open 1 (codes "/a/b") O_RDWR ;; r <-- on_fs (unregister_driver 1 (codes "/a")) ;; ret (fd, r)) v0 = Some (0, OK) ∧
  (on_fs (register_driver 1 (codes "/a") 1 0) ;;; on_fs (register_driver 1 (codes "/a/b") 1 0) ;;;
    fd <-- open 1 (codes "/a/b") O_RDWR ;; r <-- on_fs (unregister_driver 1 (codes "/a")) ;;
    read fd (Some [0]) 1) v0 = Undef OutOfBounds.
Proof. vm_compute. split; reflexivity. Qed.

End FsProps.
