(* ===== verification/DirsProps.v ===== *)
(** * What the directory calls promise

    The properties of [mkdir], [rmdir], [unlink] and [fcntl], with concrete
    instances on the file system of FsProps.v. *)

From Stdlib Require Import String.
From S2P Require Import Prelude Gpio Queue Heap Inode InodeTree InodeSpec InodeOps KmmHeap Files FilesSpec FilesOps.
From S2P Require Import FilesTree Dirs DirsSpec FilesHist Devices FsProps.

Module DirsProps.
Import Gpio KmmHeap Devices FsProps.
#[local] Open Scope cmd_scope.

(** A path below one that leads nowhere leads nowhere. *)
Lemma find_app_none f ss l : ss ≠ [] → find f ss = None → find f (ss ++ l) = None.
Proof.
  revert ss. induction f as [|b j d IHd r IHr]; intros [|s rest] Hn; simpl; try done.
  destruct (name_cmp s (nm j)); [|done|by apply (IHr (s :: rest))].
  destruct (stops rest j) eqn:Es; [done|]. destruct (stops_false _ _ Es) as [Hr Hj]. intros HF.
  assert (stops (rest ++ l) j = false) as ->; [|by apply IHd].
  unfold stops. rewrite Hj, orb_false_r. apply bool_decide_false. by destruct rest.
Qed.

Section Calls.
Context {H W : Type} {kmmI : Kmm H} {kmmL : KmmLaws H} {drvI : Drivers W} {drvL : DriverLaws W} {netI : Sockets W}.
Context {dirI : DirOps W} {dirL : DirLaws W}.
Context (getpid : Z).
Hypothesis pid_ok : getpid ≠ NO_HOLDER.
Implicit Types (v : vfs H W) (ext : Z → Z) (N : naming).

(** [mkdir]: a path that names something is refused, unless a mounted file system
    takes the call; a new path names an empty directory, or memory ran out. *)
Theorem mkdir_outcome path mode v N ext : vfs_at getpid v N ext → (∀ a, ext a ≤ 32000) → Z.of_nat (List.length path) < 2 ^ 30 →
  ∃ r v' N', mkdir getpid path mode v = Ok (r, v') ∧ vfs_at getpid v' N' ext ∧ mkdir_result v N N' path mode r v'.
Proof.
  intros HV He Hl. destruct (wp_run _ _ _ (wp_mkdir getpid pid_ok path mode v N ext HV He Hl)) as (r & v' & E & N' & ? & ?).
  eauto 10.
Qed.

(** [rmdir] removes a directory that has no children and nothing else. *)
Theorem rmdir_outcome path v N ext : vfs_at getpid v N ext → (∀ a, ext a ≤ 32000) →
  ∃ r v' N', rmdir getpid path v = Ok (r, v') ∧ vfs_at getpid v' N' ext ∧ rmdir_result v N N' path r v'.
Proof.
  intros HV He. destruct (wp_run _ _ _ (wp_rmdir getpid pid_ok path v N ext HV He)) as (r & v' & E & N' & ? & ?).
  eauto 10.
Qed.

(** [unlink] removes a driver without children, after telling the driver; when
    the driver refuses, the name stays and the lock of the tree stays taken. *)
Theorem unlink_outcome path v N ext : vfs_at getpid v N ext → (∀ a, ext a ≤ 32000) →
  unlink_accepted v ∨ lockable getpid (taken getpid (g_inode_sem (fs v))) →
  ∃ r v', unlink getpid path v = Ok (r, v') ∧ unlink_result getpid v N ext path r v'.
Proof.
  intros HV He Ha. destruct (wp_run _ _ _ (wp_unlink_file getpid pid_ok path v N ext HV He Ha)) as (r & v' & E & HR). eauto.
Qed.

Theorem fcntl_outcome fd cmd arg v N ext : vfs_at getpid v N ext → 0 ≤ fd < CONFIG_NFILE_DESCRIPTORS →
  (∀ a, ext a ≤ 32000) → (cmd = F_DUPFD → 0 ≤ arg) →
  ∃ r v', fcntl getpid fd cmd arg v = Ok (r, v') ∧ vfs_at getpid v' N ext ∧ fcntl_result v fd cmd arg r v'.
Proof.
  intros HV Hfd He Hd. destruct (wp_run _ _ _ (wp_fcntl getpid pid_ok fd cmd arg v N ext HV Hfd He Hd)) as (r & v' & E & ? & ?).
  eauto.
Qed.

Lemma setfl_bits x y : Z.land (Z.lor (Z.ldiff x FFCNTL) (Z.land y FFCNTL)) O_RDWR = Z.land x O_RDWR.
Proof.
  rewrite Z.land_lor_distr_l, Z.ldiff_land, <- !Z.land_assoc.
  change (Z.land FFCNTL O_RDWR) with 0. change (Z.land (Z.lnot FFCNTL) O_RDWR) with O_RDWR.
  by rewrite Z.land_0_r, Z.lor_0_r.
Qed.

(** [fcntl] cannot change what a descriptor may be used for. *)
Theorem fcntl_keeps_access fd arg v N ext f : vfs_at getpid v N ext → 0 ≤ fd < CONFIG_NFILE_DESCRIPTORS →
  (∀ a, ext a ≤ 32000) → fl_files v !! Z.to_nat fd = Some f →
  ∃ r v' f', fcntl getpid fd F_SETFL arg v = Ok (r, v') ∧ fl_files v' !! Z.to_nat fd = Some f' ∧
    Z.land (f_oflags f') O_RDWR = Z.land (f_oflags f) O_RDWR ∧ f_inode f' = f_inode f ∧ f_pos f' = f_pos f.
Proof.
  intros HV Hfd He Ef.
  destruct (fcntl_outcome fd F_SETFL arg v N ext HV Hfd He ltac:(done)) as (r & v' & E & _ & HR).
  exists r, v'. specialize (HR f Ef). destruct (f_inode f =? NULL).
  - destruct HR as (_ & _ & E2 & _). exists f. rewrite E2. done.
  - simpl in HR. destruct HR as [_ ->]. eexists. split; [exact E|]. split.
    { apply list_lookup_insert_eq. by eapply lookup_lt_Some. }
    split; [apply setfl_bits|done].
Qed.

(** C26: A directory that [mkdir] made can be removed by [rmdir]: the path names
    nothing again, what was named before still is, and no descriptor changes. *)
Theorem mkdir_then_rmdir path mode v N ext v1 : vfs_at getpid v N ext → (∀ a, ext a ≤ 32000) →
  Z.of_nat (List.length path) < 2 ^ 30 → N (path_of path) = None → mkdir getpid path mode v = Ok (OK, v1) →
  ∃ v2 N2, rmdir getpid path v1 = Ok (OK, v2) ∧ vfs_at getpid v2 N2 ext ∧
    fl_files v2 = fl_files v ∧ devs v2 = devs v ∧ N2 (path_of path) = None ∧ ∀ ss x, N ss = Some x → N2 ss = Some x.
Proof.
  intros HV He Hl HN E1.
  destruct (wp_ok_inv _ _ _ _ _ (wp_mkdir getpid pid_ok path mode v N ext HV He Hl) E1) as (N1 & HV1 & HR1).
  unfold mkdir_result, named in HR1. rewrite HN in HR1. destruct (is_absolute path) eqn:Ea; [|by destruct HR1 as (_ & ? & _)].
  destruct HR1 as (G1 & _ & G3 & HG & [(_ & _ & p & Hp)|(? & _)]); [|done].
  destruct (wp_run _ _ _ (wp_rmdir getpid pid_ok path v1 N1 ext HV1 He)) as (r & v2 & E2 & N2 & HV2 & HR2).
  unfold rmdir_result, named in HR2. rewrite Ea, Hp in HR2. simpl in HR2. destruct HR2 as (n & En & HR2).
  destruct HV as (_ & T & D & L & HO & HT). destruct HV1 as (_ & T1 & D1 & L1 & HO1 & HT1).
  assert (∀ l, N (path_of path ++ l) = None) as Hbelow.
  { intros l. rewrite <- HT, names_none in *. apply find_app_none; [apply path_of_ne|done]. }
  pose proof (proj1 (names_find T1 (path_of path) p _ []) ltac:(by rewrite HT1)) as (j & Ef & Ej).
  assert (i_child n = NULL) as Ec.
  { apply (child_named getpid v1 T1 D1 L1 ext (path_of path) p j n HO1 Ef); [|done|].
    - change (mountpt (with_crefs 0 j) = false). by rewrite <- Ej.
    - intros t. rewrite HT1. destruct (N1 (path_of path ++ [t])) as [x|] eqn:Ex; [|done].
      specialize (HG (path_of path ++ [t])). rewrite Hbelow in HG.
      destruct (HG ltac:(intros El; apply (f_equal List.length) in El; rewrite length_app in El; simpl in El; lia) _ Ex) as [Hpre _].
      apply prefix_length in Hpre. rewrite length_app in Hpre. simpl in Hpre. lia. }
  rewrite Ec in HR2. cbn [negb Z.eqb NULL] in HR2. destruct HR2 as [(-> & _ & F1 & _ & HP) F2].
  exists v2, N2. split; [exact E2|]. split; [exact HV2|]. split; [congruence|]. split; [congruence|].
  unfold pruned in HP. rewrite Nat.sub_0_r, firstn_all in HP. split.
  - rewrite HP. by rewrite bool_decide_true.
  - intros ss x Ex. rewrite HP. case_bool_decide as Hpre.
    + destruct Hpre as [l ->]. by rewrite Hbelow in Ex.
    + specialize (HG ss). rewrite Ex in HG. apply HG. intros ->. congruence.
Qed.

End Calls.

(** ** Instances *)

Definition dir_path : list Z := codes "/mnt".

Lemma mkdir_outcome_witness : ∃ r v' N', mkdir 1 dir_path 0 v0 = Ok (r, v') ∧ mkdir_result v0 (λ _, None) N' dir_path 0 r v'.
Proof.
  destruct (mkdir_outcome 1 ltac:(discriminate) dir_path 0 v0 _ _ v0_at ltac:(discriminate) ltac:(reflexivity))
    as (r & v' & N' & E & _ & HR).
  exists r, v', N'. split; [exact E|exact HR].
Defined.

Lemma mkdir_then_rmdir_witness : ∃ v1 v2 N2, mkdir 1 dir_path 0 v0 = Ok (OK, v1) ∧ rmdir 1 dir_path v1 = Ok (OK, v2) ∧
  vfs_at 1 v2 N2 (λ _, 0).
Proof.
  destruct (mkdir 1 dir_path 0 v0) as [[r v1]|] eqn:E; [|vm_compute in E; discriminate E].
  assert (result (mkdir 1 dir_path 0) v0 = Some OK) as ER by (vm_compute; reflexivity).
  unfold result in ER. rewrite E in ER. injection ER as ->.
  destruct (mkdir_then_rmdir 1 ltac:(discriminate) dir_path 0 v0 _ _ v1 v0_at ltac:(discriminate) ltac:(reflexivity)
    eq_refl E) as (v2 & N2 & E2 & HV & _).
  exists v1, v2, N2. split; [reflexivity|]. split; [exact E2|exact HV].
Defined.

(** ** What the calls do that their descriptions do not say *)

(** A driver that does not let its file go. *)
#[local] Instance refusing : DirOps F1.regs := {
  fop_unlink _ := Some (λ _, ret (- EBUSY));
  bop_unlink _ := None;
  mop_mkdir _ := None;
  mop_rmdir _ := None;
  mop_unlink _ := None
}.

(** When a driver refuses to be unlinked, [unlink] returns with the tree locked:
    the caller holds it from then on, and every other task that opens a file
    waits. *)
Theorem unlink_keeps_lock :
  result (on_fs (register_driver 1 (codes "/a") 1 0) ;;; r <-- unlink (dirI := refusing) 1 (codes "/a") ;;
    e <-- gets errno ;; l <-- gets (λ v, g_inode_sem (fs v)) ;; ret (r, e, holder l, count l)) v0 =
  Some (ERROR, EBUSY, 1, 1).
Proof. vm_compute. reflexivity. Qed.

(** [fcntl] on a number that is no descriptor returns [EBADF] as if it were a
    result, and does not set [errno]. *)
Theorem fcntl_bad_descriptor arg : result (r <-- fcntl 1 100 F_GETFL arg ;; e <-- gets errno ;; ret (r, e)) v0 = Some (EBADF, 0).
Proof. vm_compute. reflexivity. Qed.

(** [fcntl] with [F_DUPFD] and a negative number looks at entries before the
    table. *)
Theorem dupfd_negative :
  (on_fs (register_driver 1 (codes "/a") 1 0) ;;; fd <-- open 1 (codes "/a") O_RDWR ;; fcntl 1 fd F_DUPFD (-1)) v0 =
  Undef OutOfBounds.
Proof. vm_compute. reflexivity. Qed.

End DirsProps.
